(* ===== verification/_CoqProject ===== *)
-Q . S2P
Prelude.v
Winsock.v
SockAddr.v
Socks5UdpCodec.v
UdpPolicy.v
UdpBlockLogLimiter.v
Effects.v
Base64Coding.v
AutoBuffer.v
ProxyLayer.v
ProxyLayerUdp.v
ProxyLayerRules.v
ProxyLayerInv.v
ProxyLayerSafety.v
ProxySocks5.v
ProxyHttp.v
ProxyWire.v
ProxyUdp.v
UdpCapability.v
UdpTask.v
UdpTaskRules.v
UdpTaskInv.v
UdpTaskSafety.v
UdpTaskFlow.v
UdpTaskRouting.v
TaskManager.v
UdpTaskMgr.v
UdpTaskMgrInv.v
UdpTaskMgrSafety.v
TcpRelay.v
TcpRelayInv.v
TcpRelayRefinement.v
TcpTask.v
TcpTaskSafety.v
TcpTaskMgr.v
TcpSockets.v
TcpTaskMgrSafety.v
OrderedMap.v
ProcessIdentity.v
ProcessRegistry.v
ChildGuard.v
ChildGuardSafety.v
ChildGuardQuery.v
ChildGuardMarker.v
ChildGuardLive.v
ReceptionCentre.v
ReceptionCentreSafety.v
AppLauncher.v
QuicReports.v
QuicAdmission.v
PipeRecords.v
Base64Url.v
ElevatedLaunch.v
PipeServer.v
PipeServerSafety.v
PipeClient.v
PipeSession.v
PipeCalls.v
DummyDns.v
HackedSockets.v
HookSystem.v
HookConnect.v
HookRules.v
HookConnectSafety.v
HookSend.v
HookSendSafety.v
HookDns.v
HookNames.v
HookLock.v
SecureLayer.v
SecureLayerSafety.v
SecureLayerEvents.v
HelperWindow.v
HelperWindowSafety.v
HelperWindowEvents.v
LogQueue.v
