(* ===== verification/Prelude.v ===== *)
(** * ProxyLane: a verification library for the proxying core

    ProxyLane redirects the connections and datagrams of chosen Windows
    programs to a local process, the reception centre, which carries them
    through a SOCKS4, SOCKS5 or HTTP proxy.  This library models both ends: the
    detours inside a hooked program, the pipe to the host, the host's tables,
    and what happens there to a connection or a datagram until its task is
    deleted.  The sources named below are under src/src/ProxyLaneHook/, unless
    a path says otherwise.

    ** The parts and how they meet

    A hooked program (HookWinsock.cpp) calls Winsock; a detour decides whether
    the call is redirected, registers it at the host over a pipe
    (PRCPipeClient.cpp, PRCPipeServer.cpp) and connects or sends to the host
    instead.  The reception centre (ProxyReceptionCentre.cpp) keeps the
    registrations and the hooked processes (ProcessRegistry.h,
    ProcessIdentity.h), and a guard that ends children which were suspended for
    injection and orphaned.

    A local server (PRCUdpServer.cpp, PRCTcpServer.cpp) takes a registration or
    an accepted socket, asks the settings providers for a proxy, applies the
    DNS redirect and hands it to a task manager (ProxyTaskMgr.cpp).  A TCP
    manager starts one task per connection (TcpProxyTask.cpp): two peers
    (PRCTcpPeer.cpp), the upstream one with the proxy layer
    (asynsocket/AsyncProxySocketLayer.cpp) and, where the proxy is reached over
    TLS, the secure layer (asynsocket/AsyncSecureSocketLayer.cpp) under it.  A
    UDP manager finds or makes a task per application socket (UdpProxyTask.cpp)
    with one local route per destination and one upstream association; a route
    may have a QUIC bridge (QuicBridge.cpp).  All of this runs on one thread:
    the helper window of its sockets (asynsocket/AsyncSocketEx.cpp) and timers
    call back, one handler after the other.

    ** The models

    A component is a record with the fields of its object and, after them, the
    part of the outside it sees: scripts of what the system calls will return,
    the clock, and the list of what it did.  A handler is a function in the
    state monad [M] of Effects.v, composed as the code composes it; code that
    other threads interleave with is a tree of calls ([prog] of HookSystem.v,
    [proc] of PipeRecords.v) or a sequence of locked sections.  An integer has
    its width written out (u8, u16, u32, u64, s32); buffers are byte lists with
    their bounds checked.  What must not happen - an access out of bounds, a
    deleted object used, a call without a session, a loop that outlives its
    fuel - is an output ([OFault], [TFault], [RFault], [MFault], [KFault],
    [SNull], [SFault], [DDead], the outcome [Fault]), and the safety theorems
    say that it is never in the list of outputs.  Where the code itself steps
    outside, the model says so: [OPast] is the scan of an HTTP status line past
    its buffer, [Overran] an encoder whose int sum of lengths wrapped, [DStray]
    an event for a layer that no socket has any more.

    Some outputs and fields are ghosts, which nothing reads: [TForward] (a
    datagram given to the association), the lock log of the child guard, the
    serial numbers of attachments and messages in the helper window, the
    history of a hooked process.

    Shared:
    - Prelude.v, Winsock.v, Effects.v: words, bytes, list lemmas, constants of
      the platform; the monad, its weakest preconditions and preservation.
    - OrderedMap.v: a std::map in iteration order.
    - SockAddr.v: the records of structinfo.h and their methods.

    The proxy's protocols:
    - Socks5UdpCodec.v: Socks5UdpCodec.cpp, the encoders and the decoder.
    - UdpPolicy.v: UdpAssociationPolicy.h, UdpPayloadPolicy.h,
      DnsRedirectPolicy.h, DnsAddressFamilyPolicy.h, Ipv6BlockPolicy.h,
      DnsNamePolicy.h, ProxyTransportPolicy.h.
    - UdpBlockLogLimiter.v, AutoBuffer.v, Base64Coding.v: UdpBlockLogLimiter.h,
      asynsocket/autoBuffer.cpp, asynsocket/CBase64Coding.cpp.
    - ProxyLayer.v, ProxyLayerUdp.v: asynsocket/AsyncProxySocketLayer.cpp, and of
      AsyncSocketExLayer.cpp what it calls.  [world] is the layer's object and
      its next layer; OnConnect, OnReceive and OnSend are its event handlers,
      [ConnectHost], [ConnectAddr], [Listen], [Accept], [Send], [Receive],
      [GetUdpProxyAddr], [SendTo...] and [ReceiveFrom] the calls made on it.
    - SecureLayer.v: asynsocket/AsyncSecureSocketLayer.cpp, every operation;
      the TlsOn... functions are its events.

    Tasks and sockets:
    - TcpRelay.v, TcpTask.v, TcpTaskMgr.v: TimeoutMonitor.h, PRCTcpPeer.cpp with
      the socket primitives it calls, TcpProxyTask.cpp, and the TCP half of
      ProxyTaskMgr.cpp.
    - UdpCapability.v, UdpTask.v, UdpTaskMgr.v: the capability record of the UDP
      manager, UdpProxyTask.cpp with the peers of PRCUdpPeer.cpp, the UDP half of
      ProxyTaskMgr.cpp and the window handlers of PRCUdpServer.cpp.
    - TaskManager.v: what the two managers share, ProxySettings.cpp.
    - QuicReports.v, QuicAdmission.v: the reports of BrowserQuicPolicy.cpp and
      the admission of a connection in QuicBridge.cpp, with the budgets of all
      bridges.
    - HelperWindow.v: of asynsocket/AsyncSocketEx.cpp the helper window with its
      table and messages ([WindowProc]), creating, attaching, closing and
      deleting sockets, triggers, lookups and the list of threads; of
      AsyncSocketExLayer.cpp TriggerEvent.

    The host:
    - ProcessIdentity.v, ProcessRegistry.v: ProcessIdentity.h over the bytes the
      system writes, ProcessRegistry.h in its locked sections.
    - ChildGuard.v, ChildGuardQuery.v, ChildGuardMarker.v: of
      ProxyReceptionCentre.cpp, CheckSuspendedChildren, its query of the system
      and its look into another process's environment.
    - ReceptionCentre.v: the registrations of ProxyReceptionCentre.cpp, OnAccept
      of PRCTcpServer.cpp, DirectIpv6Route.h, TrafficStatistics.h.
    - AppLauncher.v: AppLauncherProtocol.h and HandleAppLaunch of
      PRCPipeServer.cpp.
    - PipeRecords.v, PipeServer.v, PipeClient.v, PipeSession.v: the records of
      structinfo.h as bytes, _InstanceThread of PRCPipeServer.cpp ([serve] is one
      turn), the calls of PRCPipeClient.cpp, and the two at the ends of a pipe.

    A hooked program (HookWinsock.cpp, HookWinsock.h):
    - DummyDns.v, HackedSockets.v: CDummyDNS and CHackedSocket.
    - HookSystem.v: programs of calls, other threads in between, and their
      rules; HookRules.v: what the threads rely on.
    - HookConnect.v: HackConnect and the detours of connect, WSAConnect and
      ConnectEx.  HookSend.v: HackSendTo, the detours of sendto, WSASendTo and
      WSASendMsg, closesocket.  HookDns.v: the getaddrinfo family, getpeername.

    The desktop application (src/src/ProxyLane/):
    - Base64Url.v, ElevatedLaunch.v: the two Base64URL codecs
      (ElevatedLaunchProtocol.h, ProfileShareCodec.h); the request of
      LaunchElevatedAndProxy (Page3.cpp) and ElevatedLaunch (ElevatedLauncher.cpp).
    - LogQueue.v: BoundedLogQueue.h with the messages and the timer of Page2.cpp.

    ** Interfaces

    What is outside this repository, or another process, is a class or an
    argument: [Platform] (name resolution, address text, what memory the code
    leaves unset and what follows a buffer holds), [AddressText] and [InetText]
    (the address parsers of the system), [SecureUdp] (the datagram protection of
    the TLS module), [Transport] with its [TransportLaws] (the TLS sessions),
    [QuicBridge] (the bridge a route may have), [RemoteMemory] (another process's
    memory), [ElevatedSystem] with [Utf8Laws].  The TCP task knows its sockets
    through [StreamSocket] and [SocketSetup]; [StreamLaws] and [SetupLaws] are
    what they promise it, and TcpSockets.v shows that the proxy layer of
    ProxyLayer.v keeps that promise, so the theorems about tasks hold of tasks
    over the modelled layer.  The child guard asks an [Outside], with
    [OutsideLaws]; ChildGuardLive.v gives the instance whose queries are those of
    ChildGuardQuery.v and ChildGuardMarker.v.  A [codec] carries the law that
    what was written is read back, so every record of the pipe has it.

    ** What the theorems show

    - Memory: the proxy layer stays in its buffers whatever bytes, segments and
      errors arrive, but for the scan of a status line that ends before its
      number, and ends each operation with one event (ProxyLayerSafety.v, from
      the invariant of ProxyLayerInv.v); the secure layer never calls the module
      without a session and buffers at most 1 MiB (SecureLayerEvents.v); a UDP
      task never uses a deleted peer and bounds its queues (UdpTaskSafety.v); a
      TCP task stays in its buffers and its loops end (TcpTaskSafety.v); the
      managers' lists, heaps, port table, timers and notifications agree
      (UdpTaskMgrSafety.v, TcpTaskMgrSafety.v); the helper window's table is an
      injection of the sockets there are (HelperWindowEvents.v); what a pipe
      client writes stays in the server's memory (PipeServerSafety.v); the walks
      over the system's records end and stay in the buffer (ProcessIdentity.v).
    - Protocol: the SOCKS5 and HTTP handshakes complete for every segmentation
      and lose no byte (ProxySocks5.v, ProxyHttp.v); what is sent parses by the
      RFCs to the target meant (ProxyWire.v); datagrams come back as they were
      sent, and only from the relay (ProxyUdp.v); the codec is inverse to itself
      and canonical (Socks5UdpCodec.v).
    - Data: each direction of a TCP task refines an abstract pipe (TcpRelayInv.v,
      TcpTaskSafety.v); datagrams keep their order upstream, with and without
      bridges (UdpTaskFlow.v); a reply reaches the route of its destination
      (UdpTaskRouting.v); the secure layer passes on exactly the plaintext and
      the records, in order, and no wake-up is lost (SecureLayerEvents.v); the
      held datagrams of a QUIC connection go one way, all of them, in order
      (QuicAdmission.v); log lines are shown in order or counted (LogQueue.v).
    - The hook fails closed: a connection or a datagram goes to the destination
      itself only where the settings or the kind of socket excuse it
      (HookConnectSafety.v, HookSendSafety.v); a name resolved at the proxy
      reaches the host as that name (HookNames.v, DummyDns.v); a route is
      registered once, under the lock (HookLock.v); an elevated helper lets a
      program run only with the hook in it (ElevatedLaunch.v).
    - The host: a pipe call is a call on the host, however the threads
      interleave (PipeCalls.v); a client acts for itself only and sees no key
      (PipeServerSafety.v); a registered process survives every prune
      (ProcessRegistry.v); an accepted socket gets its own registration
      (ReceptionCentreSafety.v); the child guard ends only what it may end and
      does end an orphan (ChildGuardSafety.v, ChildGuardLive.v); no request
      launches twice (AppLauncher.v).
    - Life cycle: a registration gives an open port, a closed task is never
      used again, dead tasks go, a reconnect takes down what there was.
    - Policies: what is admitted, blocked, redirected and reported, exactly.
    - Errors: what a failing socket does to a TCP task (TcpSockets.v), and where
      an encoder or a buffer is wrong (Base64Coding.v, ProxyUdp.v,
      Socks5UdpCodec.v).

    ** Bounds and fuel

    A loop that is not structural carries fuel, and running out is a fault the
    safety theorems exclude.  Flushing the request of the proxy layer: the
    bytes left, as each successful send takes one or more.  Reading the HTTP
    header: 4098, as each turn but the last adds a byte to a header of at most
    4096.  Reading in a TCP peer: 65537, one more than MAX_EVENT_READ_BYTES.
    Forwarding in a TCP peer: the bytes held.  Sending the pending datagrams:
    their number.  A QUIC pump moves 64 datagrams, which is the code's bound.
    In the secure layer: flushing, the socket's answers and two; draining the
    plaintext, MAX_BUFFERED_DATA and one; feeding, the chunk's length; pumping
    and the drain at close, what is left to receive.  Reading the system's
    records: those of 88 bytes that fit, and one; the guard's walk, the buffer's
    length and one; another process's environment, 1 MiB and one.  Reading a
    record from the pipe: its size and one, as each read takes a byte or more.

    ** Assumptions

    The theorems about refinement, order and completion of a TCP task begin
    with an established task over steady sockets: a send fails only because
    the socket is full.  [TSocket] lets the layers below act by themselves.
    The clock stands still during a handler.  [new] does not fail.  A callback
    comes from an open socket of a task that is listed.  A pipe carries one
    session, in order.  A host worker is not overtaken between its clock and its
    lock where a theorem says prompt.  A hooked program's threads add names and
    requests the host accepted, which is what the modelled ones do; the table of
    names has not wrapped, which takes more than 65535 of them.  A thread has
    fewer than MAX_SOCKETS sockets.

    ** Not modelled

    - MitmBridge.cpp and the sessions behind QuicBridge.cpp: the TLS module is
      another language's; in a TCP task the MITM bridge is off.
    - Of the sockets: Create, Bind and Accept through the chain of layers, the
      calls that only pass on to Winsock, InetCompat and TimerQueue.h.
    - Of HookWinsock.cpp: the installation of the detours, gethostbyname and
      WSAAsyncGetHostByName, WSAIoctl, and the creation of child processes with
      DeferredMitigationPolicy.h; injection and tokens: detours and process
      creation inside other programs.
    - The browser's side of BrowserQuicPolicy.cpp; threads, windows and the
      start and stop of the servers in ProxyReceptionCentre.cpp; the creation of
      pipes and workers in PRCPipeServer.cpp.
    - GlobalProxy.cpp, the tester, logs: registry, I/O.
    - The rest of the desktop application: MFC pages and dialogs.
    - The Rust crates (another language) and third-party code. *)

From stdpp Require Export prelude list gmap strings.
From Stdlib Require Export ZArith Lia.

#[global] Open Scope Z_scope.

(** ** Bytes and machine words

    A byte is a [Z] in [0,256); an unsigned word is a [Z] with its wrap-around
    written out.  [u32] is the arithmetic of [DWORD], [s32] that of [LONG]. *)

Abbreviation bytes := (list Z).

Definition byte_ok (b : Z) : Prop := 0 <= b < 256.
Definition bytes_ok (l : bytes) : Prop := Forall byte_ok l.

Definition u8 (z : Z) : Z := z mod 256.
Definition u16 (z : Z) : Z := z mod 65536.
Definition u32 (z : Z) : Z := z mod 4294967296.
Definition u64 (z : Z) : Z := z mod 18446744073709551616.
Definition s32 (z : Z) : Z :=
  let r := u32 z in if r <? 2147483648 then r else r - 4294967296.

#[global] Instance byte_ok_dec b : Decision (byte_ok b).
Proof. unfold byte_ok. apply _. Defined.
#[global] Instance bytes_ok_dec l : Decision (bytes_ok l).
Proof. unfold bytes_ok. apply _. Defined.

Lemma u32_range z : 0 <= u32 z < 4294967296.
Proof. unfold u32. apply Z.mod_pos_bound. lia. Qed.
Lemma u32_small z : 0 <= z < 4294967296 -> u32 z = z.
Proof. intros. unfold u32. apply Z.mod_small. lia. Qed.
Lemma s32_small z : 0 <= z < 2147483648 -> s32 z = z.
Proof.
  intros. unfold s32. rewrite u32_small by lia. by destruct (Z.ltb_spec z 2147483648); [|lia].
Qed.
Lemma u16_range z : 0 <= u16 z < 65536.
Proof. unfold u16. apply Z.mod_pos_bound. lia. Qed.
Lemma u16_small z : 0 <= z < 65536 -> u16 z = z.
Proof. intros. unfold u16. apply Z.mod_small. lia. Qed.
Lemma u8_range z : 0 <= u8 z < 256.
Proof. unfold u8. apply Z.mod_pos_bound. lia. Qed.
Lemma u8_small z : 0 <= z < 256 -> u8 z = z.
Proof. intros. unfold u8. apply Z.mod_small. lia. Qed.

(** ** Little-endian words in memory

    The program runs on x86/x64, so a store through a [u_short *] or
    [u_long *] writes the least significant byte first. *)

Fixpoint le_split (n : nat) (z : Z) : bytes :=
  match n with
  | O => []
  | S k => z mod 256 :: le_split k (z / 256)
  end.

Fixpoint le_join (l : bytes) : Z :=
  match l with
  | [] => 0
  | b :: r => b + 256 * le_join r
  end.

Lemma length_le_split n z : length (le_split n z) = n.
Proof. revert z; induction n; intros; simpl; auto. Qed.

Lemma le_split_ok n z : bytes_ok (le_split n z).
Proof.
  revert z; induction n; intros; simpl; constructor; auto.
  apply Z.mod_pos_bound; lia.
  apply IHn.
Qed.

Lemma le_join_split n z : le_join (le_split n z) = z mod 256 ^ Z.of_nat n.
Proof.
  revert z; induction n as [|n IH]; intros z.
  - simpl. by rewrite Z.mod_1_r.
  - cbn [le_split le_join]. rewrite IH.
    replace (Z.of_nat (S n)) with (1 + Z.of_nat n) by lia.
    rewrite Z.pow_add_r by lia. rewrite Z.pow_1_r.
    rewrite Z.rem_mul_r by (try lia; apply Z.pow_pos_nonneg; lia). lia.
Qed.

Lemma le_split_join l : bytes_ok l -> le_split (length l) (le_join l) = l.
Proof.
  induction 1 as [|b l Hb Hl IH]; [done|].
  cbn [length le_split le_join]. unfold byte_ok in Hb.
  replace (b + 256 * le_join l) with (b + le_join l * 256) by lia.
  rewrite Z_mod_plus_full, Z.mod_small, Z_div_plus_full, Z.div_small by lia.
  by rewrite Z.add_0_l, IH.
Qed.

Lemma le_join_range l : bytes_ok l -> 0 <= le_join l < 256 ^ Z.of_nat (length l).
Proof.
  induction 1 as [|b l Hb Hl IH]; [simpl; lia|].
  cbn [length le_join]. unfold byte_ok in Hb.
  replace (Z.of_nat (S (length l))) with (1 + Z.of_nat (length l)) by lia.
  rewrite Z.pow_add_r, Z.pow_1_r by lia. lia.
Qed.

(** [htons] and [ntohs] swap the two bytes of a 16-bit word. *)
Definition htons (z : Z) : Z := (u16 z mod 256) * 256 + u16 z / 256.

Lemma htons_range z : 0 <= htons z < 65536.
Proof.
  unfold htons. pose proof (u16_range z).
  pose proof (Z.mod_pos_bound (u16 z) 256).
  assert (0 <= u16 z / 256 < 256).
  { split; [apply Z.div_pos; lia | apply Z.div_lt_upper_bound; lia]. }
  lia.
Qed.

Lemma htons_involutive z : htons (htons z) = u16 z.
Proof.
  unfold htons at 1. rewrite (u16_small (htons z)) by apply htons_range.
  unfold htons. pose proof (u16_range z).
  assert (0 <= u16 z / 256 < 256).
  { split; [apply Z.div_pos; lia | apply Z.div_lt_upper_bound; lia]. }
  set (q := u16 z / 256) in *. set (r := u16 z mod 256).
  replace (r * 256 + q) with (q + r * 256) by lia.
  rewrite Z_mod_plus_full, Z.mod_small by lia.
  rewrite Z_div_plus_full, Z.div_small by lia.
  pose proof (Z.div_mod (u16 z) 256). subst q r. lia.
Qed.

Lemma htons_inj a b : 0 <= a < 65536 -> 0 <= b < 65536 -> htons a = htons b -> a = b.
Proof.
  intros Ha Hb E. rewrite <- (u16_small a), <- (u16_small b) by done.
  by rewrite <- !htons_involutive, E.
Qed.

(** [htonl] and [ntohl] reverse the four bytes of a 32-bit word. *)
Definition htonl (z : Z) : Z := le_join (rev (le_split 4 z)).

Lemma htonl_range z : 0 <= htonl z < 4294967296.
Proof.
  unfold htonl. pose proof (le_join_range (rev (le_split 4 z))) as H.
  rewrite length_rev, length_le_split in H. apply H.
  apply Forall_rev, le_split_ok.
Qed.

Lemma htonl_involutive z : 0 <= z < 4294967296 -> htonl (htonl z) = z.
Proof.
  intros Hz. unfold htonl at 1. unfold htonl.
  replace 4%nat with (length (rev (le_split 4 z))) at 1 by by rewrite length_rev, length_le_split.
  rewrite le_split_join by apply Forall_rev, le_split_ok.
  rewrite rev_involutive, le_join_split. by apply Z.mod_small.
Qed.

Lemma htonl_inj a b : 0 <= a < 4294967296 -> 0 <= b < 4294967296 -> htonl a = htonl b -> a = b.
Proof. intros Ha Hb E. by rewrite <- (htonl_involutive a), <- (htonl_involutive b), E. Qed.

(** ** Memory blocks

    [memcpy dst off src] overwrites [dst] from index [off]; it is used only
    where the block is large enough, which {!memcpy_length} makes visible. *)

Definition memcpy (dst : bytes) (off : nat) (src : bytes) : bytes :=
  take off dst ++ src ++ drop (off + length src) dst.

Lemma memcpy_length dst off src :
  (off + length src <= length dst)%nat -> length (memcpy dst off src) = length dst.
Proof. intros. unfold memcpy. rewrite !length_app, length_take, length_drop. lia. Qed.

Lemma memcpy_app a b off src :
  (length a <= off)%nat -> memcpy (a ++ b) off src = a ++ memcpy b (off - length a) src.
Proof.
  intros. unfold memcpy. rewrite take_app_ge, drop_app_ge by lia.
  rewrite <- app_assoc. do 3 f_equal. by replace (off + length src - length a)%nat
    with (off - length a + length src)%nat by lia.
Qed.

Lemma memcpy_full src dst : length src = length dst -> memcpy dst 0 src = src.
Proof. intros E. unfold memcpy. simpl. rewrite E, drop_all, app_nil_r. done. Qed.

Lemma memcpy_head src a b : length src = length a -> memcpy (a ++ b) 0 src = src ++ b.
Proof. intros E. unfold memcpy. simpl. by rewrite E, drop_app_length. Qed.

(** [at l i] is the byte at index [i], 0 beyond the end (a read the code never
    makes; the component invariants show it). *)
Definition byte_at (l : bytes) (i : nat) : Z := nth i l 0.

(** ** C strings *)

(** The characters of a [char *] before its terminator. *)
Fixpoint cstr (l : bytes) : bytes :=
  match l with
  | [] => []
  | b :: r => if b =? 0 then [] else b :: cstr r
  end.

Definition no_nul (l : bytes) : Prop := Forall (fun b => b <> 0) l.

Lemma cstr_no_nul l : no_nul (cstr l).
Proof.
  induction l as [|b l IH]; simpl; [constructor|].
  destruct (Z.eqb_spec b 0); constructor; auto.
Qed.

Lemma cstr_id l : no_nul l -> cstr l = l.
Proof.
  induction 1 as [|b l Hb Hl IH]; simpl; [done|].
  apply Z.eqb_neq in Hb. by rewrite Hb, IH.
Qed.

Lemma cstr_app_nul l r : no_nul l -> cstr (l ++ 0 :: r) = l.
Proof.
  induction 1 as [|b l Hb Hl IH]; simpl; [done|].
  apply Z.eqb_neq in Hb. by rewrite Hb, IH.
Qed.

(** [_stricmp] in the "C" locale: ASCII letters fold, other bytes do not. *)
Definition tolower (b : Z) : Z := if (65 <=? b) && (b <=? 90) then b + 32 else b.
Definition stricmp_eq (a b : bytes) : bool :=
  bool_decide (map tolower a = map tolower b).

Lemma stricmp_eq_refl a : stricmp_eq a a = true.
Proof. by apply bool_decide_eq_true. Qed.
Lemma stricmp_eq_sym a b : stricmp_eq a b = stricmp_eq b a.
Proof. unfold stricmp_eq. apply bool_decide_ext. done. Qed.
Lemma stricmp_eq_trans a b c :
  stricmp_eq a b = true -> stricmp_eq b c = true -> stricmp_eq a c = true.
Proof. unfold stricmp_eq. rewrite !bool_decide_eq_true. congruence. Qed.

(** The bytes of a Rocq string literal. *)
Definition ascii_bytes (s : string) : bytes :=
  map (fun a => Z.of_N (Ascii.N_of_ascii a)) (String.list_ascii_of_string s).

(** [itoa n] is the decimal rendering of an unsigned number ([%u], [%d]). *)
Fixpoint itoa_fuel (fuel : nat) (n : Z) : bytes :=
  match fuel with
  | O => []
  | S k => (if n <? 10 then [] else itoa_fuel k (n / 10)) ++ [48 + n mod 10]
  end.
Definition itoa (n : Z) : bytes := itoa_fuel 20 n.

(** ** Tick counters

    [GetTickCount] wraps every 2^32 ms; the code subtracts ticks as unsigned
    32-bit values, so a difference is right as long as the real distance is
    below 2^32. *)
Definition elapsed (now since : Z) : Z := u32 (now - since).

Lemma elapsed_range a b : 0 <= elapsed a b < 4294967296.
Proof. apply u32_range. Qed.

Lemma elapsed_u32 a b : elapsed (u32 a) (u32 b) = elapsed a b.
Proof. unfold elapsed, u32. by rewrite <- Zminus_mod. Qed.

Lemma elapsed_advance t d : 0 <= d < 4294967296 -> elapsed (u32 (t + d)) (u32 t) = d.
Proof.
  intros. rewrite elapsed_u32. unfold elapsed. replace (t + d - t) with d by lia.
  by apply u32_small.
Qed.

(** ** Lists *)

Lemma take_length_take {A} k (l : list A) : take (length (take k l)) l = take k l.
Proof. rewrite <- (take_drop k l) at 2. by rewrite take_app_length. Qed.

Definition sum_len {A} (f : A -> bytes) (l : list A) : Z :=
  fold_right (fun x acc => Z.of_nat (length (f x)) + acc) 0 l.

Lemma sum_len_app {A} (f : A -> bytes) l1 l2 :
  sum_len f (l1 ++ l2) = sum_len f l1 + sum_len f l2.
Proof. induction l1; simpl; lia. Qed.

Lemma sum_len_nonneg {A} (f : A -> bytes) l : 0 <= sum_len f l.
Proof. induction l; simpl; lia. Qed.

Lemma Forall_sublist {A} (P : A -> Prop) k l : sublist k l -> Forall P l -> Forall P k.
Proof.
  induction 1 as [|x k l _ IH|x k l _ IH]; [done|..]; rewrite ?Forall_cons; [|intros [_ ?]; auto].
  intros [? ?]. auto.
Qed.

(** ** Automation *)

(** Case analysis on the outermost [if] or [match] of the goal. *)
Ltac break_if :=
  match goal with
  | |- context [ if ?b then _ else _ ] => destruct b eqn:?
  end.
Ltac break_match :=
  match goal with
  | |- context [ match ?b with _ => _ end ] => destruct b eqn:?
  end.

(** Boolean hypotheses to propositions. *)
Ltac bool_hyps :=
  repeat match goal with
  | H : (_ && _) = true |- _ => apply andb_true_iff in H as [? ?]
  | H : (_ || _) = false |- _ => apply orb_false_iff in H as [? ?]
  | H : negb _ = true |- _ => apply negb_true_iff in H
  | H : negb _ = false |- _ => apply negb_false_iff in H
  | H : (_ =? _) = true |- _ => apply Z.eqb_eq in H
  | H : (_ =? _) = false |- _ => apply Z.eqb_neq in H
  | H : (_ =? _)%nat = true |- _ => apply Nat.eqb_eq in H
  | H : (_ =? _)%nat = false |- _ => apply Nat.eqb_neq in H
  | H : (_ <? _) = true |- _ => apply Z.ltb_lt in H
  | H : (_ <? _) = false |- _ => apply Z.ltb_ge in H
  | H : (_ <=? _) = true |- _ => apply Z.leb_le in H
  | H : (_ <=? _) = false |- _ => apply Z.leb_gt in H
  | H : bool_decide _ = true |- _ => apply bool_decide_eq_true in H
  | H : bool_decide _ = false |- _ => apply bool_decide_eq_false in H
  end.

Create HintDb proxylane.
#[export] Hint Resolve u32_range u16_range u8_range htons_range le_split_ok
  cstr_no_nul sum_len_nonneg elapsed_range : proxylane.
