(* ===== verification/Winsock.v ===== *)
(** * Winsock constants and address records

    The values of the platform headers (winsock2.h, ws2tcpip.h, winerror.h)
    the program compares with, and the two address records it copies field by
    field.  Ports and IPv4 addresses are the raw memory words: a network-order
    field read by a little-endian machine. *)

From S2P Require Import Prelude.

(** ** Results and error codes *)
Definition SOCKET_ERROR : Z := -1.
Definition ERROR_NOT_ENOUGH_MEMORY : Z := 8.
Definition WSAEACCES : Z := 10013.
Definition WSAEFAULT : Z := 10014.
Definition WSAEINVAL : Z := 10022.
Definition WSAEWOULDBLOCK : Z := 10035.
Definition WSAENOTSOCK : Z := 10038.
Definition WSAEMSGSIZE : Z := 10040.
Definition WSAEPROTONOSUPPORT : Z := 10043.
Definition WSAEOPNOTSUPP : Z := 10045.
Definition WSAEAFNOSUPPORT : Z := 10047.
Definition WSAECONNABORTED : Z := 10053.
Definition WSAECONNRESET : Z := 10054.
Definition WSAENOBUFS : Z := 10055.
Definition WSAENOTCONN : Z := 10057.
Definition WSAETIMEDOUT : Z := 10060.
Definition WSAECONNREFUSED : Z := 10061.
Definition WSAEHOSTUNREACH : Z := 10065.
Definition WSAHOST_NOT_FOUND : Z := 11001.

(** ** Network events *)
Definition FD_READ : Z := 1.
Definition FD_WRITE : Z := 2.
Definition FD_OOB : Z := 4.
Definition FD_ACCEPT : Z := 8.
Definition FD_CONNECT : Z := 16.
Definition FD_CLOSE : Z := 32.

(** ** Address families and addresses *)
Definition AF_UNSPEC : Z := 0.
Definition AF_INET : Z := 2.
Definition AF_INET6 : Z := 23.
Definition INADDR_ANY : Z := 0.
Definition INADDR_NONE : Z := 4294967295.
Definition SOCK_STREAM : Z := 1.
Definition SOCK_DGRAM : Z := 2.

Record SOCKADDR_IN := mkSOCKADDR_IN {
  sin_family : Z;
  sin_port : Z;      (* u_short, network order *)
  sin_addr : Z       (* u_long, network order *)
}.

Record SOCKADDR_IN6 := mkSOCKADDR_IN6 {
  sin6_family : Z;
  sin6_port : Z;
  sin6_addr : bytes  (* 16 bytes *)
}.

Definition sizeof_SOCKADDR_IN : Z := 16.
Definition sizeof_SOCKADDR_IN6 : Z := 28.
Definition sizeof_SOCKADDR : Z := 16.

#[global] Instance SOCKADDR_IN_eq_dec : EqDecision SOCKADDR_IN.
Proof. solve_decision. Defined.
#[global] Instance SOCKADDR_IN6_eq_dec : EqDecision SOCKADDR_IN6.
Proof. solve_decision. Defined.

Definition wf_in (a : SOCKADDR_IN) : Prop :=
  0 <= sin_port a < 65536 /\ 0 <= sin_addr a < 4294967296.
Definition wf_in6 (a : SOCKADDR_IN6) : Prop :=
  0 <= sin6_port a < 65536 /\ length (sin6_addr a) = 16%nat /\ bytes_ok (sin6_addr a).

(** The four address octets of an IPv4 word, in memory (network) order. *)
Definition octets (ip : Z) : bytes := le_split 4 ip.
