(* ===== verification/SockAddr.v ===== *)
(** * The address and record types of structinfo.h

    [_SockAddr] (a 28-byte socket address holding either family), the proxy
    description [ProxyInfo], the settings record and the registered client
    [PRCClient], with the member functions the components call. *)

From S2P Require Import Prelude Winsock.

(** ** [_SockAddr]

    Family and port share their offsets in SOCKADDR_IN and SOCKADDR_IN6; the
    remaining 24 bytes hold the IPv4 address at offset 4 or the IPv6 address
    at offset 8, so they are kept as memory. *)
Record _SockAddr := mkSockAddr {
  sa_family : Z;
  sa_port : Z;        (* sin_port / sin6_port, network order *)
  sa_data : bytes     (* bytes 4..27 *)
}.

#[global] Instance SockAddr_eq_dec : EqDecision _SockAddr.
Proof. solve_decision. Defined.

Definition wf_sockaddr (a : _SockAddr) : Prop :=
  0 <= sa_port a < 65536 /\ length (sa_data a) = 24%nat /\ bytes_ok (sa_data a).

(** The two casts, [SOCKADDR_IN *] and [SOCKADDR_IN6 *]. *)
Definition v4_bytes (a : _SockAddr) : bytes := take 4 (sa_data a).
Definition v6_bytes (a : _SockAddr) : bytes := take 16 (drop 4 (sa_data a)).
Definition as_in (a : _SockAddr) : SOCKADDR_IN :=
  {| sin_family := sa_family a; sin_port := sa_port a; sin_addr := le_join (v4_bytes a) |}.
Definition as_in6 (a : _SockAddr) : SOCKADDR_IN6 :=
  {| sin6_family := sa_family a; sin6_port := sa_port a; sin6_addr := v6_bytes a |}.

Definition Clear : _SockAddr := mkSockAddr 0 0 (replicate 24 0).

Definition IsIPv4 (a : _SockAddr) : bool := sa_family a =? AF_INET.
Definition IsIPv6 (a : _SockAddr) : bool := sa_family a =? AF_INET6.

(** [Set] copies [required] bytes over a cleared object; [None] is FALSE, which
    leaves the object alone. *)
Definition Set_ (address : option _SockAddr) (addressLength : Z) : option _SockAddr :=
  match address with
  | None => None
  | Some address =>
      let required := if sa_family address =? AF_INET6
                      then sizeof_SOCKADDR_IN6 else sizeof_SOCKADDR_IN in
      if (negb (sa_family address =? AF_INET) && negb (sa_family address =? AF_INET6))
         || (addressLength <? required)
      then None
      else Some {| sa_family := sa_family address; sa_port := sa_port address;
                   sa_data := memcpy (replicate 24 0) 0
                     (take (Z.to_nat (required - 4)) (sa_data address)) |}
  end.

Definition Size (a : _SockAddr) : Z :=
  if sa_family a =? AF_INET6 then sizeof_SOCKADDR_IN6 else sizeof_SOCKADDR_IN.

(** ws2tcpip.h: ten zero bytes and two 0xff ones. *)
Definition IN6_IS_ADDR_V4MAPPED (b : bytes) : bool :=
  bool_decide (take 12 b = replicate 10 0 ++ [255; 255]).
Definition IN6_IS_ADDR_UNSPECIFIED (b : bytes) : bool := bool_decide (b = replicate 16 0).
Definition IN6_IS_ADDR_LOOPBACK (b : bytes) : bool := bool_decide (b = replicate 15 0 ++ [1]).

Definition IsIPv4Mapped (a : _SockAddr) : bool :=
  IsIPv6 a && IN6_IS_ADDR_V4MAPPED (v6_bytes a).

Definition IsAny (a : _SockAddr) : bool :=
  if IsIPv6 a then IN6_IS_ADDR_UNSPECIFIED (v6_bytes a)
  else IsIPv4 a && (sin_addr (as_in a) =? INADDR_ANY).

(** [ntohl(x) >> 24] is the first octet in memory. *)
Definition IsLoopback (a : _SockAddr) : bool :=
  if IsIPv6 a then IN6_IS_ADDR_LOOPBACK (v6_bytes a)
  else IsIPv4 a && (byte_at (octets (sin_addr (as_in a))) 0 =? 127).

Definition GetdwIP (a : _SockAddr) : Z :=
  if IsIPv4 a then sin_addr (as_in a)
  else if IsIPv4Mapped a then le_join (take 4 (drop 12 (v6_bytes a)))
  else 0.

Definition GetAddr6 (a : _SockAddr) : option bytes :=
  if IsIPv6 a then Some (v6_bytes a) else None.

Definition SetIPLong (nIP : Z) (a : _SockAddr) : _SockAddr :=
  let a := if IsIPv4 a then a else mkSockAddr AF_INET 0 (replicate 24 0) in
  {| sa_family := sa_family a; sa_port := sa_port a;
     sa_data := memcpy (sa_data a) 0 (le_split 4 (u32 nIP)) |}.

Definition GetPort (a : _SockAddr) : Z := htons (sa_port a).

Definition SetPort (Port : Z) (a : _SockAddr) : _SockAddr :=
  {| sa_family := sa_family a; sa_port := htons Port; sa_data := sa_data a |}.

(** [SetIP] parses text with [ProxyInetPtonA], which ends in the system's
    [WSAStringToAddress]: a parameter, giving the address bytes. *)
Section TextAddress.
Variable ProxyInetPtonA : Z -> bytes -> option bytes.

Definition SetIP (lpszIP : bytes) (a : _SockAddr) : option _SockAddr :=
  let port := if IsIPv4 a || IsIPv6 a then u16 (GetPort a) else 0 in
  match ProxyInetPtonA AF_INET lpszIP with
  | Some address4 =>
      Some (SetPort port (mkSockAddr AF_INET 0 (memcpy (replicate 24 0) 0 address4)))
  | None =>
      match ProxyInetPtonA AF_INET6 lpszIP with
      | Some address6 =>
          Some (SetPort port (mkSockAddr AF_INET6 0 (memcpy (replicate 24 0) 4 address6)))
      | None => None
      end
  end.
End TextAddress.

(** The system's text conversion, and the bytes of an uninitialised object. *)
Class AddressText := {
  ProxyInetPtonA : Z -> bytes -> option bytes;
  uninit_sockaddr : bytes
}.

Definition SameAddress (a b : _SockAddr) : bool :=
  if negb (sa_family a =? sa_family b) then false
  else if IsIPv6 a then bool_decide (v6_bytes a = v6_bytes b)
  else IsIPv4 a && (GetdwIP a =? GetdwIP b).

Definition sockaddr_eq (a b : _SockAddr) : bool :=
  SameAddress a b && (GetPort a =? GetPort b).

(** ** [ProxyInfo] *)

(** [string<N>::operator=] keeps at most N-1 characters, as [char]s. *)
Fixpoint string_assign_from (room : nat) (lpsz : bytes) : bytes :=
  match room, lpsz with
  | S k, c :: r => if c =? 0 then [] else u8 c :: string_assign_from k r
  | _, _ => []
  end.
Definition string_assign (N : nat) (lpsz : bytes) : bytes := string_assign_from (N - 1) lpsz.

Definition PROXY_TRANSPORT_PLAIN : Z := 0.
Definition PROXY_TRANSPORT_GONC_TLS_PSK : Z := 1.
Definition PROXYTYPE_NOPROXY : Z := 0.
Definition PROXYTYPE_SOCKS4 : Z := 1.
Definition PROXYTYPE_SOCKS4A : Z := 2.
Definition PROXYTYPE_SOCKS5 : Z := 3.
Definition PROXYTYPE_HTTP10 : Z := 4.
Definition PROXYTYPE_HTTP11 : Z := 5.

(** Character arrays are kept as their C string. *)
Record ProxyInfo := mkProxyInfo {
  szItemName : bytes;
  strProxyType : bytes;
  strProxyHost : bytes;
  nProxyPort : Z;
  strProxyUser : bytes;
  strProxyPass : bytes;
  pi_reserved : Z;          (* PROXY_TRANSPORT_* *)
  strTransportPsk : bytes
}.

#[global] Instance ProxyInfo_eq_dec : EqDecision ProxyInfo.
Proof. solve_decision. Defined.

Definition GetProxyType (p : ProxyInfo) : Z :=
  let is_ s := stricmp_eq (strProxyType p) (ascii_bytes s) in
  if is_ "SOCKS4"%string then PROXYTYPE_SOCKS4
  else if is_ "SOCKS4A"%string then PROXYTYPE_SOCKS4A
  else if is_ "SOCKS5"%string then PROXYTYPE_SOCKS5
  else if is_ "HTTP10"%string then PROXYTYPE_HTTP10
  else if is_ "HTTP"%string || is_ "HTTP11"%string then PROXYTYPE_HTTP11
  else PROXYTYPE_NOPROXY.

(** ** Settings *)
Definition PSI_DNSOPT_LOCAL : Z := 0.
Definition PSI_DNSOPT_REMOTE : Z := 1.

Record ProxySettingsInfo := mkProxySettingsInfo {
  bHookTCP : bool;
  bHookUDP : bool;
  nDNSOption : Z;
  bHookCreateProcess : bool;
  bHookLanIP : bool;
  bDisableLLMNR : bool;
  bDisableMDNS : bool;
  bBlockUDP : bool;
  bBlockIPv6 : bool;
  bRedirectPrivateDNS : bool;
  redirectDNSAddr : _SockAddr
}.

(** ** [PRCClient] *)
Definition PRC_CLIENT_FLAG_DNS_REDIRECT : Z := 1.
Definition UAF_SET_ADDR : Z := 1.
Definition UAF_SET_PORT : Z := 2.

Record PRCClient := mkPRCClient {
  dwPid : Z;
  processCreateTime : Z;
  socketGeneration : Z;
  sType : Z;
  c_s : Z;
  szDomainName : bytes;
  srcAddr : _SockAddr;
  dstAddr : _SockAddr;
  proxyDstAddr : _SockAddr;
  routingFlags : Z;
  uaFlag : Z;
  udpAddr : _SockAddr
}.

#[global] Instance PRCClient_eq_dec : EqDecision PRCClient.
Proof. solve_decision. Defined.

Definition IsDNValid (szDomainName : bytes) : bool := negb (bool_decide (szDomainName = [])).

Definition HasProxyDestination (c : PRCClient) : bool :=
  negb (Z.land (routingFlags c) PRC_CLIENT_FLAG_DNS_REDIRECT =? 0).

Definition GetProxyDestination (c : PRCClient) : _SockAddr :=
  if HasProxyDestination c then proxyDstAddr c else dstAddr c.

(** An entry of the table of UDP ports. *)
Record UDPLocalProxyAddrInfo := mkPortInfo {
  clientip : Z;
  clientport : Z;
  proxyport : Z
}.

Definition set_udpAddr (v : _SockAddr) (c : PRCClient) : PRCClient :=
  mkPRCClient (dwPid c) (processCreateTime c) (socketGeneration c) (sType c) (c_s c)
    (szDomainName c) (srcAddr c) (dstAddr c) (proxyDstAddr c) (routingFlags c) (uaFlag c) v.

Definition set_redirect (flags : Z) (dst : _SockAddr) (c : PRCClient) : PRCClient :=
  mkPRCClient (dwPid c) (processCreateTime c) (socketGeneration c) (sType c) (c_s c)
    (szDomainName c) (srcAddr c) (dstAddr c) dst flags (uaFlag c) (udpAddr c).

(** ** Lemmas *)

Lemma SetPort_GetPort p a : 0 <= p < 65536 -> GetPort (SetPort p a) = p.
Proof. intros. unfold GetPort, SetPort; simpl. rewrite htons_involutive. by apply u16_small. Qed.

Lemma GetPort_range a : 0 <= GetPort a < 65536.
Proof. apply htons_range. Qed.

Lemma GetPort_inj a b :
  wf_sockaddr a -> wf_sockaddr b -> GetPort a = GetPort b -> sa_port a = sa_port b.
Proof. intros [Ha _] [Hb _]. by apply htons_inj. Qed.

Lemma SameAddress_refl a : IsIPv4 a || IsIPv6 a = true -> SameAddress a a = true.
Proof.
  unfold SameAddress. rewrite Z.eqb_refl; simpl. intros H.
  destruct (IsIPv6 a); [by apply bool_decide_eq_true|].
  rewrite orb_false_r in H. by rewrite H, Z.eqb_refl.
Qed.

Lemma SameAddress_sym a b : SameAddress a b = SameAddress b a.
Proof.
  unfold SameAddress. rewrite (Z.eqb_sym (sa_family b)).
  destruct (Z.eqb_spec (sa_family a) (sa_family b)) as [E|]; simpl; [|done].
  unfold IsIPv6, IsIPv4. rewrite E. destruct (_ =? AF_INET6).
  - by apply bool_decide_ext.
  - by rewrite (Z.eqb_sym (GetdwIP a)).
Qed.

Lemma string_assign_bound N l : (length (string_assign N l) <= N - 1)%nat.
Proof.
  unfold string_assign. generalize (N - 1)%nat as k. intros k; revert l.
  induction k as [|k IH]; intros [|c l]; simpl; try lia.
  destruct (c =? 0); simpl; [lia|]. specialize (IH l). lia.
Qed.

#[export] Hint Resolve GetPort_range : proxylane.
