(* ===== verification/Socks5UdpCodec.v ===== *)
(** * The SOCKS5 UDP datagram codec (Socks5UdpCodec.h, Socks5UdpCodec.cpp)

    [EncodeIPv4], [EncodeIPv6] and [EncodeDomain] write the RFC 1928 request
    header and the payload into a caller's buffer; [Decode] reads one datagram.
    An encoder refuses (SOCKET_ERROR) or gives the bytes of [output] up to the
    returned length; its stores are replayed one by one on a block of that
    length.  The length is a sum of two [int]s, and where it overflows the
    capacity test does not hold the stores back. *)

From S2P Require Import Prelude Winsock.

Definition MAX_HEADER_SIZE : Z := 262.

Record DecodedPacket := mkDecodedPacket {
  source : SOCKADDR_IN;
  source6 : SOCKADDR_IN6;
  sourceLength : Z;
  domain : bytes;        (* the 256-byte array up to the copied length *)
  payload : bytes        (* payload .. payload + payloadLength *)
}.

Definition Clear : DecodedPacket :=
  mkDecodedPacket (mkSOCKADDR_IN 0 0 0) (mkSOCKADDR_IN6 0 0 (replicate 16 0)) 0 [] [].

Definition payloadLength (d : DecodedPacket) : Z := Z.of_nat (length (payload d)).

Definition HasDomain (d : DecodedPacket) : bool := negb (byte_at (domain d) 0 =? 0).

(** The parameter checks shared by the three encoders: a null [payload] is
    [None]. *)
Definition bad_payload (payload : option bytes) (payloadLength : Z) : bool :=
  (payloadLength <? 0) ||
  (negb (payloadLength =? 0) && match payload with None => true | Some _ => false end).

Definition payload_bytes (payload : option bytes) (payloadLength : Z) : bytes :=
  take (Z.to_nat payloadLength) (default [] payload).

Inductive encoded :=
  | Refused                  (* SOCKET_ERROR *)
  | Wrote (packet : bytes)
  | Overran.                 (* the stores go past the end of [output] *)

(** The capacity test, with the sum as an [int] that wraps around, and the
    stores of [packet], which are [total] bytes. *)
Definition store_packet (outputCapacity total : Z) (packet : bytes) : encoded :=
  if outputCapacity <? s32 total then Refused
  else if outputCapacity <? total then Overran
  else Wrote packet.

Definition EncodeIPv4 (output : bool) (outputCapacity : Z)
    (destination : option SOCKADDR_IN) (payload : option bytes) (payloadLength : Z) : encoded :=
  let headerLength := 10 in
  match destination with
  | None => Refused
  | Some destination =>
      if negb output || bad_payload payload payloadLength then Refused
      else
        store_packet outputCapacity (headerLength + payloadLength)
          (let buf := replicate (Z.to_nat (headerLength + payloadLength)) 0 in
           let buf := <[3%nat := 1]> buf in
           let buf := memcpy buf 4 (le_split 4 (sin_addr destination)) in
           let buf := memcpy buf 8 (le_split 2 (sin_port destination)) in
           memcpy buf 10 (payload_bytes payload payloadLength))
  end.

Definition EncodeIPv6 (output : bool) (outputCapacity : Z)
    (destination : option SOCKADDR_IN6) (payload : option bytes) (payloadLength : Z) : encoded :=
  let headerLength := 22 in
  match destination with
  | None => Refused
  | Some destination =>
      if negb output || bad_payload payload payloadLength then Refused
      else
        store_packet outputCapacity (headerLength + payloadLength)
          (let buf := replicate (Z.to_nat (headerLength + payloadLength)) 0 in
           let buf := <[3%nat := 4]> buf in
           let buf := memcpy buf 4 (take 16 (sin6_addr destination)) in
           let buf := memcpy buf 20 (le_split 2 (sin6_port destination)) in
           memcpy buf 22 (payload_bytes payload payloadLength))
  end.

(** [domain] is the C string the caller passes. *)
Definition EncodeDomain (output : bool) (outputCapacity : Z)
    (domain : option bytes) (port : Z) (payload : option bytes) (payloadLength : Z) : encoded :=
  match domain with
  | None => Refused
  | Some domain =>
      if negb output || bad_payload payload payloadLength then Refused
      else
        let domainLength := Z.of_nat (length domain) in
        if (domainLength =? 0) || (255 <? domainLength) then Refused
        else
          let headerLength := 7 + domainLength in
          store_packet outputCapacity (headerLength + payloadLength)
            (let buf := replicate (Z.to_nat (headerLength + payloadLength)) 0 in
             let buf := <[3%nat := 3]> buf in
             let buf := <[4%nat := u8 domainLength]> buf in
             let buf := memcpy buf 5 domain in
             let buf := memcpy buf (5 + length domain) (le_split 2 (htons port)) in
             memcpy buf (Z.to_nat headerLength) (payload_bytes payload payloadLength))
  end.

Definition slice (off n : nat) (l : bytes) : bytes := take n (drop off l).

(** [packet] is the [packetLength] bytes received; [None] is FALSE. *)
Definition Decode (packet : bytes) : option DecodedPacket :=
  let packetLength := Z.of_nat (length packet) in
  if packetLength <? 4 then None
  else if negb (byte_at packet 0 =? 0) || negb (byte_at packet 1 =? 0)
          || negb (byte_at packet 2 =? 0) then None
  else if byte_at packet 3 =? 1 then
    if packetLength <? 10 then None
    else Some {| source := mkSOCKADDR_IN AF_INET (le_join (slice 8 2 packet))
                             (le_join (slice 4 4 packet));
                 source6 := source6 Clear;
                 sourceLength := sizeof_SOCKADDR_IN;
                 domain := [];
                 payload := drop 10 packet |}
  else if byte_at packet 3 =? 3 then
    if packetLength <? 7 then None
    else
      let domainLength := Z.to_nat (byte_at packet 4) in
      let headerLength := (7 + domainLength)%nat in
      if (domainLength =? 0)%nat || (packetLength <? Z.of_nat headerLength) then None
      else Some {| source := mkSOCKADDR_IN AF_INET (le_join (slice (5 + domainLength) 2 packet)) 0;
                   source6 := source6 Clear;
                   sourceLength := sizeof_SOCKADDR_IN;
                   domain := slice 5 domainLength packet;
                   payload := drop headerLength packet |}
  else if byte_at packet 3 =? 4 then
    if packetLength <? 22 then None
    else Some {| source := mkSOCKADDR_IN AF_INET 0 0;
                 source6 := mkSOCKADDR_IN6 AF_INET6 (le_join (slice 20 2 packet))
                              (slice 4 16 packet);
                 sourceLength := sizeof_SOCKADDR_IN6;
                 domain := [];
                 payload := drop 22 packet |}
  else None.

(** ** The wire format

    The header bytes the encoders are meant to produce, written down directly. *)

Definition wire_ipv4 (d : SOCKADDR_IN) (data : bytes) : bytes :=
  [0; 0; 0; 1] ++ le_split 4 (sin_addr d) ++ le_split 2 (sin_port d) ++ data.
Definition wire_ipv6 (d : SOCKADDR_IN6) (data : bytes) : bytes :=
  [0; 0; 0; 4] ++ sin6_addr d ++ le_split 2 (sin6_port d) ++ data.
Definition wire_domain (name : bytes) (port : Z) (data : bytes) : bytes :=
  [0; 0; 0; 3; Z.of_nat (length name)] ++ name ++ le_split 2 (htons port) ++ data.

Lemma replicate_header (h : Z) (n : nat) :
  0 <= h ->
  replicate (Z.to_nat (h + Z.of_nat n)) 0 = replicate (Z.to_nat h) 0 ++ replicate n (0 : Z).
Proof. intros. rewrite <- replicate_add. f_equal. lia. Qed.

Lemma payload_bytes_all data : payload_bytes (Some data) (Z.of_nat (length data)) = data.
Proof. unfold payload_bytes. simpl. rewrite Nat2Z.id. apply firstn_all. Qed.

Lemma bad_payload_ok data : bad_payload (Some data) (Z.of_nat (length data)) = false.
Proof.
  unfold bad_payload. rewrite andb_false_r, orb_false_r. apply Z.ltb_ge. lia.
Qed.

Lemma memcpy_tail (h : bytes) k data :
  k = length h ->
  memcpy (h ++ replicate (length data) 0) k data = h ++ data.
Proof.
  intros ->. rewrite memcpy_app, Nat.sub_diag by done.
  rewrite memcpy_full; [done|]. by rewrite length_replicate.
Qed.

Lemma list_length_16 {A} (l : list A) :
  length l = 16%nat -> exists a b c d e f g h i j k m n o p q,
    l = [a; b; c; d; e; f; g; h; i; j; k; m; n; o; p; q].
Proof.
  intros H. do 16 (destruct l as [|? l]; [discriminate H|]).
  destruct l; [|discriminate H]. eauto 20.
Qed.

(** Each encoder: refused parameters, the capacity test, the bytes. *)
Lemma EncodeIPv4_wire cap d data :
  EncodeIPv4 true cap (Some d) (Some data) (Z.of_nat (length data))
  = store_packet cap (10 + Z.of_nat (length data)) (wire_ipv4 d data).
Proof.
  unfold EncodeIPv4. rewrite bad_payload_ok. cbv beta iota zeta delta [negb orb].
  rewrite payload_bytes_all, replicate_header by lia.
  f_equal. change (Z.to_nat 10) with 10%nat.
  set (h := memcpy (memcpy (<[3%nat:=1]> (replicate 10 0)) 4 (le_split 4 (sin_addr d))) 8
              (le_split 2 (sin_port d))).
  transitivity (memcpy (h ++ replicate (length data) 0) 10 data).
  - f_equal. 
  - rewrite memcpy_tail by done. done.
Qed.

Lemma EncodeIPv6_wire cap d data :
  length (sin6_addr d) = 16%nat ->
  EncodeIPv6 true cap (Some d) (Some data) (Z.of_nat (length data))
  = store_packet cap (22 + Z.of_nat (length data)) (wire_ipv6 d data).
Proof.
  intros H16. unfold EncodeIPv6. rewrite bad_payload_ok. cbv beta iota zeta delta [negb orb].
  rewrite payload_bytes_all, replicate_header by lia.
  f_equal. unfold wire_ipv6. apply list_length_16 in H16.
  destruct H16 as (a&b&c&e&f&g&h&i&j&k&m&n&o&p&q&r&->).
  change (Z.to_nat 22) with 22%nat.
  set (hd := [0;0;0;4] ++ [a;b;c;e;f;g;h;i;j;k;m;n;o;p;q;r] ++ le_split 2 (sin6_port d)).
  transitivity (memcpy (hd ++ replicate (length data) 0) 22 data).
  - f_equal.
  - rewrite memcpy_tail by done. done.
Qed.

Lemma EncodeDomain_wire cap name port data :
  EncodeDomain true cap (Some name) port (Some data) (Z.of_nat (length data))
  = if (Z.of_nat (length name) =? 0) || (255 <? Z.of_nat (length name))
    then Refused
    else store_packet cap (7 + Z.of_nat (length name) + Z.of_nat (length data)) (wire_domain name port data).
Proof.
  unfold EncodeDomain. rewrite bad_payload_ok. cbv beta iota delta [negb].
  destruct ((Z.of_nat (length name) =? 0) || (255 <? Z.of_nat (length name))) eqn:E; [done|].
  cbv beta iota zeta. bool_hyps. f_equal.
  rewrite payload_bytes_all, u8_small by lia.
  replace (7 + Z.of_nat (length name) + Z.of_nat (length data))
    with (5 + Z.of_nat (length name + (2 + length data))%nat) by lia.
  rewrite replicate_header by lia. change (Z.to_nat 5) with 5%nat.
  set (n := Z.of_nat (length name)).
  change (<[4%nat:=n]> (<[3%nat:=3]> (replicate 5 0 ++ ?t))) with ([0;0;0;3;n] ++ t).
  rewrite replicate_add, memcpy_app by done. cbn [length Nat.sub].
  rewrite memcpy_head by (by rewrite length_replicate).
  rewrite (app_assoc [0;0;0;3;n] name), memcpy_app by (rewrite length_app; simpl; lia).
  rewrite length_app. cbn [length].
  replace (5 + length name - (5 + length name))%nat with 0%nat by lia.
  rewrite replicate_add, memcpy_head by done.
  rewrite app_assoc, memcpy_tail.
  - unfold wire_domain. by rewrite <- !app_assoc.
  - rewrite !length_app, length_le_split. cbn [length]. lia.
Qed.

(** ** Endpoints: what a datagram names *)

Inductive endpoint :=
  | EpV4 (a : SOCKADDR_IN)
  | EpV6 (a : SOCKADDR_IN6)
  | EpName (name : bytes) (port : Z).

Definition encode (cap : Z) (e : endpoint) (data : bytes) : encoded :=
  match e with
  | EpV4 a => EncodeIPv4 true cap (Some a) (Some data) (Z.of_nat (length data))
  | EpV6 a => EncodeIPv6 true cap (Some a) (Some data) (Z.of_nat (length data))
  | EpName name port =>
      EncodeDomain true cap (Some name) port (Some data) (Z.of_nat (length data))
  end.

Definition header_length (e : endpoint) : Z :=
  match e with
  | EpV4 _ => 10 | EpV6 _ => 22 | EpName name _ => 7 + Z.of_nat (length name)
  end.

Definition wf_endpoint (e : endpoint) : Prop :=
  match e with
  | EpV4 a => wf_in a /\ sin_family a = AF_INET
  | EpV6 a => wf_in6 a /\ sin6_family a = AF_INET6
  | EpName name port =>
      (1 <= length name <= 255)%nat /\ bytes_ok name /\ no_nul name /\ 0 <= port < 65536
  end.

(** How the callers read a decoded packet: the name if there is one, otherwise
    the record [sourceLength] selects. *)
Definition decoded_endpoint (d : DecodedPacket) : endpoint :=
  if HasDomain d then EpName (domain d) (htons (sin_port (source d)))
  else if sourceLength d =? sizeof_SOCKADDR_IN6 then EpV6 (source6 d)
  else EpV4 (source d).

Definition wire (e : endpoint) (data : bytes) : bytes :=
  match e with
  | EpV4 a => wire_ipv4 a data
  | EpV6 a => wire_ipv6 a data
  | EpName name port => wire_domain name port data
  end.

Lemma length_wire e data :
  match e with EpV6 a => length (sin6_addr a) = 16%nat | _ => True end ->
  Z.of_nat (length (wire e data)) = header_length e + Z.of_nat (length data).
Proof.
  destruct e; cbn [wire header_length];
    unfold wire_ipv4, wire_ipv6, wire_domain; rewrite !length_app, ?length_le_split;
    cbn [length]; lia.
Qed.

Lemma wf_endpoint_addr e :
  wf_endpoint e -> match e with EpV6 a => length (sin6_addr a) = 16%nat | _ => True end.
Proof. destruct e; cbn; [done|by intros [(_ & ? & _) _]|done]. Qed.

Lemma encode_wire cap e data :
  wf_endpoint e ->
  encode cap e data
  = store_packet cap (header_length e + Z.of_nat (length data)) (wire e data).
Proof.
  destruct e as [a|a|name port]; cbn [encode header_length wire wf_endpoint].
  - intros _. apply EncodeIPv4_wire.
  - intros [(_ & ? & _) _]. by apply EncodeIPv6_wire.
  - intros [? _]. rewrite EncodeDomain_wire.
    destruct (Z.eqb_spec (Z.of_nat (length name)) 0); [lia|].
    destruct (Z.ltb_spec 255 (Z.of_nat (length name))); [lia|]. done.
Qed.

Lemma s32_overflow z : 2147483648 <= z < 4294967296 -> s32 z = z - 4294967296.
Proof.
  intros. unfold s32. rewrite u32_small by lia. destruct (Z.ltb_spec z 2147483648); lia.
Qed.

(** A sum that does not overflow. *)
Lemma store_packet_fits cap total packet :
  0 <= total < 2147483648 -> total <= cap -> store_packet cap total packet = Wrote packet.
Proof. intros. unfold store_packet. rewrite s32_small, (proj2 (Z.ltb_ge _ _)) by lia. done. Qed.

Lemma store_packet_small cap total packet :
  0 <= total < 2147483648 ->
  store_packet cap total packet = if cap <? total then Refused else Wrote packet.
Proof. intros. unfold store_packet. rewrite s32_small by lia. by destruct (cap <? total). Qed.

Lemma store_packet_wrote cap total packet pkt :
  store_packet cap total packet = Wrote pkt -> total <= cap /\ pkt = packet.
Proof.
  unfold store_packet. destruct (cap <? s32 total); [done|].
  destruct (Z.ltb_spec cap total); [done|]. by intros [= <-].
Qed.

Lemma le_join_split_small n z :
  0 <= z < 256 ^ Z.of_nat n -> le_join (le_split n z) = z.
Proof. intros. rewrite le_join_split. by apply Z.mod_small. Qed.

Lemma slice_app_r a b off n :
  (length a <= off)%nat -> slice off n (a ++ b) = slice (off - length a) n b.
Proof. intros. unfold slice. by rewrite drop_app_ge. Qed.

Lemma slice_head a b n : n = length a -> slice 0 n (a ++ b) = a.
Proof. intros ->. unfold slice. apply take_app_length. Qed.

Lemma Decode_wire_ipv4 a data :
  wf_in a ->
  exists d, Decode (wire_ipv4 a data) = Some d /\ domain d = [] /\
    sourceLength d = sizeof_SOCKADDR_IN /\
    source d = mkSOCKADDR_IN AF_INET (sin_port a) (sin_addr a) /\ payload d = data.
Proof.
  intros [Hp Ha]. unfold Decode.
  assert (L : Z.of_nat (length (wire_ipv4 a data)) = 10 + Z.of_nat (length data)).
  { apply (length_wire (EpV4 a)). done. }
  rewrite L. destruct (Z.ltb_spec (10 + Z.of_nat (length data)) 4); [lia|].
  destruct (Z.ltb_spec (10 + Z.of_nat (length data)) 10); [lia|].
  eexists; split; [reflexivity|]. cbn [domain sourceLength source payload].
  split_and!; try done.
  change (slice 8 2 (wire_ipv4 a data)) with (le_split 2 (sin_port a)).
  change (slice 4 4 (wire_ipv4 a data)) with (le_split 4 (sin_addr a)).
  rewrite !le_join_split_small by done. done.
Qed.

Lemma Decode_wire_ipv6 a data :
  wf_in6 a ->
  exists d, Decode (wire_ipv6 a data) = Some d /\ domain d = [] /\
    sourceLength d = sizeof_SOCKADDR_IN6 /\
    source6 d = mkSOCKADDR_IN6 AF_INET6 (sin6_port a) (sin6_addr a) /\ payload d = data.
Proof.
  intros (Hp & H16 & Hok). unfold Decode.
  assert (L : Z.of_nat (length (wire_ipv6 a data)) = 22 + Z.of_nat (length data)).
  { apply (length_wire (EpV6 a)). done. }
  rewrite L. destruct (Z.ltb_spec (22 + Z.of_nat (length data)) 4); [lia|].
  destruct (Z.ltb_spec (22 + Z.of_nat (length data)) 22); [lia|].
  eexists; split; [reflexivity|]. cbn [domain sourceLength source6 payload].
  destruct a as [f p ad]; cbn [sin6_addr sin6_port] in *.
  apply list_length_16 in H16.
  destruct H16 as (a0&b&c&e&f0&g&h&i&j&k&m&n&o&p0&q&r&->).
  split_and!; try done. 
  unfold wire_ipv6; cbn [sin6_addr sin6_port].
  rewrite app_assoc, slice_app_r by (simpl; lia).
  rewrite slice_head by done. rewrite le_join_split_small by done. done.
Qed.

Lemma Decode_wire_domain name port data :
  (1 <= length name <= 255)%nat ->
  exists d, Decode (wire_domain name port data) = Some d /\ domain d = name /\
    sourceLength d = sizeof_SOCKADDR_IN /\
    source d = mkSOCKADDR_IN AF_INET (htons port) 0 /\ payload d = data.
Proof.
  intros Hn. unfold Decode.
  set (pkt := wire_domain name port data).
  assert (L : Z.of_nat (length pkt) = 7 + Z.of_nat (length name) + Z.of_nat (length data)).
  { apply (length_wire (EpName name port)). done. }
  rewrite L.
  change (byte_at pkt 0) with 0. change (byte_at pkt 1) with 0. change (byte_at pkt 2) with 0.
  change (byte_at pkt 3) with 3. change (byte_at pkt 4) with (Z.of_nat (length name)).
  rewrite Nat2Z.id. cbn [Z.eqb Pos.eqb negb orb].
  destruct (Z.ltb_spec (7 + Z.of_nat (length name) + Z.of_nat (length data)) 4); [lia|].
  destruct (Z.ltb_spec (7 + Z.of_nat (length name) + Z.of_nat (length data)) 7); [lia|].
  destruct (Nat.eqb_spec (length name) 0); [lia|].
  destruct (Z.ltb_spec (7 + Z.of_nat (length name) + Z.of_nat (length data))
              (Z.of_nat (7 + length name))); [lia|].
  cbn [orb]. eexists; split; [reflexivity|]. cbn [domain sourceLength source payload].
  subst pkt. unfold wire_domain. split_and!; try done.
  - rewrite slice_app_r by (simpl; lia). by apply slice_head.
  - rewrite app_assoc, slice_app_r; rewrite length_app; cbn [length]; [|lia].
    rewrite Nat.sub_diag, slice_head by done.
    rewrite le_join_split_small; [done|apply htons_range].
  - rewrite !app_assoc, <- app_assoc, app_assoc. apply drop_app_length'.
    rewrite !length_app, length_le_split. cbn [length]. lia.
Qed.

Lemma HasDomain_name name d :
  domain d = name -> (1 <= length name)%nat -> no_nul name -> HasDomain d = true.
Proof.
  intros <- Hl Hn. unfold HasDomain, byte_at. destruct (domain d) as [|b l]; simpl in *; [lia|].
  inversion Hn; subst. apply negb_true_iff. by apply Z.eqb_neq.
Qed.

Lemma Decode_wire e data :
  wf_endpoint e ->
  exists d, Decode (wire e data) = Some d /\ decoded_endpoint d = e /\ payload d = data.
Proof.
  destruct e as [[f p a]|[f p a]|name port]; cbn [wf_endpoint wire sin_family sin6_family].
  - intros [Hw ->]. destruct (Decode_wire_ipv4 _ data Hw) as (d & E & Hd & Hl & Hs & Hp).
    exists d. split_and!; [done| |done].
    unfold decoded_endpoint, HasDomain. by rewrite Hd, Hl, Hs.
  - intros [Hw ->]. destruct (Decode_wire_ipv6 _ data Hw) as (d & E & Hd & Hl & Hs & Hp).
    exists d. split_and!; [done| |done].
    unfold decoded_endpoint, HasDomain. by rewrite Hd, Hl, Hs.
  - intros (Hl & Hok & Hn & Hr).
    destruct (Decode_wire_domain name port data Hl) as (d & E & Hd & Hsl & Hs & Hp).
    exists d. split_and!; [done| |done]. unfold decoded_endpoint.
    rewrite (HasDomain_name name), Hd, Hs by (done || lia). cbn [sin_port].
    by rewrite htons_involutive, u16_small.
Qed.

(** Reading a field and writing it back. *)
Lemma slice_length off n l : (off + n <= length l)%nat -> length (slice off n l) = n.
Proof. intros. unfold slice. rewrite length_take, length_drop. lia. Qed.

Lemma bytes_ok_slice off n l : bytes_ok l -> bytes_ok (slice off n l).
Proof. intros H. unfold slice, bytes_ok. by apply Forall_take, Forall_drop. Qed.

Lemma le_split_slice off n l :
  bytes_ok l -> (off + n <= length l)%nat ->
  le_split n (le_join (slice off n l)) = slice off n l.
Proof.
  intros Hok Hl. rewrite <- (slice_length off n l) at 1 by done.
  apply le_split_join. by apply bytes_ok_slice.
Qed.

Lemma le_join_slice_range off n l :
  bytes_ok l -> (off + n <= length l)%nat -> 0 <= le_join (slice off n l) < 256 ^ Z.of_nat n.
Proof.
  intros Hok Hl. rewrite <- (slice_length off n l) at 3 by done.
  apply le_join_range. by apply bytes_ok_slice.
Qed.

Lemma slice_split off n l : drop off l = slice off n l ++ drop (off + n) l.
Proof. unfold slice. rewrite <- drop_drop. by rewrite take_drop. Qed.

Lemma head4 l :
  (4 <= length l)%nat ->
  l = [byte_at l 0; byte_at l 1; byte_at l 2; byte_at l 3] ++ drop 4 l.
Proof. intros. do 4 (destruct l as [|? l]; [simpl in *; lia|]). done. Qed.

(** The three accepted shapes of [Decode]. *)
Lemma Decode_shape pkt d :
  bytes_ok pkt -> Decode pkt = Some d ->
  (pkt = wire_ipv4 (source d) (payload d) /\ wf_in (source d) /\ domain d = [] /\
   sourceLength d = sizeof_SOCKADDR_IN /\ sin_family (source d) = AF_INET) \/
  (pkt = wire_ipv6 (source6 d) (payload d) /\ wf_in6 (source6 d) /\ domain d = [] /\
   sourceLength d = sizeof_SOCKADDR_IN6 /\ sin6_family (source6 d) = AF_INET6) \/
  (pkt = wire_domain (domain d) (htons (sin_port (source d))) (payload d) /\
   (1 <= length (domain d) <= 255)%nat /\ bytes_ok (domain d) /\ wf_in (source d) /\
   sourceLength d = sizeof_SOCKADDR_IN).
Proof.
  intros Hok. unfold Decode.
  destruct (Z.ltb_spec (Z.of_nat (length pkt)) 4); [done|].
  destruct (_ || _) eqn:E0; [done|]. bool_hyps.
  pose proof (head4 pkt ltac:(lia)) as Hh.
  destruct (Z.eqb_spec (byte_at pkt 3) 1) as [E1|_];
    [|destruct (Z.eqb_spec (byte_at pkt 3) 3) as [E3|_];
      [|destruct (Z.eqb_spec (byte_at pkt 3) 4) as [E4|_]; [|done]]].
  - destruct (Z.ltb_spec (Z.of_nat (length pkt)) 10); [done|]. intros [= <-].
    left. cbn [source payload domain sourceLength sin_port sin_addr sin_family].
    split_and!; try done.
    + unfold wire_ipv4. cbn [sin_addr sin_port]. rewrite !le_split_slice by (done || lia).
      rewrite Hh at 1. repeat case_match; try congruence. simplify_eq.
      rewrite (slice_split 4 4), (slice_split (4 + 4) 2). simpl. congruence.
    + split; [apply (le_join_slice_range 8 2)|apply (le_join_slice_range 4 4)]; (done || lia).
  - destruct (Z.ltb_spec (Z.of_nat (length pkt)) 7); [done|].
    set (n := Z.to_nat (byte_at pkt 4)).
    destruct (_ || _) eqn:En; [done|]. bool_hyps.
    intros [= <-]. right; right.
    cbn [source payload domain sourceLength sin_port].
    assert (Hb : byte_ok (byte_at pkt 4)).
    { unfold byte_at. eapply Forall_nth; [done|lia]. }
    unfold byte_ok in Hb.
    assert (Hsl : length (slice 5 n pkt) = n) by (apply slice_length; lia).
    pose proof (le_join_slice_range (5 + n) 2 pkt Hok ltac:(lia)).
    split_and!; try done.
    + unfold wire_domain. rewrite htons_involutive, u16_small, le_split_slice by (done || lia).
      rewrite Hsl. subst n. rewrite Z2Nat.id by lia.
      assert (Hd4 : drop 4 pkt = byte_at pkt 4 :: drop 5 pkt).
      { do 5 (destruct pkt as [|? pkt]; [simpl in *; lia|]). done. }
      rewrite Hh at 1. rewrite Hd4.
      rewrite (slice_split 5 (Z.to_nat (byte_at pkt 4))) at 1.
      rewrite (slice_split (5 + Z.to_nat (byte_at pkt 4)) 2) at 1.
      replace (5 + Z.to_nat (byte_at pkt 4) + 2)%nat
        with (7 + Z.to_nat (byte_at pkt 4))%nat by lia.
      simpl. congruence.
    + lia.
    + lia.
    + by apply bytes_ok_slice.
  - destruct (Z.ltb_spec (Z.of_nat (length pkt)) 22); [done|]. intros [= <-].
    right; left. cbn [source6 payload domain sourceLength sin6_port sin6_addr sin6_family].
    split_and!; try done.
    + unfold wire_ipv6. cbn [sin6_addr sin6_port]. rewrite !le_split_slice by (done || lia).
      rewrite Hh at 1. rewrite (slice_split 4 16), (slice_split (4 + 16) 2). simpl. congruence.
    + split; [apply (le_join_slice_range 20 2); (done || lia)|].
      split; [apply slice_length; lia|by apply bytes_ok_slice].
Qed.

(** ** The contract of the codec *)

(** C39: encoding then decoding a datagram.  For every well-formed endpoint
    (IPv4, IPv6, or a name of 1 to 255 non-NUL bytes) and every payload, as
    long as header and payload together are less than 2 GiB: if they fit the
    output buffer, the encoder succeeds, the packet is header plus payload
    long, and [Decode] gives back exactly the endpoint and the payload; if they
    do not, the encoder reports SOCKET_ERROR.  From 2 GiB on the sum of the
    lengths wraps around to a negative number: then every capacity but a
    smaller number passes the test, and the stores leave the buffer. *)
Theorem codec_roundtrip (cap : Z) (e : endpoint) (data : bytes) :
  wf_endpoint e -> -2147483648 <= cap < 2147483648 -> Z.of_nat (length data) < 2147483648 ->
  let total := header_length e + Z.of_nat (length data) in
  if 2147483648 <=? total then
    encode cap e data = if cap <? total - 4294967296 then Refused else Overran
  else if cap <? total then encode cap e data = Refused
  else exists pkt d,
    encode cap e data = Wrote pkt /\ Z.of_nat (length pkt) = total /\
    Decode pkt = Some d /\ decoded_endpoint d = e /\ payload d = data.
Proof.
  intros Hw Hc Hl total. rewrite (encode_wire cap e data Hw). fold total.
  assert (Hh : 0 <= header_length e <= 262) by (destruct e; cbn in *; lia).
  destruct (Z.leb_spec 2147483648 total) as [Ht|Ht].
  - unfold store_packet. rewrite s32_overflow by lia.
    rewrite (proj2 (Z.ltb_lt cap total)) by lia. done.
  - rewrite store_packet_small by lia. break_if; [done|].
    destruct (Decode_wire e data Hw) as (d & E & He & Hp).
    exists (wire e data), d. split_and!; try done. by apply length_wire, wf_endpoint_addr.
Qed.

Lemma codec_roundtrip_witness :
  encode 300 (EpName (ascii_bytes "example.org") 53) [1; 2; 3] <> Refused /\
  exists pkt d,
    encode 300 (EpName (ascii_bytes "example.org") 53) [1; 2; 3] = Wrote pkt /\
    Z.of_nat (length pkt) = 21 /\ Decode pkt = Some d /\
    decoded_endpoint d = EpName (ascii_bytes "example.org") 53 /\ payload d = [1; 2; 3].
Proof.
  split; [vm_compute; discriminate|].
  apply (codec_roundtrip 300 (EpName (ascii_bytes "example.org") 53) [1; 2; 3]);
    [|lia|vm_compute; reflexivity].
  split; [vm_compute; lia|]. split; [|split; [|lia]].
  - by apply (bool_decide_unpack _).
  - by apply (bool_decide_unpack _).
Defined.

(** [Decode] accepts canonical packets only.  Whatever decodes is the RFC
    1928 wire image of the decoded endpoint followed by the decoded payload, so
    no byte of an accepted packet is ignored, and the encoder maps the decoded
    endpoint and payload back to the same packet.  The one accepted packet the
    encoder cannot produce is a name field of 1 to 255 bytes with an embedded
    NUL, which the C string cannot carry. *)
Theorem decode_canonical (pkt : bytes) (d : DecodedPacket) :
  bytes_ok pkt -> Z.of_nat (length pkt) < 2147483648 -> Decode pkt = Some d ->
  (exists e, wf_endpoint e /\ decoded_endpoint d = e /\ pkt = wire e (payload d) /\
             encode (Z.of_nat (length pkt)) e (payload d) = Wrote pkt) \/
  (exists port, (1 <= length (domain d) <= 255)%nat /\ 0 <= port < 65536 /\
             ~ no_nul (domain d) /\ pkt = wire_domain (domain d) port (payload d)).
Proof.
  intros Hok Hint HD.
  assert (K : forall e, wf_endpoint e -> pkt = wire e (payload d) ->
     encode (Z.of_nat (length pkt)) e (payload d) = Wrote pkt).
  { intros e He ->. pose proof (length_wire e (payload d) (wf_endpoint_addr e He)) as Hl.
    rewrite (encode_wire _ _ _ He). rewrite Hl in *. apply store_packet_fits; lia. }
  destruct (Decode_shape pkt d Hok HD) as
    [(Hp & Hw & Hdom & Hsl & Hf)|[(Hp & Hw & Hdom & Hsl & Hf)|(Hp & Hl & Hdo & Hw & Hsl)]].
  - left. exists (EpV4 (source d)).
    assert (wf_endpoint (EpV4 (source d))) by done.
    split_and!; auto. unfold decoded_endpoint, HasDomain. by rewrite Hdom, Hsl.
  - left. exists (EpV6 (source6 d)).
    assert (wf_endpoint (EpV6 (source6 d))) by done.
    split_and!; auto. unfold decoded_endpoint, HasDomain. by rewrite Hdom, Hsl.
  - destruct (decide (no_nul (domain d))) as [Hn|Hn].
    + left. exists (EpName (domain d) (htons (sin_port (source d)))).
      assert (wf_endpoint (EpName (domain d) (htons (sin_port (source d))))).
      { cbn. split_and!; auto with proxylane; try lia; apply htons_range. }
      split_and!; auto. unfold decoded_endpoint.
      by rewrite (HasDomain_name (domain d)) by (done || lia).
    + right. exists (htons (sin_port (source d))).
      split_and!; auto; try lia; apply htons_range.
Qed.

Lemma decode_canonical_witness :
  exists d, Decode [0;0;0;1; 127;0;0;1; 0;53; 7;8] = Some d /\
  ((exists e, wf_endpoint e /\ decoded_endpoint d = e /\
      [0;0;0;1; 127;0;0;1; 0;53; 7;8] = wire e (payload d) /\
      encode 12 e (payload d) = Wrote [0;0;0;1; 127;0;0;1; 0;53; 7;8]) \/
   (exists port, (1 <= length (domain d) <= 255)%nat /\ 0 <= port < 65536 /\
      ~ no_nul (domain d) /\
      [0;0;0;1; 127;0;0;1; 0;53; 7;8] = wire_domain (domain d) port (payload d))).
Proof.
  eexists; split; [reflexivity|].
  apply (decode_canonical [0;0;0;1; 127;0;0;1; 0;53; 7;8]); [|vm_compute; reflexivity|reflexivity].
  by apply (bool_decide_unpack _).
Defined.
