(* ===== verification/UdpPolicy.v ===== *)
(** * The UDP, DNS and transport policies

    The header-only policy functions of src/ProxyLaneHook: the capability
    circuit breaker and the association rules (UdpAssociationPolicy.h), the
    payload bound (UdpPayloadPolicy.h), the DNS redirect (DnsRedirectPolicy.h),
    the address-family and IPv6 rules (DnsAddressFamilyPolicy.h,
    Ipv6BlockPolicy.h, DnsNamePolicy.h) and the transport rules
    (ProxyTransportPolicy.h). *)

From S2P Require Import Prelude Winsock SockAddr Socks5UdpCodec.

(** ** UdpAssociationPolicy.h *)

Inductive UpstreamState :=
  | UPSTREAM_ROUTE_RESERVED | UPSTREAM_ASSOCIATING | UPSTREAM_READY
  | UPSTREAM_RECONNECT_WAIT | UPSTREAM_DORMANT | UPSTREAM_CLOSING.

#[global] Instance UpstreamState_eq_dec : EqDecision UpstreamState.
Proof. solve_decision. Defined.

Inductive CapabilityState :=
  | CAPABILITY_UNKNOWN | CAPABILITY_SUPPORTED | CAPABILITY_UNSUPPORTED
  | CAPABILITY_TEMPORARILY_UNAVAILABLE.

#[global] Instance CapabilityState_eq_dec : EqDecision CapabilityState.
Proof. solve_decision. Defined.

Record CapabilityCircuit := mkCircuit {
  cap_state : CapabilityState;
  consecutiveFailures : Z;
  blockedUntil : Z;
  suppressedAttempts : Z
}.

Definition Circuit_Reset : CapabilityCircuit := mkCircuit CAPABILITY_UNKNOWN 0 0 0.

(** [CanAttempt] may clear an expired block: it returns the new circuit too. *)
Definition CanAttempt (now : Z) (c : CapabilityCircuit) : bool * CapabilityCircuit :=
  let c := if bool_decide (cap_state c = CAPABILITY_TEMPORARILY_UNAVAILABLE)
              && (0 <=? s32 (now - blockedUntil c))
           then mkCircuit CAPABILITY_UNKNOWN 0 0 (suppressedAttempts c) else c in
  (negb (bool_decide (cap_state c = CAPABILITY_UNSUPPORTED)) &&
   negb (bool_decide (cap_state c = CAPABILITY_TEMPORARILY_UNAVAILABLE)), c).

Definition ReportFailure_with (threshold cooldown : Z) (now : Z) (permanent : bool)
    (c : CapabilityCircuit) : bool * CapabilityCircuit :=
  if permanent then
    (true, mkCircuit CAPABILITY_UNSUPPORTED (consecutiveFailures c) 0 (suppressedAttempts c))
  else if bool_decide (cap_state c = CAPABILITY_UNSUPPORTED) then (true, c)
  else
    let n := u32 (consecutiveFailures c + 1) in
    if n <? threshold
    then (false, mkCircuit CAPABILITY_UNKNOWN n (blockedUntil c) (suppressedAttempts c))
    else (true, mkCircuit CAPABILITY_TEMPORARILY_UNAVAILABLE n (u32 (now + cooldown))
                  (suppressedAttempts c)).

(** The default arguments: three failures, sixty seconds. *)
Definition ReportFailure := ReportFailure_with 3 (60 * 1000).

Definition ReportSuccess (c : CapabilityCircuit) : CapabilityCircuit :=
  mkCircuit CAPABILITY_SUPPORTED 0 0 (suppressedAttempts c).

Definition ShouldActivateUpstream (state : UpstreamState) : bool :=
  bool_decide (state = UPSTREAM_ROUTE_RESERVED) || bool_decide (state = UPSTREAM_DORMANT).

Record Destination := mkDestination {
  hasDomain : bool;
  dest_domain : option bytes;   (* a null pointer or a C string *)
  family : Z;
  ipv4 : Z;
  ipv6 : bytes;
  port : Z
}.

Definition IsSameDestination (left right : Destination) : bool :=
  if negb (eqb (hasDomain left) (hasDomain right)) || negb (port left =? port right) then false
  else if hasDomain left then
    match dest_domain left, dest_domain right with
    | Some l, Some r => stricmp_eq l r
    | _, _ => false
    end
  else if negb (family left =? family right) then false
  else if family left =? AF_INET6 then bool_decide (ipv6 left = ipv6 right)
  else ipv4 left =? ipv4 right.

Definition CanShareAssociation (left right : Destination) : bool :=
  if IsSameDestination left right then true
  else if (port left =? port right) && (hasDomain left || hasDomain right) then false
  else true.

Definition ShouldEnterDormant (now lastActivity idleTimeout : Z) (hasPendingWork : bool) : bool :=
  negb hasPendingWork && (idleTimeout <=? elapsed now lastActivity).

Definition IsMdnsDestination (family ipv4 : Z) (ipv6 : option bytes) (port : Z) : bool :=
  if negb (port =? 5353) then false
  else if family =? AF_INET then
    let bytes := octets ipv4 in
    (byte_at bytes 0 =? 224) && (byte_at bytes 1 =? 0) &&
    (byte_at bytes 2 =? 0) && (byte_at bytes 3 =? 251)
  else (family =? AF_INET6) &&
    match ipv6 with
    | Some b => bool_decide (take 16 b = [255; 2] ++ replicate 13 0 ++ [251])
    | None => false
    end.

(** ** UdpPayloadPolicy.h *)

Definition MAX_IPV4_UDP_PAYLOAD : Z := 65507.
Definition SOCKS5_IPV4_HEADER_SIZE : Z := 10.
Definition SOCKS5_IPV6_HEADER_SIZE : Z := 22.

Definition Socks5HeaderSize (domain : option bytes) : Z :=
  match domain with
  | None | Some [] => SOCKS5_IPV4_HEADER_SIZE
  | Some domain =>
      let domainLength := Z.of_nat (length domain) in
      if 255 <? domainLength then MAX_IPV4_UDP_PAYLOAD + 1 else 7 + domainLength
  end.

Definition MaxPayload (usesSocks5 : bool) (domain : option bytes) (isIPv6 : bool) : Z :=
  if negb usesSocks5 then MAX_IPV4_UDP_PAYLOAD
  else
    let headerSize := if isIPv6 then SOCKS5_IPV6_HEADER_SIZE else Socks5HeaderSize domain in
    if headerSize <=? MAX_IPV4_UDP_PAYLOAD then MAX_IPV4_UDP_PAYLOAD - headerSize else 0.

Definition IsAllowed (payloadLength : Z) (usesSocks5 : bool) (domain : option bytes)
    (isIPv6 : bool) : bool :=
  payloadLength <=? MaxPayload usesSocks5 domain isIPv6.

(** ** DnsRedirectPolicy.h *)

Definition IsPrivateDnsAddress (address : _SockAddr) : bool :=
  if IsIPv4 address || IsIPv4Mapped address then
    let bytes := octets (GetdwIP address) in
    (byte_at bytes 0 =? 10) ||
    ((byte_at bytes 0 =? 172) && (16 <=? byte_at bytes 1) && (byte_at bytes 1 <=? 31)) ||
    ((byte_at bytes 0 =? 192) && (byte_at bytes 1 =? 168)) ||
    ((byte_at bytes 0 =? 169) && (byte_at bytes 1 =? 254))
  else
    match GetAddr6 address with
    | Some bytes =>
        (Z.land (byte_at bytes 0) 254 =? 252) ||
        ((byte_at bytes 0 =? 254) && (Z.land (byte_at bytes 1) 192 =? 128))
    | None => false
    end.

Definition IsValidPublicResolver (address : _SockAddr) : bool :=
  if IsAny address || IsLoopback address || IsIPv4Mapped address || IsPrivateDnsAddress address
  then false
  else if IsIPv4 address || IsIPv4Mapped address then
    byte_at (octets (GetdwIP address)) 0 <? 224
  else
    match GetAddr6 address with
    | Some bytes => negb (byte_at bytes 0 =? 255)
    | None => false
    end.

Definition ShouldRedirect (client : PRCClient) (settings : ProxySettingsInfo)
    (proxy : ProxyInfo) : bool :=
  (nDNSOption settings =? PSI_DNSOPT_REMOTE) &&
  bRedirectPrivateDNS settings &&
  negb (GetProxyType proxy =? PROXYTYPE_NOPROXY) &&
  (GetPort (dstAddr client) =? 53) &&
  negb (IsDNValid (szDomainName client)) &&
  IsPrivateDnsAddress (dstAddr client) &&
  IsValidPublicResolver (redirectDNSAddr settings).

Definition Apply (client : PRCClient) (settings : ProxySettingsInfo) (proxy : ProxyInfo)
    : bool * PRCClient :=
  let flags := Z.land (routingFlags client) (Z.lnot PRC_CLIENT_FLAG_DNS_REDIRECT) in
  let client := set_redirect flags SockAddr.Clear client in
  if negb (ShouldRedirect client settings proxy) then (false, client)
  else (true, set_redirect (Z.lor flags PRC_CLIENT_FLAG_DNS_REDIRECT)
                (SetPort 53 (redirectDNSAddr settings)) client).

(** ** DnsAddressFamilyPolicy.h, Ipv6BlockPolicy.h, DnsNamePolicy.h *)

Inductive FamilyDecision := KEEP_REQUESTED_FAMILY | FORCE_IPV4 | REJECT_IPV6.

Definition Decide (requestedFamily : Z) (blockIPv6 : bool) : FamilyDecision :=
  if requestedFamily =? AF_UNSPEC then FORCE_IPV4
  else if (requestedFamily =? AF_INET6) && blockIPv6 then REJECT_IPV6
  else KEEP_REQUESTED_FAMILY.

Definition ShouldBlock (destination : _SockAddr) : bool :=
  match GetAddr6 destination with
  | None => false
  | Some address => negb (IN6_IS_ADDR_LOOPBACK address) && negb (IN6_IS_ADDR_V4MAPPED address)
  end.

Definition EqualsDnsName (left right : option bytes) : bool :=
  match left, right with
  | Some ((_ :: _) as l), Some ((_ :: _) as r) => stricmp_eq l r
  | _, _ => false
  end.

Definition IsLocalhost (name : option bytes) : bool :=
  EqualsDnsName name (Some (ascii_bytes "localhost")).

(** ** ProxyTransportPolicy.h *)

Definition UseDirectConnection (info : ProxyInfo) : ProxyInfo :=
  mkProxyInfo (szItemName info) [] (strProxyHost info) (nProxyPort info) (strProxyUser info)
    (strProxyPass info) PROXY_TRANSPORT_PLAIN [].

Definition UsesGoncTlsPsk (info : option ProxyInfo) : bool :=
  match info with
  | None => false
  | Some info => negb (GetProxyType info =? PROXYTYPE_NOPROXY)
                 && (pi_reserved info =? PROXY_TRANSPORT_GONC_TLS_PSK)
  end.

Definition SupportsGoncTlsPsk (proxyType : Z) : bool :=
  (proxyType =? PROXYTYPE_SOCKS5) || (proxyType =? PROXYTYPE_HTTP10)
  || (proxyType =? PROXYTYPE_HTTP11).

Definition SupportsUdpProxy (proxyType : Z) : bool :=
  (proxyType =? PROXYTYPE_NOPROXY) || (proxyType =? PROXYTYPE_SOCKS5).

(** ** The circuit breaker as a machine *)

Inductive circuit_event :=
  | EvAttempt (now : Z)
  | EvFailure (now : Z) (permanent : bool)
  | EvSuccess.

(** One event and its answer. *)
Definition circuit_step (e : circuit_event) (c : CapabilityCircuit) : bool * CapabilityCircuit :=
  match e with
  | EvAttempt now => CanAttempt now c
  | EvFailure now permanent => ReportFailure now permanent c
  | EvSuccess => (true, ReportSuccess c)
  end.

Definition circuit_run (es : list circuit_event) (c : CapabilityCircuit) : CapabilityCircuit :=
  fold_left (fun c e => snd (circuit_step e c)) es c.

(** While attempts may pass, fewer than three failures are counted. *)
Definition wf_circuit (c : CapabilityCircuit) : Prop :=
  match cap_state c with
  | CAPABILITY_UNKNOWN | CAPABILITY_SUPPORTED => 0 <= consecutiveFailures c < 3
  | CAPABILITY_TEMPORARILY_UNAVAILABLE =>
      3 <= consecutiveFailures c < 4294967296 /\ 0 <= blockedUntil c < 4294967296
  | CAPABILITY_UNSUPPORTED => blockedUntil c = 0
  end.

Lemma wf_circuit_step e c : wf_circuit c -> wf_circuit (snd (circuit_step e c)).
Proof.
  destruct c as [st n b s]. intros Hw. unfold wf_circuit in Hw; simpl in Hw.
  destruct e as [now|now [|]|]; [| | |unfold wf_circuit; simpl; lia].
  - unfold circuit_step, CanAttempt; simpl. destruct st; simpl; try done.
    destruct (0 <=? s32 (now - b)); unfold wf_circuit; simpl; lia.
  - done.
  - unfold circuit_step, ReportFailure, ReportFailure_with; simpl.
    pose proof (u32_range (n + 1)). pose proof (u32_range (now + 60 * 1000)).
    destruct st; simpl; try done;
      destruct (Z.ltb_spec (u32 (n + 1)) 3); unfold wf_circuit; simpl; lia.
Qed.

Lemma s32_large d : 2147483648 <= d < 4294967296 -> s32 d = d - 4294967296.
Proof.
  intros. unfold s32. rewrite u32_small by lia.
  destruct (Z.ltb_spec d 2147483648); lia.
Qed.
Lemma s32_mod a b : u32 a = u32 b -> s32 a = s32 b.
Proof. unfold s32. by intros ->. Qed.

Lemma u32_sub_u32 a b : u32 (u32 a - u32 b) = u32 (a - b).
Proof. unfold u32. by rewrite <- Zminus_mod. Qed.

Definition working (st : CapabilityState) : Prop :=
  st = CAPABILITY_UNKNOWN \/ st = CAPABILITY_SUPPORTED.

Lemma ReportFailure_below t st n b s :
  working st -> 0 <= n < 2 ->
  ReportFailure t false (mkCircuit st n b s) = (false, mkCircuit CAPABILITY_UNKNOWN (n + 1) b s).
Proof.
  intros Hst Hn. unfold ReportFailure, ReportFailure_with. cbn [cap_state consecutiveFailures].
  rewrite bool_decide_false by (destruct Hst; congruence). rewrite u32_small by lia.
  destruct (Z.ltb_spec (n + 1) 3); [done|lia].
Qed.

Lemma ReportFailure_trips t b s :
  ReportFailure t false (mkCircuit CAPABILITY_UNKNOWN (0 + 1 + 1) b s)
  = (true, mkCircuit CAPABILITY_TEMPORARILY_UNAVAILABLE 3 (u32 (t + 60000)) s).
Proof. reflexivity. Qed.

(** An open circuit answers by the signed distance to the end of the block. *)
Lemma CanAttempt_blocked t d n s :
  0 <= d < 4294967296 ->
  CanAttempt (u32 (t + d)) (mkCircuit CAPABILITY_TEMPORARILY_UNAVAILABLE n (u32 (t + 60000)) s)
  = if (60000 <=? d) && (d <? 60000 + 2147483648)
    then (true, mkCircuit CAPABILITY_UNKNOWN 0 0 s)
    else (false, mkCircuit CAPABILITY_TEMPORARILY_UNAVAILABLE n (u32 (t + 60000)) s).
Proof.
  intros Hd. unfold CanAttempt. cbn [cap_state blockedUntil suppressedAttempts].
  assert (E : s32 (u32 (t + d) - u32 (t + 60000)) = s32 (d - 60000)).
  { apply s32_mod. rewrite u32_sub_u32. f_equal. lia. }
  rewrite E, (bool_decide_true (CAPABILITY_TEMPORARILY_UNAVAILABLE = _)) by done. cbn [andb].
  replace (0 <=? s32 (d - 60000)) with ((60000 <=? d) && (d <? 60000 + 2147483648)).
  { by destruct ((60000 <=? d) && (d <? 60000 + 2147483648)). }
  symmetry. destruct (Z.leb_spec 60000 d); cbn [andb].
  - destruct (Z.ltb_spec d (60000 + 2147483648)).
    + rewrite s32_small by lia. apply Z.leb_le. lia.
    + rewrite s32_large by lia. apply Z.leb_gt. lia.
  - rewrite (s32_mod (d - 60000) (d - 60000 + 4294967296)).
    + rewrite s32_large by lia. apply Z.leb_gt. lia.
    + unfold u32. by rewrite <- (Z_mod_plus_full (d - 60000) 1).
Qed.

(** the circuit breaker opens exactly when it says.  From a working state
    with no failure counted, the first two transient failures still let
    attempts through, the third one opens the circuit; [d] milliseconds after
    it (0 <= d < 2^32, the tick counter wrapping freely) an attempt is admitted
    exactly from 60 s on, until the signed tick comparison turns over 2^31 ms
    later. *)
Theorem circuit_blocks_exactly (c : CapabilityCircuit) (t1 t2 t3 d : Z) :
  working (cap_state c) -> consecutiveFailures c = 0 -> 0 <= d < 4294967296 ->
  let c1 := snd (ReportFailure t1 false c) in
  let c2 := snd (ReportFailure t2 false c1) in
  let c3 := snd (ReportFailure t3 false c2) in
  fst (ReportFailure t1 false c) = false /\ fst (ReportFailure t2 false c1) = false /\
  fst (ReportFailure t3 false c2) = true /\
  (forall t, fst (CanAttempt t c1) = true /\ fst (CanAttempt t c2) = true) /\
  fst (CanAttempt (u32 (t3 + d)) c3) = (60000 <=? d) && (d <? 60000 + 2147483648) /\
  (fst (CanAttempt (u32 (t3 + d)) c3) = true ->
   snd (CanAttempt (u32 (t3 + d)) c3) = mkCircuit CAPABILITY_UNKNOWN 0 0 (suppressedAttempts c)).
Proof.
  destruct c as [st n b s]; cbn [cap_state consecutiveFailures suppressedAttempts].
  intros Hst -> Hd.
  rewrite (ReportFailure_below t1 st 0 b s) by (done || lia).
  cbv zeta; cbn [snd].
  rewrite (ReportFailure_below t2 CAPABILITY_UNKNOWN (0 + 1) b s) by (by left || lia).
  cbn [snd]. rewrite ReportFailure_trips. cbn [fst snd]. split_and!; try done.
  - rewrite CanAttempt_blocked by lia. destruct (_ && _); done.
  - rewrite CanAttempt_blocked by lia. destruct (_ && _); done.
Qed.

Lemma circuit_blocks_exactly_witness :
  fst (CanAttempt (u32 (4294967290 + 59999))
        (snd (ReportFailure 4294967290 false (snd (ReportFailure 5 false
          (snd (ReportFailure 0 false Circuit_Reset))))))) = false.
Proof.
  destruct (circuit_blocks_exactly Circuit_Reset 0 5 4294967290 59999) as (_&_&_&_&H&_);
    [by left|done|lia|].
  exact H.
Defined.

Lemma CanAttempt_unsupported now c :
  cap_state c = CAPABILITY_UNSUPPORTED -> CanAttempt now c = (false, c).
Proof. destruct c; cbn [cap_state]; intros ->. reflexivity. Qed.

Lemma ReportFailure_unsupported now p c :
  cap_state c = CAPABILITY_UNSUPPORTED ->
  cap_state (snd (ReportFailure now p c)) = CAPABILITY_UNSUPPORTED.
Proof. destruct c, p; cbn [cap_state]; intros ->; reflexivity. Qed.

(** A permanent failure is final.  After it, whatever attempts and further
    failures follow, in any number and at any times, every attempt is refused
    and the state stays UNSUPPORTED: only a success or a reset reopens it. *)
Theorem circuit_permanent_sticky (c : CapabilityCircuit) (now : Z) (es : list circuit_event) :
  Forall (fun e => e <> EvSuccess) es ->
  let c' := circuit_run es (snd (ReportFailure now true c)) in
  cap_state c' = CAPABILITY_UNSUPPORTED /\ forall t, fst (CanAttempt t c') = false.
Proof.
  intros H. set (c0 := snd (ReportFailure now true c)).
  assert (H0 : cap_state c0 = CAPABILITY_UNSUPPORTED) by done.
  cbv zeta. generalize dependent c0. induction H as [|e es He Hes IH]; intros c0 H0.
  - split; [done|]. intros t. cbn [circuit_run fold_left]. by rewrite CanAttempt_unsupported.
  - apply IH. destruct e as [t|t p|]; [| |done]; cbn [circuit_step].
    + by rewrite CanAttempt_unsupported.
    + by apply ReportFailure_unsupported.
Qed.

Lemma circuit_permanent_sticky_witness :
  fst (CanAttempt 900000 (circuit_run [EvFailure 5 false; EvAttempt 100000]
    (snd (ReportFailure 1 true Circuit_Reset)))) = false.
Proof.
  apply (circuit_permanent_sticky Circuit_Reset 1 [EvFailure 5 false; EvAttempt 100000]).
  repeat constructor; discriminate.
Defined.

Lemma CanAttempt_admits now c :
  fst (CanAttempt now c) = true -> working (cap_state (snd (CanAttempt now c))).
Proof.
  unfold CanAttempt, working. cbn [fst snd].
  generalize (if bool_decide (cap_state c = CAPABILITY_TEMPORARILY_UNAVAILABLE)
                 && (0 <=? s32 (now - blockedUntil c))
              then mkCircuit CAPABILITY_UNKNOWN 0 0 (suppressedAttempts c) else c).
  intros [[] n b s]; cbn; auto; discriminate.
Qed.

(** the breaker's counters are consistent after every history.  From the
    reset state, after any sequence of attempts, failures and successes, an
    admitted attempt means that fewer than three transient failures are
    counted, and a blocked circuit has counted at least three. *)
Theorem circuit_history_wf (es : list circuit_event) (now : Z) :
  let c := circuit_run es Circuit_Reset in
  wf_circuit c /\
  (fst (CanAttempt now c) = true -> 0 <= consecutiveFailures (snd (CanAttempt now c)) < 3).
Proof.
  cbv zeta. assert (H : wf_circuit (circuit_run es Circuit_Reset)).
  { assert (H0 : wf_circuit Circuit_Reset) by (unfold wf_circuit; simpl; lia).
    generalize dependent Circuit_Reset. induction es as [|e es IH]; intros c0 H0; [done|].
    simpl. apply IH. by apply wf_circuit_step. }
  split; [done|]. intros HA.
  pose proof (wf_circuit_step (EvAttempt now) _ H) as H'.
  apply CanAttempt_admits in HA. cbn [circuit_step] in H'. unfold wf_circuit in H'.
  by destruct HA as [E|E]; rewrite E in H'.
Qed.

(** ** The payload bound and the codec agree *)

(** The policy's arguments for a route to an endpoint. *)
Definition policy_domain (e : endpoint) : option bytes :=
  match e with EpName name _ => Some name | _ => None end.
Definition policy_ipv6 (e : endpoint) : bool :=
  match e with EpV6 _ => true | _ => false end.

Lemma Socks5HeaderSize_name name :
  (1 <= length name <= 255)%nat -> Socks5HeaderSize (Some name) = 7 + Z.of_nat (length name).
Proof.
  intros Hl. destruct name as [|b name]; [simpl in *; lia|].
  unfold Socks5HeaderSize. destruct (Z.ltb_spec 255 (Z.of_nat (length (b :: name)))); lia.
Qed.

(** the payload policy is exactly the codec's bound.  For every well-formed
    endpoint, a datagram passes [IsAllowed] if and only if its SOCKS5 encoding
    fits in the largest IPv4 UDP payload; in particular what the policy lets
    through never fails to encode for lack of room. *)
Theorem payload_policy_exact (e : endpoint) (data : bytes) :
  wf_endpoint e ->
  IsAllowed (Z.of_nat (length data)) true (policy_domain e) (policy_ipv6 e) = true <->
  exists pkt, encode MAX_IPV4_UDP_PAYLOAD e data = Wrote pkt /\
              Z.of_nat (length pkt) <= MAX_IPV4_UDP_PAYLOAD.
Proof.
  intros Hw. rewrite (encode_wire _ _ _ Hw).
  assert (Hm : MaxPayload true (policy_domain e) (policy_ipv6 e)
               = MAX_IPV4_UDP_PAYLOAD - header_length e).
  { destruct e; [done|done|]. cbn [policy_domain policy_ipv6 header_length].
    destruct Hw as [Hl _]. unfold MaxPayload. cbn [negb].
    rewrite Socks5HeaderSize_name by lia. unfold MAX_IPV4_UDP_PAYLOAD.
    destruct (Z.leb_spec (7 + Z.of_nat (length name)) 65507); lia. }
  unfold IsAllowed. rewrite Hm, Z.leb_le.
  split.
  - intros Hl. exists (wire e data). rewrite length_wire by (by apply wf_endpoint_addr).
    assert (0 <= header_length e) by (destruct e; cbn; lia).
    split; [apply store_packet_fits; unfold MAX_IPV4_UDP_PAYLOAD in *; lia|lia].
  - intros (pkt & [Hl _]%store_packet_wrote & _). lia.
Qed.

Lemma payload_policy_exact_witness :
  exists pkt, encode MAX_IPV4_UDP_PAYLOAD (EpName (ascii_bytes "dns") 53) [1; 2] = Wrote pkt /\
              Z.of_nat (length pkt) <= MAX_IPV4_UDP_PAYLOAD.
Proof.
  apply (payload_policy_exact (EpName (ascii_bytes "dns") 53) [1; 2]); [|reflexivity].
  split; [vm_compute; lia|]. split; [|split; [|lia]];
    by apply (bool_decide_unpack _).
Defined.

(** ** Private resolvers *)

(** The address as a number, most significant byte first. *)
Definition be_value (l : bytes) : Z := fold_left (fun acc b => acc * 256 + b) l 0.

(** RFC 1918 and 169.254.0.0/16; RFC 4193 (fc00::/7) and fe80::/10. *)
Definition private_v4 (ip : Z) : Prop :=
  167772160 <= ip <= 184549375 \/ 2886729728 <= ip <= 2887778303 \/
  3232235520 <= ip <= 3232301055 \/ 2851995648 <= ip <= 2852061183.
Definition private_v6 (top16 : Z) : Prop :=
  64512 <= top16 <= 65023 \/ 65152 <= top16 <= 65215.

Definition all_bytes : list Z := seqZ 0 256.
Lemma byte_forall (P : Z -> bool) : forallb P all_bytes = true -> forall b, byte_ok b -> P b = true.
Proof.
  intros H b Hb. rewrite forallb_forall in H. apply H. unfold all_bytes.
  apply list_elem_of_In, elem_of_seqZ. unfold byte_ok in Hb. lia.
Qed.

Lemma land_fc b : byte_ok b -> (Z.land b 254 =? 252) = (252 <=? b) && (b <=? 253).
Proof.
  intros Hb. apply eqb_prop.
  apply (byte_forall (fun b => eqb (Z.land b 254 =? 252) ((252 <=? b) && (b <=? 253)))); [|done].
  vm_compute. reflexivity.
Qed.
Lemma land_c0 b : byte_ok b -> (Z.land b 192 =? 128) = (128 <=? b) && (b <=? 191).
Proof.
  intros Hb. apply eqb_prop.
  apply (byte_forall (fun b => eqb (Z.land b 192 =? 128) ((128 <=? b) && (b <=? 191)))); [|done].
  vm_compute. reflexivity.
Qed.

Lemma octets_le_join l : length l = 4%nat -> bytes_ok l -> octets (le_join l) = l.
Proof. intros Hl Hok. unfold octets. rewrite <- Hl. by apply le_split_join. Qed.

(** The four address bytes an IPv4 or IPv4-mapped address stands for. *)
Definition ipv4_bytes (a : _SockAddr) : bytes :=
  if IsIPv4 a then v4_bytes a else take 4 (drop 12 (v6_bytes a)).

Lemma octets_GetdwIP a :
  wf_sockaddr a -> IsIPv4 a || IsIPv4Mapped a = true -> octets (GetdwIP a) = ipv4_bytes a.
Proof.
  intros (_ & Hl & Hok) H. unfold GetdwIP, ipv4_bytes, as_in. cbn [sin_addr].
  destruct (IsIPv4 a).
  - apply octets_le_join; [unfold v4_bytes; rewrite length_take; lia|by apply Forall_take].
  - cbn [orb] in H. rewrite H. apply octets_le_join.
    + unfold v6_bytes. rewrite length_take, length_drop, length_take, length_drop. lia.
    + apply Forall_take, Forall_drop. unfold v6_bytes. by apply Forall_take, Forall_drop.
Qed.

Lemma list_length_4 {A} (l : list A) :
  length l = 4%nat -> exists a b c d, l = [a; b; c; d].
Proof. intros. do 4 (destruct l as [|? l]; [discriminate|]). destruct l; [eauto|discriminate]. Qed.

Lemma ipv4_bytes_shape a :
  wf_sockaddr a -> exists p q r s, ipv4_bytes a = [p; q; r; s] /\
    byte_ok p /\ byte_ok q /\ byte_ok r /\ byte_ok s.
Proof.
  intros (_ & Hl & Hok). unfold ipv4_bytes, v4_bytes, v6_bytes.
  set (l := if _ : bool then _ else _).
  assert (H4 : length l = 4%nat).
  { subst l. destruct (IsIPv4 a); repeat rewrite ?length_take, ?length_drop; lia. }
  assert (Hl' : bytes_ok l).
  { subst l. destruct (IsIPv4 a); [by apply Forall_take|].
    apply Forall_take, Forall_drop. by apply Forall_take, Forall_drop. }
  destruct (list_length_4 l H4) as (p & q & r & s & E). exists p, q, r, s.
  rewrite E in Hl'. unfold bytes_ok in Hl'. rewrite !Forall_cons in Hl'.
  by split_and!; try apply Hl'.
Qed.

(** the private-resolver test is the address-block test.  For every
    well-formed address, [IsPrivateDnsAddress] holds exactly when the IPv4
    address (native or IPv4-mapped) lies in 10/8, 172.16/12, 192.168/16 or
    169.254/16, or the IPv6 address lies in fc00::/7 or fe80::/10. *)
Theorem private_dns_blocks (a : _SockAddr) :
  wf_sockaddr a ->
  IsPrivateDnsAddress a = true <->
  (IsIPv4 a || IsIPv4Mapped a = true /\ private_v4 (be_value (ipv4_bytes a))) \/
  (IsIPv4 a || IsIPv4Mapped a = false /\ IsIPv6 a = true /\
   private_v6 (be_value (take 2 (v6_bytes a)))).
Proof.
  intros Hw. unfold IsPrivateDnsAddress.
  destruct (IsIPv4 a || IsIPv4Mapped a) eqn:E.
  - rewrite octets_GetdwIP by done. destruct (ipv4_bytes_shape a Hw) as (p&q&r&s&->&Hb).
    unfold byte_ok, byte_at, be_value, private_v4 in *. cbn [nth fold_left].
    rewrite !orb_true_iff, !andb_true_iff, !Z.eqb_eq, !Z.leb_le.
    split; [intros ?; left; split; [done|]; lia|]. intros [[_ ?]|[? _]]; [lia|done].
  - unfold GetAddr6. destruct (IsIPv6 a) eqn:E6.
    + assert (Hv : exists p q l, v6_bytes a = p :: q :: l /\ byte_ok p /\ byte_ok q).
      { destruct Hw as (_ & Hl & Hok). unfold v6_bytes.
        destruct (sa_data a) as [|? l]; [discriminate|].
        do 5 (destruct l as [|? l]; [discriminate|]).
        unfold bytes_ok in Hok. rewrite !Forall_cons in Hok. cbn. do 3 eexists. split; [done|].
        split; apply Hok. }
      destruct Hv as (p & q & l & -> & Hp & Hq). unfold byte_at. cbn [nth take].
      rewrite land_fc, land_c0 by done.
      unfold byte_ok, be_value, private_v6 in *. rewrite take_0. cbn [fold_left].
      rewrite !orb_true_iff, !andb_true_iff, !Z.eqb_eq, !Z.leb_le.
      split; [intros ?; right; split_and!; try done; lia|].
      intros [[? _]|(_ & _ & ?)]; [done|lia].
    + split; [done|]. intros [[? _]|(_ & ? & _)]; done.
Qed.

Definition addr_10_1_2_3 : _SockAddr :=
  mkSockAddr AF_INET (htons 53) ([10; 1; 2; 3] ++ replicate 20 0).
Definition addr_8_8_8_8 : _SockAddr :=
  mkSockAddr AF_INET 0 ([8; 8; 8; 8] ++ replicate 20 0).

Lemma private_dns_blocks_witness : IsPrivateDnsAddress addr_10_1_2_3 = true.
Proof.
  apply (private_dns_blocks addr_10_1_2_3).
  - split; [vm_compute; split; [discriminate|reflexivity]|]. split; [reflexivity|].
    by apply (bool_decide_unpack _).
  - left. split; [reflexivity|]. left. vm_compute. split; discriminate.
Defined.

(** ** The DNS redirect *)

Lemma land_lnot_1 f : Z.land (Z.land f (Z.lnot 1)) 1 = 0.
Proof. rewrite <- Z.land_assoc. by rewrite Z.land_0_r. Qed.

Lemma lor_land_1 f : Z.land (Z.lor (Z.land f (Z.lnot 1)) 1) 1 = 1.
Proof. rewrite Z.land_lor_distr_l, land_lnot_1. done. Qed.

Lemma SetPort_same_family p a : sa_family (SetPort p a) = sa_family a.
Proof. done. Qed.

Definition cleared (f : Z) : Z := Z.land f (Z.lnot PRC_CLIENT_FLAG_DNS_REDIRECT).
Definition redirected (client : PRCClient) (settings : ProxySettingsInfo) : PRCClient :=
  set_redirect (Z.lor (cleared (routingFlags client)) PRC_CLIENT_FLAG_DNS_REDIRECT)
    (SetPort 53 (redirectDNSAddr settings)) client.
Definition unredirected (client : PRCClient) : PRCClient :=
  set_redirect (cleared (routingFlags client)) SockAddr.Clear client.

Lemma clear_flag f :
  Z.land (cleared f) PRC_CLIENT_FLAG_DNS_REDIRECT = 0 /\ cleared (cleared f) = cleared f.
Proof. split; [apply land_lnot_1|]. unfold cleared. by rewrite <- Z.land_assoc. Qed.

Lemma set_flag f :
  Z.land (Z.lor (cleared f) PRC_CLIENT_FLAG_DNS_REDIRECT) PRC_CLIENT_FLAG_DNS_REDIRECT = 1 /\
  cleared (Z.lor (cleared f) PRC_CLIENT_FLAG_DNS_REDIRECT) = cleared f.
Proof.
  split; [apply lor_land_1|]. unfold cleared. rewrite Z.land_lor_distr_l.
  change (Z.land PRC_CLIENT_FLAG_DNS_REDIRECT (Z.lnot PRC_CLIENT_FLAG_DNS_REDIRECT)) with 0.
  by rewrite Z.lor_0_r, <- Z.land_assoc.
Qed.

Lemma routingFlags_set f d c : routingFlags (set_redirect f d c) = f.
Proof. done. Qed.
Lemma ShouldRedirect_set f d c settings proxy :
  ShouldRedirect (set_redirect f d c) settings proxy = ShouldRedirect c settings proxy.
Proof. done. Qed.

Lemma ShouldRedirect_redirected c st settings proxy :
  ShouldRedirect (redirected c st) settings proxy = ShouldRedirect c settings proxy.
Proof. done. Qed.
Lemma ShouldRedirect_unredirected c settings proxy :
  ShouldRedirect (unredirected c) settings proxy = ShouldRedirect c settings proxy.
Proof. done. Qed.

Lemma Apply_cases client settings proxy :
  Apply client settings proxy
  = if ShouldRedirect client settings proxy then (true, redirected client settings)
    else (false, unredirected client).
Proof. unfold Apply. rewrite ShouldRedirect_set. by destruct (ShouldRedirect _ _ _). Qed.

(** the DNS redirect is correct and idempotent.  [Apply] redirects exactly
    the requests [ShouldRedirect] selects: their proxy destination becomes the
    configured resolver on port 53, which is neither private nor loopback nor
    unspecified; every other request keeps its own destination.  The original
    destination, the name and the other routing flags are untouched, stale
    redirect state never survives, and applying twice is applying once. *)
Theorem redirect_correct (client : PRCClient) (settings : ProxySettingsInfo) (proxy : ProxyInfo) :
  let '(r, c') := Apply client settings proxy in
  r = ShouldRedirect client settings proxy /\
  HasProxyDestination c' = r /\
  dstAddr c' = dstAddr client /\ szDomainName c' = szDomainName client /\
  Z.land (routingFlags c') (Z.lnot 1) = Z.land (routingFlags client) (Z.lnot 1) /\
  (if r then GetProxyDestination c' = SetPort 53 (redirectDNSAddr settings) /\
             GetPort (GetProxyDestination c') = 53 /\
             IsPrivateDnsAddress (dstAddr client) = true /\
             IsPrivateDnsAddress (GetProxyDestination c') = false /\
             IsLoopback (GetProxyDestination c') = false /\
             IsAny (GetProxyDestination c') = false
   else GetProxyDestination c' = dstAddr client) /\
  Apply c' settings proxy = (r, c').
Proof.
  pose proof (clear_flag (routingFlags client)) as [Hl Hk].
  pose proof (set_flag (routingFlags client)) as [Hl' Hk'].
  rewrite Apply_cases. destruct (ShouldRedirect client settings proxy) eqn:E.
  - assert (HD : HasProxyDestination (redirected client settings) = true)
      by (unfold HasProxyDestination, redirected; by rewrite routingFlags_set, Hl').
    unfold GetProxyDestination. rewrite HD, Apply_cases, ShouldRedirect_redirected, E.
    unfold ShouldRedirect, IsValidPublicResolver in E. bool_hyps.
    destruct (_ || _) eqn:E2 in *; [discriminate|]. bool_hyps.
    split_and!; try done.
    + unfold redirected. rewrite routingFlags_set, Hk'. done.
  - assert (HD : HasProxyDestination (unredirected client) = false)
      by (unfold HasProxyDestination, unredirected; by rewrite routingFlags_set, Hl).
    unfold GetProxyDestination. rewrite HD, Apply_cases, ShouldRedirect_unredirected, E.
    split_and!; try done. unfold unredirected. rewrite routingFlags_set, Hk. done.
Qed.
