(* ===== verification/UdpBlockLogLimiter.v ===== *)
(** * The block-log limiter (UdpBlockLogLimiter.h)

    [CUdpBlockLogLimiter] decides which blocked datagrams are reported: a
    destination cooldown and a per-process budget over 64 fixed entries.  The
    theorems bound what it lets through and show the cooldown. *)

From Stdlib Require Import Sorted.
From S2P Require Import Prelude Winsock SockAddr.

Definition IntervalMs : Z := 5000.
Definition MaxPerInterval : Z := 10.
Definition Capacity : nat := 64.

Record Entry := mkEntry { used : bool; destination : _SockAddr; lastLogged : Z }.

Record CUdpBlockLogLimiter := mkLimiter {
  m_entries : list Entry;
  m_windowStart : Z;
  m_windowCount : Z
}.

Definition new_limiter : CUdpBlockLogLimiter :=
  mkLimiter (replicate Capacity (mkEntry false Clear 0)) 0 0.

Definition same_destination (e : Entry) (dst : _SockAddr) : bool :=
  used e && (sockaddr_eq (destination e) dst
             || ((sa_family (destination e) =? AF_UNSPEC) && (sa_family dst =? AF_UNSPEC))).

Definition expired (now : Z) (e : Entry) : bool :=
  negb (used e) || (IntervalMs <=? elapsed now (lastLogged e)).

(** The loop of [AllowLocked] from index [i] with the slot found so far:
    [None] is [return false] inside the loop, [Some slot] its normal end. *)
Fixpoint find_slot (dst : _SockAddr) (now : Z) (i : nat) (slot : option nat) (es : list Entry)
    : option (option nat) :=
  match es with
  | [] => Some slot
  | e :: es =>
      if same_destination e dst then
        if elapsed now (lastLogged e) <? IntervalMs then None else Some (Some i)
      else
        let slot := match slot with
                    | None => if expired now e then Some i else None
                    | Some _ => slot
                    end in
        find_slot dst now (S i) slot es
  end.

(** The first statement: a window lasts [IntervalMs]. *)
Definition refresh_window (now : Z) (l : CUdpBlockLogLimiter) : CUdpBlockLogLimiter :=
  if IntervalMs <=? elapsed now (m_windowStart l) then mkLimiter (m_entries l) now 0 else l.

Definition AllowLocked (dst : _SockAddr) (now : Z) (l : CUdpBlockLogLimiter)
    : bool * CUdpBlockLogLimiter :=
  let l := refresh_window now l in
  if MaxPerInterval <=? m_windowCount l then (false, l)
  else
    match find_slot dst now 0 None (m_entries l) with
    | None | Some None => (false, l)
    | Some (Some slot) =>
        (true, mkLimiter (<[slot := mkEntry true dst now]> (m_entries l)) (m_windowStart l)
                 (m_windowCount l + 1))
    end.

(** A run: the destinations and ticks of successive calls, the answers. *)
Fixpoint allow_run (calls : list (_SockAddr * Z)) (l : CUdpBlockLogLimiter)
    : list bool * CUdpBlockLogLimiter :=
  match calls with
  | [] => ([], l)
  | (dst, now) :: calls =>
      let '(r, l) := AllowLocked dst now l in
      let '(rs, l) := allow_run calls l in
      (r :: rs, l)
  end.

(** ** Equality of destinations

    [operator==] with the AF_UNSPEC clause, on destinations of a known family. *)

Definition known_family (a : _SockAddr) : bool :=
  IsIPv4 a || IsIPv6 a || (sa_family a =? AF_UNSPEC).

Definition same_dst (a b : _SockAddr) : bool :=
  sockaddr_eq a b || ((sa_family a =? AF_UNSPEC) && (sa_family b =? AF_UNSPEC)).

Lemma same_dst_refl a : known_family a = true -> same_dst a a = true.
Proof.
  unfold known_family, same_dst. intros H. apply orb_true_iff in H as [H|H].
  - unfold sockaddr_eq. by rewrite SameAddress_refl, Z.eqb_refl.
  - by rewrite H, orb_true_r.
Qed.

Lemma same_dst_sym a b : same_dst a b = same_dst b a.
Proof.
  unfold same_dst, sockaddr_eq. rewrite SameAddress_sym, (Z.eqb_sym (GetPort a)).
  by rewrite (andb_comm (sa_family a =? AF_UNSPEC)).
Qed.

Lemma SameAddress_family a b : SameAddress a b = true -> sa_family a = sa_family b.
Proof. unfold SameAddress. by destruct (Z.eqb_spec (sa_family a) (sa_family b)). Qed.

Lemma SameAddress_trans a b c :
  SameAddress a b = true -> SameAddress b c = true -> SameAddress a c = true.
Proof.
  intros H1 H2. pose proof (SameAddress_family _ _ H1) as F1.
  pose proof (SameAddress_family _ _ H2) as F2.
  unfold SameAddress in *. rewrite F1, F2, Z.eqb_refl in *. cbn [negb] in *.
  unfold IsIPv6, IsIPv4 in *. rewrite F1, F2 in *.
  destruct (sa_family c =? AF_INET6).
  - rewrite !bool_decide_eq_true in *. congruence.
  - rewrite !andb_true_iff, !Z.eqb_eq in *. destruct H1, H2. split; congruence.
Qed.

Lemma same_dst_trans a b c : same_dst a b = true -> same_dst b c = true -> same_dst a c = true.
Proof.
  unfold same_dst, sockaddr_eq. rewrite !orb_true_iff, !andb_true_iff, !Z.eqb_eq.
  intros [[A1 A2]|[A1 A2]] [[B1 B2]|[B1 B2]].
  - left. split; [by eapply SameAddress_trans|congruence].
  - right. split; [|done]. by rewrite (SameAddress_family _ _ A1).
  - right. split; [done|]. by rewrite <- (SameAddress_family _ _ B1).
  - by right.
Qed.

Lemma same_destination_eq e dst : same_destination e dst = used e && same_dst (destination e) dst.
Proof. done. Qed.

(** ** The slot search *)

Lemma find_slot_spec dst now es i slot r :
  find_slot dst now i slot es = r ->
  match r with
  | None => exists e, e ∈ es /\ same_destination e dst = true /\
              elapsed now (lastLogged e) < IntervalMs
  | Some None => slot = None
  | Some (Some k) =>
      slot = Some k /\ (forall e, e ∈ es -> same_destination e dst = false) \/
      exists j e, k = (i + j)%nat /\ es !! j = Some e /\
        (same_destination e dst = true /\ IntervalMs <= elapsed now (lastLogged e) \/
         expired now e = true /\ (forall e, e ∈ es -> same_destination e dst = false))
  end.
Proof.
  revert i slot. induction es as [|e es IH]; intros i slot; simpl.
  - intros <-. destruct slot; [|done]. left. split; [done|]. by intros e ?%not_elem_of_nil.
  - destruct (same_destination e dst) eqn:Es.
    + destruct (Z.ltb_spec (elapsed now (lastLogged e)) IntervalMs); intros <-.
      * exists e. split; [constructor|done].
      * right. exists O, e. split; [lia|]. split; [done|]. by left.
    + intros H. specialize (IH _ _ H). clear H.
      assert (Hcons : (forall x, x ∈ es -> same_destination x dst = false) ->
                      forall x, x ∈ e :: es -> same_destination x dst = false).
      { intros Hx x [->|?]%elem_of_cons; auto. }
      destruct r as [[k|]|].
      * destruct IH as [[Hs Hx]|(j & x & -> & Hj & Hx)].
        -- destruct slot as [s0|]; [left; auto|].
           destruct (expired now e) eqn:Ee; [|done]. injection Hs as <-.
           right. exists O, e. split; [lia|]. split; [done|]. right. auto.
        -- right. exists (S j), x. split; [lia|]. split; [done|].
           destruct Hx as [?|[? ?]]; [by left|right; auto].
      * destruct slot; [done|]. by destruct (expired now e).
      * destruct IH as (x & ? & ?). exists x. split; [by right|done].
Qed.

(** At most one used entry per destination. *)
Definition unique_entries (es : list Entry) : Prop :=
  forall i j x y, es !! i = Some x -> es !! j = Some y ->
    used x = true -> used y = true -> same_dst (destination x) (destination y) = true -> i = j.

Definition wf_limiter (l : CUdpBlockLogLimiter) : Prop :=
  length (m_entries l) = Capacity /\ 0 <= m_windowCount l <= MaxPerInterval /\
  unique_entries (m_entries l) /\
  (forall e, e ∈ m_entries l -> used e = true -> known_family (destination e) = true).

Lemma wf_new_limiter : wf_limiter new_limiter.
Proof.
  split; [done|]. split; [unfold MaxPerInterval; simpl; lia|]. split.
  - intros i j x y Hx%list_elem_of_lookup_2 _ Hu. unfold new_limiter in Hx.
    cbn [m_entries] in Hx. apply elem_of_replicate in Hx as [-> _]. done.
  - intros e He%elem_of_replicate Hu. by destruct He as [-> _].
Qed.

(** What one call does: the window, then a refusal or the store in a slot. *)
Lemma AllowLocked_cases dst now l r l' :
  AllowLocked dst now l = (r, l') ->
  let w := refresh_window now l in
  (r = false /\ l' = w /\
     (MaxPerInterval <= m_windowCount w \/
      find_slot dst now 0 None (m_entries l) = None \/
      find_slot dst now 0 None (m_entries l) = Some None)) \/
  (r = true /\ m_windowCount w < MaxPerInterval /\ exists slot,
     find_slot dst now 0 None (m_entries l) = Some (Some slot) /\
     l' = mkLimiter (<[slot := mkEntry true dst now]> (m_entries l)) (m_windowStart w)
            (m_windowCount w + 1)).
Proof.
  unfold AllowLocked. cbv zeta. set (w := refresh_window now l).
  assert (Hw : m_entries w = m_entries l)
    by (subst w; unfold refresh_window; by destruct (_ <=? _)).
  rewrite Hw. destruct (Z.leb_spec MaxPerInterval (m_windowCount w)).
  - intros [= <- <-]. left. auto.
  - destruct (find_slot dst now 0 None (m_entries l)) as [[slot|]|] eqn:E; intros [= <- <-].
    + right. eauto.
    + left. auto.
    + left. auto.
Qed.

Lemma find_slot_start dst now es k :
  find_slot dst now 0 None es = Some (Some k) ->
  exists e, es !! k = Some e /\
    (same_destination e dst = true /\ IntervalMs <= elapsed now (lastLogged e) \/
     expired now e = true /\ (forall e, e ∈ es -> same_destination e dst = false)).
Proof.
  intros H. apply find_slot_spec in H. cbn in H.
  destruct H as [[? _]|(j & e & -> & H)]; [done|]. exists e. exact H.
Qed.

Lemma unique_insert dst now es k :
  unique_entries es -> find_slot dst now 0 None es = Some (Some k) ->
  unique_entries (<[k := mkEntry true dst now]> es).
Proof.
  intros Hu Hs. apply find_slot_start in Hs as (e & He & Hs).
  assert (K : forall j y, es !! j = Some y -> used y = true ->
                same_dst dst (destination y) = true -> k = j).
  { intros j y Hy Hyu Hd. destruct Hs as [[Hs _]|[_ Hs]].
    - rewrite same_destination_eq in Hs. apply andb_true_iff in Hs as [? ?].
      eapply (Hu k j); eauto using same_dst_trans.
    - pose proof (Hs y (list_elem_of_lookup_2 _ _ _ Hy)) as Hn.
      rewrite same_destination_eq, Hyu, same_dst_sym, Hd in Hn. done. }
  intros i j x y Hx Hy Hxu Hyu Hd.
  apply list_lookup_insert_Some in Hx as [(<- & <- & _)|[Hi Hx]],
    Hy as [(<- & <- & _)|[Hj Hy]]; try done.
  - by eapply K.
  - symmetry. rewrite same_dst_sym in Hd. by eapply K.
  - by eapply (Hu i j).
Qed.

Lemma wf_AllowLocked dst now l :
  known_family dst = true -> wf_limiter l -> wf_limiter (snd (AllowLocked dst now l)).
Proof.
  intros Hk (Hl & Hc & Hu & Hf). destruct (AllowLocked dst now l) as [r l'] eqn:E.
  apply AllowLocked_cases in E. cbv zeta in E. cbn [snd].
  set (w := refresh_window now l) in E.
  assert (Hw : m_entries w = m_entries l /\ 0 <= m_windowCount w <= MaxPerInterval).
  { subst w. unfold refresh_window. destruct (_ <=? _); cbn; (split; [done|unfold MaxPerInterval in *; lia]). }
  destruct Hw as [Hwe Hwc]. clearbody w.
  destruct E as [(-> & -> & _)|(-> & Hlt & slot & Hs & ->)]; unfold wf_limiter; cbn.
  - by rewrite Hwe.
  - rewrite length_insert. split_and!; try done; try lia.
    + by apply unique_insert.
    + intros e He Hue. apply list_elem_of_lookup_1 in He as [i Hi].
      apply list_lookup_insert_Some in Hi as [(_ & <- & _)|[_ Hi]]; [done|].
      apply Hf; [by eapply list_elem_of_lookup_2|done].
Qed.

(** ** What is let through *)

Definition count_true (l : list bool) : Z := Z.of_nat (length (filter (fun b => b = true) l)).

Lemma count_true_cons b l : count_true (b :: l) = (if b then 1 else 0) + count_true l.
Proof.
  unfold count_true. rewrite filter_cons. destruct b; cbn [decide]; case_decide; try done.
  cbn [length]. lia.
Qed.

(** Within a window the answers are paid from the budget. *)
Lemma allow_run_window (t0 : Z) calls l ds :
  map snd calls = map (fun d => u32 (t0 + d)) ds ->
  Forall (fun c => known_family (fst c) = true) calls ->
  Forall (fun d => 0 <= d < IntervalMs) ds ->
  wf_limiter l -> m_windowStart l = u32 t0 ->
  count_true (fst (allow_run calls l)) + m_windowCount l <= MaxPerInterval.
Proof.
  revert ds l. induction calls as [|[dst now] calls IH]; intros ds l Ht Hk Hd Hw Hs.
  - unfold count_true. simpl. destruct Hw as (_ & ? & _). lia.
  - destruct ds as [|d ds]; [discriminate|]. injection Ht as -> Ht.
    inversion Hk as [|? ? Hk1 Hk2]; subst. inversion Hd as [|? ? Hd1 Hd2]; subst.
    cbn [fst] in Hk1. simpl.
    destruct (AllowLocked dst (u32 (t0 + d)) l) as [r l'] eqn:E.
    pose proof (wf_AllowLocked dst (u32 (t0 + d)) l Hk1 Hw) as Hw'. rewrite E in Hw'. cbn [snd] in Hw'.
    apply AllowLocked_cases in E. cbv zeta in E.
    assert (Hr : refresh_window (u32 (t0 + d)) l = l).
    { unfold refresh_window, IntervalMs in *. rewrite Hs, elapsed_advance by lia.
      destruct (Z.leb_spec 5000 d); [lia|done]. }
    rewrite Hr in E.
    destruct (allow_run calls l') as [rs l''] eqn:Er. cbn [fst]. rewrite count_true_cons.
    assert (Hs' : m_windowStart l' = u32 t0) by (destruct E as [(_ & -> & _)|(_ & _ & ? & _ & ->)]; done).
    specialize (IH ds l' Ht Hk2 Hd2 Hw' Hs'). rewrite Er in IH. cbn [fst] in IH.
    destruct E as [(-> & -> & _)|(-> & _ & slot & _ & ->)]; cbn [m_windowCount] in IH; lia.
Qed.

Lemma AllowLocked_refresh dst now l :
  AllowLocked dst now (refresh_window now l) = AllowLocked dst now l.
Proof.
  unfold AllowLocked. do 2 f_equal. unfold refresh_window.
  destruct (IntervalMs <=? elapsed now (m_windowStart l)) eqn:E; [|by rewrite E].
  cbn [m_windowStart]. unfold elapsed. by rewrite Z.sub_diag.
Qed.

Lemma wf_refresh now l : wf_limiter l -> wf_limiter (refresh_window now l).
Proof.
  intros (H1 & H2 & H3 & H4). unfold refresh_window. destruct (_ <=? _); [|done].
  split_and!; cbn; try done; lia.
Qed.

Lemma allow_run_span (t0 : Z) calls l ds :
  map snd calls = map (fun d => u32 (t0 + d)) ds ->
  Forall (fun c => known_family (fst c) = true) calls ->
  Forall (fun d => 0 <= d < IntervalMs) ds -> StronglySorted Z.le ds ->
  wf_limiter l ->
  count_true (fst (allow_run calls l)) + m_windowCount l <= 2 * MaxPerInterval.
Proof.
  revert ds l. induction calls as [|[dst now] calls IH]; intros ds l Ht Hk Hd Hso Hw.
  { unfold count_true. simpl. destruct Hw as (_ & ? & _). unfold MaxPerInterval in *. lia. }
  destruct ds as [|d ds]; [discriminate|]. injection Ht as -> Ht.
  inversion Hk as [|? ? Hk1 Hk2]; subst. inversion Hd as [|? ? Hd1 Hd2]; subst.
  inversion Hso as [|? ? Hso1 Hso2]; subst. cbn [fst] in Hk1.
  destruct (IntervalMs <=? elapsed (u32 (t0 + d)) (m_windowStart l)) eqn:Ew.
  - assert (Hc : count_true (fst (allow_run ((dst, u32 (t0 + d)) :: calls)
                     (refresh_window (u32 (t0 + d)) l)))
                 + m_windowCount (refresh_window (u32 (t0 + d)) l) <= MaxPerInterval).
    { apply (allow_run_window (t0 + d) _ _ (0 :: map (fun x => x - d) ds)).
      - cbn [map snd]. rewrite Z.add_0_r, Ht, map_map. f_equal. apply map_ext. intros x.
        f_equal. lia.
      - done.
      - constructor; [unfold IntervalMs; lia|]. apply Forall_fmap, Forall_forall.
        intros x Hx. cbn. rewrite Forall_forall in Hso2, Hd2.
        specialize (Hso2 x Hx). specialize (Hd2 x Hx). lia.
      - by apply wf_refresh.
      - unfold refresh_window. by rewrite Ew. }
    cbn [allow_run] in *. rewrite AllowLocked_refresh in Hc.
    unfold refresh_window in Hc. rewrite Ew in Hc. cbn [m_windowCount] in Hc.
    destruct Hw as (_ & ? & _). lia.
  - cbn [allow_run]. destruct (AllowLocked dst (u32 (t0 + d)) l) as [r l'] eqn:E.
    pose proof (wf_AllowLocked dst (u32 (t0 + d)) l Hk1 Hw) as Hw'. rewrite E in Hw'.
    specialize (IH ds l' Ht Hk2 Hd2 Hso1 Hw').
    destruct (allow_run calls l') as [rs l'']. cbn [fst] in *. rewrite count_true_cons.
    apply AllowLocked_cases in E. cbv zeta in E. unfold refresh_window in E. rewrite Ew in E.
    destruct E as [(-> & -> & _)|(-> & _ & slot & _ & ->)]; cbn [m_windowCount] in IH; lia.
Qed.

(** A live cooldown entry for [dst]. *)
Definition cooling (dst : _SockAddr) (t : Z) (l : CUdpBlockLogLimiter) : Prop :=
  exists k e, m_entries l !! k = Some e /\ used e = true /\
    same_dst (destination e) dst = true /\ lastLogged e = t.

Lemma cooling_start dst now l l' :
  known_family dst = true -> wf_limiter l ->
  AllowLocked dst now l = (true, l') -> cooling dst now l'.
Proof.
  intros Hk (Hl & _) E. apply AllowLocked_cases in E. cbv zeta in E.
  destruct E as [(? & _)|(_ & _ & slot & Hs & ->)]; [done|].
  apply find_slot_start in Hs as (e & He & _).
  exists slot, (mkEntry true dst now). cbn. split_and!; try done.
  - apply list_lookup_insert_eq. by eapply lookup_lt_Some.
  - by apply same_dst_refl.
Qed.

Lemma refresh_entries now l : m_entries (refresh_window now l) = m_entries l.
Proof. unfold refresh_window. by destruct (_ <=? _). Qed.

Lemma cooling_step dst dst' t0 d l :
  0 <= d < IntervalMs -> cooling dst (u32 t0) l ->
  cooling dst (u32 t0) (snd (AllowLocked dst' (u32 (t0 + d)) l)).
Proof.
  intros Hd (k & e & Hk & Hu & Hs & Ht).
  assert (Hel : elapsed (u32 (t0 + d)) (lastLogged e) = d)
    by (rewrite Ht; apply elapsed_advance; unfold IntervalMs in *; lia).
  destruct (AllowLocked dst' (u32 (t0 + d)) l) as [r l'] eqn:E.
  apply AllowLocked_cases in E. cbv zeta in E. cbn [snd].
  destruct E as [(_ & -> & _)|(_ & _ & slot & Hf & ->)].
  - exists k, e. by rewrite refresh_entries.
  - exists k, e. cbn. rewrite list_lookup_insert_ne; [done|]. intros ->.
    apply find_slot_start in Hf as (x & Hx & Hx'). rewrite Hk in Hx. injection Hx as <-.
    rewrite Hel in Hx'. unfold expired in Hx'. rewrite Hel, Hu in Hx'. cbn [negb orb] in Hx'.
    destruct Hx' as [[_ ?]|[Hx' _]]; [lia|]. apply Z.leb_le in Hx'. lia.
Qed.

Lemma cooling_run dst t0 calls ds l :
  map snd calls = map (fun d => u32 (t0 + d)) ds ->
  Forall (fun d => 0 <= d < IntervalMs) ds ->
  cooling dst (u32 t0) l -> cooling dst (u32 t0) (snd (allow_run calls l)).
Proof.
  revert ds l. induction calls as [|[dst' now] calls IH]; intros ds l Ht Hd Hc; [done|].
  destruct ds as [|d ds]; [discriminate|]. injection Ht as -> Ht.
  inversion Hd as [|? ? Hd1 Hd2]; subst. cbn [allow_run].
  pose proof (cooling_step dst dst' t0 d l Hd1 Hc) as Hc'.
  destruct (AllowLocked dst' (u32 (t0 + d)) l) as [r l']. cbn [snd] in Hc'.
  specialize (IH ds l' Ht Hd2 Hc'). by destruct (allow_run calls l').
Qed.

Lemma wf_allow_run calls l :
  Forall (fun c => known_family (fst c) = true) calls -> wf_limiter l ->
  wf_limiter (snd (allow_run calls l)).
Proof.
  revert l. induction calls as [|[dst now] calls IH]; intros l Hk Hw; [done|].
  inversion Hk as [|? ? Hk1 Hk2]; subst. cbn [allow_run].
  pose proof (wf_AllowLocked dst now l Hk1 Hw) as Hw'.
  destruct (AllowLocked dst now l) as [r l']. specialize (IH l' Hk2 Hw').
  by destruct (allow_run calls l').
Qed.

Lemma cooling_denied dst dst' t0 d l :
  0 <= d < IntervalMs -> wf_limiter l -> cooling dst (u32 t0) l -> same_dst dst dst' = true ->
  fst (AllowLocked dst' (u32 (t0 + d)) l) = false.
Proof.
  intros Hd (_ & _ & Hu & _) (k & e & Hk & Hue & Hs & Ht) Hsd.
  destruct (AllowLocked dst' (u32 (t0 + d)) l) as [r l'] eqn:E.
  apply AllowLocked_cases in E. cbv zeta in E. cbn [fst].
  destruct E as [(-> & _)|(_ & _ & slot & Hf & _)]; [done|]. exfalso.
  assert (Hse : same_destination e dst' = true).
  { rewrite same_destination_eq, Hue. by eapply same_dst_trans. }
  apply find_slot_start in Hf as (x & Hx & [[Hx1 Hx2]|[_ Hx2]]).
  - rewrite same_destination_eq in Hx1. apply andb_true_iff in Hx1 as [Hxu Hx1].
    assert (slot = k).
    { eapply (Hu slot k); eauto. rewrite same_dst_sym in Hx1. rewrite same_dst_sym.
      by eapply same_dst_trans; [by eapply same_dst_trans|]. }
    subst. rewrite Hk in Hx. injection Hx as <-. rewrite Ht in Hx2.
    rewrite elapsed_advance in Hx2; unfold IntervalMs in *; lia.
  - rewrite (Hx2 e) in Hse; [done|]. by eapply list_elem_of_lookup_2.
Qed.

(** C40: the limiter's two promises.  From the fresh limiter, after any history
    of calls for destinations of a known family: (1) any further run of calls
    whose ticks span less than five seconds lets at most twenty reports
    through, ten per window; (2) once a report for a destination is let
    through at tick [t0], every call for the same destination within the next
    five seconds is refused, whatever other calls happen in between and even
    when the tick counter wraps. *)
Theorem limiter_bounds (history calls : list (_SockAddr * Z)) (dst dst' : _SockAddr)
    (t0 d : Z) (ds : list Z) :
  Forall (fun c => known_family (fst c) = true) (history ++ calls) ->
  known_family dst = true ->
  map snd calls = map (fun d => u32 (t0 + d)) ds ->
  Forall (fun d => 0 <= d < IntervalMs) ds -> StronglySorted Z.le ds ->
  0 <= d < IntervalMs ->
  let l := snd (allow_run history new_limiter) in
  count_true (fst (allow_run calls l)) <= 20 /\
  (fst (AllowLocked dst (u32 t0) l) = true -> same_dst dst dst' = true ->
   let l' := snd (allow_run calls (snd (AllowLocked dst (u32 t0) l))) in
   fst (AllowLocked dst' (u32 (t0 + d)) l') = false).
Proof.
  intros Hk Hkd Ht Hds Hso Hd l. apply Forall_app in Hk as [Hk1 Hk2].
  assert (Hw : wf_limiter l) by (by apply wf_allow_run, wf_new_limiter).
  split.
  - pose proof (allow_run_span t0 calls l ds Ht Hk2 Hds Hso Hw) as H.
    destruct Hw as (_ & Hc & _). unfold MaxPerInterval in *. lia.
  - intros Ha Hs. cbv zeta. pose proof (wf_AllowLocked dst (u32 t0) l Hkd Hw) as Hw'.
    destruct (AllowLocked dst (u32 t0) l) as [r l1] eqn:E. cbn [fst snd] in *. subst r.
    apply (cooling_start dst (u32 t0) l l1 Hkd Hw) in E.
    eapply cooling_denied; [done| | |done].
    + by apply wf_allow_run.
    + by eapply cooling_run.
Qed.

Definition dst_a : _SockAddr := mkSockAddr AF_INET 13568 ([9; 9; 9; 9] ++ replicate 20 0).
Definition dst_b : _SockAddr := mkSockAddr AF_INET 13568 ([8; 8; 8; 8] ++ replicate 20 0).

Lemma limiter_bounds_witness :
  fst (AllowLocked dst_a (u32 4294967000) (snd (allow_run [(dst_b, 7)] new_limiter))) = true /\
  count_true (fst (allow_run [(dst_b, 4294967100); (dst_b, 4703)]
     (snd (allow_run [(dst_b, 7)] new_limiter)))) <= 20 /\
  fst (AllowLocked dst_a (u32 (4294967000 + 4999))
    (snd (allow_run [(dst_b, 4294967100); (dst_b, 4703)]
      (snd (AllowLocked dst_a (u32 4294967000)
         (snd (allow_run [(dst_b, 7)] new_limiter))))))) = false.
Proof.
  split; [reflexivity|].
  destruct (limiter_bounds [(dst_b, 7)] [(dst_b, 4294967100); (dst_b, 4703)] dst_a dst_a
              4294967000 4999 [100; 4999]) as [H1 H2];
    [by apply (bool_decide_unpack _)|reflexivity|reflexivity|by apply (bool_decide_unpack _)
    |apply SSorted_cons; [apply SSorted_cons; constructor|by apply (bool_decide_unpack _)]
    |unfold IntervalMs; lia|].
  split; [exact H1|]. apply H2; reflexivity.
Defined.
