(* ===== verification/Effects.v ===== *)
(** * A state monad for the event handlers

    Handlers are functions from the state of a component (its object and the
    part of the outside it sees) to a result and a new state.  The notations
    are stdpp's [x ← m; k] and [m ;; k].  [wp] is the weakest precondition and
    [keeps] the preservation of a predicate. *)

From S2P Require Import Prelude.

Definition M (W A : Type) : Type := W -> A * W.

#[global] Instance M_ret W : MRet (M W) := fun A a w => (a, w).
#[global] Instance M_bind W : MBind (M W) := fun A B k m w => let '(a, w') := m w in k a w'.

Definition gets {W A} (f : W -> A) : M W A := fun w => (f w, w).
Definition modify {W} (f : W -> W) : M W unit := fun w => (tt, f w).
Definition when {W} (b : bool) (m : M W unit) : M W unit := if b then m else mret tt.

(** The state after a handler, its result. *)
Definition exec {W A} (m : M W A) (w : W) : W := snd (m w).
Definition eval {W A} (m : M W A) (w : W) : A := fst (m w).

(** ** Weakest preconditions *)

Definition wp {W A} (m : M W A) (Q : A -> W -> Prop) (w : W) : Prop :=
  let '(a, w') := m w in Q a w'.

Section Rules.
Context {W : Type}.

Lemma wp_ret {A} (a : A) (Q : A -> W -> Prop) w : Q a w -> wp (mret a) Q w.
Proof. done. Qed.

Lemma wp_bind {A B} (m : M W A) (k : A -> M W B) Q w :
  wp m (fun a w' => wp (k a) Q w') w -> wp (m ≫= k) Q w.
Proof. unfold wp, mbind, M_bind. by destruct (m w). Qed.

Lemma wp_gets {A} (f : W -> A) Q w : Q (f w) w -> wp (gets f) Q w.
Proof. done. Qed.

Lemma wp_modify (f : W -> W) Q w : Q tt (f w) -> wp (modify f) Q w.
Proof. done. Qed.

Lemma wp_when (b : bool) (m : M W unit) Q w :
  (b = true -> wp m Q w) -> (b = false -> Q tt w) -> wp (when b m) Q w.
Proof. destruct b; [intros H _; by apply H|intros _ H; by apply H]. Qed.

Lemma wp_if {A} (b : bool) (m1 m2 : M W A) Q w :
  (b = true -> wp m1 Q w) -> (b = false -> wp m2 Q w) -> wp (if b then m1 else m2) Q w.
Proof. destruct b; auto. Qed.

Lemma wp_mono {A} (m : M W A) (P Q : A -> W -> Prop) w :
  wp m P w -> (forall a w', P a w' -> Q a w') -> wp m Q w.
Proof. unfold wp. destruct (m w). auto. Qed.

Lemma wp_and {A} (m : M W A) (P Q : A -> W -> Prop) w :
  wp m P w -> wp m Q w -> wp m (fun a w' => P a w' /\ Q a w') w.
Proof. unfold wp. by destruct (m w). Qed.

Lemma wp_exec {A} (m : M W A) (Q : W -> Prop) w : wp m (fun _ => Q) w <-> Q (exec m w).
Proof. unfold wp, exec. by destruct (m w). Qed.

Lemma exec_bind {A B} (m : M W A) (k : A -> M W B) w :
  exec (m ≫= k) w = exec (k (eval m w)) (exec m w).
Proof. unfold exec, eval, mbind, M_bind. by destruct (m w). Qed.

Lemma eval_bind {A B} (m : M W A) (k : A -> M W B) w :
  eval (m ≫= k) w = eval (k (eval m w)) (exec m w).
Proof. unfold exec, eval, mbind, M_bind. by destruct (m w). Qed.

(** ** Preservation *)

Definition keeps (I : W -> Prop) {A} (m : M W A) : Prop := forall w, I w -> I (exec m w).

Lemma keeps_ret (I : W -> Prop) {A} (a : A) : keeps I (mret a).
Proof. by intros w. Qed.

Lemma keeps_gets (I : W -> Prop) {A} (f : W -> A) : keeps I (gets f).
Proof. by intros w. Qed.

Lemma keeps_bind (I : W -> Prop) {A B} (m : M W A) (k : A -> M W B) :
  keeps I m -> (forall a, keeps I (k a)) -> keeps I (m ≫= k).
Proof. intros Hm Hk w Hw. rewrite exec_bind. by apply Hk, Hm. Qed.

Lemma keeps_if (I : W -> Prop) {A} (b : bool) (m1 m2 : M W A) :
  keeps I m1 -> keeps I m2 -> keeps I (if b then m1 else m2).
Proof. by destruct b. Qed.

Lemma keeps_when (I : W -> Prop) (b : bool) (m : M W unit) : keeps I m -> keeps I (when b m).
Proof. intros. by apply keeps_if; [|apply keeps_ret]. Qed.

Lemma keeps_modify (I : W -> Prop) (f : W -> W) :
  (forall w, I w -> I (f w)) -> keeps I (modify f).
Proof. intros H w Hw. by apply H. Qed.

Lemma wp_keeping (I : W -> Prop) {A} (m : M W A) (Q : A -> W -> Prop) w :
  keeps I m -> I w -> (forall a w', I w' -> Q a w') -> wp m Q w.
Proof. intros Hm Hw HQ. specialize (Hm w Hw). unfold wp, exec in *. destruct (m w). by apply HQ. Qed.
End Rules.

(** One step of the preservation proof of a handler. *)
Ltac keeps_step :=
  match goal with
  | |- keeps _ (mret _) => apply keeps_ret
  | |- keeps _ (gets _) => apply keeps_gets
  | |- keeps _ (_ ≫= _) => apply keeps_bind; [|intros ?]
  | |- keeps _ (when _ _) => apply keeps_when
  | |- keeps _ (if _ then _ else _) => apply keeps_if
  | |- keeps _ (match ?x with _ => _ end) => destruct x
  | |- keeps _ (let '(_, _) := ?x in _) => destruct x
  end.

(** One step of symbolic execution. *)
Ltac wp_step :=
  match goal with
  | |- wp (mret _) _ _ => apply wp_ret
  | |- wp (gets _) _ _ => apply wp_gets
  | |- wp (modify _) _ _ => apply wp_modify
  | |- wp (_ ≫= _) _ _ => apply wp_bind
  | |- wp (when _ _) _ _ => apply wp_when; intros ?
  | |- wp (if _ then _ else _) _ _ => apply wp_if; intros ?
  end.
