(* ===== verification/Base64Coding.v ===== *)
(** * Base64 for the HTTP credentials (asynsocket/CBase64Coding.cpp)

    [Encode] is the encoder the proxy layer calls on "user:password".  The
    reference [rfc4648] is the arithmetic definition; the theorem says where
    the two agree and what the encoder adds. *)

From S2P Require Import Prelude.

Definition alphabet : bytes :=
  ascii_bytes "ABCDEFGHIJKLMNOPQRSTUVWXYZabcdefghijklmnopqrstuvwxyz0123456789+/".
Definition alpha (i : Z) : Z := byte_at alphabet (Z.to_nat i).

Definition END_OF_BASE64_ENCODED_DATA : Z := 61.
Definition BASE64_NUMBER_OF_CHARACTERS_PER_LINE : Z := 72.

(** The loop of [Encode] from the remaining source and the number of
    characters written; the result is what follows in [destination], up to its
    terminator. *)
Fixpoint encode_loop (source : bytes) (number_of_bytes_encoded : Z) : bytes :=
  match source with
  | [] => [END_OF_BASE64_ENCODED_DATA]
  | [byte_1] =>
      [alpha (Z.shiftr byte_1 2);
       alpha (Z.lor (Z.shiftl (Z.land byte_1 3) 4) (Z.shiftr (Z.land 0 240) 4));
       END_OF_BASE64_ENCODED_DATA; END_OF_BASE64_ENCODED_DATA]
  | [byte_1; byte_2] =>
      [alpha (Z.shiftr byte_1 2);
       alpha (Z.lor (Z.shiftl (Z.land byte_1 3) 4) (Z.shiftr (Z.land byte_2 240) 4));
       alpha (Z.lor (Z.shiftl (Z.land byte_2 15) 2) (Z.shiftr (Z.land 0 192) 6));
       END_OF_BASE64_ENCODED_DATA]
  | byte_1 :: byte_2 :: byte_3 :: source =>
      [alpha (Z.shiftr byte_1 2);
       alpha (Z.lor (Z.shiftl (Z.land byte_1 3) 4) (Z.shiftr (Z.land byte_2 240) 4));
       alpha (Z.lor (Z.shiftl (Z.land byte_2 15) 2) (Z.shiftr (Z.land byte_3 192) 6));
       alpha (Z.land byte_3 63)] ++
      (let n := number_of_bytes_encoded + 4 in
       if n mod BASE64_NUMBER_OF_CHARACTERS_PER_LINE =? 0
       then [13; 10] ++ encode_loop source (n + 2)
       else encode_loop source n)
  end.

(** [Encode source len] always returns TRUE; the string it writes. *)
Definition Encode (source : bytes) : bytes := encode_loop source 0.

(** ** RFC 4648, section 4 *)

Definition digit (v k : Z) : Z := alpha (v / k mod 64).

Fixpoint rfc4648 (source : bytes) : bytes :=
  match source with
  | [] => []
  | [a] => let v := a * 65536 in [digit v 262144; digit v 4096; 61; 61]
  | [a; b] => let v := a * 65536 + b * 256 in [digit v 262144; digit v 4096; digit v 64; 61]
  | a :: b :: c :: source =>
      let v := a * 65536 + b * 256 + c in
      [digit v 262144; digit v 4096; digit v 64; digit v 1] ++ rfc4648 source
  end.

(** The bit expressions of the code, as arithmetic. *)
Lemma sextet_1 a b c :
  byte_ok a -> byte_ok b -> byte_ok c ->
  Z.shiftr a 2 = (a * 65536 + b * 256 + c) / 262144 mod 64.
Proof.
  unfold byte_ok. intros. rewrite Z.shiftr_div_pow2 by lia. change (2 ^ 2) with 4.
  rewrite (Z.mod_small _ 64); Z.to_euclidean_division_equations; lia.
Qed.

Definition bytes2 (P : Z -> Z -> bool) : bool :=
  forallb (fun a => forallb (P a) (seqZ 0 256)) (seqZ 0 256).

Lemma bytes2_forall (P : Z -> Z -> bool) :
  bytes2 P = true -> forall a b, byte_ok a -> byte_ok b -> P a b = true.
Proof.
  unfold bytes2, byte_ok. intros H a b Ha Hb. rewrite forallb_forall in H.
  assert (K : forall x, 0 <= x < 256 -> In x (seqZ 0 256))
    by (intros; apply list_elem_of_In, elem_of_seqZ; lia).
  specialize (H a (K a Ha)). rewrite forallb_forall in H. apply H, K, Hb.
Qed.

Lemma sextet_2 a b c :
  byte_ok a -> byte_ok b -> byte_ok c ->
  Z.lor (Z.shiftl (Z.land a 3) 4) (Z.shiftr (Z.land b 240) 4)
  = (a * 65536 + b * 256 + c) / 4096 mod 64.
Proof.
  intros Ha Hb Hc.
  transitivity (a mod 4 * 16 + b / 16).
  - apply Z.eqb_eq. revert a b Ha Hb. apply bytes2_forall. vm_compute. reflexivity.
  - unfold byte_ok in *. Z.to_euclidean_division_equations. lia.
Qed.

Lemma sextet_3 a b c :
  byte_ok a -> byte_ok b -> byte_ok c ->
  Z.lor (Z.shiftl (Z.land b 15) 2) (Z.shiftr (Z.land c 192) 6)
  = (a * 65536 + b * 256 + c) / 64 mod 64.
Proof.
  intros Ha Hb Hc.
  transitivity (b mod 16 * 4 + c / 64).
  - apply Z.eqb_eq. revert b c Hb Hc. apply bytes2_forall. vm_compute. reflexivity.
  - unfold byte_ok in *. Z.to_euclidean_division_equations. lia.
Qed.

Lemma sextet_4 a b c :
  byte_ok a -> byte_ok b -> byte_ok c ->
  Z.land c 63 = (a * 65536 + b * 256 + c) / 1 mod 64.
Proof.
  intros Ha Hb Hc. change 63 with (Z.ones 6). rewrite Z.land_ones by lia.
  change (2 ^ 6) with 64. rewrite Z.div_1_r. unfold byte_ok in *.
  Z.to_euclidean_division_equations. lia.
Qed.

(** Induction three bytes at a time. *)
Lemma list_ind3 {A} (P : list A -> Prop) :
  P [] -> (forall a, P [a]) -> (forall a b, P [a; b]) ->
  (forall a b c l, P l -> P (a :: b :: c :: l)) -> forall l, P l.
Proof.
  intros H0 H1 H2 H3. fix IH 1.
  intros [|a [|b [|c l]]]; [apply H0|apply H1|apply H2|apply H3, IH].
Qed.

Lemma encode_loop_spec source n :
  bytes_ok source -> 0 <= n -> n + 4 * (Z.of_nat (length source) / 3) < 72 ->
  encode_loop source n
  = rfc4648 source ++ (if Z.of_nat (length source) mod 3 =? 0
                       then [END_OF_BASE64_ENCODED_DATA] else []).
Proof.
  revert n. induction source as [|a|a b|a b c l IH] using list_ind3; intros n Hok Hn Hl.
  - done.
  - unfold bytes_ok in Hok. rewrite Forall_cons in Hok. destruct Hok as [Ha _].
    cbn [encode_loop rfc4648 app length Z.of_nat]. unfold digit.
    rewrite (sextet_1 a 0 0), (sextet_2 a 0 0) by (done || lia). by rewrite !Z.add_0_r.
  - unfold bytes_ok in Hok. rewrite !Forall_cons in Hok. destruct Hok as (Ha & Hb & _).
    cbn [encode_loop rfc4648 app length Z.of_nat]. unfold digit.
    rewrite (sextet_1 a b 0), (sextet_2 a b 0), (sextet_3 a b 0) by (done || lia).
    by rewrite !Z.add_0_r.
  - unfold bytes_ok in Hok. rewrite !Forall_cons in Hok. destruct Hok as (Ha & Hb & Hc & Hok).
    assert (Hlen : Z.of_nat (length (a :: b :: c :: l)) = Z.of_nat (length l) + 1 * 3)
      by (cbn [length]; lia).
    rewrite Hlen in *. rewrite Z.div_add in Hl by lia. rewrite Z.mod_add by lia.
    cbn [encode_loop rfc4648]. unfold digit.
    rewrite (sextet_1 a b c), (sextet_2 a b c), (sextet_3 a b c), (sextet_4 a b c) by done.
    pose proof (Z.div_pos (Z.of_nat (length l)) 3).
    unfold BASE64_NUMBER_OF_CHARACTERS_PER_LINE. rewrite (Z.mod_small (n + 4) 72) by lia.
    destruct (Z.eqb_spec (n + 4) 0); [lia|].
    rewrite IH by (done || lia). by rewrite app_assoc.
Qed.

(** what the credential encoder produces.  For fewer than 54 source bytes
    the output is the RFC 4648 encoding, followed by one extra pad character
    exactly when the length is a multiple of three; so the header value is a
    correct Base64 text for the other lengths only. *)
Theorem base64_short_correct (source : bytes) :
  bytes_ok source -> (length source < 54)%nat ->
  Encode source = rfc4648 source ++ (if Z.of_nat (length source) mod 3 =? 0
                                     then [END_OF_BASE64_ENCODED_DATA] else []).
Proof.
  intros Hok Hl. apply encode_loop_spec; [done|lia|].
  assert (Z.of_nat (length source) / 3 <= 17); [|lia].
  Z.to_euclidean_division_equations. lia.
Qed.

Lemma base64_short_correct_witness :
  Encode (ascii_bytes "user:pass!") = ascii_bytes "dXNlcjpwYXNzIQ==" /\
  Encode (ascii_bytes "user:pass") = ascii_bytes "dXNlcjpwYXNz" ++ [61].
Proof.
  split; rewrite base64_short_correct;
    solve [reflexivity | by apply (bool_decide_unpack _) | vm_compute; lia].
Defined.

(** From 54 source bytes on, the encoder puts a CR LF inside the value
    after 72 characters, and never again: whatever follows, the first 72
    characters are the encoding of the first 54 bytes and are followed by the
    line break. *)
Theorem base64_line_break (head rest : bytes) :
  bytes_ok head -> length head = 54%nat ->
  exists tail, Encode (head ++ rest) = rfc4648 head ++ [13; 10] ++ tail /\
               length (rfc4648 head) = 72%nat.
Proof.
  assert (K : forall k h n, length h = (3 * k)%nat -> (0 < k)%nat -> bytes_ok h ->
            0 <= n -> n + 4 * Z.of_nat k = 72 ->
            exists tail, encode_loop (h ++ rest) n = rfc4648 h ++ [13; 10] ++ tail /\
                         length (rfc4648 h) = (4 * k)%nat).
  { induction k as [|k IH]; intros h n Hl Hk Hok Hn Hs; [lia|].
    do 3 (destruct h as [|? h]; [simpl in Hl; lia|]).
    unfold bytes_ok in Hok. rewrite !Forall_cons in Hok. destruct Hok as (Ha & Hb & Hc & Hok).
    cbn [app encode_loop rfc4648]. unfold digit.
    rewrite (sextet_1 z z0 z1), (sextet_2 z z0 z1), (sextet_3 z z0 z1), (sextet_4 z z0 z1) by done.
    unfold BASE64_NUMBER_OF_CHARACTERS_PER_LINE. destruct k as [|k].
    - assert (n + 4 = 72) as -> by lia. change (72 mod 72 =? 0) with true.
      destruct h; [|simpl in Hl; lia]. cbn. eauto.
    - rewrite (Z.mod_small (n + 4) 72) by lia. destruct (Z.eqb_spec (n + 4) 0); [lia|].
      destruct (IH h (n + 4)) as (tail & E & El); [simpl in Hl; lia|lia|done|lia|lia|].
      exists tail. rewrite E. split; [reflexivity|]. cbn [length app]. lia. }
  intros Hok Hl. apply (K 18%nat head 0); (done || lia).
Qed.

Lemma base64_line_break_witness :
  exists tail, Encode (replicate 54 65 ++ [66]) = rfc4648 (replicate 54 65) ++ [13; 10] ++ tail /\
               length (rfc4648 (replicate 54 65)) = 72%nat.
Proof.
  apply (base64_line_break (replicate 54 65) [66]); [by apply (bool_decide_unpack _)|reflexivity].
Defined.
