(* ===== verification/AutoBuffer.v ===== *)
(** * The growing scratch buffer (asynsocket/autoBuffer.cpp)

    The buffer is null or a block of [size] bytes.  A new block's contents are
    the caller's [fresh] bytes, as [new BYTE[n]] leaves them unset; the code
    clears the block except when it keeps old contents. *)

From S2P Require Import Prelude.

Record autoBuffer := mkAutoBuffer {
  m_buffer : option bytes;
  ab_size : Z;
  maxsize : Z
}.

Definition new_autoBuffer : autoBuffer := mkAutoBuffer None 0 (1024 * 1024 * 15).

Definition LimiteMaxSize (max : Z) (b : autoBuffer) : autoBuffer :=
  mkAutoBuffer (m_buffer b) (ab_size b) max.

(** [new] throws rather than returning null, so the null test is not taken. *)
Definition checkBufferSize (requiredSize : Z) (ReAlloc : bool) (fresh : bytes) (b : autoBuffer)
    : bool * autoBuffer :=
  if ab_size b <? requiredSize then
    if maxsize b <? requiredSize then (false, b)
    else
      let zeroed := replicate (Z.to_nat requiredSize) 0 in
      if ReAlloc then
        (true, mkAutoBuffer (Some match m_buffer b with
                                  | None => zeroed
                                  | Some old => memcpy fresh 0 old
                                  end) requiredSize (maxsize b))
      else (true, mkAutoBuffer (Some zeroed) requiredSize (maxsize b))
  else (true, b).

Definition wf_autoBuffer (b : autoBuffer) : Prop :=
  0 <= ab_size b /\
  match m_buffer b with
  | None => ab_size b = 0
  | Some d => Z.of_nat (length d) = ab_size b
  end.

Lemma wf_new_autoBuffer : wf_autoBuffer new_autoBuffer.
Proof. by split. Qed.

(** a granted request makes room and loses nothing.  When
    [checkBufferSize] answers true the block holds at least the required
    bytes and, if contents are to be kept, starts with the old contents; it
    answers false only beyond the limit, and then changes nothing.  The record
    stays consistent. *)
Theorem checkBufferSize_spec (requiredSize : Z) (ReAlloc : bool) (fresh : bytes) (b : autoBuffer) :
  wf_autoBuffer b -> 0 <= requiredSize -> Z.of_nat (length fresh) = requiredSize ->
  let '(ok, b') := checkBufferSize requiredSize ReAlloc fresh b in
  wf_autoBuffer b' /\ maxsize b' = maxsize b /\
  (ok = true -> requiredSize <= ab_size b') /\
  (ok = true -> ReAlloc = true -> forall old, m_buffer b = Some old ->
     exists d, m_buffer b' = Some d /\ take (length old) d = old) /\
  (ok = false <-> ab_size b < requiredSize /\ maxsize b < requiredSize) /\
  (ok = false -> b' = b).
Proof.
  intros [Hs Hb] Hr Hf. unfold checkBufferSize.
  destruct (Z.ltb_spec (ab_size b) requiredSize) as [H1|H1].
  - destruct (Z.ltb_spec (maxsize b) requiredSize) as [H2|H2]; [by split_and!|].
    assert (Hz : Z.of_nat (length (replicate (Z.to_nat requiredSize) (0 : Z))) = requiredSize)
      by (rewrite length_replicate; lia).
    destruct ReAlloc.
    + assert (Hn : Z.of_nat (length match m_buffer b with
                     | None => replicate (Z.to_nat requiredSize) 0
                     | Some old => memcpy fresh 0 old end) = requiredSize).
      { destruct (m_buffer b) as [old|]; [|done]. rewrite memcpy_length; [done|simpl; lia]. }
      split_and!; cbn; try done; try lia.
      intros _ _ old Ho. rewrite Ho. eexists; split; [done|].
      exact (take_app_length old _).
    + split_and!; cbn; try done; lia.
  - split_and!; try done; try lia. intros _ _ old Ho. exists old. by rewrite firstn_all.
Qed.

Lemma checkBufferSize_spec_witness :
  fst (checkBufferSize 4 true [9; 9; 9; 9] (mkAutoBuffer (Some [1; 2]) 2 16)) = true /\
  2 <= 4 /\
  exists d, m_buffer (snd (checkBufferSize 4 true [9; 9; 9; 9] (mkAutoBuffer (Some [1; 2]) 2 16)))
            = Some d /\ take 2 d = [1; 2].
Proof.
  split; [reflexivity|]. split; [lia|].
  destruct (checkBufferSize_spec 4 true [9; 9; 9; 9] (mkAutoBuffer (Some [1; 2]) 2 16))
    as (_ & _ & _ & H & _); [split; [simpl; lia|reflexivity]|lia|reflexivity|].
  exact (H eq_refl eq_refl [1; 2] eq_refl).
Defined.
