(* ===== verification/ProxyLayer.v ===== *)
(** * The proxy socket layer (asynsocket/AsyncProxySocketLayer.cpp)

    [CAsyncProxySocketLayer] speaks SOCKS4/4a, SOCKS5 and HTTP CONNECT to the
    upstream proxy.  The state [world] is the layer object with the part of
    the base class [CAsyncSocketExLayer] it uses, and the outside it sees: what
    the next layer's send, receive and connect will answer (scripts [rx],
    [tx], [conns]), the last error, and the list [out] of what the layer did.
    A handler runs in the monad [M world].

    An access outside a buffer, a null dereference or an exhausted fuel is the
    output [OFault]; ProxyLayerInv.v shows it never happens.  The one read the
    code does not bound, the scan of an HTTP status line, has an output of its
    own, [OPast]. *)

From S2P Require Import Prelude Winsock SockAddr Effects Base64Coding Socks5UdpCodec.
From S2P Require Import AutoBuffer.

(** ** Constants *)
Definition PROXYERROR_NOCONN : Z := 1.
Definition PROXYERROR_REQUESTFAILED : Z := 2.
Definition PROXYERROR_AUTHREQUIRED : Z := 3.
Definition PROXYERROR_AUTHTYPEUNKNOWN : Z := 4.
Definition PROXYERROR_AUTHFAILED : Z := 5.
Definition PROXYERROR_AUTHNOLOGON : Z := 6.
Definition PROXYERROR_CANTRESOLVEHOST : Z := 7.
Definition PROXYSTATUS_LISTENSOCKETCREATED : Z := 8.
Definition PROXYERROR_SECURE_UNAVAILABLE : Z := 20.
Definition PROXYERROR_SECURE_HANDSHAKE : Z := 21.
Definition PROXYERROR_UDP_UNSUPPORTED : Z := 22.
Definition PROXYLANE_SECURE_LOAD_FAILED : Z := 20001.
Definition PROXYLANE_SECURE_HANDSHAKE_FAILED : Z := 20002.
Definition PROXYOP_CONNECT : Z := 1.
Definition PROXYOP_BIND : Z := 2.
Definition PROXYOP_UDPASSOCIATE : Z := 3.

(** ** Data *)
Inductive LayerState :=
  | notsock | unconnected | connecting | listening | connected | closed | aborted.

#[global] Instance LayerState_eq_dec : EqDecision LayerState.
Proof. solve_decision. Defined.

(** An owning pointer: null, live, or deleted without being cleared. *)
Inductive pointer := PNull | PLive | PDangling.

Record t_proxydata := mkProxyData {
  nProxyType : Z;
  pd_strProxyHost : bytes;
  pd_nProxyPort : Z;
  pd_strProxyUser : bytes;
  pd_strProxyPass : bytes;
  bUseLogon : bool
}.

Inductive rx_event :=
  | RxData (b : bytes)   (* recv returns up to the requested length of [b] *)
  | RxBlock              (* WSAEWOULDBLOCK *)
  | RxError (code : Z)
  | RxEof.               (* recv returns 0, now and later *)

Inductive tx_event :=
  | TxAccept (k : Z)     (* send takes at most [k] bytes *)
  | TxBlock
  | TxError (code : Z).

(** The LPARAM of a layer-specific callback. *)
Inductive lparam := LNone | LText (s : bytes) | LListen (ip nPort : Z).

Inductive output :=
  | OState (new old : LayerState)                      (* LAYERCALLBACK_STATECHANGE *)
  | OCallback (nCode wParam : Z) (lParam : lparam)     (* LAYERCALLBACK_LAYERSPECIFIC *)
  | OTrigger (lEvent nErrorCode : Z) (bPassThrough : bool)
  | OSend (data : bytes)                               (* bytes the next layer took *)
  | OConnectHost (host : bytes) (port : Z)
  | OConnectAddr (addr : _SockAddr)
  | OSendTo (data : bytes) (dst : SOCKADDR_IN)         (* a datagram the system took *)
  | OListen (backlog : Z)
  | OClose
  | OPast (text : bytes)   (* the scanner left the buffer that holds [text] *)
  | OFault.

Record world := mkWorld {
  m_nLayerState : LayerState;   (* the base layer's state *)
  m_nCriticalError : Z;
  hSocketValid : bool;   (* the owner has a socket handle *)
  m_nProxyOpID : Z;
  m_nProxyOpState : Z;
  m_pRecvBuffer : option (Z * bytes);   (* its size and the m_nRecvBufferPos bytes received *)
  m_pStrBuffer : bytes;   (* the m_iStrBuffSize bytes; empty is NULL *)
  m_pSendBuffer : option (bytes * Z);   (* the bytes and m_nSendBufferPos *)
  m_pAppRecvBuffer : option (bytes * Z);   (* the bytes and m_nAppRecvBufferPos *)
  m_nProxyPeerPort : Z;   (* network order *)
  m_nProxyPeerIP : Z;   (* network order *)
  m_proxyPeerAddress : _SockAddr;
  m_pProxyPeerHost : option bytes;
  m_ProxyData : t_proxydata;
  m_pS5UC : pointer;
  m_udpcltAddr : SOCKADDR_IN;
  m_udpsrvAddr : SOCKADDR_IN;
  m_udpBuffer : autoBuffer;
  m_secureUdpBuffer : autoBuffer;
  m_securePsk : bytes;
  m_pSecureLayer : pointer;
  rx : list rx_event;   (* what recv will return *)
  tx : list tx_event;   (* what send will do *)
  drx : list (SOCKADDR_IN * bytes);   (* datagrams recvfrom will return *)
  conns : list (bool * Z);   (* results of ConnectNext: success, last error *)
  peername : option SOCKADDR_IN;   (* getpeername of the next layer *)
  heap_ok : bool;   (* new and realloc succeed *)
  lasterr : Z;   (* WSAGetLastError *)
  out : list output   (* what the layer did, oldest first *)
}.

Definition set_m_nLayerState (v : LayerState) (w : world) : world :=
  mkWorld v (m_nCriticalError w) (hSocketValid w) (m_nProxyOpID w) (m_nProxyOpState w)
    (m_pRecvBuffer w) (m_pStrBuffer w) (m_pSendBuffer w) (m_pAppRecvBuffer w)
    (m_nProxyPeerPort w) (m_nProxyPeerIP w) (m_proxyPeerAddress w) (m_pProxyPeerHost w)
    (m_ProxyData w) (m_pS5UC w) (m_udpcltAddr w) (m_udpsrvAddr w) (m_udpBuffer w)
    (m_secureUdpBuffer w) (m_securePsk w) (m_pSecureLayer w) (rx w) (tx w) (drx w) (conns w)
    (peername w) (heap_ok w) (lasterr w) (out w).
Definition set_m_nCriticalError (v : Z) (w : world) : world :=
  mkWorld (m_nLayerState w) v (hSocketValid w) (m_nProxyOpID w) (m_nProxyOpState w)
    (m_pRecvBuffer w) (m_pStrBuffer w) (m_pSendBuffer w) (m_pAppRecvBuffer w)
    (m_nProxyPeerPort w) (m_nProxyPeerIP w) (m_proxyPeerAddress w) (m_pProxyPeerHost w)
    (m_ProxyData w) (m_pS5UC w) (m_udpcltAddr w) (m_udpsrvAddr w) (m_udpBuffer w)
    (m_secureUdpBuffer w) (m_securePsk w) (m_pSecureLayer w) (rx w) (tx w) (drx w) (conns w)
    (peername w) (heap_ok w) (lasterr w) (out w).
Definition set_hSocketValid (v : bool) (w : world) : world :=
  mkWorld (m_nLayerState w) (m_nCriticalError w) v (m_nProxyOpID w) (m_nProxyOpState w)
    (m_pRecvBuffer w) (m_pStrBuffer w) (m_pSendBuffer w) (m_pAppRecvBuffer w)
    (m_nProxyPeerPort w) (m_nProxyPeerIP w) (m_proxyPeerAddress w) (m_pProxyPeerHost w)
    (m_ProxyData w) (m_pS5UC w) (m_udpcltAddr w) (m_udpsrvAddr w) (m_udpBuffer w)
    (m_secureUdpBuffer w) (m_securePsk w) (m_pSecureLayer w) (rx w) (tx w) (drx w) (conns w)
    (peername w) (heap_ok w) (lasterr w) (out w).
Definition set_m_nProxyOpID (v : Z) (w : world) : world :=
  mkWorld (m_nLayerState w) (m_nCriticalError w) (hSocketValid w) v (m_nProxyOpState w)
    (m_pRecvBuffer w) (m_pStrBuffer w) (m_pSendBuffer w) (m_pAppRecvBuffer w)
    (m_nProxyPeerPort w) (m_nProxyPeerIP w) (m_proxyPeerAddress w) (m_pProxyPeerHost w)
    (m_ProxyData w) (m_pS5UC w) (m_udpcltAddr w) (m_udpsrvAddr w) (m_udpBuffer w)
    (m_secureUdpBuffer w) (m_securePsk w) (m_pSecureLayer w) (rx w) (tx w) (drx w) (conns w)
    (peername w) (heap_ok w) (lasterr w) (out w).
Definition set_m_nProxyOpState (v : Z) (w : world) : world :=
  mkWorld (m_nLayerState w) (m_nCriticalError w) (hSocketValid w) (m_nProxyOpID w) v
    (m_pRecvBuffer w) (m_pStrBuffer w) (m_pSendBuffer w) (m_pAppRecvBuffer w)
    (m_nProxyPeerPort w) (m_nProxyPeerIP w) (m_proxyPeerAddress w) (m_pProxyPeerHost w)
    (m_ProxyData w) (m_pS5UC w) (m_udpcltAddr w) (m_udpsrvAddr w) (m_udpBuffer w)
    (m_secureUdpBuffer w) (m_securePsk w) (m_pSecureLayer w) (rx w) (tx w) (drx w) (conns w)
    (peername w) (heap_ok w) (lasterr w) (out w).
Definition set_m_pRecvBuffer (v : option (Z * bytes)) (w : world) : world :=
  mkWorld (m_nLayerState w) (m_nCriticalError w) (hSocketValid w) (m_nProxyOpID w)
    (m_nProxyOpState w) v (m_pStrBuffer w) (m_pSendBuffer w) (m_pAppRecvBuffer w)
    (m_nProxyPeerPort w) (m_nProxyPeerIP w) (m_proxyPeerAddress w) (m_pProxyPeerHost w)
    (m_ProxyData w) (m_pS5UC w) (m_udpcltAddr w) (m_udpsrvAddr w) (m_udpBuffer w)
    (m_secureUdpBuffer w) (m_securePsk w) (m_pSecureLayer w) (rx w) (tx w) (drx w) (conns w)
    (peername w) (heap_ok w) (lasterr w) (out w).
Definition set_m_pStrBuffer (v : bytes) (w : world) : world :=
  mkWorld (m_nLayerState w) (m_nCriticalError w) (hSocketValid w) (m_nProxyOpID w)
    (m_nProxyOpState w) (m_pRecvBuffer w) v (m_pSendBuffer w) (m_pAppRecvBuffer w)
    (m_nProxyPeerPort w) (m_nProxyPeerIP w) (m_proxyPeerAddress w) (m_pProxyPeerHost w)
    (m_ProxyData w) (m_pS5UC w) (m_udpcltAddr w) (m_udpsrvAddr w) (m_udpBuffer w)
    (m_secureUdpBuffer w) (m_securePsk w) (m_pSecureLayer w) (rx w) (tx w) (drx w) (conns w)
    (peername w) (heap_ok w) (lasterr w) (out w).
Definition set_m_pSendBuffer (v : option (bytes * Z)) (w : world) : world :=
  mkWorld (m_nLayerState w) (m_nCriticalError w) (hSocketValid w) (m_nProxyOpID w)
    (m_nProxyOpState w) (m_pRecvBuffer w) (m_pStrBuffer w) v (m_pAppRecvBuffer w)
    (m_nProxyPeerPort w) (m_nProxyPeerIP w) (m_proxyPeerAddress w) (m_pProxyPeerHost w)
    (m_ProxyData w) (m_pS5UC w) (m_udpcltAddr w) (m_udpsrvAddr w) (m_udpBuffer w)
    (m_secureUdpBuffer w) (m_securePsk w) (m_pSecureLayer w) (rx w) (tx w) (drx w) (conns w)
    (peername w) (heap_ok w) (lasterr w) (out w).
Definition set_m_pAppRecvBuffer (v : option (bytes * Z)) (w : world) : world :=
  mkWorld (m_nLayerState w) (m_nCriticalError w) (hSocketValid w) (m_nProxyOpID w)
    (m_nProxyOpState w) (m_pRecvBuffer w) (m_pStrBuffer w) (m_pSendBuffer w) v
    (m_nProxyPeerPort w) (m_nProxyPeerIP w) (m_proxyPeerAddress w) (m_pProxyPeerHost w)
    (m_ProxyData w) (m_pS5UC w) (m_udpcltAddr w) (m_udpsrvAddr w) (m_udpBuffer w)
    (m_secureUdpBuffer w) (m_securePsk w) (m_pSecureLayer w) (rx w) (tx w) (drx w) (conns w)
    (peername w) (heap_ok w) (lasterr w) (out w).
Definition set_m_nProxyPeerPort (v : Z) (w : world) : world :=
  mkWorld (m_nLayerState w) (m_nCriticalError w) (hSocketValid w) (m_nProxyOpID w)
    (m_nProxyOpState w) (m_pRecvBuffer w) (m_pStrBuffer w) (m_pSendBuffer w)
    (m_pAppRecvBuffer w) v (m_nProxyPeerIP w) (m_proxyPeerAddress w) (m_pProxyPeerHost w)
    (m_ProxyData w) (m_pS5UC w) (m_udpcltAddr w) (m_udpsrvAddr w) (m_udpBuffer w)
    (m_secureUdpBuffer w) (m_securePsk w) (m_pSecureLayer w) (rx w) (tx w) (drx w) (conns w)
    (peername w) (heap_ok w) (lasterr w) (out w).
Definition set_m_nProxyPeerIP (v : Z) (w : world) : world :=
  mkWorld (m_nLayerState w) (m_nCriticalError w) (hSocketValid w) (m_nProxyOpID w)
    (m_nProxyOpState w) (m_pRecvBuffer w) (m_pStrBuffer w) (m_pSendBuffer w)
    (m_pAppRecvBuffer w) (m_nProxyPeerPort w) v (m_proxyPeerAddress w) (m_pProxyPeerHost w)
    (m_ProxyData w) (m_pS5UC w) (m_udpcltAddr w) (m_udpsrvAddr w) (m_udpBuffer w)
    (m_secureUdpBuffer w) (m_securePsk w) (m_pSecureLayer w) (rx w) (tx w) (drx w) (conns w)
    (peername w) (heap_ok w) (lasterr w) (out w).
Definition set_m_proxyPeerAddress (v : _SockAddr) (w : world) : world :=
  mkWorld (m_nLayerState w) (m_nCriticalError w) (hSocketValid w) (m_nProxyOpID w)
    (m_nProxyOpState w) (m_pRecvBuffer w) (m_pStrBuffer w) (m_pSendBuffer w)
    (m_pAppRecvBuffer w) (m_nProxyPeerPort w) (m_nProxyPeerIP w) v (m_pProxyPeerHost w)
    (m_ProxyData w) (m_pS5UC w) (m_udpcltAddr w) (m_udpsrvAddr w) (m_udpBuffer w)
    (m_secureUdpBuffer w) (m_securePsk w) (m_pSecureLayer w) (rx w) (tx w) (drx w) (conns w)
    (peername w) (heap_ok w) (lasterr w) (out w).
Definition set_m_pProxyPeerHost (v : option bytes) (w : world) : world :=
  mkWorld (m_nLayerState w) (m_nCriticalError w) (hSocketValid w) (m_nProxyOpID w)
    (m_nProxyOpState w) (m_pRecvBuffer w) (m_pStrBuffer w) (m_pSendBuffer w)
    (m_pAppRecvBuffer w) (m_nProxyPeerPort w) (m_nProxyPeerIP w) (m_proxyPeerAddress w) v
    (m_ProxyData w) (m_pS5UC w) (m_udpcltAddr w) (m_udpsrvAddr w) (m_udpBuffer w)
    (m_secureUdpBuffer w) (m_securePsk w) (m_pSecureLayer w) (rx w) (tx w) (drx w) (conns w)
    (peername w) (heap_ok w) (lasterr w) (out w).
Definition set_m_ProxyData (v : t_proxydata) (w : world) : world :=
  mkWorld (m_nLayerState w) (m_nCriticalError w) (hSocketValid w) (m_nProxyOpID w)
    (m_nProxyOpState w) (m_pRecvBuffer w) (m_pStrBuffer w) (m_pSendBuffer w)
    (m_pAppRecvBuffer w) (m_nProxyPeerPort w) (m_nProxyPeerIP w) (m_proxyPeerAddress w)
    (m_pProxyPeerHost w) v (m_pS5UC w) (m_udpcltAddr w) (m_udpsrvAddr w) (m_udpBuffer w)
    (m_secureUdpBuffer w) (m_securePsk w) (m_pSecureLayer w) (rx w) (tx w) (drx w) (conns w)
    (peername w) (heap_ok w) (lasterr w) (out w).
Definition set_m_pS5UC (v : pointer) (w : world) : world :=
  mkWorld (m_nLayerState w) (m_nCriticalError w) (hSocketValid w) (m_nProxyOpID w)
    (m_nProxyOpState w) (m_pRecvBuffer w) (m_pStrBuffer w) (m_pSendBuffer w)
    (m_pAppRecvBuffer w) (m_nProxyPeerPort w) (m_nProxyPeerIP w) (m_proxyPeerAddress w)
    (m_pProxyPeerHost w) (m_ProxyData w) v (m_udpcltAddr w) (m_udpsrvAddr w) (m_udpBuffer w)
    (m_secureUdpBuffer w) (m_securePsk w) (m_pSecureLayer w) (rx w) (tx w) (drx w) (conns w)
    (peername w) (heap_ok w) (lasterr w) (out w).
Definition set_m_udpcltAddr (v : SOCKADDR_IN) (w : world) : world :=
  mkWorld (m_nLayerState w) (m_nCriticalError w) (hSocketValid w) (m_nProxyOpID w)
    (m_nProxyOpState w) (m_pRecvBuffer w) (m_pStrBuffer w) (m_pSendBuffer w)
    (m_pAppRecvBuffer w) (m_nProxyPeerPort w) (m_nProxyPeerIP w) (m_proxyPeerAddress w)
    (m_pProxyPeerHost w) (m_ProxyData w) (m_pS5UC w) v (m_udpsrvAddr w) (m_udpBuffer w)
    (m_secureUdpBuffer w) (m_securePsk w) (m_pSecureLayer w) (rx w) (tx w) (drx w) (conns w)
    (peername w) (heap_ok w) (lasterr w) (out w).
Definition set_m_udpsrvAddr (v : SOCKADDR_IN) (w : world) : world :=
  mkWorld (m_nLayerState w) (m_nCriticalError w) (hSocketValid w) (m_nProxyOpID w)
    (m_nProxyOpState w) (m_pRecvBuffer w) (m_pStrBuffer w) (m_pSendBuffer w)
    (m_pAppRecvBuffer w) (m_nProxyPeerPort w) (m_nProxyPeerIP w) (m_proxyPeerAddress w)
    (m_pProxyPeerHost w) (m_ProxyData w) (m_pS5UC w) (m_udpcltAddr w) v (m_udpBuffer w)
    (m_secureUdpBuffer w) (m_securePsk w) (m_pSecureLayer w) (rx w) (tx w) (drx w) (conns w)
    (peername w) (heap_ok w) (lasterr w) (out w).
Definition set_m_udpBuffer (v : autoBuffer) (w : world) : world :=
  mkWorld (m_nLayerState w) (m_nCriticalError w) (hSocketValid w) (m_nProxyOpID w)
    (m_nProxyOpState w) (m_pRecvBuffer w) (m_pStrBuffer w) (m_pSendBuffer w)
    (m_pAppRecvBuffer w) (m_nProxyPeerPort w) (m_nProxyPeerIP w) (m_proxyPeerAddress w)
    (m_pProxyPeerHost w) (m_ProxyData w) (m_pS5UC w) (m_udpcltAddr w) (m_udpsrvAddr w) v
    (m_secureUdpBuffer w) (m_securePsk w) (m_pSecureLayer w) (rx w) (tx w) (drx w) (conns w)
    (peername w) (heap_ok w) (lasterr w) (out w).
Definition set_m_secureUdpBuffer (v : autoBuffer) (w : world) : world :=
  mkWorld (m_nLayerState w) (m_nCriticalError w) (hSocketValid w) (m_nProxyOpID w)
    (m_nProxyOpState w) (m_pRecvBuffer w) (m_pStrBuffer w) (m_pSendBuffer w)
    (m_pAppRecvBuffer w) (m_nProxyPeerPort w) (m_nProxyPeerIP w) (m_proxyPeerAddress w)
    (m_pProxyPeerHost w) (m_ProxyData w) (m_pS5UC w) (m_udpcltAddr w) (m_udpsrvAddr w)
    (m_udpBuffer w) v (m_securePsk w) (m_pSecureLayer w) (rx w) (tx w) (drx w) (conns w)
    (peername w) (heap_ok w) (lasterr w) (out w).
Definition set_m_securePsk (v : bytes) (w : world) : world :=
  mkWorld (m_nLayerState w) (m_nCriticalError w) (hSocketValid w) (m_nProxyOpID w)
    (m_nProxyOpState w) (m_pRecvBuffer w) (m_pStrBuffer w) (m_pSendBuffer w)
    (m_pAppRecvBuffer w) (m_nProxyPeerPort w) (m_nProxyPeerIP w) (m_proxyPeerAddress w)
    (m_pProxyPeerHost w) (m_ProxyData w) (m_pS5UC w) (m_udpcltAddr w) (m_udpsrvAddr w)
    (m_udpBuffer w) (m_secureUdpBuffer w) v (m_pSecureLayer w) (rx w) (tx w) (drx w) (conns
    w) (peername w) (heap_ok w) (lasterr w) (out w).
Definition set_m_pSecureLayer (v : pointer) (w : world) : world :=
  mkWorld (m_nLayerState w) (m_nCriticalError w) (hSocketValid w) (m_nProxyOpID w)
    (m_nProxyOpState w) (m_pRecvBuffer w) (m_pStrBuffer w) (m_pSendBuffer w)
    (m_pAppRecvBuffer w) (m_nProxyPeerPort w) (m_nProxyPeerIP w) (m_proxyPeerAddress w)
    (m_pProxyPeerHost w) (m_ProxyData w) (m_pS5UC w) (m_udpcltAddr w) (m_udpsrvAddr w)
    (m_udpBuffer w) (m_secureUdpBuffer w) (m_securePsk w) v (rx w) (tx w) (drx w) (conns w)
    (peername w) (heap_ok w) (lasterr w) (out w).
Definition set_rx (v : list rx_event) (w : world) : world :=
  mkWorld (m_nLayerState w) (m_nCriticalError w) (hSocketValid w) (m_nProxyOpID w)
    (m_nProxyOpState w) (m_pRecvBuffer w) (m_pStrBuffer w) (m_pSendBuffer w)
    (m_pAppRecvBuffer w) (m_nProxyPeerPort w) (m_nProxyPeerIP w) (m_proxyPeerAddress w)
    (m_pProxyPeerHost w) (m_ProxyData w) (m_pS5UC w) (m_udpcltAddr w) (m_udpsrvAddr w)
    (m_udpBuffer w) (m_secureUdpBuffer w) (m_securePsk w) (m_pSecureLayer w) v (tx w) (drx
    w) (conns w) (peername w) (heap_ok w) (lasterr w) (out w).
Definition set_tx (v : list tx_event) (w : world) : world :=
  mkWorld (m_nLayerState w) (m_nCriticalError w) (hSocketValid w) (m_nProxyOpID w)
    (m_nProxyOpState w) (m_pRecvBuffer w) (m_pStrBuffer w) (m_pSendBuffer w)
    (m_pAppRecvBuffer w) (m_nProxyPeerPort w) (m_nProxyPeerIP w) (m_proxyPeerAddress w)
    (m_pProxyPeerHost w) (m_ProxyData w) (m_pS5UC w) (m_udpcltAddr w) (m_udpsrvAddr w)
    (m_udpBuffer w) (m_secureUdpBuffer w) (m_securePsk w) (m_pSecureLayer w) (rx w) v (drx
    w) (conns w) (peername w) (heap_ok w) (lasterr w) (out w).
Definition set_drx (v : list (SOCKADDR_IN * bytes)) (w : world) : world :=
  mkWorld (m_nLayerState w) (m_nCriticalError w) (hSocketValid w) (m_nProxyOpID w)
    (m_nProxyOpState w) (m_pRecvBuffer w) (m_pStrBuffer w) (m_pSendBuffer w)
    (m_pAppRecvBuffer w) (m_nProxyPeerPort w) (m_nProxyPeerIP w) (m_proxyPeerAddress w)
    (m_pProxyPeerHost w) (m_ProxyData w) (m_pS5UC w) (m_udpcltAddr w) (m_udpsrvAddr w)
    (m_udpBuffer w) (m_secureUdpBuffer w) (m_securePsk w) (m_pSecureLayer w) (rx w) (tx w) v
    (conns w) (peername w) (heap_ok w) (lasterr w) (out w).
Definition set_conns (v : list (bool * Z)) (w : world) : world :=
  mkWorld (m_nLayerState w) (m_nCriticalError w) (hSocketValid w) (m_nProxyOpID w)
    (m_nProxyOpState w) (m_pRecvBuffer w) (m_pStrBuffer w) (m_pSendBuffer w)
    (m_pAppRecvBuffer w) (m_nProxyPeerPort w) (m_nProxyPeerIP w) (m_proxyPeerAddress w)
    (m_pProxyPeerHost w) (m_ProxyData w) (m_pS5UC w) (m_udpcltAddr w) (m_udpsrvAddr w)
    (m_udpBuffer w) (m_secureUdpBuffer w) (m_securePsk w) (m_pSecureLayer w) (rx w) (tx w)
    (drx w) v (peername w) (heap_ok w) (lasterr w) (out w).
Definition set_peername (v : option SOCKADDR_IN) (w : world) : world :=
  mkWorld (m_nLayerState w) (m_nCriticalError w) (hSocketValid w) (m_nProxyOpID w)
    (m_nProxyOpState w) (m_pRecvBuffer w) (m_pStrBuffer w) (m_pSendBuffer w)
    (m_pAppRecvBuffer w) (m_nProxyPeerPort w) (m_nProxyPeerIP w) (m_proxyPeerAddress w)
    (m_pProxyPeerHost w) (m_ProxyData w) (m_pS5UC w) (m_udpcltAddr w) (m_udpsrvAddr w)
    (m_udpBuffer w) (m_secureUdpBuffer w) (m_securePsk w) (m_pSecureLayer w) (rx w) (tx w)
    (drx w) (conns w) v (heap_ok w) (lasterr w) (out w).
Definition set_heap_ok (v : bool) (w : world) : world :=
  mkWorld (m_nLayerState w) (m_nCriticalError w) (hSocketValid w) (m_nProxyOpID w)
    (m_nProxyOpState w) (m_pRecvBuffer w) (m_pStrBuffer w) (m_pSendBuffer w)
    (m_pAppRecvBuffer w) (m_nProxyPeerPort w) (m_nProxyPeerIP w) (m_proxyPeerAddress w)
    (m_pProxyPeerHost w) (m_ProxyData w) (m_pS5UC w) (m_udpcltAddr w) (m_udpsrvAddr w)
    (m_udpBuffer w) (m_secureUdpBuffer w) (m_securePsk w) (m_pSecureLayer w) (rx w) (tx w)
    (drx w) (conns w) (peername w) v (lasterr w) (out w).
Definition set_lasterr (v : Z) (w : world) : world :=
  mkWorld (m_nLayerState w) (m_nCriticalError w) (hSocketValid w) (m_nProxyOpID w)
    (m_nProxyOpState w) (m_pRecvBuffer w) (m_pStrBuffer w) (m_pSendBuffer w)
    (m_pAppRecvBuffer w) (m_nProxyPeerPort w) (m_nProxyPeerIP w) (m_proxyPeerAddress w)
    (m_pProxyPeerHost w) (m_ProxyData w) (m_pS5UC w) (m_udpcltAddr w) (m_udpsrvAddr w)
    (m_udpBuffer w) (m_secureUdpBuffer w) (m_securePsk w) (m_pSecureLayer w) (rx w) (tx w)
    (drx w) (conns w) (peername w) (heap_ok w) v (out w).
Definition set_out (v : list output) (w : world) : world :=
  mkWorld (m_nLayerState w) (m_nCriticalError w) (hSocketValid w) (m_nProxyOpID w)
    (m_nProxyOpState w) (m_pRecvBuffer w) (m_pStrBuffer w) (m_pSendBuffer w)
    (m_pAppRecvBuffer w) (m_nProxyPeerPort w) (m_nProxyPeerIP w) (m_proxyPeerAddress w)
    (m_pProxyPeerHost w) (m_ProxyData w) (m_pS5UC w) (m_udpcltAddr w) (m_udpsrvAddr w)
    (m_udpBuffer w) (m_secureUdpBuffer w) (m_securePsk w) (m_pSecureLayer w) (rx w) (tx w)
    (drx w) (conns w) (peername w) (heap_ok w) (lasterr w) v.

Abbreviation ML := (M world).

Definition emit (o : output) : ML unit := modify (fun w => set_out (out w ++ [o]) w).
Definition WSASetLastError (e : Z) : ML unit := modify (set_lasterr e).
Definition WSAGetLastError : ML Z := gets lasterr.

(** ** The base layer (AsyncSocketExLayer.cpp) *)

(** [DoLayerCallback] keeps the last error. *)
Definition DoLayerCallback (nCode wParam : Z) (lParam : lparam) : ML unit :=
  emit (OCallback nCode wParam lParam).

Definition SetLayerState (nLayerState : LayerState) : ML unit :=
  nOldLayerState ← gets m_nLayerState;
  modify (set_m_nLayerState nLayerState);;
  when (negb (bool_decide (nOldLayerState = nLayerState)))
    (emit (OState nLayerState nOldLayerState)).

Definition TriggerEvent (lEvent nErrorCode : Z) (bPassThrough : bool) : ML unit :=
  valid ← gets hSocketValid;
  when valid (
    (if negb (Z.land lEvent FD_CONNECT =? 0) then
       when (negb (nErrorCode =? 0))
         (SetLayerState aborted;; modify (set_m_nCriticalError nErrorCode))
     else if negb (Z.land lEvent FD_CLOSE =? 0) && (nErrorCode =? 0) then SetLayerState closed
     else when (negb (Z.land lEvent FD_CLOSE =? 0) && negb (nErrorCode =? 0))
         (SetLayerState aborted;; modify (set_m_nCriticalError nErrorCode)));;
    emit (OTrigger (Z.land lEvent 65535) nErrorCode bPassThrough)).

(** The checks shared by [SendNext] and [ReceiveNext]: the error to report. *)
Definition next_error (w : world) : option Z :=
  if negb (m_nCriticalError w =? 0) then Some (m_nCriticalError w)
  else match m_nLayerState w with
       | notsock => Some WSAENOTSOCK
       | unconnected | connecting | listening => Some WSAENOTCONN
       | _ => None
       end.

Definition recv (nBufLen : Z) : ML (Z * bytes) := fun w =>
  match rx w with
  | [] => ((SOCKET_ERROR, []), set_lasterr WSAEWOULDBLOCK w)
  | RxBlock :: r => ((SOCKET_ERROR, []), set_lasterr WSAEWOULDBLOCK (set_rx r w))
  | RxError e :: r => ((SOCKET_ERROR, []), set_lasterr e (set_rx r w))
  | RxEof :: _ => ((0, []), w)
  | RxData b :: r =>
      let n := Z.to_nat nBufLen in
      ((Z.of_nat (length (take n b)), take n b),
       set_rx (match drop n b with [] => r | rest => RxData rest :: r end) w)
  end.

(** [ReceiveNext] into a buffer of [size] bytes at [pos]. *)
Definition ReceiveNext (size pos nBufLen : Z) : ML (Z * bytes) :=
  e ← gets next_error;
  match e with
  | Some e => WSASetLastError e;; mret (SOCKET_ERROR, [])
  | None =>
      when (negb ((0 <? nBufLen) && (pos + nBufLen <=? size))) (emit OFault);;
      recv nBufLen
  end.

Definition send (lpBuf : bytes) : ML Z := fun w =>
  match tx w with
  | [] => (SOCKET_ERROR, set_lasterr WSAEWOULDBLOCK w)
  | TxBlock :: r => (SOCKET_ERROR, set_lasterr WSAEWOULDBLOCK (set_tx r w))
  | TxError e :: r => (SOCKET_ERROR, set_lasterr e (set_tx r w))
  | TxAccept k :: r =>
      let data := take (Z.to_nat k) lpBuf in
      (Z.of_nat (length data), set_out (out w ++ [OSend data]) (set_tx r w))
  end.

Definition SendNext (lpBuf : bytes) : ML Z :=
  e ← gets next_error;
  match e with
  | Some e => WSASetLastError e;; mret SOCKET_ERROR
  | None => send lpBuf
  end.

(** The next layer's connect, its result taken from [conns]. *)
Definition connect_result : ML bool := fun w =>
  match conns w with
  | [] => (false, set_lasterr WSAEWOULDBLOCK w)
  | (res, e) :: r => (res, set_lasterr e (set_conns r w))
  end.

Definition after_connect (res : bool) : ML bool :=
  e ← WSAGetLastError;
  when (res || (e =? WSAEWOULDBLOCK)) (SetLayerState connecting);;
  mret res.

Definition ConnectNextHost (lpszHostAddress : bytes) (nHostPort : Z) : ML bool :=
  emit (OConnectHost lpszHostAddress nHostPort);;
  res ← connect_result; after_connect res.

Definition ConnectNextAddr (lpSockAddr : _SockAddr) : ML bool :=
  emit (OConnectAddr lpSockAddr);;
  res ← connect_result; after_connect res.

Definition ListenNext (nConnectionBacklog : Z) : ML bool :=
  emit (OListen nConnectionBacklog);;
  res ← connect_result;
  when res (SetLayerState listening);;
  mret res.

Definition CloseNext : ML unit := SetLayerState notsock;; emit OClose.

(** ** Buffers and the life of an operation *)

Definition Reset : ML unit :=
  modify (set_m_nProxyOpState 0);; modify (set_m_nProxyOpID 0).

Definition ClearBuffer : ML unit :=
  modify (set_m_pStrBuffer []);; modify (set_m_pRecvBuffer None).

Definition ClearSendBuffer : ML unit := modify (set_m_pSendBuffer None).

(** The two ways the code picks the event that ends an operation. *)
Definition op_event (m_nProxyOpID : Z) : Z :=
  if (m_nProxyOpID =? PROXYOP_CONNECT) || (m_nProxyOpID =? PROXYOP_UDPASSOCIATE)
  then FD_CONNECT else FD_ACCEPT.
Definition op_event_connect (m_nProxyOpID : Z) : Z :=
  if m_nProxyOpID =? PROXYOP_CONNECT then FD_CONNECT else FD_ACCEPT.

(** The callback and the event that report a failure; what follows ([Reset],
    [ClearBuffer]) is written at each use, as the uses differ. *)
Definition fail_with (nCode wParam : Z) (lParam : lparam) (event : Z -> Z) (err : Z) : ML unit :=
  DoLayerCallback nCode wParam lParam;;
  id ← gets m_nProxyOpID;
  TriggerEvent (event id) err true.

Definition FailPendingProxyOperation (errorCode : Z) : ML unit :=
  id ← gets m_nProxyOpID;
  if id =? 0 then mret tt
  else
    let errorCode := if errorCode =? 0 then WSAECONNABORTED else errorCode in
    let event := op_event id in
    DoLayerCallback PROXYERROR_REQUESTFAILED errorCode LNone;;
    Reset;; ClearBuffer;; ClearSendBuffer;;
    TriggerEvent event errorCode true.

(** The loop of [FlushProxyRequest]; each round sends at least one byte, so
    the bytes left to send are enough fuel. *)
Fixpoint flush_loop (fuel : nat) : ML bool :=
  b ← gets m_pSendBuffer;
  match b with
  | None => mret true
  | Some (data, pos) =>
      if Z.of_nat (length data) <=? pos then mret true
      else
        match fuel with
        | O => emit OFault;; mret false
        | S fuel =>
            sent ← SendNext (drop (Z.to_nat pos) data);
            if sent =? SOCKET_ERROR then
              e ← WSAGetLastError;
              if e =? WSAEWOULDBLOCK then mret true
              else ClearSendBuffer;; mret false
            else if sent <=? 0 then
              WSASetLastError WSAECONNRESET;; ClearSendBuffer;; mret false
            else
              modify (set_m_pSendBuffer (Some (data, pos + sent)));;
              flush_loop fuel
        end
  end.

Definition flush_fuel (w : world) : nat :=
  match m_pSendBuffer w with
  | None => O
  | Some (data, pos) => (length data - Z.to_nat pos)%nat
  end.

(** After a complete round the buffer is released; a WSAEWOULDBLOCK return
    leaves it (the test is false then). *)
Definition FlushProxyRequest : ML bool :=
  fuel ← gets flush_fuel;
  ok ← flush_loop fuel;
  if (ok : bool) then
    b ← gets m_pSendBuffer;
    match b with
    | Some (data, pos) => when (pos =? Z.of_nat (length data)) ClearSendBuffer
    | None => mret tt
    end;;
    mret true
  else mret false.

Definition QueueProxyRequest (data : bytes) (length_ : Z) : ML bool :=
  b ← gets m_pSendBuffer;
  if (length_ <=? 0) || match b with Some _ => true | None => false end then
    WSASetLastError WSAEINVAL;; mret false
  else
    heap ← gets heap_ok;
    if negb heap then WSASetLastError WSAENOBUFS;; mret false
    else
      modify (set_m_pSendBuffer (Some (take (Z.to_nat length_) data, 0)));;
      FlushProxyRequest.

(** ** Small operations *)

Definition SetProxyNone (proxyType : Z) : ML unit :=
  modify (fun w => let d := m_ProxyData w in
    set_m_ProxyData (mkProxyData proxyType (pd_strProxyHost d) (pd_nProxyPort d)
      (pd_strProxyUser d) (pd_strProxyPass d) (bUseLogon d)) w).

Definition SetProxy (proxyType : Z) (strProxyHost : bytes) (ProxyPort : Z) : ML unit :=
  modify (fun w => let d := m_ProxyData w in
    set_m_ProxyData (mkProxyData proxyType strProxyHost ProxyPort
      (pd_strProxyUser d) (pd_strProxyPass d) false) w).

Definition SetProxyLogon (proxyType : Z) (strProxyHost : bytes) (ProxyPort : Z)
    (strProxyUser strProxyPass : bytes) : ML unit :=
  modify (set_m_ProxyData
    (mkProxyData proxyType strProxyHost ProxyPort strProxyUser strProxyPass true)).

(** [supports] is ProxySupportsOptionalModules, the operating system test. *)
Definition SetSecureTransport (supports : bool) (psk : bytes) : ML bool :=
  if negb supports then WSASetLastError WSAEOPNOTSUPP;; mret false
  else
    d ← gets m_ProxyData;
    if bool_decide (psk = []) || negb (nProxyType d =? PROXYTYPE_SOCKS5) then
      WSASetLastError WSAEINVAL;; mret false
    else modify (set_m_securePsk psk);; mret true.

Definition PrepareListen (ip : Z) : ML bool :=
  st ← gets m_nLayerState;
  if negb (bool_decide (st = notsock)) && negb (bool_decide (st = unconnected)) then mret false
  else modify (set_m_nProxyPeerIP ip);; mret true.

(** A character is signed where it is passed on as an unsigned int. *)
Definition char_to_UINT (b : Z) : Z := if b <? 128 then b else b + 4294967040.

Definition GetSocks4Error (ver cd : Z) : bytes :=
  if negb (ver =? 0) then ascii_bytes "Unknown protocol version: " ++ itoa ver
  else if cd =? 90 then []
  else if cd =? 91 then ascii_bytes "Request rejected or failed"
  else if cd =? 92 then ascii_bytes "Failed to connect to 'identd'"
  else if cd =? 93 then ascii_bytes "'identd' user-id error"
  else ascii_bytes "Unknown command: " ++ itoa cd.

Definition GetSocks5Error (rep : Z) : bytes :=
  if rep =? 0 then []
  else if rep =? 1 then ascii_bytes "General SOCKS server failure"
  else if rep =? 2 then ascii_bytes "Connection not allowed by ruleset"
  else if rep =? 3 then ascii_bytes "Network unreachable"
  else if rep =? 4 then ascii_bytes "Host unreachable"
  else if rep =? 5 then ascii_bytes "Connection refused"
  else if rep =? 6 then ascii_bytes "TTL expired"
  else if rep =? 7 then ascii_bytes "Command not supported"
  else if rep =? 8 then ascii_bytes "Address type not supported"
  else ascii_bytes "Unknown reply: " ++ itoa rep.

(** [GetPeerName] gives the first [lpSockAddrLen] bytes' worth of the peer. *)
Definition GetPeerName (lpSockAddrLen : Z) : ML (option _SockAddr) :=
  d ← gets m_ProxyData;
  if nProxyType d =? PROXYTYPE_NOPROXY then
    p ← gets peername;
    mret (match p with
          | Some a => Some (mkSockAddr (sin_family a) (sin_port a)
                              (memcpy (replicate 24 0) 0 (le_split 4 (sin_addr a))))
          | None => None
          end)
  else
    st ← gets m_nLayerState;
    a ← gets m_proxyPeerAddress;
    port ← gets m_nProxyPeerPort;
    if bool_decide (st = notsock) then WSASetLastError WSAENOTSOCK;; mret None
    else if negb (bool_decide (st = connected)) then WSASetLastError WSAENOTCONN;; mret None
    else if (negb (IsIPv4 a) && negb (IsIPv6 a)) || (port =? 0) then
      WSASetLastError WSAENOTCONN;; mret None
    else if lpSockAddrLen <? Size a then WSASetLastError WSAEFAULT;; mret None
    else mret (Some a).

(** ** The application side *)

Definition Send (lpBuf : bytes) : ML Z :=
  id ← gets m_nProxyOpID;
  if negb (id =? 0) then WSASetLastError WSAEWOULDBLOCK;; mret SOCKET_ERROR
  else SendNext lpBuf.

(** [Receive] with a non-null buffer of [nBufLen] bytes. *)
Definition Receive (nBufLen : Z) : ML (Z * bytes) :=
  if nBufLen <? 0 then WSASetLastError WSAEFAULT;; mret (SOCKET_ERROR, [])
  else if nBufLen =? 0 then mret (0, [])
  else
    id ← gets m_nProxyOpID;
    if negb (id =? 0) then WSASetLastError WSAEWOULDBLOCK;; mret (SOCKET_ERROR, [])
    else
      app ← gets m_pAppRecvBuffer;
      match app with
      | Some (data, pos) =>
          if pos <? Z.of_nat (length data) then
            let available := Z.of_nat (length data) - pos in
            let copied := Z.min nBufLen available in
            modify (set_m_pAppRecvBuffer
              (if pos + copied =? Z.of_nat (length data) then None
               else Some (data, pos + copied)));;
            mret (copied, take (Z.to_nat copied) (drop (Z.to_nat pos) data))
          else ReceiveNext nBufLen 0 nBufLen
      | None => ReceiveNext nBufLen 0 nBufLen
      end.

Definition Close : ML unit :=
  modify (fun w => let d := m_ProxyData w in
    set_m_ProxyData (mkProxyData (nProxyType d) [] (pd_nProxyPort d) [] [] (bUseLogon d)) w);;
  modify (set_m_pProxyPeerHost None);;
  ClearBuffer;; ClearSendBuffer;;
  modify (set_m_pAppRecvBuffer None);;
  Reset;; CloseNext.

Definition Listen (nConnectionBacklog : Z) : ML bool :=
  d ← gets m_ProxyData;
  if nProxyType d =? PROXYTYPE_NOPROXY then ListenNext nConnectionBacklog
  else
    res ← ConnectNextHost (pd_strProxyHost d) (pd_nProxyPort d);
    e ← WSAGetLastError;
    if negb res && negb (e =? WSAEWOULDBLOCK) then
      DoLayerCallback PROXYERROR_NOCONN e LNone;; mret false
    else
      modify (set_m_nProxyPeerPort 0);;
      modify (set_m_nProxyPeerIP (u32 nConnectionBacklog));;
      modify (set_m_nProxyOpID PROXYOP_BIND);;
      mret true.

(** ** Event handlers *)

(** What is not under src/: the resolver and the address conversions of the
    system, the value of an unsigned conversion that overflows, the value of
    an uninitialised local, and what the scanner makes of a text that goes on
    in the memory behind its buffer. *)
Class Platform := {
  inet_addr : bytes -> Z;
  gethostbyname : bytes -> option (Z * Z * Z);   (* h_addrtype, h_length, first address *)
  inet_ntoa : Z -> bytes;
  ProxyInetNtopA6 : bytes -> option bytes;
  u_overflow : Z -> Z;
  uninit : Z;
  behind : bytes -> option Z
}.

Section Handlers.
Context {platform : Platform}.

Definition OnClose (nErrorCode : Z) : ML unit :=
  id ← gets m_nProxyOpID;
  if negb (id =? 0) then FailPendingProxyOperation nErrorCode
  else TriggerEvent FD_CLOSE nErrorCode true.

Definition OnAccept (nErrorCode : Z) : ML unit := TriggerEvent FD_ACCEPT nErrorCode true.

Definition OnSend (nErrorCode : Z) : ML unit :=
  b ← gets m_pSendBuffer;
  match b with
  | Some _ =>
      ok ← (if negb (nErrorCode =? 0) then mret false else FlushProxyRequest);
      if (ok : bool) then mret tt
      else
        e ← WSAGetLastError;
        let errorCode := if negb (nErrorCode =? 0) then nErrorCode else e in
        DoLayerCallback PROXYERROR_REQUESTFAILED errorCode LNone;;
        id ← gets m_nProxyOpID;
        TriggerEvent (op_event id) (if negb (errorCode =? 0) then errorCode else WSAECONNABORTED) true;;
        Reset;; ClearBuffer
  | None =>
      id ← gets m_nProxyOpID;
      if negb (id =? 0) then mret tt else TriggerEvent FD_WRITE nErrorCode true
  end.

(** The shape shared by the SOCKS reads: allocate the buffer if there is none,
    receive up to [responseLength], report an error or the end of the stream,
    append what came and go on with it. *)
Definition ReadReply (newSize : Z) (responseLength : bytes -> Z) (cleanup : ML unit)
    (k : bytes -> ML unit) : ML unit :=
  buf ← gets m_pRecvBuffer;
  let '(size, data) := default (newSize, []) buf in
  modify (set_m_pRecvBuffer (Some (size, data)));;
  let pos := Z.of_nat (length data) in
  r ← ReceiveNext size pos (responseLength data - pos);
  let '(numread, got) := (r : Z * bytes) in
  if numread =? SOCKET_ERROR then
    e ← WSAGetLastError;
    when (negb (e =? WSAEWOULDBLOCK))
      (fail_with PROXYERROR_REQUESTFAILED e LNone op_event e;; Reset;; cleanup)
  else if numread =? 0 then FailPendingProxyOperation WSAECONNABORTED
  else
    let data := data ++ got in
    modify (set_m_pRecvBuffer (Some (size, data)));;
    k data.

(** The three events after a completed operation. *)
Definition op_succeeded (event : Z) : ML unit :=
  TriggerEvent event 0 true;; TriggerEvent FD_READ 0 true;; TriggerEvent FD_WRITE 0 true.

(** A complete SOCKS4 reply. *)
Definition socks4_reply (data : bytes) : ML unit :=
  if negb (byte_at data 0 =? 0) || negb (byte_at data 1 =? 90) then
    fail_with PROXYERROR_REQUESTFAILED 0
      (LText (GetSocks4Error (char_to_UINT (byte_at data 0)) (char_to_UINT (byte_at data 1))))
      op_event WSAECONNABORTED;;
    Reset;; ClearBuffer
  else
    id ← gets m_nProxyOpID;
    st ← gets m_nProxyOpState;
    if ((id =? PROXYOP_CONNECT) && (st =? 1)) || ((id =? PROXYOP_BIND) && (st =? 2)) then
      ClearBuffer;; Reset;; op_succeeded (op_event_connect id)
    else if (id =? PROXYOP_BIND) && (st =? 1) then
      modify (set_m_nProxyOpState 2);;
      let ip := le_join (slice 4 4 data) in
      a ← (if ip =? 0 then
             p ← GetPeerName sizeof_SOCKADDR;
             mret (sin_addr ∘ as_in <$> p)
           else mret (Some ip));
      match a with
      | None =>
          fail_with PROXYERROR_REQUESTFAILED 0 LNone op_event_connect WSAECONNABORTED;;
          Reset;; ClearBuffer
      | Some ip =>
          DoLayerCallback PROXYSTATUS_LISTENSOCKETCREATED 0
            (LListen ip (le_join (slice 2 2 data)));;
          ClearBuffer
      end
    else ClearBuffer.

Definition OnReceive_socks4 : ML unit :=
  st ← gets m_nProxyOpState;
  if (st =? 1) || (st =? 2) then
    ReadReply 8 (fun _ => 8) ClearBuffer (fun data =>
      if Z.of_nat (length data) =? 8 then socks4_reply data else mret tt)
  else mret tt.

(** [_snprintf(cBuff, 513, ...)]: -1 when the text does not fit. *)
Definition snprintf_length (size : Z) (text : bytes) : Z :=
  if size <? Z.of_nat (length text) then -1 else Z.of_nat (length text).

(** RFC 1929: the lengths are written with [%c]. *)
Definition auth_request (user pass : bytes) : bytes :=
  [1; u8 (Z.of_nat (length user))] ++ user ++ [u8 (Z.of_nat (length pass))] ++ pass.

(** Queue a request; [false] after the failure has been reported. *)
Definition queue_or_fail (data : bytes) (iLen : Z) : ML bool :=
  ok ← QueueProxyRequest data iLen;
  let res := if (ok : bool) then iLen else SOCKET_ERROR in
  if (res =? SOCKET_ERROR) || (res <? iLen) then
    e ← WSAGetLastError;
    if negb (e =? WSAEWOULDBLOCK) || (res <? iLen) then
      fail_with PROXYERROR_REQUESTFAILED e LNone op_event e;; Reset;; mret false
    else mret true
  else mret true.

Definition socks5_send_auth : ML unit :=
  d ← gets m_ProxyData;
  let cBuff := auth_request (pd_strProxyUser d) (pd_strProxyPass d) in
  ok ← queue_or_fail cBuff (snprintf_length 513 cBuff);
  if (ok : bool) then ClearBuffer;; modify (set_m_nProxyOpState 2) else mret tt.

(** The host a request names when there is no address for it. *)
Definition socks5_request (w : world) (host : bytes) : bytes :=
  let head := [5; u8 (m_nProxyOpID w); 0] in
  if m_nProxyOpID w =? PROXYOP_UDPASSOCIATE then
    head ++ [1] ++ le_split 4 (sin_addr (m_udpcltAddr w)) ++ le_split 2 (sin_port (m_udpcltAddr w))
  else
    head ++
    (if IsIPv6 (m_proxyPeerAddress w) then [4] ++ v6_bytes (m_proxyPeerAddress w)
     else if negb (m_nProxyPeerIP w =? 0) then [1] ++ le_split 4 (m_nProxyPeerIP w)
     else [3; u8 (Z.of_nat (length host))] ++ host) ++
    le_split 2 (m_nProxyPeerPort w).

Definition socks5_send_request : ML unit :=
  w ← gets (fun w => w);
  let named := negb (IsIPv6 (m_proxyPeerAddress w)) && (m_nProxyPeerIP w =? 0)
               && negb (m_nProxyOpID w =? PROXYOP_UDPASSOCIATE) in
  if named && match m_pProxyPeerHost w with None => true | Some _ => false end then
    DoLayerCallback PROXYERROR_REQUESTFAILED WSAEINVAL LNone;;
    TriggerEvent FD_CONNECT WSAEINVAL true;; Reset
  else
    let host := if named then default [] (m_pProxyPeerHost w) else [] in
    let pcReq := socks5_request w host in
    ok ← queue_or_fail pcReq (Z.of_nat (length pcReq));
    if (ok : bool) then modify (set_m_nProxyOpState 3);; ClearBuffer else mret tt.

(** The answer to the greeting (state 1) or to the credentials (state 2). *)
Definition socks5_method_reply (data : bytes) : ML unit :=
  st ← gets m_nProxyOpState;
  let bIniReqFailed := (st =? 1) && negb (byte_at data 0 =? 5) in
  let bAuthReqFailed := (st =? 2) && negb (byte_at data 1 =? 0) in
  if bIniReqFailed || bAuthReqFailed then
    fail_with (if bAuthReqFailed then PROXYERROR_AUTHFAILED else PROXYERROR_REQUESTFAILED) 0
      LNone op_event WSAECONNABORTED;;
    Reset;; ClearBuffer
  else if (st =? 1) && negb (byte_at data 1 =? 0) then
    d ← gets m_ProxyData;
    if negb (byte_at data 1 =? 2) then
      fail_with PROXYERROR_AUTHTYPEUNKNOWN 0 LNone op_event WSAECONNABORTED;; Reset;; ClearBuffer
    else if negb (bUseLogon d) then
      fail_with PROXYERROR_AUTHNOLOGON 0 LNone op_event WSAECONNABORTED;; Reset;; ClearBuffer
    else socks5_send_auth
  else socks5_send_request.

Definition OnReceive_socks5_method : ML unit :=
  ReadReply 2 (fun _ => 2) (mret tt) (fun data =>
    if Z.of_nat (length data) =? 2 then socks5_method_reply data else mret tt).

(** The length of the reply, as far as the received bytes tell. *)
Definition socks5_length (data : bytes) : Z :=
  let pos := Z.of_nat (length data) in
  if 4 <=? pos then
    let atyp := byte_at data 3 in
    if atyp =? 1 then 10
    else if atyp =? 3 then (if pos <? 5 then 5 else 7 + byte_at data 4)
    else if atyp =? 4 then 22
    else 4
  else 4.

(** A UDP ASSOCIATE was granted: where the relay is. *)
Definition socks5_udp_granted (data : bytes) : ML unit :=
  let atyp := byte_at data 3 in
  if negb (atyp =? 1) && negb (atyp =? 3) then
    DoLayerCallback PROXYERROR_REQUESTFAILED WSAEAFNOSUPPORT
      (LText (ascii_bytes "UDP ASSOCIATE returned a non-IPv4 relay"));;
    TriggerEvent FD_CONNECT WSAEAFNOSUPPORT true;; Reset;; ClearBuffer
  else
    let domainLength := Z.to_nat (byte_at data 4) in
    let port := if atyp =? 1 then le_join (slice 8 2 data)
                else le_join (slice (5 + domainLength) 2 data) in
    let addr := if atyp =? 1 then Some (le_join (slice 4 4 data))
                else match gethostbyname (cstr (slice 5 domainLength data)) with
                     | Some (h_addrtype, h_length, a) =>
                         if (h_addrtype =? AF_INET) && (h_length =? 4) then Some a else None
                     | None => None
                     end in
    modify (set_m_udpsrvAddr (mkSOCKADDR_IN AF_INET port 0));;
    match addr with
    | None => TriggerEvent FD_CONNECT WSAHOST_NOT_FOUND true;; Reset;; ClearBuffer
    | Some addr =>
        p ← gets peername;
        modify (set_m_udpsrvAddr (mkSOCKADDR_IN AF_INET port
          (if addr =? INADDR_ANY then match p with Some a => sin_addr a | None => addr end
           else addr)));;
        Reset;; ClearBuffer;;
        TriggerEvent FD_CONNECT 0 true;;
        ClearBuffer
    end.

(** A complete SOCKS5 reply. *)
Definition socks5_reply (data : bytes) : ML unit :=
  id ← gets m_nProxyOpID;
  st ← gets m_nProxyOpState;
  if negb (byte_at data 0 =? 5) || negb (byte_at data 1 =? 0) then
    let udpUnsupported := (id =? PROXYOP_UDPASSOCIATE) && (byte_at data 1 =? 7) in
    let operationError := if udpUnsupported then WSAEOPNOTSUPP else WSAECONNABORTED in
    fail_with (if udpUnsupported then PROXYERROR_UDP_UNSUPPORTED else PROXYERROR_REQUESTFAILED)
      operationError (LText (GetSocks5Error (char_to_UINT (byte_at data 1)))) op_event
      operationError;;
    Reset;; ClearBuffer
  else if ((id =? PROXYOP_CONNECT) && (st =? 3)) || ((id =? PROXYOP_BIND) && (st =? 4)) then
    Reset;; ClearBuffer;; op_succeeded (op_event_connect id)
  else if (id =? PROXYOP_BIND) && (st =? 3) then
    if negb (byte_at data 3 =? 1) then
      fail_with PROXYERROR_REQUESTFAILED 0 (LText (ascii_bytes "Unexpected ATYP received"))
        op_event_connect WSAECONNABORTED;;
      Reset;; ClearBuffer
    else
      modify (set_m_nProxyOpState 4);;
      DoLayerCallback PROXYSTATUS_LISTENSOCKETCREATED 0
        (LListen (le_join (slice 4 4 data)) (le_join (slice 8 2 data)));;
      ClearBuffer
  else if (id =? PROXYOP_UDPASSOCIATE) && (st =? 3) then socks5_udp_granted data
  else ClearBuffer.

Definition OnReceive_socks5_reply : ML unit :=
  ReadReply MAX_HEADER_SIZE socks5_length (mret tt) (fun data =>
    let pos := Z.of_nat (length data) in
    let atyp := byte_at data 3 in
    if (4 <=? pos) && negb (atyp =? 1) && negb (atyp =? 3) && negb (atyp =? 4) then
      fail_with PROXYERROR_REQUESTFAILED WSAEAFNOSUPPORT
        (LText (ascii_bytes "Unexpected ATYP received")) op_event WSAEAFNOSUPPORT;;
      Reset;; ClearBuffer
    else if (4 <=? pos) && (pos =? socks5_length data) then socks5_reply data
    else mret tt).

(** ** HTTP CONNECT *)

(** [sscanf(text, "HTTP/%*u.%*u %u", ...)].  The text lies in a buffer of
    exactly its size, with no NUL behind it: a directive that needs one more
    character than the buffer has leaves it, [Past]. *)
Definition isspace (c : Z) : bool := ((9 <=? c) && (c <=? 13)) || (c =? 32).
Definition isdigit (c : Z) : bool := (48 <=? c) && (c <=? 57).

Inductive scanned (A : Type) := Hit (a : A) | Miss | Past.
#[global] Arguments Hit {A}. #[global] Arguments Miss {A}. #[global] Arguments Past {A}.

Definition scan_bind {A B} (r : scanned A) (k : A -> scanned B) : scanned B :=
  match r with Hit a => k a | Miss => Miss | Past => Past end.

Fixpoint skip_space (l : bytes) : scanned bytes :=
  match l with c :: r => if isspace c then skip_space r else Hit l | [] => Past end.

Fixpoint scan_digits (acc : Z) (l : bytes) : scanned (Z * bytes) :=
  match l with
  | c :: r => if isdigit c then scan_digits (acc * 10 + (c - 48)) r else Hit (acc, l)
  | [] => Past
  end.

(** The optional sign of a number. *)
Definition scan_sign (l : bytes) : bool * bytes :=
  match l with
  | c :: r => if c =? 45 then (true, r) else if c =? 43 then (false, r) else (false, l)
  | [] => (false, [])
  end.

(** [%u]: spaces, an optional sign, at least one digit. *)
Definition scan_u (l : bytes) : scanned (Z * bytes) :=
  scan_bind (skip_space l) (fun l =>
    let '(neg, l) := scan_sign l in
    match l with
    | c :: _ =>
        if isdigit c then
          scan_bind (scan_digits 0 l) (fun '(v, r) =>
            let v := if v <? 4294967296 then v else u_overflow v in
            Hit (if (neg : bool) then u32 (- v) else v, r))
        else Miss
    | [] => Past
    end).

Fixpoint scan_literal (lit l : bytes) : scanned bytes :=
  match lit with
  | [] => Hit l
  | c :: lit => match l with
                | d :: l => if c =? d then scan_literal lit l else Miss
                | [] => Past
                end
  end.

(** The last conversion is the status itself: its digits end the scan. *)
Definition scan_status (text : bytes) : scanned Z :=
  scan_bind (scan_literal (ascii_bytes "HTTP/") text) (fun l =>
  scan_bind (scan_u l) (fun '(_, l) =>
  scan_bind (scan_literal (ascii_bytes ".") l) (fun l =>
  scan_bind (scan_u l) (fun '(_, l) =>
  scan_bind (skip_space l) (fun l =>
  scan_bind (scan_u l) (fun '(v, _) => Hit v)))))).

(** What the code gets of it: one conversion, none, or whatever the memory
    behind the buffer leads to. *)
Definition read_status (text : bytes) : ML (option Z) :=
  match scan_status text with
  | Hit v => mret (Some v)
  | Miss => mret None
  | Past => emit (OPast text);; mret (behind text)
  end.

(** The search for CR LF CR LF: the index after it. *)
Fixpoint find_eoh (l : bytes) (i : nat) : option nat :=
  match l with
  | a :: ((b :: c :: d :: _) as t) =>
      if (a =? 13) && (b =? 10) && (c =? 13) && (d =? 10) then Some (i + 4)%nat
      else find_eoh t (S i)
  | _ => None
  end.

(** The loop; [None] is a [return].  Each round adds at least one of at most
    4096 bytes. *)
Fixpoint http_loop (fuel : nat) : ML (option nat) :=
  match fuel with
  | O => emit OFault;; mret None
  | S fuel =>
      r ← ReceiveNext 4096 0 4096;
      let '(iRead, got) := (r : Z * bytes) in
      if iRead =? SOCKET_ERROR then
        e ← WSAGetLastError;
        when (negb (e =? WSAEWOULDBLOCK)) (
          DoLayerCallback PROXYERROR_REQUESTFAILED e LNone;;
          Reset;; ClearBuffer;; TriggerEvent FD_CONNECT e true);;
        mret None
      else if iRead =? 0 then FailPendingProxyOperation WSAECONNABORTED;; mret None
      else
        str ← gets m_pStrBuffer;
        heap ← gets heap_ok;
        if (4096 <? Z.of_nat (length str) + iRead) || negb heap then
          DoLayerCallback PROXYERROR_REQUESTFAILED 0
            (LText (ascii_bytes "Invalid HTTP response - Header size exceeds limit"));;
          Reset;; ClearBuffer;; TriggerEvent FD_CONNECT WSAECONNABORTED true;;
          mret None
        else
          let str := str ++ got in
          modify (set_m_pStrBuffer str);;
          match find_eoh str 0 with
          | Some iHeaderEnd => mret (Some iHeaderEnd)
          | None => http_loop fuel
          end
  end.

(** The first line as the error text: up to the newline, without its CR. *)
Fixpoint upto_newline (l : bytes) : bytes :=
  match l with
  | [] => []
  | c :: r => if c =? 10 then []
              else if (c =? 13) && match r with d :: _ => d =? 10 | [] => false end then []
              else c :: upto_newline r
  end.

Definition http_rejected (str : bytes) (status : Z) : ML unit :=
  if bool_decide (take 4 str = ascii_bytes "HTTP") then
    if status =? 407 then DoLayerCallback PROXYERROR_AUTHREQUIRED 0 LNone
    else DoLayerCallback PROXYERROR_REQUESTFAILED 0 (LText (cstr (upto_newline str)))
  else DoLayerCallback PROXYERROR_REQUESTFAILED 0 (LText (ascii_bytes "Invalid HTTP response")).

Definition http_fuel : nat := 4098.

Definition OnReceive_http : ML unit :=
  found ← http_loop http_fuel;
  match found with
  | None => mret tt
  | Some iHeaderEnd =>
      str ← gets m_pStrBuffer;
      status ← read_status str;
      if negb (bool_decide (status = Some 200)) then
        http_rejected str (default uninit status);;
        Reset;; ClearBuffer;; TriggerEvent FD_CONNECT WSAECONNABORTED true
      else
        let surplus := drop iHeaderEnd str in
        when (0 <? Z.of_nat (length surplus)) (modify (set_m_pAppRecvBuffer (Some (surplus, 0))));;
        Reset;; ClearBuffer;; op_succeeded FD_CONNECT
  end.

(** ** [OnReceive] *)

Definition OnReceive (nErrorCode : Z) : ML unit :=
  id ← gets m_nProxyOpID;
  if id =? 0 then TriggerEvent FD_READ nErrorCode true
  else if negb (nErrorCode =? 0) then FailPendingProxyOperation nErrorCode
  else
    st ← gets m_nProxyOpState;
    d ← gets m_ProxyData;
    if st =? 0 then mret tt
    else if (nProxyType d =? PROXYTYPE_SOCKS4) || (nProxyType d =? PROXYTYPE_SOCKS4A) then
      OnReceive_socks4
    else if nProxyType d =? PROXYTYPE_SOCKS5 then
      if (st =? 1) || (st =? 2) then OnReceive_socks5_method
      else if (st =? 3) || (st =? 4) then OnReceive_socks5_reply
      else mret tt
    else if (nProxyType d =? PROXYTYPE_HTTP10) || (nProxyType d =? PROXYTYPE_HTTP11) then
      OnReceive_http
    else mret tt.

(** ** Connecting *)

Definition ConnectAddr (lpSockAddr : option _SockAddr) (nSockAddrLen : Z) : ML bool :=
  d ← gets m_ProxyData;
  if nProxyType d =? PROXYTYPE_NOPROXY then
    ConnectNextAddr (default SockAddr.Clear lpSockAddr)
  else
    match Set_ lpSockAddr nSockAddrLen with
    | None => WSASetLastError WSAEAFNOSUPPORT;; mret false
    | Some a =>
        modify (set_m_proxyPeerAddress a);;
        modify (set_m_nProxyPeerIP (GetdwIP a));;
        modify (set_m_nProxyPeerPort (sa_port a));;
        if IsAny a then mret false
        else
          modify (set_m_pProxyPeerHost None);;
          modify (set_m_nProxyOpID PROXYOP_CONNECT);;
          res ← ConnectNextHost (pd_strProxyHost d) (pd_nProxyPort d);
          e ← WSAGetLastError;
          if negb res && negb (e =? WSAEWOULDBLOCK) then
            DoLayerCallback PROXYERROR_NOCONN e LNone;; mret false
          else mret res
    end.

(** Connecting by address after a successful conversion or resolution. *)
Definition connect_resolved (lpszHostAddress : bytes) (nHostPort addr : Z) : ML bool :=
  let sockAddr := mkSockAddr AF_INET (htons nHostPort)
                    (memcpy (replicate 24 0) 0 (le_split 4 addr)) in
  res ← ConnectAddr (Some sockAddr) sizeof_SOCKADDR_IN;
  e ← WSAGetLastError;
  when ((res : bool) || (e =? WSAEWOULDBLOCK)) (modify (set_m_pProxyPeerHost (Some lpszHostAddress)));;
  mret res.

Definition sends_names (proxyType : Z) : bool :=
  (proxyType =? PROXYTYPE_SOCKS4A) || (proxyType =? PROXYTYPE_SOCKS5)
  || (proxyType =? PROXYTYPE_HTTP10) || (proxyType =? PROXYTYPE_HTTP11).

Definition ConnectHost (lpszHostAddress : bytes) (nHostPort : Z) : ML bool :=
  d ← gets m_ProxyData;
  if nProxyType d =? PROXYTYPE_NOPROXY then ConnectNextHost lpszHostAddress nHostPort
  else if inet_addr lpszHostAddress =? INADDR_NONE then
    if sends_names (nProxyType d) then
      res ← ConnectNextHost (pd_strProxyHost d) (pd_nProxyPort d);
      e ← WSAGetLastError;
      if negb res && negb (e =? WSAEWOULDBLOCK) then
        DoLayerCallback PROXYERROR_NOCONN e LNone;; mret false
      else
        modify (set_m_nProxyPeerPort (htons nHostPort));;
        modify (set_m_nProxyPeerIP 0);;
        modify (set_m_proxyPeerAddress SockAddr.Clear);;
        modify (set_m_pProxyPeerHost (Some lpszHostAddress));;
        modify (set_m_nProxyOpID PROXYOP_CONNECT);;
        mret true
    else
      match gethostbyname lpszHostAddress with
      | Some (_, _, addr) => connect_resolved lpszHostAddress nHostPort addr
      | None =>
          DoLayerCallback PROXYERROR_CANTRESOLVEHOST 0 LNone;;
          WSASetLastError WSAEINVAL;; mret false
      end
  else connect_resolved lpszHostAddress nHostPort (inet_addr lpszHostAddress).

(** ** [OnConnect]: the first request *)

Definition greeting (logon : bool) : bytes := if logon then [5; 2; 2; 0] else [5; 1; 0].

(** The SOCKS4 request: an address, or 0.0.0.1 and the name. *)
Definition socks4_request (w : world) (host : bytes) : bytes :=
  [4; if m_nProxyOpID w =? PROXYOP_CONNECT then 1 else 2] ++ le_split 2 (m_nProxyPeerPort w) ++
  (if m_nProxyPeerIP w =? 0 then [0; 0; 0; 1; 0] ++ host ++ [0]
   else le_split 4 (m_nProxyPeerIP w) ++ [0]).

(** Queue the first request and wait for the answer in state 1.  The second
    test, [res < iReqLen], is never true here: [res] is [iReqLen] or
    SOCKET_ERROR. *)
Definition queue_first (data : bytes) : ML unit :=
  ok ← QueueProxyRequest data (Z.of_nat (length data));
  if (ok : bool) then modify (fun w => set_m_nProxyOpState (m_nProxyOpState w + 1) w)
  else
    e ← WSAGetLastError;
    id ← gets m_nProxyOpID;
    DoLayerCallback PROXYERROR_REQUESTFAILED e LNone;;
    (if id =? PROXYOP_CONNECT
     then TriggerEvent FD_CONNECT (if e =? WSAEWOULDBLOCK then WSAECONNABORTED else e) true
     else TriggerEvent FD_ACCEPT e true);;
    Reset;; ClearBuffer.

Definition OnConnect_socks4 : ML unit :=
  w ← gets (fun w => w);
  if IsIPv6 (m_proxyPeerAddress w) then
    DoLayerCallback PROXYERROR_REQUESTFAILED WSAEAFNOSUPPORT LNone;;
    TriggerEvent FD_CONNECT WSAEAFNOSUPPORT true;; Reset
  else if m_nProxyPeerIP w =? 0 then
    match m_pProxyPeerHost w with
    | None => emit OFault
    | Some host => queue_first (socks4_request w host)
    end
  else queue_first (socks4_request w []).

Definition OnConnect_socks5 : ML unit :=
  d ← gets m_ProxyData;
  queue_first (greeting (bUseLogon d)).

Definition crlf : bytes := [13; 10].
Definition bracketed (v6 : bool) (host : bytes) (port : Z) : bytes :=
  (if v6 then [91] else []) ++ host ++ (if v6 then [93] else []) ++ [58] ++ itoa port.

(** The request text; [credentials] is the Base64 of "user:password". *)
Definition http_request (proxyType : Z) (v6 : bool) (host : bytes) (port : Z)
    (credentials : option bytes) : bytes :=
  let target := bracketed v6 host port in
  let http10 := proxyType =? PROXYTYPE_HTTP10 in
  ascii_bytes "CONNECT " ++ target ++
  ascii_bytes (if http10 then " HTTP/1.0" else " HTTP/1.1")%string ++ crlf ++
  (if http10 then [] else ascii_bytes "Host: " ++ target ++ crlf) ++
  match credentials with
  | None => if http10 then [] else ascii_bytes "Proxy-Connection: Keep-Alive" ++ crlf
  | Some c => ascii_bytes "Authorization: Basic " ++ c ++ crlf ++
              ascii_bytes "Proxy-Authorization: Basic " ++ c ++ crlf ++
              ascii_bytes "Proxy-Connection: Keep-Alive" ++ crlf
  end ++ crlf.

(** [_snprintf(szUserPass, 512, "%s:%s")] returns -1 when the text is longer,
    and [Encode] then encodes nothing. *)
Definition http_credentials (d : t_proxydata) : bytes :=
  let userPass := pd_strProxyUser d ++ [58] ++ pd_strProxyPass d in
  Encode (if snprintf_length 512 userPass <? 0 then [] else userPass).

Definition http_fail (err : Z) : ML unit :=
  fail_with PROXYERROR_REQUESTFAILED err LNone op_event_connect err;; Reset;; ClearBuffer.

(** [pszHost]: the name if there is one, else the address as text. *)
Definition http_host (w : world) : option bytes :=
  match m_pProxyPeerHost w with
  | Some ((_ :: _) as h) => Some h
  | _ => if IsIPv6 (m_proxyPeerAddress w)
         then ProxyInetNtopA6 (v6_bytes (m_proxyPeerAddress w))
         else Some (inet_ntoa (m_nProxyPeerIP w))
  end.

Definition OnConnect_http : ML unit :=
  w ← gets (fun w => w);
  let v6 := IsIPv6 (m_proxyPeerAddress w) in
  match http_host w with
  | None => http_fail WSAEINVAL
  | Some pszHost =>
      let d := m_ProxyData w in
      let req := http_request (nProxyType d) v6 pszHost (htons (m_nProxyPeerPort w))
                   (if bUseLogon d then Some (http_credentials d) else None) in
      let iHttpReqLen := snprintf_length 4096 req in
      if (iHttpReqLen <=? 0) || (4096 <=? iHttpReqLen) then http_fail WSAEINVAL
      else queue_first req
  end.

Definition OnConnect (nErrorCode : Z) : ML unit :=
  d ← gets m_ProxyData;
  if nProxyType d =? PROXYTYPE_NOPROXY then TriggerEvent FD_CONNECT nErrorCode true
  else
    id ← gets m_nProxyOpID;
    if id =? 0 then mret tt
    else if negb (nErrorCode =? 0) then
      let proxyError :=
        if nErrorCode =? PROXYLANE_SECURE_LOAD_FAILED then PROXYERROR_SECURE_UNAVAILABLE
        else if nErrorCode =? PROXYLANE_SECURE_HANDSHAKE_FAILED then PROXYERROR_SECURE_HANDSHAKE
        else PROXYERROR_NOCONN in
      fail_with proxyError nErrorCode LNone op_event nErrorCode;; Reset;; ClearBuffer
    else
      st ← gets m_nProxyOpState;
      if negb (st =? 0) then mret tt
      else
        ClearBuffer;;
        (if (nProxyType d =? PROXYTYPE_SOCKS4) || (nProxyType d =? PROXYTYPE_SOCKS4A) then
           OnConnect_socks4
         else if nProxyType d =? PROXYTYPE_SOCKS5 then OnConnect_socks5
         else if (nProxyType d =? PROXYTYPE_HTTP10) || (nProxyType d =? PROXYTYPE_HTTP11) then
           OnConnect_http
         else modify (fun w => set_m_nProxyOpState (m_nProxyOpState w + 1) w)).

(** ** Dispatch ([CAsyncSocketExLayer::CallEvent]) *)

Definition FD_FORCEREAD : Z := 32768.

Definition in_state (s : LayerState) (m : ML unit) : ML unit :=
  st ← gets m_nLayerState; when (bool_decide (st = s)) m.

Definition CallEvent (nEvent nErrorCode : Z) : ML unit :=
  crit ← gets m_nCriticalError;
  if negb (crit =? 0) then mret tt
  else
    modify (set_m_nCriticalError nErrorCode);;
    let bad := negb (nErrorCode =? 0) in
    if (nEvent =? FD_READ) || (nEvent =? FD_FORCEREAD) then
      in_state connected (when bad (SetLayerState aborted);; OnReceive nErrorCode)
    else if nEvent =? FD_WRITE then
      in_state connected (when bad (SetLayerState aborted);; OnSend nErrorCode)
    else if nEvent =? FD_CONNECT then
      in_state connecting
        (SetLayerState (if bad then aborted else connected);; OnConnect nErrorCode)
    else if nEvent =? FD_ACCEPT then
      in_state listening
        (SetLayerState (if bad then aborted else connected);; OnAccept nErrorCode)
    else if nEvent =? FD_CLOSE then
      in_state connected
        (SetLayerState (if bad then aborted else closed);; OnClose nErrorCode)
    else mret tt.

End Handlers.
