(* ===== verification/ProxyLayerUdp.v ===== *)
(** * The UDP side of the proxy socket layer

    [GetUdpProxyAddr] opens the control connection of a UDP ASSOCIATE,
    [SendTo] and [ReceiveFrom] wrap and unwrap datagrams, [WSASendTo] and
    [WSARecvFrom] are the scatter/gather variants (AsyncProxySocketLayer.cpp,
    from Bind on). *)

From S2P Require Import Prelude Winsock SockAddr Effects Socks5UdpCodec AutoBuffer ProxyLayer.

(** The datagram protection of CAsyncSecureSocketLayer (EncryptUdp and
    DecryptUdp call a library not under src/): whether a key is there, and the
    library's two functions with the output capacity. *)
Class SecureUdp := {
  HasUdpKey : bool;
  m_udpEncrypt : bytes -> Z -> option bytes;
  m_udpDecrypt : bytes -> Z -> option bytes
}.

Definition set_ab (get : world -> autoBuffer) (set : autoBuffer -> world -> world)
    (requiredSize : Z) : ML bool := fun w =>
  let '(ok, b) := checkBufferSize (u32 requiredSize) false [] (get w) in (ok, set b w).

(** The system's sendto and recvfrom on a datagram socket. *)
Definition sendto (packet : bytes) (dst : SOCKADDR_IN) : ML Z := fun w =>
  match tx w with
  | [] => (SOCKET_ERROR, set_lasterr WSAEWOULDBLOCK w)
  | TxBlock :: r => (SOCKET_ERROR, set_lasterr WSAEWOULDBLOCK (set_tx r w))
  | TxError e :: r => (SOCKET_ERROR, set_lasterr e (set_tx r w))
  | TxAccept _ :: r =>
      (Z.of_nat (length packet), set_out (out w ++ [OSendTo packet dst]) (set_tx r w))
  end.

Definition recvfrom (capacity : Z) : ML (option (SOCKADDR_IN * bytes)) := fun w =>
  match drx w with
  | [] => (None, set_lasterr WSAEWOULDBLOCK w)
  | (from, packet) :: r =>
      if capacity <? Z.of_nat (length packet)
      then (None, set_lasterr WSAEMSGSIZE (set_drx r w))
      else (Some (from, packet), set_drx r w)
  end.

Section Udp.
Context {platform : Platform} {secure : SecureUdp} {text : AddressText}.

Definition SetUdpLocalAddr (pName : SOCKADDR_IN) : ML unit := modify (set_m_udpcltAddr pName).
Definition GetUdpLocalAddr : ML SOCKADDR_IN := gets m_udpcltAddr.

(** The outcomes of the socket object's calls: AddLayer for this layer, the
    secure layer's Configure with its AddLayer, and Create. *)
Definition GetUdpProxyAddr (addThis addSecure create : bool) : ML bool :=
  d ← gets m_ProxyData;
  if nProxyType d =? PROXYTYPE_SOCKS5 then
    modify (set_m_pS5UC PLive);;
    if negb addThis then modify (set_m_pS5UC PDangling);; mret false
    else
      psk ← gets m_securePsk;
      let secured := negb (bool_decide (psk = [])) in
      if secured && negb addSecure then
        modify (set_m_pSecureLayer PNull);; modify (set_m_pS5UC PNull);; mret false
      else
        when secured (modify (set_m_pSecureLayer PLive));;
        if negb create then modify (set_m_pS5UC PDangling);; mret false
        else
          modify (set_m_nProxyOpID PROXYOP_UDPASSOCIATE);;
          res ← ConnectNextHost (pd_strProxyHost d) (pd_nProxyPort d);
          e ← WSAGetLastError;
          if negb res && negb (e =? WSAEWOULDBLOCK) then
            DoLayerCallback PROXYERROR_NOCONN e LNone;; mret false
          else modify (set_m_nProxyOpID PROXYOP_UDPASSOCIATE);; mret true
  else
    DoLayerCallback PROXYERROR_REQUESTFAILED 0 LNone;;
    WSASetLastError WSAEINVAL;; mret false.

(** [Bind]: the results of BindNext, of the socket type query and of
    getsockname, then the association. *)
Definition Bind (bindNext : bool) (sockType : Z) (sockname : option SOCKADDR_IN)
    (addThis addSecure create : bool) : ML bool :=
  if negb bindNext then mret false
  else if negb (sockType =? SOCK_DGRAM) then mret true
  else
    d ← gets m_ProxyData;
    if negb (nProxyType d =? PROXYTYPE_SOCKS5) then mret true
    else
      match sockname with
      | None => mret false
      | Some a =>
          modify (set_m_udpcltAddr a);;
          GetUdpProxyAddr addThis addSecure create
      end.

Definition fail_int (e : Z) : ML Z := WSASetLastError e;; mret SOCKET_ERROR.

(** The second half of both [SendTo]: protect the packet if there is a secure
    layer, send it to the relay, report the payload length. *)
Definition send_packet (packet : bytes) (nBufLen : Z) : ML Z :=
  s ← gets m_pSecureLayer;
  wire ← match s with
         | PNull => mret (Some packet)
         | _ =>
             if negb HasUdpKey then mret None
             else
               let capacity := Z.of_nat (length packet) + 16 in
               ok ← set_ab m_secureUdpBuffer set_m_secureUdpBuffer capacity;
               mret (if (ok : bool) then m_udpEncrypt packet capacity else None)
         end;
  match wire with
  | None => fail_int WSAEPROTONOSUPPORT
  | Some wirePacket =>
      dst ← gets m_udpsrvAddr;
      nBytesSent ← sendto wirePacket dst;
      mret (if nBytesSent =? Z.of_nat (length wirePacket) then nBufLen else nBytesSent)
  end.

Definition SendToAddr (lpBuf : option bytes) (nBufLen : Z) (lpSockAddr : option _SockAddr)
    (nSockAddrLen : Z) : ML Z :=
  id ← gets m_nProxyOpID;
  if negb (id =? 0) then fail_int WSAEWOULDBLOCK
  else
    match lpSockAddr with
    | None => fail_int WSAEAFNOSUPPORT
    | Some a =>
        let v6 := sa_family a =? AF_INET6 in
        if (negb (sa_family a =? AF_INET) && negb v6)
           || (nSockAddrLen <? (if v6 then sizeof_SOCKADDR_IN6 else sizeof_SOCKADDR_IN)) then
          fail_int WSAEAFNOSUPPORT
        else
          let headerLength := if v6 then 22 else 10 in
          if (nBufLen <? 0) || (65507 - headerLength <? nBufLen) then fail_int WSAEMSGSIZE
          else
            ok ← set_ab m_udpBuffer set_m_udpBuffer (nBufLen + MAX_HEADER_SIZE);
            if negb ok then fail_int ERROR_NOT_ENOUGH_MEMORY
            else
              match (if v6
                     then EncodeIPv6 true (nBufLen + MAX_HEADER_SIZE) (Some (as_in6 a)) lpBuf nBufLen
                     else EncodeIPv4 true (nBufLen + MAX_HEADER_SIZE) (Some (as_in a)) lpBuf nBufLen)
              with
              | Refused => fail_int WSAEINVAL
              | Wrote packet => send_packet packet nBufLen
              | Overran => emit OFault;; mret SOCKET_ERROR
              end
    end.

Definition SendToHost (lpBuf : option bytes) (nBufLen nHostPort : Z) (lpszHostAddress : bytes)
    : ML Z :=
  id ← gets m_nProxyOpID;
  if negb (id =? 0) then fail_int WSAEWOULDBLOCK
  else if negb (inet_addr lpszHostAddress =? INADDR_NONE) then
    let raw := mkSockAddr AF_INET 0 uninit_sockaddr in
    let dstAddr := default raw (SetIP ProxyInetPtonA lpszHostAddress raw) in
    SendToAddr lpBuf nBufLen (Some (SetPort (u16 nHostPort) dstAddr)) sizeof_SOCKADDR_IN6
  else
    let hostLength := Z.of_nat (length lpszHostAddress) in
    if (hostLength <=? 0) || (255 <? hostLength) || (nBufLen <? 0)
       || (65507 - (7 + hostLength) <? nBufLen) then fail_int WSAEMSGSIZE
    else
      ok ← set_ab m_udpBuffer set_m_udpBuffer (nBufLen + MAX_HEADER_SIZE);
      if negb ok then fail_int ERROR_NOT_ENOUGH_MEMORY
      else
        match EncodeDomain true (nBufLen + MAX_HEADER_SIZE) (Some lpszHostAddress) (u16 nHostPort)
                lpBuf nBufLen with
        | Refused => fail_int WSAEINVAL
        | Wrote packet => send_packet packet nBufLen
        | Overran => emit OFault;; mret SOCKET_ERROR
        end.

(** What [ReceiveFrom] hands out: the payload and, if asked, the source. *)
Inductive from_addr := FromNone | From4 (a : SOCKADDR_IN) | From6 (a : SOCKADDR_IN6).

Definition fail_from (e : Z) : ML (Z * bytes * from_addr) :=
  WSASetLastError e;; mret (SOCKET_ERROR, [], FromNone).

(** [lpSockAddrLen] is [None] when the caller passes a null pointer. *)
Definition deliver (decoded : DecodedPacket) (nBufLen : Z) (lpSockAddrLen : option Z)
    : ML (Z * bytes * from_addr) :=
  if nBufLen <? payloadLength decoded then fail_from WSAEMSGSIZE
  else
    match lpSockAddrLen with
    | None => mret (payloadLength decoded, payload decoded, FromNone)
    | Some len =>
        if len <? sourceLength decoded then
          WSASetLastError WSAEFAULT;; mret (SOCKET_ERROR, payload decoded, FromNone)
        else
          mret (payloadLength decoded, payload decoded,
                if sourceLength decoded =? sizeof_SOCKADDR_IN6 then From6 (source6 decoded)
                else From4 (source decoded))
    end.

Definition ReceiveFrom (nBufLen : Z) (lpSockAddrLen : option Z) : ML (Z * bytes * from_addr) :=
  id ← gets m_nProxyOpID;
  if negb (id =? 0) then fail_from WSAEWOULDBLOCK
  else
    s ← gets m_pSecureLayer;
    let secured := match s with PNull => false | _ => true end in
    let plainCapacity := nBufLen + MAX_HEADER_SIZE in
    let wireCapacity := plainCapacity + (if secured then 16 else 0) in
    ok1 ← set_ab m_udpBuffer set_m_udpBuffer plainCapacity;
    ok2 ← (if (ok1 : bool) && secured
           then set_ab m_secureUdpBuffer set_m_secureUdpBuffer wireCapacity else mret ok1);
    if negb ok2 then fail_from ERROR_NOT_ENOUGH_MEMORY
    else
      r ← recvfrom wireCapacity;
      match r with
      | None => mret (SOCKET_ERROR, [], FromNone)
      | Some (relayAddress, packet) =>
          srv ← gets m_udpsrvAddr;
          if negb (sin_family relayAddress =? AF_INET)
             || negb (sin_addr relayAddress =? sin_addr srv)
             || negb (sin_port relayAddress =? sin_port srv) then fail_from WSAEACCES
          else
            match (if secured
                   then if negb HasUdpKey then None else m_udpDecrypt packet plainCapacity
                   else Some packet) with
            | None => fail_from WSAEPROTONOSUPPORT
            | Some plain =>
                match Decode plain with
                | None => fail_from WSAEPROTONOSUPPORT
                | Some decoded => deliver decoded nBufLen lpSockAddrLen
                end
            end
      end.

(** ** Scatter and gather

    At most 31 buffers follow the header; the datagram is their concatenation. *)
Definition wsabufs (hdr : bytes) (lpBuffers : list bytes) : bytes :=
  hdr ++ concat (take 31 lpBuffers).

(** WSASendToNext with the count it reports; the header is taken off it. *)
Definition wsa_send (hdr : bytes) (lpBuffers : list bytes) : ML (Z * Z) :=
  dst ← gets m_udpsrvAddr;
  n ← sendto (wsabufs hdr lpBuffers) dst;
  if n =? SOCKET_ERROR then mret (SOCKET_ERROR, 0)
  else
    let nBufLenAdded := Z.of_nat (length hdr) in
    mret (0, if nBufLenAdded <=? n then n - nBufLenAdded else n).

Definition WSASendToAddr (lpBuffers : list bytes) (lpTo : SOCKADDR_IN) : ML (Z * Z) :=
  id ← gets m_nProxyOpID;
  if negb (id =? 0) then WSASetLastError WSAEWOULDBLOCK;; mret (SOCKET_ERROR, 0)
  else wsa_send ([0; 0; 0; 1] ++ le_split 4 (sin_addr lpTo) ++ le_split 2 (sin_port lpTo)) lpBuffers.

(** The header array has 0xff + 4 bytes; nothing bounds the name. *)
Definition WSA_HDR_SIZE : Z := 259.

Definition WSASendToHost (lpBuffers : list bytes) (nHostPort : Z) (lpszHostAddress : bytes)
    : ML (Z * Z) :=
  id ← gets m_nProxyOpID;
  if negb (id =? 0) then WSASetLastError WSAEWOULDBLOCK;; mret (SOCKET_ERROR, 0)
  else if negb (inet_addr lpszHostAddress =? INADDR_NONE) then
    let raw := mkSockAddr AF_INET 0 uninit_sockaddr in
    let dstAddr := default raw (SetIP ProxyInetPtonA lpszHostAddress raw) in
    WSASendToAddr lpBuffers (as_in (SetPort (u16 nHostPort) dstAddr))
  else
    let hdr := [0; 0; 0; 3; u8 (Z.of_nat (length lpszHostAddress))] ++ lpszHostAddress
               ++ le_split 2 (htons nHostPort) in
    when (WSA_HDR_SIZE <? Z.of_nat (length hdr)) (emit OFault);;
    wsa_send hdr lpBuffers.

(** The first ten bytes go to a header array, the rest to the caller's buffers
    [caps]; nothing looks at the sender or at the address type. *)
Definition WSARecvFrom (caps : list Z) : ML (Z * Z * option SOCKADDR_IN * bytes) :=
  id ← gets m_nProxyOpID;
  if negb (id =? 0) then WSASetLastError WSAEWOULDBLOCK;; mret (SOCKET_ERROR, 0, None, [])
  else
    r ← recvfrom (10 + fold_right Z.add 0 (take 31 caps));
    mret (match r with
          | None => (SOCKET_ERROR, 0, None, [])
          | Some (from, packet) =>
              let n := Z.of_nat (length packet) in
              if 10 <=? n then
                (0, n - 10, Some (mkSOCKADDR_IN AF_INET (le_join (slice 8 2 packet))
                                    (le_join (slice 4 4 packet))), drop 10 packet)
              else (0, n, Some from, [])
          end).

End Udp.
