(* ===== verification/ProxyLayerRules.v ===== *)
(** * Rules for the proxy layer

    Normal forms and rules for the primitives of ProxyLayer.v (posting an
    event, flushing a request, receiving into a buffer), the layer's invariant
    [wf_layer], and the counts of outputs the safety theorem speaks of. *)

From S2P Require Import Prelude Winsock SockAddr Effects Socks5UdpCodec ProxyLayer.

(** ** Normal forms of the primitives *)

(** The outputs and the state of a posted event. *)
Definition state_after (lEvent err : Z) (s : LayerState) : LayerState :=
  if negb (Z.land lEvent FD_CONNECT =? 0) then if err =? 0 then s else aborted
  else if negb (Z.land lEvent FD_CLOSE =? 0) then if err =? 0 then closed else aborted
  else s.

Definition crit_after (lEvent err c : Z) : Z :=
  if negb (Z.land lEvent FD_CONNECT =? 0) || negb (Z.land lEvent FD_CLOSE =? 0)
  then if err =? 0 then c else err else c.

Definition state_out (new old : LayerState) : list output :=
  if bool_decide (old = new) then [] else [OState new old].

Definition trig_out (valid : bool) (lEvent err : Z) (pass : bool) (s : LayerState)
    : list output :=
  if valid then state_out (state_after lEvent err s) s ++ [OTrigger (Z.land lEvent 65535) err pass]
  else [].

Definition triggered (lEvent err : Z) (pass : bool) (w : world) : world :=
  set_out (out w ++ trig_out (hSocketValid w) lEvent err pass (m_nLayerState w))
    (set_m_nCriticalError
       (if hSocketValid w then crit_after lEvent err (m_nCriticalError w) else m_nCriticalError w)
      (set_m_nLayerState
         (if hSocketValid w then state_after lEvent err (m_nLayerState w) else m_nLayerState w) w)).

Lemma exec_SetLayerState s w :
  SetLayerState s w
  = (tt, set_out (out w ++ state_out s (m_nLayerState w)) (set_m_nLayerState s w)).
Proof.
  unfold SetLayerState, state_out, when, gets, modify, emit, mbind, M_bind, mret, M_ret.
  destruct (bool_decide (m_nLayerState w = s)) eqn:E; cbn [negb].
  - destruct w; cbn in *. unfold set_out, set_m_nLayerState; cbn. by rewrite app_nil_r.
  - reflexivity.
Qed.

Lemma exec_TriggerEvent lEvent err pass w :
  TriggerEvent lEvent err pass w = (tt, triggered lEvent err pass w).
Proof.
  unfold TriggerEvent, triggered, trig_out, mbind, M_bind, gets.
  destruct (hSocketValid w) eqn:Ev.
  2: { cbn [when]. unfold mret, M_ret. destruct w. unfold set_out, set_m_nCriticalError,
       set_m_nLayerState. cbn. by rewrite app_nil_r. }
  unfold state_after, crit_after. cbn [when].
  destruct (negb (Z.land lEvent FD_CONNECT =? 0)) eqn:E1; cbn [orb andb].
  - destruct (err =? 0) eqn:E0; cbn [negb when].
    + unfold mret, M_ret, state_out, emit, modify. rewrite bool_decide_true by done.
      destruct w; reflexivity.
    + unfold mbind, M_bind. rewrite exec_SetLayerState. unfold modify, emit. cbn.
      unfold set_out; cbn. by rewrite app_assoc.
  - destruct (negb (Z.land lEvent FD_CLOSE =? 0)) eqn:E2; cbn [andb].
    + destruct (err =? 0) eqn:E0; cbn [negb when].
      * rewrite exec_SetLayerState. unfold emit, modify; cbn. unfold set_out; cbn.
        by rewrite app_assoc.
      * unfold mbind, M_bind. rewrite exec_SetLayerState. unfold modify, emit. cbn.
        unfold set_out; cbn. by rewrite app_assoc.
    + unfold mret, M_ret, state_out, emit, modify, when. rewrite bool_decide_true by done.
      destruct w; reflexivity.
Qed.

(** What a flush changes: the send buffer, the script, the last error, and
    bytes on the wire. *)
Definition flushed (sb : option (bytes * Z)) (t : list tx_event) (e : Z) (o : list output)
    (w : world) : world :=
  set_m_pSendBuffer sb (set_tx t (set_lasterr e (set_out (out w ++ o) w))).

Lemma flushed_same w : flushed (m_pSendBuffer w) (tx w) (lasterr w) [] w = w.
Proof. unfold flushed. rewrite app_nil_r. by destruct w. Qed.

Lemma flushed_lasterr e w : flushed (m_pSendBuffer w) (tx w) e [] w = set_lasterr e w.
Proof. unfold flushed. rewrite app_nil_r. by destruct w. Qed.

(** Compute the fields of an updated state. *)
Ltac layer_simpl :=
  cbn [
    m_nLayerState m_nCriticalError hSocketValid m_nProxyOpID m_nProxyOpState m_pRecvBuffer
    m_pStrBuffer m_pSendBuffer m_pAppRecvBuffer m_nProxyPeerPort m_nProxyPeerIP
    m_proxyPeerAddress m_pProxyPeerHost m_ProxyData m_pS5UC m_udpcltAddr m_udpsrvAddr
    m_udpBuffer m_secureUdpBuffer m_securePsk m_pSecureLayer rx tx drx conns peername
    heap_ok lasterr out set_m_nLayerState set_m_nCriticalError set_hSocketValid
    set_m_nProxyOpID set_m_nProxyOpState set_m_pRecvBuffer set_m_pStrBuffer
    set_m_pSendBuffer set_m_pAppRecvBuffer set_m_nProxyPeerPort set_m_nProxyPeerIP
    set_m_proxyPeerAddress set_m_pProxyPeerHost set_m_ProxyData set_m_pS5UC
    set_m_udpcltAddr set_m_udpsrvAddr set_m_udpBuffer set_m_secureUdpBuffer
    set_m_securePsk set_m_pSecureLayer set_rx set_tx set_drx set_conns set_peername
    set_heap_ok set_lasterr set_out flushed triggered
  ] in *.

Definition sent_bytes (o : list output) : bytes :=
  o ≫= (fun x => match x with OSend d => d | _ => [] end).

Definition only_sends (o : list output) : Prop :=
  Forall (fun x => match x with OSend _ => True | _ => False end) o.

Lemma sent_bytes_app a b : sent_bytes (a ++ b) = sent_bytes a ++ sent_bytes b.
Proof. unfold sent_bytes. apply bind_app. Qed.

Definition send_pos_ok (data : bytes) (pos : Z) : Prop := 0 <= pos <= Z.of_nat (length data).

(** One [SendNext]: an error with the last error set, or some bytes. *)
Lemma SendNext_cases lpBuf w :
  exists r t e o,
    SendNext lpBuf w = (r, set_tx t (set_lasterr e (set_out (out w ++ o) w))) /\
    only_sends o /\
    (r = SOCKET_ERROR /\ o = [] \/
     0 <= r <= Z.of_nat (length lpBuf) /\ sent_bytes o = take (Z.to_nat r) lpBuf).
Proof.
  unfold SendNext, mbind, M_bind, gets. destruct (next_error w) as [e|].
  - exists SOCKET_ERROR, (tx w), e, []. split; [|split; [constructor|by left]].
    rewrite app_nil_r. by destruct w.
  - unfold send. destruct (tx w) as [|[k| |e] r] eqn:Et.
    + exists SOCKET_ERROR, (tx w), WSAEWOULDBLOCK, []. split; [|split; [constructor|by left]].
      rewrite app_nil_r. by destruct w.
    + exists (Z.of_nat (length (take (Z.to_nat k) lpBuf))), r, (lasterr w),
        [OSend (take (Z.to_nat k) lpBuf)]. split; [by destruct w|].
      split; [by repeat constructor|]. right. split; [rewrite length_take; lia|].
      unfold sent_bytes. cbn. by rewrite app_nil_r, Nat2Z.id, take_length_take.
    + exists SOCKET_ERROR, r, WSAEWOULDBLOCK, []. split; [|split; [constructor|by left]].
      rewrite app_nil_r. by destruct w.
    + exists SOCKET_ERROR, r, e, []. split; [|split; [constructor|by left]].
      rewrite app_nil_r. by destruct w.
Qed.

Definition flush_result (data : bytes) (pos : Z) (ok : bool) (sb : option (bytes * Z)) (e : Z)
    (o : list output) : Prop :=
  match ok with
  | true => exists pos', sb = Some (data, pos') /\ pos <= pos' <= Z.of_nat (length data) /\
      sent_bytes o = take (Z.to_nat (pos' - pos)) (drop (Z.to_nat pos) data) /\
      (pos' = Z.of_nat (length data) \/ e = WSAEWOULDBLOCK)
  | false => sb = None /\ exists n, sent_bytes o = take n (drop (Z.to_nat pos) data)
  end.

Lemma flush_stay data pos e :
  pos <= Z.of_nat (length data) -> (pos = Z.of_nat (length data) \/ e = WSAEWOULDBLOCK) ->
  flush_result data pos true (Some (data, pos)) e [].
Proof.
  intros. exists pos. split; [done|]. split; [lia|]. split; [|done]. by rewrite Z.sub_diag.
Qed.

Lemma flush_done data pos w :
  m_pSendBuffer w = Some (data, pos) -> pos = Z.of_nat (length data) ->
  exists ok sb t e o, (true, w) = (ok, flushed sb t e o w) /\ only_sends o /\
    flush_result data pos ok sb e o.
Proof.
  intros Hb Hp. exists true, (Some (data, pos)), (tx w), (lasterr w), [].
  split; [|split; [apply Forall_nil_2|apply flush_stay; [lia|by left]]].
  by rewrite <- Hb, flushed_same.
Qed.

(** A flush sends a prefix of what is left, in order; it stops with everything
    sent, or would block, or fails and drops the request. *)
Lemma flush_loop_spec fuel data pos w :
  m_pSendBuffer w = Some (data, pos) -> send_pos_ok data pos ->
  (length data - Z.to_nat pos <= fuel)%nat ->
  exists ok sb t e o,
    flush_loop fuel w = (ok, flushed sb t e o w) /\ only_sends o /\
    flush_result data pos ok sb e o.
Proof.
  revert pos w. induction fuel as [|fuel IH]; intros pos w Hb Hp Hf;
    cbn [flush_loop]; unfold mbind, M_bind, gets; rewrite Hb;
    unfold send_pos_ok in Hp;
    destruct (Z.leb_spec (Z.of_nat (length data)) pos) as [Hle|Hgt]; try lia.
  1,2: by apply flush_done; [|lia].
  destruct (SendNext_cases (drop (Z.to_nat pos) data) w) as (r & t & e & o & E & Ho & Hr).
  rewrite E. destruct Hr as [[-> ->]|[Hr Hs]].
  - rewrite Z.eqb_refl. cbn [lasterr set_tx set_lasterr]. cbn.
    destruct (e =? WSAEWOULDBLOCK) eqn:Ee.
    + exists true, (Some (data, pos)), t, e, []. split; [destruct w; cbn in *; by subst|].
      split; [apply Forall_nil_2|]. bool_hyps. apply flush_stay; [lia|by right].
    + exists false, None, t, e, []. split; [by destruct w|]. split; [apply Forall_nil_2|].
      split; [done|]. by exists O.
  - destruct (Z.eqb_spec r SOCKET_ERROR); [unfold SOCKET_ERROR in *; lia|].
    destruct (Z.leb_spec r 0).
    + assert (r = 0) as -> by lia. cbn in Hs.
      exists false, None, t, WSAECONNRESET, o. split; [by destruct w|]. split; [done|].
      split; [done|]. by exists O.
    + unfold modify. set (w1 := set_m_pSendBuffer _ _).
      rewrite length_drop in Hr.
      destruct (IH (pos + r) w1) as (ok & sb & t' & e' & o' & E' & Ho' & H');
        [done|unfold send_pos_ok; lia|lia|].
      exists ok, sb, t', e', (o ++ o'). split.
      { rewrite E'. f_equal. unfold flushed, w1. destruct w; cbn. by rewrite app_assoc. }
      split; [by apply Forall_app|].
      assert (Hd : drop (Z.to_nat (pos + r)) data = drop (Z.to_nat r) (drop (Z.to_nat pos) data)).
      { rewrite drop_drop. f_equal. lia. }
      destruct ok.
      * destruct H' as (pos' & -> & Hpos & Hs' & Hend). exists pos'.
        split_and!; try done; try lia. rewrite sent_bytes_app, Hs, Hs', Hd.
        rewrite <- (take_drop (Z.to_nat r) (take (Z.to_nat (pos' - pos)) _)).
        rewrite take_take, skipn_firstn_comm. f_equal; f_equal; lia.
      * destruct H' as (-> & n' & Hs'). split; [done|]. exists (Z.to_nat r + n')%nat.
        rewrite sent_bytes_app, Hs, Hs', Hd.
        rewrite <- (take_drop (Z.to_nat r) (take (Z.to_nat r + n') _)).
        rewrite take_take, skipn_firstn_comm. f_equal; f_equal; lia.
Qed.

(** ** The invariant *)

Definition is_socks4 (t : Z) : bool := (t =? PROXYTYPE_SOCKS4) || (t =? PROXYTYPE_SOCKS4A).

(** While an operation is pending, the receive buffer has the size of the
    reply it waits for and is not full. *)
Definition recv_ok (type st : Z) (buf : option (Z * bytes)) : Prop :=
  match buf with
  | None => True
  | Some (size, data) =>
      bytes_ok data /\
      (st <> 0 -> is_socks4 type = true -> size = 8 /\ Z.of_nat (length data) < 8) /\
      (type = PROXYTYPE_SOCKS5 -> st = 1 \/ st = 2 -> size = 2 /\ Z.of_nat (length data) < 2) /\
      (type = PROXYTYPE_SOCKS5 -> st = 3 \/ st = 4 ->
       size = MAX_HEADER_SIZE /\ Z.of_nat (length data) < socks5_length data)
  end.

Definition send_ok (b : option (bytes * Z)) : Prop :=
  match b with None => True | Some (data, pos) => 0 <= pos < Z.of_nat (length data) end.

Definition rx_ok (r : list rx_event) : Prop :=
  Forall (fun e => match e with RxData b => bytes_ok b | _ => True end) r.

(** Everything but the receive buffer, which is full for a moment. *)
Record wf_core (w : world) : Prop := {
  wf_id : 0 <= m_nProxyOpID w <= 3;
  wf_state : 0 <= m_nProxyOpState w <= 4;
  wf_idle : m_nProxyOpID w = 0 -> m_nProxyOpState w = 0;
  wf_busy : m_nProxyOpID w <> 0 ->
    nProxyType (m_ProxyData w) <> PROXYTYPE_NOPROXY /\ m_nLayerState w <> listening;
  wf_host : m_nProxyOpID w <> 0 -> is_socks4 (nProxyType (m_ProxyData w)) = true ->
    m_nProxyPeerIP w = 0 -> IsIPv6 (m_proxyPeerAddress w) = false -> m_pProxyPeerHost w <> None;
  wf_str : (length (m_pStrBuffer w) <= 4096)%nat;
  wf_send : send_ok (m_pSendBuffer w);
  wf_app : send_ok (m_pAppRecvBuffer w);
  wf_rx : rx_ok (rx w)
}.

Definition wf_recv (w : world) : Prop :=
  recv_ok (nProxyType (m_ProxyData w)) (m_nProxyOpState w) (m_pRecvBuffer w).

Definition wf_layer (w : world) : Prop := wf_core w /\ wf_recv w.

(** ** Counting outputs *)

Fixpoint count (f : output -> bool) (o : list output) : Z :=
  match o with [] => 0 | x :: o => (if f x then 1 else 0) + count f o end.

(** The texts the status scan can run out of: [HTTP/] with nothing but
    numbers, dots and blanks behind it, header end and body included. *)
Definition status_char (c : Z) : bool :=
  isspace c || isdigit c || (c =? 43) || (c =? 45) || (c =? 46).
Definition overrun_text (text : bytes) : bool :=
  bool_decide (take 5 text = ascii_bytes "HTTP/") && forallb status_char (drop 5 text).

Definition is_fault (x : output) : bool :=
  match x with OFault => true | OPast text => negb (overrun_text text) | _ => false end.

(** A terminal event: FD_CONNECT or FD_ACCEPT posted to the previous layer. *)
Definition is_terminal (x : output) : bool :=
  match x with OTrigger ev _ _ => (ev =? FD_CONNECT) || (ev =? FD_ACCEPT) | _ => false end.

Definition faults := count is_fault.
Definition terminals := count is_terminal.

Lemma count_app f a b : count f (a ++ b) = count f a + count f b.
Proof. induction a; simpl; lia. Qed.

Lemma count_zero f o : Forall (fun x => f x = false) o -> count f o = 0.
Proof. induction 1 as [|x o Hx Ho IH]; simpl; [done|]. rewrite Hx. lia. Qed.

Lemma count_only_sends f o : (forall d, f (OSend d) = false) -> only_sends o -> count f o = 0.
Proof.
  intros Hf Ho. apply count_zero. eapply Forall_impl; [exact Ho|]. by intros [].
Qed.

Lemma count_state_out f a b : (forall x y, f (OState x y) = false) -> count f (state_out a b) = 0.
Proof. intros Hf. unfold state_out. case_bool_decide; simpl; [done|]. by rewrite Hf. Qed.

(** What every event and call guarantees. *)
Definition step_ok (w w' : world) : Prop :=
  wf_layer w' /\ hSocketValid w' = hSocketValid w /\
  faults (out w') = faults (out w) /\
  (m_nProxyOpID w <> 0 -> hSocketValid w = true ->
   terminals (out w') = terminals (out w) + (if m_nProxyOpID w' =? 0 then 1 else 0)).

(** ** Rules for the primitives *)

Lemma wp_TriggerEvent ev e p Q w : Q tt (triggered ev e p w) -> wp (TriggerEvent ev e p) Q w.
Proof. unfold wp. by rewrite exec_TriggerEvent. Qed.

Lemma wp_SetLayerState s Q w :
  Q tt (set_out (out w ++ state_out s (m_nLayerState w)) (set_m_nLayerState s w)) ->
  wp (SetLayerState s) Q w.
Proof. unfold wp. by rewrite exec_SetLayerState. Qed.

Lemma wp_FlushProxyRequest Q w :
  send_ok (m_pSendBuffer w) ->
  (forall ok sb t e o, only_sends o -> send_ok sb -> Q ok (flushed sb t e o w)) ->
  wp FlushProxyRequest Q w.
Proof.
  intros Hs HQ. unfold FlushProxyRequest. apply wp_bind, wp_gets.
  destruct (m_pSendBuffer w) as [[data pos]|] eqn:Hb.
  - cbn in Hs. destruct (flush_loop_spec (flush_fuel w) data pos w) as
      (ok & sb & t & e & o & E & Ho & Hr); [done|unfold send_pos_ok; lia|
      unfold flush_fuel; rewrite Hb; lia|].
    apply wp_bind. unfold wp at 1. rewrite E. destruct ok; cbn in Hr.
    + destruct Hr as (pos' & -> & Hp & _ & _).
      apply wp_bind, wp_gets. cbn [m_pSendBuffer flushed set_m_pSendBuffer].
      apply wp_bind, wp_when; intros Hc.
      * apply wp_modify, wp_ret. apply (HQ true None t e o Ho I).
      * apply wp_ret. bool_hyps. apply (HQ true (Some (data, pos')) t e o Ho). cbn. lia.
    + destruct Hr as [-> _]. apply wp_ret. by apply HQ.
  - apply wp_bind. unfold flush_fuel. rewrite Hb. cbn [flush_loop].
    apply wp_bind, wp_gets. rewrite Hb. apply wp_ret.
    apply wp_bind, wp_gets. rewrite Hb. apply wp_bind, wp_ret, wp_ret.
    rewrite <- (flushed_same w), Hb. apply HQ; [apply Forall_nil_2|done].
Qed.

Lemma wp_QueueProxyRequest data n Q w :
  send_ok (m_pSendBuffer w) -> n <= Z.of_nat (length data) ->
  (forall ok sb t e o, only_sends o -> send_ok sb -> Q ok (flushed sb t e o w)) ->
  wp (QueueProxyRequest data n) Q w.
Proof.
  intros Hs Hn HQ. unfold QueueProxyRequest. apply wp_bind, wp_gets.
  assert (Hf : forall e, wp (WSASetLastError e;; mret false) Q w).
  { intros e. apply wp_bind, wp_modify, wp_ret.
    rewrite <- (flushed_lasterr e w). apply HQ; [apply Forall_nil_2|done]. }
  apply wp_if; [intros _; apply Hf|]. intros Hc. bool_hyps.
  apply wp_bind, wp_gets, wp_if; [intros _; apply Hf|]. intros _.
  apply wp_bind, wp_modify, wp_FlushProxyRequest.
  - cbn. rewrite length_take. lia.
  - intros ok sb t e o Ho Hsb. apply (HQ ok sb t e o Ho Hsb).
Qed.

Lemma wp_ReceiveNext size pos n Q w :
  0 < n -> pos + n <= size -> rx_ok (rx w) ->
  (forall r e, rx_ok r -> Q (SOCKET_ERROR, []) (set_rx r (set_lasterr e w))) ->
  (forall r got, rx_ok r -> bytes_ok got -> Z.of_nat (length got) <= n ->
     Q (Z.of_nat (length got), got) (set_rx r w)) ->
  wp (ReceiveNext size pos n) Q w.
Proof.
  intros Hn Hp Hrx He Hd. unfold ReceiveNext. apply wp_bind, wp_gets.
  destruct (next_error w) as [e|].
  { apply wp_bind, wp_modify, wp_ret. specialize (He (rx w) e Hrx). by destruct w. }
  apply wp_bind. rewrite (proj2 (Z.ltb_lt _ _) Hn), (proj2 (Z.leb_le _ _) Hp).
  apply wp_ret. unfold wp, recv. destruct (rx w) as [|[b| |e|] r] eqn:Er.
  - specialize (He [] WSAEWOULDBLOCK Hrx). destruct w; cbn in *; by subst.
  - unfold rx_ok in Hrx. rewrite Forall_cons in Hrx. destruct Hrx as [Hb Hr].
    apply Hd.
    + destruct (drop (Z.to_nat n) b) eqn:E; [done|]. apply Forall_cons. split; [|done].
      rewrite <- E. by apply Forall_drop.
    + by apply Forall_take.
    + rewrite length_take. lia.
  - unfold rx_ok in Hrx. rewrite Forall_cons in Hrx. apply (He r WSAEWOULDBLOCK), Hrx.
  - unfold rx_ok in Hrx. rewrite Forall_cons in Hrx. apply (He r e), Hrx.
  - specialize (Hd (RxEof :: r) []). rewrite <- Er in Hd. 
    replace w with (set_rx (rx w) w) by (by destruct w). apply Hd; [by rewrite Er|constructor|simpl; lia].
Qed.

(** ** The counts of the primitives' outputs *)

Lemma faults_trig v ev e p s : faults (trig_out v ev e p s) = 0.
Proof.
  unfold trig_out, faults. destruct v; [|done]. by rewrite count_app, count_state_out.
Qed.

Lemma faults_state a b : faults (state_out a b) = 0.
Proof. by apply count_state_out. Qed.
Lemma terminals_state a b : terminals (state_out a b) = 0.
Proof. by apply count_state_out. Qed.

Definition terminal_event (ev : Z) : bool :=
  (Z.land ev 65535 =? FD_CONNECT) || (Z.land ev 65535 =? FD_ACCEPT).

Lemma terminals_trig ev e p s :
  terminals (trig_out true ev e p s) = if terminal_event ev then 1 else 0.
Proof.
  unfold trig_out, terminals. rewrite count_app, count_state_out by done. cbn.
  unfold terminal_event. destruct (_ || _); lia.
Qed.

Lemma op_event_terminal id : terminal_event (op_event id) = true.
Proof. unfold op_event. by destruct (_ || _). Qed.
Lemma op_event_connect_terminal id : terminal_event (op_event_connect id) = true.
Proof. unfold op_event_connect. by destruct (_ =? _). Qed.

Lemma terminal_READ : terminal_event FD_READ = false. Proof. done. Qed.
Lemma terminal_WRITE : terminal_event FD_WRITE = false. Proof. done. Qed.
Lemma terminal_CLOSE : terminal_event FD_CLOSE = false. Proof. done. Qed.
Lemma terminal_CONNECT : terminal_event FD_CONNECT = true. Proof. done. Qed.
Lemma terminal_ACCEPT : terminal_event FD_ACCEPT = true. Proof. done. Qed.

Lemma faults_sends o : only_sends o -> faults o = 0.
Proof. by apply count_only_sends. Qed.
Lemma terminals_sends o : only_sends o -> terminals o = 0.
Proof. by apply count_only_sends. Qed.
Lemma faults_app a b : faults (a ++ b) = faults a + faults b.
Proof. apply count_app. Qed.
Lemma terminals_app a b : terminals (a ++ b) = terminals a + terminals b.
Proof. apply count_app. Qed.

Lemma recv_ok_idle t st b : recv_ok t st b -> recv_ok t 0 b.
Proof. destruct b as [[size data]|]; [|done]. intros [H _]. split; [done|]. lia. Qed.

Lemma recv_ok_other t st b : recv_ok t st b -> forall t', recv_ok t' 0 b.
Proof. destruct b as [[size data]|]; [|done]. intros [H _] t'. split; [done|]. lia. Qed.

Lemma state_after_listening ev e s (v : bool) :
  s <> listening -> (if v then state_after ev e s else s) <> listening.
Proof.
  intros. unfold state_after. destruct v; [|done].
  repeat case_match; done.
Qed.

Create HintDb layer.
#[export] Hint Resolve recv_ok_idle state_after_listening : layer.
Create Rewrite HintDb layer.
#[export] Hint Rewrite faults_app terminals_app faults_trig terminals_trig faults_state terminals_state
  op_event_terminal op_event_connect_terminal terminal_READ terminal_WRITE terminal_CLOSE
  terminal_CONNECT terminal_ACCEPT : layer.

Ltac sends_silent :=
  repeat match goal with
  | H : only_sends ?o |- _ =>
      progress rewrite ?(faults_sends o H), ?(terminals_sends o H)
  end.

(** The rules, tried in turn. *)
Ltac layer_step :=
  match goal with
  | |- wp (TriggerEvent _ _ _) _ _ => apply wp_TriggerEvent
  | |- wp (SetLayerState _) _ _ => apply wp_SetLayerState
  | |- wp (emit _) _ _ => apply wp_modify
  | |- wp (WSASetLastError _) _ _ => apply wp_modify
  | |- wp WSAGetLastError _ _ => apply wp_gets
  | |- wp (DoLayerCallback _ _ _) _ _ => apply wp_modify
  | |- wp Reset _ _ => unfold Reset
  | |- wp ClearBuffer _ _ => unfold ClearBuffer
  | |- wp ClearSendBuffer _ _ => unfold ClearSendBuffer
  | |- wp (fail_with _ _ _ _ _) _ _ => unfold fail_with
  | |- wp (op_succeeded _) _ _ => unfold op_succeeded
  | |- _ => wp_step
  end.

Lemma recv_ok_None t st : recv_ok t st None.
Proof. done. Qed.
Lemma str_nil : (length ([] : bytes) <= 4096)%nat.
Proof. simpl. lia. Qed.
#[export] Hint Resolve recv_ok_None str_nil : layer.

(** The two halves of [step_ok] for a computed final state. *)
Ltac layer_wf :=
  split; [constructor|unfold wf_recv in *]; layer_simpl; try done; eauto with layer; try lia.

Ltac layer_counts :=
  layer_simpl;
  try match goal with |- _ -> hSocketValid _ = true -> _ => let Hv := fresh in
        intros ? Hv; rewrite ?Hv end;
  autorewrite with layer; sends_silent; unfold faults, terminals;
  cbn [count is_fault is_terminal]; fold faults; fold terminals;
  rewrite ?Z.eqb_refl;
  try match goal with |- context [m_nProxyOpID ?w =? 0] =>
        destruct (Z.eqb_spec (m_nProxyOpID w) 0) end;
  try lia.

Ltac layer_ok := split; [layer_wf|split; [done|split; layer_counts]].
Ltac call_done := split; [layer_wf|split; [done|layer_counts]].
