(* ===== verification/ProxyLayerInv.v ===== *)
(** * The proxy layer: memory safety and one terminal event

    Every event and every call of [CAsyncProxySocketLayer] keeps [wf_layer],
    never reaches outside a buffer, and, when it ends the pending operation,
    posts exactly one terminal event. *)

From S2P Require Import Prelude Winsock SockAddr Effects Socks5UdpCodec AutoBuffer ProxyLayer.
From S2P Require Import ProxyLayerUdp ProxyLayerRules.

Section Reading.
Context {platform : Platform}.

Lemma step_ok_FailPending e w :
  wf_core w -> (m_nProxyOpID w = 0 -> wf_recv w) ->
  step_ok w (exec (FailPendingProxyOperation e) w).
Proof.
  intros Hw Hr. apply wp_exec. unfold FailPendingProxyOperation.
  repeat layer_step.
  - bool_hyps. split; [split; auto|]. split; [done|]. split; [done|]. done.
  - bool_hyps. destruct Hw. layer_ok.
Qed.

(** Moving [step_ok] along a state that looks the same from outside. *)
Lemma step_ok_from w w1 w' :
  m_nProxyOpID w1 = m_nProxyOpID w -> hSocketValid w1 = hSocketValid w -> out w1 = out w ->
  step_ok w1 w' -> step_ok w w'.
Proof. intros E1 E2 E3. unfold step_ok. by rewrite E1, E2, E3. Qed.

(** The failure of a SOCKS request: report, reset, and clear or not. *)
Lemma step_ok_fail code wp lp ev err cleanup w :
  (forall id, terminal_event (ev id) = true) ->
  wf_core w -> (exists t st, recv_ok t st (m_pRecvBuffer w)) ->
  cleanup = mret tt \/ cleanup = ClearBuffer ->
  step_ok w (exec (fail_with code wp lp ev err;; Reset;; cleanup) w).
Proof.
  intros Hev Hw (t & st & Hr) Hc. apply wp_exec.
  pose proof (recv_ok_other _ _ _ Hr) as Hr0.
  destruct Hw. destruct Hc as [-> | ->]; repeat layer_step; layer_ok; rewrite Hev; lia.
Qed.

Lemma step_ok_ReadReply newSize responseLength cleanup k w size d0 :
  wf_layer w -> m_nProxyOpID w <> 0 ->
  default (newSize, []) (m_pRecvBuffer w) = (size, d0) ->
  recv_ok (nProxyType (m_ProxyData w)) (m_nProxyOpState w) (Some (size, d0)) ->
  Z.of_nat (length d0) < responseLength d0 <= size ->
  cleanup = mret tt \/ cleanup = ClearBuffer ->
  (forall r got, rx_ok r -> bytes_ok got -> (0 < length got)%nat ->
     Z.of_nat (length (d0 ++ got)) <= responseLength d0 ->
     let w1 := set_m_pRecvBuffer (Some (size, d0 ++ got)) (set_rx r w) in
     wf_core w1 -> bytes_ok (d0 ++ got) -> step_ok w1 (exec (k (d0 ++ got)) w1)) ->
  step_ok w (exec (ReadReply newSize responseLength cleanup k) w).
Proof.
  intros [Hw Hr] Hid Hd Hrok Hlen Hc Hk. apply wp_exec.
  unfold ReadReply. apply wp_bind, wp_gets. rewrite Hd. apply wp_bind, wp_modify, wp_bind.
  assert (Hwr : forall r e b, rx_ok r -> wf_core (set_rx r (set_lasterr e (set_m_pRecvBuffer b w))))
    by (intros; destruct Hw; constructor; layer_simpl; auto).
  apply wp_ReceiveNext; [lia|lia|apply Hw| |].
  - intros r e Hrx. cbn beta iota. rewrite Z.eqb_refl. layer_step. layer_step.
    apply wp_when; intros He.
    + apply wp_exec. eapply step_ok_from; [..|apply step_ok_fail]; try done.
      * intros. apply op_event_terminal.
      * by apply Hwr.
      * layer_simpl. eauto.
    + split; [split; [by apply Hwr|done]|]. split; [done|]. split; [done|].
      layer_simpl. intros _ Hv. destruct (Z.eqb_spec (m_nProxyOpID w) 0); [done|lia].
  - intros r got Hrx Hgot Hlg. cbn beta iota.
    destruct (Z.eqb_spec (Z.of_nat (length got)) SOCKET_ERROR); [unfold SOCKET_ERROR in *; lia|].
    destruct (Z.eqb_spec (Z.of_nat (length got)) 0).
    + apply wp_exec. eapply step_ok_from; [..|apply step_ok_FailPending]; try done.
      specialize (Hwr r (lasterr w) (Some (size, d0)) Hrx). by destruct w.
    + apply wp_bind, wp_modify. apply wp_exec.
      assert (Hdok : bytes_ok (d0 ++ got)) by (apply Forall_app; split; [apply Hrok|done]).
      eapply step_ok_from; [..|apply (Hk r got)]; try done.
      * lia.
      * rewrite length_app. lia.
      * specialize (Hwr r (lasterr w) (Some (size, d0 ++ got)) Hrx). by destruct w.
Qed.

(** The answers of the protocol: each continuation from a full buffer. *)

Lemma step_ok_clear w : wf_core w -> m_nProxyOpID w <> 0 -> step_ok w (exec ClearBuffer w).
Proof. intros Hw Hid. apply wp_exec. destruct Hw. repeat layer_step. layer_ok. Qed.

Lemma wp_GetPeerName n (Q : option _SockAddr -> world -> Prop) w :
  (forall r e, Q r (set_lasterr e w)) -> wp (GetPeerName n) Q w.
Proof.
  intros H. assert (Hw : forall r, Q r w) by (intros r; specialize (H r (lasterr w)); by destruct w).
  unfold GetPeerName. repeat layer_step; auto; apply H.
Qed.

Lemma step_ok_socks4_reply data w :
  wf_core w -> m_nProxyOpID w <> 0 -> (exists t st, recv_ok t st (m_pRecvBuffer w)) ->
  step_ok w (exec (socks4_reply data) w).
Proof.
  intros Hw Hid Hr. unfold socks4_reply.
  destruct (negb (byte_at data 0 =? 0) || negb (byte_at data 1 =? 90)).
  { apply step_ok_fail; auto using op_event_terminal. }
  apply wp_exec. repeat layer_step.
  - destruct Hw. bool_hyps. layer_ok.
  - destruct Hw. apply wp_GetPeerName. intros p e. layer_step. destruct p as [a|]; cbn [fmap option_fmap option_map].
    + repeat layer_step. layer_ok.
    + repeat layer_step. layer_ok.
  - destruct Hw. repeat layer_step. layer_ok.
  - destruct Hw. repeat layer_step. layer_ok.
Qed.

(** Queueing in the middle of an operation, with what is done after it. *)
Lemma step_ok_queue data n (k : ML unit) w :
  wf_core w -> m_nProxyOpID w <> 0 -> (exists t st, recv_ok t st (m_pRecvBuffer w)) ->
  n <= Z.of_nat (length data) ->
  (forall sb t e o, only_sends o -> send_ok sb ->
     let w1 := flushed sb t e o w in
     faults (out w1) = faults (out w) -> terminals (out w1) = terminals (out w) ->
     step_ok w (exec k w1)) ->
  step_ok w (exec (ok ← queue_or_fail data n; if (ok : bool) then k else mret tt) w).
Proof.
  intros Hw Hid Hr Hn Hk. apply wp_exec. unfold queue_or_fail.
  apply wp_bind, wp_bind, wp_QueueProxyRequest; [apply Hw|done|].
  intros ok sb t e o Ho Hsb.
  assert (Hc : faults (out (flushed sb t e o w)) = faults (out w) /\
               terminals (out (flushed sb t e o w)) = terminals (out w)).
  { layer_simpl. autorewrite with layer. sends_silent. lia. }
  assert (Hgo : step_ok w (exec k (flushed sb t e o w))) by (apply Hk; tauto).
  destruct Hr as (t0 & st & Hr). pose proof (recv_ok_other _ _ _ Hr) as Hr0.
  layer_step.
  - repeat layer_step.
    + destruct Hw. layer_ok.
    + by apply wp_exec.
  - repeat layer_step. by apply wp_exec.
Qed.

Lemma step_ok_send_auth w :
  wf_core w -> m_nProxyOpID w <> 0 -> (exists t st, recv_ok t st (m_pRecvBuffer w)) ->
  step_ok w (exec socks5_send_auth w).
Proof.
  intros Hw Hid Hr. unfold socks5_send_auth. apply wp_exec. apply wp_bind, wp_gets.
  apply wp_exec, step_ok_queue; try done.
  - unfold snprintf_length. case_match; lia.
  - intros sb t e o Ho Hsb w1 Hf Ht. apply wp_exec. destruct Hw. repeat layer_step.
    subst w1. layer_ok.
Qed.

Lemma step_ok_send_request w :
  wf_core w -> m_nProxyOpID w <> 0 -> (exists t st, recv_ok t st (m_pRecvBuffer w)) ->
  step_ok w (exec socks5_send_request w).
Proof.
  intros Hw Hid Hr. unfold socks5_send_request. apply wp_exec. apply wp_bind, wp_gets.
  apply wp_if; intros Hc.
  - destruct Hr as (t0 & st & Hr). pose proof (recv_ok_other _ _ _ Hr) as Hr0.
    destruct Hw. repeat layer_step. layer_ok.
  - apply wp_exec, step_ok_queue; try done.
    intros sb t e o Ho Hsb w1 Hf Ht. apply wp_exec. destruct Hw. repeat layer_step.
    subst w1. layer_ok.
Qed.

Lemma step_ok_method_reply data w :
  wf_core w -> m_nProxyOpID w <> 0 -> (exists t st, recv_ok t st (m_pRecvBuffer w)) ->
  step_ok w (exec (socks5_method_reply data) w).
Proof.
  intros Hw Hid Hr. unfold socks5_method_reply. apply wp_exec. apply wp_bind, wp_gets.
  apply wp_if; intros _.
  { apply wp_exec, step_ok_fail; auto using op_event_terminal. }
  apply wp_if; intros _; [|by apply wp_exec, step_ok_send_request].
  apply wp_bind, wp_gets.
  apply wp_if; intros _; [apply wp_exec, step_ok_fail; auto using op_event_terminal|].
  apply wp_if; intros _; [apply wp_exec, step_ok_fail; auto using op_event_terminal|].
  by apply wp_exec, step_ok_send_auth.
Qed.

Lemma step_ok_udp_granted data w :
  wf_core w -> m_nProxyOpID w <> 0 -> step_ok w (exec (socks5_udp_granted data) w).
Proof.
  intros Hw Hid. unfold socks5_udp_granted. apply wp_exec. destruct Hw.
  apply wp_if; intros _.
  - repeat layer_step. layer_ok.
  - layer_step. layer_step. destruct (if byte_at data 3 =? 1 then _ else _) as [a|].
    + repeat layer_step. layer_ok.
    + repeat layer_step. layer_ok.
Qed.

Lemma step_ok_socks5_reply data w :
  wf_core w -> m_nProxyOpID w <> 0 -> (exists t st, recv_ok t st (m_pRecvBuffer w)) ->
  step_ok w (exec (socks5_reply data) w).
Proof.
  intros Hw Hid Hr. unfold socks5_reply. apply wp_exec.
  apply wp_bind, wp_gets, wp_bind, wp_gets.
  apply wp_if; intros _.
  { apply wp_exec, step_ok_fail; auto using op_event_terminal. }
  apply wp_if; intros Hop.
  { destruct Hw. repeat layer_step. layer_ok. }
  apply wp_if; intros Hb.
  { apply wp_if; intros _; [apply wp_exec, step_ok_fail; auto using op_event_connect_terminal|].
    destruct Hw. repeat layer_step. layer_ok. }
  apply wp_if; intros _; apply wp_exec; [by apply step_ok_udp_granted|by apply step_ok_clear].
Qed.

(** ** The length of a SOCKS5 reply *)

Lemma socks5_length_range d : bytes_ok d -> 4 <= socks5_length d <= MAX_HEADER_SIZE.
Proof.
  intros Hok. unfold socks5_length, MAX_HEADER_SIZE.
  assert (Hb : 4 < Z.of_nat (length d) -> byte_ok (byte_at d 4)).
  { intros. unfold byte_at. eapply Forall_nth; [exact Hok|lia]. }
  unfold byte_ok in Hb.
  destruct (Z.leb_spec 4 (Z.of_nat (length d))); [|lia].
  destruct (byte_at d 3 =? 1); [lia|]. destruct (byte_at d 3 =? 3).
  - destruct (Z.ltb_spec (Z.of_nat (length d)) 5); [lia|]. lia.
  - destruct (_ =? 4); lia.
Qed.

Lemma byte_at_app d x i : (i < length d)%nat -> byte_at (d ++ x) i = byte_at d i.
Proof. intros. unfold byte_at. by apply app_nth1. Qed.

(** What was asked for never exceeds what the longer data still asks for. *)
Lemma socks5_length_app d x :
  Z.of_nat (length d) < socks5_length d ->
  Z.of_nat (length (d ++ x)) <= socks5_length d -> bytes_ok (d ++ x) ->
  Z.of_nat (length (d ++ x)) <= socks5_length (d ++ x).
Proof.
  intros Hd Hx Hok. pose proof (socks5_length_range (d ++ x) Hok).
  destruct (Z.leb_spec 5 (Z.of_nat (length d))) as [H5|H5].
  - replace (socks5_length (d ++ x)) with (socks5_length d); [done|].
    unfold socks5_length. rewrite !byte_at_app by lia. rewrite length_app.
    destruct (Z.leb_spec 4 (Z.of_nat (length d))); [|lia].
    destruct (Z.leb_spec 4 (Z.of_nat (length d + length x))); [|lia].
    destruct (Z.ltb_spec (Z.of_nat (length d)) 5); [lia|].
    destruct (Z.ltb_spec (Z.of_nat (length d + length x)) 5); [lia|done].
  - destruct (Z.leb_spec 4 (Z.of_nat (length d))) as [H4|H4].
    + assert (Hl : length d = 4%nat) by lia.
      revert Hx. unfold socks5_length. rewrite !byte_at_app by lia. rewrite length_app, Hl.
      change (Z.of_nat 4) with 4.
      destruct (Z.leb_spec 4 (Z.of_nat (4 + length x))); [|lia].
      assert (Hb : (0 < length x)%nat -> byte_ok (byte_at (d ++ x) 4)).
      { intros. unfold byte_at. eapply Forall_nth; [exact Hok|]. rewrite length_app. lia. }
      unfold byte_ok in Hb. cbn [Z.leb Z.compare Pos.compare Pos.compare_cont].
      destruct (byte_at d 3 =? 1); [lia|]. destruct (byte_at d 3 =? 3).
      * cbn [Z.ltb Z.compare Pos.compare Pos.compare_cont].
        destruct (Z.ltb_spec (Z.of_nat (4 + length x)) 5); lia.
      * destruct (_ =? 4); lia.
    + assert (socks5_length d = 4); [|lia]. unfold socks5_length.
      destruct (Z.leb_spec 4 (Z.of_nat (length d))); [lia|done].
Qed.

(** ** The handlers *)

Lemma step_ok_wait data size w :
  m_nProxyOpID w <> 0 -> wf_core (set_m_pRecvBuffer (Some (size, data)) w) ->
  recv_ok (nProxyType (m_ProxyData w)) (m_nProxyOpState w) (Some (size, data)) ->
  step_ok (set_m_pRecvBuffer (Some (size, data)) w) (set_m_pRecvBuffer (Some (size, data)) w).
Proof.
  intros Hid Hw Hr. split; [by split|]. split; [done|]. split; [done|].
  layer_simpl. intros _ _. destruct (Z.eqb_spec (m_nProxyOpID w) 0); [done|lia].
Qed.

Lemma default_buffer w newSize : exists size d0,
  default (newSize, []) (m_pRecvBuffer w) = (size, d0).
Proof. destruct (default _ _) as [a b]. eauto. Qed.

Lemma step_ok_OnReceive_socks4 w :
  wf_layer w -> m_nProxyOpID w <> 0 -> is_socks4 (nProxyType (m_ProxyData w)) = true ->
  step_ok w (exec OnReceive_socks4 w).
Proof.
  intros Hw Hid Ht. unfold OnReceive_socks4. apply wp_exec, wp_bind, wp_gets, wp_if; intros Hst.
  2: { split; [done|]. split; [done|]. split; [done|]. intros _ _.
       destruct (Z.eqb_spec (m_nProxyOpID w) 0); [done|lia]. }
  destruct (default_buffer w 8) as (size & d0 & Hd).
  assert (Hne : m_nProxyOpState w <> 0) by (apply orb_true_iff in Hst as [?|?]; bool_hyps; lia).
  assert (H4 : recv_ok (nProxyType (m_ProxyData w)) (m_nProxyOpState w) (Some (size, d0)) /\
               size = 8 /\ Z.of_nat (length d0) < 8).
  { destruct Hw as [_ Hr]. unfold wf_recv in Hr. destruct (m_pRecvBuffer w) as [[s d]|]; cbn in Hd;
      injection Hd as <- <-.
    - split; [done|]. by apply Hr.
    - split; [|simpl; lia]. split; [constructor|]. split; [simpl; lia|].
      unfold is_socks4 in Ht. split; intros Ht3; rewrite Ht3 in Ht; done. }
  destruct H4 as (Hrok & -> & Hlen).
  apply wp_exec, step_ok_ReadReply with (size := 8) (d0 := d0); auto; [lia|].
  intros r got Hrx Hgot Hpos Hle w1 Hw1 Hok. apply wp_exec, wp_if; intros Hl; apply wp_exec.
  - apply step_ok_socks4_reply; [done|done|]. exists 0, 0. split; [done|]. lia.
  - bool_hyps. apply step_ok_wait; [done|done|]. layer_simpl. split; [done|].
    split; [intros; split; [done|lia]|]. unfold is_socks4 in Ht.
    split; intros Ht3; rewrite Ht3 in Ht; done.
Qed.

Lemma step_ok_OnReceive_socks5_method w :
  wf_layer w -> m_nProxyOpID w <> 0 -> nProxyType (m_ProxyData w) = PROXYTYPE_SOCKS5 ->
  m_nProxyOpState w = 1 \/ m_nProxyOpState w = 2 ->
  step_ok w (exec OnReceive_socks5_method w).
Proof.
  intros Hw Hid Ht Hst. unfold OnReceive_socks5_method.
  destruct (default_buffer w 2) as (size & d0 & Hd).
  assert (Hno4 : is_socks4 (nProxyType (m_ProxyData w)) = false) by (by rewrite Ht).
  assert (H2 : recv_ok (nProxyType (m_ProxyData w)) (m_nProxyOpState w) (Some (size, d0)) /\
               size = 2 /\ Z.of_nat (length d0) < 2).
  { destruct Hw as [_ Hr]. unfold wf_recv in Hr. destruct (m_pRecvBuffer w) as [[s d]|]; cbn in Hd;
      injection Hd as <- <-.
    - split; [done|]. by apply Hr.
    - split; [|simpl; lia]. split; [constructor|]. rewrite Hno4. split; [done|].
      split; [simpl; lia|lia]. }
  destruct H2 as (Hrok & -> & Hlen).
  apply step_ok_ReadReply with (size := 2) (d0 := d0); auto; [lia|].
  intros r got Hrx Hgot Hpos Hle w1 Hw1 Hok. apply wp_exec, wp_if; intros Hl; apply wp_exec.
  - apply step_ok_method_reply; [done|done|]. exists 0, 0. split; [done|]. lia.
  - bool_hyps. apply step_ok_wait; [done|done|]. layer_simpl. unfold recv_ok. rewrite Hno4.
    split; [done|]. split; [done|]. split; [intros; split; [done|lia]|lia].
Qed.

Lemma step_ok_OnReceive_socks5_reply w :
  wf_layer w -> m_nProxyOpID w <> 0 -> nProxyType (m_ProxyData w) = PROXYTYPE_SOCKS5 ->
  m_nProxyOpState w = 3 \/ m_nProxyOpState w = 4 ->
  step_ok w (exec OnReceive_socks5_reply w).
Proof.
  intros Hw Hid Ht Hst. unfold OnReceive_socks5_reply.
  destruct (default_buffer w MAX_HEADER_SIZE) as (size & d0 & Hd).
  assert (Hno4 : is_socks4 (nProxyType (m_ProxyData w)) = false) by (by rewrite Ht).
  assert (H2 : recv_ok (nProxyType (m_ProxyData w)) (m_nProxyOpState w) (Some (size, d0)) /\
               size = MAX_HEADER_SIZE /\ Z.of_nat (length d0) < socks5_length d0).
  { destruct Hw as [_ Hr]. unfold wf_recv in Hr. destruct (m_pRecvBuffer w) as [[s d]|]; cbn in Hd;
      injection Hd as <- <-.
    - split; [done|]. by apply Hr.
    - split; [|split; [done|vm_compute; done]]. split; [constructor|]. rewrite Hno4.
      split; [done|]. split; [lia|]. intros. split; [done|vm_compute; done]. }
  destruct H2 as (Hrok & -> & Hlen).
  pose proof (socks5_length_range d0 ltac:(apply Hrok)) as Hrange.
  apply step_ok_ReadReply with (size := MAX_HEADER_SIZE) (d0 := d0); auto; [lia|].
  intros r got Hrx Hgot Hpos Hle w1 Hw1 Hok. apply wp_exec, wp_if; intros Hl.
  { apply wp_exec, step_ok_fail; auto using op_event_terminal. exists 0, 0. split; [done|]. lia. }
  apply wp_if; intros Hfull; apply wp_exec.
  - apply step_ok_socks5_reply; [done|done|]. exists 0, 0. split; [done|]. lia.
  - apply step_ok_wait; [done|done|]. layer_simpl. unfold recv_ok. rewrite Hno4.
    split; [done|]. split; [done|]. split; [lia|]. intros. split; [done|].
    pose proof (socks5_length_app d0 got Hlen Hle Hok).
    pose proof (socks5_length_range _ Hok).
    destruct (Z.leb_spec 4 (Z.of_nat (length (d0 ++ got)))); cbn [andb] in Hfull; bool_hyps; lia.
Qed.

Definition is_http (t : Z) : bool := (t =? PROXYTYPE_HTTP10) || (t =? PROXYTYPE_HTTP11).

(** A state that has only read: same operation, nothing emitted. *)
Definition reading (w w' : world) : Prop :=
  wf_layer w' /\ m_nProxyOpID w' = m_nProxyOpID w /\ m_ProxyData w' = m_ProxyData w /\
  hSocketValid w' = hSocketValid w /\ out w' = out w.

Lemma reading_step_ok w w' : m_nProxyOpID w <> 0 -> reading w w' -> step_ok w w'.
Proof.
  intros Hid (Hw & E1 & _ & E2 & E3). unfold step_ok. rewrite E1, E2, E3.
  split; [done|]. split; [done|]. split; [done|]. intros _ _.
  destruct (Z.eqb_spec (m_nProxyOpID w) 0); [done|lia].
Qed.

Lemma reading_from w w1 w' : reading w w1 -> step_ok w1 w' -> step_ok w w'.
Proof. intros (_ & E1 & _ & E2 & E3). by apply step_ok_from. Qed.

Lemma reading_trans w w1 w2 : reading w w1 -> reading w1 w2 -> reading w w2.
Proof. intros (? & ? & ? & ? & ?) (? & ? & ? & ? & ?). split; [done|]. split_and!; congruence. Qed.

Lemma step_ok_via w w1 w' o :
  m_nProxyOpID w1 = m_nProxyOpID w -> hSocketValid w1 = hSocketValid w ->
  out w1 = out w ++ o -> faults o = 0 -> terminals o = 0 ->
  step_ok w1 w' -> step_ok w w'.
Proof.
  intros E1 E2 E3 Hf Ht (H1 & H2 & H3 & H4). unfold step_ok.
  rewrite E1, E2, E3 in *. rewrite faults_app in H3. rewrite terminals_app in H4.
  split; [done|]. split; [done|]. split; [lia|]. intros Hi Hv. specialize (H4 Hi Hv). lia.
Qed.

(** ** The status scan *)

Definition scans_in {A} (r : scanned A) (rest : A -> bytes) (l : bytes) : Prop :=
  match r with
  | Hit a => exists pre, l = pre ++ rest a /\ forallb status_char pre = true
  | Miss => True
  | Past => forallb status_char l = true
  end.

Lemma scans_bind {A B} (r : scanned A) (k : A -> scanned B) rest rest' l :
  scans_in r rest l -> (forall a, scans_in (k a) rest' (rest a)) -> scans_in (scan_bind r k) rest' l.
Proof.
  intros H Hk. destruct r as [a| |]; cbn [scan_bind]; [|done|done].
  destruct H as (pre & -> & Hp). specialize (Hk a). destruct (k a) as [b| |]; [|done|].
  - destruct Hk as (pre' & -> & Hp'). exists (pre ++ pre'). by rewrite app_assoc, forallb_app, Hp, Hp'.
  - cbn [scans_in] in *. by rewrite forallb_app, Hp, Hk.
Qed.

Lemma scans_past {A B} (r : scanned A) (k : A -> scanned B) rest l :
  scan_bind r k = Past -> scans_in r rest l ->
  (forall a, k a = Past -> forallb status_char (rest a) = true) -> forallb status_char l = true.
Proof.
  intros Hp H Hk. destruct r as [a| |]; cbn [scan_bind] in Hp; [|done|done].
  destruct H as (pre & -> & Hpre). by rewrite forallb_app, Hpre, Hk.
Qed.

Lemma scans_cons {A} (r : scanned A) rest c l :
  status_char c = true -> scans_in r rest l -> scans_in r rest (c :: l).
Proof.
  intros Hc H. destruct r as [a| |]; cbn [scans_in] in *; [|done|simpl; by rewrite Hc, H].
  destruct H as (pre & -> & Hp). exists (c :: pre). split; [done|]. simpl. by rewrite Hc, Hp.
Qed.

Lemma space_char c : isspace c = true -> status_char c = true.
Proof. unfold status_char. by intros ->. Qed.
Lemma digit_char c : isdigit c = true -> status_char c = true.
Proof. unfold status_char. intros ->. by rewrite orb_true_r. Qed.

Lemma skip_space_scans l : scans_in (skip_space l) (fun r => r) l.
Proof.
  induction l as [|c l IH]; [done|]. cbn [skip_space]. destruct (isspace c) eqn:E; [|by exists []].
  apply scans_cons; [by apply space_char|done].
Qed.

Lemma scan_digits_scans l acc : scans_in (scan_digits acc l) snd l.
Proof.
  revert acc. induction l as [|c l IH]; intros acc; [done|]. cbn [scan_digits].
  destruct (isdigit c) eqn:E; [|by exists []]. apply scans_cons; [by apply digit_char|done].
Qed.

Lemma scan_u_scans l : scans_in (scan_u l) snd l.
Proof.
  eapply scans_bind; [apply skip_space_scans|]. clear l. intros l. cbv beta.
  assert (G : forall neg l, scans_in (match l with
      | c :: _ => if isdigit c then scan_bind (scan_digits 0 l) (fun '(v, r) =>
            let v := if v <? 4294967296 then v else u_overflow v in
            Hit (if (neg : bool) then u32 (- v) else v, r)) else Miss
      | [] => Past end) snd l).
  { intros neg [|c m]; [done|]. destruct (isdigit c); [|done].
    eapply scans_bind; [apply scan_digits_scans|]. intros [v r]. by exists []. }
  destruct l as [|c l]; [done|]. cbn [scan_sign].
  destruct (Z.eqb_spec c 45) as [->|]; [exact (scans_cons _ _ 45 _ eq_refl (G true l))|].
  destruct (Z.eqb_spec c 43) as [->|]; [exact (scans_cons _ _ 43 _ eq_refl (G false l))|].
  exact (G false (c :: l)).
Qed.

Lemma scan_dot_scans l : scans_in (scan_literal (ascii_bytes ".") l) (fun r => r) l.
Proof.
  destruct l as [|c l]; [done|]. change (ascii_bytes ".") with [46]. cbn [scan_literal].
  destruct (Z.eqb_spec 46 c) as [<-|]; [|done]. by exists [46].
Qed.

(** A scan that leaves a buffer with a header end in it had [HTTP/] and only
    numbers, dots and blanks to read. *)
Lemma find_eoh_cr l i j : find_eoh l i = Some j -> 13 ∈ l.
Proof.
  revert i. induction l as [|a l IH]; intros i; [done|]. cbn [find_eoh].
  destruct l as [|b [|c [|d l]]]; try done.
  destruct (Z.eqb_spec a 13) as [->|]; [intros _; by apply list_elem_of_here|].
  cbn [andb]. intros Hf. by apply list_elem_of_further, (IH (S i)).
Qed.

Lemma scan_status_past text j :
  find_eoh text 0 = Some j -> scan_status text = Past -> overrun_text text = true.
Proof.
  intros Hj%find_eoh_cr Hp. unfold overrun_text.
  assert (Hcr : forall c l, 13 ∈ c :: l -> c <> 13 -> 13 ∈ l)
    by (intros c l [->|]%elem_of_cons ?; done).
  destruct text as [|c0 [|c1 [|c2 [|c3 [|c4 l]]]]];
    unfold scan_status in Hp; change (ascii_bytes "HTTP/") with [72; 84; 84; 80; 47] in *;
    cbn [scan_literal scan_bind] in Hp;
    repeat match type of Hp with context [?a =? ?c] =>
      destruct (Z.eqb_spec a c) as [<-|]; cbn [scan_bind] in Hp; [|done] end;
    repeat (apply Hcr in Hj; [|done]); try by apply elem_of_nil in Hj.
  cbn [take drop]. rewrite bool_decide_true by done. cbn [andb].
  eapply scans_past; [exact Hp|apply scan_u_scans|]. clear. intros [v l] Hp. cbn [snd].
  eapply scans_past; [exact Hp|apply scan_dot_scans|]. clear. intros l Hp.
  eapply scans_past; [exact Hp|apply scan_u_scans|]. clear. intros [v l] Hp. cbn [snd].
  eapply scans_past; [exact Hp|apply skip_space_scans|]. clear. intros l Hp.
  eapply scans_past; [exact Hp|apply scan_u_scans|]. by intros [v' l'].
Qed.

Lemma http_loop_ok fuel w :
  wf_layer w -> m_nProxyOpID w <> 0 ->
  4097 <= Z.of_nat fuel + Z.of_nat (length (m_pStrBuffer w)) ->
  wp (http_loop fuel) (fun found w' =>
    match found with
    | None => step_ok w w'
    | Some i => reading w w' /\ find_eoh (m_pStrBuffer w') 0 = Some i
    end) w.
Proof.
  revert w. induction fuel as [|fuel IH]; intros w Hw Hid Hfuel.
  { destruct Hw as [Hw _]. pose proof (wf_str w Hw). lia. }
  cbn [http_loop]. apply wp_bind.
  apply wp_ReceiveNext; [lia|lia|apply Hw| |].
  - intros r e Hrx. cbn beta iota. rewrite Z.eqb_refl.
    destruct Hw as [Hw Hr]. unfold wf_recv in Hr. destruct Hw.
    repeat layer_step; layer_ok.
  - intros r got Hrx Hgot Hlg. cbn beta iota.
    destruct (Z.eqb_spec (Z.of_nat (length got)) SOCKET_ERROR); [unfold SOCKET_ERROR in *; lia|].
    destruct (Z.eqb_spec (Z.of_nat (length got)) 0).
    { apply wp_bind. destruct Hw as [Hw Hr]. eapply wp_mono.
      - apply wp_exec. eapply (step_ok_FailPending _ (set_rx r w)).
        + destruct Hw. constructor; layer_simpl; auto.
        + done.
      - intros ? w' H. apply wp_ret. by apply (step_ok_from w (set_rx r w)). }
    apply wp_bind, wp_gets, wp_bind, wp_gets. layer_simpl.
    apply wp_if; intros Hc.
    { destruct Hw as [Hw Hr]. unfold wf_recv in Hr. destruct Hw. repeat layer_step. layer_ok. }
    apply wp_bind, wp_modify.
    set (w1 := set_m_pStrBuffer _ _).
    bool_hyps.
    assert (H1 : reading w w1).
    { destruct Hw as [Hw Hr]. split; [|done]. split; [|done].
      destruct Hw. constructor; subst w1; layer_simpl; auto. rewrite length_app. lia. }
    destruct (find_eoh (m_pStrBuffer w ++ got) 0) as [i|] eqn:Hi; [by apply wp_ret|].
    eapply wp_mono; [apply IH|].
    + apply H1.
    + by rewrite (proj1 (proj2 H1)).
    + subst w1. layer_simpl. rewrite length_app. lia.
    + intros [i|] w' Hx; [|exact (reading_from _ _ _ H1 Hx)].
      destruct Hx as [Hx Hj]. split; [exact (reading_trans _ _ _ H1 Hx)|done].
Qed.

Lemma wp_read_status i (Q : option Z -> world -> Prop) w :
  find_eoh (m_pStrBuffer w) 0 = Some i ->
  (forall v o, faults o = 0 -> terminals o = 0 -> Q v (set_out (out w ++ o) w)) ->
  wp (read_status (m_pStrBuffer w)) Q w.
Proof.
  intros Hi HQ. unfold read_status.
  assert (H0 : forall v, Q v w).
  { intros v. specialize (HQ v [] eq_refl eq_refl). rewrite app_nil_r in HQ. by destruct w. }
  destruct (scan_status (m_pStrBuffer w)) eqn:E; try by apply wp_ret.
  apply wp_bind, wp_modify, wp_ret, HQ; [|done].
  cbn. by rewrite (scan_status_past _ _ Hi E).
Qed.

Lemma step_ok_OnReceive_http w :
  wf_layer w -> m_nProxyOpID w <> 0 -> step_ok w (exec OnReceive_http w).
Proof.
  intros Hw Hid. unfold OnReceive_http. apply wp_exec, wp_bind.
  eapply wp_mono; [apply http_loop_ok; [done|done|]|].
  { change (Z.of_nat http_fuel) with 4098. lia. }
  intros [i|] w1 H; [|by apply wp_ret].
  destruct H as [H Hi]. apply wp_exec. eapply reading_from; [exact H|].
  destruct H as ([Hw1 Hr] & E1 & _ & _ & _). apply wp_exec. rewrite <- E1 in Hid.
  unfold wf_recv in Hr. apply wp_bind, wp_gets, wp_bind, (wp_read_status i); [done|].
  intros status o Hf Ht. apply wp_exec. eapply (step_ok_via w1 (set_out (out w1 ++ o) w1) _ o);
    [done|done|done|done|done|]. apply wp_exec, wp_if; intros _.
  - unfold http_rejected. destruct Hw1. repeat layer_step; layer_ok.
  - apply wp_bind, wp_when; intros Hs; [apply wp_modify|];
      destruct Hw1; repeat layer_step; layer_ok.
    bool_hyps. split; [lia|exact Hs].
Qed.

Lemma step_ok_same w : wf_layer w -> step_ok w w.
Proof.
  intros Hw. split; [done|]. split; [done|]. split; [done|]. intros Hid _.
  destruct (Z.eqb_spec (m_nProxyOpID w) 0); [done|lia].
Qed.

Lemma step_ok_trigger ev e p w :
  wf_layer w -> m_nProxyOpID w = 0 -> step_ok w (exec (TriggerEvent ev e p) w).
Proof.
  intros [Hw Hr] Hid. apply wp_exec. unfold wf_recv in Hr. destruct Hw. repeat layer_step.
  layer_ok.
Qed.

Lemma step_ok_OnReceive e w : wf_layer w -> step_ok w (exec (OnReceive e) w).
Proof.
  intros Hw. unfold OnReceive. apply wp_exec, wp_bind, wp_gets.
  apply wp_if; intros Hid; bool_hyps; [by apply wp_exec, step_ok_trigger|].
  apply wp_if; intros _; [apply wp_exec, step_ok_FailPending; [apply Hw|done]|].
  apply wp_bind, wp_gets, wp_bind, wp_gets.
  apply wp_if; intros _; [apply wp_ret, step_ok_same; auto|].
  apply wp_if; intros H4; [by apply wp_exec, step_ok_OnReceive_socks4|].
  apply wp_if; intros H5; bool_hyps.
  - apply wp_if; intros Hst.
    { apply wp_exec, step_ok_OnReceive_socks5_method; try done.
      apply orb_true_iff in Hst as [?|?]; bool_hyps; auto. }
    apply wp_if; intros Hst'; [|apply wp_ret, step_ok_same; auto].
    apply wp_exec, step_ok_OnReceive_socks5_reply; try done.
    apply orb_true_iff in Hst' as [?|?]; bool_hyps; auto.
  - apply wp_if; intros _; [by apply wp_exec, step_ok_OnReceive_http|].
    apply wp_ret, step_ok_same; auto.
Qed.

Lemma step_ok_OnClose e w : wf_layer w -> step_ok w (exec (OnClose e) w).
Proof.
  intros Hw. unfold OnClose. apply wp_exec, wp_bind, wp_gets, wp_if; intros Hid; bool_hyps.
  - apply wp_exec, step_ok_FailPending; [apply Hw|done].
  - by apply wp_exec, step_ok_trigger.
Qed.

Lemma step_ok_OnSend e w : wf_layer w -> step_ok w (exec (OnSend e) w).
Proof.
  intros Hw. unfold OnSend. apply wp_exec, wp_bind, wp_gets.
  destruct (m_pSendBuffer w) as [sb|] eqn:Hb.
  - assert (Hgo : forall ok sb t e' o, only_sends o -> send_ok sb ->
      wp (if (ok : bool) then mret tt
          else e0 ← WSAGetLastError;
               let errorCode := if negb (e =? 0) then e else e0 in
               DoLayerCallback PROXYERROR_REQUESTFAILED errorCode LNone;;
               id ← gets m_nProxyOpID;
               TriggerEvent (op_event id)
                 (if negb (errorCode =? 0) then errorCode else WSAECONNABORTED) true;;
               Reset;; ClearBuffer)
        (fun _ => step_ok w) (flushed sb t e' o w)).
    { intros ok sb' t e' o Ho Hs. destruct Hw as [Hw Hr]. unfold wf_recv in Hr. destruct Hw.
      cbv zeta. repeat layer_step; layer_ok. }
    apply wp_bind, wp_if; intros He; bool_hyps.
    + apply wp_ret.
      pose proof (Hgo false (m_pSendBuffer w) (tx w) (lasterr w) [] (Forall_nil_2 _)
                    (wf_send w (proj1 Hw))) as H0.
      rewrite flushed_same in H0. exact H0.
    + apply wp_FlushProxyRequest; [apply Hw|]. intros. by apply Hgo.
  - apply wp_bind, wp_gets, wp_if; intros Hid; bool_hyps.
    + apply wp_ret, step_ok_same; auto.
    + by apply wp_exec, step_ok_trigger.
Qed.

(** ** Connecting *)

Lemma step_ok_queue_first data w :
  wf_core w -> m_nProxyOpID w <> 0 -> m_pRecvBuffer w = None -> m_nProxyOpState w = 0 ->
  step_ok w (exec (queue_first data) w).
Proof.
  intros Hw Hid Hr Hst. apply wp_exec. unfold queue_first. apply wp_bind, wp_QueueProxyRequest;
    [apply Hw|lia|].
  intros ok sb t e o Ho Hsb. destruct Hw.
  layer_step.
  - repeat layer_step. layer_ok. rewrite Hr. done.
  - repeat layer_step; layer_ok.
Qed.

Lemma step_ok_http_fail err w :
  wf_core w -> m_nProxyOpID w <> 0 -> m_pRecvBuffer w = None ->
  step_ok w (exec (http_fail err) w).
Proof.
  intros Hw Hid Hr. unfold http_fail. apply step_ok_fail; auto using op_event_connect_terminal.
  exists 0, 0. by rewrite Hr.
Qed.

Lemma step_ok_OnConnect e w : wf_layer w -> step_ok w (exec (OnConnect e) w).
Proof.
  intros Hw. unfold OnConnect. apply wp_exec, wp_bind, wp_gets, wp_if; intros Ht; bool_hyps.
  { apply wp_exec, step_ok_trigger; [done|].
    destruct (Z.eq_dec (m_nProxyOpID w) 0) as [|n]; [done|].
    by destruct (wf_busy w (proj1 Hw) n). }
  apply wp_bind, wp_gets, wp_if; intros Hid; bool_hyps; [apply wp_ret, step_ok_same; auto|].
  apply wp_if; intros He.
  { apply wp_exec, step_ok_fail; [apply op_event_terminal|apply Hw| |auto].
    destruct Hw as [_ Hr]. eauto. }
  apply wp_bind, wp_gets, wp_if; intros Hst; bool_hyps; [apply wp_ret, step_ok_same; auto|].
  apply wp_bind. unfold ClearBuffer. apply wp_bind, wp_modify, wp_modify.
  set (w1 := set_m_pRecvBuffer None _).
  assert (Hw1 : wf_core w1).
  { destruct Hw as [Hw _]. destruct Hw. constructor; subst w1; layer_simpl; auto. simpl; lia. }
  assert (Hgo : forall m : ML unit, step_ok w1 (exec m w1) -> wp m (fun _ => step_ok w) w1).
  { intros m H. apply wp_exec. by apply (step_ok_from w w1). }
  assert (Hr1 : m_pRecvBuffer w1 = None) by done.
  assert (Hs1 : m_nProxyOpState w1 = 0) by done.
  assert (Hi1 : m_nProxyOpID w1 <> 0) by done.
  apply wp_if; intros H4; [|apply wp_if; intros H5; [|apply wp_if; intros Hh]]; apply Hgo.
  - apply wp_exec. unfold OnConnect_socks4. apply wp_bind, wp_gets.
    apply wp_if; intros H6.
    { destruct Hw1. repeat layer_step. layer_ok. }
    apply wp_if; intros Hip; [|by apply wp_exec, step_ok_queue_first].
    bool_hyps. pose proof (wf_host w1 Hw1 Hi1 H4 Hip H6) as Hh.
    destruct (m_pProxyPeerHost w1); [|done]. by apply wp_exec, step_ok_queue_first.
  - unfold OnConnect_socks5. apply wp_exec, wp_bind, wp_gets.
    by apply wp_exec, step_ok_queue_first.
  - unfold OnConnect_http. apply wp_exec, wp_bind, wp_gets.
    destruct (http_host w1) as [h|];
      [|by apply wp_exec, step_ok_http_fail].
    apply wp_if; intros _; apply wp_exec;
      [by apply step_ok_http_fail|by apply step_ok_queue_first].
  - apply wp_exec, wp_modify. destruct Hw1. layer_ok.
Qed.

(** [ConnectNext] emits the attempt and perhaps a state change. *)
Lemma wp_connect_next (o1 : output) (Q : bool -> world -> Prop) w :
  is_fault o1 = false -> is_terminal o1 = false ->
  (forall res c e s o, faults o = 0 -> terminals o = 0 ->
     (s = m_nLayerState w \/ s = connecting) ->
     Q res (set_m_nLayerState s (set_conns c (set_lasterr e (set_out (out w ++ o) w))))) ->
  wp (emit o1;; res ← connect_result; after_connect res) Q w.
Proof.
  intros Hf Ht HQ. apply wp_bind, wp_modify, wp_bind.
  assert (Hgo : forall res c e,
    wp (after_connect res) Q (set_conns c (set_lasterr e (set_out (out w ++ [o1]) w)))).
  { intros res c e. unfold after_connect. apply wp_bind, wp_gets, wp_bind, wp_when; intros _.
    - unfold wp at 1. rewrite exec_SetLayerState. apply wp_ret.
      specialize (HQ res c e connecting ([o1] ++ state_out connecting (m_nLayerState w))).
      assert (H0 : forall f, f o1 = false -> (forall x y, f (OState x y) = false) ->
        count f ([o1] ++ state_out connecting (m_nLayerState w)) = 0).
      { intros f H1 H2. rewrite count_app, count_state_out by done. simpl. by rewrite H1. }
      specialize (HQ (H0 _ Hf ltac:(done)) (H0 _ Ht ltac:(done)) ltac:(by right)).
      rewrite app_assoc in HQ. exact HQ.
    - apply wp_ret. specialize (HQ res c e (m_nLayerState w) [o1]).
      unfold faults, terminals in HQ. cbn [count] in HQ. rewrite Hf, Ht in HQ.
      specialize (HQ eq_refl eq_refl ltac:(by left)). by destruct w. }
  unfold wp at 1, connect_result. cbn [conns set_out]. destruct (conns w) as [|[res e] c] eqn:Ec.
  - specialize (Hgo false [] WSAEWOULDBLOCK). rewrite <- Ec in Hgo. by destruct w.
  - apply Hgo.
Qed.

(** A call made while no operation is pending: only the invariant matters. *)
Definition call_ok (w w' : world) : Prop :=
  wf_layer w' /\ hSocketValid w' = hSocketValid w /\ faults (out w') = faults (out w).

Lemma step_ok_call w w' : m_nProxyOpID w = 0 -> call_ok w w' -> step_ok w w'.
Proof. intros Hid (H1 & H2 & H3). split_and!; try done. Qed.

Ltac not_listening :=
  match goal with
  | H : ?s = m_nLayerState _ \/ ?s = connecting |- _ => destruct H; subst
  end.

Lemma ConnectAddr_ok a n w :
  wf_layer w -> m_nProxyOpID w = 0 -> m_nLayerState w <> listening ->
  wp (ConnectAddr a n) (fun res w' => call_ok w w') w.
Proof.
  intros [Hw Hr] Hid Hl. unfold ConnectAddr. unfold wf_recv in Hr.
  assert (H0 : m_nProxyOpState w = 0) by (by apply Hw). destruct Hw.
  apply wp_bind, wp_gets, wp_if; intros Ht; bool_hyps.
  - apply wp_connect_next; [done|done|]. intros res c e s o Hf Htm Hs.
    not_listening; call_done.
  - destruct (Set_ a n) as [x|] eqn:Ex; [|repeat layer_step; call_done].
    apply wp_bind, wp_modify, wp_bind, wp_modify, wp_bind, wp_modify.
    apply wp_if; intros Hany; [apply wp_ret; call_done|].
    assert (Hip : GetdwIP x = 0 -> IsIPv6 x = false -> False).
    { intros Hz H6. unfold Set_ in Ex. destruct a as [a|]; [|done].
      destruct (_ || _) eqn:Eg; [done|]. injection Ex as <-. apply orb_false_iff in Eg as [Eg _].
      unfold IsAny, GetdwIP in *. rewrite H6 in Hany.
      unfold IsIPv4, IsIPv6 in *. cbn [sa_family] in *. rewrite H6 in Eg. cbn [negb] in Eg.
      rewrite andb_true_r in Eg. apply negb_false_iff in Eg. rewrite Eg in *.
      rewrite Hz in Hany. done. }
    apply wp_bind, wp_modify, wp_bind, wp_modify, wp_bind.
    apply wp_connect_next; [done|done|]. intros res c e s o Hf Htm Hs.
    repeat layer_step; not_listening; call_done; intros; exfalso; eauto.
Qed.

Lemma wp_call_set_host (res : bool) host w0 w :
  call_ok w0 w ->
  wp (e ← WSAGetLastError;
      when (res || (e =? WSAEWOULDBLOCK)) (modify (set_m_pProxyPeerHost (Some host)));;
      mret res) (fun _ w' => call_ok w0 w') w.
Proof.
  intros ([Hw Hr] & H2 & H3). unfold wf_recv in Hr. destruct Hw.
  repeat layer_step; (split; [layer_wf|split; [done|layer_counts]]).
Qed.

Lemma connect_resolved_ok host port addr w :
  wf_layer w -> m_nProxyOpID w = 0 -> m_nLayerState w <> listening ->
  wp (connect_resolved host port addr) (fun _ w' => call_ok w w') w.
Proof.
  intros Hw Hid Hl. unfold connect_resolved. apply wp_bind.
  eapply wp_mono; [by apply ConnectAddr_ok|]. intros res w1 H. by apply wp_call_set_host.
Qed.

Lemma ConnectHost_ok host port w :
  wf_layer w -> m_nProxyOpID w = 0 -> m_nLayerState w <> listening ->
  wp (ConnectHost host port) (fun _ w' => call_ok w w') w.
Proof.
  intros Hw Hid Hl. unfold ConnectHost.
  apply wp_bind, wp_gets, wp_if; intros Ht; bool_hyps.
  { destruct Hw as [Hw Hr]. unfold wf_recv in Hr. destruct Hw.
    apply wp_connect_next; [done|done|]. intros res c e s o Hf Htm Hs. not_listening; call_done. }
  apply wp_if; intros _; [|by apply connect_resolved_ok].
  apply wp_if; intros Hn.
  - destruct Hw as [Hw Hr]. unfold wf_recv in Hr. assert (H0 : m_nProxyOpState w = 0) by (by apply Hw).
    destruct Hw. apply wp_bind, wp_connect_next; [done|done|]. intros res c e s o Hf Htm Hs.
    repeat layer_step; not_listening; call_done.
  - destruct (gethostbyname host) as [[[? ?] addr]|]; [by apply connect_resolved_ok|].
    destruct Hw as [Hw Hr]. unfold wf_recv in Hr. destruct Hw. repeat layer_step. call_done.
Qed.

(** [Listen] with a backlog that is not a multiple of 2^32 (0 would be taken
    for a missing address). *)
Lemma Listen_ok backlog w :
  wf_layer w -> m_nProxyOpID w = 0 -> m_nLayerState w <> listening -> u32 backlog <> 0 ->
  wp (Listen backlog) (fun _ w' => call_ok w w') w.
Proof.
  intros [Hw Hr] Hid Hl Hb. unfold Listen. unfold wf_recv in Hr.
  assert (H0 : m_nProxyOpState w = 0) by (by apply Hw). destruct Hw.
  apply wp_bind, wp_gets, wp_if; intros Ht; bool_hyps.
  - unfold ListenNext. apply wp_bind, wp_modify, wp_bind.
    assert (Hgo : forall (res : bool) c e,
      wp (when res (SetLayerState listening);; mret res) (fun _ w' => call_ok w w')
         (set_conns c (set_lasterr e (set_out (out w ++ [OListen backlog]) w)))).
    { intros res c e. repeat layer_step; call_done. }
    unfold wp at 1, connect_result. cbn [conns set_out]. destruct (conns w) as [|[res e] c] eqn:Ec.
    + specialize (Hgo false [] WSAEWOULDBLOCK). rewrite <- Ec in Hgo. by destruct w.
    + exact (Hgo res c e).
  - apply wp_bind, wp_connect_next; [done|done|]. intros res c e s o Hf Htm Hs.
    repeat layer_step; not_listening; call_done.
Qed.

Lemma GetUdpProxyAddr_ok b1 b2 b3 w :
  wf_layer w -> m_nProxyOpID w = 0 -> m_nLayerState w <> listening ->
  wp (GetUdpProxyAddr b1 b2 b3) (fun _ w' => call_ok w w') w.
Proof.
  intros [Hw Hr] Hid Hl. unfold GetUdpProxyAddr. unfold wf_recv in Hr.
  assert (H0 : m_nProxyOpState w = 0) by (by apply Hw). destruct Hw.
  apply wp_bind, wp_gets, wp_if; intros Ht; bool_hyps.
  2: { repeat layer_step. call_done. }
  assert (Hno4 : is_socks4 (nProxyType (m_ProxyData w)) = false) by (by rewrite Ht).
  assert (Hnp : nProxyType (m_ProxyData w) <> PROXYTYPE_NOPROXY) by (by rewrite Ht).
  apply wp_bind, wp_modify, wp_if; intros _; [repeat layer_step; call_done|].
  apply wp_bind, wp_gets, wp_if; intros _; [repeat layer_step; call_done|].
  apply wp_bind, wp_when; intros _; [apply wp_modify|];
  (apply wp_if; intros _; [repeat layer_step; call_done|]);
  apply wp_bind, wp_modify, wp_bind, wp_connect_next; try done;
  intros res c e s o Hf Htm Hs; layer_simpl; repeat layer_step; not_listening;
  call_done; rewrite Hno4 in *; done.
Qed.

Lemma Send_ok data w : wf_layer w -> step_ok w (exec (Send data) w).
Proof.
  intros Hw. unfold Send. apply wp_exec, wp_bind, wp_gets, wp_if; intros Hid; bool_hyps.
  - destruct Hw as [Hw Hr]. unfold wf_recv in Hr. destruct Hw. repeat layer_step. layer_ok.
  - unfold wp. destruct (SendNext_cases data w) as (r & t & e & o & -> & Ho & _).
    destruct Hw as [Hw Hr]. unfold wf_recv in Hr. destruct Hw. layer_ok.
Qed.

Lemma Receive_ok n w : wf_layer w -> step_ok w (exec (Receive n) w).
Proof.
  intros Hw. pose proof Hw as [Hc Hr]. unfold Receive, wf_recv in *.
  assert (Hnext : m_nProxyOpID w = 0 -> 0 < n ->
    wp (ReceiveNext n 0 n) (fun _ => step_ok w) w).
  { intros Hid Hn. apply wp_ReceiveNext; [done|lia|apply Hc| |].
    - intros. destruct Hc. layer_ok.
    - intros. destruct Hc. layer_ok. }
  apply wp_exec, wp_if; intros Hn; [destruct Hc; repeat layer_step; layer_ok|].
  apply wp_if; intros Hn0; [apply wp_ret, step_ok_same; auto|].
  apply wp_bind, wp_gets, wp_if; intros Hid; bool_hyps;
    [destruct Hc; repeat layer_step; layer_ok|].
  apply wp_bind, wp_gets. destruct (m_pAppRecvBuffer w) as [[data pos]|] eqn:Ea;
    [|apply Hnext; lia].
  apply wp_if; intros Hp; [|apply Hnext; lia]. bool_hyps.
  apply wp_bind, wp_modify, wp_ret. destruct Hc. rewrite Ea in wf_app. cbn [send_ok] in wf_app.
  assert (Hs : send_ok (if pos + Z.min n (Z.of_nat (length data) - pos) =? Z.of_nat (length data)
             then None else Some (data, pos + Z.min n (Z.of_nat (length data) - pos)))).
  { case_match; [done|]. bool_hyps. cbn [send_ok]. lia. }
  layer_ok.
Qed.

Lemma Close_ok w : wf_layer w -> call_ok w (exec Close w).
Proof.
  intros [Hw Hr]. apply wp_exec. unfold Close, wf_recv in *. destruct Hw.
  unfold CloseNext. repeat layer_step. call_done.
Qed.
End Reading.
