(* ===== verification/ProxyLayerSafety.v ===== *)
(** * The proxy layer as a machine

    The events delivered to the layer ([CallEvent]) and the calls made on it,
    as one labelled transition function [layer_step_fn], with the conditions
    the code asserts of its callers.  From a new layer, every run keeps the
    invariant, never reaches outside a buffer, and ends every operation with
    exactly one terminal event. *)

From S2P Require Import Prelude Winsock SockAddr Effects Socks5UdpCodec AutoBuffer ProxyLayer.
From S2P Require Import ProxyLayerUdp ProxyLayerRules ProxyLayerInv.

(** The constructor: no proxy, no buffers, the outside as given. *)
Definition no_proxy : t_proxydata := mkProxyData PROXYTYPE_NOPROXY [] 0 [] [] false.
Definition new_layer : world := {|
  m_nLayerState := notsock; m_nCriticalError := 0; hSocketValid := true;
  m_nProxyOpID := 0; m_nProxyOpState := 0; m_pRecvBuffer := None; m_pStrBuffer := [];
  m_pSendBuffer := None; m_pAppRecvBuffer := None; m_nProxyPeerPort := 0; m_nProxyPeerIP := 0;
  m_proxyPeerAddress := SockAddr.Clear; m_pProxyPeerHost := None; m_ProxyData := no_proxy;
  m_pS5UC := PNull; m_udpcltAddr := mkSOCKADDR_IN 0 0 0; m_udpsrvAddr := mkSOCKADDR_IN 0 0 0;
  m_udpBuffer := new_autoBuffer; m_secureUdpBuffer := new_autoBuffer; m_securePsk := [];
  m_pSecureLayer := PNull; rx := []; tx := []; drx := []; conns := []; peername := None;
  heap_ok := true; lasterr := 0; out := [] |}.

Inductive layer_event :=
  | EvCall (nEvent nErrorCode : Z)             (* CallEvent *)
  | EvCreate                                   (* a stream socket was created *)
  | EvConnectHost (host : bytes) (port : Z)
  | EvConnectAddr (addr : option _SockAddr) (len : Z)
  | EvListen (backlog : Z)
  | EvUdpAssociate (addThis addSecure create : bool)
  | EvSend (data : bytes)
  | EvReceive (n : Z)
  | EvClose
  | EvSetProxyNone
  | EvSetProxy (type : Z) (host : bytes) (port : Z) (logon : option (bytes * bytes))
  | EvSetSecure (supports : bool) (psk : bytes)
  | EvPrepareListen (ip : Z)
  | EvNetwork (r : list rx_event) (t : list tx_event) (c : list (bool * Z))
      (peer : option SOCKADDR_IN) (heap : bool).   (* what the outside will answer next *)

(** What the callers ensure: proxy settings and new operations only while none
    is pending (the code asserts it), connecting from a socket that is not
    listening, a usable backlog, and bytes that are bytes. *)
Definition admissible (e : layer_event) (w : world) : Prop :=
  match e with
  | EvConnectHost _ _ | EvConnectAddr _ _ | EvUdpAssociate _ _ _ =>
      m_nProxyOpID w = 0 /\ m_nLayerState w <> listening
  | EvListen backlog =>
      m_nProxyOpID w = 0 /\ m_nLayerState w <> listening /\ u32 backlog <> 0
  | EvSetProxyNone | EvSetProxy _ _ _ _ | EvPrepareListen _ | EvCreate => m_nProxyOpID w = 0
  | EvNetwork r _ _ _ _ => rx_ok r
  | EvCall _ _ | EvSend _ | EvReceive _ | EvClose | EvSetSecure _ _ => True
  end.

#[global] Instance rx_ok_dec r : Decision (rx_ok r).
Proof. apply Forall_dec. intros []; apply _. Defined.
#[global] Instance admissible_dec e w : Decision (admissible e w).
Proof. destruct e; cbn [admissible]; apply _. Defined.

Section Machine.
Context {platform : Platform}.

Definition layer_step_fn (e : layer_event) (w : world) : world :=
  match e with
  | EvCall nEvent nErrorCode => exec (CallEvent nEvent nErrorCode) w
  | EvCreate => exec (in_state notsock (SetLayerState unconnected)) w
  | EvConnectHost host port => exec (ConnectHost host port) w
  | EvConnectAddr addr len => exec (ConnectAddr addr len) w
  | EvListen backlog => exec (Listen backlog) w
  | EvUdpAssociate a b c => exec (GetUdpProxyAddr a b c) w
  | EvSend data => exec (Send data) w
  | EvReceive n => exec (Receive n) w
  | EvClose => exec Close w
  | EvSetProxyNone => exec (SetProxyNone PROXYTYPE_NOPROXY) w
  | EvSetProxy type host port None => exec (SetProxy type host port) w
  | EvSetProxy type host port (Some (u, p)) => exec (SetProxyLogon type host port u p) w
  | EvSetSecure supports psk => exec (SetSecureTransport supports psk) w
  | EvPrepareListen ip => exec (PrepareListen ip) w
  | EvNetwork r t c peer heap =>
      set_rx (rx w ++ r) (set_tx t (set_conns c (set_peername peer (set_heap_ok heap w))))
  end.

Inductive layer_run : world -> list layer_event -> world -> Prop :=
  | run_nil w : layer_run w [] w
  | run_cons w e es w' :
      admissible e w -> layer_run (layer_step_fn e w) es w' -> layer_run w (e :: es) w'.

(** The same, computed. *)
Fixpoint admissible_run (es : list layer_event) (w : world) : bool :=
  match es with
  | [] => true
  | e :: es => bool_decide (admissible e w) && admissible_run es (layer_step_fn e w)
  end.
Definition run_all (es : list layer_event) (w : world) : world :=
  fold_left (fun w e => layer_step_fn e w) es w.

Lemma layer_run_intro es w : admissible_run es w = true -> layer_run w es (run_all es w).
Proof.
  revert w. induction es as [|e es IH]; intros w H; [constructor|].
  cbn [admissible_run] in H. apply andb_true_iff in H as [H1 H2]. bool_hyps.
  constructor; [done|]. by apply IH.
Qed.

(** ** [CallEvent] *)

(** Entering a handler: the error is recorded and the state moves on. *)
Definition entered (err : Z) (s : LayerState) (w : world) : world :=
  set_out (out w ++ state_out s (m_nLayerState w))
    (set_m_nLayerState s (set_m_nCriticalError err w)).

Lemma wf_entered err s w :
  wf_layer w -> (m_nProxyOpID w <> 0 -> s <> listening) -> wf_layer (entered err s w).
Proof.
  intros [Hw Hr] Hs. unfold entered, wf_recv in *. destruct Hw. split; [constructor|]; layer_simpl; auto.
  intros H. split; [by apply wf_busy|by apply Hs].
Qed.

Lemma entered_ok err s w w' :
  step_ok (entered err s w) w' -> step_ok w w'.
Proof.
  apply (step_ok_via w (entered err s w) w' (state_out s (m_nLayerState w)));
    try done; [apply faults_state|apply terminals_state].
Qed.

Lemma in_state_ok err s s' (m : ML unit) w :
  wf_layer w -> (m_nProxyOpID w <> 0 -> s' <> listening) ->
  (wf_layer (entered err s' w) -> m_nLayerState w = s ->
   step_ok (entered err s' w) (exec m (entered err s' w))) ->
  wp (in_state s (SetLayerState s';; m)) (fun _ => step_ok w) (set_m_nCriticalError err w).
Proof.
  intros Hw Hs Hm. unfold in_state. apply wp_bind, wp_gets, wp_when; intros Hst.
  - bool_hyps. cbn [m_nLayerState set_m_nCriticalError] in Hst. apply wp_bind, wp_SetLayerState, wp_exec.
    apply (entered_ok err s'). apply Hm; [by apply wf_entered|done].
  - split; [|split; [done|split; [done|]]].
    + destruct Hw as [Hw Hr]. unfold wf_recv in Hr. destruct Hw. layer_wf.
    + layer_simpl. intros. destruct (Z.eqb_spec (m_nProxyOpID w) 0); [done|lia].
Qed.

(** The read and write events change the state only on an error. *)
Lemma in_state_rw_ok err (m : ML unit) w :
  wf_layer w -> (forall w1, wf_layer w1 -> step_ok w1 (exec m w1)) ->
  wp (in_state connected (when (negb (err =? 0)) (SetLayerState aborted);; m))
     (fun _ => step_ok w) (set_m_nCriticalError err w).
Proof.
  intros Hw Hm. destruct (negb (err =? 0)) eqn:E.
  - apply in_state_ok; [done|done|]. intros. by apply Hm.
  - unfold in_state. apply wp_bind, wp_gets, wp_when; intros Hst.
    + apply wp_exec.
      assert (Hw1 : wf_layer (set_m_nCriticalError err w)).
      { destruct Hw as [Hw Hr]. unfold wf_recv in Hr. destruct Hw. layer_wf. }
      apply (step_ok_from w (set_m_nCriticalError err w)); try done. by apply Hm.
    + split; [|split; [done|split; [done|]]].
      * destruct Hw as [Hw Hr]. unfold wf_recv in Hr. destruct Hw. layer_wf.
      * layer_simpl. intros. destruct (Z.eqb_spec (m_nProxyOpID w) 0); [done|lia].
Qed.

Lemma step_ok_CallEvent ev err w : wf_layer w -> step_ok w (exec (CallEvent ev err) w).
Proof.
  intros Hw. unfold CallEvent. apply wp_exec, wp_bind, wp_gets, wp_if; intros _;
    [by apply wp_ret, step_ok_same|].
  apply wp_bind, wp_modify.
  assert (Hsame : step_ok w (set_m_nCriticalError err w)).
  { split; [|split; [done|split; [done|]]].
    - destruct Hw as [Hw Hr]. unfold wf_recv in Hr. destruct Hw. layer_wf.
    - layer_simpl. intros. destruct (Z.eqb_spec (m_nProxyOpID w) 0); [done|lia]. }
  apply wp_if; intros _; [apply in_state_rw_ok; auto using step_ok_OnReceive|].
  apply wp_if; intros _; [apply in_state_rw_ok; auto using step_ok_OnSend|].
  apply wp_if; intros _.
  { apply in_state_ok; [done|by case_match|]. intros. by apply step_ok_OnConnect. }
  apply wp_if; intros _.
  { apply in_state_ok; [done|by case_match|]. intros Hwe Hl. unfold OnAccept.
    apply step_ok_trigger; [done|]. cbn [m_nProxyOpID entered set_out set_m_nLayerState set_m_nCriticalError].
    destruct (Z.eq_dec (m_nProxyOpID w) 0) as [|n]; [done|].
    by destruct (wf_busy w (proj1 Hw) n). }
  apply wp_if; intros _.
  { apply in_state_ok; [done|by case_match|]. intros. by apply step_ok_OnClose. }
  by apply wp_ret.
Qed.

(** ** Every transition *)

Lemma recv_ok_type t st b t' : st = 0 -> recv_ok t st b -> recv_ok t' st b.
Proof. intros -> H. by eapply recv_ok_other. Qed.

Lemma set_data_ok w d :
  wf_layer w -> m_nProxyOpID w = 0 -> call_ok w (set_m_ProxyData d w).
Proof.
  intros [Hw Hr] Hid. assert (H0 : m_nProxyOpState w = 0) by (by apply Hw).
  unfold wf_recv in Hr. split; [|done]. split; [destruct Hw; constructor; layer_simpl; auto; lia|].
  unfold wf_recv. layer_simpl. by eapply recv_ok_type.
Qed.

Lemma call_ok_same w : wf_layer w -> call_ok w w.
Proof. done. Qed.

Lemma call_ok_step e w :
  wf_layer w -> admissible e w ->
  call_ok w (layer_step_fn e w) /\ (e <> EvClose -> step_ok w (layer_step_fn e w)).
Proof.
  intros Hw Ha.
  assert (Hs : forall w', step_ok w w' -> call_ok w w' /\ (e <> EvClose -> step_ok w w')).
  { intros w' H. split; [|done]. destruct H as (? & ? & ? & _). by split. }
  assert (Hc : forall w', m_nProxyOpID w = 0 -> call_ok w w' ->
                call_ok w w' /\ (e <> EvClose -> step_ok w w')).
  { intros w' Hid H. split; [done|]. intros _. by apply step_ok_call. }
  destruct e; cbn [layer_step_fn admissible] in *.
  - apply Hs. by apply step_ok_CallEvent.
  - apply Hc; [done|]. apply wp_exec. unfold in_state. destruct Hw as [Hw Hr]. unfold wf_recv in Hr.
    destruct Hw. repeat layer_step; call_done.
  - destruct Ha. apply Hc; [done|]. apply wp_exec. by apply ConnectHost_ok.
  - destruct Ha. apply Hc; [done|]. apply wp_exec. by apply ConnectAddr_ok.
  - destruct Ha as (? & ? & ?). apply Hc; [done|]. apply wp_exec. by apply Listen_ok.
  - destruct Ha. apply Hc; [done|]. apply wp_exec. by apply GetUdpProxyAddr_ok.
  - apply Hs. by apply Send_ok.
  - apply Hs. by apply Receive_ok.
  - split; [|done]. by apply Close_ok.
  - apply Hc; [done|]. by apply set_data_ok.
  - apply Hc; [done|]. destruct logon as [[u p]|]; by apply set_data_ok.
  - apply Hs. unfold SetSecureTransport. apply wp_exec. destruct Hw as [Hw Hr]. unfold wf_recv in Hr.
    destruct Hw. repeat layer_step; layer_ok.
  - apply Hc; [done|]. unfold PrepareListen. apply wp_exec. destruct Hw as [Hw Hr].
    unfold wf_recv in Hr. destruct Hw. repeat layer_step; call_done.
  - apply Hs. split; [|split; [done|split; [done|]]].
    + destruct Hw as [Hw Hr]. unfold wf_recv in Hr. destruct Hw. layer_wf. apply Forall_app. by split.
    + layer_simpl. intros. destruct (Z.eqb_spec (m_nProxyOpID w) 0); [done|lia].
Qed.

Lemma wf_new_layer : wf_layer new_layer.
Proof. split; [constructor; cbn; try done; try lia; try apply Forall_nil_2|done]. Qed.

Lemma layer_run_ok w es w' :
  layer_run w es w' -> wf_layer w -> hSocketValid w = true -> faults (out w) = 0 ->
  wf_layer w' /\ hSocketValid w' = true /\ faults (out w') = 0.
Proof.
  induction 1 as [w|w e es w' Ha Hr IH]; intros Hw Hv Hf; [done|].
  destruct (call_ok_step e w Hw Ha) as [(H1 & H2 & H3) _]. apply IH; congruence.
Qed.

Lemma count_nonneg f o : 0 <= count f o.
Proof. induction o as [|x o IH]; cbn [count]; [done|]. destruct (f x); lia. Qed.

Lemma no_fault o x : faults o = 0 -> x ∈ o -> is_fault x = false.
Proof.
  unfold faults. induction o as [|y o IH]; intros H; [by intros ?%elem_of_nil|].
  cbn [count] in H. pose proof (count_nonneg is_fault o).
  intros [->|Hx]%elem_of_cons; [destruct (is_fault y); [lia|done]|].
  apply IH; [destruct (is_fault y); lia|done].
Qed.

Lemma faults_zero o :
  faults o = 0 ->
  (OFault ∉ o) /\ (forall text, OPast text ∈ o -> overrun_text text = true).
Proof.
  intros H. split; [by intros Hx%(no_fault _ _ H)|].
  intros text Hx%(no_fault _ _ H). by apply negb_false_iff.
Qed.

(** C1: what the proxy layer can touch.  Whatever sequence of socket events
    and calls a new layer sees, with any bytes from the proxy in any
    segmentation, any short writes and any errors, the layer's invariant holds
    afterwards (buffers within their sizes and positions within their buffers,
    the receive buffer sized for the reply it waits for) and the run contains
    no out-of-bounds access, no null host and no loop that outlives its fuel,
    with one exception that is described exactly: the scan of an HTTP status
    line, which the code does not bound, leaves the buffer only for a response
    that is [HTTP/] followed by nothing but digits, signs, dots and white
    space up to the end of what was received.  (A scanner that measures the
    text before it converts anything leaves the buffer for every response.
    The datagram calls, [WSASendTo] and the like, are not among the calls
    here; ProxyUdp.v has them.) *)
Theorem layer_memory_safe (es : list layer_event) (w' : world) :
  layer_run new_layer es w' ->
  wf_layer w' /\ (OFault ∉ out w') /\
  (forall text, OPast text ∈ out w' -> overrun_text text = true).
Proof.
  intros H. destruct (layer_run_ok _ _ _ H wf_new_layer) as (H1 & _ & H3); [done|done|].
  split; [done|]. by apply faults_zero.
Qed.

(** C2: a pending operation ends with exactly one terminal event.  In any
    state a new layer can reach, while an operation is pending, an event or a
    call (other than closing the layer) posts one FD_CONNECT or FD_ACCEPT if
    it ends the operation and none if it does not: the application is told
    the outcome once, never twice and never silently. *)
Theorem operation_ends_once (es : list layer_event) (w : world) (e : layer_event) :
  layer_run new_layer es w -> admissible e w -> e <> EvClose -> m_nProxyOpID w <> 0 ->
  terminals (out (layer_step_fn e w))
  = terminals (out w) + (if m_nProxyOpID (layer_step_fn e w) =? 0 then 1 else 0).
Proof.
  intros H Ha He Hid. destruct (layer_run_ok _ _ _ H wf_new_layer) as (H1 & H2 & _); [done|done|].
  destruct (call_ok_step e w H1 Ha) as [_ Hs]. by apply Hs.
Qed.
End Machine.

(** ** A concrete run: SOCKS5 without logon, the reply in two pieces *)

Definition test_platform : Platform := {|
  inet_addr := fun _ => INADDR_NONE;
  gethostbyname := fun _ => None;
  inet_ntoa := fun ip => ascii_bytes "0.0.0.0";
  ProxyInetNtopA6 := fun _ => None;
  u_overflow := fun v => v mod 4294967296;
  uninit := 0;
  behind := fun _ => None |}.

Definition demo_events : list layer_event :=
  [EvCreate;
   EvSetProxy PROXYTYPE_SOCKS5 (ascii_bytes "proxy") 1080 None;
   EvNetwork [] (replicate 4 (TxAccept 1000)) [(false, WSAEWOULDBLOCK)] None true;
   EvConnectHost (ascii_bytes "example.org") 443;
   EvCall FD_CONNECT 0;
   EvNetwork [RxData [5]; RxData [0]] (replicate 4 (TxAccept 1000)) [] None true;
   EvCall FD_READ 0; EvCall FD_READ 0].

Definition demo_state : world := run_all (platform := test_platform) demo_events new_layer.

(** A proxy whose status line has no status: the scan runs out of the text. *)
Definition no_status : bytes := ascii_bytes "HTTP/1.1" ++ [13; 10; 13; 10].
Definition no_status_events : list layer_event :=
  [EvCreate;
   EvSetProxy PROXYTYPE_HTTP11 (ascii_bytes "proxy") 8080 None;
   EvNetwork [] (replicate 4 (TxAccept 1000)) [(false, WSAEWOULDBLOCK)] None true;
   EvConnectHost (ascii_bytes "example.org") 443;
   EvCall FD_CONNECT 0;
   EvNetwork [RxData no_status] [] [] None true;
   EvCall FD_READ 0].
Definition no_status_state : world := run_all (platform := test_platform) no_status_events new_layer.

Definition is_past (x : output) : bool := match x with OPast _ => true | _ => false end.

Lemma layer_memory_safe_witness :
  (m_nProxyOpState demo_state = 3 /\ wf_layer demo_state /\ (OFault ∉ out demo_state) /\
   (forall text, OPast text ∈ out demo_state -> overrun_text text = true)) /\
  filter is_past (out no_status_state) = [OPast no_status] /\
  overrun_text no_status = true.
Proof.
  split; [split; [vm_compute; reflexivity|]|split; [vm_compute; reflexivity|]].
  - apply (layer_memory_safe (platform := test_platform) demo_events).
    apply layer_run_intro. vm_compute. reflexivity.
  - apply (layer_memory_safe (platform := test_platform) no_status_events no_status_state).
    + apply layer_run_intro. vm_compute. reflexivity.
    + apply list_elem_of_In. vm_compute. tauto.
Defined.

(** The proxy then drops the connection. *)
Lemma operation_ends_once_witness :
  m_nProxyOpID demo_state = PROXYOP_CONNECT /\
  terminals (out (layer_step_fn (platform := test_platform) (EvCall FD_CLOSE 0) demo_state)) = 1.
Proof.
  split; [vm_compute; reflexivity|].
  rewrite (operation_ends_once (platform := test_platform) demo_events).
  - vm_compute. reflexivity.
  - apply layer_run_intro. vm_compute. reflexivity.
  - exact I.
  - discriminate.
  - vm_compute. discriminate.
Defined.
