(* ===== verification/ProxySocks5.v ===== *)
(** * The SOCKS5 handshake does not depend on segmentation

    The proxy's bytes may arrive in any pieces, with any number of reads that
    would block between them.  [read_target] says that repeated FD_READ events
    collect exactly one reply and leave the rest of the stream alone; the
    handshake theorems put it together for CONNECT and UDP ASSOCIATE. *)

From S2P Require Import Prelude Winsock SockAddr Effects Socks5UdpCodec ProxyLayer.
From S2P Require Import ProxyLayerRules ProxyLayerInv.

(** ** Benign scripts: data and would-block, no error and no end *)

Definition benign (r : list rx_event) : Prop :=
  Forall (fun e => match e with RxData b => b <> [] | RxBlock => True | _ => False end) r.

Definition rx_bytes (r : list rx_event) : bytes :=
  r ≫= (fun e => match e with RxData b => b | _ => [] end).

(** Reads a script can answer: one per would-block and at most one per byte. *)
Fixpoint script_size (r : list rx_event) : nat :=
  match r with
  | [] => O
  | RxData b :: r => (length b + script_size r)%nat
  | _ :: r => S (script_size r)
  end.

(** The part of the state a pending read changes. *)
Definition upd (r : list rx_event) (e : Z) (b : option (Z * bytes)) (w : world) : world :=
  set_m_pRecvBuffer b (set_rx r (set_lasterr e w)).

Lemma upd_upd r e b r' e' b' w : upd r e b (upd r' e' b' w) = upd r e b w.
Proof. done. Qed.
Lemma upd_id w : upd (rx w) (lasterr w) (m_pRecvBuffer w) w = w.
Proof. by destruct w. Qed.

Lemma recv_benign n w :
  0 < n -> benign (rx w) -> rx_bytes (rx w) <> [] ->
  (exists r, recv n w = ((SOCKET_ERROR, []), upd r WSAEWOULDBLOCK (m_pRecvBuffer w) w) /\
     benign r /\ rx_bytes r = rx_bytes (rx w) /\ (script_size r < script_size (rx w))%nat) \/
  (exists got r, recv n w = ((Z.of_nat (length got), got), set_rx r w) /\
     benign r /\ got <> [] /\ Z.of_nat (length got) <= n /\
     got ++ rx_bytes r = rx_bytes (rx w) /\ (script_size r < script_size (rx w))%nat).
Proof.
  intros Hn Hb Hne. unfold recv. destruct (rx w) as [|[b| |e|] r] eqn:Er; [done| | | |];
    unfold benign in Hb; rewrite Forall_cons in Hb; destruct Hb as [Hh Hb]; try done.
  - right. set (k := Z.to_nat n).
    exists (take k b), (match drop k b with [] => r | l => RxData l :: r end).
    assert (Ht : (0 < length (take k b))%nat).
    { rewrite length_take. destruct b; [done|]. cbn [length]. lia. }
    split; [done|]. split; [|split; [|split; [|split]]].
    + destruct (drop k b); [done|]. by apply Forall_cons.
    + intros E. rewrite E in Ht. simpl in Ht. lia.
    + rewrite length_take. lia.
    + rewrite <- (take_drop k b) at 3. destruct (drop k b); cbn [rx_bytes mbind list_bind app];
        by rewrite <- app_assoc.
    + assert (Hl : length b = (length (take k b) + length (drop k b))%nat)
        by (rewrite length_take, length_drop; lia).
      destruct (drop k b); cbn [script_size length] in *; lia.
  - left. exists r. split; [by destruct w|]. split; [done|]. split; [done|]. cbn. lia.
Qed.

Section Handshake.
Context {platform : Platform}.

(** Deliver FD_READ until the operation is over, at most [n] times. *)
Fixpoint pump (n : nat) (w : world) : world :=
  match n with
  | O => w
  | S n => if m_nProxyOpID w =? 0 then w else pump n (exec (OnReceive 0) w)
  end.

Lemma pump_add n m w : pump (n + m) w = pump m (pump n w).
Proof.
  revert w. induction n as [|n IH]; intros w; [done|]. cbn [pump Nat.add].
  destruct (m_nProxyOpID w =? 0) eqn:E; [|apply IH]. destruct m; cbn [pump]; [done|by rewrite E].
Qed.

(** Reading one reply [T] whose continuation waits on every shorter prefix. *)
Section Target.
Variables (newSize : Z) (L : bytes -> Z) (cleanup : ML unit) (k : bytes -> ML unit).
Variable T : bytes.
Hypothesis T_room : Z.of_nat (length T) <= newSize.
Hypothesis L_ok : forall p q, p ++ q = T -> q <> [] ->
  Z.of_nat (length p) < L p <= Z.of_nat (length T).
Hypothesis k_waits : forall p q, p ++ q = T -> q <> [] -> k p = mret tt.

Lemma read_target w p q rest :
  (forall r e b, exec (OnReceive 0) (upd r e b w)
                 = exec (ReadReply newSize L cleanup k) (upd r e b w)) ->
  m_nProxyOpID w <> 0 -> next_error w = None ->
  default (newSize, []) (m_pRecvBuffer w) = (newSize, p) -> p ++ q = T -> q <> [] ->
  benign (rx w) -> rx_bytes (rx w) = q ++ rest ->
  exists n r e, pump n w = exec (k T) (upd r e (Some (newSize, T)) w) /\
    benign r /\ rx_bytes r = rest /\ (n + script_size r <= script_size (rx w))%nat.
Proof.
  remember (script_size (rx w)) as m eqn:Em. revert w p q Em.
  induction m as [m IH] using lt_wf_ind. intros w p q -> Hh Hid Hne Hbuf HT Hq Hben Hrx.
  destruct (L_ok p q HT Hq) as [HL1 HL2].
  assert (Hnz : rx_bytes (rx w) <> []) by (rewrite Hrx; by destruct q).
  assert (E1 : forall n, pump (S n) w = pump n (exec (ReadReply newSize L cleanup k) w)).
  { intros n. cbn [pump]. destruct (Z.eqb_spec (m_nProxyOpID w) 0); [done|].
    pose proof (Hh (rx w) (lasterr w) (m_pRecvBuffer w)) as H0. rewrite upd_id in H0. by rewrite H0. }
  (* one read *)
  set (w0 := set_m_pRecvBuffer (Some (newSize, p)) w).
  assert (ER : forall Q : world -> Prop,
     (forall r, benign r -> rx_bytes r = rx_bytes (rx w) -> (script_size r < script_size (rx w))%nat ->
        Q (upd r WSAEWOULDBLOCK (Some (newSize, p)) w)) ->
     (forall r got, benign r -> got <> [] -> Z.of_nat (length got) <= L p - Z.of_nat (length p) ->
        got ++ rx_bytes r = rx_bytes (rx w) -> (script_size r < script_size (rx w))%nat ->
        Q (exec (k (p ++ got)) (upd r (lasterr w) (Some (newSize, p ++ got)) w))) ->
     Q (exec (ReadReply newSize L cleanup k) w)).
  { intros Q HB HD. apply wp_exec. unfold ReadReply. apply wp_bind, wp_gets. rewrite Hbuf.
    apply wp_bind, wp_modify, wp_bind. unfold ReceiveNext. apply wp_bind, wp_gets.
    change (next_error (set_m_pRecvBuffer (Some (newSize, p)) w)) with (next_error w).
    rewrite Hne. apply wp_bind.
    rewrite (proj2 (Z.ltb_lt 0 (L p - Z.of_nat (length p)))) by lia.
    rewrite (proj2 (Z.leb_le (Z.of_nat (length p) + (L p - Z.of_nat (length p))) newSize)) by lia.
    apply wp_ret. unfold wp at 1. fold w0.
    destruct (recv_benign (L p - Z.of_nat (length p)) w0) as
      [(r & -> & Hr1 & Hr2 & Hr3)|(got & r & -> & Hr1 & Hr2 & Hr3 & Hr4 & Hr5)]; [lia|done|done| |].
    - cbn beta iota. rewrite Z.eqb_refl. apply wp_bind, wp_gets. cbn. by apply HB.
    - cbn beta iota.
      destruct (Z.eqb_spec (Z.of_nat (length got)) SOCKET_ERROR); [unfold SOCKET_ERROR in *; lia|].
      destruct (Z.eqb_spec (Z.of_nat (length got)) 0); [destruct got; [done|simpl in *; lia]|].
      apply wp_bind, wp_modify, wp_exec.
      specialize (HD r got Hr1 Hr2 Hr3 Hr4 Hr5). by destruct w. }
  revert E1. pattern (exec (ReadReply newSize L cleanup k) w). apply ER; clear ER.
  - intros r Hr1 Hr2 Hr3 E1.
    destruct (IH (script_size r) Hr3 (upd r WSAEWOULDBLOCK (Some (newSize, p)) w) p q)
      as (n & r' & e' & En & Hb' & Hr' & Hm'); try done.
    { exact (eq_trans Hr2 Hrx). }
    exists (S n), r', e'. rewrite E1, En, upd_upd. split; [done|]. split; [done|]. split; [done|].
    cbn [rx upd set_m_pRecvBuffer set_rx set_lasterr] in Hm'. lia.
  - intros r got Hr1 Hr2 Hr3 Hr4 Hr5 E1. rewrite Hrx in Hr4.
    (* what came is a prefix of what is missing *)
    assert (Hlq : (length got <= length q)%nat).
    { rewrite <- HT, length_app in HL2. lia. }
    assert (Hgot : exists q', q = got ++ q' /\ rx_bytes r = q' ++ rest).
    { exists (drop (length got) q).
      assert (Hg : take (length got) (q ++ rest) = got) by (rewrite <- Hr4; apply take_app_length).
      rewrite take_app_le in Hg by done.
      split; [rewrite <- Hg at 1; by rewrite take_drop|].
      assert (Hd : drop (length got) (q ++ rest) = rx_bytes r)
        by (rewrite <- Hr4; apply drop_app_length).
      by rewrite drop_app_le in Hd. }
    destruct Hgot as (q' & -> & Hrr). rewrite app_assoc in HT.
    destruct q' as [|b q'].
    + rewrite app_nil_r in HT. exists 1%nat, r, (lasterr w).
      rewrite E1. cbn [pump]. rewrite HT. split; [done|]. split; [done|]. split; [done|]. lia.
    + rewrite (k_waits (p ++ got) (b :: q') HT) in E1 by done.
      destruct (IH (script_size r) Hr5 (upd r (lasterr w) (Some (newSize, p ++ got)) w)
                  (p ++ got) (b :: q')) as (n & r' & e' & En & Hb' & Hr' & Hm'); try done.
      exists (S n), r', e'. rewrite E1. unfold exec at 1. cbn [snd mret M_ret].
      rewrite En, upd_upd. split; [done|]. split; [done|]. split; [done|].
      cbn [rx upd set_m_pRecvBuffer set_rx set_lasterr] in Hm'. lia.
Qed.
End Target.
End Handshake.

From S2P Require Import ProxyLayerUdp ProxyLayerSafety.

(** * The SOCKS5 handshake as a whole

    From the connection to the proxy to the end of the operation: the greeting,
    the method answer, the optional credentials, the request and its reply.
    [after] is the part of the layer a handshake changes; each phase has an
    equation for it, and the theorems chain them for any segmentation of the
    proxy's bytes. *)

(** ** What a handshake changes *)

Definition after (st : Z) (r : list rx_event) (t : list tx_event) (e : Z) (o : list output)
    (w : world) : world :=
  set_m_nProxyOpState st (set_m_pRecvBuffer None (set_m_pStrBuffer []
    (set_rx r (set_tx t (set_lasterr e (set_out (out w ++ o) w)))))).

Lemma after_after st r t e o st' r' t' e' o' w :
  after st' r' t' e' o' (after st r t e o w) = after st' r' t' e' (o ++ o') w.
Proof. unfold after. cbn. by rewrite app_assoc. Qed.

Lemma after_upd st r t e o r0 e0 b w : after st r t e o (upd r0 e0 b w) = after st r t e o w.
Proof. done. Qed.

(** A pending operation in state [st], ready to send and receive. *)
Record phase_of (type id st : Z) (w : world) : Prop := {
  ph_id : m_nProxyOpID w = id;
  ph_state : m_nProxyOpState w = st;
  ph_type : nProxyType (m_ProxyData w) = type;
  ph_layer : m_nLayerState w = connected;
  ph_crit : m_nCriticalError w = 0;
  ph_send : m_pSendBuffer w = None;
  ph_heap : heap_ok w = true;
  ph_valid : hSocketValid w = true
}.

Abbreviation phase := (phase_of PROXYTYPE_SOCKS5).

Lemma phase_next_error type id st w : phase_of type id st w -> next_error w = None.
Proof. intros []. unfold next_error. by rewrite ph_crit0, ph_layer0. Qed.

Lemma phase_after type id st st' r t e o w :
  phase_of type id st w -> phase_of type id st' (after st' r t e o w).
Proof. intros []. by constructor. Qed.

(** ** Sending *)

Lemma flush_all data k t w :
  next_error w = None -> m_pSendBuffer w = Some (data, 0) -> 0 < Z.of_nat (length data) <= k ->
  tx w = TxAccept k :: t ->
  FlushProxyRequest w
  = (true, set_m_pSendBuffer None (set_out (out w ++ [OSend data]) (set_tx t w))).
Proof.
  intros Hne Hb Hk Ht. unfold FlushProxyRequest, mbind, M_bind, gets. unfold flush_fuel at 1.
  rewrite Hb. destruct data as [|b data]; [simpl in Hk; lia|].
  change (length (b :: data) - Z.to_nat 0)%nat with (S (length data)).
  cbn [flush_loop]. unfold mbind, M_bind, gets. rewrite Hb.
  rewrite (proj2 (Z.leb_gt _ _)) by lia. unfold SendNext, mbind, M_bind, gets. rewrite Hne.
  unfold send. rewrite Ht. change (drop (Z.to_nat 0) (b :: data)) with (b :: data).
  rewrite take_ge by lia.
  destruct (Z.eqb_spec (Z.of_nat (length (b :: data))) SOCKET_ERROR);
    [unfold SOCKET_ERROR in *; lia|].
  rewrite (proj2 (Z.leb_gt _ _)) by lia. unfold modify. cbn [m_pSendBuffer set_m_pSendBuffer].
  assert (El : forall f w', m_pSendBuffer w' = Some (b :: data, 0 + Z.of_nat (length (b :: data))) ->
            flush_loop f w' = (true, w')).
  { intros f w' E. destruct f; cbn [flush_loop]; unfold mbind, M_bind, gets; rewrite E;
    by rewrite (proj2 (Z.leb_le _ _)) by lia. }
  rewrite El by done. cbn [m_pSendBuffer set_m_pSendBuffer].
  rewrite Z.add_0_l, Z.eqb_refl. by destruct w.
Qed.

Lemma queue_all data k t w :
  next_error w = None -> m_pSendBuffer w = None -> heap_ok w = true ->
  0 < Z.of_nat (length data) <= k -> tx w = TxAccept k :: t ->
  QueueProxyRequest data (Z.of_nat (length data)) w
  = (true, set_out (out w ++ [OSend data]) (set_tx t w)).
Proof.
  intros Hne Hb Hh Hk Ht. unfold QueueProxyRequest, mbind, M_bind, gets. rewrite Hb.
  rewrite (proj2 (Z.leb_gt _ _)) by lia. cbn [orb]. rewrite Hh. cbn [negb].
  rewrite Nat2Z.id, take_ge by lia. unfold modify.
  rewrite (flush_all data k t); [|by destruct w|done|done|by destruct w].
  destruct w; cbn in *; by subst.
Qed.

Lemma wp_queue_all data n k t Q w type id st :
  phase_of type id st w -> n = Z.of_nat (length data) -> 0 < n <= k -> tx w = TxAccept k :: t ->
  Q true (set_out (out w ++ [OSend data]) (set_tx t w)) -> wp (QueueProxyRequest data n) Q w.
Proof.
  intros Hp -> Hk Ht HQ. unfold wp. pose proof (phase_next_error _ _ _ _ Hp). destruct Hp.
  by rewrite (queue_all data k t).
Qed.

(** The name the request carries, when there is no address for the target. *)
Definition request_named (w : world) : bool :=
  negb (IsIPv6 (m_proxyPeerAddress w)) && (m_nProxyPeerIP w =? 0)
  && negb (m_nProxyOpID w =? PROXYOP_UDPASSOCIATE).

Definition request_host (w : world) : bytes :=
  if request_named w then default [] (m_pProxyPeerHost w) else [].

Definition request (w : world) : bytes := socks5_request w (request_host w).

Definition has_target (w : world) : Prop := request_named w = true -> m_pProxyPeerHost w <> None.

Lemma request_length w host : (3 <= length (socks5_request w host))%nat.
Proof. unfold socks5_request. case_match; rewrite length_app; simpl; lia. Qed.

Section Phases.
Context {platform : Platform}.

Lemma request_sent id st k t w :
  phase id st w -> has_target w -> tx w = TxAccept k :: t ->
  Z.of_nat (length (request w)) <= k ->
  exec socks5_send_request w = after 3 (rx w) t (lasterr w) [OSend (request w)] w.
Proof.
  intros Hp Hh Ht Hk. apply wp_exec. unfold socks5_send_request. apply wp_bind, wp_gets.
  fold (request_named w). fold (request_host w). fold (request w).
  set (missing := request_named w && _).
  assert (missing = false) as ->.
  { unfold has_target in Hh. subst missing. destruct (request_named w); [|done].
    destruct (m_pProxyPeerHost w); [done|]. by specialize (Hh eq_refl). }
  pose proof (request_length w (request_host w)). fold (request w) in *.
  apply wp_bind. unfold queue_or_fail. apply wp_bind.
  eapply (wp_queue_all _ _ k t); [done|done|lia|done|]. cbn beta iota.
  rewrite (proj2 (Z.eqb_neq _ _)) by (unfold SOCKET_ERROR; lia). rewrite Z.ltb_irrefl. cbn [orb].
  apply wp_ret. cbn beta iota. apply wp_bind, wp_modify. unfold ClearBuffer.
  apply wp_bind, wp_modify, wp_modify. by destruct w.
Qed.

Lemma auth_sent id st k t w (d := m_ProxyData w)
    (auth := auth_request (pd_strProxyUser d) (pd_strProxyPass d)) :
  phase id st w -> tx w = TxAccept k :: t -> Z.of_nat (length auth) <= k ->
  Z.of_nat (length auth) <= 513 ->
  exec socks5_send_auth w = after 2 (rx w) t (lasterr w) [OSend auth] w.
Proof.
  intros Hp Ht Hk Hl. apply wp_exec. unfold socks5_send_auth. apply wp_bind, wp_gets.
  fold d. fold auth. assert (0 < Z.of_nat (length auth)) by (subst auth; simpl; lia).
  unfold snprintf_length. rewrite (proj2 (Z.ltb_ge _ _)) by done.
  apply wp_bind. unfold queue_or_fail. apply wp_bind.
  eapply (wp_queue_all _ _ k t); [done|done|lia|done|]. cbn beta iota.
  rewrite (proj2 (Z.eqb_neq _ _)) by (unfold SOCKET_ERROR; lia). rewrite Z.ltb_irrefl. cbn [orb].
  apply wp_ret. cbn beta iota. apply wp_bind. unfold ClearBuffer.
  apply wp_bind, wp_modify, wp_modify, wp_modify. by destruct w.
Qed.

(** The greeting, sent when the connection to the proxy is up. *)
Lemma greeting_sent id k t w :
  phase id 0 w -> id <> 0 -> tx w = TxAccept k :: t -> 4 <= k ->
  exec (OnConnect 0) w
  = after 1 (rx w) t (lasterr w) [OSend (greeting (bUseLogon (m_ProxyData w)))] w.
Proof.
  intros Hp Hid Ht Hk. apply wp_exec. unfold OnConnect. apply wp_bind, wp_gets.
  pose proof Hp as []. rewrite ph_type0. cbn [Z.eqb PROXYTYPE_SOCKS5 PROXYTYPE_NOPROXY].
  change (PROXYTYPE_SOCKS5 =? PROXYTYPE_NOPROXY) with false. cbv iota.
  apply wp_bind, wp_gets. rewrite ph_id0, (proj2 (Z.eqb_neq _ _)) by done.
  change (negb (0 =? 0)) with false. cbv iota. apply wp_bind, wp_gets. rewrite ph_state0.
  change (negb (0 =? 0)) with false. cbv iota. apply wp_bind. unfold ClearBuffer.
  apply wp_bind, wp_modify, wp_modify.
  change ((PROXYTYPE_SOCKS5 =? PROXYTYPE_SOCKS4) || (PROXYTYPE_SOCKS5 =? PROXYTYPE_SOCKS4A))
    with false. change (PROXYTYPE_SOCKS5 =? PROXYTYPE_SOCKS5) with true. cbv iota.
  unfold OnConnect_socks5. apply wp_bind, wp_gets. layer_simpl. unfold queue_first.
  apply wp_bind. apply (wp_queue_all _ _ k t) with (type := PROXYTYPE_SOCKS5) (id := id) (st := 0); [by constructor|done| |done|].
  { destruct (bUseLogon _); simpl; lia. }
  cbn beta iota. apply wp_modify. destruct w; cbn in *; by subst.
Qed.

(** What FD_READ runs in each state of SOCKS5. *)
Definition method_cont (data : bytes) : ML unit :=
  if Z.of_nat (length data) =? 2 then socks5_method_reply data else mret tt.

Lemma OnReceive_socks5 id st w :
  phase id st w -> id <> 0 -> (st = 1 \/ st = 2 \/ st = 3 \/ st = 4) ->
  exec (OnReceive 0) w
  = exec (if st <=? 2 then OnReceive_socks5_method else OnReceive_socks5_reply) w.
Proof.
  intros [] Hid Hst. apply wp_exec. unfold OnReceive. apply wp_bind, wp_gets.
  rewrite ph_id0, (proj2 (Z.eqb_neq _ _)) by done. change (negb (0 =? 0)) with false. cbv iota.
  apply wp_bind, wp_gets, wp_bind, wp_gets. rewrite ph_state0, ph_type0.
  apply wp_exec. by destruct Hst as [->|[->|[->| ->]]].
Qed.

Lemma phase_upd id st r e b w : phase id st w -> phase id st (upd r e b w).
Proof. intros []. by constructor. Qed.

(** Two bytes in state 1 or 2. *)
Lemma read_method id st a b rest w :
  phase id st w -> id <> 0 -> (st = 1 \/ st = 2) -> m_pRecvBuffer w = None ->
  benign (rx w) -> rx_bytes (rx w) = [a; b] ++ rest ->
  exists n r e, pump n w = exec (socks5_method_reply [a; b]) (upd r e (Some (2, [a; b])) w) /\
    benign r /\ rx_bytes r = rest /\ (n + script_size r <= script_size (rx w))%nat.
Proof.
  intros Hp Hid Hst Hb Hben Hrx.
  apply (read_target 2 (fun _ => 2) (mret tt) method_cont [a; b]) with (p := []) (q := [a; b]);
    try done.
  - intros p q Hpq Hq. apply (f_equal length) in Hpq. rewrite length_app in Hpq.
    destruct q; [done|]. simpl in *. lia.
  - intros p q Hpq Hq. apply (f_equal length) in Hpq. rewrite length_app in Hpq.
    unfold method_cont. destruct q; [done|]. simpl in Hpq.
    by rewrite (proj2 (Z.eqb_neq _ _)) by lia.
  - intros r e b'. rewrite (OnReceive_socks5 id st) by (auto using phase_upd; lia).
    by destruct Hst as [-> | ->].
  - by destruct Hp; subst.
  - by eapply phase_next_error.
  - by rewrite Hb.
Qed.

(** The branches of the method reply a willing server takes. *)
Lemma method_none v : m_nProxyOpState v = 1 ->
  exec (socks5_method_reply [5; 0]) v = exec socks5_send_request v.
Proof. intros H. unfold socks5_method_reply. rewrite exec_bind. cbn. by rewrite H. Qed.

Lemma method_logon v :
  m_nProxyOpState v = 1 -> bUseLogon (m_ProxyData v) = true ->
  exec (socks5_method_reply [5; 2]) v = exec socks5_send_auth v.
Proof.
  intros H Hl. unfold socks5_method_reply. rewrite exec_bind. cbn -[socks5_send_auth].
  rewrite H. cbn -[socks5_send_auth]. unfold gets, exec, mbind, M_bind. by rewrite Hl.
Qed.

Lemma method_accepted ver v : m_nProxyOpState v = 2 ->
  exec (socks5_method_reply [ver; 0]) v = exec socks5_send_request v.
Proof.
  intros H. unfold socks5_method_reply. rewrite exec_bind. cbn -[socks5_send_request].
  rewrite H. cbn -[socks5_send_request Z.eqb]. by rewrite andb_false_l.
Qed.

(** ** The reply *)

Definition complete_reply (R : bytes) : Prop :=
  bytes_ok R /\ 4 <= Z.of_nat (length R) /\
  (byte_at R 3 = 1 \/ byte_at R 3 = 3 \/ byte_at R 3 = 4) /\ socks5_length R = Z.of_nat (length R).

Definition reply_cont (data : bytes) : ML unit :=
  let pos := Z.of_nat (length data) in
  let atyp := byte_at data 3 in
  if (4 <=? pos) && negb (atyp =? 1) && negb (atyp =? 3) && negb (atyp =? 4) then
    fail_with PROXYERROR_REQUESTFAILED WSAEAFNOSUPPORT
      (LText (ascii_bytes "Unexpected ATYP received")) op_event WSAEAFNOSUPPORT;;
    Reset;; ClearBuffer
  else if (4 <=? pos) && (pos =? socks5_length data) then socks5_reply data
  else mret tt.

Lemma complete_reply_prefix p q :
  complete_reply (p ++ q) -> q <> [] ->
  Z.of_nat (length p) < socks5_length p <= Z.of_nat (length (p ++ q)).
Proof.
  intros (Hok & H4 & Ht & Hl) Hq. rewrite length_app in *.
  assert (0 < length q)%nat by (destruct q; [done|simpl; lia]).
  assert (Hb : byte_ok (byte_at (p ++ q) 4) \/ (length (p ++ q) <= 4)%nat).
  { destruct (decide (length (p ++ q) <= 4)%nat); [by right|left].
    unfold byte_at. eapply Forall_nth; [exact Hok|lia]. }
  unfold byte_ok in Hb. rewrite length_app in Hb.
  unfold socks5_length in Hl. rewrite length_app in Hl.
  rewrite (proj2 (Z.leb_le 4 (Z.of_nat (length p + length q)))) in Hl by lia.
  unfold socks5_length. revert Hl.
  destruct (Z.leb_spec 4 (Z.of_nat (length p))) as [Hp|Hp].
  - rewrite byte_at_app by lia. rewrite byte_at_app in Ht by lia.
    destruct (Z.eqb_spec (byte_at p 3) 1); [lia|].
    destruct (Z.eqb_spec (byte_at p 3) 3).
    + destruct (Z.ltb_spec (Z.of_nat (length p + length q)) 5); [lia|].
      destruct (Z.ltb_spec (Z.of_nat (length p)) 5); [lia|].
      rewrite byte_at_app by lia. lia.
    + destruct (Z.eqb_spec (byte_at p 3) 4); lia.
  - destruct (Z.eqb_spec (byte_at (p ++ q) 3) 1); [lia|].
    destruct (Z.eqb_spec (byte_at (p ++ q) 3) 3).
    + destruct (Z.ltb_spec (Z.of_nat (length p + length q)) 5); lia.
    + destruct (Z.eqb_spec (byte_at (p ++ q) 3) 4); lia.
Qed.

Lemma reply_waits p q :
  complete_reply (p ++ q) -> q <> [] -> reply_cont p = mret tt.
Proof.
  intros H Hq. pose proof (complete_reply_prefix p q H Hq) as [Hp _].
  destruct H as (_ & _ & Ht & _). unfold reply_cont.
  rewrite (proj2 (Z.eqb_neq (Z.of_nat (length p)) (socks5_length p))) by lia. rewrite andb_false_r.
  destruct (Z.leb_spec 4 (Z.of_nat (length p))); [|done].
  rewrite byte_at_app in Ht by lia. by destruct Ht as [-> |[-> | ->]].
Qed.

Lemma read_reply id st R rest w :
  phase id st w -> id <> 0 -> (st = 3 \/ st = 4) -> m_pRecvBuffer w = None ->
  complete_reply R -> benign (rx w) -> rx_bytes (rx w) = R ++ rest ->
  exists n r e, pump n w = exec (socks5_reply R) (upd r e (Some (MAX_HEADER_SIZE, R)) w) /\
    benign r /\ rx_bytes r = rest /\ (n + script_size r <= script_size (rx w))%nat.
Proof.
  intros Hp Hid Hst Hb HR Hben Hrx. pose proof HR as (Hok & H4 & Ht & Hl).
  assert (Hk : reply_cont R = socks5_reply R).
  { unfold reply_cont. rewrite (proj2 (Z.leb_le _ _)) by done. rewrite Hl, Z.eqb_refl.
    by destruct Ht as [-> |[-> | ->]]. }
  rewrite <- Hk.
  apply (read_target MAX_HEADER_SIZE socks5_length (mret tt) reply_cont R) with (p := []) (q := R);
    try done.
  - rewrite <- Hl. apply socks5_length_range, Hok.
  - intros p q <- Hq. by apply complete_reply_prefix.
  - intros p q <- Hq. by eapply reply_waits.
  - intros r e b'. rewrite (OnReceive_socks5 id st) by (auto using phase_upd; lia).
    by destruct Hst as [-> | ->].
  - by destruct Hp; subst.
  - by eapply phase_next_error.
  - by rewrite Hb.
  - intros ->. simpl in H4. lia.
Qed.

(** ** From the connection to the request *)

(** What a server that accepts answers before the request: it may choose the
    credentials, and then answers with its version and 0. *)
Definition server_method (auth : bool) (ver : Z) : bytes :=
  if auth then [5; 2; ver; 0] else [5; 0].

Definition client_auth (auth : bool) (d : t_proxydata) : list output :=
  if auth then [OSend (auth_request (pd_strProxyUser d) (pd_strProxyPass d))] else [].

Record can_start (id k : Z) (auth : bool) (t : list tx_event) (w : world) : Prop := {
  cs_phase : phase id 0 w;
  cs_id : id <> 0;
  cs_target : has_target w;
  cs_tx : tx w = [TxAccept k; TxAccept k] ++ (if auth then TxAccept k :: t else t);
  cs_room : 513 <= k /\ Z.of_nat (length (request w)) <= k;
  cs_logon : auth = true -> bUseLogon (m_ProxyData w) = true /\
    (length (pd_strProxyUser (m_ProxyData w)) <= 255)%nat /\
    (length (pd_strProxyPass (m_ProxyData w)) <= 255)%nat
}.

Definition before_reply (auth : bool) (w : world) : list output :=
  [OSend (greeting (bUseLogon (m_ProxyData w)))] ++ client_auth auth (m_ProxyData w)
  ++ [OSend (request w)].

Lemma auth_length d :
  (length (pd_strProxyUser d) <= 255)%nat -> (length (pd_strProxyPass d) <= 255)%nat ->
  (length (auth_request (pd_strProxyUser d) (pd_strProxyPass d)) <= 513)%nat.
Proof. intros. unfold auth_request. rewrite !length_app. cbn [length]. lia. Qed.

Lemma reach_request id k auth ver t rest w :
  can_start id k auth t w -> benign (rx w) -> rx_bytes (rx w) = server_method auth ver ++ rest ->
  exists n r e,
    pump n (exec (OnConnect 0) w) = after 3 r t e (before_reply auth w) w /\
    benign r /\ rx_bytes r = rest /\ (n + script_size r <= script_size (rx w))%nat.
Proof.
  intros [Hp Hid Hh Ht [Hk1 Hk2] Hlog] Hben Hrx.
  rewrite (greeting_sent id k (TxAccept k :: if auth then TxAccept k :: t else t)) by
    (auto; lia).
  set (w1 := after 1 _ _ _ _ w).
  assert (Hp1 : phase id 1 w1) by (by eapply phase_after).
  destruct auth; unfold server_method in Hrx.
  - destruct Hlog as (Hl1 & Hl2 & Hl3); [done|].
    destruct (read_method id 1 5 2 ([ver; 0] ++ rest) w1) as (n & r & e & En & Hb & Hr & Hn); auto.
    rewrite method_logon in En by done.
    rewrite (auth_sent id 1 k (TxAccept k :: t)) in En; [|by apply phase_upd|done| |].
    2,3: pose proof (auth_length (m_ProxyData w) Hl2 Hl3) as Ha; apply Nat2Z.inj_le in Ha;
         etransitivity; [exact Ha|lia].
    change (after 2 _ _ _ _ _) with
      (after 2 r (TxAccept k :: t) e (client_auth true (m_ProxyData w)) w1) in En.
    unfold w1 in En at 2. rewrite after_after in En.
    set (w2 := after 2 _ _ _ _ w) in En.
    destruct (read_method id 2 ver 0 rest w2) as (n' & r' & e' & En' & Hb' & Hr' & Hn'); auto.
    { by eapply phase_after. }
    rewrite method_accepted in En' by done.
    rewrite (request_sent id 2 k t) in En'; [|by apply phase_upd, (phase_after _ _ 0)|done|done|done].
    exists (n + n')%nat, r', e'. rewrite pump_add, En, En'. split; [|split; [done|split; [done|]]].
    + unfold w2. unfold upd, after. cbn. by rewrite <- !app_assoc.
    + change (script_size (rx w2)) with (script_size r) in Hn'.
      change (script_size (rx w1)) with (script_size (rx w)) in Hn. lia.
  - destruct (read_method id 1 5 0 rest w1) as (n & r & e & En & Hb & Hr & Hn); auto.
    rewrite method_none in En by done.
    rewrite (request_sent id 1 k t) in En; [|by apply phase_upd|done|done|done].
    exists n, r, e. rewrite En. split; [|done]. unfold w1, upd, after. cbn.
    by rewrite <- !app_assoc.
Qed.

(** ** The two outcomes *)

Definition granted (R : bytes) : Prop :=
  complete_reply R /\ byte_at R 0 = 5 /\ byte_at R 1 = 0.

Definition success_events : list output :=
  [OTrigger FD_CONNECT 0 true; OTrigger FD_READ 0 true; OTrigger FD_WRITE 0 true].

Lemma triggered_silent ev w :
  hSocketValid w = true -> Z.land ev FD_CLOSE = 0 -> Z.land ev 65535 = ev ->
  triggered ev 0 true w = set_out (out w ++ [OTrigger ev 0 true]) w.
Proof.
  intros Hv Hc Hl. unfold triggered, trig_out, state_after, crit_after, state_out.
  rewrite Hv, Hc, Hl. cbn [Z.eqb negb].
  destruct (negb _); cbn [negb orb]; rewrite bool_decide_true by done; by destruct w.
Qed.

Lemma connect_done R v :
  phase PROXYOP_CONNECT 3 v -> granted R ->
  exec (socks5_reply R) v
  = set_m_nProxyOpID 0 (after 0 (rx v) (tx v) (lasterr v) success_events v).
Proof.
  intros [] (_ & H0 & H1). apply wp_exec. unfold socks5_reply. apply wp_bind, wp_gets.
  apply wp_bind, wp_gets. rewrite H0, H1, ph_id0, ph_state0.
  change (negb (5 =? 5) || negb (0 =? 0)) with false. cbv iota.
  change ((PROXYOP_CONNECT =? PROXYOP_CONNECT) && (3 =? 3)
          || (PROXYOP_CONNECT =? PROXYOP_BIND) && (3 =? 4)) with true. cbv iota.
  unfold Reset, ClearBuffer, op_succeeded. repeat layer_step.
  rewrite !triggered_silent by done. unfold after. cbn. rewrite <- !app_assoc.
  destruct v; cbn in *; by subst.
Qed.

Lemma udp_done rsv a p v :
  phase PROXYOP_UDPASSOCIATE 3 v -> length a = 4%nat -> length p = 2%nat ->
  exec (socks5_reply ([5; 0; rsv; 1] ++ a ++ p)) v
  = set_m_udpsrvAddr (mkSOCKADDR_IN AF_INET (le_join p)
      (if le_join a =? INADDR_ANY
       then match peername v with Some q => sin_addr q | None => le_join a end
       else le_join a))
      (set_m_nProxyOpID 0
        (after 0 (rx v) (tx v) (lasterr v) [OTrigger FD_CONNECT 0 true] v)).
Proof.
  intros [] Ha Hp.
  assert (Sa : slice 4 4 ([5; 0; rsv; 1] ++ a ++ p) = a).
  { unfold slice. change (drop 4 ([5; 0; rsv; 1] ++ a ++ p)) with (a ++ p).
    by rewrite <- Ha, take_app_length. }
  assert (Sp : slice 8 2 ([5; 0; rsv; 1] ++ a ++ p) = p).
  { unfold slice. change (drop 8 ([5; 0; rsv; 1] ++ a ++ p)) with (drop 4 (a ++ p)).
    by rewrite <- Ha, drop_app_length, <- Hp, take_ge by lia. }
  set (R := [5; 0; rsv; 1] ++ a ++ p) in *.
  assert (R0 : byte_at R 0 = 5) by done. assert (R1 : byte_at R 1 = 0) by done.
  assert (R3 : byte_at R 3 = 1) by done. clearbody R.
  apply wp_exec. unfold socks5_reply. apply wp_bind, wp_gets, wp_bind, wp_gets.
  rewrite R0, R1, ph_id0, ph_state0. cbn [Z.eqb Pos.eqb negb andb orb PROXYOP_UDPASSOCIATE
    PROXYOP_CONNECT PROXYOP_BIND]. unfold socks5_udp_granted. rewrite R3, Sa, Sp.
  cbn [Z.eqb Pos.eqb negb andb orb].
  apply wp_bind, wp_modify. cbv iota. apply wp_bind, wp_gets. unfold Reset, ClearBuffer.
  apply wp_bind, wp_modify, wp_bind, wp_bind, wp_modify, wp_modify, wp_bind, wp_bind, wp_modify,
    wp_modify, wp_bind, wp_TriggerEvent, wp_bind, wp_modify, wp_modify.
  rewrite triggered_silent by done. destruct v; cbn in *. by subst.
Qed.

(** C26: the SOCKS5 CONNECT handshake succeeds for every segmentation.  From an
    established connection to the proxy: if the proxy accepts a method (no
    authentication, or the user name and password it was offered) and grants
    the request with a complete reply of any address type, then, however its
    bytes are cut into reads and whatever reads would block in between, at
    most one FD_READ per byte and block ends the operation; exactly the
    greeting, the credentials if asked for and the request are sent, in this
    order; the application gets FD_CONNECT without error, then FD_READ and
    FD_WRITE; and the bytes after the reply are left unread for it. *)
Theorem socks5_connect_handshake k auth ver t R rest w :
  can_start PROXYOP_CONNECT k auth t w -> granted R ->
  benign (rx w) -> rx_bytes (rx w) = server_method auth ver ++ R ++ rest ->
  exists n r e,
    (n <= script_size (rx w))%nat /\ benign r /\ rx_bytes r = rest /\
    pump n (exec (OnConnect 0) w)
    = set_m_nProxyOpID 0 (after 0 r t e (before_reply auth w ++ success_events) w).
Proof.
  intros Hs HR Hben Hrx.
  destruct (reach_request _ _ _ _ _ (R ++ rest) w Hs Hben Hrx) as (n & r & e & En & Hb & Hr & Hn).
  set (w3 := after 3 r t e _ w) in En.
  assert (Hp : phase PROXYOP_CONNECT 3 w3) by (destruct Hs; by eapply phase_after).
  destruct (read_reply _ 3 R rest w3 Hp) as (n' & r' & e' & En' & Hb' & Hr' & Hn'); auto;
    [apply HR|].
  rewrite connect_done in En' by (auto using phase_upd).
  exists (n + n')%nat, r', e'. change (script_size (rx w3)) with (script_size r) in Hn'.
  split; [lia|]. split; [done|]. split; [done|]. rewrite pump_add, En, En'.
  rewrite after_upd. unfold w3. cbn [rx tx lasterr upd after]. by rewrite after_after.
Qed.

(** the SOCKS5 UDP ASSOCIATE handshake learns the relay's address.  As
    above, for an IPv4 reply: the operation ends with FD_CONNECT without
    error, and the relay the layer will send datagrams to is the one in the
    reply, with the address of the proxy connection's peer in place of
    0.0.0.0. *)
Theorem socks5_udp_associate_handshake k auth ver t rsv a p rest w :
  can_start PROXYOP_UDPASSOCIATE k auth t w ->
  byte_ok rsv -> bytes_ok a -> bytes_ok p -> length a = 4%nat -> length p = 2%nat ->
  benign (rx w) ->
  rx_bytes (rx w) = server_method auth ver ++ ([5; 0; rsv; 1] ++ a ++ p) ++ rest ->
  exists n r e,
    (n <= script_size (rx w))%nat /\ benign r /\ rx_bytes r = rest /\
    pump n (exec (OnConnect 0) w)
    = set_m_udpsrvAddr (mkSOCKADDR_IN AF_INET (le_join p)
        (if le_join a =? INADDR_ANY
         then match peername w with Some q => sin_addr q | None => le_join a end
         else le_join a))
        (set_m_nProxyOpID 0
          (after 0 r t e (before_reply auth w ++ [OTrigger FD_CONNECT 0 true]) w)).
Proof.
  intros Hs Hv Hoka Hokp Ha Hp Hben Hrx.
  destruct (reach_request _ _ _ _ _ _ w Hs Hben Hrx) as (n & r & e & En & Hb & Hr & Hn).
  set (w3 := after 3 r t e _ w) in En.
  assert (Hp3 : phase PROXYOP_UDPASSOCIATE 3 w3) by (destruct Hs; by eapply phase_after).
  assert (HR : complete_reply ([5; 0; rsv; 1] ++ a ++ p)).
  { split; [|split; [|split]].
    - apply Forall_app. split; [|by apply Forall_app].
      repeat apply Forall_cons_2; try apply Forall_nil_2; try done; unfold byte_ok; lia.
    - rewrite length_app. simpl. lia.
    - by left.
    - unfold socks5_length. rewrite !length_app, Ha, Hp. done. }
  destruct (read_reply _ 3 ([5; 0; rsv; 1] ++ a ++ p) rest w3 Hp3) as (n' & r' & e' & En' & Hb' & Hr' & Hn'); auto.
  rewrite udp_done in En' by (auto using phase_upd).
  exists (n + n')%nat, r', e'. change (script_size (rx w3)) with (script_size r) in Hn'.
  split; [lia|]. split; [done|]. split; [done|]. rewrite pump_add, En, En'.
  rewrite after_upd. unfold w3. cbn [rx tx lasterr upd after]. by rewrite after_after.
Qed.
End Phases.

(** ** Witnesses: the bytes arrive one by one, with blocking reads between *)

Definition trickle (b : bytes) : list rx_event := b ≫= (fun x => [RxBlock; RxData [x]]).

Definition started (id : Z) (logon : bool) (r : list rx_event) : world :=
  set_m_nLayerState connected (set_hSocketValid true (set_m_nProxyOpID id
    (set_m_ProxyData (mkProxyData PROXYTYPE_SOCKS5 (ascii_bytes "proxy") 1080
        (ascii_bytes "user") (ascii_bytes "pass") logon)
      (set_m_pProxyPeerHost (Some (ascii_bytes "example.org")) (set_m_nProxyPeerPort (htons 443)
        (set_rx r (set_tx (replicate 4 (TxAccept 1000)) new_layer))))))).

Definition reply_domain : bytes := [5; 0; 0; 3; 2; 104; 105; 1; 187].

Lemma socks5_connect_handshake_witness :
  let w := started PROXYOP_CONNECT true
             (trickle (server_method true 1 ++ reply_domain ++ [72; 84])) in
  m_nProxyOpState w = 0 /\
  exists n r e,
    (n <= script_size (rx w))%nat /\ benign r /\ rx_bytes r = [72; 84] /\
    pump (platform := test_platform) n
      (exec (OnConnect (platform := test_platform) 0) w)
    = set_m_nProxyOpID 0
        (after 0 r [TxAccept 1000] e (before_reply true w ++ success_events) w).
Proof.
  intros w. split; [done|].
  apply (socks5_connect_handshake 1000 true 1 [TxAccept 1000] reply_domain [72; 84] w).
  - constructor; try done; try (by split; vm_compute); try (constructor; done).
    intros _. split; [done|]. vm_compute. split; lia.
  - split; [|done]. split; [by apply (bool_decide_unpack _)|]. split; [vm_compute; discriminate|].
    split; [right; by left|done].
  - by repeat apply Forall_cons_2.
  - done.
Defined.

Lemma socks5_udp_associate_handshake_witness :
  let w := started PROXYOP_UDPASSOCIATE false
             (trickle (server_method false 0 ++ ([5; 0; 0; 1] ++ [10; 0; 0; 1] ++ [4; 210]))) in
  m_nProxyOpState w = 0 /\
  exists n r e,
    (n <= script_size (rx w))%nat /\ benign r /\ rx_bytes r = [] /\
    pump (platform := test_platform) n
      (exec (OnConnect (platform := test_platform) 0) w)
    = set_m_udpsrvAddr (mkSOCKADDR_IN AF_INET 53764 16777226)
        (set_m_nProxyOpID 0
          (after 0 r (replicate 2 (TxAccept 1000)) e
             (before_reply false w ++ [OTrigger FD_CONNECT 0 true]) w)).
Proof.
  intros w. split; [done|].
  assert (Hs : can_start PROXYOP_UDPASSOCIATE 1000 false (replicate 2 (TxAccept 1000)) w).
  { constructor; try done; try (by split; vm_compute); try (constructor; done). }
  assert (Hb : benign (rx w)) by (by repeat apply Forall_cons_2).
  apply (socks5_udp_associate_handshake 1000 false 0 (replicate 2 (TxAccept 1000)) 0
           [10; 0; 0; 1] [4; 210] [] w); try done; by apply (bool_decide_unpack _).
Defined.
