(* ===== verification/ProxyHttp.v ===== *)
(** * The HTTP CONNECT handshake and the bytes after it

    The proxy's response is read until CR LF CR LF; what came after it in the
    same reads is kept for the application ([m_pAppRecvBuffer]), and [Receive]
    hands it out before it reads again.  [http_connect_handshake] and
    [receive_keeps_stream] together say that the application sees exactly the
    bytes that follow the header. *)

From S2P Require Import Prelude Winsock SockAddr Effects Socks5UdpCodec ProxyLayer.
From S2P Require Import ProxyLayerUdp ProxyLayerRules ProxyLayerInv ProxyLayerSafety.
From S2P Require Import ProxySocks5.

(** ** The end of the header *)

Lemma find_eoh_bound l i k : find_eoh l i = Some k -> (k <= i + length l)%nat.
Proof.
  revert i k. induction l as [|a l IH]; intros i k; [done|].
  destruct l as [|b [|c [|d l]]]; try done. cbn [find_eoh].
  destruct (_ && _); [intros [= <-]; simpl; lia|].
  intros H. apply IH in H. simpl in *. lia.
Qed.

Lemma find_eoh_app l q i k : find_eoh l i = Some k -> find_eoh (l ++ q) i = Some k.
Proof.
  revert i k. induction l as [|a l IH]; intros i k; [done|].
  destruct l as [|b [|c [|d l]]]; try done. cbn [find_eoh app].
  destruct (_ && _); [done|]. intros H. apply IH in H. exact H.
Qed.

(** A header: CR LF CR LF ends it and does not occur before. *)
Definition header (H : bytes) : Prop := find_eoh H 0 = Some (length H).

Lemma header_prefix H str q : header H -> str ++ q = H -> q <> [] -> find_eoh str 0 = None.
Proof.
  intros HH <- Hq. destruct (find_eoh str 0) as [k|] eqn:E; [|done].
  pose proof (find_eoh_bound _ _ _ E). apply find_eoh_app with (q := q) in E.
  unfold header in HH. rewrite E in HH. injection HH as ->. rewrite length_app in *.
  destruct q; [done|]. simpl in *. lia.
Qed.

Lemma nil_length_pos {A} (l : list A) : l <> [] -> (0 < length l)%nat.
Proof. destruct l; [done|simpl; lia]. Qed.

(** Two ways to cut the same stream: the shorter cut is a prefix. *)
Lemma app_cut {A} (a b c d : list A) :
  a ++ b = c ++ d ->
  (exists q, a ++ q = c /\ q <> [] /\ b = q ++ d) \/ (exists s, a = c ++ s /\ s ++ b = d).
Proof.
  intros E. destruct (decide (length c <= length a)%nat) as [Hl|Hl].
  - right. exists (drop (length c) a).
    assert (Ht : take (length c) a = c).
    { rewrite <- (take_app_le a b) by done. rewrite E. apply take_app_length. }
    split; [by rewrite <- Ht at 1; rewrite take_drop|].
    rewrite <- drop_app_le by done. rewrite E. apply drop_app_length.
  - left. exists (drop (length a) c).
    assert (Ht : take (length a) c = a).
    { rewrite <- (take_app_le c d) by lia. rewrite <- E. apply take_app_length. }
    split; [by rewrite <- Ht at 1; rewrite take_drop|]. split.
    + intros En. apply (f_equal length) in En. rewrite length_drop in En. simpl in En. lia.
    + rewrite <- drop_app_le by lia. rewrite <- E. symmetry. apply drop_app_length.
Qed.

(** What the loop changes. *)
Definition read_to (str : bytes) (r : list rx_event) (e : Z) (w : world) : world :=
  set_m_pStrBuffer str (set_rx r (set_lasterr e w)).

Lemma read_to_read_to s r e s' r' e' w : read_to s r e (read_to s' r' e' w) = read_to s r e w.
Proof. done. Qed.

(** One call of the loop: it stops at the header's end, or would block having
    kept what it read. *)
Lemma http_loop_stream H rest fuel w :
  header H -> next_error w = None -> heap_ok w = true ->
  m_pStrBuffer w ++ rx_bytes (rx w) = H ++ rest -> find_eoh (m_pStrBuffer w) 0 = None ->
  (length (H ++ rest) <= 4096)%nat -> benign (rx w) ->
  (length (rx_bytes (rx w)) < fuel)%nat ->
  exists str r e, benign r /\ str ++ rx_bytes r = H ++ rest /\
    (script_size r < script_size (rx w))%nat /\
    ((http_loop fuel w = (None, read_to str r e w) /\ find_eoh str 0 = None) \/
     (exists s, http_loop fuel w = (Some (length H), read_to str r e w) /\ str = H ++ s)).
Proof.
  revert w. induction fuel as [|fuel IH]; intros w HH Hne Hheap Hstr Hnone Hl Hben Hf; [lia|].
  assert (Hnz : rx_bytes (rx w) <> []).
  { intros E. rewrite E, app_nil_r in Hstr. rewrite Hstr in Hnone.
    unfold header in HH. by rewrite (find_eoh_app _ rest _ _ HH) in Hnone. }
  cbn [http_loop]. unfold ReceiveNext, mbind, M_bind, gets. rewrite Hne.
  change (negb ((0 <? 4096) && (0 + 4096 <=? 4096))) with false. cbn [when].
  change ((mret tt : ML unit) w) with (tt, w). cbv iota beta.
  destruct (recv_benign 4096 w) as [(r & -> & Hr1 & Hr2 & Hr3)|(got & r & -> & Hr1 & Hr2 & Hr3 & Hr4 & Hr5)];
    [lia|done|done| |]; cbn beta iota.
  - rewrite Z.eqb_refl. exists (m_pStrBuffer w), r, WSAEWOULDBLOCK.
    split; [done|]. split; [by rewrite Hr2|]. split; [done|]. left. split; [|done].
    cbn. by destruct w.
  - destruct (Z.eqb_spec (Z.of_nat (length got)) SOCKET_ERROR); [unfold SOCKET_ERROR in *; lia|].
    destruct (Z.eqb_spec (Z.of_nat (length got)) 0); [destruct got; [done|simpl in *; lia]|].
    cbn [m_pStrBuffer heap_ok set_rx]. rewrite Hheap, orb_false_r.
    rewrite <- Hr4, app_assoc in Hstr.
    assert (Hlen : (length (m_pStrBuffer w ++ got) <= 4096)%nat).
    { apply (f_equal length) in Hstr. rewrite (length_app (_ ++ got)) in Hstr. lia. }
    rewrite length_app in Hlen. rewrite (proj2 (Z.ltb_ge _ _)) by lia. unfold modify.
    destruct (app_cut _ _ _ _ Hstr) as [(q & Hq & Hqn & Hrr)|(s & Hs & Hrr)].
    + rewrite (header_prefix H _ q) by done.
      set (w1 := set_m_pStrBuffer (m_pStrBuffer w ++ got) (set_rx r w)).
      destruct (IH w1) as (str & r' & e & Hb & Hst & Hm & Hres); try done.
      { by apply (header_prefix H _ q). }
      { rewrite <- Hr4, length_app in Hf. apply nil_length_pos in Hr2. change (rx w1) with r. lia. }
      exists str, r', e. split; [done|]. split; [done|]. split; [cbn in Hm; lia|].
      destruct Hres as [[-> Hn]|(s & -> & Hs)]; [left|right].
      * split; [|done]. by destruct w.
      * exists s. split; [|done]. by destruct w.
    + rewrite Hs, (find_eoh_app H s _ _ HH).
      exists (H ++ s), r, (lasterr w). split; [done|]. split; [by rewrite <- app_assoc, Hrr|].
      split; [done|]. right. exists s. split; [|done]. by destruct w.
Qed.

(** ** Accepting the response *)

(** A response whose first line says 200. *)
Definition ok_header (H : bytes) : Prop :=
  header H /\ exists v tail, H = ascii_bytes "HTTP/1." ++ [v] ++ ascii_bytes " 200 " ++ tail /\
    (v = 48 \/ v = 49).

Lemma http_fuel_enough : (4096 < http_fuel)%nat.
Proof. unfold http_fuel. lia. Qed.

#[local] Opaque http_fuel.

Section Http.
Context {platform : Platform}.

Lemma scan_status_ok H s : ok_header H -> scan_status (H ++ s) = Hit 200.
Proof. intros (_ & v & tail & -> & [-> | ->]); reflexivity. Qed.

Definition is_http_type (type : Z) : Prop := type = PROXYTYPE_HTTP10 \/ type = PROXYTYPE_HTTP11.

Lemma OnReceive_http_dispatch type id w :
  phase_of type id 1 w -> is_http_type type -> id <> 0 ->
  exec (OnReceive 0) w = exec OnReceive_http w.
Proof.
  intros [] Ht Hid. apply wp_exec. unfold OnReceive. apply wp_bind, wp_gets.
  rewrite ph_id, (proj2 (Z.eqb_neq _ _)) by done. change (negb (0 =? 0)) with false. cbv iota.
  apply wp_bind, wp_gets, wp_bind, wp_gets. rewrite ph_state, ph_type.
  apply wp_exec. by destruct Ht as [-> | ->].
Qed.

(** The end of the operation: the bytes after the header go to the application. *)
Definition give_app (s : bytes) (w : world) : world :=
  if bool_decide (s = []) then w else set_m_pAppRecvBuffer (Some (s, 0)) w.

Definition completed (s : bytes) (r : list rx_event) (e : Z) (w : world) : world :=
  give_app s (set_m_nProxyOpID 0 (after 0 r (tx w) e success_events w)).

Lemma http_accepted type H s r e w :
  phase_of type PROXYOP_CONNECT 1 w -> ok_header H ->
  http_loop http_fuel w = (Some (length H), read_to (H ++ s) r e w) ->
  exec OnReceive_http w = completed s r e w.
Proof.
  intros [] HH E. apply wp_exec. unfold OnReceive_http. apply wp_bind. unfold wp at 1. rewrite E.
  cbv iota beta. apply wp_bind, wp_gets. change (m_pStrBuffer (read_to _ _ _ _)) with (H ++ s).
  unfold read_status. rewrite scan_status_ok by done. apply wp_bind, wp_ret.
  rewrite bool_decide_true by done. cbn [negb].
  rewrite drop_app_length. unfold completed, give_app, Reset, ClearBuffer, op_succeeded.
  apply wp_bind, wp_when; intros Hs; bool_hyps.
  - rewrite bool_decide_false by (intros ->; simpl in Hs; lia). repeat layer_step.
    rewrite !triggered_silent by done. unfold after, read_to. layer_simpl.
    rewrite <- !app_assoc. destruct w; cbn in *; by subst.
  - rewrite bool_decide_true by (destruct s; [done|simpl in Hs; lia]). repeat layer_step.
    rewrite !triggered_silent by done. unfold after, read_to. layer_simpl.
    rewrite <- !app_assoc. destruct w; cbn in *; by subst.
Qed.

Lemma http_pump type H rest w :
  phase_of type PROXYOP_CONNECT 1 w -> is_http_type type -> ok_header H ->
  m_pStrBuffer w ++ rx_bytes (rx w) = H ++ rest -> find_eoh (m_pStrBuffer w) 0 = None ->
  (length (H ++ rest) <= 4096)%nat -> benign (rx w) ->
  exists n s r e, (n <= script_size (rx w))%nat /\ benign r /\ s ++ rx_bytes r = rest /\
    pump n w = completed s r e w.
Proof.
  remember (script_size (rx w)) as m eqn:Em. revert w Em.
  induction m as [m IH] using lt_wf_ind. intros w -> Hp Ht HH Hstr Hnone Hl Hben.
  pose proof (phase_next_error _ _ _ _ Hp) as Hne.
  assert (E1 : forall n, pump (S n) w = pump n (exec OnReceive_http w)).
  { intros n. cbn [pump]. rewrite (ph_id _ _ _ _ Hp).
    by rewrite (OnReceive_http_dispatch type PROXYOP_CONNECT) by done. }
  destruct (http_loop_stream H rest http_fuel w) as (str & r & e & Hb & Hst & Hm & Hres);
    try done; [apply HH|apply (ph_heap _ _ _ _ Hp)| |].
  { apply (f_equal length) in Hstr. rewrite length_app in Hstr. pose proof http_fuel_enough. lia. }
  destruct Hres as [[E Hn]|(s & E & ->)].
  - assert (E2 : exec OnReceive_http w = read_to str r e w).
    { apply wp_exec. unfold OnReceive_http. apply wp_bind. unfold wp at 1. by rewrite E. }
    destruct (IH (script_size r) Hm (read_to str r e w)) as (n & s & r' & e' & Hn' & Hb' & Hs & Ep);
      try done; [by destruct Hp|].
    exists (S n), s, r', e'. split; [lia|]. split; [done|]. split; [done|].
    by rewrite E1, E2, Ep.
  - exists 1%nat, s, r, e. split; [lia|]. split; [done|].
    split; [rewrite <- app_assoc in Hst; by simplify_list_eq|].
    rewrite E1. cbn [pump]. by apply (http_accepted type H).
Qed.

(** ** The request *)

Definition connect_text (w : world) (host : bytes) : bytes :=
  let d := m_ProxyData w in
  http_request (nProxyType d) (IsIPv6 (m_proxyPeerAddress w)) host (htons (m_nProxyPeerPort w))
    (if bUseLogon d then Some (http_credentials d) else None).

Lemma connect_text_nonempty w host : (0 < length (connect_text w host))%nat.
Proof. unfold connect_text, http_request. rewrite length_app. simpl. lia. Qed.

Lemma connect_text_sent type host k t w :
  phase_of type PROXYOP_CONNECT 0 w -> is_http_type type -> http_host w = Some host ->
  Z.of_nat (length (connect_text w host)) < 4096 ->
  Z.of_nat (length (connect_text w host)) <= k -> tx w = TxAccept k :: t ->
  exec (OnConnect 0) w = after 1 (rx w) t (lasterr w) [OSend (connect_text w host)] w.
Proof.
  intros Hp Ht Hh Hl Hk Htx. pose proof (connect_text_nonempty w host) as Hpos.
  apply wp_exec. unfold OnConnect. apply wp_bind, wp_gets. pose proof Hp as [].
  set (w1 := set_m_pRecvBuffer None (set_m_pStrBuffer [] w)).
  assert (Hmain : wp OnConnect_http
            (fun _ w' => w' = after 1 (rx w) t (lasterr w) [OSend (connect_text w host)] w) w1).
  { unfold OnConnect_http. apply wp_bind, wp_gets.
    change (http_host w1) with (http_host w). rewrite Hh.
    change (http_request _ _ host _ _) with (connect_text w host).
    unfold snprintf_length. rewrite (proj2 (Z.ltb_ge _ _)) by lia.
    rewrite (proj2 (Z.leb_gt _ _)), (proj2 (Z.leb_gt _ _)) by lia. cbn [orb].
    unfold queue_first. apply wp_bind.
    eapply (wp_queue_all _ _ k t) with (type := type) (st := 0); [by constructor|done|lia|done|].
    cbn beta iota. apply wp_modify. destruct w; cbn in *; by subst. }
  rewrite ph_type.
  destruct Ht as [-> | ->]; cbn [Z.eqb Pos.eqb negb orb PROXYTYPE_HTTP10 PROXYTYPE_HTTP11
    PROXYTYPE_NOPROXY PROXYTYPE_SOCKS4 PROXYTYPE_SOCKS4A PROXYTYPE_SOCKS5];
  apply wp_bind, wp_gets; rewrite ph_id; cbn [Z.eqb negb PROXYOP_CONNECT];
  apply wp_bind, wp_gets; rewrite ph_state; cbn [Z.eqb negb];
  apply wp_bind; unfold ClearBuffer; apply wp_bind, wp_modify, wp_modify; exact Hmain.
Qed.

(** C37: the HTTP CONNECT handshake succeeds for every segmentation and loses
    no byte.  From an established connection to the proxy, if the proxy's
    response is a header with status 200 followed by any bytes, at most 4096
    together, however they are cut into reads and whatever blocks in between,
    then exactly the CONNECT request is sent, the operation ends with
    FD_CONNECT without error, then FD_READ and FD_WRITE, and the bytes after
    the header are split between those kept for the application and those not
    read yet, in order. *)
Theorem http_connect_handshake type host k t H rest w :
  phase_of type PROXYOP_CONNECT 0 w -> is_http_type type -> http_host w = Some host ->
  Z.of_nat (length (connect_text w host)) < 4096 ->
  Z.of_nat (length (connect_text w host)) <= k -> tx w = TxAccept k :: t ->
  ok_header H -> (length (H ++ rest) <= 4096)%nat ->
  benign (rx w) -> rx_bytes (rx w) = H ++ rest ->
  exists n s r e,
    (n <= script_size (rx w))%nat /\ benign r /\ s ++ rx_bytes r = rest /\
    pump n (exec (OnConnect 0) w)
    = give_app s (set_m_nProxyOpID 0
        (after 0 r t e (OSend (connect_text w host) :: success_events) w)).
Proof.
  intros Hp Ht Hh Hl Hk Htx HH Hlen Hben Hrx.
  rewrite (connect_text_sent type host k t) by done. set (w1 := after 1 _ _ _ _ w).
  destruct (http_pump type H rest w1) as (n & s & r & e & Hn & Hb & Hs & E); try done.
  { by eapply phase_after. }
  exists n, s, r, e. split; [done|]. split; [done|]. split; [done|].
  rewrite E. unfold completed, w1. cbn [tx after]. by rewrite after_after.
Qed.
End Http.

(** ** The application reads the stream *)

Definition unread_app (w : world) : bytes :=
  match m_pAppRecvBuffer w with Some (d, p) => drop (Z.to_nat p) d | None => [] end.

(** The bytes the application has yet to receive. *)
Definition app_stream (w : world) : bytes := unread_app w ++ rx_bytes (rx w).

Lemma recv_stream n w :
  0 < n -> benign (rx w) ->
  (exists r, recv n w = ((SOCKET_ERROR, []), upd r WSAEWOULDBLOCK (m_pRecvBuffer w) w) /\
     benign r /\ rx_bytes r = rx_bytes (rx w)) \/
  (exists got r, recv n w = ((Z.of_nat (length got), got), set_rx r w) /\
     benign r /\ got <> [] /\ Z.of_nat (length got) <= n /\ got ++ rx_bytes r = rx_bytes (rx w)).
Proof.
  intros Hn Hb. destruct (decide (rx_bytes (rx w) = [])) as [E|E].
  - left. unfold recv. destruct (rx w) as [|[b| |e|] r] eqn:Er;
      try (apply Forall_cons in Hb as [Hh Hb]; try done).
    + exists []. split; [destruct w; cbn in *; by subst|done].
    + exfalso. by destruct b.
    + exists r. split; [by destruct w|done].
  - destruct (recv_benign n w Hn Hb E) as [(r & ? & ? & ? & _)|(got & r & ? & ? & ? & ? & ? & _)];
      [left; by exists r|right; by exists got, r].
Qed.

(** [Receive] hands out the stream in order and without loss.  Once the
    operation is over, a call either returns between 1 and [n] bytes, which
    are the next bytes of the stream, or would block and takes nothing; the
    bytes that came with the HTTP header come before those still unread. *)
Theorem receive_keeps_stream n w :
  0 < n -> m_nProxyOpID w = 0 -> next_error w = None -> benign (rx w) ->
  send_ok (m_pAppRecvBuffer w) ->
  let '((count, got), w') := Receive n w in
  got ++ app_stream w' = app_stream w /\ benign (rx w') /\ send_ok (m_pAppRecvBuffer w') /\
  (0 < count <= n /\ count = Z.of_nat (length got) \/
   count = SOCKET_ERROR /\ got = [] /\ lasterr w' = WSAEWOULDBLOCK).
Proof.
  intros Hn Hid Hne Hben Hs. unfold Receive.
  rewrite (proj2 (Z.ltb_ge _ _)), (proj2 (Z.eqb_neq _ _)) by lia.
  unfold mbind, M_bind, gets. rewrite Hid. change (negb (0 =? 0)) with false. cbv iota.
  assert (Hnext : m_pAppRecvBuffer w = None ->
    let '((count, got), w') := ReceiveNext n 0 n w in
    got ++ app_stream w' = app_stream w /\ benign (rx w') /\ send_ok (m_pAppRecvBuffer w') /\
    (0 < count <= n /\ count = Z.of_nat (length got) \/
     count = SOCKET_ERROR /\ got = [] /\ lasterr w' = WSAEWOULDBLOCK)).
  { intros Ha. unfold ReceiveNext, mbind, M_bind, gets. rewrite Hne.
    rewrite (proj2 (Z.ltb_lt _ _)), (proj2 (Z.leb_le _ _)) by lia. cbn [negb andb when].
    change ((mret tt : ML unit) w) with (tt, w). cbv iota beta.
    unfold app_stream, unread_app.
    destruct (recv_stream n w Hn Hben) as [(r & -> & ? & Hr)|(got & r & -> & ? & Hg & ? & Hr)];
      cbv iota beta; cbn [upd m_pAppRecvBuffer set_m_pRecvBuffer set_rx set_lasterr rx lasterr];
      rewrite Ha; cbn [app].
    - split; [done|]. split; [done|]. split; [done|]. by right.
    - split; [done|]. split; [done|]. split; [done|]. left. apply nil_length_pos in Hg. lia. }
  destruct (m_pAppRecvBuffer w) as [[d p]|] eqn:Ea; rewrite Ea; [|by apply Hnext].
  cbn in Hs. rewrite (proj2 (Z.ltb_lt _ _)) by lia. unfold modify, mret, M_ret.
  unfold app_stream, unread_app. cbn [m_pAppRecvBuffer set_m_pAppRecvBuffer rx]. rewrite Ea.
  set (c := Z.min n (Z.of_nat (length d) - p)).
  assert (Hlen : length (take (Z.to_nat c) (drop (Z.to_nat p) d)) = Z.to_nat c)
    by (rewrite length_take, length_drop; lia).
  split; [|split; [done|split; [|left; lia]]].
  - rewrite app_assoc. f_equal. destruct (Z.eqb_spec (p + c) (Z.of_nat (length d))).
    + rewrite app_nil_r, take_ge; [done|]. rewrite length_drop. lia.
    + replace (Z.to_nat (p + c)) with (Z.to_nat p + Z.to_nat c)%nat by lia.
      rewrite <- drop_drop. apply take_drop.
  - destruct (Z.eqb_spec (p + c) (Z.of_nat (length d))); simpl; [done|lia].
Qed.

(** ** Witnesses *)

Definition response : bytes :=
  ascii_bytes "HTTP/1.1 200 OK" ++ crlf ++ ascii_bytes "Via: 1.1 p" ++ crlf ++ crlf.

(** The header cut in two, the second piece carrying application data. *)
Definition http_started : world :=
  set_m_nLayerState connected (set_hSocketValid true (set_m_nProxyOpID PROXYOP_CONNECT
    (set_m_ProxyData (mkProxyData PROXYTYPE_HTTP11 (ascii_bytes "proxy") 3128
        (ascii_bytes "user") (ascii_bytes "pass") true)
      (set_m_pProxyPeerHost (Some (ascii_bytes "example.org")) (set_m_nProxyPeerPort (htons 443)
        (set_rx [RxData (take 30 response); RxBlock;
                 RxData (drop 30 response ++ [1; 2; 3]); RxData [4]]
          (set_tx [TxAccept 1000] new_layer))))))).

Lemma http_connect_handshake_witness :
  m_nProxyOpState http_started = 0 /\
  exists n s r e,
    (n <= script_size (rx http_started))%nat /\ benign r /\ s ++ rx_bytes r = [1; 2; 3; 4] /\
    pump (platform := test_platform) n
      (exec (OnConnect (platform := test_platform) 0) http_started)
    = give_app s (set_m_nProxyOpID 0
        (after 0 r [] e (OSend (connect_text http_started (ascii_bytes "example.org"))
                         :: success_events) http_started)).
Proof.
  split; [done|].
  assert (Hp : phase_of PROXYTYPE_HTTP11 PROXYOP_CONNECT 0 http_started) by (by constructor).
  assert (Hb : benign (rx http_started)) by (by repeat apply Forall_cons_2).
  assert (Hh : ok_header response).
  { split; [done|]. exists 49, (drop 13 response). split; [done|by right]. }
  apply (http_connect_handshake (platform := test_platform) PROXYTYPE_HTTP11
           (ascii_bytes "example.org") 1000 [] response [1; 2; 3; 4]); try done.
  - by right.
  - apply Nat.leb_le. vm_compute. reflexivity.
Defined.

Definition http_done : world :=
  give_app [1; 2; 3] (set_m_nProxyOpID 0 (set_rx [RxData [4]] http_started)).

Lemma receive_keeps_stream_witness :
  app_stream http_done = [1; 2; 3; 4] /\
  let '((count, got), w') := Receive 2 http_done in
  got ++ app_stream w' = app_stream http_done /\ benign (rx w') /\ send_ok (m_pAppRecvBuffer w') /\
  (0 < count <= 2 /\ count = Z.of_nat (length got) \/
   count = SOCKET_ERROR /\ got = [] /\ lasterr w' = WSAEWOULDBLOCK).
Proof.
  split; [done|].
  apply (receive_keeps_stream 2 http_done); try done.
  - by repeat apply Forall_cons_2.
Defined.
