(* ===== verification/ProxyWire.v ===== *)
(** * What the proxy reads

    A SOCKS5 server by RFC 1928 and RFC 1929: parsers of the client's three
    messages, written from the documents.  What the layer writes parses back
    to what it means, and the request asks for the host that was connected. *)

From S2P Require Import Prelude Winsock SockAddr Effects Socks5UdpCodec ProxyLayer.
From S2P Require Import ProxyLayerUdp ProxyLayerRules ProxyLayerInv ProxyLayerSafety ProxySocks5.

(** ** The server's parsers; each reads a whole message. *)

(** VER NMETHODS METHODS *)
Definition parse_greeting (l : bytes) : option (list Z) :=
  match l with
  | 5 :: n :: methods => if Z.of_nat (length methods) =? n then Some methods else None
  | _ => None
  end.

(** VER ULEN UNAME PLEN PASSWD *)
Definition parse_auth (l : bytes) : option (bytes * bytes) :=
  match l with
  | 1 :: n :: l =>
      let uname := take (Z.to_nat n) l in
      match drop (Z.to_nat n) l with
      | p :: passwd =>
          if (Z.of_nat (length uname) =? n) && (Z.of_nat (length passwd) =? p) then Some (uname, passwd) else None
      | [] => None
      end
  | _ => None
  end.

Inductive socks_target := IPv4 (octets : bytes) | DomainName (name : bytes) | IPv6 (octets : bytes).

(** The port, in network order, ends the message. *)
Definition parse_port (l : bytes) : option Z :=
  match l with [hi; lo] => Some (256 * hi + lo) | _ => None end.

Definition with_port (cmd : Z) (t : socks_target) (l : bytes) : option (Z * socks_target * Z) :=
  match parse_port l with Some port => Some (cmd, t, port) | None => None end.

(** VER CMD RSV ATYP DST.ADDR DST.PORT *)
Definition parse_request (l : bytes) : option (Z * socks_target * Z) :=
  match l with
  | 5 :: cmd :: 0 :: 1 :: l => with_port cmd (IPv4 (take 4 l)) (drop 4 l)
  | 5 :: cmd :: 0 :: 4 :: l => with_port cmd (IPv6 (take 16 l)) (drop 16 l)
  | 5 :: cmd :: 0 :: 3 :: n :: l => with_port cmd (DomainName (take (Z.to_nat n) l)) (drop (Z.to_nat n) l)
  | _ => None
  end.

(** ** The client's messages *)

(** The target of the operation that is pending, and its port. *)
Definition target_of (w : world) : socks_target :=
  if m_nProxyOpID w =? PROXYOP_UDPASSOCIATE then IPv4 (octets (sin_addr (m_udpcltAddr w)))
  else if IsIPv6 (m_proxyPeerAddress w) then IPv6 (v6_bytes (m_proxyPeerAddress w))
  else if negb (m_nProxyPeerIP w =? 0) then IPv4 (octets (m_nProxyPeerIP w))
  else DomainName (request_host w).

Definition port_of (w : world) : Z :=
  htons (if m_nProxyOpID w =? PROXYOP_UDPASSOCIATE then sin_port (m_udpcltAddr w) else m_nProxyPeerPort w).

Lemma parse_port_le p : 0 <= p < 65536 -> parse_port (le_split 2 p) = Some (htons p).
Proof.
  intros Hp. cbn [le_split parse_port]. unfold htons. rewrite u16_small by done.
  rewrite (Z.mod_small (p / 256)); [f_equal; lia|].
  split; [apply Z.div_pos; lia|apply Z.div_lt_upper_bound; lia].
Qed.

Lemma length_v6_bytes a : length (sa_data a) = 24%nat -> length (v6_bytes a) = 16%nat.
Proof. intros H. unfold v6_bytes. rewrite length_take, length_drop. lia. Qed.

Lemma with_port_le cmd t a p :
  0 <= p < 65536 -> with_port cmd t (drop (length a) (a ++ le_split 2 p)) = Some (cmd, t, htons p).
Proof. intros Hp. unfold with_port. by rewrite drop_app_length, parse_port_le. Qed.

Lemma auth_parses user pass :
  (length user <= 255)%nat -> (length pass <= 255)%nat -> parse_auth (auth_request user pass) = Some (user, pass).
Proof.
  intros Hu Hp. unfold auth_request. rewrite !u8_small by lia. cbn [app parse_auth].
  rewrite Nat2Z.id, take_app_length, drop_app_length. by rewrite !Z.eqb_refl.
Qed.

Lemma greeting_parses logon : parse_greeting (greeting logon) = Some (if logon then [2; 0] else [0]).
Proof. by destruct logon. Qed.

(** The fields of the request are words, and a name fits its length byte. *)
Record wf_target (w : world) : Prop := {
  wt_id : 0 <= m_nProxyOpID w < 256;
  wt_udp : 0 <= sin_port (m_udpcltAddr w) < 65536;
  wt_port : 0 <= m_nProxyPeerPort w < 65536;
  wt_peer : length (sa_data (m_proxyPeerAddress w)) = 24%nat;
  wt_name : (length (request_host w) <= 255)%nat
}.

Lemma request_parses w : wf_target w -> parse_request (request w) = Some (m_nProxyOpID w, target_of w, port_of w).
Proof.
  intros []. unfold request, socks5_request, target_of, port_of. rewrite (u8_small (m_nProxyOpID w)) by done.
  destruct (m_nProxyOpID w =? PROXYOP_UDPASSOCIATE).
  - cbn [app parse_request]. fold (octets (sin_addr (m_udpcltAddr w))).
    set (a := octets _). assert (Ha : length a = 4%nat) by apply length_le_split.
    rewrite <- Ha at 1 2. rewrite take_app_length. by apply with_port_le.
  - destruct (IsIPv6 _).
    + cbn [app parse_request]. set (a := v6_bytes _). assert (Ha : length a = 16%nat) by by apply length_v6_bytes.
      rewrite <- Ha at 1 2. rewrite take_app_length. by apply with_port_le.
    + destruct (negb _).
      * cbn [app parse_request]. fold (octets (m_nProxyPeerIP w)). set (a := octets _).
        assert (Ha : length a = 4%nat) by apply length_le_split.
        rewrite <- Ha at 1 2. rewrite take_app_length. by apply with_port_le.
      * rewrite u8_small by lia. cbn [app parse_request]. rewrite Nat2Z.id, take_app_length.
        by apply with_port_le.
Qed.

(** A server that reads the client's messages by RFC 1928 and 1929 gets
    what the layer means: the methods offered; the user name and password, of
    up to 255 bytes each; and the command with the target and port of the
    pending operation, whatever the kind of address. *)
Theorem socks5_messages_parse w user pass :
  (length user <= 255)%nat -> (length pass <= 255)%nat -> wf_target w ->
  parse_greeting (greeting (bUseLogon (m_ProxyData w)))
  = Some (if bUseLogon (m_ProxyData w) then [2; 0] else [0]) /\
  parse_auth (auth_request user pass) = Some (user, pass) /\
  parse_request (request w) = Some (m_nProxyOpID w, target_of w, port_of w).
Proof. intros Hu Hp Hw. auto using greeting_parses, auth_parses, request_parses. Qed.

(** ** The target of a connection *)
Section Connect.
Context {platform : Platform}.

Lemma wp_connect_result Q w :
  (forall r e c, Q r (set_lasterr e (set_conns c w))) -> wp connect_result Q w.
Proof.
  intros HQ. unfold wp, connect_result. destruct (conns w) as [|[r e] c] eqn:E; [|apply HQ].
  specialize (HQ false WSAEWOULDBLOCK []). rewrite <- E in HQ. by destruct w.
Qed.

(** What ConnectNext changes: the state, the last error, the outputs. *)
Definition connecting_from (w w' : world) : Prop :=
  m_nProxyOpID w' = m_nProxyOpID w /\ m_ProxyData w' = m_ProxyData w /\
  m_udpcltAddr w' = m_udpcltAddr w /\ m_nProxyPeerPort w' = m_nProxyPeerPort w /\
  m_nProxyPeerIP w' = m_nProxyPeerIP w /\ m_proxyPeerAddress w' = m_proxyPeerAddress w /\
  m_pProxyPeerHost w' = m_pProxyPeerHost w.

Lemma wp_ConnectNextHost host port Q w :
  (forall r w', connecting_from w w' -> Q r w') -> wp (ConnectNextHost host port) Q w.
Proof.
  intros HQ. unfold ConnectNextHost, after_connect, WSAGetLastError, emit.
  apply wp_bind, wp_modify, wp_bind, wp_connect_result. intros r e c.
  apply wp_bind, wp_gets, wp_bind, wp_when; intros _.
  - apply wp_SetLayerState, wp_ret, HQ. done.
  - by apply wp_ret, HQ.
Qed.

(** The stored address: the port, and the bytes the request needs. *)
Lemma Set_wf a b : Set_ (Some a) (Size a) = Some b -> wf_sockaddr a ->
  sa_port b = sa_port a /\ IsIPv6 b = IsIPv6 a /\ length (sa_data b) = 24%nat /\
  (IsIPv6 a = true -> v6_bytes b = v6_bytes a) /\
  (IsIPv6 a = false -> IsIPv4 b = true /\ v4_bytes b = v4_bytes a).
Proof.
  intros E (_ & Hlen & _). unfold Set_ in E. destruct (_ || _) eqn:Eg; [done|]. injection E as <-.
  apply orb_false_iff in Eg as [Eg _]. unfold IsIPv6, IsIPv4, v6_bytes, v4_bytes, memcpy in *.
  cbn [sa_port sa_family sa_data take app].
  destruct a as [f p d]; cbn in *. do 24 (destruct d as [|? d]; [done|]). destruct d; [|done].
  destruct (f =? AF_INET6) eqn:E6; [by split_and!|]. rewrite andb_true_r in Eg. apply negb_false_iff in Eg.
  rewrite Eg. by split_and!.
Qed.

Lemma v4_octets a : wf_sockaddr a -> IsIPv4 a = true -> octets (sin_addr (as_in a)) = v4_bytes a.
Proof.
  intros (_ & Hlen & Hok) _. unfold octets, as_in. cbn [sin_addr].
  assert (H4 : length (v4_bytes a) = 4%nat) by (unfold v4_bytes; rewrite length_take; lia).
  rewrite <- H4 at 1. apply le_split_join. by apply Forall_take.
Qed.

Lemma asks_for_name w host port :
  nProxyType (m_ProxyData w) = PROXYTYPE_SOCKS5 -> inet_addr host = INADDR_NONE ->
  wp (ConnectHost host port) (fun res w' => res = true ->
    m_nProxyOpID w' = PROXYOP_CONNECT /\ m_nProxyPeerPort w' = htons port /\ m_nProxyPeerIP w' = 0 /\
    m_proxyPeerAddress w' = SockAddr.Clear /\ m_pProxyPeerHost w' = Some host /\
    m_udpcltAddr w' = m_udpcltAddr w) w.
Proof.
  intros Ht Hn. unfold ConnectHost. apply wp_bind, wp_gets. rewrite Ht, Hn.
  change (PROXYTYPE_SOCKS5 =? PROXYTYPE_NOPROXY) with false. rewrite Z.eqb_refl.
  change (sends_names PROXYTYPE_SOCKS5) with true. cbv iota.
  apply wp_bind, wp_ConnectNextHost. intros r w' (_ & _ & Eu & _).
  apply wp_bind, wp_gets. apply wp_if; intros _.
  - by apply wp_bind, wp_modify, wp_ret.
  - apply wp_bind, wp_modify, wp_bind, wp_modify, wp_bind, wp_modify, wp_bind, wp_modify, wp_bind, wp_modify, wp_ret.
    by intros _.
Qed.

Lemma asks_for_address w a :
  nProxyType (m_ProxyData w) = PROXYTYPE_SOCKS5 -> wf_sockaddr a -> IsIPv4 a || IsIPv6 a = true ->
  IsAny a = false ->
  wp (ConnectAddr (Some a) (Size a)) (fun _ w' => exists b, Set_ (Some a) (Size a) = Some b /\
    m_nProxyOpID w' = PROXYOP_CONNECT /\ m_nProxyPeerPort w' = sa_port b /\ m_nProxyPeerIP w' = GetdwIP b /\
    m_proxyPeerAddress w' = b /\ m_pProxyPeerHost w' = None /\ m_udpcltAddr w' = m_udpcltAddr w) w.
Proof.
  intros Ht Ha Hf Hany. unfold ConnectAddr. apply wp_bind, wp_gets. rewrite Ht.
  apply wp_if; intros B; [by vm_compute in B|clear B].
  destruct (Set_ (Some a) (Size a)) as [b|] eqn:Eb.
  2: { exfalso. unfold Set_, Size in Eb. unfold IsIPv4, IsIPv6 in Hf. destruct (sa_family a =? AF_INET6) eqn:E6.
    - rewrite andb_false_r in Eb. done.
    - rewrite orb_false_r in Hf. by rewrite Hf in Eb. }
  destruct (Set_wf _ _ Eb Ha) as (E1 & E2 & E3 & E4 & E5).
  assert (Hb : IsAny b = false).
  { unfold IsAny in *. rewrite E2. destruct (IsIPv6 a) eqn:E6; [by rewrite E4|].
    destruct (E5 eq_refl) as [-> E5']. rewrite orb_false_r in Hf. rewrite Hf in Hany.
    unfold as_in in *. cbn in *. by rewrite E5'. }
  apply wp_bind, wp_modify, wp_bind, wp_modify, wp_bind, wp_modify. rewrite Hb.
  apply wp_bind, wp_modify, wp_bind, wp_modify, wp_bind, wp_ConnectNextHost.
  intros r w' (F1 & F2 & F3 & F4 & F5 & F6 & F7). cbn in F1, F3, F4, F5, F6, F7.
  apply wp_bind, wp_gets. apply wp_if; intros _; [apply wp_bind, wp_modify, wp_ret|apply wp_ret]; exists b; done.
Qed.

(** C27: The SOCKS5 proxy is asked for what the caller connects to: after a
    successful [Connect] by a name that is no address literal, the request
    is read as CONNECT to that name and port; after one by an IPv4 or IPv6
    address that is not the unspecified one, as CONNECT to that address. *)
Theorem socks5_asks_for_target w host port a w1 :
  nProxyType (m_ProxyData w) = PROXYTYPE_SOCKS5 ->
  0 <= port < 65536 -> (length host <= 255)%nat -> inet_addr host = INADDR_NONE ->
  wf_sockaddr a -> IsIPv4 a || IsIPv6 a = true -> IsAny a = false ->
  0 <= sin_port (m_udpcltAddr w) < 65536 ->
  ConnectHost host port w = (true, w1) ->
  parse_request (request w1) = Some (PROXYOP_CONNECT, DomainName host, port) /\
  parse_request (request (exec (ConnectAddr (Some a) (Size a)) w)) = Some (PROXYOP_CONNECT,
    if IsIPv6 a then IPv6 (v6_bytes a) else IPv4 (v4_bytes a), GetPort a).
Proof.
  intros Ht Hp Hh Hn Ha Hf Hany Hu Hc. split.
  - pose proof (asks_for_name w host port Ht Hn) as H. unfold wp in H. rewrite Hc in H.
    destruct (H eq_refl) as (E1 & E2 & E3 & E4 & E5 & E6).
    assert (Er : request_host w1 = host).
    { unfold request_host, request_named. by rewrite E1, E3, E4, E5. }
    rewrite request_parses.
    + unfold target_of, port_of. rewrite E1, E2, E3, E4, Er. cbn. by rewrite htons_involutive, u16_small.
    + constructor; rewrite ?E1, ?E2, ?E4, ?E6, ?Er; try done. apply htons_range.
  - pose proof (asks_for_address w a Ht Ha Hf Hany) as H. apply (wp_exec _ (fun w' => exists b, _ /\ _)) in H.
    destruct H as (b & Eb & E1 & E2 & E3 & E4 & E5 & E6).
    destruct (Set_wf _ _ Eb Ha) as (F1 & F2 & F3 & F4 & F5).
    set (w2 := exec _ w) in *. rewrite request_parses.
    + unfold target_of, port_of. rewrite E1, E2, E3, E4, F1, F2. cbn [Z.eqb Pos.eqb PROXYOP_CONNECT PROXYOP_UDPASSOCIATE].
      destruct (IsIPv6 a) eqn:E7; [by rewrite F4|]. destruct (F5 eq_refl) as [G1 G2].
      rewrite orb_false_r in Hf. unfold IsAny in Hany. rewrite E7, Hf in Hany. cbn in Hany.
      unfold GetdwIP. rewrite G1. unfold as_in. cbn [sin_addr]. rewrite G2. unfold INADDR_ANY in Hany. rewrite Hany.
      cbn [negb].
      change (octets (le_join (v4_bytes a))) with (octets (sin_addr (as_in a))). by rewrite (v4_octets a Ha Hf).
    + constructor; rewrite ?E1, ?E2, ?E4, ?E6, ?F1; try done; [by destruct Ha|].
      unfold request_host. rewrite E5. destruct (request_named w2); cbn; lia.
Qed.
End Connect.

(** ** A concrete request *)

Definition wire_layer : world :=
  set_conns [(true, 0)] (set_m_ProxyData (mkProxyData PROXYTYPE_SOCKS5 (ascii_bytes "proxy") 1080 [] [] false) new_layer).
Definition wire_host : bytes := ascii_bytes "example.org".
Definition wire_address : _SockAddr := mkSockAddr AF_INET (htons 443) ([192; 0; 2; 7] ++ replicate 20 0).
Definition wire_named : world := exec (ConnectHost (platform := test_platform) wire_host 443) wire_layer.

Lemma socks5_messages_parse_witness :
  parse_auth (auth_request [117] [112; 119]) = Some ([117], [112; 119]) /\
  parse_request (request wire_named) = Some (PROXYOP_CONNECT, DomainName wire_host, 443).
Proof.
  destruct (socks5_messages_parse wire_named [117] [112; 119]) as (_ & H1 & H2).
  - cbn. lia.
  - cbn. lia.
  - constructor; vm_compute; first [done|split; [discriminate|done]|lia].
  - split; [exact H1|]. rewrite H2. by vm_compute.
Defined.

Lemma socks5_asks_for_target_witness :
  parse_request (request wire_named) = Some (PROXYOP_CONNECT, DomainName wire_host, 443) /\
  parse_request (request (exec (ConnectAddr (Some wire_address) (Size wire_address)) wire_layer))
  = Some (PROXYOP_CONNECT, IPv4 [192; 0; 2; 7], 443).
Proof.
  refine (socks5_asks_for_target (platform := test_platform) wire_layer wire_host 443 wire_address wire_named
    _ _ _ _ _ _ _ _ _); try by vm_compute.
  - cbn. lia.
  - split; [by vm_compute|split; [done|]]. by apply (bool_decide_unpack _).
Defined.
