(* ===== verification/ProxyUdp.v ===== *)
(** * Datagrams through the relay

    [SendTo] and [ReceiveFrom] of ProxyLayerUdp.v against the codec's wire
    format: an echoed datagram comes back as it was sent, with and without the
    secure layer, and nothing is accepted that is not from the relay. *)

From S2P Require Import Prelude Winsock SockAddr Effects Socks5UdpCodec AutoBuffer ProxyLayer.
From S2P Require Import ProxyLayerUdp ProxyLayerRules ProxyLayerSafety.

(** An address as the caller passes it. *)
Definition sockaddr4 (a : SOCKADDR_IN) : _SockAddr :=
  mkSockAddr AF_INET (sin_port a) (memcpy (replicate 24 0) 0 (le_split 4 (sin_addr a))).
Definition sockaddr6 (a : SOCKADDR_IN6) : _SockAddr :=
  mkSockAddr AF_INET6 (sin6_port a) (memcpy (replicate 24 0) 4 (sin6_addr a)).

Lemma as_in_sockaddr4 a : wf_in a -> sin_family a = AF_INET -> as_in (sockaddr4 a) = a.
Proof.
  intros [Hp Ha] Hf. destruct a as [f p ad]; cbn in Hp, Ha, Hf. subst f.
  unfold as_in, v4_bytes, sockaddr4. cbn [sa_data sa_family sa_port sin_port sin_addr]. f_equal.
  change (take 4 (memcpy (replicate 24 0) 0 (le_split 4 ad))) with (le_split 4 ad).
  apply le_join_split_small. lia.
Qed.

Lemma as_in6_sockaddr6 a : wf_in6 a -> sin6_family a = AF_INET6 -> as_in6 (sockaddr6 a) = a.
Proof.
  intros (Hp & H16 & _) Hf. destruct a as [f p ad]; cbn in H16, Hf. subst f.
  unfold as_in6, v6_bytes, sockaddr6. cbn [sa_data sa_family sa_port sin6_port sin6_addr]. f_equal.
  unfold memcpy. change (take 4 (replicate 24 0)) with (replicate 4 (0 : Z)).
  rewrite drop_app_ge by done. rewrite length_replicate, Nat.sub_diag, drop_0.
  by rewrite take_app_le, take_ge by lia.
Qed.

Definition room (b : autoBuffer) : Prop := 0 <= ab_size b /\ 70000 <= maxsize b.

Section Udp.
Context {platform : Platform} {secure : SecureUdp} {text : AddressText}.

Lemma set_ab_ok get set n w :
  room (get w) -> 0 <= n <= 70000 ->
  exists b, set_ab get set n w = (true, set b w) /\ room b.
Proof.
  intros [Hs Hm] Hn. unfold set_ab, checkBufferSize. rewrite u32_small by lia.
  destruct (Z.ltb_spec (ab_size (get w)) n); [|by exists (get w)].
  rewrite (proj2 (Z.ltb_ge (maxsize (get w)) n)) by lia.
  eexists. split; [done|]. split; cbn; lia.
Qed.

(** The protection of a packet, if there is any. *)
Definition secured (w : world) : bool := match m_pSecureLayer w with PNull => false | _ => true end.
Definition protect (w : world) (packet : bytes) : option bytes :=
  if secured w then
    if HasUdpKey then m_udpEncrypt packet (Z.of_nat (length packet) + 16) else None
  else Some packet.

(** A secure layer that can be used: it has a key, what it encrypts fits in 16
    more bytes, and decryption undoes it. *)
Definition secure_usable : Prop :=
  HasUdpKey = true /\
  forall p, exists c, m_udpEncrypt p (Z.of_nat (length p) + 16) = Some c /\
    Z.of_nat (length c) <= Z.of_nat (length p) + 16 /\
    forall cap, Z.of_nat (length p) <= cap -> m_udpDecrypt c cap = Some p.

Lemma protect_usable w p :
  (secured w = true -> secure_usable) ->
  exists c, protect w p = Some c /\
    Z.of_nat (length c) <= Z.of_nat (length p) + (if secured w then 16 else 0) /\
    forall cap, Z.of_nat (length p) <= cap ->
      (if secured w then if HasUdpKey then m_udpDecrypt c cap else None else Some c) = Some p.
Proof.
  unfold protect. intros H. destruct (secured w).
  - destruct (H eq_refl) as [Hk Hs]. rewrite Hk. destruct (Hs p) as (c & -> & ? & ?). by exists c.
  - exists p. split; [done|]. split; [lia|done].
Qed.

(** What sending a packet changes. *)
Definition sent (b1 b2 : autoBuffer) (t : list tx_event) (o : list output) (w : world) : world :=
  set_m_udpBuffer b1 (set_m_secureUdpBuffer b2 (set_tx t (set_out (out w ++ o) w))).

Lemma send_packet_ok packet n k t c w :
  protect w packet = Some c -> room (m_secureUdpBuffer w) ->
  Z.of_nat (length packet) <= 65600 -> tx w = TxAccept k :: t ->
  exists b2, send_packet packet n w
    = (n, sent (m_udpBuffer w) b2 t [OSendTo c (m_udpsrvAddr w)] w) /\ room b2.
Proof.
  intros Hc Hr Hl Ht. unfold send_packet, protect, secured, mbind, M_bind, gets in *.
  assert (Hs : forall b2 v, v = set_m_secureUdpBuffer b2 w -> room b2 ->
    exists b3, (let '(nBytesSent, w') := sendto c (m_udpsrvAddr w) v in
                (mret (if nBytesSent =? Z.of_nat (length c) then n else nBytesSent) : ML Z) w')
             = (n, sent (m_udpBuffer w) b3 t [OSendTo c (m_udpsrvAddr w)] w) /\ room b3).
  { intros b2 v -> Hb. exists b2. split; [|done]. unfold sendto.
    cbn [tx set_m_secureUdpBuffer]. rewrite Ht. rewrite Z.eqb_refl. by destruct w. }
  destruct (m_pSecureLayer w).
  - injection Hc as ->. apply (Hs (m_secureUdpBuffer w)); [by destruct w|done].
  - destruct HasUdpKey; [|done].
    destruct (set_ab_ok m_secureUdpBuffer set_m_secureUdpBuffer (Z.of_nat (length packet) + 16) w)
      as (b2 & E & Hb); [done|lia|]. cbn [negb]. rewrite E. unfold mret at 1, M_ret. rewrite Hc.
    by apply (Hs b2).
  - destruct HasUdpKey; [|done].
    destruct (set_ab_ok m_secureUdpBuffer set_m_secureUdpBuffer (Z.of_nat (length packet) + 16) w)
      as (b2 & E & Hb); [done|lia|]. cbn [negb]. rewrite E. unfold mret at 1, M_ret. rewrite Hc.
    by apply (Hs b2).
Qed.

(** Sending to any kind of destination. *)
Definition send_to (e : endpoint) (data : bytes) : ML Z :=
  let n := Z.of_nat (length data) in
  match e with
  | EpV4 a => SendToAddr (Some data) n (Some (sockaddr4 a)) sizeof_SOCKADDR_IN
  | EpV6 a => SendToAddr (Some data) n (Some (sockaddr6 a)) sizeof_SOCKADDR_IN6
  | EpName name port => SendToHost (Some data) n port name
  end.

Definition is_name (e : endpoint) : Prop :=
  match e with EpName name _ => inet_addr name = INADDR_NONE | _ => True end.

Definition udp_ready (w : world) : Prop :=
  m_nProxyOpID w = 0 /\ room (m_udpBuffer w) /\ room (m_secureUdpBuffer w) /\
  (secured w = true -> secure_usable).

Lemma send_to_wire e data k t w :
  wf_endpoint e -> is_name e -> header_length e + Z.of_nat (length data) <= 65507 ->
  udp_ready w -> tx w = TxAccept k :: t ->
  exists c b1 b2, protect w (wire e data) = Some c /\
    send_to e data w
    = (Z.of_nat (length data), sent b1 b2 t [OSendTo c (m_udpsrvAddr w)] w) /\
    room b1 /\ room b2.
Proof.
  intros He Hn Hl (Hid & Hb & Hsb & Hsec) Ht.
  destruct (protect_usable w (wire e data) Hsec) as (c & Hc & _).
  pose proof (length_wire e data (wf_endpoint_addr e He)) as Hlw.
  pose proof (encode_wire (Z.of_nat (length data) + MAX_HEADER_SIZE) e data He) as Henc.
  assert (Hh : 10 <= header_length e <= MAX_HEADER_SIZE \/ 8 <= header_length e <= MAX_HEADER_SIZE).
  { unfold MAX_HEADER_SIZE. destruct e; cbn in *; lia. }
  assert (Hcap : 0 <= Z.of_nat (length data) + MAX_HEADER_SIZE <= 70000)
    by (unfold MAX_HEADER_SIZE in *; lia).
  destruct (set_ab_ok m_udpBuffer set_m_udpBuffer _ w Hb Hcap) as (b1 & E1 & Hb1).
  destruct (send_packet_ok (wire e data) (Z.of_nat (length data)) k t c (set_m_udpBuffer b1 w))
    as (b2 & E2 & Hb2); try done; [lia|].
  exists c, b1, b2. split; [done|]. split; [|done].
  rewrite store_packet_fits in Henc by lia.
  assert (Efin : forall m, m = send_packet (wire e data) (Z.of_nat (length data)) ->
     m (set_m_udpBuffer b1 w)
     = (Z.of_nat (length data), sent b1 b2 t [OSendTo c (m_udpsrvAddr w)] w)).
  { intros m ->. rewrite E2. by destruct w. }
  destruct e as [a|a|name port]; cbn [send_to encode header_length wf_endpoint is_name] in *.
  - destruct He as [Hwa Hfa]. unfold SendToAddr, mbind, M_bind, gets. rewrite Hid.
    cbn [Z.eqb negb sa_family sockaddr4]. change (AF_INET =? AF_INET6) with false.
    change (AF_INET =? AF_INET) with true. cbn [negb andb orb]. rewrite Z.ltb_irrefl.
    rewrite (proj2 (Z.ltb_ge (Z.of_nat (length data)) 0)), (proj2 (Z.ltb_ge _ _)) by lia.
    cbn [orb]. rewrite E1. cbn [negb]. rewrite as_in_sockaddr4, Henc by done. by apply Efin.
  - destruct He as [Hwa Hfa]. unfold SendToAddr, mbind, M_bind, gets. rewrite Hid.
    cbn [Z.eqb negb sa_family sockaddr6]. change (AF_INET6 =? AF_INET6) with true.
    change (AF_INET6 =? AF_INET) with false. cbn [negb andb orb]. rewrite Z.ltb_irrefl.
    rewrite (proj2 (Z.ltb_ge (Z.of_nat (length data)) 0)), (proj2 (Z.ltb_ge _ _)) by lia.
    cbn [orb]. rewrite E1. cbn [negb]. rewrite as_in6_sockaddr6, Henc by done. by apply Efin.
  - destruct He as (Hl1 & _ & _ & Hp). unfold SendToHost, mbind, M_bind, gets.
    rewrite Hid, Hn. cbn [Z.eqb negb]. rewrite Z.eqb_refl. cbn [negb].
    rewrite (proj2 (Z.leb_gt _ _)), (proj2 (Z.ltb_ge 255 _)), (proj2 (Z.ltb_ge _ 0)),
      (proj2 (Z.ltb_ge _ _)) by lia. cbn [orb]. rewrite E1. cbn [negb].
    rewrite u16_small by done. rewrite Henc. by apply Efin.
Qed.

(** ** Receiving *)

Definition from_relay (w : world) (a : SOCKADDR_IN) : Prop :=
  sin_family a = AF_INET /\ sin_addr a = sin_addr (m_udpsrvAddr w) /\
  sin_port a = sin_port (m_udpsrvAddr w).

(** What the application learns of the source; a name is not reported. *)
Definition from_of (e : endpoint) : from_addr :=
  match e with
  | EpV4 a => From4 a
  | EpV6 a => From6 a
  | EpName _ port => From4 (mkSOCKADDR_IN AF_INET (htons port) 0)
  end.

Lemma Decode_wire_from e data :
  wf_endpoint e ->
  exists d, Decode (wire e data) = Some d /\ payload d = data /\
    (sourceLength d <= sizeof_SOCKADDR_IN6) /\
    (if sourceLength d =? sizeof_SOCKADDR_IN6 then From6 (source6 d) else From4 (source d))
    = from_of e.
Proof.
  destruct e as [[f p a]|[f p a]|name port]; cbn [wf_endpoint wire sin_family sin6_family].
  - intros [Hw ->]. destruct (Decode_wire_ipv4 _ data Hw) as (d & E & _ & Hl & Hs & Hp).
    exists d. by rewrite Hl, Hs.
  - intros [Hw ->]. destruct (Decode_wire_ipv6 _ data Hw) as (d & E & _ & Hl & Hs & Hp).
    exists d. by rewrite Hl, Hs.
  - intros (Hl & _). destruct (Decode_wire_domain name port data Hl) as (d & E & _ & Hsl & Hs & Hp).
    exists d. by rewrite Hsl, Hs.
Qed.

(** The buffers of a receive call. *)
Lemma receive_buffers n w :
  room (m_udpBuffer w) -> room (m_secureUdpBuffer w) -> 0 <= n <= 65507 ->
  exists b1 b2 ok,
    (ok1 ← set_ab m_udpBuffer set_m_udpBuffer (n + MAX_HEADER_SIZE);
     if (ok1 : bool) && secured w
     then set_ab m_secureUdpBuffer set_m_secureUdpBuffer
            (n + MAX_HEADER_SIZE + (if secured w then 16 else 0))
     else mret ok1) w
    = (ok, set_m_udpBuffer b1 (set_m_secureUdpBuffer b2 w)) /\ ok = true.
Proof.
  intros H1 H2 Hn. unfold mbind, M_bind.
  destruct (set_ab_ok m_udpBuffer set_m_udpBuffer (n + MAX_HEADER_SIZE) w H1) as (b1 & -> & Hb1);
    [unfold MAX_HEADER_SIZE; lia|]. cbn [andb].
  destruct (secured w).
  - destruct (set_ab_ok m_secureUdpBuffer set_m_secureUdpBuffer (n + MAX_HEADER_SIZE + 16)
      (set_m_udpBuffer b1 w)) as (b2 & -> & Hb2); [done|unfold MAX_HEADER_SIZE; lia|].
    exists b1, b2, true. split; [|done]. by destruct w.
  - exists b1, (m_secureUdpBuffer w), true. split; [|done]. by destruct w.
Qed.

(** The call after its buffers are there. *)
Definition receive_body (n : Z) (len : option Z) (sec : bool) : ML (Z * bytes * from_addr) :=
  let plainCapacity := n + MAX_HEADER_SIZE in
  r ← recvfrom (plainCapacity + (if sec then 16 else 0));
  match r with
  | None => mret (SOCKET_ERROR, [], FromNone)
  | Some (relayAddress, packet) =>
      srv ← gets m_udpsrvAddr;
      if negb (sin_family relayAddress =? AF_INET)
         || negb (sin_addr relayAddress =? sin_addr srv)
         || negb (sin_port relayAddress =? sin_port srv) then fail_from WSAEACCES
      else
        match (if sec then if negb HasUdpKey then None else m_udpDecrypt packet plainCapacity
               else Some packet) with
        | None => fail_from WSAEPROTONOSUPPORT
        | Some plain =>
            match Decode plain with
            | None => fail_from WSAEPROTONOSUPPORT
            | Some decoded => deliver decoded n len
            end
        end
  end.

Lemma ReceiveFrom_body n len w :
  m_nProxyOpID w = 0 -> room (m_udpBuffer w) -> room (m_secureUdpBuffer w) -> 0 <= n <= 65507 ->
  exists b1 b2, ReceiveFrom n len w
    = receive_body n len (secured w) (set_m_udpBuffer b1 (set_m_secureUdpBuffer b2 w)).
Proof.
  intros Hid H1 H2 Hn. destruct (receive_buffers n w H1 H2 Hn) as (b1 & b2 & ok & E & ->).
  exists b1, b2. unfold ReceiveFrom, mbind, M_bind, gets in *. rewrite Hid. cbn [Z.eqb negb].
  unfold secured in *. revert E.
  destruct (set_ab m_udpBuffer set_m_udpBuffer (n + MAX_HEADER_SIZE) w) as [ok1 w1].
  destruct (m_pSecureLayer w); intros E; rewrite E; reflexivity.
Qed.

(** C38: a datagram goes to the relay and comes back.  When the association is
    up, sending [data] to any destination (an IPv4 or IPv6 address or a host
    name) hands the system exactly one datagram, for the relay, and reports the
    payload's length; and when the relay returns that datagram, [ReceiveFrom]
    delivers [data] and reports as its source the destination, if that was an
    address.  If it was a name, the name is lost: the source reported is
    0.0.0.0 with the destination's port.  This holds with the secure layer too,
    given that its decryption undoes its encryption. *)
Theorem udp_echo e data k t w n :
  wf_endpoint e -> is_name e -> header_length e + Z.of_nat (length data) <= 65507 ->
  udp_ready w -> sin_family (m_udpsrvAddr w) = AF_INET -> tx w = TxAccept k :: t ->
  Z.of_nat (length data) <= n <= 65507 ->
  exists c w1 w2,
    send_to e data w = (Z.of_nat (length data), w1) /\
    out w1 = out w ++ [OSendTo c (m_udpsrvAddr w)] /\
    ReceiveFrom n (Some sizeof_SOCKADDR_IN6) (set_drx [(m_udpsrvAddr w, c)] w1)
    = ((Z.of_nat (length data), data,
        match e with
        | EpV4 a => From4 a
        | EpV6 a => From6 a
        | EpName _ port => From4 (mkSOCKADDR_IN AF_INET (htons port) 0)
        end), w2).
Proof.
  intros He Hn Hl Hready Hf Ht Hcap.
  destruct (send_to_wire e data k t w He Hn Hl Hready Ht) as (c & b1 & b2 & Hc & Es & Hb1 & Hb2).
  destruct Hready as (Hid & _ & _ & Hsec).
  destruct (protect_usable w (wire e data) Hsec) as (c' & Hc' & Hlen & Hdec).
  rewrite Hc in Hc'. injection Hc' as <-.
  destruct (Decode_wire_from e data He) as (d & Ed & Hpl & Hsl & Hfrom).
  pose proof (length_wire e data (wf_endpoint_addr e He)) as Hlw.
  assert (Hh : header_length e <= MAX_HEADER_SIZE).
  { unfold MAX_HEADER_SIZE. destruct e; cbn in *; lia. }
  set (w1 := sent b1 b2 t [OSendTo c (m_udpsrvAddr w)] w).
  set (w1' := set_drx [(m_udpsrvAddr w, c)] w1).
  destruct (ReceiveFrom_body n (Some sizeof_SOCKADDR_IN6) w1') as (b3 & b4 & Er);
    try done; [lia|].
  change (secured w1') with (secured w) in Er.
  exists c, w1, (set_m_udpBuffer b3 (set_m_secureUdpBuffer b4 (set_drx [] w1))).
  split; [done|]. split; [done|]. fold w1'. rewrite Er.
  unfold receive_body, mbind, M_bind, recvfrom, gets. cbn [drx set_m_udpBuffer set_m_secureUdpBuffer w1' set_drx].
  rewrite (proj2 (Z.ltb_ge _ _)) by (destruct (secured w); lia).
  cbn [m_udpsrvAddr set_m_udpBuffer set_m_secureUdpBuffer w1' w1 set_drx sent set_tx set_out].
  rewrite Hf, !Z.eqb_refl. cbn [negb orb].
  assert (Hp : (if secured w then if negb HasUdpKey then None else m_udpDecrypt c (n + MAX_HEADER_SIZE)
               else Some c) = Some (wire e data)).
  { specialize (Hdec (n + MAX_HEADER_SIZE)). destruct (secured w); [|by apply Hdec; lia].
    destruct HasUdpKey; cbn [negb]; apply Hdec; lia. }
  rewrite Hp, Ed. unfold deliver, payloadLength. rewrite Hpl.
  rewrite (proj2 (Z.ltb_ge _ _)), (proj2 (Z.ltb_ge _ _)) by lia. rewrite Hfrom. done.
Qed.

(** nothing is received but what the relay sent.  Whatever datagrams the
    socket holds, a call that reports a payload took the first of them, it
    came from the relay's address and port, and the payload is that of its
    decoding, after decryption if there is a secure layer; a datagram from
    anywhere else is refused with WSAEACCES and gives no bytes. *)
Theorem receive_only_from_relay n len w src packet r :
  udp_ready w -> 0 <= n <= 65507 -> drx w = (src, packet) :: r ->
  let '((count, got, from), w') := ReceiveFrom n len w in
  drx w' = r /\
  (count <> SOCKET_ERROR ->
     from_relay w src /\ count = Z.of_nat (length got) /\ count <= n /\
     exists plain d, Decode plain = Some d /\ payload d = got /\
       (if secured w then HasUdpKey = true /\ m_udpDecrypt packet (n + MAX_HEADER_SIZE) = Some plain
        else plain = packet)) /\
  (~ from_relay w src -> Z.of_nat (length packet) <= n + MAX_HEADER_SIZE ->
     count = SOCKET_ERROR /\ got = [] /\ lasterr w' = WSAEACCES).
Proof.
  intros (Hid & H1 & H2 & _) Hn Hd.
  destruct (ReceiveFrom_body n len w Hid H1 H2 Hn) as (b1 & b2 & ->).
  unfold receive_body, mbind, M_bind, recvfrom, gets. cbn [drx set_m_udpBuffer set_m_secureUdpBuffer].
  rewrite Hd. destruct (_ <? Z.of_nat (length packet)) eqn:Ecap.
  { split; [done|]. split; [done|]. bool_hyps. intros _ ?. destruct (secured w); lia. }
  cbn [m_udpsrvAddr set_m_udpBuffer set_m_secureUdpBuffer set_drx].
  destruct (_ || _) eqn:Eaddr.
  { split; [done|]. split; [done|]. done. }
  bool_hyps. assert (Hrel : from_relay w src) by done.
  set (plain := if secured w then _ else _).
  destruct plain as [p|] eqn:Ep; [|split; [done|]; split; [done|]; by intros ?].
  destruct (Decode p) as [d|] eqn:Ed; [|split; [done|]; split; [done|]; by intros ?].
  assert (Hplain : exists plain' d', Decode plain' = Some d' /\ payload d' = payload d /\
       (if secured w then HasUdpKey = true /\ m_udpDecrypt packet (n + MAX_HEADER_SIZE) = Some plain'
        else plain' = packet)).
  { exists p, d. split; [done|]. split; [done|]. subst plain. destruct (secured w).
    - by destruct HasUdpKey.
    - by injection Ep as ->. }
  unfold deliver. destruct (Z.ltb_spec n (payloadLength d)).
  { split; [done|]. split; [done|]. by intros ?. }
  destruct len as [l|]; [destruct (l <? sourceLength d)|].
  - split; [done|]. split; [done|]. by intros ?.
  - split; [done|]. split; [|by intros ?]. intros _. done.
  - split; [done|]. split; [|by intros ?]. intros _. done.
Qed.
(** ** Scatter and gather *)

(** the scatter/gather calls carry the bytes too.  Sending a list of at
    most 31 buffers to an address hands the relay one datagram and reports the
    payload's length, and gathering that datagram into buffers large enough
    returns the concatenation of what was sent and the address it was sent
    to. *)
Theorem wsa_echo bufs to k t w caps :
  m_nProxyOpID w = 0 -> tx w = TxAccept k :: t -> (length bufs <= 31)%nat ->
  wf_in to -> sin_family to = AF_INET ->
  Z.of_nat (length (concat bufs)) <= fold_right Z.add 0 (take 31 caps) ->
  exists c w1 w2,
    WSASendToAddr bufs to w = ((0, Z.of_nat (length (concat bufs))), w1) /\
    out w1 = out w ++ [OSendTo c (m_udpsrvAddr w)] /\
    WSARecvFrom caps (set_drx [(m_udpsrvAddr w, c)] w1)
    = ((0, Z.of_nat (length (concat bufs)), Some to, concat bufs), w2).
Proof.
  intros Hid Ht Hl Hw Hf Hc.
  set (hdr := [0; 0; 0; 1] ++ le_split 4 (sin_addr to) ++ le_split 2 (sin_port to)).
  assert (Hlen : Z.of_nat (length (hdr ++ concat bufs)) = 10 + Z.of_nat (length (concat bufs)))
    by (rewrite length_app, Nat2Z.inj_add; done).
  set (w1 := set_out (out w ++ [OSendTo (hdr ++ concat bufs) (m_udpsrvAddr w)]) (set_tx t w)).
  exists (hdr ++ concat bufs), w1, (set_drx [] w1). split; [|split; [done|]].
  - unfold WSASendToAddr, wsa_send, wsabufs, mbind, M_bind, gets. rewrite Hid. cbn [Z.eqb negb].
    rewrite (take_ge bufs 31) by lia. fold hdr. unfold sendto. rewrite Ht, Hlen.
    rewrite (proj2 (Z.eqb_neq _ _)) by (unfold SOCKET_ERROR; lia).
    change (Z.of_nat (length hdr)) with 10. rewrite (proj2 (Z.leb_le _ _)) by lia.
    rewrite Z.add_simpl_l. done.
  - unfold WSARecvFrom, mbind, M_bind, gets.
    change (m_nProxyOpID (set_drx _ w1)) with (m_nProxyOpID w). rewrite Hid. cbn [Z.eqb negb].
    unfold recvfrom. cbn [drx set_drx]. rewrite Hlen, (proj2 (Z.ltb_ge _ _)) by lia.
    unfold mret, M_ret. rewrite Hlen, (proj2 (Z.leb_le _ _)), Z.add_simpl_l by lia.
    change (slice 8 2 (hdr ++ concat bufs)) with (le_split 2 (sin_port to)).
    change (slice 4 4 (hdr ++ concat bufs)) with (le_split 4 (sin_addr to)).
    change (drop 10 (hdr ++ concat bufs)) with (concat bufs).
    destruct Hw as [Hp Ha]. rewrite !le_join_split_small by lia.
    destruct to; cbn in *; by subst.
Qed.

(** the scatter/gather send by name writes past its header array exactly
    when the name is longer than 252 bytes: the array has 259 bytes, the
    header seven more than the name, and nothing bounds the name. *)
Theorem wsa_host_header_bound bufs port host w :
  m_nProxyOpID w = 0 -> inet_addr host = INADDR_NONE ->
  (faults (out (exec (WSASendToHost bufs port host) w)) = faults (out w)
   <-> Z.of_nat (length host) <= 252).
Proof.
  intros Hid Hn. unfold WSASendToHost, exec, mbind, M_bind, gets. rewrite Hid, Hn.
  rewrite Z.eqb_refl. cbn [Z.eqb negb].
  set (hdr := _ ++ host ++ _).
  assert (Hlen : Z.of_nat (length hdr) = 7 + Z.of_nat (length host))
    by (unfold hdr; rewrite !length_app; simpl length; lia).
  assert (Hs : forall v, faults (out (snd (wsa_send hdr bufs v))) = faults (out v)).
  { intros v. unfold wsa_send, mbind, M_bind, gets, sendto.
    destruct (tx v) as [|[| |] r]; try done.
    rewrite (proj2 (Z.eqb_neq _ _)) by (unfold SOCKET_ERROR; lia).
    cbn [snd mret M_ret out set_out set_tx]. rewrite faults_app. cbn. lia. }
  unfold WSA_HDR_SIZE. rewrite Hlen.
  destruct (Z.ltb_spec 259 (7 + Z.of_nat (length host))); cbn [when].
  - change (faults (out (snd (wsa_send hdr bufs (set_out (out w ++ [OFault]) w)))) = faults (out w)
            <-> Z.of_nat (length host) <= 252).
    rewrite Hs. cbn [out set_out]. rewrite faults_app. cbn. lia.
  - change (faults (out (snd (wsa_send hdr bufs w))) = faults (out w)
            <-> Z.of_nat (length host) <= 252).
    rewrite Hs. split; [lia|done].
Qed.
End Udp.

(** ** Witnesses: a toy protection that adds a tag of sixteen bytes *)

Definition tag : bytes := replicate 16 90.
Definition test_secure : SecureUdp := {|
  HasUdpKey := true;
  m_udpEncrypt := fun p cap => if cap <? Z.of_nat (length p) + 16 then None else Some (tag ++ p);
  m_udpDecrypt := fun c cap =>
    if bool_decide (take 16 c = tag) then
      if cap <? Z.of_nat (length (drop 16 c)) then None else Some (drop 16 c)
    else None |}.

Definition test_text : AddressText := {|
  ProxyInetPtonA := fun _ _ => None; uninit_sockaddr := replicate 24 0 |}.

Lemma test_secure_usable : secure_usable (secure := test_secure).
Proof.
  split; [done|]. intros p. exists (tag ++ p). cbn [m_udpEncrypt m_udpDecrypt test_secure].
  rewrite Z.ltb_irrefl. split; [done|]. split; [rewrite length_app; simpl; lia|].
  intros cap Hc. rewrite bool_decide_true by done.
  change (drop 16 (tag ++ p)) with p. by rewrite (proj2 (Z.ltb_ge _ _)) by done.
Qed.

Definition udp_world (packets : list (SOCKADDR_IN * bytes)) : world :=
  set_m_udpsrvAddr (mkSOCKADDR_IN AF_INET 1234 16777226)
    (set_m_pSecureLayer PLive (set_drx packets (set_tx [TxAccept 1] new_layer))).

Lemma udp_ready_world packets : udp_ready (secure := test_secure) (udp_world packets).
Proof.
  split; [done|]. split; [split; cbn; lia|]. split; [split; cbn; lia|].
  intros _. apply test_secure_usable.
Qed.

Definition test_name : endpoint := EpName (ascii_bytes "example.org") 53.

Definition test_address : SOCKADDR_IN := mkSOCKADDR_IN AF_INET (htons 53) 134744072.

(** To 8.8.8.8:53, and to a name. *)
Lemma udp_echo_witness :
  secured (udp_world []) = true /\
  (exists c w1 w2,
    send_to (platform := test_platform) (secure := test_secure) (text := test_text)
      (EpV4 test_address) [1; 2; 3] (udp_world []) = (3, w1) /\
    out w1 = [OSendTo c (m_udpsrvAddr (udp_world []))] /\
    ReceiveFrom (secure := test_secure) 100 (Some sizeof_SOCKADDR_IN6)
      (set_drx [(m_udpsrvAddr (udp_world []), c)] w1)
    = ((3, [1; 2; 3], From4 test_address), w2)) /\
  exists c w1 w2,
    send_to (platform := test_platform) (secure := test_secure) (text := test_text)
      test_name [1; 2; 3] (udp_world []) = (3, w1) /\
    out w1 = [OSendTo c (m_udpsrvAddr (udp_world []))] /\
    ReceiveFrom (secure := test_secure) 100 (Some sizeof_SOCKADDR_IN6)
      (set_drx [(m_udpsrvAddr (udp_world []), c)] w1)
    = ((3, [1; 2; 3], From4 (mkSOCKADDR_IN AF_INET (htons 53) 0)), w2).
Proof.
  split; [done|]. split.
  - apply (udp_echo (platform := test_platform) (secure := test_secure) (text := test_text)
             (EpV4 test_address) [1; 2; 3] 1 [] (udp_world []) 100); try done.
    apply udp_ready_world.
  - apply (udp_echo (platform := test_platform) (secure := test_secure) (text := test_text)
             test_name [1; 2; 3] 1 [] (udp_world []) 100); try done.
    + split; [vm_compute; lia|]. split; [by apply (bool_decide_unpack _)|].
      split; [by apply (bool_decide_unpack _)|lia].
    + apply udp_ready_world.
Defined.

(** A datagram from a stranger. *)
Definition stranger : SOCKADDR_IN := mkSOCKADDR_IN AF_INET 1234 33554442.

Lemma receive_only_from_relay_witness :
  ~ from_relay (udp_world [(stranger, [1])]) stranger /\
  lasterr (snd (ReceiveFrom (secure := test_secure) 100 None
                  (udp_world [(stranger, [1])]))) = WSAEACCES.
Proof.
  assert (Hn : ~ from_relay (udp_world [(stranger, [1])]) stranger)
    by (intros (_ & H & _); discriminate H).
  split; [done|].
  pose proof (receive_only_from_relay (secure := test_secure)
    100 None (udp_world [(stranger, [1])]) stranger [1] [] (udp_ready_world _) ltac:(lia) eq_refl)
    as H.
  destruct (ReceiveFrom _ _ _) as [[[count got] from] w'].
  destruct H as (_ & _ & H). apply H; [exact Hn|vm_compute; discriminate].
Defined.

Lemma wsa_echo_witness :
  exists c w1 w2,
    WSASendToAddr [[1; 2]; [3]] (mkSOCKADDR_IN AF_INET 1234 16777226) (udp_world [])
    = ((0, 3), w1) /\
    out w1 = [OSendTo c (m_udpsrvAddr (udp_world []))] /\
    WSARecvFrom [2; 2] (set_drx [(m_udpsrvAddr (udp_world []), c)] w1)
    = ((0, 3, Some (mkSOCKADDR_IN AF_INET 1234 16777226), [1; 2; 3]), w2).
Proof.
  apply (wsa_echo [[1; 2]; [3]] (mkSOCKADDR_IN AF_INET 1234 16777226) 1 []); try done.
  - simpl. lia.
Defined.

Lemma wsa_host_header_bound_witness :
  faults (out (exec (WSASendToHost (platform := test_platform) (text := test_text)
                       [] 53 (replicate 253 97)) (udp_world []))) <> 0.
Proof.
  intros H.
  assert (Hl : Z.of_nat (length (replicate 253 (97 : Z))) <= 252)
    by (apply (wsa_host_header_bound (platform := test_platform) (text := test_text)
                 [] 53 (replicate 253 97) (udp_world [])); [reflexivity|reflexivity|exact H]).
  vm_compute in Hl. by apply Hl.
Defined.
