(* ===== verification/UdpCapability.v ===== *)
(** * The UDP capability of the selected proxy (ProxyTaskMgr.cpp)

    The UDP task manager keeps one [CapabilityCircuit] for the proxy profile
    in use; a change of profile starts afresh.  The tasks of UdpTask.v report
    their failures and successes here.  Printing is not modelled. *)

From S2P Require Import Prelude Winsock SockAddr UdpPolicy.

(** ** The profile key *)

(** FNV-1a, 32 bits. *)
Fixpoint hash_from (hash : Z) (value : bytes) : Z :=
  match value with
  | [] => hash
  | c :: value => hash_from (u32 (Z.lxor hash c * 16777619)) value
  end.
Definition HashUdpCapabilityCredential (value : bytes) : Z := hash_from 2166136261 value.

(** [%08lx]. *)
Definition hex_digit (d : Z) : Z := if d <? 10 then 48 + d else 87 + d.
Fixpoint hex (n : nat) (z : Z) : bytes :=
  match n with
  | O => []
  | S k => hex k (z / 16) ++ [hex_digit (z mod 16)]
  end.

(** [%d] of an int. *)
Definition dtoa (z : Z) : bytes := if z <? 0 then 45 :: itoa (- z) else itoa z.

Definition bar : bytes := [124].
Definition profile_key (p : option ProxyInfo) : bytes :=
  match p with
  | None => []
  | Some p =>
      dtoa (GetProxyType p) ++ bar ++ dtoa (nProxyPort p) ++ bar ++ dtoa (pi_reserved p) ++ bar ++
      strProxyHost p ++ bar ++ strProxyUser p ++ bar ++
      hex 8 (HashUdpCapabilityCredential (strProxyPass p)) ++ bar ++
      hex 8 (HashUdpCapabilityCredential (strTransportPsk p))
  end.

(** ** The manager's state and operations *)

Record Capability := mkCapability {
  m_udpCapability : CapabilityCircuit;
  m_udpCapabilityKey : bytes
}.

Definition new_capability : Capability := mkCapability Circuit_Reset [].

Definition FlushUdpCapabilitySummary (c : CapabilityCircuit) : CapabilityCircuit :=
  mkCircuit (cap_state c) (consecutiveFailures c) (blockedUntil c) 0.

(** [Reset] clears what the flush before it clears. *)
Definition EnsureUdpCapabilityProfile (p : option ProxyInfo) (m : Capability) : Capability :=
  let key := profile_key p in
  if bool_decide (key = m_udpCapabilityKey m) then m
  else mkCapability Circuit_Reset key.

(** The answer, the error set if any, and the new state. *)
Definition CanStartUdpAssociation (now : Z) (p : option ProxyInfo) (m : Capability)
    : bool * option Z * Capability :=
  let m := EnsureUdpCapabilityProfile p m in
  match p with
  | None => (true, None, m)
  | Some p =>
      if GetProxyType p =? PROXYTYPE_NOPROXY then (true, None, m)
      else if negb (GetProxyType p =? PROXYTYPE_SOCKS5) then
        let '(_, c) := ReportFailure now true (m_udpCapability m) in
        (false, Some WSAEOPNOTSUPP, mkCapability c (m_udpCapabilityKey m))
      else
        let '(ok, c) := CanAttempt now (m_udpCapability m) in
        if ok then (true, None, mkCapability c (m_udpCapabilityKey m))
        else
          (false,
           Some (if bool_decide (cap_state c = CAPABILITY_UNSUPPORTED)
                 then WSAEOPNOTSUPP else WSAEHOSTUNREACH),
           mkCapability (mkCircuit (cap_state c) (consecutiveFailures c) (blockedUntil c)
                           (u32 (suppressedAttempts c + 1))) (m_udpCapabilityKey m))
  end.

Definition ReportUdpAssociationFailure (now : Z) (p : option ProxyInfo) (errorCode : Z)
    (m : Capability) : bool * Capability :=
  let m := EnsureUdpCapabilityProfile p m in
  let '(blocked, c) := ReportFailure now (errorCode =? WSAEOPNOTSUPP) (m_udpCapability m) in
  (blocked, mkCapability c (m_udpCapabilityKey m)).

Definition ReportUdpAssociationReady (p : option ProxyInfo) (m : Capability) : Capability :=
  let m := EnsureUdpCapabilityProfile p m in
  mkCapability (ReportSuccess (FlushUdpCapabilitySummary (m_udpCapability m)))
    (m_udpCapabilityKey m).

Definition IsUdpPermanentlyUnsupported (m : Capability) : bool :=
  bool_decide (cap_state (m_udpCapability m) = CAPABILITY_UNSUPPORTED).

(** ** What admission means *)

Lemma CanAttempt_answer now c :
  fst (CanAttempt now c)
  = match cap_state c with
    | CAPABILITY_UNKNOWN | CAPABILITY_SUPPORTED => true
    | CAPABILITY_UNSUPPORTED => false
    | CAPABILITY_TEMPORARILY_UNAVAILABLE => 0 <=? s32 (now - blockedUntil c)
    end.
Proof.
  destruct c as [st n b s]. unfold CanAttempt. cbn. destruct st; try reflexivity. cbn.
  by destruct (0 <=? s32 (now - b)).
Qed.

(** the manager admits an association exactly when it may work.  Without a
    proxy always; through SOCKS5 unless this profile was found unsupported or
    is within its cooldown; through any other protocol never, and then UDP
    stays blocked for the profile.  A refusal carries WSAEOPNOTSUPP for a
    permanent reason and WSAEHOSTUNREACH for a temporary one, and a profile
    seen for the first time is never refused on SOCKS5. *)
Theorem admission_exact now p m :
  let c := m_udpCapability (EnsureUdpCapabilityProfile (Some p) m) in
  let '(ok, err, m') := CanStartUdpAssociation now (Some p) m in
  m_udpCapabilityKey m' = profile_key (Some p) /\
  (ok = true <->
     GetProxyType p = PROXYTYPE_NOPROXY \/
     (GetProxyType p = PROXYTYPE_SOCKS5 /\ cap_state c <> CAPABILITY_UNSUPPORTED /\
      (cap_state c = CAPABILITY_TEMPORARILY_UNAVAILABLE -> 0 <= s32 (now - blockedUntil c)))) /\
  (err = None <-> ok = true) /\
  (ok = false -> err = Some (if IsUdpPermanentlyUnsupported m' then WSAEOPNOTSUPP
                             else WSAEHOSTUNREACH)) /\
  (ok = false -> GetProxyType p <> PROXYTYPE_SOCKS5 -> IsUdpPermanentlyUnsupported m' = true) /\
  (GetProxyType p = PROXYTYPE_SOCKS5 -> profile_key (Some p) <> m_udpCapabilityKey m -> ok = true).
Proof.
  set (m1 := EnsureUdpCapabilityProfile (Some p) m). cbn zeta.
  assert (Hk : m_udpCapabilityKey m1 = profile_key (Some p)).
  { unfold m1, EnsureUdpCapabilityProfile. case_bool_decide; [by symmetry|done]. }
  assert (Hfresh : profile_key (Some p) <> m_udpCapabilityKey m ->
            cap_state (m_udpCapability m1) = CAPABILITY_UNKNOWN).
  { intros Hne. unfold m1, EnsureUdpCapabilityProfile. by rewrite bool_decide_false. }
  unfold CanStartUdpAssociation. fold m1. clearbody m1. destruct m1 as [c key]. cbn in Hk, Hfresh |- *.
  destruct (Z.eqb_spec (GetProxyType p) PROXYTYPE_NOPROXY) as [Ht|Ht].
  { split; [done|]. split; [split; [by left|done]|]. split; [done|]. split; [done|]. by split. }
  destruct (Z.eqb_spec (GetProxyType p) PROXYTYPE_SOCKS5) as [H5|H5]; cbn [negb].
  2: { unfold ReportFailure, ReportFailure_with. split; [done|]. split; [|by split_and!].
       split; [done|]. intros [|[? _]]; done. }
  pose proof (CanAttempt_answer now c) as Hans. destruct (CanAttempt now c) as [ok c'] eqn:E.
  cbn in Hans. subst ok. revert E.
  destruct c as [st n b s]. unfold CanAttempt. cbn in Hfresh |- *. intros E.
  destruct st; cbn in E |- *; try (injection E as <-; cbn).
  - split_and!; try done. split; [|done]. intros _. right. by split_and!.
  - split_and!; try done. split; [|done]. intros _. right. by split_and!.
  - split; [done|]. split; [split; [done|intros [?|(_ & ? & _)]; done]|]. split; [done|].
    split; [done|]. split; [done|]. intros _ Hne. discriminate (Hfresh Hne).
  - destruct (Z.leb_spec 0 (s32 (now - b))); cbn.
    + split_and!; try done. split; [|done]. intros _. right. by split_and!.
    + split; [done|]. split.
      { split; [done|]. intros [?|(_ & _ & Hb)]; [done|]. specialize (Hb eq_refl). lia. }
      split; [done|]. split; [done|]. split; [done|]. intros _ Hne. discriminate (Hfresh Hne).
Qed.

Lemma key_after p m :
  m_udpCapabilityKey (EnsureUdpCapabilityProfile p m) = profile_key p.
Proof. unfold EnsureUdpCapabilityProfile. case_bool_decide; [by symmetry|done]. Qed.

Lemma same_profile p c :
  EnsureUdpCapabilityProfile p (mkCapability c (profile_key p)) = mkCapability c (profile_key p).
Proof. unfold EnsureUdpCapabilityProfile. by rewrite bool_decide_true. Qed.

Lemma ready_state p m :
  ReportUdpAssociationReady p m = mkCapability (mkCircuit CAPABILITY_SUPPORTED 0 0 0) (profile_key p).
Proof. unfold ReportUdpAssociationReady. by rewrite key_after. Qed.

Lemma failure_step now p e st n b s :
  e <> WSAEOPNOTSUPP -> st <> CAPABILITY_UNSUPPORTED -> 0 <= n < 1000 ->
  ReportUdpAssociationFailure now p e (mkCapability (mkCircuit st n b s) (profile_key p))
  = if n + 1 <? 3
    then (false, mkCapability (mkCircuit CAPABILITY_UNKNOWN (n + 1) b s) (profile_key p))
    else (true, mkCapability (mkCircuit CAPABILITY_TEMPORARILY_UNAVAILABLE (n + 1)
                                (u32 (now + 60 * 1000)) s) (profile_key p)).
Proof.
  intros He Hst Hn. unfold ReportUdpAssociationFailure. rewrite same_profile.
  rewrite (proj2 (Z.eqb_neq e _) He). unfold ReportFailure, ReportFailure_with.
  cbn [m_udpCapability m_udpCapabilityKey cap_state consecutiveFailures blockedUntil suppressedAttempts].
  rewrite bool_decide_false, u32_small by (done || lia). by destruct (n + 1 <? 3).
Qed.

(** a success or a new profile ends every block, and only those and the
    cooldown do.  After a reported success any SOCKS5 attempt for the same
    profile is admitted; three failures in a row block the profile, and an
    attempt for a profile with another key is admitted at once. *)
Theorem profile_recovery now p q e1 e2 e3 m :
  GetProxyType p = PROXYTYPE_SOCKS5 -> GetProxyType q = PROXYTYPE_SOCKS5 ->
  profile_key (Some q) <> profile_key (Some p) ->
  e1 <> WSAEOPNOTSUPP -> e2 <> WSAEOPNOTSUPP -> e3 <> WSAEOPNOTSUPP ->
  let ready := ReportUdpAssociationReady (Some p) m in
  let '(b1, m1) := ReportUdpAssociationFailure now (Some p) e1 ready in
  let '(b2, m2) := ReportUdpAssociationFailure now (Some p) e2 m1 in
  let '(b3, m3) := ReportUdpAssociationFailure now (Some p) e3 m2 in
  fst (fst (CanStartUdpAssociation now (Some p) ready)) = true /\
  (b1, b2, b3) = (false, false, true) /\
  fst (fst (CanStartUdpAssociation now (Some p) m2)) = true /\
  fst (fst (CanStartUdpAssociation now (Some p) m3)) = false /\
  fst (fst (CanStartUdpAssociation now (Some q) m3)) = true /\
  fst (fst (CanStartUdpAssociation now (Some p) (ReportUdpAssociationReady (Some p) m3))) = true.
Proof.
  intros Hp Hq Hkey H1 H2 H3. cbn zeta. rewrite ready_state.
  rewrite failure_step by (done || lia). change (0 + 1 <? 3) with true. cbv iota beta.
  rewrite failure_step by (done || lia). change (0 + 1 + 1 <? 3) with true. cbv iota beta.
  rewrite failure_step by (done || lia). change (0 + 1 + 1 + 1 <? 3) with false. cbv iota beta.
  rewrite ready_state. unfold CanStartUdpAssociation. rewrite !same_profile, Hp, Hq.
  unfold EnsureUdpCapabilityProfile. rewrite bool_decide_false by done.
  unfold CanAttempt. cbn -[Z.mul u32 profile_key].
  assert (Hb : (0 <=? s32 (now - u32 (now + 60 * 1000))) = false).
  { apply Z.leb_gt. rewrite (s32_mod _ (- 60000)).
    - vm_compute. reflexivity.
    - unfold u32. rewrite Zminus_mod_idemp_r. f_equal. lia. }
  rewrite Hb. done.
Qed.

Definition socks_profile (host : string) : ProxyInfo :=
  mkProxyInfo [] (ascii_bytes "SOCKS5") (ascii_bytes host) 1080 [] [] 0 [].

Lemma profile_recovery_witness :
  let p := socks_profile "a" in
  let ready := ReportUdpAssociationReady (Some p) new_capability in
  let '(_, m1) := ReportUdpAssociationFailure 7 (Some p) 10061 ready in
  let '(_, m2) := ReportUdpAssociationFailure 7 (Some p) 10061 m1 in
  let '(_, m3) := ReportUdpAssociationFailure 7 (Some p) 10061 m2 in
  fst (fst (CanStartUdpAssociation 7 (Some p) m3)) = false.
Proof.
  pose proof (profile_recovery 7 (socks_profile "a") (socks_profile "b") 10061 10061 10061
    new_capability) as H. cbv zeta in H |- *.
  destruct (ReportUdpAssociationFailure 7 _ _ (ReportUdpAssociationReady _ _)) as [b1 m1].
  destruct (ReportUdpAssociationFailure 7 _ _ m1) as [b2 m2].
  destruct (ReportUdpAssociationFailure 7 _ _ m2) as [b3 m3].
  apply H; vm_compute; congruence.
Defined.
