(* ===== verification/UdpTask.v ===== *)
(** * The UDP proxy task (UdpProxyTask.cpp, with the peers of PRCUdpPeer.cpp)

    A [CUdpProxyTask] carries the datagrams of one application socket: a local
    loopback route per destination, one upstream peer (the SOCKS5 association
    or a direct socket), a queue of datagrams waiting for it and a queue of
    replies waiting for their route.  The state [task] is the object, the
    manager's record of the proxy's UDP capability, the heap of peer objects
    ([peers], an address is a [nat]) and the outside: what sends, connects and
    socket creations will return, and the clock.

    Using a peer that was deleted is the output [TFault].  A QUIC bridge is
    an interface, [QuicBridge]: its methods end in a module loaded at run time.
    The clock does not move during one handler, and printed messages are left
    out. *)

From S2P Require Import Prelude Winsock SockAddr Effects UdpPolicy UdpCapability.

(** ** The QUIC bridge as the task sees it *)
Class QuicBridge := {
  bridge : Type;
  CQuicBridge_Open : PRCClient -> bytes -> option bridge;
  Feed : bool -> bytes -> bridge -> bool * bridge;         (* the side: true is upstream *)
  Peek : bool -> bridge -> option bytes * bridge;          (* nothing, or an empty one, when none waits *)
  Consume : bool -> bridge -> bridge;
  Passthrough : bridge -> bool;
  Drained : bridge -> bool * bridge;
  WasMitm : bridge -> bool
}.

(** ** Data *)

Definition UDP_ASSOCIATION_IDLE_TIMEOUT : Z := 5 * 60 * 1000.

(** [_CSAddrInfo]: the addresses of a peer and the name, if it was named. *)
Record CSAddrInfo := mkCSAddrInfo {
  ai_srcAddr : _SockAddr;
  ai_szDomainName : bytes;
  ai_dstAddr : _SockAddr
}.

(** A peer object: whether its socket handle is valid, and what the task set. *)
Record CPRCUdpPeer := mkPeer {
  p_open : bool;
  m_CSAddrInfo : CSAddrInfo;
  m_pPartner : option nat
}.

Record PendingDatagram := mkPending {
  target : CSAddrInfo;
  pd_data : bytes;
  pd_queuedAt : Z
}.

Record PendingReply := mkReply {
  routePeer : nat;
  application : _SockAddr;
  pr_data : bytes;
  pr_queuedAt : Z
}.

Inductive send_result :=
  | Sent                (* the length of the datagram *)
  | SentShort (n : Z)   (* another count *)
  | SendFailed (e : Z). (* SOCKET_ERROR and the last error *)

Inductive task_output :=
  | TForward (target : CSAddrInfo) (data : bytes)                (* ghost: given to the association *)
  | TUp (target : CSAddrInfo) (data : bytes)                     (* the upstream peer took it *)
  | TDown (peer : nat) (application : _SockAddr) (data : bytes)  (* the route peer took it *)
  | TTraffic (download : bool) (n : Z)
  | TTrigger (peer : nat) (event : Z)
  | TTap (side : bool) (data : bytes)
  | TFirstDatagram (client : PRCClient)
  | TFault.

Section Task.
Context {qb : QuicBridge} {text : AddressText}.

Record UdpRoute := mkRoute {
  client : PRCClient;
  peer : nat;
  applicationEndpoint : option _SockAddr;   (* hasApplicationEndpoint: present *)
  firstDatagramLogged : bool;
  capture : bool;                           (* the protocol tap is attached *)
  quic : option bridge;
  quicRetired : bool;
  quicTarget : CSAddrInfo
}.

Record task := mkTask {
  m_PRCClient : PRCClient;
  m_ProxyInfo : ProxyInfo;
  m_LocalProxyUdpPort : Z;
  m_routes : list UdpRoute;
  m_pending : list PendingDatagram;
  m_pendingBytes : Z;
  m_pendingReplies : list PendingReply;
  m_pendingReplyBytes : Z;
  m_pServer : option nat;
  m_upstreamState : UpstreamState;
  m_lastActivity : Z;
  m_nextServerReconnect : Z;
  m_serverReconnectDelay : Z;
  m_lastServerError : Z;
  m_capability : Capability;   (* the manager's record of the proxy *)
  peers : gmap nat CPRCUdpPeer;   (* the heap of peer objects *)
  next_peer : nat;   (* the next address to allocate *)
  tick : Z;   (* GetTickCount *)
  connects : list (option Z);   (* ConnectProxy: done, or the error *)
  sockets : list (option _SockAddr);   (* CreateUDPSocket: the bound address *)
  up_sends : list send_result;   (* what the server peer's SendTo returns *)
  down_sends : list send_result;   (* what a route peer's SendTo returns *)
  tap_enabled : bool;   (* CProtocolTap::Enabled *)
  task_error : Z;   (* WSAGetLastError *)
  trace : list task_output   (* what the task did, oldest first *)
}.

Definition set_m_PRCClient (v : PRCClient) (w : task) : task :=
  mkTask v (m_ProxyInfo w) (m_LocalProxyUdpPort w) (m_routes w) (m_pending w) (m_pendingBytes w)
    (m_pendingReplies w) (m_pendingReplyBytes w) (m_pServer w) (m_upstreamState w)
    (m_lastActivity w) (m_nextServerReconnect w) (m_serverReconnectDelay w) (m_lastServerError
    w) (m_capability w) (peers w) (next_peer w) (tick w) (connects w) (sockets w) (up_sends w)
    (down_sends w) (tap_enabled w) (task_error w) (trace w).
Definition set_m_ProxyInfo (v : ProxyInfo) (w : task) : task :=
  mkTask (m_PRCClient w) v (m_LocalProxyUdpPort w) (m_routes w) (m_pending w) (m_pendingBytes w)
    (m_pendingReplies w) (m_pendingReplyBytes w) (m_pServer w) (m_upstreamState w)
    (m_lastActivity w) (m_nextServerReconnect w) (m_serverReconnectDelay w) (m_lastServerError
    w) (m_capability w) (peers w) (next_peer w) (tick w) (connects w) (sockets w) (up_sends w)
    (down_sends w) (tap_enabled w) (task_error w) (trace w).
Definition set_m_LocalProxyUdpPort (v : Z) (w : task) : task :=
  mkTask (m_PRCClient w) (m_ProxyInfo w) v (m_routes w) (m_pending w) (m_pendingBytes w)
    (m_pendingReplies w) (m_pendingReplyBytes w) (m_pServer w) (m_upstreamState w)
    (m_lastActivity w) (m_nextServerReconnect w) (m_serverReconnectDelay w) (m_lastServerError
    w) (m_capability w) (peers w) (next_peer w) (tick w) (connects w) (sockets w) (up_sends w)
    (down_sends w) (tap_enabled w) (task_error w) (trace w).
Definition set_m_routes (v : list UdpRoute) (w : task) : task :=
  mkTask (m_PRCClient w) (m_ProxyInfo w) (m_LocalProxyUdpPort w) v (m_pending w) (m_pendingBytes
    w) (m_pendingReplies w) (m_pendingReplyBytes w) (m_pServer w) (m_upstreamState w)
    (m_lastActivity w) (m_nextServerReconnect w) (m_serverReconnectDelay w) (m_lastServerError
    w) (m_capability w) (peers w) (next_peer w) (tick w) (connects w) (sockets w) (up_sends w)
    (down_sends w) (tap_enabled w) (task_error w) (trace w).
Definition set_m_pending (v : list PendingDatagram) (w : task) : task :=
  mkTask (m_PRCClient w) (m_ProxyInfo w) (m_LocalProxyUdpPort w) (m_routes w) v (m_pendingBytes
    w) (m_pendingReplies w) (m_pendingReplyBytes w) (m_pServer w) (m_upstreamState w)
    (m_lastActivity w) (m_nextServerReconnect w) (m_serverReconnectDelay w) (m_lastServerError
    w) (m_capability w) (peers w) (next_peer w) (tick w) (connects w) (sockets w) (up_sends w)
    (down_sends w) (tap_enabled w) (task_error w) (trace w).
Definition set_m_pendingBytes (v : Z) (w : task) : task :=
  mkTask (m_PRCClient w) (m_ProxyInfo w) (m_LocalProxyUdpPort w) (m_routes w) (m_pending w) v
    (m_pendingReplies w) (m_pendingReplyBytes w) (m_pServer w) (m_upstreamState w)
    (m_lastActivity w) (m_nextServerReconnect w) (m_serverReconnectDelay w) (m_lastServerError
    w) (m_capability w) (peers w) (next_peer w) (tick w) (connects w) (sockets w) (up_sends w)
    (down_sends w) (tap_enabled w) (task_error w) (trace w).
Definition set_m_pendingReplies (v : list PendingReply) (w : task) : task :=
  mkTask (m_PRCClient w) (m_ProxyInfo w) (m_LocalProxyUdpPort w) (m_routes w) (m_pending w)
    (m_pendingBytes w) v (m_pendingReplyBytes w) (m_pServer w) (m_upstreamState w)
    (m_lastActivity w) (m_nextServerReconnect w) (m_serverReconnectDelay w) (m_lastServerError
    w) (m_capability w) (peers w) (next_peer w) (tick w) (connects w) (sockets w) (up_sends w)
    (down_sends w) (tap_enabled w) (task_error w) (trace w).
Definition set_m_pendingReplyBytes (v : Z) (w : task) : task :=
  mkTask (m_PRCClient w) (m_ProxyInfo w) (m_LocalProxyUdpPort w) (m_routes w) (m_pending w)
    (m_pendingBytes w) (m_pendingReplies w) v (m_pServer w) (m_upstreamState w) (m_lastActivity
    w) (m_nextServerReconnect w) (m_serverReconnectDelay w) (m_lastServerError w) (m_capability
    w) (peers w) (next_peer w) (tick w) (connects w) (sockets w) (up_sends w) (down_sends w)
    (tap_enabled w) (task_error w) (trace w).
Definition set_m_pServer (v : option nat) (w : task) : task :=
  mkTask (m_PRCClient w) (m_ProxyInfo w) (m_LocalProxyUdpPort w) (m_routes w) (m_pending w)
    (m_pendingBytes w) (m_pendingReplies w) (m_pendingReplyBytes w) v (m_upstreamState w)
    (m_lastActivity w) (m_nextServerReconnect w) (m_serverReconnectDelay w) (m_lastServerError
    w) (m_capability w) (peers w) (next_peer w) (tick w) (connects w) (sockets w) (up_sends w)
    (down_sends w) (tap_enabled w) (task_error w) (trace w).
Definition set_m_upstreamState (v : UpstreamState) (w : task) : task :=
  mkTask (m_PRCClient w) (m_ProxyInfo w) (m_LocalProxyUdpPort w) (m_routes w) (m_pending w)
    (m_pendingBytes w) (m_pendingReplies w) (m_pendingReplyBytes w) (m_pServer w) v
    (m_lastActivity w) (m_nextServerReconnect w) (m_serverReconnectDelay w) (m_lastServerError
    w) (m_capability w) (peers w) (next_peer w) (tick w) (connects w) (sockets w) (up_sends w)
    (down_sends w) (tap_enabled w) (task_error w) (trace w).
Definition set_m_lastActivity (v : Z) (w : task) : task :=
  mkTask (m_PRCClient w) (m_ProxyInfo w) (m_LocalProxyUdpPort w) (m_routes w) (m_pending w)
    (m_pendingBytes w) (m_pendingReplies w) (m_pendingReplyBytes w) (m_pServer w)
    (m_upstreamState w) v (m_nextServerReconnect w) (m_serverReconnectDelay w)
    (m_lastServerError w) (m_capability w) (peers w) (next_peer w) (tick w) (connects w)
    (sockets w) (up_sends w) (down_sends w) (tap_enabled w) (task_error w) (trace w).
Definition set_m_nextServerReconnect (v : Z) (w : task) : task :=
  mkTask (m_PRCClient w) (m_ProxyInfo w) (m_LocalProxyUdpPort w) (m_routes w) (m_pending w)
    (m_pendingBytes w) (m_pendingReplies w) (m_pendingReplyBytes w) (m_pServer w)
    (m_upstreamState w) (m_lastActivity w) v (m_serverReconnectDelay w) (m_lastServerError w)
    (m_capability w) (peers w) (next_peer w) (tick w) (connects w) (sockets w) (up_sends w)
    (down_sends w) (tap_enabled w) (task_error w) (trace w).
Definition set_m_serverReconnectDelay (v : Z) (w : task) : task :=
  mkTask (m_PRCClient w) (m_ProxyInfo w) (m_LocalProxyUdpPort w) (m_routes w) (m_pending w)
    (m_pendingBytes w) (m_pendingReplies w) (m_pendingReplyBytes w) (m_pServer w)
    (m_upstreamState w) (m_lastActivity w) (m_nextServerReconnect w) v (m_lastServerError w)
    (m_capability w) (peers w) (next_peer w) (tick w) (connects w) (sockets w) (up_sends w)
    (down_sends w) (tap_enabled w) (task_error w) (trace w).
Definition set_m_lastServerError (v : Z) (w : task) : task :=
  mkTask (m_PRCClient w) (m_ProxyInfo w) (m_LocalProxyUdpPort w) (m_routes w) (m_pending w)
    (m_pendingBytes w) (m_pendingReplies w) (m_pendingReplyBytes w) (m_pServer w)
    (m_upstreamState w) (m_lastActivity w) (m_nextServerReconnect w) (m_serverReconnectDelay w)
    v (m_capability w) (peers w) (next_peer w) (tick w) (connects w) (sockets w) (up_sends w)
    (down_sends w) (tap_enabled w) (task_error w) (trace w).
Definition set_m_capability (v : Capability) (w : task) : task :=
  mkTask (m_PRCClient w) (m_ProxyInfo w) (m_LocalProxyUdpPort w) (m_routes w) (m_pending w)
    (m_pendingBytes w) (m_pendingReplies w) (m_pendingReplyBytes w) (m_pServer w)
    (m_upstreamState w) (m_lastActivity w) (m_nextServerReconnect w) (m_serverReconnectDelay w)
    (m_lastServerError w) v (peers w) (next_peer w) (tick w) (connects w) (sockets w) (up_sends
    w) (down_sends w) (tap_enabled w) (task_error w) (trace w).
Definition set_peers (v : gmap nat CPRCUdpPeer) (w : task) : task :=
  mkTask (m_PRCClient w) (m_ProxyInfo w) (m_LocalProxyUdpPort w) (m_routes w) (m_pending w)
    (m_pendingBytes w) (m_pendingReplies w) (m_pendingReplyBytes w) (m_pServer w)
    (m_upstreamState w) (m_lastActivity w) (m_nextServerReconnect w) (m_serverReconnectDelay w)
    (m_lastServerError w) (m_capability w) v (next_peer w) (tick w) (connects w) (sockets w)
    (up_sends w) (down_sends w) (tap_enabled w) (task_error w) (trace w).
Definition set_next_peer (v : nat) (w : task) : task :=
  mkTask (m_PRCClient w) (m_ProxyInfo w) (m_LocalProxyUdpPort w) (m_routes w) (m_pending w)
    (m_pendingBytes w) (m_pendingReplies w) (m_pendingReplyBytes w) (m_pServer w)
    (m_upstreamState w) (m_lastActivity w) (m_nextServerReconnect w) (m_serverReconnectDelay w)
    (m_lastServerError w) (m_capability w) (peers w) v (tick w) (connects w) (sockets w)
    (up_sends w) (down_sends w) (tap_enabled w) (task_error w) (trace w).
Definition set_tick (v : Z) (w : task) : task :=
  mkTask (m_PRCClient w) (m_ProxyInfo w) (m_LocalProxyUdpPort w) (m_routes w) (m_pending w)
    (m_pendingBytes w) (m_pendingReplies w) (m_pendingReplyBytes w) (m_pServer w)
    (m_upstreamState w) (m_lastActivity w) (m_nextServerReconnect w) (m_serverReconnectDelay w)
    (m_lastServerError w) (m_capability w) (peers w) (next_peer w) v (connects w) (sockets w)
    (up_sends w) (down_sends w) (tap_enabled w) (task_error w) (trace w).
Definition set_connects (v : list (option Z)) (w : task) : task :=
  mkTask (m_PRCClient w) (m_ProxyInfo w) (m_LocalProxyUdpPort w) (m_routes w) (m_pending w)
    (m_pendingBytes w) (m_pendingReplies w) (m_pendingReplyBytes w) (m_pServer w)
    (m_upstreamState w) (m_lastActivity w) (m_nextServerReconnect w) (m_serverReconnectDelay w)
    (m_lastServerError w) (m_capability w) (peers w) (next_peer w) (tick w) v (sockets w)
    (up_sends w) (down_sends w) (tap_enabled w) (task_error w) (trace w).
Definition set_sockets (v : list (option _SockAddr)) (w : task) : task :=
  mkTask (m_PRCClient w) (m_ProxyInfo w) (m_LocalProxyUdpPort w) (m_routes w) (m_pending w)
    (m_pendingBytes w) (m_pendingReplies w) (m_pendingReplyBytes w) (m_pServer w)
    (m_upstreamState w) (m_lastActivity w) (m_nextServerReconnect w) (m_serverReconnectDelay w)
    (m_lastServerError w) (m_capability w) (peers w) (next_peer w) (tick w) (connects w) v
    (up_sends w) (down_sends w) (tap_enabled w) (task_error w) (trace w).
Definition set_up_sends (v : list send_result) (w : task) : task :=
  mkTask (m_PRCClient w) (m_ProxyInfo w) (m_LocalProxyUdpPort w) (m_routes w) (m_pending w)
    (m_pendingBytes w) (m_pendingReplies w) (m_pendingReplyBytes w) (m_pServer w)
    (m_upstreamState w) (m_lastActivity w) (m_nextServerReconnect w) (m_serverReconnectDelay w)
    (m_lastServerError w) (m_capability w) (peers w) (next_peer w) (tick w) (connects w)
    (sockets w) v (down_sends w) (tap_enabled w) (task_error w) (trace w).
Definition set_down_sends (v : list send_result) (w : task) : task :=
  mkTask (m_PRCClient w) (m_ProxyInfo w) (m_LocalProxyUdpPort w) (m_routes w) (m_pending w)
    (m_pendingBytes w) (m_pendingReplies w) (m_pendingReplyBytes w) (m_pServer w)
    (m_upstreamState w) (m_lastActivity w) (m_nextServerReconnect w) (m_serverReconnectDelay w)
    (m_lastServerError w) (m_capability w) (peers w) (next_peer w) (tick w) (connects w)
    (sockets w) (up_sends w) v (tap_enabled w) (task_error w) (trace w).
Definition set_tap_enabled (v : bool) (w : task) : task :=
  mkTask (m_PRCClient w) (m_ProxyInfo w) (m_LocalProxyUdpPort w) (m_routes w) (m_pending w)
    (m_pendingBytes w) (m_pendingReplies w) (m_pendingReplyBytes w) (m_pServer w)
    (m_upstreamState w) (m_lastActivity w) (m_nextServerReconnect w) (m_serverReconnectDelay w)
    (m_lastServerError w) (m_capability w) (peers w) (next_peer w) (tick w) (connects w)
    (sockets w) (up_sends w) (down_sends w) v (task_error w) (trace w).
Definition set_task_error (v : Z) (w : task) : task :=
  mkTask (m_PRCClient w) (m_ProxyInfo w) (m_LocalProxyUdpPort w) (m_routes w) (m_pending w)
    (m_pendingBytes w) (m_pendingReplies w) (m_pendingReplyBytes w) (m_pServer w)
    (m_upstreamState w) (m_lastActivity w) (m_nextServerReconnect w) (m_serverReconnectDelay w)
    (m_lastServerError w) (m_capability w) (peers w) (next_peer w) (tick w) (connects w)
    (sockets w) (up_sends w) (down_sends w) (tap_enabled w) v (trace w).
Definition set_trace (v : list task_output) (w : task) : task :=
  mkTask (m_PRCClient w) (m_ProxyInfo w) (m_LocalProxyUdpPort w) (m_routes w) (m_pending w)
    (m_pendingBytes w) (m_pendingReplies w) (m_pendingReplyBytes w) (m_pServer w)
    (m_upstreamState w) (m_lastActivity w) (m_nextServerReconnect w) (m_serverReconnectDelay w)
    (m_lastServerError w) (m_capability w) (peers w) (next_peer w) (tick w) (connects w)
    (sockets w) (up_sends w) (down_sends w) (tap_enabled w) (task_error w) v.

Abbreviation TM := (M task).

Definition temit (o : task_output) : TM unit := modify (fun w => set_trace (trace w ++ [o]) w).
Definition get_error : TM Z := gets task_error.
Definition set_error (e : Z) : TM unit := modify (set_task_error e).

(** ** Peers *)

(** [new CPRCUdpPeer(this)] with its identity, partner and addresses set. *)
Definition new_peer (partner : option nat) (info : CSAddrInfo) : TM nat := fun w =>
  (next_peer w,
   set_next_peer (S (next_peer w)) (set_peers (<[next_peer w := mkPeer false info partner]> (peers w)) w)).

Definition with_peer (p : nat) (f : CPRCUdpPeer -> CPRCUdpPeer) : TM unit :=
  h ← gets peers;
  match h !! p with
  | Some o => modify (set_peers (<[p := f o]> h))
  | None => temit TFault
  end.

(** [peer->GetSocketHandle() != INVALID_SOCKET]. *)
Definition peer_open (p : nat) : TM bool :=
  h ← gets peers;
  match h !! p with
  | Some o => mret (p_open o)
  | None => temit TFault;; mret false
  end.

Definition SetPartner (p : nat) (q : option nat) : TM unit :=
  with_peer p (fun o => mkPeer (p_open o) (m_CSAddrInfo o) q).
Definition PeerClose (p : nat) : TM unit :=
  with_peer p (fun o => mkPeer false (m_CSAddrInfo o) (m_pPartner o)).
Definition PeerOpened (p : nat) : TM unit :=
  with_peer p (fun o => mkPeer true (m_CSAddrInfo o) (m_pPartner o)).

Definition delete_peer (p : nat) : TM unit :=
  h ← gets peers;
  match h !! p with
  | Some _ => modify (set_peers (delete p h))
  | None => temit TFault
  end.

Definition for_server (f : nat -> TM unit) : TM unit :=
  s ← gets m_pServer; match s with Some s => f s | None => mret tt end.

Definition server_open : TM bool :=
  s ← gets m_pServer; match s with Some s => peer_open s | None => mret false end.

(** A loop over a list with a body for effect. *)
Fixpoint for_each {A} (f : A -> TM unit) (l : list A) : TM unit :=
  match l with [] => mret tt | x :: l => f x;; for_each f l end.

(** The result of a SendTo on a datagram peer. *)
Definition send_outcome (get : task -> list send_result) (set : list send_result -> task -> task)
    (o : task_output) (length_ : Z) : TM Z := fun w =>
  match get w with
  | [] => (SOCKET_ERROR, set_task_error WSAEWOULDBLOCK w)
  | Sent :: r => (length_, set_trace (trace w ++ [o]) (set r w))
  | SentShort n :: r => (n, set r w)
  | SendFailed e :: r => (SOCKET_ERROR, set_task_error e (set r w))
  end.

(** The upstream peer: by name if the target has one, else by address. *)
Definition server_send (t : CSAddrInfo) (data : bytes) : TM Z :=
  send_outcome up_sends set_up_sends (TUp t data) (Z.of_nat (length data)).

Definition route_send (p : nat) (app : _SockAddr) (data : bytes) : TM Z :=
  open ← peer_open p;
  if (open : bool)
  then send_outcome down_sends set_down_sends (TDown p app data) (Z.of_nat (length data))
  else set_error WSAENOTSOCK;; mret SOCKET_ERROR.

(** ** Destinations *)

Definition GetUdpDestination (c : PRCClient) : Destination :=
  mkDestination (IsDNValid (szDomainName c)) (Some (szDomainName c)) (sa_family (dstAddr c))
    (GetdwIP (dstAddr c))
    (match GetAddr6 (dstAddr c) with Some a => a | None => replicate 16 0 end)
    (GetPort (dstAddr c)).

Definition localhost (v6 : bool) : bytes := ascii_bytes (if v6 then "::1" else "127.0.0.1").

(** [SetAddrInfo] fills in the families left empty. *)
Definition default_family (a : _SockAddr) : _SockAddr :=
  if sa_family a =? 0 then default a (SetIP ProxyInetPtonA (localhost false) a) else a.
Definition SetAddrInfo (i : CSAddrInfo) : CSAddrInfo :=
  mkCSAddrInfo (default_family (ai_srcAddr i)) (ai_szDomainName i) (default_family (ai_dstAddr i)).

(** ** The queues *)

Definition maxPackets : nat := 128.
Definition maxBytes : Z := 1024 * 1024.

(** Pop from the front while there is no room for [length_] more bytes. *)
Fixpoint make_room (size : list Z) (bytes_ length_ : Z) : nat * Z :=
  match size with
  | [] => (O, bytes_)
  | s :: rest =>
      if (maxPackets <=? length size)%nat || (maxBytes <? u32 (bytes_ + length_)) then
        let '(n, b) := make_room rest (u32 (bytes_ - s)) length_ in (S n, b)
      else (O, bytes_)
  end.

Definition pd_size (p : PendingDatagram) : Z := u32 (Z.of_nat (length (pd_data p))).
Definition pr_size (p : PendingReply) : Z := u32 (Z.of_nat (length (pr_data p))).

Definition QueueDatagram (t : CSAddrInfo) (data : bytes) : TM bool :=
  let length_ := Z.of_nat (length data) in
  modify (fun w =>
    let '(n, b) := make_room (map pd_size (m_pending w)) (m_pendingBytes w) length_ in
    set_m_pending (drop n (m_pending w)) (set_m_pendingBytes b w));;
  if maxBytes <? u32 length_ then mret false
  else
    modify (fun w => set_m_pending (m_pending w ++ [mkPending t data (tick w)])
                       (set_m_pendingBytes (u32 (m_pendingBytes w + length_)) w));;
    mret true.

Definition QueueReply (p : nat) (app : _SockAddr) (data : bytes) : TM bool :=
  let length_ := Z.of_nat (length data) in
  modify (fun w =>
    let '(n, b) := make_room (map pr_size (m_pendingReplies w)) (m_pendingReplyBytes w) length_ in
    set_m_pendingReplies (drop n (m_pendingReplies w)) (set_m_pendingReplyBytes b w));;
  if maxBytes <? u32 length_ then mret false
  else
    modify (fun w => set_m_pendingReplies (m_pendingReplies w ++ [mkReply p app data (tick w)])
                       (set_m_pendingReplyBytes (u32 (m_pendingReplyBytes w + length_)) w));;
    mret true.

(** Drop the front of the pending datagrams. *)
Definition pop_pending : TM unit :=
  modify (fun w => match m_pending w with
                   | [] => w
                   | p :: rest => set_m_pending rest
                                    (set_m_pendingBytes (u32 (m_pendingBytes w - pd_size p)) w)
                   end).

Fixpoint expire_loop (l : list PendingDatagram) (now : Z) : TM unit :=
  match l with
  | [] => mret tt
  | p :: l => if 5000 <? elapsed now (pd_queuedAt p) then pop_pending;; expire_loop l now
              else mret tt
  end.

Definition ExpirePendingDatagrams (now : Z) : TM unit :=
  l ← gets m_pending; expire_loop l now.

(** The pass over the replies: those that stay, in order. *)
Fixpoint flush_replies (only : option nat) (now : Z) (l : list PendingReply)
    : TM (list PendingReply) :=
  match l with
  | [] => mret []
  | r :: l =>
      let erase := modify (fun w =>
        set_m_pendingReplyBytes (u32 (m_pendingReplyBytes w - pr_size r)) w) in
      expired ← (if 5000 <? elapsed now (pr_queuedAt r) then mret true
                 else open ← peer_open (routePeer r); mret (negb open));
      if (expired : bool) then erase;; flush_replies only now l
      else if match only with Some p => negb (routePeer r =? p)%nat | None => false end then
        kept ← flush_replies only now l; mret (r :: kept)
      else
        sent ← route_send (routePeer r) (application r) (pr_data r);
        if negb (sent =? Z.of_nat (length (pr_data r))) then
          kept ← flush_replies only now l; mret (r :: kept)
        else erase;; temit (TTraffic true sent);; flush_replies only now l
  end.

Definition FlushPendingReplies (only : option nat) : TM unit :=
  now ← gets tick;
  l ← gets m_pendingReplies;
  kept ← flush_replies only now l;
  modify (set_m_pendingReplies kept).

(** ** The upstream peer *)

Definition report_failure (errorCode : Z) : TM bool := fun w =>
  let '(blocked, c) := ReportUdpAssociationFailure (tick w) (Some (m_ProxyInfo w)) errorCode
                         (m_capability w) in
  (blocked, set_m_capability c w).

Definition permanently_unsupported : TM bool :=
  c ← gets m_capability; mret (IsUdpPermanentlyUnsupported c).

Definition CloseTask : TM unit :=
  modify (set_m_upstreamState UPSTREAM_CLOSING);;
  modify (set_m_pendingReplies []);;
  modify (set_m_pendingReplyBytes 0);;
  modify (fun w => set_m_routes (map (fun r => mkRoute (client r) (peer r) (applicationEndpoint r)
    (firstDatagramLogged r) false (quic r) (quicRetired r) (quicTarget r)) (m_routes w)) w);;
  rs ← gets m_routes;
  for_each (fun r => PeerClose (peer r)) rs;;
  for_server PeerClose.

Definition EndTask : TM unit :=
  modify (set_m_upstreamState UPSTREAM_CLOSING);;
  rs ← gets m_routes;
  for_each (fun r => PeerClose (peer r);; delete_peer (peer r)) rs;;
  modify (set_m_routes []);;
  modify (set_m_pending []);;
  modify (set_m_pendingBytes 0);;
  modify (set_m_pendingReplies []);;
  modify (set_m_pendingReplyBytes 0);;
  for_server (fun s => PeerClose s;; delete_peer s;; modify (set_m_pServer None)).

Definition ScheduleServerReconnect (errorCode : Z) : TM unit :=
  st ← gets m_upstreamState;
  if bool_decide (st = UPSTREAM_CLOSING) then mret tt
  else
    when (negb (bool_decide (st = UPSTREAM_RECONNECT_WAIT))) (
      modify (set_m_upstreamState UPSTREAM_RECONNECT_WAIT);;
      modify (fun w => set_m_nextServerReconnect (u32 (tick w + m_serverReconnectDelay w)) w);;
      modify (set_m_lastServerError errorCode));;
    open ← server_open;
    when open (for_server PeerClose).

(** After a failure was reported: block, give up, or retry.  [retry] differs
    between the callers. *)
Definition failed_association (errorCode : Z) (blocked_retry retry : TM unit) : TM unit :=
  blocked ← report_failure errorCode;
  if (blocked : bool) then
    permanent ← permanently_unsupported;
    if (permanent : bool) then CloseTask else blocked_retry
  else retry.

Definition schedule_blocked (errorCode : Z) : TM unit :=
  ScheduleServerReconnect errorCode;;
  modify (fun w => set_m_nextServerReconnect (u32 (tick w + 60 * 1000)) w).

(** [ConnectProxy] of a server peer: only a direct or a SOCKS5 upstream. *)
Definition ConnectProxy (s : nat) : TM bool :=
  p ← gets m_ProxyInfo;
  let t := GetProxyType p in
  if negb (t =? PROXYTYPE_NOPROXY) && negb (t =? PROXYTYPE_SOCKS5) then mret false
  else
    c ← gets connects;
    match c with
    | [] => set_error WSAENOBUFS;; mret false
    | Some e :: r => modify (set_connects r);; set_error e;; mret false
    | None :: r => modify (set_connects r);; PeerOpened s;; mret true
    end.

Definition reset_backoff : TM unit :=
  modify (set_m_serverReconnectDelay 250);; modify (set_m_lastServerError 0).

Definition CreateServerPeer : TM bool :=
  c ← gets m_PRCClient;
  s ← new_peer None (SetAddrInfo (mkCSAddrInfo (GetProxyDestination c) [] (srcAddr c)));
  ok ← ConnectProxy s;
  if negb ok then delete_peer s;; mret false
  else
    modify (set_m_pServer (Some s));;
    p ← gets m_ProxyInfo;
    let direct := GetProxyType p =? PROXYTYPE_NOPROXY in
    modify (set_m_upstreamState (if direct then UPSTREAM_READY else UPSTREAM_ASSOCIATING));;
    rs ← gets m_routes;
    for_each (fun r =>
      open ← peer_open (peer r);
      when open (SetPartner (peer r) (Some s);;
                 so ← peer_open s; when so (SetPartner s (Some (peer r))))) rs;;
    when direct reset_backoff;;
    mret true.

(** Sending the pending datagrams, the front first, until one does not go. *)
Fixpoint send_pending (fuel : nat) (now : Z) : TM unit :=
  l ← gets m_pending;
  match l with
  | [] => mret tt
  | p :: _ =>
      match fuel with
      | O => temit TFault
      | S fuel =>
          if 5000 <? elapsed now (pd_queuedAt p) then pop_pending;; send_pending fuel now
          else
            sent ← server_send (target p) (pd_data p);
            if sent =? SOCKET_ERROR then
              e ← get_error;
              when (negb (e =? WSAEWOULDBLOCK)) (ScheduleServerReconnect e)
            else pop_pending;; temit (TTraffic false sent);; send_pending fuel now
      end
  end.

Definition wake_bridges : TM unit :=
  rs ← gets m_routes;
  for_each (fun r => match quic r with Some _ => temit (TTrigger (peer r) FD_WRITE) | None => mret tt end) rs.

(** Reconnecting when the wait is over; [true] when there is an upstream. *)
Definition reconnect (now : Z) : TM bool :=
  old ← gets m_pServer;
  modify (set_m_pServer None);;
  rs ← gets m_routes;
  for_each (fun r => SetPartner (peer r) None) rs;;
  match old with Some s => delete_peer s | None => mret tt end;;
  ok ← CreateServerPeer;
  if (ok : bool) then mret true
  else
    e ← get_error;
    let errorCode := if e =? 0 then WSAECONNREFUSED else e in
    failed_association errorCode
      (modify (set_m_upstreamState UPSTREAM_RECONNECT_WAIT);;
       modify (set_m_nextServerReconnect (u32 (now + 60 * 1000))))
      (modify (set_m_upstreamState UPSTREAM_RECONNECT_WAIT);;
       modify (fun w => set_m_serverReconnectDelay (Z.min (u32 (m_serverReconnectDelay w * 2)) 5000) w);;
       modify (fun w => set_m_nextServerReconnect (u32 (now + m_serverReconnectDelay w)) w));;
    mret false.

Definition OnServerWritable : TM unit :=
  st ← gets m_upstreamState;
  if bool_decide (st = UPSTREAM_CLOSING) then mret tt
  else
    now ← gets tick;
    ExpirePendingDatagrams now;;
    FlushPendingReplies None;;
    st ← gets m_upstreamState;
    next ← gets m_nextServerReconnect;
    go ← (if bool_decide (st = UPSTREAM_RECONNECT_WAIT) then
            if s32 (now - next) <? 0 then mret false else reconnect now
          else mret true);
    if negb go then mret tt
    else
      st ← gets m_upstreamState;
      open ← (if bool_decide (st = UPSTREAM_READY) then server_open else mret false);
      if negb open then mret tt
      else
        l ← gets m_pending;
        send_pending (length l) now;;
        FlushPendingReplies None;;
        wake_bridges.

Definition WakeServerAssociation : TM unit :=
  st ← gets m_upstreamState;
  if bool_decide (st = UPSTREAM_CLOSING) || negb (ShouldActivateUpstream st) then mret tt
  else
    modify (set_m_upstreamState UPSTREAM_ASSOCIATING);;
    modify (set_m_serverReconnectDelay 250);;
    ok ← CreateServerPeer;
    if negb ok then
      e ← get_error;
      let errorCode := if e =? 0 then WSAECONNREFUSED else e in
      failed_association errorCode (schedule_blocked errorCode) (ScheduleServerReconnect errorCode)
    else
      st ← gets m_upstreamState;
      when (bool_decide (st = UPSTREAM_READY)) OnServerWritable.

Definition OnServerReady (p : nat) : TM unit :=
  st ← gets m_upstreamState;
  s ← gets m_pServer;
  if negb (bool_decide (st = UPSTREAM_ASSOCIATING)) || negb (bool_decide (s = Some p)) then mret tt
  else
    modify (set_m_upstreamState UPSTREAM_READY);;
    modify (fun w => set_m_capability
      (ReportUdpAssociationReady (Some (m_ProxyInfo w)) (m_capability w)) w);;
    reset_backoff;;
    OnServerWritable.

Definition OnPeerClosed (p : nat) (errorCode : Z) : TM unit :=
  s ← gets m_pServer;
  st ← gets m_upstreamState;
  if bool_decide (s = Some p) then
    if bool_decide (st = UPSTREAM_CLOSING) || bool_decide (st = UPSTREAM_DORMANT)
       || bool_decide (st = UPSTREAM_ROUTE_RESERVED) then mret tt
    else failed_association errorCode (schedule_blocked errorCode)
           (ScheduleServerReconnect errorCode)
  else CloseTask.

Definition EnterServerDormant : TM unit :=
  st ← gets m_upstreamState;
  pending ← gets m_pending;
  replies ← gets m_pendingReplies;
  if bool_decide (st = UPSTREAM_CLOSING) || bool_decide (st = UPSTREAM_DORMANT)
     || bool_decide (st = UPSTREAM_ROUTE_RESERVED)
     || negb (bool_decide (pending = [])) || negb (bool_decide (replies = [])) then mret tt
  else
    modify (set_m_upstreamState UPSTREAM_DORMANT);;
    reset_backoff;;
    rs ← gets m_routes;
    for_each (fun r => SetPartner (peer r) None) rs;;
    old ← gets m_pServer;
    for_server PeerClose;;
    modify (set_m_pServer None);;
    match old with Some s => delete_peer s | None => mret tt end.

Definition OnMaintenanceTimer : TM unit :=
  st ← gets m_upstreamState;
  if bool_decide (st = UPSTREAM_CLOSING) then mret tt
  else
    now ← gets tick;
    ExpirePendingDatagrams now;;
    FlushPendingReplies None;;
    st ← gets m_upstreamState;
    if bool_decide (st = UPSTREAM_DORMANT) || bool_decide (st = UPSTREAM_ROUTE_RESERVED) then mret tt
    else
      pending ← gets m_pending;
      replies ← gets m_pendingReplies;
      last ← gets m_lastActivity;
      let hasPendingWork := negb (bool_decide (pending = [])) || negb (bool_decide (replies = [])) in
      if ShouldEnterDormant now last UDP_ASSOCIATION_IDLE_TIMEOUT hasPendingWork
      then EnterServerDormant else OnServerWritable.

(** ** Routes *)

Fixpoint find_index {A} (f : A -> bool) (l : list A) : option nat :=
  match l with
  | [] => None
  | x :: l => if f x then Some O else S <$> find_index f l
  end.

Definition same_route (c : PRCClient) (r : UdpRoute) : bool :=
  IsSameDestination (GetUdpDestination (client r)) (GetUdpDestination c).

Definition HasRoute (c : PRCClient) : TM bool :=
  rs ← gets m_routes; mret (existsb (same_route c) rs).

Definition CanAcceptRoute (c : PRCClient) : TM bool :=
  rs ← gets m_routes;
  mret (forallb (fun r =>
    negb (HasProxyDestination (client r) || HasProxyDestination c) &&
    CanShareAssociation (GetUdpDestination (client r)) (GetUdpDestination c)) rs).

Definition set_client (c : PRCClient) (r : UdpRoute) : UdpRoute :=
  mkRoute c (peer r) (applicationEndpoint r) (firstDatagramLogged r) (capture r) (quic r)
    (quicRetired r) (quicTarget r).

Definition update_route (i : nat) (f : UdpRoute -> UdpRoute) : TM unit :=
  modify (fun w => set_m_routes (alter f i (m_routes w)) w).

Definition route_info (c : PRCClient) : CSAddrInfo :=
  mkCSAddrInfo (srcAddr c) (if HasProxyDestination c then [] else take 255 (szDomainName c))
    (GetProxyDestination c).
Definition no_target : CSAddrInfo := mkCSAddrInfo SockAddr.Clear [] SockAddr.Clear.

(** A new route; the client record comes back with the route's address. *)
Definition add_new_route (c : PRCClient) : TM (bool * PRCClient) :=
  s ← gets m_pServer;
  p ← new_peer s (SetAddrInfo (route_info c));
  socks ← gets sockets;
  modify (set_sockets (tail socks));;
  match socks with
  | Some routeAddress :: _ =>
      PeerOpened p;;
      let c := set_udpAddr routeAddress c in
      modify (fun w => set_m_routes
        (m_routes w ++ [mkRoute c p None false false None false no_target]) w);;
      rs ← gets m_routes;
      when (length rs =? 1)%nat (
        for_server (fun s => SetPartner s (Some p));;
        modify (set_m_LocalProxyUdpPort (GetPort routeAddress)));;
      mret (true, c)
  | _ => delete_peer p;; mret (false, c)
  end.

Definition AddRoute (c : PRCClient) : TM (bool * PRCClient) :=
  rs ← gets m_routes;
  match find_index (same_route c) rs with
  | None => add_new_route c
  | Some i =>
      match rs !! i with
      | None => temit TFault;; mret (false, c)
      | Some r =>
          open ← peer_open (peer r);
          if (open : bool) then
            let c := set_udpAddr (udpAddr (client r)) c in
            update_route i (set_client c);; mret (true, c)
          else
            delete_peer (peer r);;
            modify (set_m_routes (delete i rs));;
            add_new_route c
      end
  end.

Definition SetTaskInfo (c : PRCClient) (p : ProxyInfo) : TM (bool * PRCClient) :=
  modify (set_m_PRCClient c);;
  modify (set_m_ProxyInfo p);;
  r ← AddRoute c;
  let '(ok, c) := (r : bool * PRCClient) in
  if ok then modify (set_m_upstreamState UPSTREAM_ROUTE_RESERVED);; mret (true, c)
  else
    for_server delete_peer;; modify (set_m_pServer None);; mret (false, c).

Definition MatchesAssociation (c : PRCClient) (p : ProxyInfo) : TM bool :=
  own ← gets m_PRCClient;
  i ← gets m_ProxyInfo;
  mret ((dwPid own =? dwPid c) && (processCreateTime own =? processCreateTime c) &&
        (socketGeneration own =? socketGeneration c) && (c_s own =? c_s c) &&
        (GetProxyType i =? GetProxyType p) && (nProxyPort i =? nProxyPort p) &&
        (pi_reserved i =? pi_reserved p) &&
        bool_decide (strTransportPsk i = strTransportPsk p) &&
        stricmp_eq (strProxyHost i) (strProxyHost p)).

Fixpoint all_closed (rs : list UdpRoute) : TM bool :=
  match rs with
  | [] => mret true
  | r :: rs => open ← peer_open (peer r); if (open : bool) then mret false else all_closed rs
  end.

Definition IsClosed : TM bool :=
  rs ← gets m_routes;
  closed ← all_closed rs;
  if negb closed then mret false
  else open ← server_open; mret (negb open).

(** ** Forwarding *)

Definition ForwardUpstreamDatagram (t : CSAddrInfo) (data : bytes) : TM bool :=
  temit (TForward t data);;
  st ← gets m_upstreamState;
  if ShouldActivateUpstream st then
    queued ← QueueDatagram t data;
    when queued WakeServerAssociation;;
    mret queued
  else
    open ← (if bool_decide (st = UPSTREAM_READY) then server_open else mret false);
    pending ← gets m_pending;
    if (open : bool) && bool_decide (pending = []) then
      sent ← server_send t data;
      if negb (sent =? SOCKET_ERROR) then temit (TTraffic false sent);; mret true
      else
        e ← get_error;
        when (negb (e =? WSAEWOULDBLOCK)) (ScheduleServerReconnect e);;
        QueueDatagram t data
    else QueueDatagram t data.

(** The application's address: where it last sent from, never "any". *)
Definition reply_address (r : UdpRoute) : _SockAddr :=
  let a := default (srcAddr (client r)) (applicationEndpoint r) in
  if IsAny a then default a (SetIP ProxyInetPtonA (localhost (IsIPv6 a)) a) else a.

Definition DeliverServerDatagram (r : UdpRoute) (data : bytes) : TM bool :=
  let app := reply_address r in
  sent ← route_send (peer r) app data;
  if sent =? Z.of_nat (length data) then temit (TTraffic true sent);; mret true
  else QueueReply (peer r) app data.

Definition set_quic (q : option bridge) (retired : bool) (r : UdpRoute) : UdpRoute :=
  mkRoute (client r) (peer r) (applicationEndpoint r) (firstDatagramLogged r) (capture r) q retired
    (quicTarget r).
Definition set_capture (b : bool) (r : UdpRoute) : UdpRoute :=
  mkRoute (client r) (peer r) (applicationEndpoint r) (firstDatagramLogged r) b (quic r)
    (quicRetired r) (quicTarget r).

(** Run [k] with the route, which exists while its task does. *)
Definition with_route {A} (i : nat) (default_ : A) (k : UdpRoute -> TM A) : TM A :=
  rs ← gets m_routes;
  match rs !! i with Some r => k r | None => temit TFault;; mret default_ end.

Definition with_bridge {A} (i : nat) (default_ : A) (k : UdpRoute -> bridge -> TM A) : TM A :=
  with_route i default_ (fun r =>
    match quic r with Some q => k r q | None => temit TFault;; mret default_ end).

Definition store_bridge (i : nat) (q : bridge) : TM unit :=
  update_route i (fun r => set_quic (Some q) (quicRetired r) r).

(** One side of [PumpQuic]: at most [n] datagrams. *)
Fixpoint pump_side (side : bool) (i n : nat) : TM unit :=
  match n with
  | O => mret tt
  | S n =>
      with_bridge i tt (fun r q =>
        let '(d, q) := Peek side q in
        store_bridge i q;;
        match d with
        | None | Some [] => mret tt
        | Some ((_ :: _) as data) =>
            ok ← (if side then ForwardUpstreamDatagram (quicTarget r) data
                  else DeliverServerDatagram r data);
            if negb ok then mret tt
            else
              with_bridge i tt (fun r q =>
                tap ← gets tap_enabled;
                when (Passthrough q && tap) (
                  update_route i (set_capture true);; temit (TTap false data));;
                store_bridge i (Consume side q);;
                modify (fun w => set_m_lastActivity (tick w) w);;
                when (n =? 0)%nat (temit (TTrigger (peer r) FD_WRITE));;
                pump_side side i n)
        end)
  end.

Definition PumpQuic (i : nat) : TM unit :=
  pump_side false i 64;;
  pump_side true i 64;;
  with_bridge i tt (fun r q =>
    let '(drained, q) := Drained q in
    if (drained : bool) then update_route i (set_quic None (WasMitm q))
    else store_bridge i q).

(** A fresh QUIC Initial, version 1 or 2. *)
Definition fresh_initial (data : bytes) : bool :=
  (1200 <=? Z.of_nat (length data)) &&
  (((Z.land (byte_at data 0) 240 =? 192) && (byte_at data 1 =? 0) && (byte_at data 2 =? 0)
    && (byte_at data 3 =? 0) && (byte_at data 4 =? 1)) ||
   ((Z.land (byte_at data 0) 240 =? 208) && (byte_at data 1 =? 107) && (byte_at data 2 =? 51)
    && (byte_at data 3 =? 67) && (byte_at data 4 =? 207))).

Definition tap_route (i : nat) (data : bytes) : TM unit :=
  tap ← gets tap_enabled;
  update_route i (set_capture tap);;
  when tap (temit (TTap false data)).

(** From the first-datagram test on; no bridge is attached. *)
Definition forward_unbridged (i : nat) (t : CSAddrInfo) (data : bytes) : TM bool :=
  with_route i false (fun r =>
    if firstDatagramLogged r then tap_route i data;; ForwardUpstreamDatagram t data
    else
      temit (TFirstDatagram (client r));;
      let opened := CQuicBridge_Open (client r) data in
      update_route i (fun r => mkRoute (client r) (peer r) (applicationEndpoint r) true (capture r)
        opened (quicRetired r) t);;
      match opened with
      | Some _ => PumpQuic i;; mret true
      | None => tap_route i data;; ForwardUpstreamDatagram t data
      end).

Definition ForwardClientDatagram (p : nat) (t : CSAddrInfo) (app : _SockAddr) (data : bytes)
    : TM bool :=
  modify (fun w => set_m_lastActivity (tick w) w);;
  rs ← gets m_routes;
  match find_index (fun r => peer r =? p)%nat rs with
  | None => ForwardUpstreamDatagram t data
  | Some i =>
      update_route i (fun r => mkRoute (client r) (peer r) (Some app) (firstDatagramLogged r)
        (capture r) (quic r) (quicRetired r) (quicTarget r));;
      with_route i tt (fun r => when (bool_decide (is_Some (quic r))) (PumpQuic i));;
      with_route i false (fun r =>
        if quicRetired r && negb (fresh_initial data) then mret true
        else
          when (quicRetired r) (update_route i (fun r => mkRoute (client r) (peer r)
            (applicationEndpoint r) false (capture r) (quic r) false (quicTarget r)));;
          match quic r with
          | Some q =>
              let '(retained, q) := Feed false data q in
              store_bridge i q;; PumpQuic i;;
              if (retained : bool) then mret true else ForwardUpstreamDatagram t data
          | None => forward_unbridged i t data
          end)
  end.

(** The loop that chooses the route of a reply: the chosen route, the last
    named candidate and how many there were. *)
Fixpoint select_route (source : _SockAddr) (i : nat) (candidate : option nat) (count : Z)
    (rs : list UdpRoute) : TM (option nat * option nat * Z) :=
  match rs with
  | [] => mret (None, candidate, count)
  | r :: rs =>
      let dst := GetProxyDestination (client r) in
      open ← peer_open (peer r);
      if negb open || negb (GetPort dst =? GetPort source) then
        select_route source (S i) candidate count rs
      else if negb (IsDNValid (szDomainName (client r))) && SameAddress dst source then
        mret (Some i, candidate, count)
      else if IsDNValid (szDomainName (client r)) then
        select_route source (S i) (Some i) (count + 1) rs
      else select_route source (S i) candidate count rs
  end.

Definition choose_route (source : _SockAddr) : TM (option nat) :=
  rs ← gets m_routes;
  r ← select_route source 0 None 0 rs;
  let '(selected, candidate, count) := (r : option nat * option nat * Z) in
  match selected with
  | Some i => mret (Some i)
  | None =>
      if count =? 1 then mret candidate
      else
        match rs with
        | [r] => if count =? 0 then open ← peer_open (peer r); mret (if (open : bool) then Some O else None)
                 else mret None
        | _ => mret None
        end
  end.

Definition ForwardServerDatagram (source : _SockAddr) (data : bytes) : TM bool :=
  chosen ← choose_route source;
  match chosen with
  | None => mret false
  | Some i =>
      modify (fun w => set_m_lastActivity (tick w) w);;
      with_route i false (fun r =>
        match quic r with
        | Some q =>
            let '(_, q) := Feed true data q in
            store_bridge i q;; PumpQuic i;; mret true
        | None =>
            if quicRetired r then mret true
            else
              tap ← gets tap_enabled;
              when (negb tap) (update_route i (set_capture false));;
              when (tap && capture r) (temit (TTap true data));;
              DeliverServerDatagram r data
        end)
  end.

Definition OnRouteWritable (p : nat) : TM unit :=
  FlushPendingReplies (Some p);;
  rs ← gets m_routes;
  match find_index (fun r => (peer r =? p)%nat && bool_decide (is_Some (quic r))) rs with
  | Some i => PumpQuic i
  | None => mret tt
  end.

(** ** The peers' callbacks (PRCUdpPeer.cpp) *)

Definition peer_OnReceive (p : nat) (from : _SockAddr) (data : bytes) : TM bool :=
  s ← gets m_pServer;
  h ← gets peers;
  match h !! p with
  | None => temit TFault;; mret false
  | Some o =>
      if bool_decide (s = Some p) then ForwardServerDatagram from data
      else ForwardClientDatagram p (m_CSAddrInfo o) from data
  end.

Definition peer_OnSend (p : nat) : TM unit :=
  s ← gets m_pServer;
  if bool_decide (s = Some p) then OnServerWritable else OnRouteWritable p.

(** Only the upstream peer reports a connect. *)
Definition peer_OnConnect (p : nat) (nErrorCode : Z) : TM unit :=
  s ← gets m_pServer;
  if negb (bool_decide (s = Some p)) then mret tt
  else if nErrorCode =? 0 then OnServerReady p
  else PeerClose p;; OnPeerClosed p nErrorCode.

Definition peer_OnClose (p : nat) (nErrorCode : Z) : TM unit :=
  PeerClose p;; OnPeerClosed p nErrorCode.

(** The constructor. *)
Definition new_task (now : Z) : task := {|
  m_PRCClient := mkPRCClient 0 0 0 0 0 [] SockAddr.Clear SockAddr.Clear SockAddr.Clear 0 0 SockAddr.Clear;
  m_ProxyInfo := mkProxyInfo [] [] [] 0 [] [] 0 []; m_LocalProxyUdpPort := 0; m_routes := [];
  m_pending := []; m_pendingBytes := 0; m_pendingReplies := []; m_pendingReplyBytes := 0;
  m_pServer := None; m_upstreamState := UPSTREAM_ROUTE_RESERVED; m_lastActivity := now;
  m_nextServerReconnect := 0; m_serverReconnectDelay := 250; m_lastServerError := 0;
  m_capability := new_capability; peers := ∅; next_peer := 0; tick := now; connects := [];
  sockets := []; up_sends := []; down_sends := []; tap_enabled := false; task_error := 0;
  trace := [] |}.
End Task.
