(* ===== verification/UdpTaskRules.v ===== *)
(** * Rules for the UDP task

    The safety invariant [inv] of UdpTask.v and the proof that the operations
    on peers, queues and replies keep it. *)

From S2P Require Import Prelude Winsock SockAddr Effects UdpPolicy UdpCapability UdpTask.

(** ** Sums of sizes *)

Definition total (l : list Z) : Z := fold_right Z.add 0 l.

Lemma total_cons s l : total (s :: l) = s + total l.
Proof. done. Qed.

Lemma total_app a b : total (a ++ b) = total a + total b.
Proof. induction a; simpl; lia. Qed.

Lemma total_nonneg l : Forall (fun s => 0 <= s) l -> 0 <= total l.
Proof. induction 1; simpl; lia. Qed.

(** A queue within its limits, its size recorded in [b]. *)
Definition queue_ok (sizes : list Z) (b : Z) : Prop :=
  b = total sizes /\ Forall (fun s => 0 <= s) sizes /\ total sizes <= maxBytes /\
  (length sizes <= maxPackets)%nat.

Lemma queue_ok_nil : queue_ok [] 0.
Proof. repeat split; try constructor; cbn; unfold maxBytes; lia. Qed.

Lemma queue_ok_tail s l b : queue_ok (s :: l) b -> queue_ok l (u32 (b - s)).
Proof.
  intros (-> & H0 & Ht & Hl). apply Forall_cons in H0 as [Hs H0].
  rewrite total_cons in *. cbn [length] in Hl.
  pose proof (total_nonneg l H0). unfold maxBytes in *.
  rewrite u32_small by lia. split; [lia|]. split; [done|]. unfold maxBytes. split; [lia|]. lia.
Qed.

Lemma make_room_ok l b len :
  queue_ok l b ->
  let '(n, b') := make_room l b len in
  queue_ok (drop n l) b' /\
  (u32 len <= maxBytes -> total (drop n l) + u32 len <= maxBytes /\
     (length (drop n l) < maxPackets)%nat).
Proof.
  revert b. induction l as [|s l IH]; intros b Hq; cbn [make_room].
  - split; [done|]. cbn. unfold maxPackets. lia.
  - destruct (_ || _) eqn:E.
    + specialize (IH _ (queue_ok_tail _ _ _ Hq)). by destruct (make_room l (u32 (b - s)) len).
    + rewrite drop_0. split; [done|]. intros Hl. apply orb_false_iff in E as [E1 E2].
      destruct Hq as (-> & Hs & Ht & _). pose proof (total_nonneg _ Hs).
      pose proof (u32_range len). unfold maxBytes in *.
      assert (Hw : u32 (total (s :: l) + len) = total (s :: l) + u32 len).
      { rewrite <- (u32_small (total (s :: l) + u32 len)) by lia. unfold u32.
        by rewrite Zplus_mod_idemp_r. }
      rewrite Hw in E2. apply Nat.leb_gt in E1. apply Z.ltb_ge in E2. split; lia.
Qed.

Lemma queue_ok_push l b s :
  queue_ok l b -> 0 <= s -> total l + s <= maxBytes -> (length l < maxPackets)%nat ->
  queue_ok (l ++ [s]) (u32 (b + s)).
Proof.
  intros (-> & H0 & Ht & _) Hs Hm Hl. pose proof (total_nonneg _ H0).
  unfold queue_ok. rewrite total_app, length_app. change (total [s]) with (s + 0). cbn [length]. unfold maxBytes in *.
  rewrite u32_small by lia.
  split; [lia|]. split; [|lia]. apply Forall_app. split; [done|]. by constructor.
Qed.

(** Erasing one of the replies. *)
Lemma queue_ok_erase l1 s l2 b :
  queue_ok (l1 ++ s :: l2) b -> queue_ok (l1 ++ l2) (u32 (b - s)).
Proof.
  intros (-> & H0 & Ht & Hl). apply Forall_app in H0 as [H1 H2]. apply Forall_cons in H2 as [Hs H2].
  pose proof (total_nonneg _ H1). pose proof (total_nonneg _ H2).
  rewrite total_app, total_cons in *.
  unfold maxBytes in *. rewrite length_app in Hl. cbn in Hl.
  unfold queue_ok. rewrite total_app, length_app. rewrite u32_small by lia.
  split; [lia|]. split; [by apply Forall_app|]. unfold maxBytes. lia.
Qed.

Section Rules.
Context {qb : QuicBridge} {text : AddressText}.

Abbreviation TM := (M task).

(** ** The invariant

    [ps] are the peers of the routes, [qs] which routes have a bridge, [ks]
    peers that have to stay (the one whose callback runs).  The queue and
    reply lists may be in the middle of a pass, so their account is apart. *)
Record inv (ps : list nat) (qs : list bool) (ks : list nat) (w : task) : Prop := {
  i_peers : map peer (m_routes w) = ps;
  i_quic : map (fun r => bool_decide (is_Some (quic r))) (m_routes w) = qs;
  i_nodup : NoDup ps;
  i_live : Forall (fun p => is_Some (peers w !! p)) (ps ++ ks);
  i_server : forall s, m_pServer w = Some s -> is_Some (peers w !! s) /\ s ∉ ps;
  i_open : m_upstreamState w <> UPSTREAM_CLOSING ->
    Forall (fun p => p_open <$> peers w !! p = Some true) ps;
  i_wait : m_upstreamState w = UPSTREAM_RECONNECT_WAIT ->
    forall s o, m_pServer w = Some s -> peers w !! s = Some o -> p_open o = false;
  i_fresh : forall p, is_Some (peers w !! p) -> (p < next_peer w)%nat;
  i_replies : Forall (fun r => routePeer r ∈ ps) (m_pendingReplies w);
  i_pending : queue_ok (map pd_size (m_pending w)) (m_pendingBytes w);
  i_delay : 250 <= m_serverReconnectDelay w <= 5000;
  i_trace : TFault ∉ trace w
}.

(** The account of the replies. *)
Definition replies_ok (w : task) : Prop :=
  queue_ok (map pr_size (m_pendingReplies w)) (m_pendingReplyBytes w).

Definition task_ok ps qs ks (w : task) : Prop := inv ps qs ks w /\ replies_ok w.

(** An update of the fields the invariant does not look at. *)
Definition irrelevant (f : task -> task) : Prop := forall w,
  m_routes (f w) = m_routes w /\ peers (f w) = peers w /\ m_pServer (f w) = m_pServer w /\
  m_upstreamState (f w) = m_upstreamState w /\ next_peer (f w) = next_peer w /\
  m_pendingReplies (f w) = m_pendingReplies w /\ m_pending (f w) = m_pending w /\
  m_pendingBytes (f w) = m_pendingBytes w /\ m_pendingReplyBytes (f w) = m_pendingReplyBytes w /\
  m_serverReconnectDelay (f w) = m_serverReconnectDelay w /\
  (TFault ∉ trace w -> TFault ∉ trace (f w)).

Lemma inv_irrelevant ps qs ks f w : irrelevant f -> inv ps qs ks w -> inv ps qs ks (f w).
Proof.
  intros Hf [] . destruct (Hf w) as (E1 & E2 & E3 & E4 & E5 & E6 & E7 & E8 & E9 & E10 & E11).
  constructor; rewrite ?E1, ?E2, ?E3, ?E4, ?E5, ?E6, ?E7, ?E8, ?E10; auto.
Qed.

Lemma task_ok_irrelevant ps qs ks f w : irrelevant f -> task_ok ps qs ks w -> task_ok ps qs ks (f w).
Proof.
  intros Hf [H Hr]. split; [by apply inv_irrelevant|]. unfold replies_ok.
  destruct (Hf w) as (_ & _ & _ & _ & _ & E6 & _ & _ & E9 & _). by rewrite E6, E9.
Qed.

Lemma task_ok_keep ps qs ks ks' w :
  task_ok ps qs ks w -> Forall (fun p => is_Some (peers w !! p)) ks' -> task_ok ps qs ks' w.
Proof.
  intros [[] Hr] Hk. split; [|done]. constructor; auto.
  apply Forall_app in i_live0 as [? _]. by apply Forall_app.
Qed.

(** ** Passes over the queues *)

(** What a pass over the replies changes, apart from the list itself. *)
Definition replied (b : Z) (d : list send_result) (e : Z) (o : list task_output) (w : task) : task :=
  set_m_pendingReplyBytes b (set_down_sends d (set_task_error e (set_trace (trace w ++ o) w))).

Lemma replied_same w :
  replied (m_pendingReplyBytes w) (down_sends w) (task_error w) [] w = w.
Proof. unfold replied. rewrite app_nil_r. by destruct w. Qed.

Lemma replied_replied b d e o b' d' e' o' w :
  replied b' d' e' o' (replied b d e o w) = replied b' d' e' (o ++ o') w.
Proof. unfold replied. cbn. by rewrite app_assoc. Qed.

(** Outputs that are neither faults nor upstream datagrams. *)
Definition down_only (o : list task_output) : Prop :=
  Forall (fun x => match x with TFault | TUp _ _ | TForward _ _ => False | _ => True end) o.

Lemma down_only_fault o : down_only o -> TFault ∉ o.
Proof.
  intros H Hin. unfold down_only in H. rewrite Forall_forall in H.
  exact (H _ Hin).
Qed.

Lemma route_send_eq p app data w :
  is_Some (peers w !! p) ->
  exists n d e o, route_send p app data w
    = (n, replied (m_pendingReplyBytes w) d e o w) /\ down_only o /\
    (n = Z.of_nat (length data) \/ o = []).
Proof.
  intros [c Hc]. unfold route_send, peer_open, mbind, M_bind, gets. rewrite Hc. cbn.
  destruct (p_open c).
  - unfold send_outcome. destruct (down_sends w) as [|[|n|e] r] eqn:Ed.
    + exists SOCKET_ERROR, [], WSAEWOULDBLOCK, []. split; [|split; [apply Forall_nil_2|by right]].
      unfold replied. rewrite app_nil_r. destruct w; cbn in *; by subst.
    + exists (Z.of_nat (length data)), r, (task_error w), [TDown p app data].
      split; [by destruct w|]. split; [by repeat constructor|by left].
    + exists n, r, (task_error w), []. split; [|split; [apply Forall_nil_2|by right]].
      unfold replied. rewrite app_nil_r. by destruct w.
    + exists SOCKET_ERROR, r, e, []. split; [|split; [apply Forall_nil_2|by right]].
      unfold replied. rewrite app_nil_r. by destruct w.
  - exists SOCKET_ERROR, (down_sends w), WSAENOTSOCK, []. split; [|split; [apply Forall_nil_2|by right]].
    unfold replied. rewrite app_nil_r. by destruct w.
Qed.

Lemma flush_replies_spec only now l pre w :
  Forall (fun r => is_Some (peers w !! routePeer r)) l ->
  queue_ok (map pr_size (pre ++ l)) (m_pendingReplyBytes w) ->
  exists kept b d e o, flush_replies only now l w = (kept, replied b d e o w) /\
    down_only o /\ sublist kept l /\ queue_ok (map pr_size (pre ++ kept)) b.
Proof.
  revert pre w. induction l as [|r l IH]; intros pre w Hl Hq; cbn [flush_replies].
  - exists [], (m_pendingReplyBytes w), (down_sends w), (task_error w), [].
    rewrite replied_same. split; [done|]. split; [apply Forall_nil_2|]. by split.
  - apply Forall_cons in Hl as [[c Hc] Hl].
    (* keeping, erasing *)
    assert (Hkeep : forall d e o, down_only o ->
      exists kept b d' e' o', (kept ← flush_replies only now l; mret (r :: kept) : TM _)
          (replied (m_pendingReplyBytes w) d e o w) = (kept, replied b d' e' o' w) /\
        down_only o' /\ sublist kept (r :: l) /\ queue_ok (map pr_size (pre ++ kept)) b).
    { intros d e o Ho. rewrite (cons_middle r pre l), app_assoc in Hq.
      destruct (IH (pre ++ [r]) (replied (m_pendingReplyBytes w) d e o w) Hl Hq)
        as (kept & b & d' & e' & o' & E & Ho' & Hs & Hq').
      exists (r :: kept), b, d', e', (o ++ o'). unfold mbind, M_bind. rewrite E, replied_replied.
      split; [done|]. split; [by apply Forall_app|]. split; [by constructor|].
      by rewrite <- app_assoc in Hq'. }
    assert (Herase : forall d e o, down_only o ->
      exists kept b d' e' o', flush_replies only now l
          (replied (u32 (m_pendingReplyBytes w - pr_size r)) d e o w) = (kept, replied b d' e' o' w) /\
        down_only o' /\ sublist kept (r :: l) /\ queue_ok (map pr_size (pre ++ kept)) b).
    { intros d e o Ho. rewrite map_app in Hq. apply queue_ok_erase in Hq. rewrite <- map_app in Hq.
      destruct (IH pre (replied (u32 (m_pendingReplyBytes w - pr_size r)) d e o w) Hl Hq)
        as (kept & b & d' & e' & o' & E & Ho' & Hs & Hq').
      exists kept, b, d', e', (o ++ o'). rewrite E, replied_replied.
      split; [done|]. split; [by apply Forall_app|]. split; [by constructor|done]. }
    set (expired := (if 5000 <? elapsed now (pr_queuedAt r) then _ else _)).
    assert (He : exists x, expired w = (x, w)).
    { subst expired. destruct (5000 <? _); [by exists true|]. unfold peer_open, mbind, M_bind, gets.
      rewrite Hc. by eexists. }
    destruct He as [x He]. unfold mbind at 1, M_bind at 1. rewrite He. destruct x.
    + destruct (Herase (down_sends w) (task_error w) [] (Forall_nil_2 _)) as
        (kept & b & d & e & o & E & H). exists kept, b, d, e, o. split; [|done]. rewrite <- E.
      unfold mbind, M_bind, modify, replied. rewrite app_nil_r. by destruct w.
    + destruct (match only with Some p => _ | None => _ end).
      { destruct (Hkeep (down_sends w) (task_error w) [] (Forall_nil_2 _)) as
          (kept & b & d & e & o & E & H). exists kept, b, d, e, o. split; [|done]. rewrite <- E.
        by rewrite replied_same. }
      unfold mbind at 1, M_bind at 1.
      destruct (route_send_eq (routePeer r) (application r) (pr_data r) w) as
        (n & d & e & o & E & Ho & Hn); [by exists c|]. rewrite E.
      destruct (n =? Z.of_nat (length (pr_data r))); cbn [negb]; [|by apply Hkeep].
      destruct (Herase d e (o ++ [TTraffic true n])) as (kept & b & d' & e' & o' & E' & H).
      { apply Forall_app. split; [done|]. by repeat constructor. }
      exists kept, b, d', e', o'. split; [|done]. rewrite <- E'.
      unfold mbind, M_bind, modify, temit, replied. cbn. by rewrite app_assoc.
Qed.

(** Flushing the replies: the list shrinks, its account stays right, and
    nothing else that matters changes. *)
Lemma FlushPendingReplies_spec only w :
  Forall (fun r => is_Some (peers w !! routePeer r)) (m_pendingReplies w) -> replies_ok w ->
  exists kept b d e o,
    FlushPendingReplies only w = (tt, set_m_pendingReplies kept (replied b d e o w)) /\
    down_only o /\ sublist kept (m_pendingReplies w) /\ queue_ok (map pr_size kept) b.
Proof.
  intros Hl Hq. unfold FlushPendingReplies, mbind, M_bind, gets.
  destruct (flush_replies_spec only (tick w) (m_pendingReplies w) [] w Hl Hq)
    as (kept & b & d & e & o & E & Ho & Hs & Hq').
  rewrite E. by exists kept, b, d, e, o.
Qed.

(** Expiring: a prefix of the pending datagrams goes. *)
Lemma pop_pending_eq w p rest :
  m_pending w = p :: rest ->
  pop_pending w = (tt, set_m_pending rest (set_m_pendingBytes (u32 (m_pendingBytes w - pd_size p)) w)).
Proof. intros E. unfold pop_pending, modify. by rewrite E. Qed.

Definition unqueued (n : nat) (b : Z) (w : task) : task :=
  set_m_pending (drop n (m_pending w)) (set_m_pendingBytes b w).

Lemma expire_loop_spec l now w :
  m_pending w = l -> queue_ok (map pd_size l) (m_pendingBytes w) ->
  exists n b, expire_loop l now w = (tt, unqueued n b w) /\ queue_ok (map pd_size (drop n l)) b.
Proof.
  revert w. induction l as [|p l IH]; intros w E Hq; cbn [expire_loop].
  - exists O, (m_pendingBytes w). split; [|done]. unfold unqueued. rewrite drop_0. by destruct w.
  - destruct (5000 <? _).
    + unfold mbind, M_bind. rewrite (pop_pending_eq w p l E).
      destruct (IH (set_m_pending l (set_m_pendingBytes (u32 (m_pendingBytes w - pd_size p)) w)))
        as (n & b & Ee & Hq'); [done|by apply (queue_ok_tail (pd_size p))|].
      exists (S n), b. rewrite Ee. split; [|done]. unfold unqueued. rewrite E. by destruct w.
    + exists O, (m_pendingBytes w). split; [|done]. unfold unqueued. rewrite drop_0. by destruct w.
Qed.

Lemma ExpirePendingDatagrams_spec now w :
  queue_ok (map pd_size (m_pending w)) (m_pendingBytes w) ->
  exists n b, ExpirePendingDatagrams now w = (tt, unqueued n b w) /\
    queue_ok (map pd_size (drop n (m_pending w))) b.
Proof. intros Hq. unfold ExpirePendingDatagrams, mbind, M_bind, gets. by apply expire_loop_spec. Qed.
End Rules.
