(* ===== verification/UdpTaskInv.v ===== *)
(** * The UDP task keeps its invariant

    [task_ok] of UdpTaskRules.v through every operation of UdpTask.v: peers are
    used only while they exist, the queues stay within their limits, and the
    peer whose callback runs is not deleted. *)

From S2P Require Import Prelude Winsock SockAddr Effects UdpPolicy UdpCapability UdpTask.
From S2P Require Import UdpTaskRules.

Ltac irr := intros ?w; split_and!; cbn; auto.

Section Inv.
Context {qb : QuicBridge} {text : AddressText}.

Abbreviation TM := (M task).

Lemma keeps_gets_with {A B} (I : task -> Prop) (P : A -> Prop) (f : task -> A) (k : A -> TM B) :
  (forall w, I w -> P (f w)) -> (forall a, P a -> keeps I (k a)) -> keeps I (gets f ≫= k).
Proof. intros Hf Hk w Hw. rewrite exec_bind. by apply Hk; [apply Hf|]. Qed.

Lemma keeps_for_each {A} (I : task -> Prop) (f : A -> TM unit) l :
  (forall x, x ∈ l -> keeps I (f x)) -> keeps I (for_each f l).
Proof.
  induction l as [|x l IH]; intros H; cbn [for_each]; [apply keeps_ret|].
  apply keeps_bind; [apply H; by left|]. intros _. apply IH. intros y Hy. apply H. by right.
Qed.

Lemma keeps_wp {A} (I : task -> Prop) (m : TM A) : (forall w, I w -> wp m (fun _ => I) w) -> keeps I m.
Proof. intros H w Hw. by apply wp_exec, H. Qed.

Lemma wp_keeps {A} (I : task -> Prop) (m : TM A) w : keeps I m -> I w -> wp m (fun _ => I) w.
Proof. intros H Hw. by apply wp_exec, H. Qed.

Section Fixed.
Variables (ps : list nat) (qs : list bool) (ks : list nat).
#[local] Abbreviation I := (task_ok ps qs ks).

Lemma keeps_irr (f : task -> task) : irrelevant f -> keeps I (modify f).
Proof. intros Hf. apply keeps_modify. intros w. by apply task_ok_irrelevant. Qed.

Lemma keeps_temit o : o <> TFault -> keeps I (temit o).
Proof.
  intros Ho. apply keeps_irr. irr. intros H. apply not_elem_of_app. split; [done|].
  apply not_elem_of_cons. split; [congruence|apply not_elem_of_nil].
Qed.

Lemma keeps_set_error e : keeps I (set_error e).
Proof. apply keeps_irr. irr. Qed.

(** ** Peers *)

Lemma live_ps w p : I w -> p ∈ ps -> is_Some (peers w !! p).
Proof.
  intros [[] _] Hp. rewrite Forall_forall in i_live. apply i_live.
  apply elem_of_app. by left.
Qed.
Lemma live_ks w p : I w -> p ∈ ks -> is_Some (peers w !! p).
Proof.
  intros [[] _] Hp. rewrite Forall_forall in i_live. apply i_live.
  apply elem_of_app. by right.
Qed.
Lemma live_server w s : I w -> m_pServer w = Some s -> is_Some (peers w !! s).
Proof. intros [[] _] Hs. by apply i_server. Qed.

Lemma task_ok_peer w p o f :
  I w -> peers w !! p = Some o ->
  (p_open (f o) = p_open o \/ ((p ∉ ps) /\ p_open (f o) = false) \/
   (m_upstreamState w = UPSTREAM_CLOSING /\ p_open (f o) = false)) ->
  I (set_peers (<[p := f o]> (peers w)) w).
Proof.
  intros [[] Hr] Ho Hf. split; [|done].
  assert (Hlive : forall q, is_Some (peers w !! q) -> is_Some (<[p := f o]> (peers w) !! q)).
  { intros q Hq. destruct (decide (p = q)) as [<-|Hn];
      [rewrite lookup_insert_eq; by eexists|by rewrite lookup_insert_ne]. }
  constructor; cbn; auto.
  - eapply Forall_impl; [exact i_live|]. auto.
  - intros s Hs. destruct (i_server s Hs). auto.
  - intros Hst. specialize (i_open Hst). rewrite Forall_forall in *. intros q Hq.
    specialize (i_open q Hq). destruct (decide (p = q)) as [<-|Hn].
    + rewrite lookup_insert_eq. cbn. rewrite Ho in i_open. cbn in i_open.
      destruct Hf as [E|[[Hn _]|[Hc _]]]; [congruence|done|done].
    + by rewrite lookup_insert_ne.
  - intros Hst s o' Hs. destruct (decide (p = s)) as [<-|Hn].
    + rewrite lookup_insert_eq. intros [= <-]. specialize (i_wait Hst p o Hs Ho).
      destruct Hf as [E|[[_ E]|[_ E]]]; congruence.
    + rewrite lookup_insert_ne by done. by apply i_wait.
  - intros q Hq. destruct (decide (p = q)) as [<-|Hn]; [apply i_fresh; by eexists|].
    rewrite lookup_insert_ne in Hq by done. by apply i_fresh.
Qed.

Lemma exec_with_peer p f o w :
  peers w !! p = Some o -> exec (with_peer p f) w = set_peers (<[p := f o]> (peers w)) w.
Proof. intros E. unfold with_peer, exec, mbind, M_bind, gets. by rewrite E. Qed.

Lemma keeps_SetPartner p q :
  (forall w, I w -> is_Some (peers w !! p)) -> keeps I (SetPartner p q).
Proof.
  intros Hl w Hw. destruct (Hl w Hw) as [o Ho]. unfold SetPartner.
  rewrite (exec_with_peer p _ o w Ho).
  apply (task_ok_peer w p o (fun o => mkPeer (p_open o) (m_CSAddrInfo o) q)); [done|done|by left].
Qed.

Lemma keeps_peer_open p : (forall w, I w -> is_Some (peers w !! p)) -> keeps I (peer_open p).
Proof.
  intros Hl. apply keeps_wp. intros w Hw. unfold peer_open. apply wp_bind, wp_gets.
  destruct (Hl w Hw) as [o ->]. by apply wp_ret.
Qed.

(** The answer of [peer_open], the state unchanged. *)
Lemma wp_peer_open p o Q w :
  peers w !! p = Some o -> Q (p_open o) w -> wp (peer_open p) Q w.
Proof. intros E HQ. unfold peer_open. apply wp_bind, wp_gets. rewrite E. by apply wp_ret. Qed.

Lemma wp_server_open Q w :
  I w ->
  (forall b, (b = true -> exists s o, m_pServer w = Some s /\ peers w !! s = Some o /\ p_open o = true) ->
     (b = false -> forall s o, m_pServer w = Some s -> peers w !! s = Some o -> p_open o = false) ->
     Q b w) ->
  wp server_open Q w.
Proof.
  intros Hw HQ. unfold server_open. apply wp_bind, wp_gets. destruct (m_pServer w) as [s|] eqn:Es.
  - destruct (live_server w s Hw Es) as [o Ho]. apply (wp_peer_open s o); [done|].
    apply HQ; [intros; by exists s, o|]. intros E s' o' [= <-] Ho'. congruence.
  - apply wp_ret, HQ; [done|]. by intros _ s o.
Qed.

Lemma keeps_server_open : keeps I server_open.
Proof. apply keeps_wp. intros w Hw. apply wp_server_open; auto. Qed.

(** The upstream peer closed. *)
Definition server_closed (w : task) : task :=
  match m_pServer w with
  | Some s => match peers w !! s with
              | Some o => set_peers (<[s := mkPeer false (m_CSAddrInfo o) (m_pPartner o)]> (peers w)) w
              | None => w
              end
  | None => w
  end.

Lemma exec_close_server w : I w -> exec (for_server PeerClose) w = server_closed w.
Proof.
  intros Hw. unfold for_server, server_closed. rewrite exec_bind. cbn.
  destruct (m_pServer w) as [s|] eqn:Es; [|done].
  destruct (live_server w s Hw Es) as [o Ho]. unfold PeerClose.
  rewrite (exec_with_peer s _ o w Ho). by rewrite Ho.
Qed.

Lemma task_ok_server_closed w : I w -> I (server_closed w).
Proof.
  intros Hw. unfold server_closed. destruct (m_pServer w) as [s|] eqn:Es; [|done].
  destruct (live_server w s Hw Es) as [o Ho]. rewrite Ho.
  apply (task_ok_peer w s o (fun o => mkPeer false (m_CSAddrInfo o) (m_pPartner o))); [done|done|].
  right. left. split; [|done]. destruct Hw as [[] _]. by apply i_server.
Qed.

Lemma keeps_close_server : keeps I (for_server PeerClose).
Proof. intros w Hw. rewrite exec_close_server by done. by apply task_ok_server_closed. Qed.

(** ** The state of the upstream *)

Lemma task_ok_state st w :
  I w -> (st <> UPSTREAM_CLOSING -> m_upstreamState w <> UPSTREAM_CLOSING) ->
  (st = UPSTREAM_RECONNECT_WAIT -> forall s o, m_pServer w = Some s -> peers w !! s = Some o ->
     p_open o = false) ->
  I (set_m_upstreamState st w).
Proof. intros [[] Hr] H1 H2. split; [|done]. constructor; cbn; auto. Qed.

Lemma task_ok_delay d w : 250 <= d <= 5000 -> I w -> I (set_m_serverReconnectDelay d w).
Proof. intros Hd [[] Hr]. split; [|done]. by constructor. Qed.

Lemma keeps_reset_backoff : keeps I reset_backoff.
Proof.
  apply keeps_bind; [|intros _; apply keeps_irr; irr].
  apply keeps_modify. intros w. apply task_ok_delay. lia.
Qed.

(** ** The queues *)

Lemma keeps_QueueDatagram t data : keeps I (QueueDatagram t data).
Proof.
  apply keeps_wp. intros w [[] Hr]. unfold QueueDatagram. apply wp_bind, wp_modify.
  pose proof (make_room_ok _ _ (Z.of_nat (length data)) i_pending) as Hm.
  destruct (make_room _ _ _) as [n b]. destruct Hm as [Hq Hroom]. rewrite !skipn_map in *.
  assert (H1 : I (unqueued n b w)) by (split; [by constructor|done]).
  apply wp_if; intros Hl; [by apply wp_ret|]. apply Z.ltb_ge in Hl.
  apply wp_bind, wp_modify, wp_ret. destruct (Hroom Hl) as [Hroom1 Hroom2].
  split; [|done]. destruct H1 as [[] _]. constructor; auto. cbn. rewrite map_app. cbn.
  replace (u32 (b + Z.of_nat (length data)))
    with (u32 (b + pd_size (mkPending t data (tick w)))).
  - apply queue_ok_push; [done|apply u32_range|done|done].
  - unfold pd_size, u32. cbn. by rewrite Zplus_mod_idemp_r.
Qed.

Lemma keeps_QueueReply p app data : p ∈ ps -> keeps I (QueueReply p app data).
Proof.
  intros Hp. apply keeps_wp. intros w [Hi Hr]. unfold QueueReply. apply wp_bind, wp_modify.
  pose proof (make_room_ok _ _ (Z.of_nat (length data)) Hr) as Hm.
  destruct (make_room _ _ _) as [n b]. destruct Hm as [Hq Hroom]. rewrite !skipn_map in *.
  set (w1 := set_m_pendingReplies _ _).
  assert (H1 : I w1).
  { split; [|done]. destruct Hi. constructor; auto. cbn. by apply Forall_drop. }
  apply wp_if; intros Hl; [by apply wp_ret|]. apply Z.ltb_ge in Hl.
  apply wp_bind, wp_modify, wp_ret. destruct (Hroom Hl) as [Hroom1 Hroom2].
  destruct H1 as [[] _]. split.
  - constructor; auto. cbn. apply Forall_app. split; [done|]. by constructor.
  - unfold replies_ok. cbn. rewrite map_app. cbn.
    replace (u32 (b + Z.of_nat (length data)))
      with (u32 (b + pr_size (mkReply p app data (tick w)))).
    + apply queue_ok_push; [done|apply u32_range|done|done].
    + unfold pr_size, u32. cbn. by rewrite Zplus_mod_idemp_r.
Qed.

(** What the passes leave alone. *)
Definition same_upstream (w w' : task) : Prop :=
  m_upstreamState w' = m_upstreamState w /\ m_pServer w' = m_pServer w /\ peers w' = peers w /\
  m_nextServerReconnect w' = m_nextServerReconnect w.

Lemma wp_FlushPendingReplies only Q w :
  I w -> (forall w', I w' -> same_upstream w w' -> m_pending w' = m_pending w -> Q tt w') ->
  wp (FlushPendingReplies only) Q w.
Proof.
  intros Hw HQ. pose proof Hw as [Hi Hr].
  destruct (FlushPendingReplies_spec only w) as (kept & b & d & e & o & E & Ho & Hs & Hq); [|done|].
  { destruct Hi. eapply Forall_impl; [exact i_replies|]. intros r ?. by apply live_ps. }
  unfold wp. rewrite E. apply HQ; [|done|done]. split; [|done].
  destruct Hi. constructor; auto; cbn.
  - by eapply Forall_sublist.
  - apply not_elem_of_app. split; [done|]. by apply down_only_fault.
Qed.

Lemma keeps_FlushPendingReplies only : keeps I (FlushPendingReplies only).
Proof. apply keeps_wp. intros w Hw. by apply wp_FlushPendingReplies. Qed.

Lemma wp_ExpirePendingDatagrams now Q w :
  I w -> (forall w', I w' -> same_upstream w w' -> Q tt w') ->
  wp (ExpirePendingDatagrams now) Q w.
Proof.
  intros [Hi Hr] HQ. pose proof Hi as [].
  destruct (ExpirePendingDatagrams_spec now w i_pending) as (n & b & E & Hq).
  unfold wp. rewrite E. apply HQ; [|done]. split; [|done]. by constructor.
Qed.

(** ** Closing *)

Lemma keeps_CloseTask : keeps I CloseTask.
Proof.
  apply keeps_wp. intros w Hw. unfold CloseTask.
  set (C := fun w => I w /\ m_upstreamState w = UPSTREAM_CLOSING).
  apply wp_bind, wp_modify, wp_bind, wp_modify, wp_bind, wp_modify, wp_bind, wp_modify.
  set (w1 := set_m_routes _ _).
  assert (H1 : C w1).
  { split; [|done]. destruct Hw as [[] _]. split; [|apply queue_ok_nil].
    constructor; auto; cbn; rewrite ?map_map; try done; by apply Forall_nil_2. }
  apply wp_bind, wp_gets.
  assert (Hrs : forall r, r ∈ m_routes w1 -> peer r ∈ ps).
  { intros r Hr. destruct H1 as [[[] _] _]. rewrite <- i_peers. by apply list_elem_of_fmap_2. }
  apply wp_bind. eapply wp_mono.
  - apply (wp_keeps C); [|exact H1]. apply keeps_for_each. intros r Hr w2 [H2 Hc].
    destruct (live_ps w2 (peer r) H2 (Hrs r Hr)) as [o Ho]. unfold PeerClose.
    rewrite (exec_with_peer _ _ o w2 Ho). split; [|done].
    apply (task_ok_peer w2 (peer r) o (fun o => mkPeer false (m_CSAddrInfo o) (m_pPartner o)));
      [done|done|]. by right; right.
  - intros _ w2 [H2 _]. by apply wp_keeps; [apply keeps_close_server|].
Qed.

Lemma keeps_ScheduleServerReconnect e : keeps I (ScheduleServerReconnect e).
Proof.
  apply keeps_wp. intros w Hw. unfold ScheduleServerReconnect. apply wp_bind, wp_gets.
  apply wp_if; intros Hst; [by apply wp_ret|]. bool_hyps.
  apply wp_bind, wp_when; intros Hwait; bool_hyps.
  - apply wp_bind, wp_modify, wp_bind, wp_modify, wp_modify.
    set (f := fun w0 : task => set_m_lastServerError e
      (set_m_nextServerReconnect (u32 (tick w + m_serverReconnectDelay w))
         (set_m_upstreamState UPSTREAM_RECONNECT_WAIT w0))).
    change (set_m_lastServerError e _) with (f w).
    assert (Hf : forall w0, I w0 -> m_upstreamState w0 = m_upstreamState w ->
      (forall s o, m_pServer w0 = Some s -> peers w0 !! s = Some o -> p_open o = false) -> I (f w0)).
    { intros w0 H0 E0 Hc. unfold f.
      apply (task_ok_irrelevant ps qs ks (set_m_lastServerError e)); [irr|].
      apply (task_ok_irrelevant ps qs ks
        (set_m_nextServerReconnect (u32 (tick w + m_serverReconnectDelay w)))); [irr|].
      apply task_ok_state; [done|by rewrite E0|done]. }
    apply wp_bind. unfold server_open. apply wp_bind, wp_gets.
    change (m_pServer (f w)) with (m_pServer w).
    destruct (m_pServer w) as [s|] eqn:Es.
    + destruct (live_server w s Hw Es) as [o Ho]. apply (wp_peer_open s o); [done|].
      apply wp_when; intros Eo.
      * unfold for_server. apply wp_bind, wp_gets. change (m_pServer (f w)) with (m_pServer w).
        rewrite Es. apply wp_exec. unfold PeerClose. rewrite (exec_with_peer s _ o (f w) Ho).
        pose proof (task_ok_server_closed w Hw) as Hc. unfold server_closed in Hc.
        rewrite Es, Ho in Hc. apply (Hf _ Hc); [done|]. cbn. intros s' o' E.
        rewrite Es in E. injection E as <-. rewrite lookup_insert_eq. by intros [= <-].
      * apply Hf; [done|done|]. intros s' o' E Ho'. congruence.
    + apply wp_ret, wp_when; [done|]. intros _. apply Hf; [done|done|]. intros s o E. congruence.
  - apply wp_bind, wp_server_open; [done|]. intros b _ _.
    apply wp_when; [|done]. intros _. by apply wp_keeps; [apply keeps_close_server|].
Qed.

(** ** Failures *)

Lemma report_failure_eq e w : exists b c, report_failure e w = (b, set_m_capability c w).
Proof.
  unfold report_failure. destruct (ReportUdpAssociationFailure _ _ _ _) as [b c]. by exists b, c.
Qed.

Lemma wp_failed_association e m1 m2 w :
  I w ->
  (forall c, wp m1 (fun _ => I) (set_m_capability c w)) ->
  (forall c, wp m2 (fun _ => I) (set_m_capability c w)) ->
  wp (failed_association e m1 m2) (fun _ => I) w.
Proof.
  intros Hw H1 H2. unfold failed_association. apply wp_bind. unfold wp at 1.
  destruct (report_failure_eq e w) as (b & c & ->).
  apply wp_if; intros _; [|apply H2].
  apply wp_bind. unfold permanently_unsupported. apply wp_bind, wp_gets, wp_ret.
  apply wp_if; intros _; [|apply H1].
  apply wp_keeps; [apply keeps_CloseTask|].
  apply (task_ok_irrelevant ps qs ks (set_m_capability c)); [irr|done].
Qed.

Lemma keeps_failed_association e m1 m2 :
  keeps I m1 -> keeps I m2 -> keeps I (failed_association e m1 m2).
Proof.
  intros H1 H2. apply keeps_wp. intros w Hw.
  apply wp_failed_association; [done|..]; intros c; apply wp_keeps; auto;
    (apply (task_ok_irrelevant ps qs ks (set_m_capability c)); [irr|done]).
Qed.

Lemma keeps_schedule_blocked e : keeps I (schedule_blocked e).
Proof.
  apply keeps_bind; [apply keeps_ScheduleServerReconnect|]. intros _. apply keeps_irr. irr.
Qed.

(** ** A new upstream peer *)

Lemma task_ok_new_peer info pt w :
  I w ->
  task_ok ps qs (next_peer w :: ks)
    (set_next_peer (S (next_peer w))
       (set_peers (<[next_peer w := mkPeer false info pt]> (peers w)) w)) /\
  next_peer w ∉ ps /\ next_peer w ∉ ks /\ m_pServer w <> Some (next_peer w).
Proof.
  intros Hw. pose proof Hw as [[] Hr].
  assert (Hnew : peers w !! next_peer w = None).
  { destruct (peers w !! next_peer w) eqn:E; [|done].
    specialize (i_fresh (next_peer w) ltac:(by eexists)). lia. }
  assert (Hps : next_peer w ∉ ps).
  { intros H. destruct (live_ps w _ Hw H). congruence. }
  assert (Hks : next_peer w ∉ ks).
  { intros H. destruct (live_ks w _ Hw H). congruence. }
  assert (Hs : m_pServer w <> Some (next_peer w)).
  { intros H. destruct (live_server w _ Hw H). congruence. }
  split; [|done]. split; [|done].
  constructor; cbn; auto.
  - apply Forall_app in i_live as [H1 H2].
    assert (Himp : forall q, is_Some (peers w !! q) ->
      is_Some (<[next_peer w:=mkPeer false info pt]> (peers w) !! q)).
    { intros q Hq. rewrite lookup_insert_ne; [done|]. intros E. rewrite <- E, Hnew in Hq. by destruct Hq. }
    apply Forall_app. split; [eapply Forall_impl; [exact H1|auto]|].
    apply Forall_cons. split; [rewrite lookup_insert_eq; by eexists|].
    eapply Forall_impl; [exact H2|auto].
  - intros s Es. destruct (i_server s Es) as [? ?]. split; [|done].
    rewrite lookup_insert_ne by congruence. done.
  - intros Hst. specialize (i_open Hst). rewrite Forall_forall in *. intros q Hq.
    rewrite lookup_insert_ne by congruence. by apply i_open.
  - intros Hst s o Es. rewrite lookup_insert_ne by congruence. by apply i_wait.
  - intros q Hq. destruct (decide (q = next_peer w)) as [->|Hn]; [lia|].
    rewrite lookup_insert_ne in Hq by congruence. specialize (i_fresh q Hq). lia.
Qed.

(** Deleting a peer nobody has. *)
Lemma task_ok_delete p w :
  I w -> p ∉ ps -> p ∉ ks -> m_pServer w <> Some p -> I (set_peers (delete p (peers w)) w).
Proof.
  intros [[] Hr] H1 H2 H3. split; [|done].
  constructor; cbn; auto.
  - rewrite Forall_forall in *. intros q Hq. rewrite lookup_delete_ne; [by apply i_live|].
    intros <-. apply elem_of_app in Hq as [?|?]; done.
  - intros s Es. destruct (i_server s Es). split; [|done]. rewrite lookup_delete_ne; congruence.
  - intros Hst. specialize (i_open Hst). rewrite Forall_forall in *. intros q Hq.
    rewrite lookup_delete_ne by congruence. by apply i_open.
  - intros Hst s o Es. rewrite lookup_delete_ne by congruence. by apply i_wait.
  - intros q Hq. apply i_fresh. destruct (decide (p = q)) as [<-|Hn].
    + by rewrite lookup_delete_eq in Hq; destruct Hq.
    + by rewrite lookup_delete_ne in Hq.
Qed.

Lemma exec_delete_peer p w :
  is_Some (peers w !! p) -> exec (delete_peer p) w = set_peers (delete p (peers w)) w.
Proof. intros [o Ho]. unfold delete_peer, exec, mbind, M_bind, gets. by rewrite Ho. Qed.

Lemma task_ok_drop_ks s w : task_ok ps qs (s :: ks) w -> I w.
Proof.
  intros H. apply (task_ok_keep ps qs (s :: ks)); [done|]. destruct H as [Hi _].
  pose proof (i_live _ _ _ _ Hi) as Hl.
  apply Forall_app in Hl as [_ Hl]. by apply Forall_cons in Hl as [_ ?].
Qed.
End Fixed.

(** [ConnectProxy]: the peer is opened, or only scripts and errors change. *)
Lemma wp_ConnectProxy s Q w :
  (forall c e, Q false (set_task_error e (set_connects c w))) ->
  (forall c, wp (PeerOpened s) (fun _ => Q true) (set_connects c w)) ->
  wp (ConnectProxy s) Q w.
Proof.
  intros Hf Ht. unfold ConnectProxy. apply wp_bind, wp_gets.
  apply wp_if; intros _.
  { apply wp_ret. specialize (Hf (connects w) (task_error w)). by destruct w. }
  apply wp_bind, wp_gets. destruct (connects w) as [|[e|] r] eqn:Ec.
  - apply wp_bind, wp_modify, wp_ret. specialize (Hf (connects w) WSAENOBUFS).
    by destruct w; cbn in *; subst.
  - apply wp_bind, wp_modify, wp_bind, wp_modify, wp_ret. apply Hf.
  - apply wp_bind, wp_modify, wp_bind. eapply wp_mono; [apply (Ht r)|]. intros [] w' H.
    by apply wp_ret.
Qed.

Lemma wp_CreateServerPeer ps qs ks Q w :
  task_ok ps qs ks w -> m_upstreamState w <> UPSTREAM_CLOSING ->
  (forall w', task_ok ps qs ks w' -> m_upstreamState w' = m_upstreamState w ->
     m_pServer w' = m_pServer w -> Q false w') ->
  (forall w', task_ok ps qs ks w' ->
     m_upstreamState w' = UPSTREAM_READY \/ m_upstreamState w' = UPSTREAM_ASSOCIATING -> Q true w') ->
  wp CreateServerPeer Q w.
Proof.
  intros Hw Hst Hf Ht. unfold CreateServerPeer. apply wp_bind, wp_gets, wp_bind.
  unfold new_peer. unfold wp at 1. set (s := next_peer w).
  set (info := SetAddrInfo _).
  destruct (task_ok_new_peer ps qs ks info None w Hw) as (H1 & Hps & Hks & Hs).
  fold s in H1, Hps, Hks, Hs. set (w1 := set_next_peer _ _) in *.
  apply wp_bind, wp_ConnectProxy.
  - intros c e. cbn [negb]. apply wp_bind. set (w2 := set_task_error _ _).
    assert (H2 : task_ok ps qs ks w2).
    { apply (task_ok_irrelevant ps qs ks (fun w => set_task_error e (set_connects c w))); [irr|].
      by apply (task_ok_drop_ks ps qs ks s). }
    apply wp_exec. rewrite exec_delete_peer.
    + apply wp_ret. apply Hf; [|done|done]. by apply task_ok_delete.
    + exists (mkPeer false info None). cbn. apply lookup_insert_eq.
  - intros c. set (w2 := set_connects c w1).
    assert (H2 : task_ok ps qs (s :: ks) w2).
    { apply (task_ok_irrelevant ps qs (s :: ks) (set_connects c)); [irr|done]. }
    apply wp_exec. unfold PeerOpened.
    rewrite (exec_with_peer s _ (mkPeer false info None) w2) by (cbn; apply lookup_insert_eq).
    set (w3 := set_peers _ w2). cbn [negb].
    apply wp_bind, wp_modify, wp_bind, wp_gets, wp_bind, wp_modify.
    set (st := if (_ : bool) then UPSTREAM_READY else UPSTREAM_ASSOCIATING).
    set (w4 := set_m_upstreamState st _).
    assert (Hst4 : st = UPSTREAM_READY \/ st = UPSTREAM_ASSOCIATING)
      by (subst st; case_match; auto).
    assert (Hp4 : peers w4 = <[s := mkPeer true info None]> (peers w2)) by done.
    assert (H4 : task_ok ps qs (s :: ks) w4).
    { destruct H2 as [[] Hr]. split; [|done]. constructor; auto; rewrite ?Hp4.
      - rewrite Forall_forall in *. intros q Hq. specialize (i_live q Hq).
        destruct (decide (s = q)) as [<-|Hn]; [rewrite lookup_insert_eq; by eexists|].
        by rewrite lookup_insert_ne.
      - cbn. intros s' [= <-]. split; [rewrite lookup_insert_eq; by eexists|done].
      - intros _. specialize (i_open Hst). rewrite Forall_forall in *. intros q Hq.
        rewrite lookup_insert_ne by congruence. by apply i_open.
      - cbn. intros Hw4. destruct Hst4; congruence.
      - intros q Hq. destruct (decide (s = q)) as [<-|Hn]; [cbn; lia|].
        rewrite lookup_insert_ne in Hq by done. apply i_fresh. done. }
    apply wp_bind, wp_gets. change (m_upstreamState w4 = UPSTREAM_READY \/
      m_upstreamState w4 = UPSTREAM_ASSOCIATING) in Hst4.
    set (C := fun w => task_ok ps qs (s :: ks) w /\ m_upstreamState w = m_upstreamState w4).
    assert (HC : forall p q, p ∈ ps ++ s :: ks -> keeps C (SetPartner p q)).
    { intros p q Hp w5 [H5 E5]. assert (Hl : is_Some (peers w5 !! p)).
      { destruct H5 as [[] _]. rewrite Forall_forall in i_live. by apply i_live. }
      destruct Hl as [o Ho]. split.
      - unfold SetPartner. rewrite (exec_with_peer p _ o w5 Ho).
        apply (task_ok_peer ps qs (s :: ks) w5 p o (fun o => mkPeer (p_open o) (m_CSAddrInfo o) q));
          [done|done|by left].
      - unfold SetPartner. by rewrite (exec_with_peer p _ o w5 Ho). }
    assert (HO : forall p, p ∈ ps ++ s :: ks -> keeps C (peer_open p)).
    { intros p Hp. apply keeps_wp. intros w5 [H5 E5].
      destruct H5 as [[] ?]. pose proof i_live as Hl. rewrite Forall_forall in Hl.
      destruct (Hl p Hp) as [o Ho]. apply (wp_peer_open p o); [done|]. split; [|done].
      split; [by constructor|done]. }
    apply wp_bind. eapply wp_mono.
    + apply (wp_keeps C); [|by split]. apply keeps_for_each. intros r Hr.
      assert (Hrp : peer r ∈ ps ++ s :: ks).
      { apply elem_of_app. left. destruct H4 as [[] _]. rewrite <- i_peers.
        by apply list_elem_of_fmap_2. }
      assert (Hsp : s ∈ ps ++ s :: ks) by (apply elem_of_app; right; by left).
      apply keeps_bind; [by apply HO|]. intros b. apply keeps_when.
      apply keeps_bind; [by apply HC|]. intros _. apply keeps_bind; [by apply HO|].
      intros b'. apply keeps_when. by apply HC.
    + intros [] w5 [H5 E5]. apply (task_ok_drop_ks ps qs ks s) in H5.
      apply wp_bind, wp_when; intros _.
      * unfold reset_backoff. apply wp_bind, wp_modify, wp_modify, wp_ret, Ht.
        -- apply (task_ok_irrelevant ps qs ks (set_m_lastServerError 0)); [irr|].
           apply task_ok_delay; [lia|done].
        -- cbn. by rewrite E5.
      * apply wp_ret, Ht; [done|]. by rewrite E5.
Qed.
End Inv.
