(* ===== verification/UdpTaskSafety.v ===== *)
(** * The UDP task is safe

    The rest of the operations of UdpTask.v keep [task_ok], and what follows
    for a run of events. *)

From S2P Require Import Prelude Winsock SockAddr Effects UdpPolicy UdpCapability UdpTask.
From S2P Require Import UdpTaskRules UdpTaskInv.

Section Safety.
Context {qb : QuicBridge} {text : AddressText}.

Abbreviation TM := (M task).

Section Fixed.
Variables (ps : list nat) (qs : list bool) (ks : list nat).
#[local] Abbreviation I := (task_ok ps qs ks).

(** ** Sending upstream *)

Lemma wp_server_send t data Q w :
  I w ->
  (forall n w', I w' -> m_pending w' = m_pending w -> same_upstream w w' -> Q n w') ->
  wp (server_send t data) Q w.
Proof.
  intros Hw HQ. unfold server_send, send_outcome, wp.
  destruct (up_sends w) as [|[|n|e] r].
  - apply HQ; [|done|done]. apply (task_ok_irrelevant ps qs ks (set_task_error WSAEWOULDBLOCK)); [irr|done].
  - apply HQ; [|done|done].
    apply (task_ok_irrelevant ps qs ks (fun w => set_trace (trace w ++ [TUp t data]) (set_up_sends r w)));
      [|done].
    irr. intros H. apply not_elem_of_app. split; [done|]. apply not_elem_of_cons. split; [done|].
    apply not_elem_of_nil.
  - apply HQ; [|done|done]. apply (task_ok_irrelevant ps qs ks (set_up_sends r)); [irr|done].
  - apply HQ; [|done|done].
    apply (task_ok_irrelevant ps qs ks (fun w => set_task_error e (set_up_sends r w))); [irr|done].
Qed.

Lemma wp_pop_pending p l Q w :
  I w -> m_pending w = p :: l ->
  (forall w', I w' -> m_pending w' = l -> Q tt w') -> wp pop_pending Q w.
Proof.
  intros [Hi Hr] E HQ. unfold wp. rewrite (pop_pending_eq w p l E). apply HQ; [|done].
  split; [|done]. destruct Hi. rewrite E in i_pending. constructor; auto.
  by apply (queue_ok_tail (pd_size p)).
Qed.

Lemma keeps_send_pending fuel now w :
  I w -> (length (m_pending w) <= fuel)%nat -> wp (send_pending fuel now) (fun _ => I) w.
Proof.
  revert w. induction fuel as [|fuel IH]; intros w Hw Hl; cbn [send_pending];
    apply wp_bind, wp_gets; destruct (m_pending w) as [|p l] eqn:E; try (by apply wp_ret);
    cbn in Hl; [lia|].
  apply wp_if; intros _.
  - apply wp_bind, (wp_pop_pending p l); [done|done|]. intros w' Hw' E'. apply IH; [done|].
    rewrite E'. lia.
  - apply wp_bind, wp_server_send; [done|]. intros n w' Hw' E' _.
    apply wp_if; intros _.
    + apply wp_bind, wp_gets, wp_when; [|done]. intros _.
      by apply wp_keeps; [apply keeps_ScheduleServerReconnect|].
    + apply wp_bind, (wp_pop_pending p l); [done|congruence|]. intros w2 Hw2 E2.
      apply wp_bind. unfold temit. apply wp_modify, IH; [|cbn; rewrite E2; lia].
      by apply (keeps_temit ps qs ks (TTraffic false n)).
Qed.

Lemma keeps_wake_bridges : keeps I wake_bridges.
Proof.
  apply keeps_bind; [apply keeps_gets|]. intros rs. apply keeps_for_each. intros r _.
  destruct (quic r); [by apply keeps_temit|apply keeps_ret].
Qed.

(** ** Reconnecting *)

(** Cutting the routes off the upstream peer. *)
Definition quiet (w w' : task) : Prop :=
  m_upstreamState w' = m_upstreamState w /\ m_pServer w' = m_pServer w /\
  m_pending w' = m_pending w /\ m_pendingReplies w' = m_pendingReplies w /\
  forall p, is_Some (peers w !! p) -> is_Some (peers w' !! p).

Lemma keeps_unpartner rs w0 :
  (forall r, r ∈ rs -> peer r ∈ ps) ->
  keeps (fun w => I w /\ quiet w0 w) (for_each (fun r => SetPartner (peer r) None) rs).
Proof.
  intros Hrs. apply keeps_for_each. intros r Hr w [Hw (E1 & E2 & E3 & E4 & E5)].
  destruct (live_ps ps qs ks w (peer r) Hw (Hrs r Hr)) as [o Ho].
  unfold SetPartner. rewrite (exec_with_peer _ _ o w Ho). split.
  - apply (task_ok_peer ps qs ks w (peer r) o (fun o => mkPeer (p_open o) (m_CSAddrInfo o) None));
      [done|done|by left].
  - split; [done|]. split; [done|]. split; [done|]. split; [done|]. intros p Hp. cbn.
    destruct (decide (peer r = p)) as [<-|Hn]; [rewrite lookup_insert_eq; by eexists|].
    rewrite lookup_insert_ne by done. by apply E5.
Qed.

Lemma quiet_refl w : quiet w w.
Proof. repeat split; auto. Qed.

Lemma route_peers w r : I w -> r ∈ m_routes w -> peer r ∈ ps.
Proof. intros [[] _] Hr. rewrite <- i_peers. by apply list_elem_of_fmap_2. Qed.

Lemma task_ok_no_server w : I w -> I (set_m_pServer None w).
Proof. intros [[] Hr]. split; [|done]. constructor; auto; done. Qed.

Lemma wp_delete_peer p Q w :
  I w -> is_Some (peers w !! p) -> p ∉ ps -> p ∉ ks -> m_pServer w <> Some p ->
  (forall w', I w' -> m_upstreamState w' = m_upstreamState w -> m_pServer w' = m_pServer w -> Q tt w') ->
  wp (delete_peer p) Q w.
Proof.
  intros Hw Hp H1 H2 H3 HQ. destruct Hp as [o Ho].
  unfold delete_peer. apply wp_bind, wp_gets. rewrite Ho. apply wp_modify, HQ; [|done|done].
  by apply task_ok_delete.
Qed.

(** A state of waiting without an upstream peer. *)
Lemma task_ok_wait w :
  I w -> m_upstreamState w <> UPSTREAM_CLOSING -> m_pServer w = None ->
  I (set_m_upstreamState UPSTREAM_RECONNECT_WAIT w).
Proof. intros Hw Hst Hs. apply task_ok_state; [done|done|]. intros _ s o E. congruence. Qed.

Lemma keeps_next_reconnect f : keeps I (modify (fun w => set_m_nextServerReconnect (f w) w)).
Proof. apply keeps_irr. irr. Qed.

Lemma keeps_backoff :
  keeps I (modify (fun w => set_m_serverReconnectDelay (Z.min (u32 (m_serverReconnectDelay w * 2)) 5000) w)).
Proof.
  apply keeps_modify. intros w Hw. apply task_ok_delay; [|done].
  destruct Hw as [[] _]. rewrite u32_small by lia. lia.
Qed.

Lemma wp_reconnect now Q w :
  I w -> m_upstreamState w = UPSTREAM_RECONNECT_WAIT ->
  (forall s, m_pServer w = Some s -> s ∉ ks) ->
  (forall b w', I w' -> Q b w') ->
  wp (reconnect now) Q w.
Proof.
  intros Hw Hst Hks HQ. unfold reconnect.
  apply wp_bind, wp_gets, wp_bind, wp_modify, wp_bind, wp_gets, wp_bind.
  set (w1 := set_m_pServer None w).
  assert (H1 : I w1) by by apply task_ok_no_server.
  eapply wp_mono.
  { apply wp_keeps; [apply (keeps_unpartner (m_routes w1) w1)|].
    - intros r. by apply route_peers.
    - split; [done|apply quiet_refl]. }
  intros [] w2 [H2 (E2 & S2 & _ & _ & L2)]. apply wp_bind.
  assert (Hgo : forall w3, I w3 -> m_upstreamState w3 = m_upstreamState w2 -> m_pServer w3 = m_pServer w2 ->
    wp (ok ← CreateServerPeer; if ok : bool then mret true else
      e ← get_error;
      let errorCode := if e =? 0 then WSAECONNREFUSED else e in
      failed_association errorCode
        (modify (set_m_upstreamState UPSTREAM_RECONNECT_WAIT);;
         modify (set_m_nextServerReconnect (u32 (now + 60 * 1000))))
        (modify (set_m_upstreamState UPSTREAM_RECONNECT_WAIT);;
         modify (fun w => set_m_serverReconnectDelay (Z.min (u32 (m_serverReconnectDelay w * 2)) 5000) w);;
         modify (fun w => set_m_nextServerReconnect (u32 (now + m_serverReconnectDelay w)) w));;
      mret false) Q w3).
  { intros w3 H3 E3 S3. apply wp_bind, (wp_CreateServerPeer ps qs ks).
    - done.
    - rewrite E3, E2. cbn. by rewrite Hst.
    - intros w4 H4 E4 S4. apply wp_bind, wp_gets, wp_bind.
      assert (Hst4 : m_upstreamState w4 <> UPSTREAM_CLOSING).
      { rewrite E4, E3, E2. cbn. by rewrite Hst. }
      assert (Hs4 : m_pServer w4 = None) by by rewrite S4, S3, S2.
      eapply wp_mono; [apply (wp_failed_association ps qs ks _ _ _ w4 H4)|].
      + intros c. apply wp_bind, wp_modify.
        apply wp_keeps; [apply (keeps_next_reconnect (fun _ => _))|].
        apply task_ok_wait; [|done|done].
        apply (task_ok_irrelevant ps qs ks (set_m_capability c)); [irr|done].
      + intros c. apply wp_bind, wp_modify.
        apply wp_keeps; [apply keeps_bind; [apply keeps_backoff|intros _; apply keeps_next_reconnect]|].
        apply task_ok_wait; [|done|done].
        apply (task_ok_irrelevant ps qs ks (set_m_capability c)); [irr|done].
      + intros [] w5 H5. by apply wp_ret, HQ.
    - intros w4 H4 _. by apply wp_ret, HQ. }
  destruct (m_pServer w) as [s|] eqn:Es; [|by apply wp_ret, Hgo].
  destruct Hw as [[] _]. destruct (i_server s Es) as [Hs Hps].
  apply wp_delete_peer; [done|by apply L2|done|by apply Hks|by rewrite S2|].
  intros w3 H3 E3 S3. by apply Hgo.
Qed.

Definition server_kept (w : task) : Prop :=
  m_upstreamState w = UPSTREAM_RECONNECT_WAIT -> forall s, m_pServer w = Some s -> s ∉ ks.

Lemma keeps_OnServerWritable w : I w -> server_kept w -> wp OnServerWritable (fun _ => I) w.
Proof.
  intros Hw Hks. unfold OnServerWritable. apply wp_bind, wp_gets.
  apply wp_if; intros _; [by apply wp_ret|].
  apply wp_bind, wp_gets, wp_bind, (wp_ExpirePendingDatagrams ps qs ks); [done|].
  intros w1 H1 (E1 & S1 & _). apply wp_bind, (wp_FlushPendingReplies ps qs ks); [done|].
  intros w2 H2 (E2 & S2 & _) _. apply wp_bind, wp_gets, wp_bind, wp_gets, wp_bind.
  apply (wp_mono _ (fun _ => I)).
  - apply wp_if; intros Hwait; bool_hyps; [|by apply wp_ret].
    apply wp_if; intros _; [by apply wp_ret|].
    apply wp_reconnect; [done|done| |done]. intros s Es. apply Hks; congruence.
  - intros go w3 H3. apply wp_if; intros _; [by apply wp_ret|].
    apply wp_bind, wp_gets, wp_bind.
    eapply wp_mono; [apply (wp_keeps I); [apply keeps_if; [apply keeps_server_open|apply keeps_ret]|done]|].
    intros open w4 H4. apply wp_if; intros _; [by apply wp_ret|].
    apply wp_bind, wp_gets, wp_bind.
    eapply wp_mono; [apply keeps_send_pending; [done|lia]|].
    intros [] w5 H5. apply wp_keeps; [|done].
    apply keeps_bind; [apply keeps_FlushPendingReplies|intros _; apply keeps_wake_bridges].
Qed.

(** ** The life of the upstream peer *)

Lemma keeps_WakeServerAssociation : keeps I WakeServerAssociation.
Proof.
  apply keeps_wp. intros w Hw. unfold WakeServerAssociation. apply wp_bind, wp_gets.
  apply wp_if; intros Hst; [by apply wp_ret|]. bool_hyps.
  apply wp_bind, wp_modify, wp_bind, wp_modify.
  set (w1 := set_m_serverReconnectDelay 250 _).
  assert (Hw1 : I w1).
  { apply task_ok_delay; [lia|]. by apply task_ok_state. }
  apply wp_bind, (wp_CreateServerPeer ps qs ks); [done|done|..].
  - intros w2 Hw2 _ _. apply wp_bind, wp_gets. apply wp_keeps; [|done].
    apply keeps_failed_association; [apply keeps_schedule_blocked|apply keeps_ScheduleServerReconnect].
  - intros w2 Hw2 E2. apply wp_bind, wp_gets, wp_when; [|done]. intros Hr. bool_hyps.
    apply keeps_OnServerWritable; [done|]. intros Hc. congruence.
Qed.

Lemma keeps_OnServerReady p : keeps I (OnServerReady p).
Proof.
  apply keeps_wp. intros w Hw. unfold OnServerReady. apply wp_bind, wp_gets, wp_bind, wp_gets.
  apply wp_if; intros Hst; [by apply wp_ret|]. bool_hyps.
  apply wp_bind, wp_modify, wp_bind, wp_modify.
  set (w1 := set_m_capability _ _).
  assert (Hw1 : I w1).
  { apply (task_ok_irrelevant ps qs ks (fun w1 => set_m_capability
      (ReportUdpAssociationReady (Some (m_ProxyInfo w1)) (m_capability w1)) w1)); [irr|].
    apply task_ok_state; congruence. }
  apply wp_bind. unfold reset_backoff. apply wp_bind, wp_modify, wp_modify.
  apply keeps_OnServerWritable; [|done].
  apply (task_ok_irrelevant ps qs ks (set_m_lastServerError 0)); [irr|].
  by apply task_ok_delay; [lia|].
Qed.

Lemma keeps_OnPeerClosed p e : keeps I (OnPeerClosed p e).
Proof.
  unfold OnPeerClosed. repeat keeps_step.
  - apply keeps_failed_association; [apply keeps_schedule_blocked|apply keeps_ScheduleServerReconnect].
  - apply keeps_CloseTask.
Qed.

Lemma keeps_EnterServerDormant w :
  I w -> (forall s, m_pServer w = Some s -> s ∉ ks) -> wp EnterServerDormant (fun _ => I) w.
Proof.
  intros Hw Hks. unfold EnterServerDormant.
  apply wp_bind, wp_gets, wp_bind, wp_gets, wp_bind, wp_gets.
  apply wp_if; intros Hst; [by apply wp_ret|]. bool_hyps.
  unfold reset_backoff. apply wp_bind, wp_modify, wp_bind, wp_bind, wp_modify, wp_modify.
  apply wp_bind, wp_gets, wp_bind.
  set (w1 := set_m_lastServerError 0 _).
  assert (Hw1 : I w1).
  { apply (task_ok_irrelevant ps qs ks (set_m_lastServerError 0)); [irr|].
    apply task_ok_delay; [lia|]. by apply task_ok_state. }
  eapply wp_mono.
  { apply wp_keeps; [apply (keeps_unpartner (m_routes w1) w1)|].
    - intros r. by apply route_peers.
    - split; [done|apply quiet_refl]. }
  intros [] w2 [Hw2 (E2 & S2 & _ & _ & L2)]. apply wp_bind, wp_gets, wp_bind, wp_exec.
  rewrite (exec_close_server ps qs ks w2 Hw2). apply wp_bind, wp_modify.
  set (w3 := set_m_pServer None _).
  assert (Hw3 : I w3) by by apply task_ok_no_server, task_ok_server_closed.
  destruct (m_pServer w2) as [s|] eqn:Es2; [|by apply wp_ret].
  assert (Es : m_pServer w = Some s) by by rewrite S2 in Es2.
  pose proof Hw2 as [[] _]. destruct (i_server s Es2) as [[o Ho] Hps].
  apply wp_delete_peer; [done| |done|by apply Hks|done|done].
  subst w3. unfold server_closed. rewrite Es2, Ho. cbn. rewrite lookup_insert_eq. by eexists.
Qed.

Lemma keeps_OnMaintenanceTimer w :
  I w -> (forall s, m_pServer w = Some s -> s ∉ ks) -> wp OnMaintenanceTimer (fun _ => I) w.
Proof.
  intros Hw Hks. unfold OnMaintenanceTimer. apply wp_bind, wp_gets.
  apply wp_if; intros _; [by apply wp_ret|].
  apply wp_bind, wp_gets, wp_bind, (wp_ExpirePendingDatagrams ps qs ks); [done|].
  intros w1 H1 (E1 & S1 & _). apply wp_bind, (wp_FlushPendingReplies ps qs ks); [done|].
  intros w2 H2 (E2 & S2 & _) _. apply wp_bind, wp_gets. apply wp_if; intros _; [by apply wp_ret|].
  apply wp_bind, wp_gets, wp_bind, wp_gets, wp_bind, wp_gets.
  assert (Hks2 : forall s, m_pServer w2 = Some s -> s ∉ ks).
  { intros s Es. apply Hks. congruence. }
  apply wp_if; intros _; [by apply keeps_EnterServerDormant|].
  apply keeps_OnServerWritable; [done|]. by intros _.
Qed.

(** ** Forwarding *)

Lemma keeps_ForwardUpstreamDatagram t data : keeps I (ForwardUpstreamDatagram t data).
Proof.
  apply keeps_wp. intros w0 Hw0. unfold ForwardUpstreamDatagram. apply wp_bind.
  apply (wp_mono _ (fun _ => I)); [by apply wp_keeps; [apply keeps_temit|]|]. intros [] w Hw.
  apply wp_bind, wp_gets. apply wp_if; intros _.
  { apply wp_keeps; [|done]. repeat keeps_step; [apply keeps_QueueDatagram|apply keeps_WakeServerAssociation]. }
  apply wp_bind. apply (wp_mono _ (fun _ => I)).
  { apply wp_keeps; [|done]. apply keeps_if; [apply keeps_server_open|apply keeps_ret]. }
  intros open w1 H1. apply wp_bind, wp_gets. apply wp_if; intros _.
  - apply wp_bind, wp_server_send; [done|]. intros n w2 H2 _ _.
    apply wp_keeps; [|done]. unfold get_error. repeat keeps_step; try by apply keeps_temit.
    + apply keeps_ScheduleServerReconnect.
    + apply keeps_QueueDatagram.
  - by apply wp_keeps; [apply keeps_QueueDatagram|].
Qed.

Lemma keeps_route_send p app data : p ∈ ps -> keeps I (route_send p app data).
Proof.
  intros Hp w Hw. unfold exec.
  destruct (route_send_eq p app data w) as (n & d & e & o & E & Ho & _); [by apply (live_ps ps qs ks)|].
  rewrite E. destruct Hw as [[] Hr]. split; [|done]. constructor; auto. cbn.
  apply not_elem_of_app. split; [done|]. by apply down_only_fault.
Qed.

Lemma keeps_DeliverServerDatagram r data : peer r ∈ ps -> keeps I (DeliverServerDatagram r data).
Proof.
  intros Hp. apply keeps_bind; [by apply keeps_route_send|]. intros n.
  repeat keeps_step; [by apply keeps_temit|by apply keeps_QueueReply].
Qed.
End Fixed.

(** ** Bridges *)

Definition has_bridge (r : UdpRoute) : bool := bool_decide (is_Some (quic r)).

Lemma map_alter {B} (g : UdpRoute -> B) f i (l : list UdpRoute) :
  (forall r, l !! i = Some r -> g (f r) = g r) -> map g (alter f i l) = map g l.
Proof.
  revert i. induction l as [|r l IH]; intros [|i] H; try done; cbn; f_equal; [by apply H|].
  by apply IH.
Qed.

Lemma task_ok_update ps qs ks i f w :
  task_ok ps qs ks w -> (forall r, peer (f r) = peer r) ->
  task_ok ps (map has_bridge (alter f i (m_routes w))) ks (set_m_routes (alter f i (m_routes w)) w).
Proof. intros [[] Hr] Hf. split; [|done]. constructor; auto. cbn. by rewrite map_alter. Qed.

Lemma keeps_update ps qs ks i f :
  (forall r, peer (f r) = peer r) ->
  (forall r, qs !! i = Some (has_bridge r) -> has_bridge (f r) = has_bridge r) ->
  keeps (task_ok ps qs ks) (update_route i f).
Proof.
  intros Hp Hq. apply keeps_modify. intros w Hw.
  pose proof (task_ok_update ps qs ks i f w Hw Hp) as H. rewrite map_alter in H.
  - destruct Hw as [[] _]. unfold has_bridge in H. by rewrite i_quic in H.
  - intros r Hr. apply Hq. destruct Hw as [[] _]. rewrite <- i_quic.
    by rewrite list_lookup_fmap, Hr.
Qed.

Lemma keeps_store_bridge ps qs ks i q :
  qs !! i = Some true -> keeps (task_ok ps qs ks) (store_bridge i q).
Proof.
  intros Hi. apply keeps_update; [done|]. intros r E. rewrite Hi in E. injection E as <-. done.
Qed.

Lemma wp_with_route {A} ps qs ks i (d : A) k Q w :
  task_ok ps qs ks w -> (i < length ps)%nat ->
  (forall r, m_routes w !! i = Some r -> wp (k r) Q w) -> wp (with_route i d k) Q w.
Proof.
  intros Hw Hi H. unfold with_route. apply wp_bind, wp_gets.
  destruct (m_routes w !! i) as [r|] eqn:E; [by apply H|].
  destruct Hw as [[] _]. apply lookup_ge_None in E. rewrite <- i_peers, length_map in Hi. lia.
Qed.

Lemma wp_with_bridge {A} ps qs ks i (d : A) k Q w :
  task_ok ps qs ks w -> qs !! i = Some true ->
  (forall r q, m_routes w !! i = Some r -> quic r = Some q -> wp (k r q) Q w) ->
  wp (with_bridge i d k) Q w.
Proof.
  intros Hw Hi H. pose proof Hw as [[] _].
  assert (Hl : (i < length ps)%nat).
  { apply lookup_lt_Some in Hi. rewrite <- i_quic, length_map in Hi. by rewrite <- i_peers, length_map. }
  apply (wp_with_route ps qs ks); [done|done|]. intros r Hr.
  destruct (quic r) as [q|] eqn:Eq; [by apply H|].
  rewrite <- i_quic, list_lookup_fmap, Hr in Hi. cbn in Hi. by rewrite Eq in Hi.
Qed.

Lemma keeps_pump_side side ps qs ks i n :
  qs !! i = Some true -> keeps (task_ok ps qs ks) (pump_side side i n).
Proof.
  intros Hi. induction n as [|n IH]; cbn [pump_side]; [apply keeps_ret|].
  apply keeps_wp. intros w Hw. apply (wp_with_bridge ps qs ks); [done|done|]. intros r q Hr Hq.
  destruct (Peek side q) as [d q']. apply wp_keeps; [|done].
  apply keeps_bind; [by apply keeps_store_bridge|]. intros _.
  destruct d as [[|b data]|]; [apply keeps_ret| |apply keeps_ret].
  apply keeps_bind.
  { apply keeps_if; [apply keeps_ForwardUpstreamDatagram|apply keeps_DeliverServerDatagram].
    by apply (route_peers ps qs ks w), (list_elem_of_lookup_2 _ i). }
  intros ok. apply keeps_if; [apply keeps_ret|].
  apply keeps_wp. intros w1 H1. apply (wp_with_bridge ps qs ks); [done|done|]. intros r1 q1 Hr1 Hq1.
  apply wp_keeps; [|done]. repeat keeps_step; try by apply keeps_temit.
  - by apply keeps_update.
  - by apply keeps_store_bridge.
  - apply keeps_irr. irr.
  - done.
Qed.

(** From here on which routes have a bridge may change. *)
Definition some_ok (ps ks : list nat) (w : task) : Prop := exists qs, task_ok ps qs ks w.

Lemma some_ok_intro ps qs ks w : task_ok ps qs ks w -> some_ok ps ks w.
Proof. by exists qs. Qed.

Lemma keeps_some {A} ps ks (m : TM A) :
  (forall qs, keeps (task_ok ps qs ks) m) -> keeps (some_ok ps ks) m.
Proof. intros H w [qs Hw]. exists qs. by apply H. Qed.

Lemma some_ok_update ps qs ks i f w :
  task_ok ps qs ks w -> (forall r, peer (f r) = peer r) ->
  some_ok ps ks (set_m_routes (alter f i (m_routes w)) w).
Proof. intros Hw Hf. by eapply some_ok_intro, task_ok_update. Qed.

Lemma wp_PumpQuic ps qs ks i w :
  task_ok ps qs ks w -> qs !! i = Some true -> wp (PumpQuic i) (fun _ => some_ok ps ks) w.
Proof.
  intros Hw Hi. unfold PumpQuic. apply wp_bind.
  apply (wp_mono _ (fun _ => task_ok ps qs ks)); [by apply wp_keeps; [apply keeps_pump_side|]|].
  intros _ w1 H1. apply wp_bind.
  apply (wp_mono _ (fun _ => task_ok ps qs ks)); [by apply wp_keeps; [apply keeps_pump_side|]|].
  intros _ w2 H2. apply (wp_with_bridge ps qs ks); [done|done|]. intros r q Hr Hq.
  destruct (Drained q) as [[] q'].
  - by apply wp_modify, (some_ok_update ps qs ks).
  - by apply wp_modify, (some_ok_update ps qs ks).
Qed.

(** The bridge of the route that was looked up. *)
Lemma bridge_at ps qs ks w i r :
  task_ok ps qs ks w -> m_routes w !! i = Some r -> qs !! i = Some (has_bridge r).
Proof. intros [[] _] Hr. by rewrite <- i_quic, list_lookup_fmap, Hr. Qed.

Lemma keeps_tap_route ps ks i data : keeps (some_ok ps ks) (tap_route i data).
Proof.
  apply keeps_some. intros qs. unfold tap_route. repeat keeps_step; [|by apply keeps_temit].
  by apply keeps_update.
Qed.

Lemma keeps_ForwardUpstream ps ks t data : keeps (some_ok ps ks) (ForwardUpstreamDatagram t data).
Proof. apply keeps_some. intros qs. apply keeps_ForwardUpstreamDatagram. Qed.

Lemma keeps_forward_unbridged ps ks i t data :
  (i < length ps)%nat -> keeps (some_ok ps ks) (forward_unbridged i t data).
Proof.
  intros Hi. apply keeps_wp. intros w [qs Hw]. unfold forward_unbridged.
  apply (wp_with_route ps qs ks); [done|done|]. intros r Hr. apply wp_if; intros _.
  { apply wp_keeps; [|by exists qs].
    apply keeps_bind; [apply keeps_tap_route|intros _; apply keeps_ForwardUpstream]. }
  apply wp_bind. unfold temit. apply wp_modify, wp_bind, wp_modify.
  set (w1 := set_trace _ w). set (f := fun r : UdpRoute => _).
  assert (H1 : task_ok ps qs ks w1) by by apply (keeps_temit ps qs ks (TFirstDatagram (client r))).
  pose proof (task_ok_update ps qs ks i f w1 H1 ltac:(done)) as H2.
  destruct (CQuicBridge_Open (client r) data) as [q|].
  - apply wp_bind. apply (wp_mono _ (fun _ => some_ok ps ks)); [|by intros; apply wp_ret].
    apply (wp_PumpQuic _ _ _ _ _ H2). rewrite list_lookup_fmap. cbn.
    change (m_routes w1) with (m_routes w). by rewrite list_lookup_alter_eq, Hr.
  - apply wp_keeps; [|by eexists].
    apply keeps_bind; [apply keeps_tap_route|intros _; apply keeps_ForwardUpstream].
Qed.

Lemma find_index_lt {A} (f : A -> bool) l i : find_index f l = Some i -> (i < length l)%nat.
Proof.
  revert i. induction l as [|x l IH]; intros i; cbn; [done|]. destruct (f x).
  - intros [= <-]. lia.
  - destruct (find_index f l) as [j|]; [|done]. intros [= <-]. specialize (IH j eq_refl). lia.
Qed.

Lemma find_index_Some {A} (f : A -> bool) l i x :
  find_index f l = Some i -> l !! i = Some x -> f x = true.
Proof.
  revert i. induction l as [|y l IH]; intros i; cbn; [done|]. destruct (f y) eqn:E.
  - intros [= <-]. by intros [= <-].
  - destruct (find_index f l) as [j|]; [|done]. intros [= <-]. cbn. by apply IH.
Qed.

Lemma routes_length ps qs ks w : task_ok ps qs ks w -> length (m_routes w) = length ps.
Proof. intros [[] _]. by rewrite <- i_peers, length_map. Qed.

Lemma keeps_ForwardClientDatagram ps ks p t app data :
  keeps (some_ok ps ks) (ForwardClientDatagram p t app data).
Proof.
  apply keeps_wp. intros w0 [qs0 Hw0]. unfold ForwardClientDatagram.
  apply wp_bind, wp_modify. set (w := set_m_lastActivity (tick w0) w0).
  assert (Hw : task_ok ps qs0 ks w).
  { apply (task_ok_irrelevant ps qs0 ks (fun w => set_m_lastActivity (tick w) w)); [irr|done]. }
  apply wp_bind, wp_gets. destruct (find_index _ _) as [i|] eqn:Ei.
  2: { apply wp_keeps; [apply keeps_ForwardUpstream|by exists qs0]. }
  assert (Hi : (i < length ps)%nat).
  { apply find_index_lt in Ei. by rewrite (routes_length _ _ _ _ Hw) in Ei. }
  apply wp_bind, wp_modify, wp_bind.
  match goal with |- wp _ _ (set_m_routes ?l ?w0) => set (w1 := set_m_routes l w0) end.
  assert (H1 : some_ok ps ks w1) by by eapply some_ok_update.
  destruct H1 as [qs1 H1].
  apply (wp_mono _ (fun _ => some_ok ps ks)).
  { apply (wp_with_route ps qs1 ks); [done|done|]. intros r Hr.
    pose proof (bridge_at _ _ _ _ _ _ H1 Hr) as Hb.
    apply wp_when; [|by exists qs1]. intros E. apply (wp_PumpQuic ps qs1 ks); [done|].
    rewrite Hb. by unfold has_bridge; rewrite E. }
  intros _ w2 [qs2 H2]. apply (wp_with_route ps qs2 ks); [done|done|]. intros r Hr.
  apply wp_if; intros _; [apply wp_ret; by exists qs2|].
  pose proof (bridge_at _ _ _ _ _ _ H2 Hr) as Hb.
  apply wp_bind. apply (wp_mono _ (fun _ => task_ok ps qs2 ks)).
  { apply wp_keeps; [|done]. apply keeps_when. by apply keeps_update. }
  intros _ w3 H3. destruct (quic r) as [q|] eqn:Eq.
  - destruct (Feed false data q) as [retained q']. unfold has_bridge in Hb. rewrite Eq in Hb.
    apply wp_bind. apply (wp_mono _ (fun _ => task_ok ps qs2 ks)).
    { apply wp_keeps; [|done]. by apply keeps_store_bridge. }
    intros _ w4 H4. apply wp_bind.
    eapply wp_mono; [by apply (wp_PumpQuic ps qs2 ks)|]. intros [] w5 H5.
    apply wp_if; intros _; [by apply wp_ret|].
    by apply wp_keeps; [apply keeps_ForwardUpstream|].
  - apply wp_keeps; [by apply keeps_forward_unbridged|by exists qs2].
Qed.

(** Which route a reply takes is looked up without a change. *)
Definition index_ok (n : nat) (o : option nat) : Prop :=
  match o with Some i => (i < n)%nat | None => True end.

Lemma wp_select_route ps qs ks source n i cand count rs Q w :
  task_ok ps qs ks w -> (forall r, r ∈ rs -> peer r ∈ ps) ->
  index_ok n cand -> (i + length rs <= n)%nat ->
  (forall a b c, index_ok n a -> index_ok n b -> Q (a, b, c) w) ->
  wp (select_route source i cand count rs) Q w.
Proof.
  intros Hw. revert i cand count. induction rs as [|r rs IH]; intros i cand count Hrs Hc Hl HQ;
    cbn [select_route]; [by apply wp_ret, HQ|]. cbn in Hl.
  assert (Hrs' : forall r', r' ∈ rs -> peer r' ∈ ps) by (intros r' ?; apply Hrs; by right).
  destruct (live_ps ps qs ks w (peer r) Hw) as [o Ho]; [apply Hrs; by left|].
  apply wp_bind, (wp_peer_open _ o); [done|].
  repeat (apply wp_if; intros _).
  all: try (apply IH; [done|cbn; try done; lia|lia|done]).
  apply wp_ret, HQ; [cbn; lia|done].
Qed.

Lemma wp_choose_route ps qs ks source Q w :
  task_ok ps qs ks w -> (forall o, index_ok (length ps) o -> Q o w) -> wp (choose_route source) Q w.
Proof.
  intros Hw HQ. unfold choose_route. apply wp_bind, wp_gets, wp_bind.
  assert (Hrs : forall r, r ∈ m_routes w -> peer r ∈ ps) by (intros r; by eapply route_peers).
  pose proof (routes_length _ _ _ _ Hw) as Hl.
  apply (wp_select_route ps qs ks _ (length ps)); [done|done|done|cbn; lia|].
  intros a b c Ha Hb. destruct a as [i|]; [by apply wp_ret, HQ|].
  apply wp_if; intros _; [by apply wp_ret, HQ|].
  destruct (m_routes w) as [|r []] eqn:Er; try (by apply wp_ret, HQ).
  apply wp_if; intros _; [|by apply wp_ret, HQ].
  destruct (live_ps ps qs ks w (peer r) Hw) as [o Ho]; [apply Hrs; rewrite ?Er; by left|].
  apply wp_bind, (wp_peer_open _ o); [done|]. apply wp_ret, HQ.
  destruct (p_open o); [|done]. cbn in *. lia.
Qed.

Lemma keeps_ForwardServerDatagram ps ks source data :
  keeps (some_ok ps ks) (ForwardServerDatagram source data).
Proof.
  apply keeps_wp. intros w [qs Hw]. unfold ForwardServerDatagram.
  apply wp_bind, (wp_choose_route ps qs ks); [done|]. intros [i|] Hi; [|apply wp_ret; by exists qs].
  apply wp_bind, wp_modify. set (w1 := set_m_lastActivity (tick w) w).
  assert (H1 : task_ok ps qs ks w1).
  { apply (task_ok_irrelevant ps qs ks (fun w => set_m_lastActivity (tick w) w)); [irr|done]. }
  apply (wp_with_route ps qs ks); [done|done|]. intros r Hr.
  pose proof (bridge_at _ _ _ _ _ _ H1 Hr) as Hb. unfold has_bridge in Hb.
  destruct (quic r) as [q|] eqn:Eq.
  - destruct (Feed true data q) as [_b q']. apply wp_bind.
    apply (wp_mono _ (fun _ => task_ok ps qs ks)).
    { apply wp_keeps; [|done]. by apply keeps_store_bridge. }
    intros _ w2 H2. apply wp_bind. eapply wp_mono; [by apply (wp_PumpQuic ps qs ks)|].
    intros [] w3 H3. by apply wp_ret.
  - apply (wp_mono _ (fun _ => task_ok ps qs ks)); [|intros _ w2 H2; by exists qs].
    apply wp_keeps; [|done]. repeat keeps_step; try by apply keeps_temit.
    + by apply keeps_update.
    + apply keeps_DeliverServerDatagram. eapply (route_peers ps qs ks w1); [done|].
      by apply (list_elem_of_lookup_2 _ i).
Qed.

Lemma keeps_OnRouteWritable ps ks p : keeps (some_ok ps ks) (OnRouteWritable p).
Proof.
  apply keeps_wp. intros w [qs Hw]. unfold OnRouteWritable.
  apply wp_bind, (wp_FlushPendingReplies ps qs ks); [done|]. intros w1 H1 _ _.
  apply wp_bind, wp_gets. destruct (find_index _ _) as [i|] eqn:Ei; [|apply wp_ret; by exists qs].
  apply (wp_PumpQuic ps qs ks); [done|].
  pose proof (find_index_lt _ _ _ Ei) as Hl. apply lookup_lt_is_Some in Hl as [r Hr].
  rewrite (bridge_at _ _ _ _ _ _ H1 Hr). pose proof (find_index_Some _ _ _ _ Ei Hr) as Hf.
  apply andb_true_iff in Hf as [_ Hf]. unfold has_bridge. by rewrite Hf.
Qed.

(** ** Adding a route *)

Lemma task_ok_add_route ps qs ks c p info pt w :
  task_ok ps qs (p :: ks) w -> p ∉ ps -> m_pServer w <> Some p ->
  peers w !! p = Some (mkPeer true info pt) ->
  task_ok (ps ++ [p]) (qs ++ [false]) ks
    (set_m_routes (m_routes w ++ [mkRoute c p None false false None false no_target]) w).
Proof.
  intros [[] Hr] Hp Hs Ho. split; [|done]. constructor; cbn; auto.
  - by rewrite map_app, i_peers.
  - by rewrite map_app, i_quic.
  - apply NoDup_app. split; [done|]. split; [|apply NoDup_singleton].
    intros q Hq Hin. apply list_elem_of_singleton in Hin as ->. done.
  - rewrite <- app_assoc. exact i_live.
  - intros s Es. destruct (i_server s Es) as [H1 H2]. split; [done|].
    apply not_elem_of_app. split; [done|]. intros Hin. apply list_elem_of_singleton in Hin as ->. done.
  - intros Hst. apply Forall_app. split; [by apply i_open|]. apply Forall_singleton. by rewrite Ho.
  - eapply Forall_impl; [exact i_replies|]. intros r H. apply elem_of_app. by left.
Qed.

Definition any_ok (ks : list nat) (w : task) : Prop := exists ps qs, task_ok ps qs ks w.

Lemma any_ok_intro ps qs ks w : task_ok ps qs ks w -> any_ok ks w.
Proof. by exists ps, qs. Qed.

Lemma any_ok_some ps ks w : some_ok ps ks w -> any_ok ks w.
Proof. intros [qs H]. by exists ps, qs. Qed.

Lemma keeps_any {A} ks (m : TM A) :
  (forall ps, keeps (some_ok ps ks) m) -> keeps (any_ok ks) m.
Proof. intros H w (ps & qs & Hw). eapply any_ok_some, H. by exists qs. Qed.

Lemma keeps_any_fixed {A} ks (m : TM A) :
  (forall ps qs, keeps (task_ok ps qs ks) m) -> keeps (any_ok ks) m.
Proof. intros H. apply keeps_any. intros ps. by apply keeps_some. Qed.

Lemma any_ok_irrelevant ks f w : irrelevant f -> any_ok ks w -> any_ok ks (f w).
Proof. intros Hf (ps & qs & Hw). exists ps, qs. by apply task_ok_irrelevant. Qed.

(** The upstream state stays as it is. *)
Definition ok_at (ks : list nat) (st : UpstreamState) (w : task) : Prop :=
  any_ok ks w /\ m_upstreamState w = st.

Lemma ok_at_intro ps qs ks st w : task_ok ps qs ks w -> m_upstreamState w = st -> ok_at ks st w.
Proof. split; [by exists ps, qs|done]. Qed.

Lemma keeps_add_new_route ks st c : keeps (ok_at ks st) (add_new_route c).
Proof.
  apply keeps_wp. intros w [(ps & qs & Hw) Hst]. unfold add_new_route.
  apply wp_bind, wp_gets, wp_bind. unfold new_peer. unfold wp at 1. set (p := next_peer w).
  set (info := SetAddrInfo _).
  destruct (task_ok_new_peer ps qs ks info (m_pServer w) w Hw) as (H1 & Hps & Hks & Hs).
  fold p in H1, Hps, Hks, Hs. set (w1 := set_next_peer _ _) in *.
  apply wp_bind, wp_gets, wp_bind, wp_modify. set (w2 := set_sockets _ w1).
  assert (H2 : task_ok ps qs (p :: ks) w2).
  { apply (task_ok_irrelevant ps qs (p :: ks) (set_sockets (tail (sockets w1)))); [irr|done]. }
  assert (Hp2 : peers w2 !! p = Some (mkPeer false info (m_pServer w))) by apply lookup_insert_eq.
  assert (Hdel : wp (delete_peer p;; mret (false, c)) (fun _ => ok_at ks st) w2).
  { apply wp_bind, (wp_delete_peer ps qs ks); [|by eexists|done|done|done|].
    - by eapply task_ok_drop_ks.
    - intros w3 H3 E3 _. apply wp_ret, (ok_at_intro ps qs); [done|]. by rewrite E3. }
  destruct (sockets w1) as [|[a|] socks]; [exact Hdel| |exact Hdel].
  apply wp_bind, wp_exec. unfold PeerOpened. rewrite (exec_with_peer p _ _ w2 Hp2).
  set (w3 := set_peers _ w2).
  assert (H3 : task_ok ps qs (p :: ks) w3).
  { destruct H2 as [[] Hr]. split; [|done]. constructor; cbn; auto.
    - rewrite Forall_forall in *. intros q Hq. specialize (i_live q Hq).
      destruct (decide (p = q)) as [<-|Hn]; [rewrite lookup_insert_eq; by eexists|].
      by rewrite lookup_insert_ne.
    - intros s Es. destruct (i_server s Es). rewrite lookup_insert_ne by (intros ->; done). done.
    - intros Hc. specialize (i_open Hc). rewrite Forall_forall in *. intros q Hq.
      rewrite lookup_insert_ne by (intros ->; done). by apply i_open.
    - intros Hc s o Es. rewrite lookup_insert_ne by (intros ->; done). by apply i_wait.
    - intros q Hq. destruct (decide (p = q)) as [<-|Hn]; [cbn; lia|].
      rewrite lookup_insert_ne in Hq by done. by apply i_fresh. }
  apply wp_bind, wp_modify.
  match goal with |- wp _ _ ?x => set (w4 := x) end.
  assert (H4 : task_ok (ps ++ [p]) (qs ++ [false]) ks w4).
  { apply (task_ok_add_route ps qs ks _ p info (m_pServer w)); [done|done|done|].
    cbn. apply lookup_insert_eq. }
  apply wp_bind, wp_gets, wp_bind.
  assert (Hst4 : m_upstreamState w4 = st) by done.
  apply wp_when; intros _; [|by apply wp_ret; eapply ok_at_intro].
  apply wp_bind. unfold for_server. apply wp_bind, wp_gets.
  destruct (m_pServer w4) as [s|] eqn:Es.
  2: { apply wp_ret, wp_modify, wp_ret. apply (ok_at_intro (ps ++ [p]) (qs ++ [false])); [|done].
       apply (task_ok_irrelevant _ _ _ (set_m_LocalProxyUdpPort (GetPort a))); [irr|done]. }
  destruct (live_server _ _ _ w4 s H4 Es) as [o Ho]. apply wp_exec. unfold SetPartner.
  rewrite (exec_with_peer s _ o w4 Ho). apply wp_modify, wp_ret.
  apply (ok_at_intro (ps ++ [p]) (qs ++ [false])); [|done].
  apply (task_ok_irrelevant _ _ _ (set_m_LocalProxyUdpPort (GetPort a))); [irr|].
  apply (task_ok_peer _ _ _ w4 s o (fun o => mkPeer (p_open o) (m_CSAddrInfo o) (Some p)));
    [done|done|by left].
Qed.

(** A route whose socket is still there is reused; the other branch needs a
    task that is closing. *)
Lemma keeps_AddRoute ks st c : st <> UPSTREAM_CLOSING -> keeps (ok_at ks st) (AddRoute c).
Proof.
  intros Hst. apply keeps_wp. intros w Hw. pose proof Hw as [(ps & qs & H1) E].
  unfold AddRoute. apply wp_bind, wp_gets.
  destruct (find_index _ _) as [i|] eqn:Ei; [|by apply wp_keeps; [apply keeps_add_new_route|]].
  pose proof (find_index_lt _ _ _ Ei) as Hl. apply lookup_lt_is_Some in Hl as [r Hr]. rewrite Hr.
  assert (Hp : peer r ∈ ps) by (eapply route_peers; [done|]; by apply (list_elem_of_lookup_2 _ i)).
  pose proof H1 as [[] _]. rewrite <- E in Hst. specialize (i_open Hst).
  rewrite Forall_forall in i_open. specialize (i_open _ Hp).
  destruct (peers w !! peer r) as [o|] eqn:Eo; [|done]. cbn in i_open.
  apply wp_bind, (wp_peer_open _ o); [done|]. replace (p_open o) with true by congruence.
  apply wp_bind, wp_modify, wp_ret.
  eapply ok_at_intro; [by eapply task_ok_update|done].
Qed.

(** A task starts with its first route, waiting for a datagram. *)
Lemma wp_SetTaskInfo ks c p w :
  ok_at ks UPSTREAM_ROUTE_RESERVED w ->
  wp (SetTaskInfo c p) (fun r w' => fst r = true -> any_ok ks w') w.
Proof.
  intros Hw. unfold SetTaskInfo. apply wp_bind, wp_modify, wp_bind, wp_modify.
  set (w1 := set_m_ProxyInfo p _).
  assert (H1 : ok_at ks UPSTREAM_ROUTE_RESERVED w1).
  { destruct Hw as [(ps & qs & Hw) E]. apply (ok_at_intro ps qs); [|done].
    apply (task_ok_irrelevant ps qs ks (fun w => set_m_ProxyInfo p (set_m_PRCClient c w))); [irr|done]. }
  apply wp_bind. eapply wp_mono; [by apply wp_keeps; [apply keeps_AddRoute|exact H1]|].
  intros [[] c'] w2 [(ps & qs & H2) E2].
  - apply wp_bind, wp_modify, wp_ret. intros _. exists ps, qs.
    apply task_ok_state; [done|congruence|done].
  - apply wp_bind. eapply wp_mono; [apply (wp_exec _ (fun _ => True)); done|].
    intros [] w3 _. by apply wp_bind, wp_modify, wp_ret.
Qed.

(** ** The end of a task *)

Definition freed (l : list nat) (h : gmap nat CPRCUdpPeer) : gmap nat CPRCUdpPeer :=
  fold_left (fun h p => delete p h) l h.

Lemma freed_lookup l h p : p ∉ l -> freed l h !! p = h !! p.
Proof.
  revert h. induction l as [|q l IH]; intros h Hp; [done|].
  apply not_elem_of_cons in Hp as [Hq Hp]. cbn. rewrite IH by done. by apply lookup_delete_ne.
Qed.

Lemma freed_gone l h p : p ∈ l -> freed l h !! p = None.
Proof.
  revert h. induction l as [|q l IH]; intros h Hp; [by apply elem_of_nil in Hp|]. cbn.
  destruct (decide (p ∈ l)) as [Hin|Hn]; [by apply IH|]. rewrite freed_lookup by done.
  apply elem_of_cons in Hp as [->|?]; [by rewrite lookup_delete_eq|done].
Qed.

Lemma exec_drop_peer p w :
  is_Some (peers w !! p) ->
  exec (PeerClose p;; delete_peer p) w = set_peers (delete p (peers w)) w.
Proof.
  intros [o Ho]. rewrite exec_bind. unfold PeerClose. rewrite (exec_with_peer p _ o w Ho).
  rewrite exec_delete_peer by (cbn; rewrite lookup_insert_eq; by eexists). cbn.
  by rewrite delete_insert_eq.
Qed.

Lemma exec_drop_routes rs w :
  NoDup (map peer rs) -> Forall (fun p => is_Some (peers w !! p)) (map peer rs) ->
  exec (for_each (fun r => PeerClose (peer r);; delete_peer (peer r)) rs) w
    = set_peers (freed (map peer rs) (peers w)) w.
Proof.
  revert w. induction rs as [|r rs IH]; intros w Hn Hl; cbn [for_each]; [by destruct w|].
  cbn in Hn, Hl. apply NoDup_cons in Hn as [Hr Hn]. apply Forall_cons in Hl as [H1 Hl].
  rewrite exec_bind, exec_drop_peer by done. rewrite IH; [done|done|]. cbn.
  rewrite Forall_forall in *. intros p Hp. rewrite lookup_delete_ne; [by apply Hl|].
  by intros <-.
Qed.

Lemma exec_EndTask w :
  any_ok [] w ->
  exec EndTask w =
    set_m_pServer None (set_m_pendingReplyBytes 0 (set_m_pendingReplies [] (set_m_pendingBytes 0
      (set_m_pending [] (set_m_routes [] (set_m_upstreamState UPSTREAM_CLOSING
        (set_peers (freed (map peer (m_routes w) ++ option_list (m_pServer w)) (peers w)) w))))))).
Proof.
  intros (ps & qs & [[] Hr]). unfold EndTask. rewrite exec_bind.
  set (w1 := exec _ w). rewrite exec_bind. cbn [eval fst gets]. rewrite exec_bind.
  change (m_routes (exec _ w1)) with (m_routes w). change (m_routes w1) with (m_routes w).
  change (exec (gets m_routes) w1) with w1.
  rewrite exec_drop_routes; [|by rewrite i_peers|rewrite i_peers; by apply Forall_app in i_live as [? _]].
  unfold for_server. rewrite !exec_bind. cbn. change (m_pServer w1) with (m_pServer w).
  destruct (m_pServer w) as [s|] eqn:Es.
  - destruct (i_server s eq_refl) as [Hs Hps].
    rewrite exec_bind.
    destruct Hs as [o Ho]. unfold PeerClose.
    rewrite (exec_with_peer s _ o) by (cbn; by rewrite freed_lookup by by rewrite i_peers).
    rewrite exec_bind, exec_delete_peer by (cbn; rewrite lookup_insert_eq; by eexists).
    cbn. rewrite delete_insert_eq. unfold freed. by rewrite fold_left_app.
  - cbn. rewrite app_nil_r. destruct w; cbn in *. by subst.
Qed.

(** ** Runs *)

(** What the outside does to a task.  Every event but the first three is a
    callback of a peer or of the manager. *)
Inductive event :=
  | Environment (now : Z) (connects : list (option Z)) (sockets : list (option _SockAddr))
      (up_sends down_sends : list send_result) (tap : bool)
  | NewRoute (c : PRCClient)
  | Maintenance
  | Received (p : nat) (from : _SockAddr) (data : bytes)
  | Writable (p : nat)
  | Connected (p : nat) (nErrorCode : Z)
  | Closed (p : nat) (nErrorCode : Z).

Definition set_outside (now : Z) (cs : list (option Z)) (ss : list (option _SockAddr))
    (us ds : list send_result) (tap : bool) (w : task) : task :=
  mkTask (m_PRCClient w) (m_ProxyInfo w) (m_LocalProxyUdpPort w) (m_routes w) (m_pending w)
    (m_pendingBytes w) (m_pendingReplies w) (m_pendingReplyBytes w) (m_pServer w) (m_upstreamState w)
    (m_lastActivity w) (m_nextServerReconnect w) (m_serverReconnectDelay w) (m_lastServerError w)
    (m_capability w) (peers w) (next_peer w) now cs ss us ds tap (task_error w) (trace w).

Definition handle (e : event) : TM unit :=
  match e with
  | Environment now cs ss us ds tap => modify (set_outside now cs ss us ds tap)
  | NewRoute c => AddRoute c;; mret tt
  | Maintenance => OnMaintenanceTimer
  | Received p from data => peer_OnReceive p from data;; mret tt
  | Writable p => peer_OnSend p
  | Connected p e => peer_OnConnect p e
  | Closed p e => peer_OnClose p e
  end.

(** The peer whose callback an event is. *)
Definition event_peer (e : event) : option nat :=
  match e with
  | Received p _ _ | Writable p | Connected p _ | Closed p _ => Some p
  | _ => None
  end.

(** Callbacks come from the task's peers, while their socket is open; the
    manager drops a closed task before it adds a route to it. *)
Definition owns (p : nat) (w : task) : Prop :=
  m_pServer w = Some p \/ p ∈ map peer (m_routes w).
Definition allowed (e : event) (w : task) : Prop :=
  match event_peer e with
  | Some p => owns p w /\ p_open <$> peers w !! p = Some true
  | None => match e with NewRoute _ => m_upstreamState w <> UPSTREAM_CLOSING | _ => True end
  end.

(** The tasks that come about: [SetTaskInfo] succeeded, then events. *)
Inductive reachable : task -> Prop :=
  | reach_start now cs ss us ds tap c p w :
      w = set_outside now cs ss us ds tap (new_task now) ->
      fst (eval (SetTaskInfo c p) w) = true ->
      reachable (exec (SetTaskInfo c p) w)
  | reach_step w e :
      reachable w -> allowed e w -> reachable (exec (handle e) w).

Lemma close_then_CloseTask p o w :
  peers w !! p = Some o ->
  exec (PeerClose p;; CloseTask) w = exec (PeerClose p;; CloseTask) (set_m_upstreamState UPSTREAM_CLOSING w).
Proof.
  intros Ho. rewrite !exec_bind. unfold PeerClose.
  rewrite (exec_with_peer p _ o w Ho),
    (exec_with_peer p _ o (set_m_upstreamState UPSTREAM_CLOSING w) Ho).
  unfold CloseTask. by rewrite exec_bind, (exec_bind (modify (set_m_upstreamState _))).
Qed.

Lemma keeps_peer_OnClose ps qs ks p e w :
  task_ok ps qs ks w -> owns p w -> task_ok ps qs ks (exec (peer_OnClose p e) w).
Proof.
  intros Hw Hp. unfold peer_OnClose.
  destruct (decide (m_pServer w = Some p)) as [Hs|Hs].
  - destruct (live_server _ _ _ w p Hw Hs) as [o Ho]. rewrite exec_bind.
    apply keeps_OnPeerClosed. unfold PeerClose. rewrite (exec_with_peer p _ o w Ho).
    apply (task_ok_peer _ _ _ w p o (fun o => mkPeer false (m_CSAddrInfo o) (m_pPartner o))); [done|done|].
    right. left. split; [|done]. pose proof Hw as [[] _]. by apply i_server.
  - destruct Hp as [?|Hp]; [done|].
    assert (Hps : p ∈ ps) by (destruct Hw as [[] _]; by rewrite <- i_peers).
    destruct (live_ps _ _ _ w p Hw Hps) as [o Ho].
    assert (E : exec (PeerClose p;; OnPeerClosed p e) w = exec (PeerClose p;; CloseTask) w).
    { rewrite !exec_bind. unfold PeerClose. rewrite (exec_with_peer p _ o w Ho).
      unfold OnPeerClosed. rewrite exec_bind. cbn [eval fst gets m_pServer set_peers exec snd].
      rewrite exec_bind. cbn. by rewrite bool_decide_eq_false_2. }
    rewrite E, (close_then_CloseTask p o w Ho), exec_bind.
    set (w1 := set_m_upstreamState UPSTREAM_CLOSING w).
    assert (H1 : task_ok ps qs ks w1) by by apply task_ok_state.
    apply keeps_CloseTask. unfold PeerClose. rewrite (exec_with_peer p _ o w1 Ho).
    apply (task_ok_peer _ _ _ w1 p o (fun o => mkPeer false (m_CSAddrInfo o) (m_pPartner o))); [done|done|].
    by right; right.
Qed.

Lemma any_ok_keep ks ks' w :
  any_ok ks w -> Forall (fun p => is_Some (peers w !! p)) ks' -> any_ok ks' w.
Proof. intros (ps & qs & Hw) H. exists ps, qs. by eapply task_ok_keep. Qed.

(** The upstream peer with a callback is not waiting to be replaced. *)
Lemma open_server_kept ps qs ks p w :
  task_ok ps qs ks w -> owns p w -> p_open <$> peers w !! p = Some true ->
  forall s, m_upstreamState w = UPSTREAM_RECONNECT_WAIT -> m_pServer w = Some s -> s <> p.
Proof.
  intros [[] _] Hp Ho s Hst Hs ->. destruct (peers w !! p) as [o|] eqn:E; [|done].
  cbn in Ho. specialize (i_wait Hst p o Hs E). congruence.
Qed.

Lemma handle_ok e w :
  any_ok [] w -> allowed e w -> any_ok (option_list (event_peer e)) (exec (handle e) w).
Proof.
  intros Hw Ha.
  assert (Hk : any_ok (option_list (event_peer e)) w).
  { eapply any_ok_keep; [done|]. unfold allowed in Ha. destruct (event_peer e) as [p|]; [|done].
    destruct Ha as [_ Ho]. apply Forall_singleton. by destruct (peers w !! p). }
  destruct e as [now cs ss us ds tap|c| |p from data|p|p e|p e];
    cbn [event_peer option_list handle] in *; unfold allowed in Ha; cbn [event_peer] in Ha.
  - by apply (any_ok_irrelevant [] (set_outside now cs ss us ds tap)); [irr|].
  - rewrite exec_bind. cbn [exec snd]. eapply (keeps_AddRoute [] _ c Ha). by split.
  - destruct Hk as (ps & qs & Hk). exists ps, qs. apply wp_exec.
    apply keeps_OnMaintenanceTimer; [done|]. intros s _. apply not_elem_of_nil.
  - rewrite exec_bind. cbn [exec snd]. destruct Hk as (ps & qs & Hk). unfold peer_OnReceive.
    rewrite !exec_bind. cbn.
    assert (Hl : is_Some (peers w !! p)) by (apply (live_ks _ _ _ w p Hk); by left).
    destruct Hl as [o Ho]. rewrite Ho. apply (any_ok_some ps).
    assert (H : some_ok ps [p] w) by by exists qs.
    case_bool_decide; [by apply keeps_ForwardServerDatagram|by apply keeps_ForwardClientDatagram].
  - destruct Hk as (ps & qs & Hk), Ha as [Hp Ho]. unfold peer_OnSend. rewrite exec_bind. cbn.
    case_bool_decide as Hs.
    + exists ps, qs. apply wp_exec, keeps_OnServerWritable; [done|]. intros Hst s Es Hin.
      apply list_elem_of_singleton in Hin. by eapply (open_server_kept _ _ _ p w).
    + apply (any_ok_some ps). apply keeps_OnRouteWritable. by exists qs.
  - destruct Hk as (ps & qs & Hk), Ha as [Hp Ho]. unfold peer_OnConnect. rewrite exec_bind. cbn.
    exists ps, qs. case_bool_decide as Hs; cbn [negb]; [|done].
    destruct (e =? 0); [by apply keeps_OnServerReady|by apply keeps_peer_OnClose].
  - destruct Hk as (ps & qs & Hk), Ha as [Hp Ho]. exists ps, qs. by apply keeps_peer_OnClose.
Qed.

Lemma new_task_ok now : ok_at [] UPSTREAM_ROUTE_RESERVED (new_task now).
Proof.
  apply (ok_at_intro [] []); [|done]. split; [|apply queue_ok_nil].
  constructor; cbn; try done; try (by constructor); try lia; try apply queue_ok_nil; try apply not_elem_of_nil.
  - intros p H. rewrite lookup_empty in H. by destruct H.
Qed.

Lemma reachable_ok w : reachable w -> any_ok [] w.
Proof.
  induction 1 as [now cs ss us ds tap c p w -> Hok|w e Hw IH Ha].
  - pose proof (wp_SetTaskInfo [] c p (set_outside now cs ss us ds tap (new_task now))) as H.
    unfold wp, exec in *. unfold eval in Hok.
    destruct (SetTaskInfo c p _) as [r w']. apply H; [|done].
    destruct (new_task_ok now) as [H1 H2]. split; [|done].
    by apply (any_ok_irrelevant [] (set_outside now cs ss us ds tap)); [irr|].
  - eapply any_ok_keep; [by apply handle_ok|by constructor].
Qed.

(** ** The properties *)

(** C10: However the events of a UDP task interleave (datagrams from the
    application and from the upstream, writability, connects, closes, new
    routes, the maintenance timer, every result of a send, a connect or a
    socket), no peer object is used after it was deleted, the two queues hold
    at most 128 datagrams and 1 MiB with their recorded size right, and the
    reconnect delay stays between 250 and 5000 ms. *)
Theorem udp_task_safe (w : task) :
  reachable w ->
  TFault ∉ trace w /\
  (length (m_pending w) <= maxPackets)%nat /\
  m_pendingBytes w = total (map pd_size (m_pending w)) /\ m_pendingBytes w <= maxBytes /\
  (length (m_pendingReplies w) <= maxPackets)%nat /\
  m_pendingReplyBytes w = total (map pr_size (m_pendingReplies w)) /\
  m_pendingReplyBytes w <= maxBytes /\
  250 <= m_serverReconnectDelay w <= 5000.
Proof.
  intros Hr. destruct (reachable_ok w Hr) as (ps & qs & [[] Hq]).
  destruct i_pending as (-> & _ & H1 & H2), Hq as (-> & _ & H3 & H4).
  rewrite length_map in H2, H4. tauto.
Qed.

(** The task never deletes the peer whose callback is running: its object
    is still there when the callback returns, so the layers below it can
    finish with it. *)
Theorem callback_peer_survives (w : task) (e : event) (p : nat) :
  reachable w -> allowed e w -> event_peer e = Some p ->
  is_Some (peers (exec (handle e) w) !! p).
Proof.
  intros Hr Ha Hp. pose proof (handle_ok e w (reachable_ok w Hr) Ha) as (ps & qs & H).
  rewrite Hp in H. apply (live_ks ps qs [p]); [done|]. by left.
Qed.

(** Ending a task deletes each of its peers once, the others stay, and
    nothing is left queued: no fault, no route, no upstream peer. *)
Theorem EndTask_frees (w : task) :
  reachable w ->
  let w' := exec EndTask w in
  (TFault ∉ trace w') /\
  (forall p, owns p w -> peers w' !! p = None) /\
  (forall p, ~ owns p w -> peers w' !! p = peers w !! p) /\
  m_routes w' = [] /\ m_pServer w' = None /\ m_pending w' = [] /\ m_pendingReplies w' = [] /\
  m_pendingBytes w' = 0 /\ m_pendingReplyBytes w' = 0 /\ m_upstreamState w' = UPSTREAM_CLOSING.
Proof.
  intros Hr w'. subst w'. pose proof (reachable_ok w Hr) as Hok. rewrite (exec_EndTask w Hok).
  destruct Hok as (ps & qs & [[] _]). split; [done|].
  assert (Hown : forall p, owns p w <-> p ∈ map peer (m_routes w) ++ option_list (m_pServer w)).
  { intros p. unfold owns. rewrite elem_of_app. destruct (m_pServer w) as [s|]; cbn.
    - rewrite list_elem_of_singleton. naive_solver.
    - rewrite elem_of_nil. naive_solver. }
  split; [|split; [|done]]; intros p Hp; rewrite Hown in Hp; cbn.
  - by apply freed_gone.
  - by apply freed_lookup.
Qed.
End Safety.

(** ** A concrete task *)

Definition no_bridge : QuicBridge := {|
  bridge := unit; CQuicBridge_Open _ _ := None; Feed _ _ q := (false, q);
  Peek _ q := (None, q); Consume _ q := q; Passthrough _ := false; Drained q := (true, q);
  WasMitm _ := false |}.
Definition no_text : AddressText := {| ProxyInetPtonA _ _ := None; uninit_sockaddr := replicate 24 0 |}.

(** 8.8.8.8:53 through a SOCKS5 proxy, from 127.0.0.1:4000. *)
Definition v4_address (port ip : Z) : _SockAddr :=
  SetPort port (SetIPLong ip (mkSockAddr AF_INET 0 (replicate 24 0))).
Definition resolver : _SockAddr := v4_address 53 134744072.
Definition application_address : _SockAddr := v4_address 4000 16777343.
Definition some_client : PRCClient :=
  mkPRCClient 7 1 1 2 5 [] application_address resolver SockAddr.Clear 0 0 SockAddr.Clear.
Definition some_proxy : ProxyInfo :=
  mkProxyInfo (ascii_bytes "p") (ascii_bytes "SOCKS5") (ascii_bytes "proxy") 1080 [] [] 0 [].

Definition outside : task -> task := set_outside (qb := no_bridge) 100
  [None] [Some (v4_address 5000 16777343)] [Sent; Sent; Sent] [Sent; Sent] false.
Definition started : task (qb := no_bridge) :=
  exec (SetTaskInfo (text := no_text) some_client some_proxy) (outside (new_task 100)).
Definition first_datagram : event := Received 0 application_address [1; 2; 3].
Definition after_datagram : task (qb := no_bridge) :=
  exec (handle (text := no_text) first_datagram) started.

Lemma started_reachable : reachable (text := no_text) started.
Proof. by eapply (reach_start (text := no_text) 100 _ _ _ _ false some_client some_proxy). Qed.

Lemma first_datagram_allowed : allowed (qb := no_bridge) first_datagram started.
Proof. split; [|by vm_compute]. right. vm_compute. by left. Qed.

Lemma after_datagram_reachable : reachable (text := no_text) after_datagram.
Proof. apply (reach_step (text := no_text)); [apply started_reachable|apply first_datagram_allowed]. Qed.

Lemma udp_task_safe_witness :
  length (m_pending after_datagram) = 1%nat /\
  (TFault ∉ trace after_datagram) /\
  m_pendingBytes after_datagram = total (map pd_size (m_pending after_datagram)) /\
  m_pendingBytes after_datagram <= maxBytes.
Proof.
  pose proof (udp_task_safe (text := no_text) after_datagram after_datagram_reachable)
    as (H1 & _ & H2 & H3 & _).
  split; [by vm_compute|]. split; [exact H1|]. split; [exact H2|exact H3].
Defined.

Lemma callback_peer_survives_witness :
  is_Some (peers (exec (handle (qb := no_bridge) (text := no_text) first_datagram) started) !! 0%nat).
Proof.
  apply (callback_peer_survives (text := no_text) started first_datagram 0);
    [apply started_reachable|apply first_datagram_allowed|reflexivity].
Defined.

(** The route's peer and the upstream peer are both deleted. *)
Lemma EndTask_frees_witness :
  is_Some (peers after_datagram !! 1%nat) /\
  peers (exec (EndTask (qb := no_bridge)) after_datagram) !! 1%nat = None.
Proof.
  split; [vm_compute; by eexists|].
  pose proof (EndTask_frees (text := no_text) after_datagram after_datagram_reachable) as (_ & H & _).
  apply H. left. by vm_compute.
Defined.
