(* ===== verification/UdpTaskFlow.v ===== *)
(** * The order of datagrams and the route of replies

    What the upstream peer takes, followed by what still waits for it, is the
    datagrams given to the association, in their order (some may have been
    dropped); they come from the application, directly or through a QUIC
    bridge. *)

From S2P Require Import Prelude Winsock SockAddr Effects UdpPolicy UdpCapability UdpTask.
From S2P Require Import UdpTaskRules UdpTaskInv UdpTaskSafety.

(** ** What most operations leave alone *)
Section Flow.
Context {qb : QuicBridge} {text : AddressText}.

Abbreviation TM := (M task).

(** The datagrams the upstream peer took. *)
Definition ups (l : list task_output) : list (CSAddrInfo * bytes) :=
  omap (fun o => match o with TUp t d => Some (t, d) | _ => None end) l.

(** The datagrams given to the association. *)
Definition fwd (l : list task_output) : list (CSAddrInfo * bytes) :=
  omap (fun o => match o with TForward t d => Some (t, d) | _ => None end) l.

Lemma fwd_app a b : fwd (a ++ b) = fwd a ++ fwd b.
Proof. apply omap_app. Qed.
Lemma ups_app a b : ups (a ++ b) = ups a ++ ups b.
Proof. apply omap_app. Qed.

Definition waiting (l : list PendingDatagram) : list (CSAddrInfo * bytes) :=
  map (fun p => (target p, pd_data p)) l.

(** Taken, then waiting. *)
Definition line (w : task) : list (CSAddrInfo * bytes) := ups (trace w) ++ waiting (m_pending w).

(** The routes' clients and bridges, and what the association was given. *)
Definition stay (w : task) : list (PRCClient * option bridge) * list (CSAddrInfo * bytes) :=
  (map (fun r => (client r, quic r)) (m_routes w), fwd (trace w)).
(** That with what waits, and what was taken. *)
Definition view (w : task) := (stay w, m_pending w, ups (trace w)).
Definition clients (w : task) : list PRCClient := map client (m_routes w).

(** [m] leaves [f] alone. *)
Definition preserves {X} (f : task -> X) {A} (m : TM A) : Prop := forall v, keeps (fun w => f w = v) m.

Section Preserves.
Context {X : Type} (f : task -> X).

Lemma preserves_ret {A} (a : A) : preserves f (mret a).
Proof. intros v. apply keeps_ret. Qed.
Lemma preserves_gets {A} (g : task -> A) : preserves f (gets g).
Proof. intros v. apply keeps_gets. Qed.
Lemma preserves_bind {A B} (m : TM A) (k : A -> TM B) :
  preserves f m -> (forall a, preserves f (k a)) -> preserves f (m ≫= k).
Proof. intros Hm Hk v. apply keeps_bind; [apply Hm|intros a; apply Hk]. Qed.
Lemma preserves_if {A} (b : bool) (m1 m2 : TM A) :
  preserves f m1 -> preserves f m2 -> preserves f (if b then m1 else m2).
Proof. by destruct b. Qed.
Lemma preserves_when (b : bool) (m : TM unit) : preserves f m -> preserves f (when b m).
Proof. intros H. apply preserves_if; [done|apply preserves_ret]. Qed.
Lemma preserves_modify (g : task -> task) : (forall w, f (g w) = f w) -> preserves f (modify g).
Proof. intros H v. apply keeps_modify. intros w <-. apply H. Qed.
Lemma preserves_for_each {A} (g : A -> TM unit) l :
  (forall x, preserves f (g x)) -> preserves f (for_each g l).
Proof. intros H v. apply keeps_for_each. intros x _. apply H. Qed.
Lemma preserves_exec {A} (m : TM A) w : preserves f m -> f (exec m w) = f w.
Proof. intros H. by apply (H (f w)). Qed.
End Preserves.

Abbreviation unseen := (preserves view).

Lemma clients_view w w' : view w = view w' -> clients w = clients w'.
Proof.
  intros E. assert (E' : map fst (fst (fst (fst (view w)))) = map fst (fst (fst (fst (view w'))))) by by rewrite E.
  cbn in E'. by rewrite !map_map in E'.
Qed.

Lemma preserves_clients {A} (m : TM A) : unseen m -> preserves clients m.
Proof. intros H v w <-. apply clients_view. by apply preserves_exec. Qed.

Lemma preserves_stay {A} (m : TM A) : unseen m -> preserves stay m.
Proof.
  intros H v w <-. exact (f_equal (fun x => fst (fst x)) (preserves_exec view m w H)).
Qed.

Lemma stay_temit o : match o with TForward _ _ => False | _ => True end -> preserves stay (temit o).
Proof.
  intros Ho. apply preserves_modify. intros w. unfold stay. cbn. rewrite fwd_app.
  destruct o; try done; cbn; by rewrite app_nil_r.
Qed.

Lemma unseen_temit o : match o with TUp _ _ | TForward _ _ => False | _ => True end -> unseen (temit o).
Proof.
  intros Ho. apply preserves_modify. intros w. unfold view, stay. cbn. rewrite ups_app, fwd_app.
  destruct o; try done; cbn; by rewrite !app_nil_r.
Qed.

Lemma unseen_update_route i f :
  (forall r, client (f r) = client r) -> (forall r, quic (f r) = quic r) -> unseen (update_route i f).
Proof.
  intros H1 H2. apply preserves_modify. intros w. unfold view, stay. cbn. f_equal. f_equal. f_equal.
  apply (map_alter (fun r => (client r, quic r))). intros r _. by rewrite H1, H2.
Qed.

Lemma clients_update_route i f : (forall r, client (f r) = client r) -> preserves clients (update_route i f).
Proof. intros H. apply preserves_modify. intros w. by apply (map_alter client). Qed.
End Flow.
Abbreviation unseen := (preserves view).

Create HintDb unseen.
Ltac unseen_step :=
  match goal with
  | |- preserves _ (mret _) => apply preserves_ret
  | |- preserves _ (gets _) => apply preserves_gets
  | |- preserves _ (_ ≫= _) => apply preserves_bind; [|intros ?]
  | |- preserves _ (when _ _) => apply preserves_when
  | |- preserves _ (if _ then _ else _) => apply preserves_if
  | |- preserves _ (modify _) => apply preserves_modify; reflexivity
  | |- unseen (temit _) => by apply unseen_temit
  | |- preserves stay (temit _) => by apply stay_temit
  | |- preserves clients (temit _) => apply preserves_modify; reflexivity
  | |- preserves _ (for_each _ _) => apply preserves_for_each; intros ?
  | |- unseen (update_route _ _) => by apply unseen_update_route
  | |- preserves clients (update_route _ _) => by apply clients_update_route
  | |- preserves _ (match ?x with _ => _ end) => destruct x
  | |- unseen _ => solve [eauto with unseen nocore]
  | |- preserves stay _ => solve [eauto with unseen nocore]
  | |- preserves stay _ => apply preserves_stay; solve [eauto with unseen nocore]
  | |- preserves clients _ => solve [eauto with unseen nocore]
  | |- preserves clients _ => apply preserves_clients; solve [eauto with unseen nocore]
  end.
(** A composition of operations that leave the view (or the clients) alone. *)
Tactic Notation "unseen" := repeat unseen_step.

Section Ops.
Context {qb : QuicBridge} {text : AddressText}.

Lemma unseen_with_peer p f : unseen (with_peer p f).
Proof. unfold with_peer. unseen. Qed.
#[local] Hint Resolve unseen_with_peer : unseen.

Lemma unseen_PeerClose p : unseen (PeerClose p).
Proof. apply unseen_with_peer. Qed.
Lemma unseen_PeerOpened p : unseen (PeerOpened p).
Proof. apply unseen_with_peer. Qed.
Lemma unseen_SetPartner p q : unseen (SetPartner p q).
Proof. apply unseen_with_peer. Qed.
Lemma unseen_peer_open p : unseen (peer_open p).
Proof. unfold peer_open. unseen. Qed.
Lemma unseen_delete_peer p : unseen (delete_peer p).
Proof. unfold delete_peer. unseen. Qed.
Lemma unseen_new_peer q i : unseen (new_peer q i).
Proof. intros v w <-. reflexivity. Qed.
#[local] Hint Resolve unseen_PeerClose unseen_PeerOpened unseen_SetPartner unseen_peer_open
  unseen_delete_peer unseen_new_peer : unseen.

Lemma unseen_server_open : unseen server_open.
Proof. unfold server_open. unseen. Qed.
Lemma unseen_close_server : unseen (for_server PeerClose).
Proof. unfold for_server. unseen. Qed.
Lemma unseen_reset_backoff : unseen reset_backoff.
Proof. unfold reset_backoff. unseen. Qed.
Lemma unseen_wake_bridges : unseen wake_bridges.
Proof. unfold wake_bridges. unseen. Qed.
#[local] Hint Resolve unseen_server_open unseen_close_server unseen_reset_backoff unseen_wake_bridges : unseen.

Lemma unseen_send_down p app data :
  unseen (send_outcome down_sends set_down_sends (TDown p app data) (Z.of_nat (length data))).
Proof.
  intros v w <-. unfold send_outcome, exec. destruct (down_sends w) as [|[] r]; try done.
  unfold view, stay. cbn. rewrite ups_app, fwd_app. cbn. by rewrite !app_nil_r.
Qed.
#[local] Hint Resolve unseen_send_down : unseen.

Lemma unseen_route_send p app data : unseen (route_send p app data).
Proof. unfold route_send, set_error. unseen. Qed.
#[local] Hint Resolve unseen_route_send : unseen.

Lemma unseen_flush_replies only now l : unseen (flush_replies only now l).
Proof.
  induction l as [|r l IH]; cbn [flush_replies]; unseen.
Qed.
#[local] Hint Resolve unseen_flush_replies : unseen.

Lemma unseen_FlushPendingReplies only : unseen (FlushPendingReplies only).
Proof. unfold FlushPendingReplies. unseen. Qed.

Lemma unseen_QueueReply p app data : unseen (QueueReply p app data).
Proof.
  unfold QueueReply. apply preserves_bind; [|intros _; unseen].
  apply preserves_modify. intros w. by destruct (make_room _ _ _).
Qed.
#[local] Hint Resolve unseen_FlushPendingReplies unseen_QueueReply : unseen.

Lemma unseen_CloseTask : unseen CloseTask.
Proof.
  unfold CloseTask. do 3 (apply preserves_bind; [unseen|intros _]).
  apply preserves_bind; [|intros _; unseen]. apply preserves_modify. intros w.
  unfold view, stay. cbn. by rewrite map_map.
Qed.

Lemma unseen_ScheduleServerReconnect e : unseen (ScheduleServerReconnect e).
Proof. unfold ScheduleServerReconnect. unseen. Qed.

Lemma unseen_report_failure e : unseen (report_failure e).
Proof.
  intros v w <-. unfold report_failure, exec. by destruct (ReportUdpAssociationFailure _ _ _ _).
Qed.
#[local] Hint Resolve unseen_CloseTask unseen_ScheduleServerReconnect unseen_report_failure : unseen.

Lemma unseen_schedule_blocked e : unseen (schedule_blocked e).
Proof. unfold schedule_blocked. unseen. Qed.

Lemma unseen_failed_association e m1 m2 :
  unseen m1 -> unseen m2 -> unseen (failed_association e m1 m2).
Proof. intros. unfold failed_association, permanently_unsupported. unseen; done. Qed.
#[local] Hint Resolve unseen_schedule_blocked : unseen.

Lemma unseen_ConnectProxy s : unseen (ConnectProxy s).
Proof. unfold ConnectProxy, set_error. unseen. Qed.
#[local] Hint Resolve unseen_ConnectProxy : unseen.

Lemma unseen_CreateServerPeer : unseen CreateServerPeer.
Proof. unfold CreateServerPeer. unseen. Qed.
#[local] Hint Resolve unseen_CreateServerPeer : unseen.

Lemma unseen_reconnect now : unseen (reconnect now).
Proof.
  unfold reconnect, get_error. unseen. apply unseen_failed_association; unseen.
Qed.

Lemma unseen_OnPeerClosed p e : unseen (OnPeerClosed p e).
Proof.
  unfold OnPeerClosed. unseen. apply unseen_failed_association; unseen.
Qed.

Lemma unseen_EnterServerDormant : unseen EnterServerDormant.
Proof. unfold EnterServerDormant. unseen. Qed.

Lemma unseen_DeliverServerDatagram r data : unseen (DeliverServerDatagram r data).
Proof. unfold DeliverServerDatagram. unseen. Qed.
End Ops.
#[export] Hint Resolve unseen_with_peer unseen_PeerClose unseen_PeerOpened unseen_SetPartner
  unseen_peer_open unseen_delete_peer unseen_new_peer unseen_server_open unseen_close_server
  unseen_reset_backoff unseen_wake_bridges unseen_route_send unseen_FlushPendingReplies
  unseen_QueueReply unseen_CloseTask unseen_ScheduleServerReconnect unseen_report_failure
  unseen_schedule_blocked unseen_CreateServerPeer unseen_reconnect unseen_OnPeerClosed
  unseen_EnterServerDormant unseen_DeliverServerDatagram : unseen.

(** ** Order *)
Section Order.
Context {qb : QuicBridge} {text : AddressText}.

Abbreviation TM := (M task).
Implicit Types (A L F : list (CSAddrInfo * bytes)).

(** A bridge gives the datagram back. *)
Definition released (data : bytes) : Prop := exists q, fst (Peek true q) = Some data.

(** Where a datagram comes from: it is one of [A], or a bridge gives it back. *)
Definition origin A (x : CSAddrInfo * bytes) : Prop := x ∈ A \/ released (snd x).

(** From the line [L] and the record [F] on, some datagrams were given to the
    association, and the line is what is left of [L] and of them. *)
Definition held L F A (w : task) : Prop :=
  exists given, fwd (trace w) = F ++ given /\ line w `sublist_of` L ++ given /\ Forall (origin A) given.

Section Held.
Variables L F A : list (CSAddrInfo * bytes).
Abbreviation H := (held L F A).

Lemma held_view w w' : view w' = view w -> H w -> H w'.
Proof. unfold view, stay, held, line. intros [= _ -> -> ->]. done. Qed.

Lemma keeps_unseen {B} (m : TM B) : unseen m -> keeps H m.
Proof. intros Hm w Hw. eapply held_view; [|exact Hw]. by apply preserves_exec. Qed.

Lemma sublist_drop_middle {B} (a b : list B) n (l : list B) :
  a ++ b `sublist_of` l -> a ++ drop n b `sublist_of` l.
Proof. intros Hs. etrans; [|exact Hs]. apply sublist_app; [done|apply sublist_drop]. Qed.

Lemma waiting_app a b : waiting (a ++ b) = waiting a ++ waiting b.
Proof. apply map_app. Qed.
Lemma waiting_drop n l : waiting (drop n l) = drop n (waiting l).
Proof. symmetry. apply skipn_map. Qed.

Lemma keeps_pop_pending : keeps H pop_pending.
Proof.
  intros w (given & E & Hl & Hg). unfold pop_pending, exec, modify. cbn.
  destruct (m_pending w) as [|p l] eqn:Ep; [by exists given|]. exists given. split; [done|]. split; [|done].
  unfold line in *. cbn. rewrite Ep in Hl. by apply (sublist_drop_middle _ (waiting (p :: l)) 1).
Qed.

Lemma keeps_ExpirePendingDatagrams now : keeps H (ExpirePendingDatagrams now).
Proof.
  apply keeps_bind; [apply keeps_gets|]. intros l. induction l as [|p l IH]; cbn [expire_loop];
    repeat keeps_step; [apply keeps_pop_pending|done].
Qed.

(** A send upstream of [data]: taken, or not. *)
Lemma wp_send_up t data Q w :
  (forall n w', view w' = view w -> Q n w') ->
  (forall u, Q (Z.of_nat (length data)) (set_trace (trace w ++ [TUp t data]) (set_up_sends u w))) ->
  wp (server_send t data) Q w.
Proof.
  intros H1 H2. unfold wp, server_send, send_outcome. destruct (up_sends w) as [|[|n|e] r]; auto.
Qed.

Lemma send_pending_order fuel now : keeps H (send_pending fuel now).
Proof.
  apply keeps_wp. induction fuel as [|fuel IH]; intros w Hw; cbn [send_pending];
    apply wp_bind, wp_gets; destruct (m_pending w) as [|p l] eqn:E; try (by apply wp_ret).
  { apply wp_keeps; [|done]. apply keeps_unseen. unseen. }
  apply wp_if; intros _.
  { apply wp_bind. apply (wp_mono _ (fun _ => H)); [by apply wp_keeps; [apply keeps_pop_pending|]|].
    intros [] w1 H1. by apply IH. }
  apply wp_bind, wp_send_up.
  - intros n w1 E1. pose proof (held_view w w1 E1 Hw) as H1. apply wp_if; intros _.
    + apply wp_keeps; [|done]. apply keeps_unseen. unfold get_error. unseen.
    + apply wp_bind. apply (wp_mono _ (fun _ => H)); [by apply wp_keeps; [apply keeps_pop_pending|]|].
      intros [] w2 H2. apply wp_bind. apply (wp_mono _ (fun _ => H)); [|by intros _; apply IH].
      apply wp_keeps; [|done]. apply keeps_unseen. unseen.
  - intros u. apply wp_if; intros Hn; [apply Z.eqb_eq in Hn; unfold SOCKET_ERROR in Hn; lia|].
    set (w1 := set_trace _ _). apply wp_bind. unfold pop_pending. apply wp_modify.
    change (m_pending w1) with (m_pending w). rewrite E.
    set (w2 := set_m_pending l _).
    assert (H2 : H w2).
    { destruct Hw as (given & Ef & Hl & Hg). exists given. split; [|split; [|done]].
      - cbn. by rewrite fwd_app, Ef, app_nil_r.
      - unfold line in *. cbn. rewrite E in Hl. by rewrite ups_app, <- app_assoc. }
    apply wp_bind. apply (wp_mono _ (fun _ => H)); [|by intros _; apply IH].
    apply wp_keeps; [|done]. apply keeps_unseen. unseen.
Qed.

(** Compositions of the operations above. *)
Ltac ordered :=
  repeat first
    [ apply keeps_pop_pending | apply keeps_ExpirePendingDatagrams | apply send_pending_order
    | apply keeps_unseen; solve [unseen]
    | keeps_step ].

Lemma keeps_OnServerWritable_order : keeps H OnServerWritable.
Proof. unfold OnServerWritable. ordered. Qed.

Lemma keeps_Wake_order : keeps H WakeServerAssociation.
Proof.
  unfold WakeServerAssociation, get_error. ordered; try apply keeps_OnServerWritable_order.
  apply keeps_unseen, unseen_failed_association; unseen.
Qed.

Lemma keeps_OnServerReady_order p : keeps H (OnServerReady p).
Proof. unfold OnServerReady. ordered. apply keeps_OnServerWritable_order. Qed.

Lemma keeps_Timer_order : keeps H OnMaintenanceTimer.
Proof. unfold OnMaintenanceTimer. ordered. apply keeps_OnServerWritable_order. Qed.

(** Before a datagram is queued or sent: it was given, and is not in the line. *)
Definition held_with (t : CSAddrInfo) (data : bytes) (w : task) : Prop :=
  exists given, fwd (trace w) = F ++ given ++ [(t, data)] /\ line w `sublist_of` L ++ given /\
    Forall (origin A) (given ++ [(t, data)]).

Lemma held_with_held t data w : held_with t data w -> H w.
Proof.
  intros (given & E & Hl & Hg). exists (given ++ [(t, data)]). split_and!; [done| |done].
  rewrite app_assoc. by apply sublist_inserts_r.
Qed.

Lemma held_with_view t data w w' : view w' = view w -> held_with t data w -> held_with t data w'.
Proof. unfold view, stay, held_with, line. intros [= _ -> -> ->]. done. Qed.

(** A datagram joins at the end. *)
Lemma QueueDatagram_held t data w : held_with t data w -> wp (QueueDatagram t data) (fun _ => H) w.
Proof.
  intros (given & E & Hl & Hg). unfold QueueDatagram. apply wp_bind, wp_modify.
  destruct (make_room _ _ _) as [n b]. set (w1 := set_m_pending _ _).
  assert (Hl1 : line w1 `sublist_of` L ++ given).
  { unfold line in *. cbn. rewrite waiting_drop. by apply sublist_drop_middle. }
  assert (H1 : held_with t data w1) by (exists given; by split_and!).
  apply wp_if; intros _; [by apply wp_ret, (held_with_held t data)|].
  apply wp_bind, wp_modify, wp_ret. exists (given ++ [(t, data)]). split_and!; [done| |done].
  unfold line in *. cbn. rewrite waiting_app, !app_assoc. by apply sublist_app.
Qed.

Lemma keeps_held_ForwardUpstream t data : origin A (t, data) -> keeps H (ForwardUpstreamDatagram t data).
Proof.
  intros Ho. apply keeps_wp. intros w0 (given & E & Hl & Hg). unfold ForwardUpstreamDatagram.
  apply wp_bind, wp_modify. set (w := set_trace _ _).
  assert (Hw : held_with t data w).
  { exists given. split_and!.
    - cbn. by rewrite fwd_app, E, <- app_assoc.
    - unfold line in *. cbn. by rewrite ups_app, app_nil_r.
    - apply Forall_app. split; [done|]. by apply Forall_singleton. }
  clearbody w. clear given E Hl Hg. apply wp_bind, wp_gets. apply wp_if; intros _.
  { apply wp_bind. eapply wp_mono; [by apply QueueDatagram_held|]. intros b w1 H1. apply wp_keeps; [|done].
    ordered. apply keeps_Wake_order. }
  apply wp_bind. apply (wp_mono _ (fun _ => held_with t data)).
  { apply wp_exec. eapply held_with_view; [|exact Hw]. apply preserves_exec. unseen. }
  intros open w1 H1. apply wp_bind, wp_gets. apply wp_if; intros Hp; [|by apply QueueDatagram_held].
  apply andb_true_iff in Hp as [_ Hp]. apply bool_decide_eq_true in Hp.
  apply wp_bind, wp_send_up.
  - intros n w2 E2. pose proof (held_with_view t data w1 w2 E2 H1) as H2. apply wp_if; intros _.
    + apply wp_keeps; [ordered|]. by eapply held_with_held.
    + apply wp_bind, wp_gets, wp_bind. apply (wp_mono _ (fun _ => held_with t data)); [|by intros _; apply QueueDatagram_held].
      apply wp_exec. eapply held_with_view; [|exact H2]. apply preserves_exec. unseen.
  - intros u. apply wp_if; intros Hn;
      [|apply negb_false_iff, Z.eqb_eq in Hn; unfold SOCKET_ERROR in Hn; lia].
    apply wp_keeps; [ordered|]. destruct H1 as (given & E & Hl & Hg).
    exists (given ++ [(t, data)]). split_and!; [cbn; by rewrite fwd_app, E, app_nil_r| |done].
    unfold line in *. cbn. rewrite Hp in *. cbn in *. rewrite app_nil_r in *. rewrite ups_app, app_assoc.
    by apply sublist_app.
Qed.

(** Routes, with or without a bridge. *)

Lemma keeps_held_update i f : keeps H (update_route i f).
Proof. apply keeps_modify. intros w Hw. exact Hw. Qed.

Lemma keeps_held_route {B} i (d : B) k : (forall r, keeps H (k r)) -> keeps H (with_route i d k).
Proof. intros Hk. unfold with_route. ordered. apply Hk. Qed.

Lemma keeps_held_bridge {B} i (d : B) k : (forall r q, keeps H (k r q)) -> keeps H (with_bridge i d k).
Proof. intros Hk. unfold with_bridge. apply keeps_held_route. intros r. ordered. apply Hk. Qed.

Lemma keeps_held_deliver r data : keeps H (DeliverServerDatagram r data).
Proof. apply keeps_unseen. unseen. Qed.

Ltac passing :=
  repeat match goal with
  | |- keeps _ (update_route _ _) => apply keeps_held_update
  | |- keeps _ (DeliverServerDatagram _ _) => apply keeps_held_deliver
  | |- keeps _ (with_bridge _ _ _) => apply keeps_held_bridge; intros ? ?
  | |- keeps _ (with_route _ _ _) => apply keeps_held_route; intros ?
  | |- keeps _ (_ ≫= _) => apply keeps_bind; [|intros ?]
  | |- keeps _ (mret _) => apply keeps_ret
  | |- keeps _ (gets _) => apply keeps_gets
  | |- keeps _ (when _ _) => apply keeps_when
  | |- keeps _ (if _ then _ else _) => apply keeps_if
  | |- keeps _ (match ?x with _ => _ end) => destruct x
  | |- keeps _ _ => assumption
  | |- keeps _ _ => apply keeps_unseen; solve [unseen]
  | |- keeps _ (modify _) => apply keeps_modify; intros ? Hw; exact Hw
  end.

Lemma keeps_held_pump side i n : keeps H (pump_side side i n).
Proof.
  induction n as [|n IH]; cbn [pump_side]; [passing|]. apply keeps_held_bridge. intros r q.
  destruct (Peek side q) as [d q'] eqn:E. apply keeps_bind; [apply keeps_held_update|intros _].
  destruct d as [[|b data]|]; [passing| |passing]. apply keeps_bind.
  - destruct side; [|apply keeps_held_deliver]. apply keeps_held_ForwardUpstream. right. exists q. by rewrite E.
  - intros ok. destruct (negb ok); [passing|]. unfold store_bridge. passing.
Qed.

Lemma keeps_held_PumpQuic i : keeps H (PumpQuic i).
Proof.
  unfold PumpQuic, store_bridge. apply keeps_bind; [apply keeps_held_pump|intros _].
  apply keeps_bind; [apply keeps_held_pump|intros _]. passing.
Qed.

Lemma keeps_held_ForwardClient p t app data :
  (t, data) ∈ A -> keeps H (ForwardClientDatagram p t app data).
Proof.
  intros Ho. assert (Hf : keeps H (ForwardUpstreamDatagram t data)) by (apply keeps_held_ForwardUpstream; by left).
  unfold ForwardClientDatagram, forward_unbridged, tap_route, store_bridge.
  passing; apply keeps_held_PumpQuic.
Qed.

Lemma unseen_select_route source i cand count l : unseen (select_route source i cand count l).
Proof. revert i cand count. induction l as [|r l IH]; intros; cbn [select_route]; unseen; apply IH. Qed.

Lemma unseen_choose_route source : unseen (choose_route source).
Proof.
  unfold choose_route. apply preserves_bind; [unseen|intros l].
  apply preserves_bind; [apply unseen_select_route|]. intros [[a b] c]. unseen.
Qed.


Lemma keeps_held_ForwardServer source data : keeps H (ForwardServerDatagram source data).
Proof.
  unfold ForwardServerDatagram. apply keeps_bind; [apply keeps_unseen, unseen_choose_route|intros o].
  unfold store_bridge. passing; apply keeps_held_PumpQuic.
Qed.

Lemma keeps_held_OnRouteWritable p : keeps H (OnRouteWritable p).
Proof. unfold OnRouteWritable. passing. apply keeps_held_PumpQuic. Qed.

Lemma keeps_held_AddRoute c : keeps H (AddRoute c).
Proof. unfold AddRoute, add_new_route, for_server. passing. Qed.
End Held.

(** The datagrams an event brings for the upstream. *)
Definition offered (e : event) (w : task) : list (CSAddrInfo * bytes) :=
  match e with
  | Received p _ data =>
      match peers w !! p with
      | Some o => if bool_decide (m_pServer w = Some p) then [] else [(m_CSAddrInfo o, data)]
      | None => []
      end
  | _ => []
  end.


Lemma handle_held L F A e w : held L F A w -> (forall x, x ∈ offered e w -> x ∈ A) -> held L F A (exec (handle e) w).
Proof.
  intros Hw Ho. destruct e as [now cs ss us ds tap|c| |p from data|p|p e|p e]; cbn [handle].
  - done.
  - rewrite exec_bind. by apply keeps_held_AddRoute.
  - by apply keeps_Timer_order.
  - rewrite exec_bind. unfold peer_OnReceive. rewrite !exec_bind. cbn in *.
    destruct (peers w !! p) as [o|].
    + case_bool_decide; [by apply keeps_held_ForwardServer|].
      apply keeps_held_ForwardClient; [|done]. apply Ho. by left.
    + apply (keeps_unseen L F A (temit TFault;; mret false)); [unseen|done].
  - unfold peer_OnSend. rewrite exec_bind. cbn. case_bool_decide.
    + by apply keeps_OnServerWritable_order.
    + by apply keeps_held_OnRouteWritable.
  - unfold peer_OnConnect. rewrite exec_bind. cbn. case_bool_decide; cbn [negb]; [|done].
    destruct (e =? 0); [by apply keeps_OnServerReady_order|].
    apply keeps_unseen; [unseen|done].
  - apply keeps_unseen; [|done]. unfold peer_OnClose. unseen.
Qed.

(** ** Tasks without QUIC bridges *)

Lemma stay_QueueDatagram t data : preserves stay (QueueDatagram t data).
Proof.
  unfold QueueDatagram. apply preserves_bind; [|intros _; unseen].
  apply preserves_modify. intros w. by destruct (make_room _ _ _).
Qed.
Lemma stay_pop_pending : preserves stay pop_pending.
Proof. apply preserves_modify. intros w. by destruct (m_pending w). Qed.
Lemma stay_server_send t data : preserves stay (server_send t data).
Proof.
  intros v w <-. unfold exec, server_send, send_outcome. destruct (up_sends w) as [|[] r]; try done.
  unfold stay. cbn. by rewrite fwd_app, app_nil_r.
Qed.
#[local] Hint Resolve stay_QueueDatagram stay_pop_pending stay_server_send : unseen.

Lemma stay_expire now : preserves stay (ExpirePendingDatagrams now).
Proof.
  apply preserves_bind; [unseen|]. intros l. induction l; cbn [expire_loop]; unseen; done.
Qed.
Lemma stay_send_pending fuel now : preserves stay (send_pending fuel now).
Proof. induction fuel as [|fuel IH]; cbn [send_pending]; unfold get_error; unseen; done. Qed.
#[local] Hint Resolve stay_expire stay_send_pending : unseen.
Lemma stay_OnServerWritable : preserves stay OnServerWritable.
Proof. unfold OnServerWritable. unseen. Qed.
#[local] Hint Resolve stay_OnServerWritable : unseen.
Lemma stay_Wake : preserves stay WakeServerAssociation.
Proof.
  unfold WakeServerAssociation, get_error. unseen.
  apply preserves_stay, unseen_failed_association; unseen.
Qed.
#[local] Hint Resolve stay_Wake : unseen.
Lemma stay_OnServerReady p : preserves stay (OnServerReady p).
Proof. unfold OnServerReady. unseen. Qed.
Lemma stay_Timer : preserves stay OnMaintenanceTimer.
Proof. unfold OnMaintenanceTimer. unseen. Qed.
#[local] Hint Resolve stay_OnServerReady stay_Timer : unseen.

Definition unbridged (w : task) : Prop := Forall (fun r => quic r = None) (m_routes w).
Definition in_line L (w : task) : Prop := unbridged w /\ fwd (trace w) `sublist_of` L.


Lemma in_line_stay L w w' : stay w' = stay w -> in_line L w -> in_line L w'.
Proof.
  unfold stay, in_line, unbridged. intros [= E1 E2] [H1 H2]. split; [|by rewrite E2].
  apply (Forall_map (fun r => (client r, quic r)) (fun c => snd c = None)). rewrite E1. by apply Forall_map.
Qed.

Lemma line_stay {B} (m : TM B) L : preserves stay m -> keeps (in_line L) m.
Proof. intros H w Hw. eapply in_line_stay; [|exact Hw]. by apply preserves_exec. Qed.

Lemma line_unseen {B} (m : TM B) L : unseen m -> keeps (in_line L) m.
Proof. intros H. by apply line_stay, preserves_stay. Qed.

Lemma keeps_line_routes L f :
  (forall l, Forall (fun r => quic r = None) l -> Forall (fun r => quic r = None) (f l)) ->
  keeps (in_line L) (modify (fun w => set_m_routes (f (m_routes w)) w)).
Proof. intros Hf. apply keeps_modify. intros w [H1 H2]. split; [by apply Hf|done]. Qed.

Lemma alter_unbridged i f (l : list UdpRoute) :
  (forall r, quic r = None -> quic (f r) = None) ->
  Forall (fun r => quic r = None) l -> Forall (fun r => quic r = None) (alter f i l).
Proof.
  intros Hf H. revert i. induction H as [|r l Hr H IH]; intros [|i]; cbn; constructor; auto.
Qed.

Lemma keeps_line_update L i f :
  (forall r, quic r = None -> quic (f r) = None) -> keeps (in_line L) (update_route i f).
Proof. intros Hf. apply (keeps_line_routes L (alter f i)). intros l. by apply alter_unbridged. Qed.

(** The route that was looked up has no bridge. *)
Lemma wp_with_route_line {B} i (d : B) k L Q w :
  in_line L w -> (forall r, quic r = None -> wp (k r) Q w) ->
  (forall w', in_line L w' -> Q d w') -> wp (with_route i d k) Q w.
Proof.
  intros Hw H HQ. unfold with_route. apply wp_bind, wp_gets.
  destruct (m_routes w !! i) as [r|] eqn:E.
  - apply H. destruct Hw as [Hu _]. unfold unbridged in Hu. rewrite Forall_forall in Hu.
    by apply Hu, (list_elem_of_lookup_2 _ i).
  - apply wp_bind. eapply wp_mono; [apply (wp_keeps (in_line L)); [apply line_unseen; unseen|done]|].
    intros [] w' H'. by apply wp_ret, HQ.
Qed.

Lemma ForwardUpstream_in_line t data L w :
  in_line L w -> in_line (L ++ [(t, data)]) (exec (ForwardUpstreamDatagram t data) w).
Proof.
  intros [Hu Hl]. unfold ForwardUpstreamDatagram. rewrite exec_bind.
  set (w1 := exec (temit _) w).
  assert (H1 : in_line (L ++ [(t, data)]) w1).
  { split; [done|]. subst w1. cbn. rewrite fwd_app. by apply sublist_app. }
  clearbody w1. eapply line_stay; [|exact H1]. unfold get_error. unseen.
Qed.

Lemma in_line_more L l w : in_line L w -> in_line (L ++ l) w.
Proof. intros [? ?]. split; [done|]. by apply sublist_inserts_r. Qed.

Lemma keeps_line_tap L i data : keeps (in_line L) (tap_route i data).
Proof.
  unfold tap_route. repeat keeps_step; [by apply keeps_line_update|apply line_unseen; unseen].
Qed.

Section Unbridged.
Hypothesis no_bridges : forall c d, CQuicBridge_Open c d = None.

Lemma ForwardClient_in_line p t app data L w :
  in_line L w -> in_line (L ++ [(t, data)]) (exec (ForwardClientDatagram p t app data) w).
Proof.
  intros Hw. apply wp_exec. unfold ForwardClientDatagram. apply wp_bind, wp_modify.
  set (w1 := set_m_lastActivity _ w). assert (H1 : in_line L w1) by done.
  set (L' := L ++ [(t, data)]).
  assert (Hq : forall w2, in_line L w2 -> wp (ForwardUpstreamDatagram t data) (fun _ => in_line L') w2).
  { intros w2 H2. by apply wp_exec, ForwardUpstream_in_line. }
  assert (Ht : forall i w2, in_line L w2 ->
    wp (tap_route i data;; ForwardUpstreamDatagram t data) (fun _ => in_line L') w2).
  { intros i w2 H2. apply wp_bind. eapply wp_mono; [by apply wp_keeps; [apply keeps_line_tap|exact H2]|].
    intros [] w3 H3. by apply Hq. }
  apply wp_bind, wp_gets. destruct (find_index _ _) as [i|]; [|by apply Hq].
  apply wp_bind. apply (wp_mono _ (fun _ => in_line L)).
  { apply wp_keeps; [|done]. by apply keeps_line_update. }
  intros [] w2 H2. apply wp_bind. apply (wp_mono _ (fun _ => in_line L)).
  { apply (wp_with_route_line _ _ _ L); [done| |done]. intros r ->. by apply wp_ret. }
  intros [] w3 H3. apply (wp_with_route_line _ _ _ L); [done| |by intros; apply in_line_more].
  intros r Er. apply wp_if; intros _; [by apply wp_ret, in_line_more|]. rewrite Er.
  apply wp_bind. apply (wp_mono _ (fun _ => in_line L)).
  { apply wp_keeps; [|done]. apply keeps_when. by apply keeps_line_update. }
  intros [] w4 H4. unfold forward_unbridged.
  apply (wp_with_route_line _ _ _ L); [done| |by intros; apply in_line_more].
  intros r' _. apply wp_if; intros _; [by apply Ht|]. rewrite no_bridges.
  apply wp_bind. apply (wp_mono _ (fun _ => in_line L)).
  { apply wp_keeps; [|done]. apply line_unseen. unseen. }
  intros [] w5 H5. apply wp_bind. apply (wp_mono _ (fun _ => in_line L)).
  { apply wp_keeps; [|done]. by apply keeps_line_update. }
  intros [] w6 H6. by apply Ht.
Qed.

Lemma keeps_line_ForwardServer source data L : keeps (in_line L) (ForwardServerDatagram source data).
Proof.
  apply keeps_wp. intros w Hw. unfold ForwardServerDatagram. apply wp_bind.
  apply (wp_mono _ (fun _ => in_line L)).
  { apply wp_keeps; [|done]. apply line_unseen, unseen_choose_route. }
  intros [i|] w1 H1; [|by apply wp_ret]. apply wp_bind, wp_modify.
  apply (wp_with_route_line _ _ _ L); [done| |done]. intros r ->.
  apply wp_if; intros _; [done|]. apply wp_keeps; [|done]. repeat keeps_step.
  - by apply keeps_line_update.
  - apply line_unseen. unseen.
  - apply line_unseen. unseen.
Qed.

Lemma keeps_line_OnRouteWritable p L : keeps (in_line L) (OnRouteWritable p).
Proof.
  apply keeps_wp. intros w Hw. unfold OnRouteWritable. apply wp_bind.
  apply (wp_mono _ (fun _ => in_line L)).
  { apply wp_keeps; [|done]. apply line_unseen. unseen. }
  intros _ w1 H1. apply wp_bind, wp_gets. destruct (find_index _ _) as [i|] eqn:Ei; [|done].
  exfalso. pose proof (find_index_lt _ _ _ Ei) as Hl. apply lookup_lt_is_Some in Hl as [r Hr].
  pose proof (find_index_Some _ _ _ _ Ei Hr) as Hf. apply andb_true_iff in Hf as [_ Hf].
  apply bool_decide_eq_true in Hf as [q Hq]. destruct H1 as [Hu _]. unfold unbridged in Hu.
  rewrite Forall_forall in Hu. rewrite (Hu r) in Hq; [done|]. by apply (list_elem_of_lookup_2 _ i).
Qed.

Lemma keeps_line_add_new_route c L : keeps (in_line L) (add_new_route c).
Proof.
  unfold add_new_route, for_server. repeat keeps_step; try (apply line_unseen; unseen; fail).
  apply (keeps_line_routes L (fun l => l ++ [_])). intros l H. apply Forall_app. split; [done|].
  by constructor.
Qed.

Lemma keeps_line_AddRoute c L : keeps (in_line L) (AddRoute c).
Proof.
  unfold AddRoute. apply (keeps_gets_with _ (Forall (fun r => quic r = None))); [by intros w [? _]|].
  intros l Hl. destruct (find_index _ _) as [i|]; [|apply keeps_line_add_new_route].
  destruct (l !! i); [|apply line_unseen; unseen].
  apply keeps_bind; [apply line_unseen; unseen|]. intros open. apply keeps_if.
  - apply keeps_bind; [by apply keeps_line_update|intros _; apply keeps_ret].
  - apply keeps_bind; [apply line_unseen; unseen|intros _].
    apply keeps_bind; [|intros _; apply keeps_line_add_new_route].
    apply keeps_modify. intros w [_ H]. split; [by apply Forall_delete|done].
Qed.

Lemma keeps_line_OnPeerClosed p e L : keeps (in_line L) (OnPeerClosed p e).
Proof. apply line_unseen. unseen. Qed.

Lemma handle_in_line e L w : in_line L w -> in_line (L ++ offered e w) (exec (handle e) w).
Proof.
  intros Hw. destruct e as [now cs ss us ds tap|c| |p from data|p|p e|p e];
    cbn [offered handle]; rewrite ?app_nil_r.
  - done.
  - rewrite exec_bind. by apply keeps_line_AddRoute.
  - apply line_stay; [unseen|done].
  - rewrite exec_bind. unfold peer_OnReceive. rewrite !exec_bind. cbn.
    destruct (peers w !! p) as [o|].
    + case_bool_decide; [rewrite app_nil_r; by apply keeps_line_ForwardServer|].
      by apply ForwardClient_in_line.
    + rewrite app_nil_r. apply (line_unseen (temit TFault;; mret false)); [unseen|done].
  - unfold peer_OnSend. rewrite exec_bind. cbn. case_bool_decide.
    + apply line_stay; [unseen|done].
    + by apply keeps_line_OnRouteWritable.
  - unfold peer_OnConnect. rewrite exec_bind. cbn. case_bool_decide; cbn [negb]; [|done].
    destruct (e =? 0).
    + apply line_stay; [unseen|done].
    + apply line_unseen; [unseen|done].
  - apply line_unseen; [|done]. unfold peer_OnClose. unseen.
Qed.

End Unbridged.

(** ** Runs *)

(** The datagrams of a run, in the order they came. *)
Fixpoint run (es : list event) (w : task) : task :=
  match es with [] => w | e :: es => run es (exec (handle e) w) end.
Fixpoint accepted (es : list event) (w : task) : list (CSAddrInfo * bytes) :=
  match es with [] => [] | e :: es => offered e w ++ accepted es (exec (handle e) w) end.

Lemma run_in_line (Hno : forall c d, CQuicBridge_Open c d = None) es L w : in_line L w -> in_line (L ++ accepted es w) (run es w).
Proof.
  revert L w. induction es as [|e es IH]; intros L w Hw; cbn; [by rewrite app_nil_r|].
  rewrite app_assoc. by apply IH, handle_in_line.
Qed.


Lemma run_held L F A es w :
  held L F A w -> (forall x, x ∈ accepted es w -> x ∈ A) -> held L F A (run es w).
Proof.
  revert w. induction es as [|e es IH]; intros w Hw Ha; cbn in *; [done|].
  apply IH; [apply handle_held; [done|]|]; intros x Hx; apply Ha, elem_of_app; [by left|by right].
Qed.

(** C13: Datagrams never overtake each other on the way up.  Whatever happens
    to a task, some datagrams are given to its association, and what the
    upstream peer has taken, followed by what still waits, is a subsequence of
    what it had taken before, what waited before, and the datagrams given
    since, in that order: reconnects, full queues and expiry only drop
    datagrams.  Every datagram given is one the application sent, or one a
    QUIC bridge gives back; and where no bridge is attached or ever opened, the
    datagrams given are the application's in their order (a route whose bridge
    was retired drops some). *)
Theorem upstream_fifo (es : list event) (w : task) :
  exists given, fwd (trace (run es w)) = fwd (trace w) ++ given /\
    line (run es w) `sublist_of` line w ++ given /\
    Forall (origin (accepted es w)) given /\
    ((forall c d, CQuicBridge_Open c d = None) -> unbridged w -> given `sublist_of` accepted es w).
Proof.
  assert (H : held (line w) (fwd (trace w)) (accepted es w) (run es w)).
  { apply run_held; [|done]. exists []. rewrite !app_nil_r. by split_and!. }
  destruct H as (given & E & Hl & Hg). exists given. split_and!; [done..|]. intros Hno Hu.
  destruct (run_in_line Hno es (fwd (trace w)) w) as [_ Hs]; [by split|].
  rewrite E in Hs. by apply sublist_app_inv_l in Hs.
Qed.
End Order.

(** Two datagrams before the association is ready, one after. *)
Definition three_datagrams : list event :=
  [Received 0 application_address [1]; Received 0 application_address [2; 2];
   Connected 1 0; Received 0 application_address [3]].

(** A bridge that holds a datagram back until the next one of its route comes. *)
Definition late_bridge : QuicBridge := {|
  bridge := list bytes;
  CQuicBridge_Open := fun _ d => Some [d];
  Feed := fun side d q => if side then (false, q) else (true, q ++ [d]);
  Peek := fun side q => if side then (match q with x :: _ :: _ => Some x | _ => None end, q) else (None, q);
  Consume := fun side q => if side then tail q else q;
  Passthrough := fun _ => false;
  Drained := fun q => (false, q);
  WasMitm := fun _ => false |}.

Definition held_start : task (qb := late_bridge) :=
  exec (SetTaskInfo (qb := late_bridge) (text := no_text) some_client some_proxy)
    (set_outside (qb := late_bridge) 100 [None] [Some (v4_address 5000 16777343)] [Sent; Sent; Sent]
      [Sent; Sent] false (new_task (qb := late_bridge) 100)).

Lemma upstream_fifo_witness :
  (map snd (line (run (qb := no_bridge) (text := no_text) three_datagrams started)) = [[1]; [2; 2]; [3]] /\
   exists given, fwd (trace (run (qb := no_bridge) (text := no_text) three_datagrams started)) = given /\
     given `sublist_of` accepted (qb := no_bridge) (text := no_text) three_datagrams started) /\
  exists given, map snd given = [[1]; [2; 2]] /\
    line (run (qb := late_bridge) (text := no_text) three_datagrams held_start) `sublist_of` given.
Proof.
  split; [split; [by vm_compute|]|].
  - destruct (upstream_fifo (qb := no_bridge) (text := no_text) three_datagrams started) as (given & E & _ & _ & Hs).
    exists given. split; [exact E|]. apply Hs; [reflexivity|].
    unfold unbridged. vm_compute. by repeat constructor.
  - destruct (upstream_fifo (qb := late_bridge) (text := no_text) three_datagrams held_start)
      as (given & E & Hl & _). exists given. split; [|exact Hl].
    change given with (fwd (trace held_start) ++ given). rewrite <- E. by vm_compute.
Defined.
