(* ===== verification/UdpTaskRouting.v ===== *)
(** * A reply finds its route

    The destinations of a task's routes can be told apart by the source of a
    reply, because routes are only added to a task that can take them; and the
    choice among them is the right one.  A closing task, at the end, stays
    closed. *)

From S2P Require Import Prelude Winsock SockAddr Effects UdpPolicy UdpCapability UdpTask.
From S2P Require Import UdpTaskRules UdpTaskInv UdpTaskSafety UdpTaskFlow.

Section Routing.
Context {qb : QuicBridge} {text : AddressText}.

Abbreviation TM := (M task).

(** ** Destinations *)

(** What makes two destinations the same. *)
Definition dest_key (d : Destination) : bool * Z * option (list Z) * (Z * (bytes + Z)) :=
  (hasDomain d, port d,
   if hasDomain d then map tolower <$> dest_domain d else None,
   if hasDomain d then (0, inr 0)
   else (family d, if family d =? AF_INET6 then inl (ipv6 d) else inr (ipv4 d))).

Lemma IsSameDestination_key a b :
  is_Some (dest_domain a) -> is_Some (dest_domain b) ->
  IsSameDestination a b = true <-> dest_key a = dest_key b.
Proof.
  intros [x Ea] [y Eb]. unfold IsSameDestination, dest_key. rewrite Ea, Eb. cbn.
  destruct (hasDomain a), (hasDomain b); cbn [eqb negb orb]; try (split; [done|congruence]);
    destruct (Z.eqb_spec (port a) (port b)) as [Ep|Ep]; cbn [negb]; try (split; [done|congruence]).
  - unfold stricmp_eq. rewrite bool_decide_eq_true, Ep. split; congruence.
  - destruct (Z.eqb_spec (family a) (family b)) as [Ef|Ef]; cbn [negb]; [|split; [done|congruence]].
    rewrite Ef, Ep. destruct (family b =? AF_INET6).
    + rewrite bool_decide_eq_true. split; congruence.
    + rewrite Z.eqb_eq. split; congruence.
Qed.

Definition key (c : PRCClient) := dest_key (GetUdpDestination c).

Lemma same_key a b :
  IsSameDestination (GetUdpDestination a) (GetUdpDestination b) = true <-> key a = key b.
Proof. apply IsSameDestination_key; by eexists. Qed.

Definition named (c : PRCClient) : bool := IsDNValid (szDomainName c).

(** Two routes a reply can tell apart: their destinations differ, and differ
    in the port if one of them is a name. *)
Definition apart (a b : PRCClient) : Prop :=
  key a <> key b /\
  (GetPort (dstAddr a) = GetPort (dstAddr b) -> named a = false /\ named b = false).

Lemma apart_sym a b : apart a b -> apart b a.
Proof. unfold apart. intros (? & H). split_and!; auto. intros E. by destruct (H (eq_sym E)). Qed.

(** What [CanAcceptRoute] checks of a route. *)
Lemma apart_accept a b :
  negb (HasProxyDestination a || HasProxyDestination b) &&
    CanShareAssociation (GetUdpDestination a) (GetUdpDestination b) = true ->
  key a <> key b -> apart a b.
Proof.
  intros H Hk. apply andb_true_iff in H as [_ H2]. split; [done|]. intros Ep. unfold CanShareAssociation in H2.
  destruct (IsSameDestination _ _) eqn:Es; [by apply same_key in Es|].
  unfold named. cbn in H2. rewrite Ep, Z.eqb_refl in H2. cbn in H2.
  destruct (IsDNValid (szDomainName a)), (IsDNValid (szDomainName b)); done.
Qed.

Definition separable (cs : list PRCClient) : Prop :=
  forall i j a b, i <> j -> cs !! i = Some a -> cs !! j = Some b -> apart a b.

Lemma separable_snoc cs c :
  separable cs -> Forall (fun a => apart a c) cs -> separable (cs ++ [c]).
Proof.
  intros Hs Hc i j a b Hij Ha Hb. rewrite Forall_forall in Hc.
  apply lookup_app_Some in Ha as [Ha|[Hi Ha]], Hb as [Hb|[Hj Hb]].
  - by eapply Hs.
  - apply list_lookup_singleton_Some in Hb as [_ ->]. by eapply Hc, list_elem_of_lookup_2.
  - apply list_lookup_singleton_Some in Ha as [_ ->]. by eapply apart_sym, Hc, list_elem_of_lookup_2.
  - apply list_lookup_singleton_Some in Ha as [? _], Hb as [? _]. lia.
Qed.

(** A client that registers its destination again. *)
Lemma apart_again a a' b : key a' = key a -> apart a b -> apart a' b.
Proof.
  intros Hk (H3 & H4). split; [congruence|].
  unfold key, dest_key in Hk. injection Hk as Hn Hport _ _. cbn in *.
  unfold named in *. rewrite Hn, Hport. done.
Qed.

Lemma separable_again cs i a a' :
  separable cs -> cs !! i = Some a -> key a' = key a -> separable (<[i := a']> cs).
Proof.
  intros Hs Ha Hk j k x y Hjk Hx Hy.
  assert (Hl : forall z l, <[i := a']> cs !! l = Some z ->
    (l = i /\ z = a') \/ (l <> i /\ cs !! l = Some z)).
  { intros z l Hz. destruct (decide (i = l)) as [<-|Hn].
    - left. rewrite list_lookup_insert_eq in Hz by by eapply lookup_lt_Some. split; congruence.
    - right. rewrite list_lookup_insert_ne in Hz by done. done. }
  destruct (Hl x j Hx) as [[-> ->]|[Nj Ej]], (Hl y k Hy) as [[-> ->]|[Nk Ek]]; try done.
  - exact (apart_again a a' y Hk (Hs i k a y Hjk Ha Ek)).
  - exact (apart_sym _ _ (apart_again a a' x Hk (Hs i j a x (not_eq_sym Hjk) Ha Ej))).
  - exact (Hs j k x y Hjk Ej Ek).
Qed.

(** ** The choice *)

Definition route_open (w : task) (r : UdpRoute) : Prop := p_open <$> peers w !! peer r = Some true.

Lemma peer_open_eq w r : route_open w r -> peer_open (peer r) w = (true, w).
Proof.
  unfold route_open, peer_open, mbind, M_bind, gets. destruct (peers w !! peer r); [|done].
  cbn. by intros [= ->].
Qed.

(** A route the reply does not concern. *)
Definition other (source : _SockAddr) (r : UdpRoute) : Prop :=
  GetPort (GetProxyDestination (client r)) = GetPort source ->
  named (client r) = false /\ SameAddress (GetProxyDestination (client r)) source = false.

Lemma select_skip source i cand count l1 l2 w :
  Forall (route_open w) l1 -> Forall (other source) l1 ->
  select_route source i cand count (l1 ++ l2) w = select_route source (i + length l1) cand count l2 w.
Proof.
  intros Ho Hs. revert i. induction l1 as [|r l1 IH]; intros i; cbn; [by rewrite Nat.add_0_r|].
  apply Forall_cons in Ho as [Hr Ho]. apply Forall_cons in Hs as [Hx Hs].
  unfold mbind at 1, M_bind at 1. rewrite (peer_open_eq w r Hr). cbn [negb orb].
  specialize (IH Ho Hs (S i)). rewrite Nat.add_succ_comm in IH.
  destruct (Z.eqb_spec (GetPort (GetProxyDestination (client r))) (GetPort source)) as [E|E]; cbn [negb]; [|done].
  destruct (Hx E) as [Hn Ha]. unfold named in Hn. by rewrite Hn, Ha.
Qed.

(** The reply's source is the destination of [r]: its address, or what its
    name stands for. *)
Definition comes_from (source : _SockAddr) (r : UdpRoute) : Prop :=
  GetPort (GetProxyDestination (client r)) = GetPort source /\
  (named (client r) = false -> SameAddress (GetProxyDestination (client r)) source = true).

Lemma SameAddress_key a b s :
  named a = false -> named b = false -> GetPort (dstAddr a) = GetPort (dstAddr b) ->
  SameAddress (dstAddr a) s = true -> SameAddress (dstAddr b) s = true -> key a = key b.
Proof.
  unfold named, key, dest_key, SameAddress, IsIPv6, IsIPv4. cbn. intros -> -> -> Ha Hb.
  destruct (Z.eqb_spec (sa_family (dstAddr a)) (sa_family s)) as [Ea|]; [|done].
  destruct (Z.eqb_spec (sa_family (dstAddr b)) (sa_family s)) as [Eb|]; [|done].
  cbn in Ha, Hb. unfold GetAddr6, IsIPv6. rewrite Ea, Eb in *.
  destruct (sa_family s =? AF_INET6).
  - apply bool_decide_eq_true in Ha, Hb. congruence.
  - apply andb_true_iff in Ha as [_ Ha], Hb as [_ Hb]. apply Z.eqb_eq in Ha, Hb. congruence.
Qed.

(** No two routes of a task are there with a redirected one among them. *)
Definition plain (r : UdpRoute) : Prop := HasProxyDestination (client r) = false.
Definition unmixed (rs : list UdpRoute) : Prop := (length rs <= 1)%nat \/ Forall plain rs.

Lemma apart_other source r r' :
  plain r' -> plain r -> apart (client r') (client r) -> comes_from source r -> other source r'.
Proof.
  intros H1 H2 (H3 & H4) [Hp Ha] Hp'. unfold plain, GetProxyDestination in *. rewrite H1, H2 in *.
  destruct H4 as [Hn' Hn]; [congruence|]. split; [done|]. apply not_true_iff_false. intros Hs.
  apply H3. apply (SameAddress_key _ _ source); auto. congruence.
Qed.

Lemma choose_route_exact w i r source :
  separable (clients w) -> unmixed (m_routes w) -> Forall (route_open w) (m_routes w) ->
  m_routes w !! i = Some r -> comes_from source r ->
  choose_route source w = (Some i, w).
Proof.
  intros Hsep Hmix Ho Hi Hc. unfold choose_route, mbind, M_bind, gets.
  destruct (list_elem_of_split_length _ _ _ Hi) as (l1 & l2 & E & ->).
  assert (Hoth : forall j r', j <> length l1 -> m_routes w !! j = Some r' -> other source r').
  { intros j r' Hj Hr'. destruct Hmix as [Hl|Hp].
    { apply lookup_lt_Some in Hr', Hi. lia. }
    rewrite Forall_forall in Hp. eapply apart_other; [| | |done];
      [by eapply Hp, list_elem_of_lookup_2|by eapply Hp, list_elem_of_lookup_2|]. apply (Hsep j (length l1)); [done| |];
      unfold clients; rewrite list_lookup_fmap; [by rewrite Hr'|by rewrite Hi]. }
  assert (H1 : Forall (other source) l1).
  { apply Forall_lookup. intros j r' Hr'. pose proof (lookup_lt_Some _ _ _ Hr') as Hl.
    apply (Hoth j); [lia|]. rewrite E. by apply lookup_app_l_Some. }
  assert (H2 : Forall (other source) l2).
  { apply Forall_lookup. intros j r' Hr'.
    apply (Hoth (length l1 + S j)%nat); [lia|]. rewrite E, lookup_app_r by lia.
    by replace (length l1 + S j - length l1)%nat with (S j) by lia. }
  rewrite E in Ho |- *. apply Forall_app in Ho as [Ho1 Ho]. apply Forall_cons in Ho as [Hr Ho2].
  rewrite select_skip by done. cbn [select_route Nat.add]. unfold mbind at 1, M_bind at 1.
  rewrite (peer_open_eq w r Hr). cbn [negb orb]. destruct Hc as [Hp Ha].
  rewrite Hp, Z.eqb_refl. cbn [negb]. unfold named in Ha.
  destruct (IsDNValid (szDomainName (client r))) eqn:En; cbn [negb andb].
  - rewrite <- (app_nil_r l2), select_skip by done. done.
  - by rewrite Ha.
Qed.

(** ** The clients of the routes *)

Lemma clients_QueueDatagram t data : preserves clients (QueueDatagram t data).
Proof.
  unfold QueueDatagram. apply preserves_bind; [|intros _; unseen].
  apply preserves_modify. intros w. by destruct (make_room _ _ _).
Qed.
Lemma clients_pop_pending : preserves clients pop_pending.
Proof. apply preserves_modify. intros w. by destruct (m_pending w). Qed.
Lemma clients_server_send t data : preserves clients (server_send t data).
Proof. intros v w <-. unfold exec, server_send, send_outcome. by destruct (up_sends w) as [|[] r]. Qed.
#[local] Hint Resolve clients_QueueDatagram clients_pop_pending clients_server_send : unseen.

Lemma clients_expire now : preserves clients (ExpirePendingDatagrams now).
Proof.
  apply preserves_bind; [unseen|]. intros l. induction l; cbn [expire_loop]; unseen; done.
Qed.
Lemma clients_send_pending fuel now : preserves clients (send_pending fuel now).
Proof.
  induction fuel as [|fuel IH]; cbn [send_pending]; unfold get_error; unseen; done.
Qed.
#[local] Hint Resolve clients_expire clients_send_pending : unseen.
Lemma clients_OnServerWritable : preserves clients OnServerWritable.
Proof. unfold OnServerWritable. unseen. Qed.
#[local] Hint Resolve clients_OnServerWritable : unseen.
Lemma clients_Wake : preserves clients WakeServerAssociation.
Proof.
  unfold WakeServerAssociation, get_error. unseen.
  apply preserves_clients, unseen_failed_association; unseen.
Qed.
#[local] Hint Resolve clients_Wake : unseen.
Lemma clients_OnServerReady p : preserves clients (OnServerReady p).
Proof. unfold OnServerReady. unseen. Qed.
Lemma clients_Timer : preserves clients OnMaintenanceTimer.
Proof. unfold OnMaintenanceTimer. unseen. Qed.
Lemma clients_ForwardUpstream t data : preserves clients (ForwardUpstreamDatagram t data).
Proof. unfold ForwardUpstreamDatagram, get_error. unseen. Qed.
#[local] Hint Resolve clients_OnServerReady clients_Timer clients_ForwardUpstream : unseen.

Lemma clients_with_route {A} i (d : A) k :
  (forall r, preserves clients (k r)) -> preserves clients (with_route i d k).
Proof. intros H. unfold with_route. unseen. Qed.
Lemma clients_with_bridge {A} i (d : A) k :
  (forall r q, preserves clients (k r q)) -> preserves clients (with_bridge i d k).
Proof. intros H. apply clients_with_route. intros r. unseen. Qed.

Lemma clients_pump_side side i n : preserves clients (pump_side side i n).
Proof.
  induction n as [|n IH]; cbn [pump_side]; [unseen|]. apply clients_with_bridge. intros r q.
  destruct (Peek side q) as [d q']. unfold store_bridge. unseen.
  apply clients_with_bridge. intros r1 q1. unfold store_bridge. unseen.
Qed.
Lemma clients_PumpQuic i : preserves clients (PumpQuic i).
Proof.
  unfold PumpQuic. apply preserves_bind; [apply clients_pump_side|intros _].
  apply preserves_bind; [apply clients_pump_side|intros _].
  apply clients_with_bridge. intros r q. unfold store_bridge. unseen.
Qed.
#[local] Hint Resolve clients_PumpQuic : unseen.

Lemma clients_ForwardClient p t app data : preserves clients (ForwardClientDatagram p t app data).
Proof.
  unfold ForwardClientDatagram, tap_route, store_bridge. unseen.
  - apply clients_with_route. intros r. unseen.
  - apply clients_with_route. intros r. unseen. unfold forward_unbridged, tap_route.
    apply clients_with_route. intros r'. unseen.
Qed.
Lemma clients_ForwardServer source data : preserves clients (ForwardServerDatagram source data).
Proof.
  unfold ForwardServerDatagram, store_bridge.
  apply preserves_bind; [apply preserves_clients, unseen_choose_route|intros o]. unseen.
  apply clients_with_route. intros r. unseen.
Qed.
Lemma clients_OnRouteWritable p : preserves clients (OnRouteWritable p).
Proof. unfold OnRouteWritable. unseen. Qed.

Lemma clients_handle e : (forall c, e <> NewRoute c) -> preserves clients (handle e).
Proof.
  intros He. destruct e as [now cs ss us ds tap|c| |p from data|p|p e|p e]; cbn [handle].
  - unseen.
  - by destruct (He c).
  - unseen.
  - unfold peer_OnReceive. unseen; [apply clients_ForwardServer|apply clients_ForwardClient].
  - unfold peer_OnSend. unseen. apply clients_OnRouteWritable.
  - unfold peer_OnConnect. unseen.
  - unfold peer_OnClose. unseen.
Qed.

(** ** Routes stay apart *)

Lemma eval_HasRoute c w : eval (HasRoute c) w = existsb (same_route c) (m_routes w).
Proof. done. Qed.

Lemma eval_CanAcceptRoute c w :
  eval (CanAcceptRoute c) w = forallb (fun r =>
    negb (HasProxyDestination (client r) || HasProxyDestination c) &&
    CanShareAssociation (GetUdpDestination (client r)) (GetUdpDestination c)) (m_routes w).
Proof. done. Qed.

Lemma same_route_key c r : same_route c r = true <-> key (client r) = key c.
Proof. apply same_key. Qed.

Lemma key_set_udpAddr a c : key (set_udpAddr a c) = key c.
Proof. done. Qed.

Lemma apart_set_udpAddr a b x : apart a b -> apart a (set_udpAddr x b).
Proof. done. Qed.

Lemma wp_add_new_route_clients c w :
  wp (add_new_route c)
    (fun r w' => (fst r = false /\ clients w' = clients w) \/
       (fst r = true /\ (exists a, snd r = set_udpAddr a c) /\ clients w' = clients w ++ [snd r])) w.
Proof.
  unfold add_new_route. apply wp_bind, wp_gets, wp_bind. unfold new_peer. unfold wp at 1.
  set (w1 := set_next_peer _ _). apply wp_bind, wp_gets, wp_bind, wp_modify.
  set (w2 := set_sockets _ w1).
  assert (Hdel : forall p, wp (delete_peer p;; mret (false, c)) (fun r w' =>
    (fst r = false /\ clients w' = clients w) \/
    (fst r = true /\ (exists a, snd r = set_udpAddr a c) /\ clients w' = clients w ++ [snd r])) w2).
  { intros p. apply wp_bind. eapply (wp_mono _ (fun _ w' => clients w' = clients w)).
    - apply wp_exec. apply (preserves_exec clients (delete_peer p) w2). unseen.
    - intros [] w' E. apply wp_ret. by left. }
  destruct (sockets w1) as [|[a|] socks]; [apply Hdel| |apply Hdel].
  apply wp_bind. eapply (wp_mono _ (fun _ w' => clients w' = clients w)).
  { apply wp_exec. apply (preserves_exec clients _ w2). unseen. }
  intros _ w3 E3. apply wp_bind, wp_modify, wp_bind, wp_gets, wp_bind.
  match goal with |- wp _ _ ?x => set (w4 := x) end.
  assert (E4 : clients w4 = clients w ++ [set_udpAddr a c]).
  { unfold clients in *. cbn. by rewrite map_app, E3. }
  eapply (wp_mono _ (fun _ w' => clients w' = clients w4)).
  - apply wp_exec, (preserves_exec clients). unfold for_server. unseen.
  - intros [] w5 E5. apply wp_ret. right. split; [done|]. split; [by exists a|]. cbn. congruence.
Qed.

Lemma clients_set_client i r c w :
  m_routes w !! i = Some r ->
  map client (alter (set_client c) i (m_routes w)) = <[i := c]> (clients w).
Proof.
  intros Hr. apply list_eq. intros j. unfold clients. rewrite list_lookup_fmap.
  destruct (decide (i = j)) as [<-|Hn].
  - rewrite list_lookup_alter_eq, Hr. rewrite list_lookup_insert_eq; [done|].
    rewrite length_map. by eapply lookup_lt_Some.
  - by rewrite list_lookup_alter_ne, list_lookup_insert_ne, list_lookup_fmap.
Qed.

(** A route is added to an open task: it is there afterwards, and the clients
    that are not there any more had its address. *)
Lemma wp_AddRoute_clients c w (Q : bool * PRCClient -> task -> Prop) :
  any_ok [] w -> m_upstreamState w <> UPSTREAM_CLOSING ->
  (forall c0 w', clients w' = clients w -> Q (false, c0) w') ->
  (forall a w', set_udpAddr a c ∈ clients w' ->
     (forall x, x ∈ clients w -> x ∈ clients w' \/ udpAddr x = a) ->
     Q (true, set_udpAddr a c) w') ->
  wp (AddRoute c) Q w.
Proof.
  intros (ps & qs & Hok) Hst Hf Ht. unfold AddRoute.
  apply wp_bind, wp_gets. destruct (find_index _ _) as [i|] eqn:Ei.
  - pose proof (find_index_lt _ _ _ Ei) as Hl. apply lookup_lt_is_Some in Hl as [r Hr]. rewrite Hr.
    assert (Hp : peer r ∈ ps) by (eapply route_peers; [done|]; by apply (list_elem_of_lookup_2 _ i)).
    destruct Hok as [[] _]. specialize (i_open Hst). rewrite Forall_forall in i_open.
    specialize (i_open _ Hp). destruct (peers w !! peer r) as [o|] eqn:Eo; [|done]. cbn in i_open.
    apply wp_bind, (wp_peer_open _ o); [done|]. replace (p_open o) with true by congruence.
    apply wp_bind, wp_modify, wp_ret.
    assert (Hc : clients w !! i = Some (client r)) by (unfold clients; by rewrite list_lookup_fmap, Hr).
    pose proof (lookup_lt_Some _ _ _ Hc) as Hlt.
    match goal with |- Q _ ?w2 => assert (Hw2 : clients w2 =
      <[i := set_udpAddr (udpAddr (client r)) c]> (clients w)) by by apply (clients_set_client i r) end.
    apply Ht; rewrite Hw2.
    + apply (list_elem_of_lookup_2 _ i). by apply list_lookup_insert_eq.
    + intros x Hx. apply list_elem_of_lookup_1 in Hx as [j Hj].
      destruct (decide (i = j)) as [<-|Hn]; [right|left].
      { rewrite Hc in Hj. by injection Hj as <-. }
      apply (list_elem_of_lookup_2 _ j). by rewrite list_lookup_insert_ne.
  - eapply wp_mono; [apply wp_add_new_route_clients|].
    intros [ok c'] w' [[E1 E2]|(E1 & [a E3] & E2)]; cbn in *; subst; [by apply Hf|].
    apply Ht; rewrite E2.
    + apply elem_of_app. right. by left.
    + intros x Hx. left. apply elem_of_app. by left.
Qed.

(** The manager adds a route to the task that has its destination, or to one
    that can take it. *)
Definition managed_event (e : event) (w : task) : Prop :=
  allowed e w /\
  match e with
  | NewRoute c => eval (HasRoute c) w = true \/ eval (CanAcceptRoute c) w = true
  | _ => True
  end.

Inductive managed : task -> Prop :=
  | managed_start now cs ss us ds tap c p w :
      w = set_outside now cs ss us ds tap (new_task now) ->
      fst (eval (SetTaskInfo c p) w) = true ->
      managed (exec (SetTaskInfo c p) w)
  | managed_step w e :
      managed w -> managed_event e w -> managed (exec (handle e) w).

Lemma managed_reachable w : managed w -> reachable w.
Proof. induction 1 as [|w e _ IH [Ha _]]; [by eapply reach_start|by apply reach_step]. Qed.

Lemma separable_AddRoute c w :
  any_ok [] w -> managed_event (NewRoute c) w -> separable (clients w) ->
  separable (clients (exec (AddRoute c) w)).
Proof.
  intros (ps & qs & Hok) (Hst & Hacc) Hs. cbn in Hst. apply wp_exec. unfold AddRoute.
  apply wp_bind, wp_gets. destruct (find_index _ _) as [i|] eqn:Ei.
  - pose proof (find_index_lt _ _ _ Ei) as Hl. apply lookup_lt_is_Some in Hl as [r Hr]. rewrite Hr.
    pose proof (find_index_Some _ _ _ _ Ei Hr) as Hsame. apply same_route_key in Hsame.
    assert (Hp : peer r ∈ ps) by (eapply route_peers; [done|]; by apply (list_elem_of_lookup_2 _ i)).
    destruct Hok as [[] _]. specialize (i_open Hst). rewrite Forall_forall in i_open.
    specialize (i_open _ Hp). destruct (peers w !! peer r) as [o|] eqn:Eo; [|done]. cbn in i_open.
    apply wp_bind, (wp_peer_open _ o); [done|]. replace (p_open o) with true by congruence.
    apply wp_bind, wp_modify, wp_ret. unfold clients. cbn.
    rewrite (clients_set_client i r _ w Hr). apply (separable_again _ _ (client r)); [done| |done].
    unfold clients. by rewrite list_lookup_fmap, Hr.
  - assert (Hno : Forall (fun r => same_route c r = false) (m_routes w)).
    { clear -Ei. induction (m_routes w) as [|r l IH]; cbn in Ei; [constructor|].
      destruct (same_route c r) eqn:E; [done|]. destruct (find_index _ l); [done|].
      constructor; auto. }
    assert (Hap : Forall (fun a => apart a c) (clients w)).
    { destruct Hacc as [Hh|Hacc].
      - rewrite eval_HasRoute in Hh. apply existsb_exists in Hh as (r & Hin & Hh).
        rewrite Forall_forall in Hno. rewrite Hno in Hh; [done|]. by apply list_elem_of_In.
      - rewrite eval_CanAcceptRoute, forallb_forall in Hacc. unfold clients. apply Forall_map.
        rewrite Forall_forall in *. intros r Hr. apply apart_accept.
        + apply Hacc. by apply list_elem_of_In.
        + intros E. apply same_route_key in E. rewrite Hno in E; done. }
    eapply wp_mono; [apply wp_add_new_route_clients|].
    intros [ok c'] w' [[_ ->]|(_ & [a Ea] & ->)]; [done|]. cbn in Ea |- *. subst c'.
    apply separable_snoc; [done|]. eapply Forall_impl; [exact Hap|]. intros x. apply apart_set_udpAddr.
Qed.

Lemma managed_separable w : managed w -> separable (clients w).
Proof.
  induction 1 as [now cs ss us ds tap c p w -> Hok|w e Hw IH He].
  - apply wp_exec. unfold SetTaskInfo. apply wp_bind, wp_modify, wp_bind, wp_modify, wp_bind.
    set (w1 := set_m_ProxyInfo _ _). unfold AddRoute. apply wp_bind, wp_gets. cbn [find_index].
    eapply (wp_mono _ (fun _ w' => separable (clients w'))).
    + eapply wp_mono; [apply wp_add_new_route_clients|].
      assert (H1 : clients w1 = []) by done. rewrite H1.
      intros [ok c'] w' [[_ ->]|(_ & [a Ea] & ->)]; intros i j x y Hij; [by rewrite lookup_nil|].
      intros Hi Hj. apply list_lookup_singleton_Some in Hi as [? _], Hj as [? _]. lia.
    + intros [ok c'] w2 H2. apply wp_if; intros _; [by apply wp_bind, wp_modify, wp_ret|].
      apply wp_exec. rewrite (preserves_exec clients); [done|]. unfold for_server. unseen.
  - destruct e as [now cs ss us ds tap|c| |p from data|p|p e|p e];
      try (rewrite (preserves_exec clients); [done|by apply clients_handle]).
    cbn [handle]. rewrite exec_bind. cbn [exec snd].
    apply separable_AddRoute; [by apply reachable_ok, managed_reachable|done|done].
Qed.

(** What the delivery of a reply does to the trace. *)
Definition delivers (r : UdpRoute) (data : bytes) (w : task) : list task_output :=
  (if tap_enabled w && capture r then [TTap true data] else []) ++
  [TDown (peer r) (reply_address r) data; TTraffic true (Z.of_nat (length data))].

(** C24: A reply reaches the application through the route it belongs to.  The
    task is any that the manager builds and that is not closing, and it does
    not share itself between several routes of which one was redirected to
    another resolver (the manager lets such a route in when its destination is
    registered again; then two routes can have one destination).  A datagram
    from the upstream whose source is the destination of a route (its address
    and port; for a name, the port) is given to that route and no other.  If
    the route has no QUIC bridge, attached or retired, and its socket takes
    the datagram, that socket sends it to where the application sent from, and
    besides the copy for the protocol tap that is all that is sent. *)
Theorem reply_reaches_its_route (w : task) (i : nat) (r : UdpRoute) source data :
  managed w -> m_upstreamState w <> UPSTREAM_CLOSING -> unmixed (m_routes w) ->
  m_routes w !! i = Some r -> comes_from source r ->
  choose_route source w = (Some i, w) /\
  (quic r = None -> quicRetired r = false -> head (down_sends w) = Some Sent ->
   eval (ForwardServerDatagram source data) w = true /\
   trace (exec (ForwardServerDatagram source data) w) = trace w ++ delivers r data w).
Proof.
  intros Hm Hst Hmix Hr Hc.
  destruct (reachable_ok w (managed_reachable w Hm)) as (ps & qs & Hok).
  assert (Ho : Forall (route_open w) (m_routes w)).
  { destruct Hok as [[] _]. specialize (i_open Hst). rewrite <- i_peers in i_open.
    by rewrite Forall_map in i_open. }
  pose proof (choose_route_exact w i r source (managed_separable w Hm) Hmix Ho Hr Hc) as Hch.
  split; [done|]. intros Hq Hret Hd.
  set (Q := fun (b : bool) (w' : task) => b = true /\ trace w' = trace w ++ delivers r data w).
  assert (H : wp (ForwardServerDatagram source data) Q w).
  { unfold ForwardServerDatagram. apply wp_bind. unfold wp at 1. rewrite Hch.
    apply wp_bind, wp_modify. unfold with_route. apply wp_bind, wp_gets. cbn [m_routes set_m_lastActivity].
    rewrite Hr, Hq, Hret. apply wp_bind, wp_gets. cbn [tap_enabled set_m_lastActivity].
    assert (Hend : forall w2, peers w2 = peers w -> down_sends w2 = down_sends w ->
      trace w2 = trace w ++ (if tap_enabled w && capture r then [TTap true data] else []) ->
      wp (DeliverServerDatagram r data) Q w2).
    { intros w2 E1 E2 E3. unfold DeliverServerDatagram. apply wp_bind. unfold route_send. apply wp_bind.
      unfold wp at 1. assert (Hr2 : route_open w2 r).
      { unfold route_open. rewrite E1. rewrite Forall_forall in Ho. by apply Ho, (list_elem_of_lookup_2 _ i). }
      rewrite (peer_open_eq w2 r Hr2). unfold wp at 1, send_outcome. rewrite E2.
      destruct (down_sends w) as [|s d]; [done|]. injection Hd as ->. rewrite Z.eqb_refl.
      apply wp_bind, wp_modify, wp_ret. split; [done|]. cbn. by rewrite E3, <- !app_assoc. }
    destruct (tap_enabled w); cbn [negb andb when] in *.
    - apply wp_bind, wp_ret, wp_bind. destruct (capture r); [apply wp_modify|apply wp_ret]; apply Hend; try done.
      cbn. by rewrite app_nil_r.
    - apply wp_bind, wp_modify, wp_bind, wp_ret. apply Hend; try done. cbn. by rewrite app_nil_r. }
  unfold wp in H. unfold eval, exec. by destruct (ForwardServerDatagram source data w).
Qed.
End Routing.

(** The answer of the resolver comes back on the route to the resolver. *)
Lemma started_managed : managed (text := no_text) started.
Proof. by eapply (managed_start (text := no_text) 100 _ _ _ _ false some_client some_proxy). Qed.

Lemma reply_reaches_its_route_witness :
  exists r : UdpRoute (qb := no_bridge), m_routes started !! 0%nat = Some r /\
  choose_route resolver started = (Some 0%nat, started) /\
  trace (exec (ForwardServerDatagram (text := no_text) resolver [9]) started)
    = trace started ++ [TDown (peer r) (reply_address (text := no_text) r) [9]; TTraffic true 1].
Proof.
  destruct (m_routes started !! 0%nat) as [r|] eqn:E; [|vm_compute in E; discriminate].
  exists r. split; [reflexivity|].
  destruct (reply_reaches_its_route (text := no_text) started 0 r resolver [9]) as [H1 H2].
  - apply started_managed.
  - vm_compute. discriminate.
  - left. vm_compute. lia.
  - exact E.
  - vm_compute in E. injection E as <-. by vm_compute.
  - split; [exact H1|].
    assert (Hd : delivers (text := no_text) r [9] started
      = [TDown (peer r) (reply_address (text := no_text) r) [9]; TTraffic true 1]) by reflexivity.
    rewrite <- Hd. apply H2; vm_compute in E; injection E as <-; by vm_compute.
Defined.

(** * A closing UDP task is closed

    Once a task is in UPSTREAM_CLOSING, none of the sockets it has is open:
    [CloseTask] is the only way there, and nothing is opened afterwards.  So
    [IsClosed] tells the manager what it means to. *)

Section Closed.
Context {qb : QuicBridge} {text : AddressText}.

Abbreviation TM := (M task).

Definition shut (p : nat) (w : task) : Prop := p_open <$> peers w !! p <> Some true.

Definition closing_closed (w : task) : Prop :=
  m_upstreamState w = UPSTREAM_CLOSING -> forall p, owns p w -> shut p w.

Definition not_closing (w : task) : Prop := m_upstreamState w <> UPSTREAM_CLOSING.

Lemma not_closing_closed w : not_closing w -> closing_closed w.
Proof. intros H Hst. by destruct (H Hst). Qed.

(** What the two predicates see. *)
Definition sees (w : task) := (m_upstreamState w, map peer (m_routes w), m_pServer w, peers w).

Lemma closed_sees w w' : sees w' = sees w -> closing_closed w -> closing_closed w'.
Proof. unfold sees, closing_closed, shut, owns. intros [= E1 E2 E3 E4]. by rewrite E1, E2, E3, E4. Qed.

Lemma keeps_sees {A} (m : TM A) : preserves sees m -> keeps closing_closed m.
Proof. intros H w Hw. eapply closed_sees; [by apply preserves_exec|done]. Qed.

(** The heap of peers may change as long as no peer is opened. *)
Lemma closed_peers h w :
  (forall p, p_open <$> h !! p = Some true -> p_open <$> peers w !! p = Some true) ->
  closing_closed w -> closing_closed (set_peers h w).
Proof. intros H Hw Hst p Hp Ho. by apply (Hw Hst p Hp), H. Qed.

Lemma keeps_not_closing_with_peer p f : keeps not_closing (with_peer p f).
Proof. unfold with_peer. repeat keeps_step; by apply keeps_modify. Qed.

Lemma keeps_not_closing_delete p : keeps not_closing (delete_peer p).
Proof. unfold delete_peer. repeat keeps_step; by apply keeps_modify. Qed.

Lemma keeps_closed_with_peer p f :
  (forall o, p_open (f o) = true -> p_open o = true) -> keeps closing_closed (with_peer p f).
Proof.
  intros Hf w Hw. unfold with_peer, exec, mbind, M_bind, gets. destruct (peers w !! p) as [o|] eqn:E.
  - cbn. apply closed_peers; [|done]. intros q. destruct (decide (q = p)) as [->|Hn].
    + rewrite lookup_insert_eq, E. cbn. intros [= H]. by rewrite (Hf o H).
    + by rewrite lookup_insert_ne.
  - by apply (closed_sees w).
Qed.

Lemma keeps_closed_SetPartner p q : keeps closing_closed (SetPartner p q).
Proof. by apply keeps_closed_with_peer. Qed.
Lemma keeps_closed_PeerClose p : keeps closing_closed (PeerClose p).
Proof. by apply keeps_closed_with_peer. Qed.

Lemma keeps_closed_delete p : keeps closing_closed (delete_peer p).
Proof.
  intros w Hw. unfold delete_peer, exec, mbind, M_bind, gets. destruct (peers w !! p) as [o|] eqn:E.
  - cbn. apply closed_peers; [|done]. intros q. destruct (decide (q = p)) as [->|Hn].
    + by rewrite lookup_delete_eq.
    + by rewrite lookup_delete_ne.
  - by apply (closed_sees w).
Qed.

Lemma keeps_closed_peer_open p : keeps closing_closed (peer_open p).
Proof. unfold peer_open. repeat keeps_step. by apply keeps_modify. Qed.

Lemma keeps_closed_no_server : keeps closing_closed (modify (set_m_pServer None)).
Proof. apply keeps_modify. intros w Hw Hst p [?|Hp]; [done|]. apply (Hw Hst). by right. Qed.

Lemma keeps_closed_for_each {A} (f : A -> TM unit) l :
  (forall x, keeps closing_closed (f x)) -> keeps closing_closed (for_each f l).
Proof. intros H. apply keeps_for_each. intros x _. apply H. Qed.

Lemma keeps_closed_state st : st <> UPSTREAM_CLOSING -> keeps closing_closed (modify (set_m_upstreamState st)).
Proof. intros H. apply keeps_modify. intros w _. by apply not_closing_closed. Qed.
End Closed.

Create HintDb closed.
#[export] Hint Resolve keeps_closed_SetPartner keeps_closed_PeerClose keeps_closed_delete
  keeps_closed_peer_open keeps_closed_no_server : closed.

(** One step through an operation that opens nothing. *)
Ltac closed_step :=
  match goal with
  | |- keeps closing_closed (temit _) => apply keeps_sees, preserves_modify; reflexivity
  | |- keeps closing_closed (for_each _ _) => apply keeps_closed_for_each; intros ?
  | |- keeps closing_closed (for_server _) => unfold for_server
  | |- keeps closing_closed (modify (set_m_upstreamState _)) => by apply keeps_closed_state
  | |- keeps closing_closed _ => solve [eauto with closed nocore]
  | |- keeps closing_closed (modify _) => apply keeps_sees, preserves_modify; reflexivity
  | |- _ => keeps_step
  end.
Tactic Notation "closed" := repeat closed_step.

Section Ops.
Context {qb : QuicBridge} {text : AddressText}.

Abbreviation TM := (M task).

Lemma keeps_closed_server_open : keeps closing_closed server_open.
Proof. unfold server_open. closed. Qed.
#[local] Hint Resolve keeps_closed_server_open : closed.

Lemma keeps_closed_reset_backoff : keeps closing_closed reset_backoff.
Proof. unfold reset_backoff. closed. Qed.

Lemma keeps_closed_send_outcome get set o n :
  (forall v w, sees (set v w) = sees w) -> keeps closing_closed (send_outcome get set o n).
Proof.
  intros H. apply keeps_sees. intros v w <-. unfold send_outcome, exec.
  destruct (get w) as [|[] r]; try done; apply (H r w).
Qed.

Lemma keeps_closed_server_send t data : keeps closing_closed (server_send t data).
Proof. by apply keeps_closed_send_outcome. Qed.

Lemma keeps_closed_route_send p app data : keeps closing_closed (route_send p app data).
Proof. unfold route_send, set_error. closed. by apply keeps_closed_send_outcome. Qed.
#[local] Hint Resolve keeps_closed_reset_backoff keeps_closed_server_send keeps_closed_route_send : closed.

Lemma keeps_closed_QueueDatagram t data : keeps closing_closed (QueueDatagram t data).
Proof.
  unfold QueueDatagram. closed. apply keeps_sees, preserves_modify. intros w. by destruct (make_room _ _ _).
Qed.

Lemma keeps_closed_QueueReply p app data : keeps closing_closed (QueueReply p app data).
Proof.
  unfold QueueReply. closed. apply keeps_sees, preserves_modify. intros w. by destruct (make_room _ _ _).
Qed.

Lemma keeps_closed_pop_pending : keeps closing_closed pop_pending.
Proof. apply keeps_sees, preserves_modify. intros w. by destruct (m_pending w). Qed.
#[local] Hint Resolve keeps_closed_QueueDatagram keeps_closed_QueueReply keeps_closed_pop_pending : closed.

Lemma keeps_closed_expire now : keeps closing_closed (ExpirePendingDatagrams now).
Proof.
  unfold ExpirePendingDatagrams. closed. generalize dependent a. intros l.
  induction l as [|p l IH]; cbn [expire_loop]; closed; done.
Qed.

Lemma keeps_closed_flush only : keeps closing_closed (FlushPendingReplies only).
Proof.
  unfold FlushPendingReplies. closed.
  match goal with |- keeps _ (flush_replies _ ?n ?l) => generalize n; induction l as [|r l IH] end;
    intros n; cbn [flush_replies]; closed; apply IH.
Qed.
#[local] Hint Resolve keeps_closed_expire keeps_closed_flush : closed.

(** [CloseTask] closes every socket there is. *)
Lemma exec_close_routes rs w p :
  p ∈ map peer rs -> shut p (exec (for_each (fun r => PeerClose (peer r)) rs) w).
Proof.
  assert (Hstay : forall q w, shut p w -> shut p (exec (PeerClose q) w)).
  { intros q v Hv. unfold PeerClose, with_peer, exec, mbind, M_bind, gets.
    destruct (peers v !! q) as [o|] eqn:E; [|done]. unfold shut. cbn.
    destruct (decide (q = p)) as [->|Hn]; [by rewrite lookup_insert_eq|by rewrite lookup_insert_ne]. }
  assert (Hrest : forall rs w, shut p w -> shut p (exec (for_each (fun r => PeerClose (peer r)) rs) w)).
  { clear -Hstay. induction rs as [|r rs IH]; intros w Hw; [done|]. cbn [for_each].
    rewrite exec_bind. by apply IH, Hstay. }
  revert w. induction rs as [|r rs IH]; intros w Hp; [by apply elem_of_nil in Hp|].
  cbn [for_each map] in *. rewrite exec_bind. apply elem_of_cons in Hp as [->|Hp]; [|by apply IH].
  apply Hrest. unfold PeerClose, with_peer, exec, mbind, M_bind, gets, shut.
  destruct (peers w !! peer r) as [o|] eqn:E; cbn; [by rewrite lookup_insert_eq|by rewrite E].
Qed.

Lemma sees_but_peers_close rs w :
  let w' := exec (for_each (fun r => PeerClose (peer r)) rs) w in
  m_routes w' = m_routes w /\ m_pServer w' = m_pServer w.
Proof.
  cbn zeta. revert w. induction rs as [|r rs IH]; intros w; [done|]. cbn [for_each].
  rewrite exec_bind. destruct (IH (exec (PeerClose (peer r)) w)) as [-> ->].
  unfold PeerClose, with_peer, exec, mbind, M_bind, gets. by destruct (peers w !! peer r).
Qed.

Lemma closed_CloseTask w : closing_closed (exec CloseTask w).
Proof.
  unfold CloseTask. rewrite !exec_bind. cbn [eval fst gets].
  match goal with |- context[for_each ?f ?l] => set (rs := l) end.
  match goal with |- context[exec (for_each _ rs) ?x] => set (w1 := x) end.
  destruct (sees_but_peers_close rs w1) as [Er Es]. set (w2 := exec (for_each _ rs) w1) in *.
  assert (H2 : forall p, p ∈ map peer rs -> shut p w2) by (intros p; apply exec_close_routes).
  assert (Ers : map peer (m_routes w2) = map peer rs) by by rewrite Er.
  clearbody w2. unfold for_server. rewrite exec_bind. cbn [eval fst gets].
  change (exec (gets m_pServer) w2) with w2.
  destruct (m_pServer w2) as [s|] eqn:E2.
  - intros _ p Hp. unfold PeerClose, with_peer, exec, mbind, M_bind, gets, shut in *.
    destruct (peers w2 !! s) as [o|] eqn:Eo; cbn in *.
    + destruct (decide (s = p)) as [->|Hn]; [by rewrite lookup_insert_eq|].
      rewrite lookup_insert_ne by done. destruct Hp as [Hp|Hp]; cbn in Hp; [congruence|].
      apply H2. by rewrite <- Ers.
    + destruct Hp as [Hp|Hp]; cbn in Hp; [|by apply H2; rewrite <- Ers].
      rewrite E2 in Hp. injection Hp as <-. by rewrite Eo.
  - intros _ p [Hp|Hp]; [cbn in Hp; congruence|]. apply H2. by rewrite <- Ers.
Qed.

Lemma keeps_closed_CloseTask : keeps closing_closed CloseTask.
Proof. intros w _. apply closed_CloseTask. Qed.

Lemma keeps_closed_Schedule e : keeps closing_closed (ScheduleServerReconnect e).
Proof. unfold ScheduleServerReconnect. closed. Qed.
#[local] Hint Resolve keeps_closed_CloseTask keeps_closed_Schedule : closed.

Lemma keeps_closed_report_failure e : keeps closing_closed (report_failure e).
Proof.
  apply keeps_sees. intros v w <-. unfold report_failure, exec.
  by destruct (ReportUdpAssociationFailure _ _ _ _).
Qed.
#[local] Hint Resolve keeps_closed_report_failure : closed.

Lemma keeps_closed_failed e m1 m2 :
  keeps closing_closed m1 -> keeps closing_closed m2 -> keeps closing_closed (failed_association e m1 m2).
Proof. intros. unfold failed_association, permanently_unsupported. closed; done. Qed.

Lemma keeps_closed_schedule_blocked e : keeps closing_closed (schedule_blocked e).
Proof. unfold schedule_blocked. closed. Qed.
#[local] Hint Resolve keeps_closed_schedule_blocked : closed.

(** A new upstream is only made by a task that is not closing. *)
Lemma keeps_not_closing_Create : keeps not_closing CreateServerPeer.
Proof.
  assert (Hm : forall f : task -> task, (forall w, m_upstreamState (f w) = m_upstreamState w) ->
    keeps not_closing (modify f)).
  { intros f Hf. apply keeps_modify. intros w Hw. unfold not_closing. by rewrite Hf. }
  assert (Ho : forall p, keeps not_closing (peer_open p)).
  { intros p. unfold peer_open. repeat keeps_step. by apply Hm. }
  unfold CreateServerPeer, ConnectProxy, set_error, reset_backoff, SetPartner, PeerOpened.
  apply keeps_bind; [apply keeps_gets|intros c].
  apply keeps_bind; [by intros w Hw|intros s].
  repeat first [keeps_step | apply keeps_for_each; intros ? _ | apply keeps_not_closing_with_peer
    | apply keeps_not_closing_delete | apply Ho | by apply Hm | apply keeps_modify; intros w _; unfold not_closing; cbn; by case_match].
Qed.

Lemma wp_closed_Create w (Q : bool -> task -> Prop) :
  not_closing w -> (forall b w', closing_closed w' -> Q b w') -> wp CreateServerPeer Q w.
Proof.
  intros Hw HQ. apply (wp_keeping not_closing); [apply keeps_not_closing_Create|done|].
  intros b w' H. by apply HQ, not_closing_closed.
Qed.

Lemma keeps_not_closing_unpartner rs : keeps not_closing (for_each (fun r => SetPartner (peer r) None) rs).
Proof. apply keeps_for_each. intros r _. apply keeps_not_closing_with_peer. Qed.

Lemma wp_closed_reconnect now w : not_closing w -> wp (reconnect now) (fun _ => closing_closed) w.
Proof.
  intros Hw. unfold reconnect. apply wp_bind, wp_gets, wp_bind, wp_modify, wp_bind, wp_gets, wp_bind.
  apply (wp_keeping not_closing); [apply keeps_not_closing_unpartner|done|]. intros [] w1 H1.
  apply wp_bind. apply (wp_keeping not_closing); [|done|].
  { case_match; [apply keeps_not_closing_delete|apply keeps_ret]. }
  intros [] w2 H2. apply wp_bind, wp_closed_Create; [done|]. intros b w3 H3.
  apply wp_keeps; [|done].
  unfold get_error. closed. apply keeps_closed_failed; closed.
Qed.

Lemma keeps_closed_send_pending fuel now : keeps closing_closed (send_pending fuel now).
Proof.
  induction fuel as [|fuel IH]; cbn [send_pending]; unfold get_error; closed; done.
Qed.

Lemma keeps_closed_wake_bridges : keeps closing_closed wake_bridges.
Proof. unfold wake_bridges. closed. Qed.
#[local] Hint Resolve keeps_closed_send_pending keeps_closed_wake_bridges : closed.

Lemma keeps_closed_OnServerWritable : keeps closing_closed OnServerWritable.
Proof.
  apply keeps_wp. intros w Hw. unfold OnServerWritable. apply wp_bind, wp_gets.
  apply wp_if; intros _; [by apply wp_ret|]. apply wp_bind, wp_gets, wp_bind.
  apply (wp_keeping closing_closed); [closed|done|]. intros [] w1 H1.
  apply wp_bind, (wp_keeping closing_closed); [closed|done|]. intros [] w2 H2.
  apply wp_bind, wp_gets, wp_bind, wp_gets, wp_bind.
  apply (wp_mono _ (fun _ => closing_closed)).
  - case_bool_decide as Hst; [|by apply wp_ret]. apply wp_if; intros _; [by apply wp_ret|].
    apply wp_closed_reconnect. unfold not_closing. by rewrite Hst.
  - intros go w' Hw'. apply wp_keeps; [closed|done].
Qed.
#[local] Hint Resolve keeps_closed_OnServerWritable : closed.

Lemma keeps_closed_Wake : keeps closing_closed WakeServerAssociation.
Proof.
  apply keeps_wp. intros w Hw. unfold WakeServerAssociation. apply wp_bind, wp_gets.
  apply wp_if; intros _; [by apply wp_ret|]. apply wp_bind, wp_modify, wp_bind, wp_modify, wp_bind.
  apply wp_closed_Create; [done|]. intros ok w' Hw'. apply wp_keeps; [|done].
  unfold get_error. closed. apply keeps_closed_failed; closed.
Qed.

Lemma keeps_closed_OnServerReady p : keeps closing_closed (OnServerReady p).
Proof. unfold OnServerReady. closed. Qed.

Lemma keeps_closed_OnPeerClosed p e : keeps closing_closed (OnPeerClosed p e).
Proof. unfold OnPeerClosed. closed. apply keeps_closed_failed; closed. Qed.

Lemma keeps_closed_EnterServerDormant : keeps closing_closed EnterServerDormant.
Proof. unfold EnterServerDormant. closed. Qed.
#[local] Hint Resolve keeps_closed_Wake keeps_closed_OnServerReady keeps_closed_OnPeerClosed
  keeps_closed_EnterServerDormant : closed.

Lemma keeps_closed_Maintenance : keeps closing_closed OnMaintenanceTimer.
Proof. unfold OnMaintenanceTimer. closed. Qed.

(** ** Forwarding *)

Lemma keeps_closed_update i f : (forall r, peer (f r) = peer r) -> keeps closing_closed (update_route i f).
Proof.
  intros H. apply keeps_sees, preserves_modify. intros w. unfold sees. cbn. f_equal. f_equal. f_equal.
  by apply (map_alter peer).
Qed.

Lemma keeps_closed_with_route {A} i (d : A) k :
  (forall r, keeps closing_closed (k r)) -> keeps closing_closed (with_route i d k).
Proof. intros H. unfold with_route. closed. Qed.

Lemma keeps_closed_with_bridge {A} i (d : A) k :
  (forall r q, keeps closing_closed (k r q)) -> keeps closing_closed (with_bridge i d k).
Proof. intros H. unfold with_bridge. apply keeps_closed_with_route. intros r. closed. Qed.

Lemma keeps_closed_ForwardUpstream t data : keeps closing_closed (ForwardUpstreamDatagram t data).
Proof. unfold ForwardUpstreamDatagram, get_error. closed. Qed.

Lemma keeps_closed_Deliver r data : keeps closing_closed (DeliverServerDatagram r data).
Proof. unfold DeliverServerDatagram. closed. Qed.
#[local] Hint Resolve keeps_closed_ForwardUpstream keeps_closed_Deliver : closed.

Ltac forwarding_step :=
  match goal with
  | |- keeps _ (with_bridge _ _ _) => apply keeps_closed_with_bridge; intros ? ?
  | |- keeps _ (with_route _ _ _) => apply keeps_closed_with_route; intros ?
  | |- keeps _ (update_route _ _) => by apply keeps_closed_update
  | |- keeps _ (store_bridge _ _) => by apply keeps_closed_update
  | |- _ => closed_step
  end.
Ltac forwarding := repeat forwarding_step.

Lemma keeps_closed_pump_side side i n : keeps closing_closed (pump_side side i n).
Proof. induction n as [|n IH]; cbn [pump_side]; [closed|]. forwarding; done. Qed.
#[local] Hint Resolve keeps_closed_pump_side : closed.

Lemma keeps_closed_PumpQuic i : keeps closing_closed (PumpQuic i).
Proof. unfold PumpQuic. forwarding. Qed.

Lemma keeps_closed_tap i data : keeps closing_closed (tap_route i data).
Proof. unfold tap_route. forwarding. Qed.
#[local] Hint Resolve keeps_closed_PumpQuic keeps_closed_tap : closed.

Lemma keeps_closed_ForwardClient p t app data : keeps closing_closed (ForwardClientDatagram p t app data).
Proof. unfold ForwardClientDatagram, forward_unbridged. forwarding. Qed.

Lemma keeps_closed_select source i cand count rs : keeps closing_closed (select_route source i cand count rs).
Proof. revert i cand count. induction rs as [|r rs IH]; intros; cbn [select_route]; closed; apply IH. Qed.
#[local] Hint Resolve keeps_closed_select : closed.

Lemma keeps_closed_ForwardServer source data : keeps closing_closed (ForwardServerDatagram source data).
Proof. unfold ForwardServerDatagram, choose_route. forwarding. Qed.

Lemma keeps_closed_OnRouteWritable p : keeps closing_closed (OnRouteWritable p).
Proof. unfold OnRouteWritable. closed. Qed.

(** A new route opens a socket, in a task that is not closing. *)
Lemma keeps_not_closing_AddRoute c : keeps not_closing (AddRoute c).
Proof.
  apply keeps_wp. intros w Hw. destruct (decide (m_upstreamState w = m_upstreamState w)) as [E|]; [|done].
  revert w Hw E. intros w Hw _.
  assert (Hm : forall f : task -> task, (forall w, m_upstreamState (f w) = m_upstreamState w) ->
    keeps not_closing (modify f)).
  { intros f Hf. apply keeps_modify. intros v Hv. unfold not_closing. by rewrite Hf. }
  apply wp_keeps; [|done]. unfold AddRoute, add_new_route, update_route, SetPartner, PeerOpened, peer_open, for_server.
  repeat first [keeps_step | apply keeps_not_closing_with_peer | apply keeps_not_closing_delete
    | by apply Hm | by intros ? ?].
Qed.

(** ** Every handler *)
Lemma handle_closed e w :
  allowed e w -> closing_closed w -> closing_closed (exec (handle e) w).
Proof.
  intros Ha Hw. destruct e as [now cs ss us ds tap|c| |p from data|p|p e|p e]; cbn [handle].
  - done.
  - rewrite exec_bind. by apply not_closing_closed, keeps_not_closing_AddRoute.
  - by apply keeps_closed_Maintenance.
  - rewrite exec_bind. unfold peer_OnReceive. rewrite !exec_bind. cbn.
    destruct (peers w !! p); [|done].
    case_bool_decide; [by apply keeps_closed_ForwardServer|by apply keeps_closed_ForwardClient].
  - unfold peer_OnSend. rewrite exec_bind. cbn.
    case_bool_decide; [by apply keeps_closed_OnServerWritable|by apply keeps_closed_OnRouteWritable].
  - unfold peer_OnConnect. rewrite exec_bind. cbn. case_bool_decide; cbn [negb]; [|done].
    destruct (e =? 0); [by apply keeps_closed_OnServerReady|]. rewrite exec_bind.
    by apply keeps_closed_OnPeerClosed, keeps_closed_PeerClose.
  - unfold peer_OnClose. rewrite exec_bind. by apply keeps_closed_OnPeerClosed, keeps_closed_PeerClose.
Qed.

(** The manager's test: of a task that is well formed it changes nothing, and
    when it says the task is open the task is not closing. *)
Lemma eval_all_closed ps qs ks rs w :
  task_ok ps qs ks w -> (forall r, r ∈ rs -> peer r ∈ ps) ->
  all_closed rs w = (forallb (fun r => negb (default false (p_open <$> peers w !! peer r))) rs, w).
Proof.
  intros Hw. induction rs as [|r rs IH]; intros Hrs; [done|]. cbn [all_closed forallb].
  destruct (live_ps ps qs ks w (peer r) Hw) as [o Ho]; [apply Hrs; by left|].
  unfold mbind, M_bind. unfold peer_open at 1, mbind, M_bind, gets. rewrite Ho. cbn.
  destruct (p_open o); cbn; [done|]. apply IH. intros r' Hr'. apply Hrs. by right.
Qed.

Lemma IsClosed_spec w :
  any_ok [] w -> exists b, IsClosed w = (b, w) /\
  (b = true <-> forall p, owns p w -> shut p w).
Proof.
  intros (ps & qs & Hw). unfold IsClosed. unfold mbind at 1, M_bind at 1, gets at 1.
  unfold mbind at 1, M_bind at 1. rewrite (eval_all_closed ps qs [] _ w Hw).
  2: { intros r Hr. by eapply route_peers. }
  assert (Hall : forallb (fun r => negb (default false (p_open <$> peers w !! peer r))) (m_routes w) = true
    <-> forall p, p ∈ map peer (m_routes w) -> shut p w).
  { rewrite forallb_forall. unfold shut. split.
    - intros H p Hp. apply list_elem_of_fmap in Hp as (r & -> & Hr).
      apply list_elem_of_In in Hr. specialize (H r Hr). by destruct (peers w !! peer r) as [[[] ? ?]|].
    - intros H r Hr. apply list_elem_of_In in Hr. specialize (H (peer r) (list_elem_of_fmap_2 peer _ _ Hr)).
      by destruct (peers w !! peer r) as [[[] ? ?]|]. }
  destruct (forallb _ _); cbn [negb].
  2: { exists false. split; [done|]. split; [done|]. intros H. apply Hall. intros p Hp. apply H. by right. }
  destruct Hall as [Hall _]. specialize (Hall eq_refl).
  unfold server_open, mbind, M_bind, gets. destruct (m_pServer w) as [s|] eqn:Es.
  - destruct (live_server ps qs [] w s Hw Es) as [o Ho]. unfold peer_open, mbind, M_bind, gets.
    rewrite Ho. cbn. exists (negb (p_open o)). split; [done|]. split.
    + intros Hc p [Hp|Hp]; [|by apply Hall]. rewrite Es in Hp. injection Hp as <-.
      unfold shut. rewrite Ho. cbn. destruct (p_open o); [discriminate Hc|congruence].
    + intros H. specialize (H s (or_introl Es)). unfold shut in H. rewrite Ho in H. cbn in H. by destruct (p_open o).
  - exists true. split; [done|]. split; [|done]. intros _ p [Hp|Hp]; [congruence|by apply Hall].
Qed.

Lemma not_IsClosed w :
  any_ok [] w -> closing_closed w -> eval IsClosed w = false -> not_closing w.
Proof.
  intros Hw Hc He Hst. destruct (IsClosed_spec w Hw) as (b & Eb & Hb). unfold eval in He.
  rewrite Eb in He. cbn in He. subst b. destruct Hb as [_ Hb]. discriminate Hb. by apply Hc.
Qed.
End Ops.
