(* ===== verification/TaskManager.v ===== *)
(** * What the task managers share (ProxyTaskMgr.cpp, ProxyTaskMgr.h, ProxySettings.cpp)

    The test whether a client's process still runs, the walk over a list of
    tasks, and the settings providers asked in order. *)

From S2P Require Import Prelude Winsock SockAddr Effects.

(** What the system answers about a process: OpenProcess refused, failed for
    another reason, GetProcessTimes failed, or the creation time. *)
Inductive process_query :=
  | OpenDenied
  | OpenFailed
  | TimesFailed
  | CreatedAt (actual : Z).

Definition TestTaskByPid (q : process_query) (processCreateTime : Z) : bool :=
  match q with
  | OpenDenied => true
  | OpenFailed | TimesFailed => false
  | CreatedAt actual => (processCreateTime =? 0) || (actual =? processCreateTime)
  end.

(** A loop over the tasks, with a body for effect. *)
Fixpoint walk {W A} (f : A -> M W unit) (l : list A) : M W unit :=
  match l with
  | [] => mret tt
  | x :: l => f x;; walk f l
  end.

(** The first task with a property; the tests after it are not made. *)
Fixpoint first_task {W} (f : nat -> M W bool) (l : list nat) : M W (option nat) :=
  match l with
  | [] => mret None
  | x :: l => b ← f x; if (b : bool) then mret (Some x) else first_task f l
  end.

(** The settings, from the first provider of the list that has them. *)
Record IProxySettings := mkIProxySettings {
  ps_GetProxyInfo : PRCClient -> option ProxyInfo;
  ps_GetProxySettings : option ProxySettingsInfo
}.

Fixpoint first_some {A B} (f : A -> option B) (l : list A) : option B :=
  match l with
  | [] => None
  | x :: l => match f x with Some b => Some b | None => first_some f l end
  end.

Definition GetProxyInfo (l : list IProxySettings) (c : PRCClient) : option ProxyInfo :=
  first_some (fun p => ps_GetProxyInfo p c) l.
Definition GetProxySettings (l : list IProxySettings) : option ProxySettingsInfo :=
  first_some ps_GetProxySettings l.

(** ** Rules *)
Section Rules.
Context {W : Type}.

Lemma keeps_walk {A} (I : W -> Prop) (f : A -> M W unit) l :
  (forall x, keeps I (f x)) -> keeps I (walk f l).
Proof.
  intros H. induction l as [|x l IH]; cbn [walk]; [apply keeps_ret|].
  by apply keeps_bind; [|intros _].
Qed.

(** The loop with an invariant on what is left to do. *)
Lemma wp_walk {A} (I : list A -> W -> Prop) (f : A -> M W unit) l w :
  I l w ->
  (forall x l w, I (x :: l) w -> wp (f x) (fun _ => I l) w) ->
  wp (walk f l) (fun _ => I []) w.
Proof.
  intros Hw Hf. revert w Hw. induction l as [|x l IH]; intros w Hw; cbn [walk]; [by apply wp_ret|].
  apply wp_bind. eapply wp_mono; [by apply Hf|]. intros [] w'. apply IH.
Qed.

(** Tests that change nothing. *)
Lemma wp_first_task (f : nat -> M W bool) (b : nat -> bool) l Q w :
  (forall x, x ∈ l -> f x w = (b x, w)) ->
  (forall x, x ∈ l -> b x = true -> Q (Some x) w) ->
  (Forall (fun x => b x = false) l -> Q None w) ->
  wp (first_task f l) Q w.
Proof.
  revert Q. induction l as [|x l IH]; intros Q Hf HS HN; cbn [first_task]; [by apply wp_ret, HN|].
  apply wp_bind. unfold wp at 1. rewrite Hf by by left. destruct (b x) eqn:E.
  - apply wp_ret. by apply HS; [left|].
  - apply IH; [intros y Hy; apply Hf; by right|intros y Hy; apply HS; by right|].
    intros H. by apply HN, Forall_cons.
Qed.
End Rules.

(** ** A pass over the tasks

    A manager lists its tasks and has them in a heap.  A pass whose body
    leaves the other tasks alone, and this one dropped or as [good] says,
    leaves only tasks that are [good]. *)
Section Pass.
Context {W T : Type} (inv : W -> Prop) (listed : W -> list nat) (task_at : W -> nat -> option T).
Hypothesis inv_nodup : forall w, inv w -> NoDup (listed w).
Hypothesis inv_heap : forall w, inv w -> forall id, is_Some (task_at w id) <-> id ∈ listed w.

Lemma wp_pass (good : nat -> T -> Prop) (body : nat -> M W unit) w (Q : unit -> W -> Prop) :
  inv w ->
  (forall id w1, inv w1 -> id ∈ listed w1 ->
     wp (body id) (fun _ w2 => inv w2 /\ (forall i, i <> id -> task_at w2 i = task_at w1 i) /\
       (forall t, task_at w2 id = Some t -> good id t)) w1) ->
  (forall w', inv w' -> (forall id t, task_at w' id = Some t -> good id t) -> Q tt w') ->
  wp (walk body (listed w)) Q w.
Proof.
  intros Hw Hbody HQ.
  set (J := fun l w' => inv w' /\ NoDup l /\ (forall x, x ∈ l -> x ∈ listed w') /\
      (forall id t, task_at w' id = Some t -> id ∉ l -> good id t)).
  eapply wp_mono; [apply (wp_walk J)|].
  - split; [done|]. split; [by apply inv_nodup|]. split; [done|].
    intros id t Ht Hn. destruct Hn. by apply (inv_heap w Hw id); eexists.
  - intros id l w1 (H1 & Hnd & Hin & Hg). apply NoDup_cons in Hnd as [Hid Hnd].
    eapply wp_mono; [apply Hbody; [done|apply Hin; by left]|]. intros [] w2 (H2 & Hsame & Hgood).
    split; [done|]. split; [done|]. split.
    + intros x Hx. apply (inv_heap w2 H2 x). rewrite Hsame by congruence.
      apply (inv_heap w1 H1 x), Hin. by right.
    + intros i t Ht Hi. destruct (decide (i = id)) as [->|Hn]; [by apply Hgood|].
      rewrite Hsame in Ht by done. apply (Hg i t Ht). by apply not_elem_of_cons.
  - intros [] w' (H1 & _ & _ & H2). apply HQ; [done|]. intros id t Ht. apply (H2 id t Ht), not_elem_of_nil.
Qed.
End Pass.
