(* ===== verification/UdpTaskMgr.v ===== *)
(** * The manager of the UDP tasks (ProxyTaskMgr.cpp, PRCUdpServer.cpp)

    A [CProxyUDPTaskMgr] lists the tasks and finds or makes the one for a
    registration; it has the table of the local ports in use and the two
    maintenance timers.  The state [manager] is the object, the heap of task
    objects ([objects], an address is a [nat]) and the outside.

    A task shares the clock, the capability record and the results of the
    socket calls with the manager: [in_task] runs an operation of the task on
    them and takes them back, with what the task did in [g_trace].  Using a
    task that was deleted is [MFault].  The two observers' calls carry the
    address of the task besides what they are passed.  [new] does not fail;
    printed messages are left out. *)

From S2P Require Import Prelude Winsock SockAddr Effects UdpPolicy UdpCapability UdpTask TaskManager.

Definition no_port : UDPLocalProxyAddrInfo := mkPortInfo 0 0 0.

Inductive mgr_output :=
  | MTask (t : nat) (o : task_output)
  | MAdd (t : nat) (c : PRCClient) (p : ProxyInfo)   (* OnAddTask of the observers *)
  | MDel (t : nat) (c : PRCClient)                   (* OnDelTask of the observers *)
  | MFault.

Section Manager.
Context {qb : QuicBridge} {text : AddressText}.

Record manager := mkManager {
  m_tasklist : list nat;   (* the tasks listed, as addresses *)
  objects : gmap nat task;   (* the heap of task objects *)
  next_object : nat;   (* the next address to allocate *)
  m_PortState : gmap Z UDPLocalProxyAddrInfo;   (* by port; zero where absent *)
  g_capability : Capability;   (* m_udpCapability and its key *)
  timer_task : bool;   (* TIMER_TCPPERTASK is set *)
  timer_alive : bool;   (* TIMER_IS_TASK_ALIVE is set *)
  g_tick : Z;   (* GetTickCount *)
  g_connects : list (option Z);   (* what the sockets will return, as in a task *)
  g_sockets : list (option _SockAddr);
  g_up_sends : list send_result;
  g_down_sends : list send_result;
  g_tap : bool;
  g_error : Z;   (* WSAGetLastError *)
  g_trace : list mgr_output   (* what the manager and its tasks did, oldest first *)
}.

Definition set_m_tasklist (v : list nat) (w : manager) : manager :=
  mkManager v (objects w) (next_object w) (m_PortState w) (g_capability w) (timer_task w)
    (timer_alive w) (g_tick w) (g_connects w) (g_sockets w) (g_up_sends w) (g_down_sends w)
    (g_tap w) (g_error w) (g_trace w).
Definition set_objects (v : gmap nat task) (w : manager) : manager :=
  mkManager (m_tasklist w) v (next_object w) (m_PortState w) (g_capability w) (timer_task w)
    (timer_alive w) (g_tick w) (g_connects w) (g_sockets w) (g_up_sends w) (g_down_sends w)
    (g_tap w) (g_error w) (g_trace w).
Definition set_next_object (v : nat) (w : manager) : manager :=
  mkManager (m_tasklist w) (objects w) v (m_PortState w) (g_capability w) (timer_task w)
    (timer_alive w) (g_tick w) (g_connects w) (g_sockets w) (g_up_sends w) (g_down_sends w)
    (g_tap w) (g_error w) (g_trace w).
Definition set_m_PortState (v : gmap Z UDPLocalProxyAddrInfo) (w : manager) : manager :=
  mkManager (m_tasklist w) (objects w) (next_object w) v (g_capability w) (timer_task w)
    (timer_alive w) (g_tick w) (g_connects w) (g_sockets w) (g_up_sends w) (g_down_sends w)
    (g_tap w) (g_error w) (g_trace w).
Definition set_g_capability (v : Capability) (w : manager) : manager :=
  mkManager (m_tasklist w) (objects w) (next_object w) (m_PortState w) v (timer_task w)
    (timer_alive w) (g_tick w) (g_connects w) (g_sockets w) (g_up_sends w) (g_down_sends w)
    (g_tap w) (g_error w) (g_trace w).
Definition set_timer_task (v : bool) (w : manager) : manager :=
  mkManager (m_tasklist w) (objects w) (next_object w) (m_PortState w) (g_capability w) v
    (timer_alive w) (g_tick w) (g_connects w) (g_sockets w) (g_up_sends w) (g_down_sends w)
    (g_tap w) (g_error w) (g_trace w).
Definition set_timer_alive (v : bool) (w : manager) : manager :=
  mkManager (m_tasklist w) (objects w) (next_object w) (m_PortState w) (g_capability w)
    (timer_task w) v (g_tick w) (g_connects w) (g_sockets w) (g_up_sends w) (g_down_sends w)
    (g_tap w) (g_error w) (g_trace w).
Definition set_g_tick (v : Z) (w : manager) : manager :=
  mkManager (m_tasklist w) (objects w) (next_object w) (m_PortState w) (g_capability w)
    (timer_task w) (timer_alive w) v (g_connects w) (g_sockets w) (g_up_sends w) (g_down_sends
    w) (g_tap w) (g_error w) (g_trace w).
Definition set_g_connects (v : list (option Z)) (w : manager) : manager :=
  mkManager (m_tasklist w) (objects w) (next_object w) (m_PortState w) (g_capability w)
    (timer_task w) (timer_alive w) (g_tick w) v (g_sockets w) (g_up_sends w) (g_down_sends w)
    (g_tap w) (g_error w) (g_trace w).
Definition set_g_sockets (v : list (option _SockAddr)) (w : manager) : manager :=
  mkManager (m_tasklist w) (objects w) (next_object w) (m_PortState w) (g_capability w)
    (timer_task w) (timer_alive w) (g_tick w) (g_connects w) v (g_up_sends w) (g_down_sends w)
    (g_tap w) (g_error w) (g_trace w).
Definition set_g_up_sends (v : list send_result) (w : manager) : manager :=
  mkManager (m_tasklist w) (objects w) (next_object w) (m_PortState w) (g_capability w)
    (timer_task w) (timer_alive w) (g_tick w) (g_connects w) (g_sockets w) v (g_down_sends w)
    (g_tap w) (g_error w) (g_trace w).
Definition set_g_down_sends (v : list send_result) (w : manager) : manager :=
  mkManager (m_tasklist w) (objects w) (next_object w) (m_PortState w) (g_capability w)
    (timer_task w) (timer_alive w) (g_tick w) (g_connects w) (g_sockets w) (g_up_sends w) v
    (g_tap w) (g_error w) (g_trace w).
Definition set_g_tap (v : bool) (w : manager) : manager :=
  mkManager (m_tasklist w) (objects w) (next_object w) (m_PortState w) (g_capability w)
    (timer_task w) (timer_alive w) (g_tick w) (g_connects w) (g_sockets w) (g_up_sends w)
    (g_down_sends w) v (g_error w) (g_trace w).
Definition set_g_error (v : Z) (w : manager) : manager :=
  mkManager (m_tasklist w) (objects w) (next_object w) (m_PortState w) (g_capability w)
    (timer_task w) (timer_alive w) (g_tick w) (g_connects w) (g_sockets w) (g_up_sends w)
    (g_down_sends w) (g_tap w) v (g_trace w).
Definition set_g_trace (v : list mgr_output) (w : manager) : manager :=
  mkManager (m_tasklist w) (objects w) (next_object w) (m_PortState w) (g_capability w)
    (timer_task w) (timer_alive w) (g_tick w) (g_connects w) (g_sockets w) (g_up_sends w)
    (g_down_sends w) (g_tap w) (g_error w) v.

Abbreviation GM := (M manager).

Definition gemit (o : mgr_output) : GM unit := modify (fun w => set_g_trace (g_trace w ++ [o]) w).

(** ** Running an operation of a task *)

Definition load (w : manager) (t : task) : task :=
  set_m_capability (g_capability w) (set_tick (g_tick w) (set_connects (g_connects w)
    (set_sockets (g_sockets w) (set_up_sends (g_up_sends w) (set_down_sends (g_down_sends w)
      (set_tap_enabled (g_tap w) (set_task_error (g_error w) (set_trace [] t)))))))).

Definition store (id : nat) (t : task) (w : manager) : manager :=
  set_objects (<[id := t]> (objects w)) (set_g_capability (m_capability t)
    (set_g_connects (connects t) (set_g_sockets (sockets t) (set_g_up_sends (up_sends t)
      (set_g_down_sends (down_sends t) (set_g_error (task_error t)
        (set_g_trace (g_trace w ++ map (MTask id) (trace t)) w))))))).

Definition in_task {A} (id : nat) (default_ : A) (m : M task A) : GM A := fun w =>
  match objects w !! id with
  | None => (default_, exec (gemit MFault) w)
  | Some t => let '(a, t') := m (load w t) in (a, store id t' w)
  end.

Definition new_object : GM nat := fun w =>
  (next_object w,
   set_next_object (S (next_object w))
     (set_objects (<[next_object w := new_task (g_tick w)]> (objects w)) w)).

(** [delete], with the destructor. *)
Definition delete_object (id : nat) : GM unit :=
  in_task id tt EndTask;;
  modify (fun w => set_objects (delete id (objects w)) w).

(** [m_tasklist.erase] and [remove]; a task is listed once. *)
Definition erase (id : nat) : GM unit :=
  modify (fun w => set_m_tasklist (filter (fun i => i <> id) (m_tasklist w)) w).

(** ** The port table *)

Definition port_state (p : Z) (w : manager) : UDPLocalProxyAddrInfo :=
  default no_port (m_PortState w !! p).

Definition port_entry (c : PRCClient) : UDPLocalProxyAddrInfo :=
  mkPortInfo (GetdwIP (srcAddr c)) (GetPort (srcAddr c)) (GetPort (udpAddr c)).

Definition RegisterRoutePort (c : PRCClient) : GM unit :=
  modify (fun w => set_m_PortState (<[GetPort (udpAddr c) := port_entry c]> (m_PortState w)) w).

Definition clear_port (c : PRCClient) : GM unit :=
  let routePort := GetPort (udpAddr c) in
  modify (fun w => if proxyport (port_state routePort w) =? routePort
                   then set_m_PortState (delete routePort (m_PortState w)) w else w).

Definition ClearTaskPortStates (id : nat) : GM unit :=
  h ← gets objects;
  match h !! id with
  | None => gemit MFault
  | Some t => walk (fun r => clear_port (client r)) (m_routes t)
  end.

Definition GetUDPPortState (q : UDPLocalProxyAddrInfo) : GM bool :=
  e ← gets (port_state (proxyport q));
  mret (negb (proxyport e =? 0) && (clientip e =? clientip q) && (clientport e =? clientport q)).

(** ** Timers: SetTimer and KillTimer of both *)

Definition SetTimers : GM unit := modify (fun w => set_timer_task true (set_timer_alive true w)).
Definition KillTimers : GM unit := modify (fun w => set_timer_task false (set_timer_alive false w)).

(** ** Tasks *)

Definition OnDelTask (id : nat) : GM unit :=
  h ← gets objects;
  match h !! id with
  | None => gemit MFault
  | Some t => gemit (MDel id (m_PRCClient t))
  end.

Definition RemoveTask (id : nat) : GM unit :=
  ClearTaskPortStates id;; OnDelTask id;; delete_object id.

Definition OnDeleteTask (id : nat) : GM unit :=
  erase id;;
  l ← gets m_tasklist;
  when (bool_decide (l = [])) KillTimers;;
  RemoveTask id.

Definition matches_ (c : PRCClient) (p : ProxyInfo) (id : nat) : GM bool :=
  in_task id false (MatchesAssociation c p).

(** Both tests; the second is made when the first holds. *)
Definition matches_and (c : PRCClient) (p : ProxyInfo) (test : M task bool) (id : nat) : GM bool :=
  m ← matches_ c p id;
  if (m : bool) then in_task id false test else mret false.

(** A closed task of the association is dropped before its port is used again. *)
Definition sweep (c : PRCClient) (p : ProxyInfo) : GM unit :=
  l ← gets m_tasklist;
  walk (fun id =>
    stale ← matches_and c p IsClosed id;
    when stale (erase id;; RemoveTask id)) l.

(** Add the route to a task there is. *)
Definition join (id : nat) (c : PRCClient) : GM (bool * PRCClient) :=
  r ← in_task id (false, c) (AddRoute c);
  when (fst r) (RegisterRoutePort (snd r));;
  mret r.

Definition OnAddTask (id : nat) (c : PRCClient) (p : ProxyInfo) : GM unit := gemit (MAdd id c p).

Definition new_association (c : PRCClient) (p : ProxyInfo) : GM (bool * PRCClient) :=
  id ← new_object;
  r ← in_task id (false, c) (SetTaskInfo c p);
  let '(ok, c) := (r : bool * PRCClient) in
  if negb ok then delete_object id;; mret (false, c)
  else
    RegisterRoutePort c;;
    OnAddTask id c p;;
    l ← gets m_tasklist;
    when (bool_decide (l = [])) SetTimers;;
    modify (fun w => set_m_tasklist (m_tasklist w ++ [id]) w);;
    mret (true, c).

Definition CanStart (p : ProxyInfo) : GM bool := fun w =>
  let '(ok, err, cap) := CanStartUdpAssociation (g_tick w) (Some p) (g_capability w) in
  (ok, match err with
       | Some e => set_g_error e (set_g_capability cap w)
       | None => set_g_capability cap w
       end).

(** The answer, and the client's record with its local address. *)
Definition OnNewTask (lpPRCClient : option PRCClient) (lpProxyInfo : option ProxyInfo)
    : GM (bool * option PRCClient) :=
  match lpPRCClient, lpProxyInfo with
  | Some c, Some p =>
      ok ← CanStart p;
      if negb ok then mret (false, Some c)
      else
        sweep c p;;
        l ← gets m_tasklist;
        owner ← first_task (matches_and c p (HasRoute c)) l;
        r ← (match owner with
             | Some id => join id c
             | None =>
                 taker ← first_task (matches_and c p (CanAcceptRoute c)) l;
                 match taker with
                 | Some id => join id c
                 | None => new_association c p
                 end
             end);
        mret (fst r, Some (snd r))
  | _, _ => mret (false, lpPRCClient)
  end.

Definition same_socket (a b : PRCClient) : bool :=
  (dwPid a =? dwPid b) && (processCreateTime a =? processCreateTime b) &&
  (socketGeneration a =? socketGeneration b) && (c_s a =? c_s b).

(** The tasks of a socket are closed; they stay listed until the timer. *)
Fixpoint kill_loop (c : PRCClient) (l : list nat) : GM Z :=
  match l with
  | [] => mret 0
  | id :: l =>
      own ← in_task id c (gets m_PRCClient);
      if same_socket own c then
        ClearTaskPortStates id;;
        in_task id tt CloseTask;;
        n ← kill_loop c l; mret (n + 1)
      else kill_loop c l
  end.

Definition KillTasks (lpPRCClient : option PRCClient) : GM Z :=
  match lpPRCClient with
  | None => mret 0
  | Some c => l ← gets m_tasklist; kill_loop c l
  end.

Definition RemoveAllTasks : GM unit :=
  l ← gets m_tasklist;
  walk (fun id => modify (fun w => set_m_tasklist (tail (m_tasklist w)) w);;
                  in_task id tt CloseTask;; RemoveTask id) l;;
  KillTimers;;
  modify (set_g_capability new_capability).

(** ** The timers *)

Definition OnTimer_task : GM unit :=
  l ← gets m_tasklist;
  walk (fun id =>
    in_task id tt OnMaintenanceTimer;;
    closed ← in_task id false IsClosed;
    when closed (erase id;; RemoveTask id)) l;;
  l ← gets m_tasklist;
  when (bool_decide (l = [])) KillTimers.

(** [os] is what the system answers about a process. *)
Definition OnTimer_alive (os : Z -> process_query) : GM unit :=
  l ← gets m_tasklist;
  walk (fun id =>
    pid ← in_task id 0 (gets (fun t => dwPid (m_PRCClient t)));
    created ← in_task id 0 (gets (fun t => processCreateTime (m_PRCClient t)));
    if negb (TestTaskByPid (os pid) created) then
      in_task id tt CloseTask;; erase id;; RemoveTask id
    else
      closed ← in_task id false IsClosed;
      when closed (erase id;; RemoveTask id)) l.

Definition EnumTask : GM (list (PRCClient * ProxyInfo)) :=
  gets (fun w => omap (fun id => (fun t => (m_PRCClient t, m_ProxyInfo t)) <$> objects w !! id) (m_tasklist w)).

Definition GetTaskCount : GM Z := gets (fun w => u32 (Z.of_nat (length (m_tasklist w)))).

(** ** The server's window (PRCUdpServer.cpp): register and unregister *)

Definition OnLocalThreadRegister (providers : list IProxySettings) (c : PRCClient) : GM (Z * PRCClient) :=
  match GetProxyInfo providers c with
  | None => mret (- WSAEINVAL, c)
  | Some pisetting =>
      match GetProxySettings providers with
      | None => mret (- WSAEINVAL, c)
      | Some settings =>
          let '(_, c) := Apply c settings pisetting in
          r ← OnNewTask (Some c) (Some pisetting);
          let '(ok, c') := (r : bool * option PRCClient) in
          let c := default c c' in
          if ok then mret (1, c)
          else
            errorCode ← gets g_error;
            mret (- (if errorCode =? 0 then WSAEFAULT else errorCode), c)
      end
  end.

Definition OnLocalThreadUnregister (c : PRCClient) : GM Z := KillTasks (Some c).

Definition ShutdownServer : GM unit := RemoveAllTasks.

(** The constructor. *)
Definition new_manager : manager := {|
  m_tasklist := []; objects := ∅; next_object := 0; m_PortState := ∅; g_capability := new_capability;
  timer_task := false; timer_alive := false; g_tick := 0; g_connects := []; g_sockets := [];
  g_up_sends := []; g_down_sends := []; g_tap := false; g_error := 0; g_trace := [] |}.
End Manager.
