(* ===== verification/UdpTaskMgrInv.v ===== *)
(** * The UDP task manager keeps its invariant

    [gok] is stated on a view of the manager that leaves the outside apart:
    the tasks listed are the objects there are, every task is well formed,
    every entry of the port table is the entry of a route of a listed task,
    the timers run while a task is listed, and the observers have been told
    of exactly the tasks listed. *)

From S2P Require Import Prelude Winsock SockAddr Effects UdpPolicy UdpCapability UdpTask.
From S2P Require Import UdpTaskRules UdpTaskInv UdpTaskSafety UdpTaskFlow UdpTaskRouting.
From S2P Require Import TaskManager UdpTaskMgr.

Section Inv.
Context {qb : QuicBridge} {text : AddressText}.

Abbreviation TM := (M task).
Abbreviation GM := (M manager).

(** ** The view *)

(** A task without its outside. *)
Definition core (t : task) : task := load new_manager t.

Lemma load_load w w' t : load w (load w' t) = load w t.
Proof. by destruct t. Qed.
Lemma core_load w t : core (load w t) = core t.
Proof. apply load_load. Qed.
Lemma clients_load w t : clients (load w t) = clients t.
Proof. by destruct t. Qed.

Record mview := mkView {
  v_list : list nat;
  v_tasks : gmap nat task;
  v_next : nat;
  v_ports : gmap Z UDPLocalProxyAddrInfo;
  v_timers : bool * bool;
  v_trace : list mgr_output
}.
Definition gview (w : manager) : mview :=
  mkView (m_tasklist w) (core <$> objects w) (next_object w) (m_PortState w)
    (timer_task w, timer_alive w) (g_trace w).
Definition task_good (t : task) : Prop := any_ok [] t /\ closing_closed t.

(** The tasks the observers know. *)
Definition noted (l : list nat) (o : mgr_output) : list nat :=
  match o with
  | MAdd t _ _ => l ++ [t]
  | MDel t _ => filter (fun i => i <> t) l
  | _ => l
  end.
Definition known (tr : list mgr_output) : list nat := fold_left noted tr [].
#[local] Arguments known : simpl never.

Definition is_fault (o : mgr_output) : bool :=
  match o with MFault | MTask _ TFault => true | _ => false end.

(** [x]: a port whose entry is about to be written. *)
Record gok (x : option Z) (v : mview) : Prop := {
  g_nodup : NoDup (v_list v);
  g_heap : forall id, is_Some (v_tasks v !! id) <-> id ∈ v_list v;
  g_fresh : forall id, is_Some (v_tasks v !! id) -> (id < v_next v)%nat;
  g_good : forall id t, v_tasks v !! id = Some t -> task_good t;
  g_timers : v_list v <> [] -> v_timers v = (true, true);
  g_ports : forall p e, v_ports v !! p = Some e -> x <> Some p ->
    exists id t c, v_tasks v !! id = Some t /\ c ∈ clients t /\ GetPort (udpAddr c) = p /\ e = port_entry c;
  g_known : known (v_trace v) = v_list v;
  g_safe : Forall (fun o => is_fault o = false) (v_trace v)
}.

Lemma known_tasks tr id l : known (tr ++ map (MTask id) l) = known tr.
Proof. unfold known. rewrite fold_left_app. generalize (fold_left noted tr []). by induction l. Qed.
Lemma known_add tr t c p : known (tr ++ [MAdd t c p]) = known tr ++ [t].
Proof. unfold known. by rewrite fold_left_app. Qed.
Lemma known_del tr t c : known (tr ++ [MDel t c]) = filter (fun i => i <> t) (known tr).
Proof. unfold known. by rewrite fold_left_app. Qed.

(** ** Running an operation of a task *)

Lemma core_lookup (w : manager) id t :
  v_tasks (gview w) !! id = Some t -> exists t0, objects w !! id = Some t0 /\ load w t0 = load w t.
Proof.
  cbn. rewrite lookup_fmap. intros H. apply fmap_Some in H as (t0 & H0 & ->). exists t0. split; [done|]. symmetry. apply load_load.
Qed.

Lemma gview_store w id t' :
  gview (store id t' w) =
  mkView (m_tasklist w) (<[id := core t']> (v_tasks (gview w))) (next_object w) (m_PortState w)
    (timer_task w, timer_alive w) (g_trace w ++ map (MTask id) (trace t')).
Proof. unfold gview. cbn. by rewrite fmap_insert. Qed.

Lemma wp_in_task {A} id (d : A) (m : TM A) Q w t :
  v_tasks (gview w) !! id = Some t ->
  wp m (fun a t' => Q a (store id t' w)) (load w t) -> wp (in_task id d m) Q w.
Proof.
  intros Ht Hm. destruct (core_lookup w id t Ht) as (t0 & H0 & E0).
  unfold wp, in_task. rewrite H0, E0. unfold wp in Hm. by destruct (m (load w t)).
Qed.

(** A test changes nothing one sees. *)
Lemma wp_test {A} id (d b : A) (m : TM A) (Q : A -> manager -> Prop) w t :
  v_tasks (gview w) !! id = Some t -> m (load w t) = (b, load w t) ->
  (forall w', gview w' = gview w -> Q b w') -> wp (in_task id d m) Q w.
Proof.
  intros Ht Em HQ. apply (wp_in_task id d m Q w t Ht). unfold wp. rewrite Em. apply HQ.
  rewrite gview_store. cbn [trace load]. cbn. rewrite app_nil_r. unfold gview. f_equal.
  assert (E : core (load w t) = t); [|rewrite E; by apply insert_id].
  destruct (core_lookup w id t Ht) as (t0 & H0 & _). cbn in Ht. rewrite lookup_fmap, H0 in Ht.
  injection Ht as <-. rewrite core_load. apply load_load.
Qed.

Lemma good_load w t : task_good t -> task_good (load w t).
Proof.
  intros [Hok Hc]. split; [|done].
  apply (any_ok_irrelevant [] (load w)); [|done].
  intros u. split_and!; try reflexivity. intros _. apply not_elem_of_nil.
Qed.

Lemma good_core t : task_good t -> task_good (core t).
Proof. apply good_load. Qed.

Lemma good_trace t : task_good t -> TFault ∉ trace t.
Proof. intros [(ps & qs & [[] _]) _]. done. Qed.

Lemma safe_tasks id (tr : list mgr_output) l :
  Forall (fun o => is_fault o = false) tr -> TFault ∉ l ->
  Forall (fun o => is_fault o = false) (tr ++ map (MTask id) l).
Proof.
  intros H Hl. apply Forall_app. split; [done|]. apply Forall_map, Forall_forall. intros o Ho.
  by destruct o.
Qed.

(** A task that is still well formed, with other clients perhaps. *)
Lemma gok_update x y w id t t' :
  gok x (gview w) -> v_tasks (gview w) !! id = Some t -> task_good t' ->
  (x = y \/ x = None) ->
  (forall c, c ∈ clients t -> c ∈ clients t' \/ Some (GetPort (udpAddr c)) = y) ->
  gok y (gview (store id t' w)).
Proof.
  intros [] Ht Hg Hxy Hc. rewrite gview_store. cbn in *. constructor; cbn.
  - done.
  - intros i. rewrite <- g_heap0. destruct (decide (id = i)) as [<-|Hn].
    + rewrite lookup_insert_eq, Ht. split; by eexists.
    + by rewrite lookup_insert_ne.
  - intros i Hi. apply g_fresh0. destruct (decide (id = i)) as [<-|Hn]; [by rewrite Ht; eexists|].
    by rewrite lookup_insert_ne in Hi.
  - intros i u Hu. destruct (decide (id = i)) as [<-|Hn].
    + rewrite lookup_insert_eq in Hu. injection Hu as <-. by apply good_core.
    + rewrite lookup_insert_ne in Hu by done. by apply (g_good0 i).
  - done.
  - intros p e He Hy. destruct (g_ports0 p e He) as (i & u & c & Hi & Hin & Hp & ->).
    { destruct Hxy as [->| ->]; done. }
    destruct (decide (id = i)) as [<-|Hn].
    + rewrite Ht in Hi. injection Hi as <-. destruct (Hc c Hin) as [Hin'|E]; [|congruence].
      exists id, (core t'), c. rewrite lookup_insert_eq. unfold core. by rewrite clients_load.
    + exists i, u, c. by rewrite lookup_insert_ne.
  - by rewrite known_tasks.
  - apply safe_tasks; [done|by apply good_trace].
Qed.

(** An operation that keeps the task well formed and its clients. *)
Lemma wp_in_task_good {A} id (d : A) (m : TM A) (Q : A -> manager -> Prop) w :
  gok None (gview w) -> id ∈ m_tasklist w ->
  (forall t, task_good t -> wp m (fun _ t' => task_good t') t) -> preserves clients m ->
  (forall a t t', v_tasks (gview w) !! id = Some t -> (a, t') = m (load w t) ->
     gok None (gview (store id t' w)) -> Q a (store id t' w)) ->
  wp (in_task id d m) Q w.
Proof.
  intros Hw Hid Hm Hc HQ. pose proof Hw as [].
  apply g_heap0 in Hid. destruct Hid as [t Ht]. apply (wp_in_task id d m Q w t Ht).
  specialize (Hm (load w t) (good_load w t (g_good0 id t Ht))).
  pose proof (preserves_exec clients m (load w t) Hc) as Ec. rewrite clients_load in Ec.
  unfold wp, exec in *. destruct (m (load w t)) as [a t'] eqn:E. apply (HQ a t t'); [done|done|].
  apply (gok_update None None w id t t'); [done|done|done|by left|].
  intros c Hin. left. by rewrite <- Ec in Hin.
Qed.
End Inv.
#[global] Arguments known _ : simpl never.

(** ** Dropping a task *)
Section Drop.
Context {qb : QuicBridge} {text : AddressText}.

Definition clear1 (c : PRCClient) (m : gmap Z UDPLocalProxyAddrInfo) : gmap Z UDPLocalProxyAddrInfo :=
  let p := GetPort (udpAddr c) in
  if proxyport (default no_port (m !! p)) =? p then delete p m else m.

Lemma exec_clear_ports (rs : list UdpRoute) (w : manager) :
  exec (walk (fun r => clear_port (client r)) rs) w
    = set_m_PortState (fold_left (fun m c => clear1 c m) (map client rs) (m_PortState w)) w.
Proof.
  revert w. induction rs as [|r rs IH]; intros w; cbn [walk map fold_left]; [by destruct w|].
  rewrite exec_bind, IH. unfold clear_port, clear1, port_state, exec, modify. cbn [snd].
  destruct (_ =? _); [done|]. by destruct w.
Qed.

(** What is left of the entries [m]: those whose port none of the clients has. *)
Lemma clear_ports_lookup cs m p e :
  (forall p e, m !! p = Some e -> proxyport e = p) ->
  fold_left (fun m c => clear1 c m) cs m !! p = Some e ->
  m !! p = Some e /\ Forall (fun c => GetPort (udpAddr c) <> p) cs.
Proof.
  revert m. induction cs as [|c cs IH]; intros m Hm He; [done|]. cbn [fold_left] in He.
  assert (H1 : forall p e, clear1 c m !! p = Some e -> m !! p = Some e /\ GetPort (udpAddr c) <> p).
  { intros q f. unfold clear1. set (k := GetPort (udpAddr c)). destruct (_ =? _) eqn:E.
    - intros H. apply lookup_delete_Some in H as [? ?]. done.
    - intros H. split; [done|]. intros Eq. apply Z.eqb_neq in E. destruct E. rewrite Eq, H. by apply Hm. }
  destruct (IH (clear1 c m)) as [H2 H3]; [|done|].
  - intros q f H. apply Hm. by apply H1.
  - destruct (H1 p e H2). split; [done|]. by constructor.
Qed.

Lemma wp_RemoveTask id v0 tm w (Q : unit -> manager -> Prop) :
  gok None v0 -> id ∈ v_list v0 ->
  gview w = mkView (filter (fun i => i <> id) (v_list v0)) (v_tasks v0) (v_next v0) (v_ports v0) tm (v_trace v0) ->
  (filter (fun i => i <> id) (v_list v0) <> [] -> tm = (true, true)) ->
  (forall w', gok None (gview w') -> m_tasklist w' = m_tasklist w ->
     v_tasks (gview w') = delete id (v_tasks (gview w)) -> Q tt w') ->
  wp (RemoveTask id) Q w.
Proof.
  intros [] Hid Ev Htm HQ. pose proof (proj2 (g_heap0 id) Hid) as [t Ht].
  assert (Ht' : v_tasks (gview w) !! id = Some t) by by rewrite Ev.
  destruct (core_lookup w id t Ht') as (t0 & H0 & E0).
  assert (Ecl : clients t0 = clients t).
  { rewrite <- (clients_load w t0), <- (clients_load w t). by rewrite E0. }
  unfold RemoveTask. apply wp_bind. unfold ClearTaskPortStates. apply wp_bind, wp_gets. rewrite H0.
  apply wp_exec. rewrite exec_clear_ports. set (ports := fold_left _ _ _).
  apply wp_bind. unfold OnDelTask. apply wp_bind, wp_gets. cbn [objects set_m_PortState]. rewrite H0.
  apply wp_modify. set (w1 := set_g_trace _ _).
  assert (Hgood : task_good (load w1 t)) by (by apply good_load, (g_good0 id)).
  unfold delete_object. apply wp_bind.
  apply (wp_in_task id tt EndTask _ w1 t); [done|].
  apply wp_exec. rewrite exec_EndTask by apply Hgood. set (t' := set_m_pServer None _).
  apply wp_modify. apply HQ; [|done|].
  2: { cbn. rewrite delete_insert_eq. apply fmap_delete. }
  assert (Etr : trace t' = []) by done. clearbody t'.
  injection Ev as E1 E2 E3 E4 E5 E6.
  constructor; cbn; rewrite ?delete_insert_eq, ?fmap_delete, ?Etr, ?app_nil_r.
  - rewrite E1. by apply NoDup_filter.
  - intros i. rewrite E1, E2. rewrite list_elem_of_filter, <- g_heap0.
    destruct (decide (i = id)) as [->|Hn]; [rewrite lookup_delete_eq; split; [by intros []|by intros []]|].
    rewrite lookup_delete_ne by done. by split; [|intros []].
  - rewrite E2, E3. intros i Hi. apply g_fresh0.
    destruct (decide (i = id)) as [->|Hn]; [by rewrite lookup_delete_eq in Hi; destruct Hi|].
    by rewrite lookup_delete_ne in Hi.
  - rewrite E2. intros i u Hu. apply lookup_delete_Some in Hu as [_ Hu]. by apply (g_good0 i).
  - rewrite E1. intros Hne. change ((timer_task w, timer_alive w) = (true, true)).
    by rewrite E5, Htm.
  - intros p e He _. unfold ports in He.
    apply clear_ports_lookup in He as [He Hno].
    2: { intros q f Hq. rewrite E4 in Hq. destruct (g_ports0 q f Hq) as (i & u & c & _ & _ & Hp & ->); done. }
    rewrite E4 in He. destruct (g_ports0 p e He) as (i & u & c & Hi & Hc & Hp & ->); [done|].
    exists i, u, c. split; [|done]. rewrite E2.
    destruct (decide (i = id)) as [->|Hn]; [|by rewrite lookup_delete_ne].
    rewrite Ht in Hi. injection Hi as <-. exfalso. rewrite <- Ecl in Hc. unfold clients in Hc.
    rewrite Forall_forall in Hno. by apply (Hno c).
  - rewrite E6. rewrite known_del, g_known0. by rewrite E1.
  - rewrite E6. apply Forall_app. split; [done|by constructor].
Qed.

Lemma wp_drop id w (Q : unit -> manager -> Prop) :
  gok None (gview w) -> id ∈ m_tasklist w ->
  (forall w', gok None (gview w') -> m_tasklist w' = filter (fun i => i <> id) (m_tasklist w) ->
     v_tasks (gview w') = delete id (v_tasks (gview w)) -> Q tt w') ->
  wp (erase id;; RemoveTask id) Q w.
Proof.
  intros Hw Hid HQ. apply wp_bind, wp_modify. apply (wp_RemoveTask id (gview w) (timer_task w, timer_alive w)); [done|done|done| |].
  { intros Hne. apply (g_timers _ _ Hw). intros E. by rewrite E in Hne. }
  intros w' H1 H2 H3. by apply HQ.
Qed.
End Drop.

(** ** Registering a client *)
Section Register.
Context {qb : QuicBridge} {text : AddressText}.

Definition assoc (c : PRCClient) (p : ProxyInfo) (t : task) : bool := eval (MatchesAssociation c p) t.

(** The client has an open route of its own, in a listed task of its socket
    and proxy, under the local address it was given; and the port is in the table. *)
Definition served (c : PRCClient) (p : ProxyInfo) (c' : PRCClient) (v : mview) : Prop :=
  exists id t r, id ∈ v_list v /\ v_tasks v !! id = Some t /\ assoc c p t = true /\ not_closing t /\
    r ∈ m_routes t /\ client r = c' /\ route_open t r /\ (exists a, c' = set_udpAddr a c) /\
    v_ports v !! GetPort (udpAddr c') = Some (port_entry c').

Definition owner (t : task) : PRCClient * ProxyInfo := (m_PRCClient t, m_ProxyInfo t).

Lemma assoc_owner c p t t' : owner t = owner t' -> assoc c p t = assoc c p t'.
Proof. intros [= E1 E2]. unfold assoc, MatchesAssociation, eval, mbind, M_bind, gets. cbn. by rewrite E1, E2. Qed.

Lemma owner_AddRoute c : preserves owner (AddRoute c).
Proof.
  assert (Hw : forall p f, preserves owner (with_peer p f)) by (intros; unfold with_peer, temit; unseen).
  assert (Hd : forall p, preserves owner (delete_peer p)) by (intros; unfold delete_peer, temit; unseen).
  unfold AddRoute, add_new_route, peer_open, temit, update_route, for_server, PeerOpened, SetPartner.
  unseen; try apply Hw; try apply Hd; by intros v w <-.
Qed.

Lemma good_open t r : task_good t -> not_closing t -> r ∈ m_routes t -> route_open t r.
Proof.
  intros [(ps & qs & [[] _]) _] Hn Hr. specialize (i_open Hn). rewrite <- i_peers, Forall_map in i_open.
  rewrite Forall_forall in i_open. by apply i_open.
Qed.

Lemma good_AddRoute c t :
  task_good t -> not_closing t -> task_good (exec (AddRoute c) t) /\ not_closing (exec (AddRoute c) t).
Proof.
  intros [Hok Hc] Hn. pose proof (keeps_not_closing_AddRoute c t Hn) as Hn'.
  split; [|done]. split; [|by apply not_closing_closed].
  by apply (keeps_AddRoute [] (m_upstreamState t) c Hn t).
Qed.

(** Writing the entry that was left out. *)
Lemma gok_entry v id t c :
  gok (Some (GetPort (udpAddr c))) v -> v_tasks v !! id = Some t -> c ∈ clients t ->
  gok None (mkView (v_list v) (v_tasks v) (v_next v)
    (<[GetPort (udpAddr c) := port_entry c]> (v_ports v)) (v_timers v) (v_trace v)).
Proof.
  intros [] Ht Hc. constructor; cbn; try done. intros p e He _.
  destruct (decide (GetPort (udpAddr c) = p)) as [<-|Hn].
  - rewrite lookup_insert_eq in He. injection He as <-. by exists id, t, c.
  - rewrite lookup_insert_ne in He by done. apply g_ports0; [done|congruence].
Qed.

Lemma served_intro c p a v id t :
  id ∈ v_list v -> v_tasks v !! id = Some t -> task_good t -> not_closing t -> assoc c p t = true ->
  set_udpAddr a c ∈ clients t ->
  v_ports v !! GetPort (udpAddr (set_udpAddr a c)) = Some (port_entry (set_udpAddr a c)) ->
  served c p (set_udpAddr a c) v.
Proof.
  intros Hl Ht Hg Hn Ha Hc Hp. unfold clients in Hc. apply list_elem_of_fmap in Hc as (r & Er & Hr).
  exists id, t, r. repeat (split; [done || by apply good_open|]). split; [by exists a|done].
Qed.

Lemma wp_join id c p w t (Q : bool * PRCClient -> manager -> Prop) :
  gok None (gview w) -> v_tasks (gview w) !! id = Some t -> not_closing t -> assoc c p t = true ->
  (forall c' w', gok None (gview w') -> Q (false, c') w') ->
  (forall c' w', gok None (gview w') -> served c p c' (gview w') -> Q (true, c') w') ->
  wp (join id c) Q w.
Proof.
  intros Hw Ht Hn Ha Hf Hs. pose proof Hw as []. unfold join. apply wp_bind, (wp_in_task _ _ _ _ w t Ht).
  pose proof (good_load w t (g_good0 id t Ht)) as Hg.
  assert (Hn1 : not_closing (load w t)) by done.
  destruct (good_AddRoute c _ Hg Hn1) as [Hg' Hn'].
  pose proof (preserves_exec owner _ (load w t) (owner_AddRoute c)) as Eo.
  eapply wp_mono; [apply wp_and; [apply (wp_exec _ (fun t' => task_good t' /\ not_closing t' /\ owner t' = owner (load w t))); done|]|].
  - apply (wp_AddRoute_clients c _ (fun r t' =>
      (fst r = false /\ clients t' = clients t) \/
      (exists a, r = (true, set_udpAddr a c) /\ set_udpAddr a c ∈ clients t' /\
         forall x, x ∈ clients t -> x ∈ clients t' \/ udpAddr x = a))); [apply Hg|done| |].
    + intros c0 t' E. left. by rewrite E, clients_load.
    + intros a t' H1 H2. right. exists a. split; [done|]. split; [done|]. by rewrite <- (clients_load w t).
  - intros r t' [(Gt & Nt & Ot) [[Er Ec]|(a & -> & Hin & Hold)]].
    + apply wp_bind. unfold when. rewrite Er. apply wp_ret, wp_ret.
      destruct r as [ok c']. cbn in Er. subst ok. apply Hf.
      apply (gok_update None None w id t t'); [done|done|done|by left|]. intros x Hx. left. by rewrite Ec.
    + cbn [fst snd when]. apply wp_bind, wp_modify, wp_ret.
      set (c' := set_udpAddr a c) in *.
      assert (H1 : gok (Some (GetPort (udpAddr c'))) (gview (store id t' w))).
      { apply (gok_update None _ w id t t'); [done|done|done|by right|].
        intros x Hx. destruct (Hold x Hx) as [?|E]; [by left|right]. by rewrite E. }
      assert (Hl : v_tasks (gview (store id t' w)) !! id = Some (core t')).
      { rewrite gview_store. apply lookup_insert_eq. }
      assert (Hc : c' ∈ clients (core t')) by (unfold core; by rewrite clients_load).
      apply Hs; [by apply (gok_entry (gview (store id t' w)) id (core t') c')|].
      eapply (served_intro c p a _ id (core t')); [|exact Hl|by apply good_core|done| |done|].
      * cbn. apply g_heap0. by eexists.
      * rewrite <- Ha. apply assoc_owner.
        transitivity (owner t'); [by destruct t'|]. rewrite Ot. by destruct t.
      * cbn. apply lookup_insert_eq.
Qed.

(** ** A new task *)

Lemma assoc_self c p t : owner t = (c, p) -> assoc c p t = true.
Proof.
  intros [= E1 E2]. unfold assoc, MatchesAssociation, eval, mbind, M_bind, gets, mret, M_ret. cbn.
  rewrite E1, E2, !Z.eqb_refl, bool_decide_eq_true_2 by done. cbn. unfold stricmp_eq. by apply bool_decide_eq_true_2.
Qed.

Lemma no_server_AddRoute c t : m_pServer t = None -> m_pServer (exec (AddRoute c) t) = None.
Proof.
  intros H. rewrite <- H. apply (preserves_exec m_pServer).
  assert (Hw : forall p f, preserves m_pServer (with_peer p f)) by (intros; unfold with_peer, temit; unseen).
  assert (Hd : forall p, preserves m_pServer (delete_peer p)) by (intros; unfold delete_peer, temit; unseen).
  unfold AddRoute, add_new_route, peer_open, temit, update_route, for_server, PeerOpened, SetPartner.
  unseen; try apply Hw; try apply Hd; by intros v w <-.
Qed.

Lemma wp_SetTaskInfo_new c p w now (Q : bool * PRCClient -> task -> Prop) :
  (forall c' t', any_ok [] t' -> Q (false, c') t') ->
  (forall a t', task_good t' -> not_closing t' -> set_udpAddr a c ∈ clients t' -> owner t' = (c, p) ->
     Q (true, set_udpAddr a c) t') ->
  wp (SetTaskInfo c p) Q (load w (new_task now)).
Proof.
  intros Hf Hs. unfold SetTaskInfo. apply wp_bind, wp_modify, wp_bind, wp_modify.
  set (t1 := set_m_ProxyInfo p _).
  assert (Hok : ok_at [] UPSTREAM_ROUTE_RESERVED t1).
  { split; [|done]. destruct (new_task_ok now) as [H _].
    apply (any_ok_irrelevant [] (fun t => set_m_ProxyInfo p (set_m_PRCClient c (load w t)))); [|done].
    intros u. split_and!; try reflexivity. intros _. apply not_elem_of_nil. }
  assert (Hn : not_closing t1) by done.
  apply wp_bind. eapply wp_mono; [apply wp_and;
    [apply (wp_exec _ (fun t' => ok_at [] UPSTREAM_ROUTE_RESERVED t' /\ m_pServer t' = None /\ owner t' = (c, p)))|]|].
  - split; [by apply (keeps_AddRoute [] UPSTREAM_ROUTE_RESERVED c)|].
    split; [by apply no_server_AddRoute|]. by rewrite (preserves_exec owner _ t1 (owner_AddRoute c)).
  - apply (wp_AddRoute_clients c _ (fun r t' => fst r = false \/
      (exists a, r = (true, set_udpAddr a c) /\ set_udpAddr a c ∈ clients t'))); [apply Hok|done| |].
    + intros c0 t' _. by left.
    + intros a t' H1 _. right. by exists a.
  - intros [ok c'] t' [([Ha Est] & Eserver & Eo) [Er|(a & [= -> ->] & Hc)]].
    + cbn in Er. subst ok. apply wp_bind. unfold for_server. apply wp_bind, wp_gets. rewrite Eserver.
      apply wp_ret, wp_bind, wp_modify, wp_ret, Hf.
      destruct Ha as (ps & qs & Ha). exists ps, qs. by apply task_ok_no_server.
    + apply wp_bind, wp_modify, wp_ret. apply Hs; [|done|done|done].
      split; [|by apply not_closing_closed]. destruct Ha as (ps & qs & Ha). exists ps, qs.
      by apply task_ok_state; [|congruence|].
Qed.

Definition added (v : mview) (t : task) (c : PRCClient) (p : ProxyInfo) (tm : bool * bool)
    (tr : list task_output) : mview :=
  mkView (v_list v ++ [v_next v]) (<[v_next v := t]> (v_tasks v)) (S (v_next v))
    (<[GetPort (udpAddr c) := port_entry c]> (v_ports v)) tm
    (v_trace v ++ map (MTask (v_next v)) tr ++ [MAdd (v_next v) c p]).

Lemma gok_add v t c p tr :
  gok None v -> task_good t -> c ∈ clients t -> TFault ∉ tr -> gok None (added v t c p (true, true) tr).
Proof.
  intros [] Hg Hc Htr.
  assert (Hfresh : v_tasks v !! v_next v = None).
  { destruct (v_tasks v !! v_next v) eqn:E; [|done]. specialize (g_fresh0 _ ltac:(by eexists)). lia. }
  assert (Hid : v_next v ∉ v_list v).
  { intros H. apply g_heap0 in H. rewrite Hfresh in H. by destruct H. }
  constructor; cbn; try done.
  - apply NoDup_app. split; [done|]. split; [|apply NoDup_singleton].
    intros i Hi Hi'. apply list_elem_of_singleton in Hi' as ->. done.
  - intros i. rewrite elem_of_app, list_elem_of_singleton, <- g_heap0.
    destruct (decide (v_next v = i)) as [<-|Hn].
    + rewrite lookup_insert_eq. split; [by right|by eexists].
    + rewrite lookup_insert_ne by done. split; [by left|]. intros [?|?]; congruence.
  - intros i Hi. destruct (decide (v_next v = i)) as [<-|Hn]; [lia|].
    rewrite lookup_insert_ne in Hi by done. specialize (g_fresh0 i Hi). lia.
  - intros i u Hu. destruct (decide (v_next v = i)) as [<-|Hn].
    + rewrite lookup_insert_eq in Hu. by injection Hu as <-.
    + rewrite lookup_insert_ne in Hu by done. by apply (g_good0 i).
  - intros q e He _. destruct (decide (GetPort (udpAddr c) = q)) as [<-|Hn].
    + rewrite lookup_insert_eq in He. injection He as <-. exists (v_next v), t, c.
      by rewrite lookup_insert_eq.
    + rewrite lookup_insert_ne in He by done. destruct (g_ports0 q e He) as (i & u & d & Hi & ?); [done|].
      exists i, u, d. rewrite lookup_insert_ne; [done|]. intros <-. congruence.
  - by rewrite app_assoc, known_add, known_tasks, g_known0.
  - rewrite app_assoc. apply Forall_app. split; [by apply safe_tasks|by constructor].
Qed.

Lemma wp_new_association c p w (Q : bool * PRCClient -> manager -> Prop) :
  gok None (gview w) ->
  (forall c' w', gok None (gview w') -> Q (false, c') w') ->
  (forall c' w', gok None (gview w') -> served c p c' (gview w') -> Q (true, c') w') ->
  wp (new_association c p) Q w.
Proof.
  intros Hw Hf Hs. pose proof Hw as []. unfold new_association. apply wp_bind. unfold new_object. unfold wp at 1.
  set (id := next_object w). set (w1 := set_next_object _ _).
  assert (Hfresh : v_tasks (gview w) !! id = None).
  { destruct (v_tasks (gview w) !! id) eqn:E; [|done]. specialize (g_fresh0 id ltac:(by eexists)). cbn in g_fresh0. lia. }
  assert (Hid : id ∉ m_tasklist w).
  { intros H. apply g_heap0 in H. rewrite Hfresh in H. by destruct H. }
  assert (Et : v_tasks (gview w1) = <[id := core (new_task (g_tick w))]> (v_tasks (gview w))) by (cbn; by rewrite fmap_insert).
  apply wp_bind, (wp_in_task _ _ _ _ w1 (core (new_task (g_tick w)))); [rewrite Et; apply lookup_insert_eq|].
  unfold core. rewrite load_load. apply wp_SetTaskInfo_new.
  - intros c' t' Ha. cbn [negb]. set (w2 := store id t' w1). unfold delete_object.
    assert (E2 : v_tasks (gview w2) !! id = Some (core t')).
    { unfold w2. rewrite gview_store. apply lookup_insert_eq. }
    apply wp_bind, wp_bind, (wp_in_task _ _ _ _ w2 (core t') E2). unfold core. rewrite load_load.
    apply wp_exec. rewrite exec_EndTask.
    2: { apply (any_ok_irrelevant [] (load w2)); [|done].
         intros u. split_and!; try reflexivity. intros _. apply not_elem_of_nil. }
    set (t2 := set_m_pServer None _). assert (Etr : trace t2 = []) by done. clearbody t2.
    apply wp_modify, wp_ret, Hf.
    assert (Ha' : TFault ∉ trace t') by (by destruct Ha as (ps & qs & [[] _])).
    assert (Hid' : objects w !! id = None) by (cbn in Hfresh; rewrite lookup_fmap in Hfresh; by destruct (objects w !! id)).
    match goal with |- gok _ (gview ?x) => set (wf := x) end.
    assert (E : gview wf = mkView (m_tasklist w) (core <$> objects w) (S id) (m_PortState w)
      (timer_task w, timer_alive w) (g_trace w ++ map (MTask id) (trace t'))).
    { unfold gview. cbn. f_equal; [|by rewrite Etr, app_nil_r]. f_equal.
      rewrite delete_insert_eq. unfold w2, w1. cbn. rewrite !delete_insert_eq. by apply delete_id. }
    rewrite E. constructor; cbn; try done.
    + intros i Hi. specialize (g_fresh0 i Hi). cbn in g_fresh0. unfold id. lia.
    + by rewrite known_tasks.
    + by apply safe_tasks.
  - intros a t' Hg Hn Hc Eo. set (c' := set_udpAddr a c) in *. cbn [negb].
    apply wp_bind, wp_modify, wp_bind, wp_modify, wp_bind, wp_gets. cbn [m_tasklist].
    assert (Hadd : forall tm, tm = (true, true) ->
      gok None (added (gview w) (core t') c' p tm (trace t')) /\
      served c p c' (added (gview w) (core t') c' p tm (trace t'))).
    { intros tm ->. assert (Hin : c' ∈ clients (core t')) by (unfold core; by rewrite clients_load).
      split; [apply gok_add; [done|by apply good_core|done|by apply good_trace]|].
      eapply (served_intro c p a _ id (core t')); [|cbn; apply lookup_insert_eq|by apply good_core|done| |done|].
      - cbn. apply elem_of_app. right. by left.
      - apply assoc_self. by destruct t'.
      - cbn. apply lookup_insert_eq. }
    assert (Hend : forall w4, gview w4 = added (gview w) (core t') c' p (true, true) (trace t') -> Q (true, c') w4).
    { intros w4 E4. apply Hs; rewrite E4; by apply Hadd. }
    apply wp_bind, wp_when; intros Hl.
    + apply wp_modify, wp_bind, wp_modify, wp_ret, Hend. unfold added, gview. cbn.
      by rewrite !fmap_insert, insert_insert_eq, <- app_assoc.
    + apply wp_bind, wp_modify, wp_ret, Hend. apply bool_decide_eq_false in Hl.
      rewrite <- (g_timers0 Hl). unfold added, gview. cbn.
      by rewrite !fmap_insert, insert_insert_eq, <- app_assoc.
Qed.
End Register.
