(* ===== verification/UdpTaskMgrSafety.v ===== *)
(** * What the UDP task manager guarantees

    The invariant of UdpTaskMgrInv.v through every entry of the manager, what
    a registration gives, and what a pass of the timers leaves. *)

From S2P Require Import Prelude Winsock SockAddr Effects UdpPolicy UdpCapability UdpTask.
From S2P Require Import UdpTaskRules UdpTaskInv UdpTaskSafety UdpTaskFlow UdpTaskRouting.
From S2P Require Import TaskManager UdpTaskMgr UdpTaskMgrInv.

Section Safety.
Context {qb : QuicBridge} {text : AddressText}.

Abbreviation TM := (M task).
Abbreviation GM := (M manager).

(** ** The tests of a task *)

Definition all_shut (t : task) : Prop := forall p, owns p t -> shut p t.

(** What IsClosed says of it. *)
Definition closedb (t : task) : bool := eval IsClosed (core t).

Lemma IsClosed_load w t : task_good t -> IsClosed (load w t) = (closedb t, load w t).
Proof.
  intros Hg. destruct (IsClosed_spec _ (proj1 (good_load w t Hg))) as (b & -> & Hb).
  destruct (IsClosed_spec _ (proj1 (good_core t Hg))) as (b' & E' & Hb').
  unfold closedb, eval. rewrite E'. cbn [fst]. f_equal.
  assert (Hbb : b = true <-> b' = true) by (rewrite Hb, Hb'; done).
  destruct b, b'; intuition congruence.
Qed.

Lemma closedb_spec t : task_good t -> closedb t = true <-> all_shut t.
Proof.
  intros Hg. destruct (IsClosed_spec _ (proj1 (good_core t Hg))) as (b & E & Hb).
  unfold closedb, eval. by rewrite E.
Qed.

Lemma open_not_closing t : task_good t -> closedb t = false -> not_closing t.
Proof.
  intros Hg E Hst. pose proof (proj2 (closedb_spec t Hg)) as H. rewrite E in H.
  discriminate H. intros p. by apply (proj2 Hg).
Qed.

Lemma wp_IsClosed id d w t (Q : bool -> manager -> Prop) :
  v_tasks (gview w) !! id = Some t -> task_good t ->
  (forall w', gview w' = gview w -> Q (closedb t) w') -> wp (in_task id d IsClosed) Q w.
Proof. intros Ht Hg HQ. by apply (wp_test id d (closedb t) IsClosed Q w t Ht); [apply IsClosed_load|]. Qed.

(** Both tests: [b] is what the second says. *)
Lemma wp_matches_and c p (m : TM bool) (b : bool) id w t (Q : bool -> manager -> Prop) :
  v_tasks (gview w) !! id = Some t -> (forall w', m (load w' t) = (b, load w' t)) ->
  (forall w', gview w' = gview w -> Q (assoc c p t && b) w') -> wp (matches_and c p m id) Q w.
Proof.
  intros Ht Hm HQ. unfold matches_and, matches_. apply wp_bind, (wp_test id false (assoc c p t) _ _ w t Ht).
  { unfold assoc, eval, MatchesAssociation, mbind, M_bind, gets, mret, M_ret. cbn. by destruct t. }
  intros w1 E1. destruct (assoc c p t); cbn [andb] in HQ; [|by apply wp_ret, HQ].
  apply (wp_test id false b m _ w1 t); [by rewrite E1|done|]. intros w2 E2. apply HQ. congruence.
Qed.

Lemma gok_lookup w id :
  gok None (gview w) -> id ∈ m_tasklist w ->
  exists t, v_tasks (gview w) !! id = Some t /\ task_good t.
Proof. intros [] Hid. apply g_heap in Hid. destruct Hid as [t Ht]. exists t. split; [done|by apply (g_good id)]. Qed.

(** ** Loops over the tasks *)

(** A pass whose body leaves the other tasks alone, and this one dropped or as
    [good] says: then every task is [good]. *)
Lemma wp_cull (good : task -> Prop) (body : nat -> GM unit) w (Q : unit -> manager -> Prop) :
  gok None (gview w) ->
  (forall id w1, gok None (gview w1) -> id ∈ m_tasklist w1 ->
     wp (body id) (fun _ w2 => gok None (gview w2) /\
       (forall i, i <> id -> v_tasks (gview w2) !! i = v_tasks (gview w1) !! i) /\
       (forall t, v_tasks (gview w2) !! id = Some t -> good t)) w1) ->
  (forall w', gok None (gview w') -> (forall id t, v_tasks (gview w') !! id = Some t -> good t) -> Q tt w') ->
  wp (walk body (m_tasklist w)) Q w.
Proof.
  apply (wp_pass (fun w => gok None (gview w)) m_tasklist (fun w id => v_tasks (gview w) !! id)
    (fun w H => g_nodup _ _ H) (fun w H => g_heap _ _ H) (fun _ => good)).
Qed.

(** Dropping the task or leaving it. *)
Lemma wp_cull_body (good : task -> Prop) (b : bool) id w1 w2 t :
  gok None (gview w2) -> id ∈ m_tasklist w2 ->
  (forall i, i <> id -> v_tasks (gview w2) !! i = v_tasks (gview w1) !! i) ->
  v_tasks (gview w2) !! id = Some t -> (b = false -> good t) ->
  wp (when b (erase id;; RemoveTask id)) (fun _ w3 => gok None (gview w3) /\
    (forall i, i <> id -> v_tasks (gview w3) !! i = v_tasks (gview w1) !! i) /\
    (forall t, v_tasks (gview w3) !! id = Some t -> good t)) w2.
Proof.
  intros H2 Hid Hsame Ht Hg. destruct b; cbn [when].
  - apply wp_drop; [done|done|]. intros w3 H3 _ E3. split; [done|]. rewrite E3. split.
    + intros i Hi. by rewrite lookup_delete_ne, Hsame.
    + intros u Hu. by rewrite lookup_delete_eq in Hu.
  - apply wp_ret. split; [done|]. split; [done|]. intros u Hu. rewrite Ht in Hu. injection Hu as <-.
    by apply Hg.
Qed.

(** ** Registration *)

Lemma wp_sweep c p w (Q : unit -> manager -> Prop) :
  gok None (gview w) ->
  (forall w', gok None (gview w') ->
     (forall id t, v_tasks (gview w') !! id = Some t -> assoc c p t = true -> not_closing t) -> Q tt w') ->
  wp (sweep c p) Q w.
Proof.
  intros Hw HQ. unfold sweep. apply wp_bind, wp_gets.
  apply (wp_cull (fun t => assoc c p t = true -> not_closing t)); [done| |done].
  intros id w1 H1 Hid. destruct (gok_lookup w1 id H1 Hid) as (t & Ht & Hg).
  apply wp_bind, (wp_matches_and c p IsClosed (closedb t) id w1 t); [done|by intros; apply IsClosed_load|].
  intros w2 E2. assert (El : m_tasklist w2 = m_tasklist w1) by (change (v_list (gview w2) = v_list (gview w1)); by rewrite E2).
  apply (wp_cull_body _ _ id w1 w2 t); [by rewrite E2|by rewrite El|by rewrite E2|by rewrite E2|].
  intros Hb Ha. rewrite Ha, andb_true_l in Hb. exact (open_not_closing t Hg Hb).
Qed.

(** The first task with both tests, if one has; nothing changes. *)
Lemma wp_find c p (m : TM bool) (f : task -> bool) w l (Q : option nat -> manager -> Prop) :
  gok None (gview w) -> (forall x, x ∈ l -> x ∈ m_tasklist w) ->
  (forall t w', m (load w' t) = (f t, load w' t)) ->
  (forall w' o, gview w' = gview w ->
     (forall id, o = Some id -> exists t, v_tasks (gview w) !! id = Some t /\ assoc c p t = true) -> Q o w') ->
  wp (first_task (matches_and c p m) l) Q w.
Proof.
  intros Hw Hl Hm. revert w Hw Hl Q. induction l as [|id l IH]; intros w Hw Hl Q HQ; cbn [first_task].
  - apply wp_ret, HQ; [done|]. done.
  - destruct (gok_lookup w id Hw) as (t & Ht & _); [apply Hl; by left|].
    apply wp_bind, (wp_matches_and c p m (f t) id w t); [done|by intros|].
    intros w1 E1. destruct (assoc c p t && f t) eqn:E.
    + apply wp_ret, HQ; [done|]. intros i [= <-]. exists t. split; [done|]. by apply andb_prop in E as [? _].
    + apply IH; [by rewrite E1| |].
      * intros x Hx. change (x ∈ v_list (gview w1)). rewrite E1. apply Hl. by right.
      * intros w' o E' Ho. apply HQ; [congruence|]. intros i Hi. rewrite <- E1. by apply Ho.
Qed.

Lemma wp_CanStart p w (Q : bool -> manager -> Prop) :
  (forall b w', gview w' = gview w -> Q b w') -> wp (CanStart p) Q w.
Proof.
  intros HQ. unfold CanStart, wp. destruct (CanStartUdpAssociation _ _ _) as [[ok [e|]] cap]; by apply HQ.
Qed.

Lemma wp_OnNewTask oc op w :
  gok None (gview w) ->
  wp (OnNewTask oc op) (fun r w' => gok None (gview w') /\
    (fst r = true -> exists c p c', oc = Some c /\ op = Some p /\ snd r = Some c' /\
       served c p c' (gview w'))) w.
Proof.
  intros Hw. unfold OnNewTask. destruct oc as [c|]; [|by apply wp_ret; split].
  destruct op as [p|]; [|by apply wp_ret; split].
  apply wp_bind, wp_CanStart. intros ok w1 E1. destruct ok; cbn [negb]; [|by apply wp_ret; rewrite E1; split].
  apply wp_bind, wp_sweep; [by rewrite E1|]. intros w2 H2 Hopen.
  apply wp_bind, wp_gets, wp_bind, (wp_find c p _ (fun t => existsb (same_route c) (m_routes t))); [done|done|done|].
  intros w3 owner E3 Ho. apply wp_bind.
  set (P := fun (r : bool * PRCClient) w' => gok None (gview w') /\
    (fst r = true -> served c p (snd r) (gview w'))).
  assert (Hjoin : forall id t w4, gview w4 = gview w2 -> v_tasks (gview w2) !! id = Some t ->
    assoc c p t = true -> wp (join id c) P w4).
  { intros id t w4 E4 Ht Ha.
    apply (wp_join id c p w4 t); [by rewrite E4|by rewrite E4|by apply (Hopen id)|done| |].
    - intros c' w' H'. by split.
    - intros c' w' H' Hs. by split. }
  apply (wp_mono _ P).
  - destruct owner as [id|].
    + destruct (Ho id eq_refl) as (t & Ht & Ha). by apply (Hjoin id t).
    + apply wp_bind, (wp_find c p _ (fun t => forallb (fun r =>
        negb (HasProxyDestination (client r) || HasProxyDestination c) &&
        CanShareAssociation (GetUdpDestination (client r)) (GetUdpDestination c)) (m_routes t)));
        [by rewrite E3| |done|].
      { intros x Hx. change (x ∈ v_list (gview w3)). by rewrite E3. }
      intros w4 taker E4 Ht. destruct taker as [id|].
      * destruct (Ht id eq_refl) as (t & Ht' & Ha). rewrite E3 in Ht'. apply (Hjoin id t); [congruence|done|done].
      * apply wp_new_association; [by rewrite E4, E3| |].
        -- intros c' w' H'. by split.
        -- intros c' w' H' Hs. by split.
  - intros [ok c'] w' [G1 G2]. apply wp_ret. split; [done|]. cbn. intros ->. exists c, p, c'.
    repeat (split; [done|]). by apply G2.
Qed.

(** ** The other entries *)

Lemma good_CloseTask t : task_good t -> task_good (exec CloseTask t).
Proof.
  intros [(ps & qs & Hok) _]. split; [|by apply closed_CloseTask].
  exists ps, qs. by apply keeps_CloseTask.
Qed.

Lemma good_Maintenance t : task_good t -> task_good (exec OnMaintenanceTimer t).
Proof.
  intros [(ps & qs & Hok) Hc]. split; [|by apply keeps_closed_Maintenance].
  exists ps, qs. apply wp_exec, keeps_OnMaintenanceTimer; [done|]. intros s _. apply not_elem_of_nil.
Qed.

(** An operation of one task: the others are left alone. *)
Lemma wp_in_task_step {A} id (d : A) (m : TM A) (Q : A -> manager -> Prop) w :
  gok None (gview w) -> id ∈ m_tasklist w ->
  (forall t, task_good t -> task_good (exec m t)) -> preserves clients m ->
  (forall a w', gok None (gview w') -> m_tasklist w' = m_tasklist w ->
     (forall i, i <> id -> v_tasks (gview w') !! i = v_tasks (gview w) !! i) -> Q a w') ->
  wp (in_task id d m) Q w.
Proof.
  intros Hw Hid Hm Hc HQ. apply wp_in_task_good; [done|done| |done|].
  - intros t Ht. by apply wp_exec, Hm.
  - intros a t t' Ht E Hg. apply HQ; [done|done|]. intros i Hi. rewrite gview_store. cbn [v_tasks].
    by apply lookup_insert_ne.
Qed.

Lemma clients_CloseTask : preserves clients CloseTask.
Proof. apply preserves_clients, unseen_CloseTask. Qed.

(** Only entries of the table go. *)
Lemma wp_ClearTaskPortStates id w (Q : unit -> manager -> Prop) :
  gok None (gview w) -> id ∈ m_tasklist w ->
  (forall w', gok None (gview w') -> m_tasklist w' = m_tasklist w -> Q tt w') ->
  wp (ClearTaskPortStates id) Q w.
Proof.
  intros Hw Hid HQ. destruct (gok_lookup w id Hw Hid) as (t & Ht & _).
  destruct (core_lookup w id t Ht) as (t0 & H0 & _). unfold ClearTaskPortStates.
  apply wp_bind, wp_gets. rewrite H0.
  apply (wp_mono _ (fun _ => Q tt)); [|by intros []].
  apply wp_exec. rewrite exec_clear_ports. apply HQ; [|done].
  destruct Hw. constructor; cbn; try done. intros p e He _.
  apply clear_ports_lookup in He as [He _]; [by apply g_ports|].
  intros q f Hq. destruct (g_ports q f Hq) as (i & u & c & _ & _ & Hp & ->); done.
Qed.

Lemma wp_kill_loop c l w :
  gok None (gview w) -> (forall x, x ∈ l -> x ∈ m_tasklist w) ->
  wp (kill_loop c l) (fun _ w' => gok None (gview w')) w.
Proof.
  revert w. induction l as [|id l IH]; intros w Hw Hl; cbn [kill_loop]; [by apply wp_ret|].
  assert (Hid : id ∈ m_tasklist w) by (apply Hl; by left).
  assert (Hl' : forall x, x ∈ l -> x ∈ m_tasklist w) by (intros; apply Hl; by right).
  apply wp_bind, wp_in_task_step; [done|done|done|unseen|]. intros own w1 H1 E1 _.
  apply wp_if; intros _; [|by apply IH; [|rewrite E1]].
  apply wp_bind, wp_ClearTaskPortStates; [done|by rewrite E1|]. intros w2 H2 E2.
  apply wp_bind, wp_in_task_step; [done|by rewrite E2, E1|by apply good_CloseTask|apply clients_CloseTask|].
  intros [] w3 H3 E3 _. apply wp_bind. eapply wp_mono; [apply IH; [done|by rewrite E3, E2, E1]|].
  intros n w4 H4. by apply wp_ret.
Qed.

(** Everything goes. *)
Lemma wp_RemoveAllTasks w :
  gok None (gview w) ->
  wp RemoveAllTasks (fun _ w' => gok None (gview w') /\ m_tasklist w' = [] /\ objects w' = ∅ /\
    m_PortState w' = ∅ /\ timer_task w' = false /\ timer_alive w' = false /\
    g_capability w' = new_capability) w.
Proof.
  intros Hw. unfold RemoveAllTasks. apply wp_bind, wp_gets, wp_bind.
  eapply wp_mono; [apply (wp_walk (fun l w' => gok None (gview w') /\ m_tasklist w' = l)); [done|]|].
  - clear w Hw. intros id l w [Hw El]. apply wp_bind, wp_modify, wp_bind.
    assert (Hid : id ∈ m_tasklist w) by (rewrite El; by left).
    pose proof (g_nodup _ _ Hw) as Hnd. cbn in Hnd. rewrite El in Hnd. apply NoDup_cons in Hnd as [Hn _].
    assert (Ef : filter (fun i => i <> id) (m_tasklist w) = l).
    { rewrite El, filter_cons_False by (intros H; by apply H). clear -Hn. induction l as [|x l IH]; [done|].
      apply not_elem_of_cons in Hn as [? ?]. rewrite filter_cons_True by done. by rewrite IH. }
    set (w1 := set_m_tasklist _ w). destruct (gok_lookup w id Hw Hid) as (t & Ht & Hg).
    apply (wp_in_task id tt CloseTask _ w1 t); [done|]. apply wp_exec.
    set (t' := exec CloseTask (load w1 t)).
    assert (Hg' : task_good t') by by apply good_CloseTask, good_load.
    assert (Hs : gok None (gview (store id t' w))).
    { apply (gok_update None None w id t t'); [done|done|done|by left|]. intros c Hc. left. unfold t'.
      by rewrite (preserves_exec clients _ _ clients_CloseTask), clients_load. }
    clearbody t'. apply (wp_RemoveTask id (gview (store id t' w)) (timer_task w, timer_alive w)); [done|done| | |].
    + rewrite !gview_store. cbn. by rewrite ?Ef, ?El.
    + intros Hne. apply (g_timers _ _ Hs). intros E. by rewrite E in Hne.
    + intros w2 H2 E2 _. split; [done|]. rewrite E2. cbn. by rewrite El.
  - intros [] w1 [H1 E1]. apply wp_bind, wp_modify, wp_modify.
    assert (Eo : objects w1 = ∅).
    { apply map_empty. intros i. destruct (objects w1 !! i) as [t|] eqn:E; [|done]. exfalso.
      assert (Hi : is_Some (v_tasks (gview w1) !! i)) by (cbn; rewrite lookup_fmap, E; by eexists).
      apply (g_heap _ _ H1) in Hi. cbn in Hi. rewrite E1 in Hi. by apply not_elem_of_nil in Hi. }
    split; [|split_and!; try done].
    + destruct H1. constructor; cbn; try done.
    + cbn. apply map_empty. intros p. destruct (m_PortState w1 !! p) as [e|] eqn:E; [|done]. exfalso.
      destruct (g_ports _ _ H1 p e E) as (i & t & c & Hi & _); [done|]. cbn in Hi.
      rewrite Eo, lookup_fmap, lookup_empty in Hi. done.
Qed.

(** ** The timers *)

Lemma wp_OnTimer_task w :
  gok None (gview w) ->
  wp OnTimer_task (fun _ w' => gok None (gview w') /\
    (forall id t, v_tasks (gview w') !! id = Some t -> ~ all_shut t) /\
    (m_tasklist w' = [] -> timer_task w' = false /\ timer_alive w' = false)) w.
Proof.
  intros Hw. unfold OnTimer_task. apply wp_bind, wp_gets, wp_bind.
  apply (wp_cull (fun t => ~ all_shut t)); [done| |].
  - intros id w1 H1 Hid. apply wp_bind, wp_in_task_step;
      [done|done|by apply good_Maintenance|apply clients_Timer|].
    intros [] w2 H2 E2 Hsame. rewrite <- E2 in Hid. destruct (gok_lookup w2 id H2 Hid) as (t & Ht & Hg).
    apply wp_bind, (wp_IsClosed id false w2 t); [done|done|]. intros w3 E3.
    assert (El : m_tasklist w3 = m_tasklist w2) by (change (v_list (gview w3) = v_list (gview w2)); by rewrite E3).
    apply (wp_cull_body _ _ id w1 w3 t); [by rewrite E3|by rewrite El|by rewrite E3|by rewrite E3|].
    intros Hb Ha. apply (closedb_spec t Hg) in Ha. rewrite Ha in Hb. discriminate Hb.
  - intros w1 H1 Hg. apply wp_bind, wp_gets, wp_when; intros Hl.
    + apply bool_decide_eq_true in Hl. apply wp_modify. split; [|by split].
      destruct H1. constructor; cbn; try done.
    + apply bool_decide_eq_false in Hl. done.
Qed.

Definition runs (os : Z -> process_query) (t : task) : Prop :=
  TestTaskByPid (os (dwPid (m_PRCClient t))) (processCreateTime (m_PRCClient t)) = true.

Lemma wp_read {A} id (d : A) (f : task -> A) w t (Q : A -> manager -> Prop) :
  v_tasks (gview w) !! id = Some t -> (forall w', f (load w' t) = f t) ->
  (forall w', gview w' = gview w -> Q (f t) w') -> wp (in_task id d (gets f)) Q w.
Proof.
  intros Ht Hf HQ. apply (wp_test id d (f t) _ _ w t Ht); [|done]. unfold gets. by rewrite Hf.
Qed.

Lemma wp_OnTimer_alive os w :
  gok None (gview w) ->
  wp (OnTimer_alive os) (fun _ w' => gok None (gview w') /\
    (forall id t, v_tasks (gview w') !! id = Some t -> ~ all_shut t /\ runs os t)) w.
Proof.
  intros Hw. unfold OnTimer_alive. apply wp_bind, wp_gets.
  apply (wp_cull (fun t => ~ all_shut t /\ runs os t)); [done| |by intros; split].
  intros id w1 H1 Hid. destruct (gok_lookup w1 id H1 Hid) as (t & Ht & Hg).
  apply wp_bind, (wp_read id 0 _ w1 t); [done|done|]. intros w2 E2.
  apply wp_bind, (wp_read id 0 _ w2 t); [by rewrite E2|done|]. intros w3 E3. rewrite E2 in E3.
  assert (El : m_tasklist w3 = m_tasklist w1) by (change (v_list (gview w3) = v_list (gview w1)); by rewrite E3).
  apply wp_if; intros Hr.
  - apply wp_bind, wp_in_task_step;
      [by rewrite E3|by rewrite El|by apply good_CloseTask|apply clients_CloseTask|].
    intros [] w4 H4 E4 Hsame. apply wp_drop; [done|by rewrite E4, El|]. intros w5 H5 _ E5.
    split; [done|]. rewrite E5. split.
    + intros i Hi. by rewrite lookup_delete_ne, Hsame, E3.
    + intros u Hu. by rewrite lookup_delete_eq in Hu.
  - apply negb_false_iff in Hr. apply wp_bind, (wp_IsClosed id false w3 t); [by rewrite E3|done|].
    intros w4 E4. rewrite E3 in E4.
    assert (El' : m_tasklist w4 = m_tasklist w1) by (change (v_list (gview w4) = v_list (gview w1)); by rewrite E4).
    apply (wp_cull_body _ _ id w1 w4 t); [by rewrite E4|by rewrite El'|by rewrite E4|by rewrite E4|].
    intros Hb. split; [|done]. intros Ha. apply (closedb_spec t Hg) in Ha. rewrite Ha in Hb. discriminate Hb.
Qed.

(** ** Runs of the manager *)

Inductive gevent :=
  | GEnvironment (now : Z) (connects : list (option Z)) (sockets : list (option _SockAddr))
      (up_sends down_sends : list send_result) (tap : bool)
  | GRegister (providers : list IProxySettings) (c : PRCClient)
  | GUnregister (c : PRCClient)
  | GShutdown
  | GTimer
  | GAlive (os : Z -> process_query)
  | GRemove (id : nat)
  | GCallback (id : nat) (e : event).   (* a socket of a task calls back *)

Definition ghandle (e : gevent) : GM unit :=
  match e with
  | GEnvironment now cs ss us ds tap =>
      modify (fun w => set_g_tick now (set_g_connects cs (set_g_sockets ss (set_g_up_sends us
        (set_g_down_sends ds (set_g_tap tap w))))))
  | GRegister providers c => OnLocalThreadRegister providers c;; mret tt
  | GUnregister c => OnLocalThreadUnregister c;; mret tt
  | GShutdown => ShutdownServer
  | GTimer => OnTimer_task
  | GAlive os => OnTimer_alive os
  | GRemove id => OnDeleteTask id
  | GCallback id e => in_task id tt (handle e)
  end.

Definition gallowed (e : gevent) (w : manager) : Prop :=
  match e with
  | GRemove id => id ∈ m_tasklist w
  | GCallback id e => id ∈ m_tasklist w /\ is_Some (event_peer e) /\
      forall t, objects w !! id = Some t -> allowed e t
  | _ => True
  end.

Inductive greachable : manager -> Prop :=
  | greach_start : greachable new_manager
  | greach_step w e : greachable w -> gallowed e w -> greachable (exec (ghandle e) w).

Lemma gok_start : gok None (gview new_manager).
Proof.
  constructor; cbn; try done; try by constructor.
  - intros id. split; [by intros []|by intros ?%not_elem_of_nil].
  - by intros id [].
Qed.

Lemma wp_OnLocalThreadRegister providers c w :
  gok None (gview w) -> wp (OnLocalThreadRegister providers c) (fun _ w' => gok None (gview w')) w.
Proof.
  intros Hw. unfold OnLocalThreadRegister. destruct (GetProxyInfo providers c) as [p|]; [|by apply wp_ret].
  destruct (GetProxySettings providers) as [s|]; [|by apply wp_ret].
  destruct (Apply c s p) as [b c1]. apply wp_bind. eapply wp_mono; [by apply wp_OnNewTask|].
  intros [ok c2] w1 [H1 _]. destruct ok; [by apply wp_ret|]. by apply wp_bind, wp_gets, wp_ret.
Qed.

Lemma wp_callback id e w :
  gok None (gview w) -> gallowed (GCallback id e) w ->
  wp (in_task id tt (handle e)) (fun _ w' => gok None (gview w')) w.
Proof.
  intros Hw (Hid & Hp & Ha). destruct (gok_lookup w id Hw Hid) as (t & Ht & Hg).
  destruct (core_lookup w id t Ht) as (t0 & H0 & E0). specialize (Ha t0 H0).
  assert (Ha' : allowed e (load w t)).
  { rewrite <- E0. revert Ha. unfold allowed, owns. by destruct t0. }
  apply (wp_in_task id tt _ _ w t Ht).
  apply (wp_mono _ (fun _ t' => task_good t' /\ clients t' = clients t)).
  - apply wp_exec. split; [split|].
    + eapply any_ok_keep; [by apply handle_ok; [apply good_load|]|by constructor].
    + by apply handle_closed; [|apply good_load].
    + rewrite (preserves_exec clients); [apply clients_load|]. apply clients_handle.
      intros c ->. by destruct Hp.
  - intros [] t' [Hg' Ec]. apply (gok_update None None w id t t'); [done|done|done|by left|].
    intros c Hc. left. by rewrite Ec.
Qed.

Lemma greachable_ok w : greachable w -> gok None (gview w).
Proof.
  induction 1 as [|w e Hw IH Ha]; [apply gok_start|]. apply wp_exec.
  destruct e as [now cs ss us ds tap|providers c|c| | |os|id|id e]; cbn [ghandle].
  - by apply wp_modify.
  - apply wp_bind. eapply wp_mono; [by apply wp_OnLocalThreadRegister|]. intros r w' H'. by apply wp_ret.
  - apply wp_bind. eapply wp_mono; [apply wp_bind, wp_gets, wp_kill_loop; [exact IH|done]|].
    intros n w' H'. by apply wp_ret.
  - eapply wp_mono; [by apply wp_RemoveAllTasks|]. by intros [] w' [? _].
  - eapply wp_mono; [by apply wp_OnTimer_task|]. by intros [] w' [? _].
  - eapply wp_mono; [by apply wp_OnTimer_alive|]. by intros [] w' [? _].
  - unfold OnDeleteTask. apply wp_bind, wp_modify, wp_bind, wp_gets, wp_bind.
    set (w1 := set_m_tasklist _ w).
    apply (wp_mono _ (fun _ w2 => gview w2 = mkView (m_tasklist w1) (v_tasks (gview w)) (next_object w)
        (m_PortState w) (timer_task w2, timer_alive w2) (g_trace w) /\
        (m_tasklist w1 <> [] -> (timer_task w2, timer_alive w2) = (timer_task w, timer_alive w)))).
    + apply wp_when; intros Hl; [apply wp_modify|]; split; try done. by apply bool_decide_eq_true in Hl.
    + intros [] w2 [E2 Et]. apply (wp_RemoveTask id (gview w) _ _ _ IH Ha E2); [|by intros].
      intros Hne. rewrite Et by done. apply (g_timers _ _ IH). intros E. by rewrite E in Hne.
  - by apply wp_callback.
Qed.

(** ** The properties *)

(** A task in the heap, as the view has it. *)
Lemma view_task w id t : objects w !! id = Some t -> v_tasks (gview w) !! id = Some (core t).
Proof. intros H. cbn. by rewrite lookup_fmap, H. Qed.

Lemma all_shut_core t : all_shut (core t) <-> all_shut t.
Proof. by destruct t. Qed.

(** C11: The UDP task manager manages its memory and its tables.  After any
    sequence of registrations, closed sockets, timer ticks, deletions, stops
    and socket callbacks: no deleted task was used, and no task used a deleted
    peer; the task objects in memory are exactly the tasks listed, each once;
    the observers were told of exactly those; both timers run while a task is
    listed; and every entry of the port table is that of a route of a listed
    task, with the address of that route's client. *)
Theorem udp_manager_safe (w : manager) :
  greachable w ->
  (MFault ∉ g_trace w /\ forall id, MTask id TFault ∉ g_trace w) /\
  NoDup (m_tasklist w) /\ (forall id, is_Some (objects w !! id) <-> id ∈ m_tasklist w) /\
  known (g_trace w) = m_tasklist w /\
  (m_tasklist w <> [] -> timer_task w = true /\ timer_alive w = true) /\
  forall port e, m_PortState w !! port = Some e ->
    exists id t r, id ∈ m_tasklist w /\ objects w !! id = Some t /\ r ∈ m_routes t /\
      GetPort (udpAddr (client r)) = port /\ e = port_entry (client r).
Proof.
  intros Hw. destruct (greachable_ok w Hw). rewrite Forall_forall in g_safe.
  split; [split|].
  - intros H. by specialize (g_safe _ H).
  - intros id H. by specialize (g_safe _ H).
  - split; [done|]. split.
    { intros id. rewrite <- (g_heap id). cbn. by rewrite lookup_fmap, fmap_is_Some. }
    split; [done|]. split; [intros Hne; by injection (g_timers Hne)|].
    intros port e He. destruct (g_ports port e He) as (id & t & c & Ht & Hc & Hp & ->); [done|].
    assert (Hid : id ∈ m_tasklist w) by (apply g_heap; by eexists).
    cbn in Ht. rewrite lookup_fmap in Ht. destruct (objects w !! id) as [t0|] eqn:E0; [|done].
    injection Ht as <-. unfold core in Hc. rewrite clients_load in Hc. unfold clients in Hc.
    apply list_elem_of_fmap in Hc as (r & -> & Hr). by exists id, t0, r.
Qed.

(** C12: A registration that succeeds gives the application a port that works.
    The local address returned is that of a route of a listed task of the same
    process, socket and proxy; the route's socket is open, so a closed task is
    never reused; and the table answers for that port and client. *)
Theorem registration_served (w : manager) (c c' : PRCClient) (p : ProxyInfo) :
  greachable w ->
  eval (OnNewTask (Some c) (Some p)) w = (true, Some c') ->
  let w' := exec (OnNewTask (Some c) (Some p)) w in
  (exists id t r a, id ∈ m_tasklist w' /\ objects w' !! id = Some t /\ assoc c p t = true /\
     r ∈ m_routes t /\ client r = c' /\ p_open <$> peers t !! peer r = Some true /\
     c' = set_udpAddr a c) /\
  (GetPort (udpAddr c') <> 0 -> eval (GetUDPPortState (port_entry c')) w' = true).
Proof.
  intros Hw He w'. pose proof (wp_OnNewTask (Some c) (Some p) w (greachable_ok w Hw)) as H.
  unfold wp in H. unfold eval in He. subst w'. unfold exec. destruct (OnNewTask _ _ w) as [r w'].
  cbn in He. subst r. destruct H as [_ H]. cbn [fst snd].
  destruct (H eq_refl) as (c0 & p0 & c1 & [= <-] & [= <-] & [= <-] & Hs). clear H.
  destruct Hs as (id & t & r & Hid & Ht & Ha & _ & Hr & Hc & Ho & [a Ea] & Hp). split.
  - cbn in Ht. rewrite lookup_fmap in Ht. destruct (objects w' !! id) as [t0|] eqn:E0; [|done].
    injection Ht as <-. exists id, t0, r, a. split; [done|]. split; [done|].
    split; [by rewrite <- Ha; apply assoc_owner; destruct t0|].
    split; [by destruct t0|]. split; [done|]. split; [by destruct t0|done].
  - intros Hport. unfold GetUDPPortState, eval, mbind, M_bind, gets, mret, M_ret, port_state.
    cbn [proxyport port_entry fst]. cbn in Hp. rewrite Hp. cbn.
    rewrite !Z.eqb_refl. by apply Z.eqb_neq in Hport as ->.
Qed.

(** Nothing dead is kept.  A tick of the maintenance timer leaves only
    tasks with an open socket, and stops the timers when there is none; a tick
    of the liveness timer leaves only such tasks of processes that still run;
    and stopping the proxy deletes every task, empties the port table, stops
    the timers and forgets what was known of the proxy. *)
Theorem dead_tasks_removed (w : manager) (os : Z -> process_query) :
  greachable w ->
  (forall id t, objects (exec OnTimer_task w) !! id = Some t -> ~ all_shut t) /\
  (m_tasklist (exec OnTimer_task w) = [] ->
     timer_task (exec OnTimer_task w) = false /\ timer_alive (exec OnTimer_task w) = false) /\
  (forall id t, objects (exec (OnTimer_alive os) w) !! id = Some t -> ~ all_shut t /\ runs os t) /\
  let stopped := exec RemoveAllTasks w in
  m_tasklist stopped = [] /\ objects stopped = ∅ /\ m_PortState stopped = ∅ /\
  timer_task stopped = false /\ timer_alive stopped = false /\ g_capability stopped = new_capability.
Proof.
  intros Hw. apply greachable_ok in Hw.
  pose proof (proj1 (wp_exec _ _ _) (wp_OnTimer_task w Hw)) as (_ & H1 & H2).
  pose proof (proj1 (wp_exec _ _ _) (wp_OnTimer_alive os w Hw)) as (_ & H3).
  pose proof (proj1 (wp_exec _ _ _) (wp_RemoveAllTasks w Hw)) as (_ & H4).
  split; [|split; [done|split; [|done]]].
  - intros id t Ht Ha. apply (H1 id (core t)); [by apply view_task|by apply all_shut_core].
  - intros id t Ht. destruct (H3 id (core t)) as [Ha Hr]; [by apply view_task|].
    split; [intros H; by apply Ha, all_shut_core|by destruct t].
Qed.
End Safety.

(** ** A manager with one task *)

Definition some_settings : ProxySettingsInfo :=
  mkProxySettingsInfo true true PSI_DNSOPT_REMOTE false false false false false false false SockAddr.Clear.
Definition some_providers : list IProxySettings :=
  [mkIProxySettings (fun _ => None) None; mkIProxySettings (fun _ => Some some_proxy) (Some some_settings)].

Definition ready_manager : manager (qb := no_bridge) :=
  exec (ghandle (text := no_text)
    (GEnvironment 100 [None] [Some (v4_address 5000 16777343)] [Sent] [Sent] false)) new_manager.
Definition busy_manager : manager (qb := no_bridge) :=
  exec (ghandle (text := no_text) (GRegister some_providers some_client)) ready_manager.

Lemma ready_reachable : greachable (text := no_text) ready_manager.
Proof. apply (greach_step (text := no_text)); [apply greach_start|done]. Qed.
Lemma busy_reachable : greachable (text := no_text) busy_manager.
Proof. apply (greach_step (text := no_text)); [apply ready_reachable|done]. Qed.

Lemma udp_manager_safe_witness :
  m_tasklist busy_manager = [0%nat] /\ known (g_trace busy_manager) = [0%nat] /\
  (MFault ∉ g_trace busy_manager) /\ timer_task busy_manager = true.
Proof.
  assert (Hl : m_tasklist busy_manager = [0%nat]) by by vm_compute.
  pose proof (udp_manager_safe (text := no_text) busy_manager busy_reachable)
    as ([H1 _] & _ & _ & H2 & H3 & _).
  split; [exact Hl|]. split; [by rewrite H2|]. split; [exact H1|]. apply H3. by rewrite Hl.
Defined.

Lemma registration_served_witness :
  let c' := set_udpAddr (v4_address 5000 16777343) some_client in
  eval (GetUDPPortState (port_entry c'))
    (exec (OnNewTask (text := no_text) (Some some_client) (Some some_proxy)) ready_manager) = true.
Proof.
  apply (registration_served (text := no_text) ready_manager some_client
    (set_udpAddr (v4_address 5000 16777343) some_client) some_proxy ready_reachable);
    [by vm_compute|by vm_compute].
Defined.

(** The application is gone: its task is dropped. *)
Lemma dead_tasks_removed_witness :
  objects busy_manager <> ∅ /\ objects (exec (RemoveAllTasks (qb := no_bridge)) busy_manager) = ∅ /\
  forall id, objects (exec (OnTimer_alive (qb := no_bridge) (fun _ => OpenFailed)) busy_manager) !! id = None.
Proof.
  pose proof (dead_tasks_removed (text := no_text) busy_manager (fun _ => OpenFailed) busy_reachable)
    as (_ & _ & H & _ & H0 & _).
  split; [|split; [exact H0|]].
  - intros E. assert (H1 : objects busy_manager !! 0%nat = None) by by rewrite E.
    vm_compute in H1. discriminate.
  - intros id. destruct (objects (exec _ _) !! id) as [t|] eqn:E; [|done].
    destruct (H id t E) as [_ Hr]. discriminate Hr.
Defined.
