(* ===== verification/TcpRelay.v ===== *)
(** * The TCP relay (PRCTcpPeer.cpp, TcpProxyTask.cpp) and its timeouts

    First the monitors of TimeoutMonitor.h, then the relay.

    One monitor per kind of timeout; the clock wraps at 32 bits. *)

From S2P Require Import Prelude.

Inductive em_TMTimeOut :=
  | TM_0 | TM_DNS | TM_CONN | TM_RECV | TM_SEND | TM_IDLE | TM_SHUT | TM_CLOSE.

#[global] Instance em_TMTimeOut_eq_dec : EqDecision em_TMTimeOut.
Proof. solve_decision. Defined.

(** The index of an enumerator, and their number. *)
Definition tm_index (t : em_TMTimeOut) : nat :=
  match t with
  | TM_0 => 0 | TM_DNS => 1 | TM_CONN => 2 | TM_RECV => 3
  | TM_SEND => 4 | TM_IDLE => 5 | TM_SHUT => 6 | TM_CLOSE => 7
  end.
Definition TM_COUNT : nat := 8.

Record CTimeoutMonitor := mkTimeoutMonitor {
  m_Time : Z;
  m_timeout : Z;
  m_bValid : bool
}.

Definition new_monitor (now : Z) : CTimeoutMonitor := mkTimeoutMonitor now (20 * 1000) true.
Definition SetTimeoutVal (val : Z) (m : CTimeoutMonitor) : CTimeoutMonitor :=
  mkTimeoutMonitor (m_Time m) val (m_bValid m).
Definition Enable (m : CTimeoutMonitor) : CTimeoutMonitor :=
  mkTimeoutMonitor (m_Time m) (m_timeout m) true.
Definition Disable (m : CTimeoutMonitor) : CTimeoutMonitor :=
  mkTimeoutMonitor (m_Time m) (m_timeout m) false.
Definition Update (now : Z) (m : CTimeoutMonitor) : CTimeoutMonitor :=
  mkTimeoutMonitor now (m_timeout m) (m_bValid m).
Definition IsTimeout (now : Z) (m : CTimeoutMonitor) : bool :=
  if negb (m_bValid m) then false else m_timeout m <? elapsed now (m_Time m).

From S2P Require Import Winsock SockAddr Effects UdpPolicy.

(** * The TCP relay (PRCTcpPeer.cpp, TcpProxyTask.cpp)

    A [CTcpProxyTask] joins the application's socket ([Client]) and the
    upstream socket ([Server], with its proxy layer).  Each peer reads into its
    own buffer of 4096 bytes and sends it through its partner; end of stream is
    passed on as a half close once the buffer is empty.

    The sockets are an interface, [StreamSocket]: TcpSockets.v has the plain
    one and the one through the proxy layer.  The state [relay] is the task
    with both peers, and what select, FIONREAD and the clock will return.
    [m_pMitm] is null: the MITM bridge runs another process.  A write outside
    the buffer, or a loop that outlives its fuel, is the output [RFault]. *)

(** ** The sockets, as the peers see them *)
Class StreamSocket (S : Type) := {
  sock_receive : Z -> S -> (Z * bytes) * S;
  sock_send : bytes -> S -> Z * S;
  sock_error : S -> Z;             (* WSAGetLastError after a call *)
  HasPendingRead : S -> bool       (* of the secure layer *)
}.

Inductive side := Client | Server.

#[global] Instance side_eq_dec : EqDecision side.
Proof. solve_decision. Defined.

Definition partner (s : side) : side := match s with Client => Server | Server => Client end.

(** [datafrom], and the side of the tap: 1 is the server. *)
Definition from_server (s : side) : bool := match s with Server => true | Client => false end.

Inductive relay_output :=
  | RTrigger (s : side) (lEvent nErrorCode : Z)
  | RShutDown (s : side)                          (* SD_SEND *)
  | RAsyncSelect (s : side) (lEvent : Z)
  | RClose (s : side)
  | RTraffic (download : bool) (n : Z)
  | RPacket (datafrom : bool) (data : bytes)      (* the observers' OnEachPacket *)
  | RObserved (event : Z) (datafrom : bool) (errcode : Z)  (* FD_CONNECT, FD_CLOSE *)
  | RTapData (datafrom : bool) (data : bytes)
  | RTapEof (datafrom : bool)
  | RTapConnected (err : Z)
  | RTapClosed (datafrom : bool) (err : Z)
  | RTapReleased
  | RProxyFailure (err : Z)
  | RFault.

Definition MAXTCPBUFSIZE : Z := 1024 * 4.

Section Relay.
Context {S : Type} {socket : StreamSocket S}.

Record CPRCTcpPeer := mkTcpPeer {
  p_socket : S;   (* the socket below, with its layers *)
  p_handle : bool;   (* the handle is valid *)
  m_lEvent : Z;   (* the events selected *)
  m_pProxyLayer : bool;   (* it is not null *)
  m_pSecureLayer : bool;   (* likewise *)
  m_bConnShutted : bool;
  m_bReadClosed : bool;
  m_bWriteShutdown : bool;
  m_bForwardingReady : bool;
  m_bFullyClosing : bool;
  m_SocketStatus : em_TMTimeOut;
  m_TimeoutMonitor : list CTimeoutMonitor;
  m_recvbuf : bytes;   (* its first m_recvbufpos bytes *)
  m_sentpos : Z;
  m_DataLenRecvd : Z;
  m_DataLenSent : Z;
  m_dwLastError : Z
}.

Definition set_p_socket (v : S) (p : CPRCTcpPeer) : CPRCTcpPeer :=
  mkTcpPeer v (p_handle p) (m_lEvent p) (m_pProxyLayer p) (m_pSecureLayer p) (m_bConnShutted p)
    (m_bReadClosed p) (m_bWriteShutdown p) (m_bForwardingReady p) (m_bFullyClosing p)
    (m_SocketStatus p) (m_TimeoutMonitor p) (m_recvbuf p) (m_sentpos p) (m_DataLenRecvd p)
    (m_DataLenSent p) (m_dwLastError p).
Definition set_p_handle (v : bool) (p : CPRCTcpPeer) : CPRCTcpPeer :=
  mkTcpPeer (p_socket p) v (m_lEvent p) (m_pProxyLayer p) (m_pSecureLayer p) (m_bConnShutted p)
    (m_bReadClosed p) (m_bWriteShutdown p) (m_bForwardingReady p) (m_bFullyClosing p)
    (m_SocketStatus p) (m_TimeoutMonitor p) (m_recvbuf p) (m_sentpos p) (m_DataLenRecvd p)
    (m_DataLenSent p) (m_dwLastError p).
Definition set_m_lEvent (v : Z) (p : CPRCTcpPeer) : CPRCTcpPeer :=
  mkTcpPeer (p_socket p) (p_handle p) v (m_pProxyLayer p) (m_pSecureLayer p) (m_bConnShutted p)
    (m_bReadClosed p) (m_bWriteShutdown p) (m_bForwardingReady p) (m_bFullyClosing p)
    (m_SocketStatus p) (m_TimeoutMonitor p) (m_recvbuf p) (m_sentpos p) (m_DataLenRecvd p)
    (m_DataLenSent p) (m_dwLastError p).
Definition set_m_pProxyLayer (v : bool) (p : CPRCTcpPeer) : CPRCTcpPeer :=
  mkTcpPeer (p_socket p) (p_handle p) (m_lEvent p) v (m_pSecureLayer p) (m_bConnShutted p)
    (m_bReadClosed p) (m_bWriteShutdown p) (m_bForwardingReady p) (m_bFullyClosing p)
    (m_SocketStatus p) (m_TimeoutMonitor p) (m_recvbuf p) (m_sentpos p) (m_DataLenRecvd p)
    (m_DataLenSent p) (m_dwLastError p).
Definition set_m_pSecureLayer (v : bool) (p : CPRCTcpPeer) : CPRCTcpPeer :=
  mkTcpPeer (p_socket p) (p_handle p) (m_lEvent p) (m_pProxyLayer p) v (m_bConnShutted p)
    (m_bReadClosed p) (m_bWriteShutdown p) (m_bForwardingReady p) (m_bFullyClosing p)
    (m_SocketStatus p) (m_TimeoutMonitor p) (m_recvbuf p) (m_sentpos p) (m_DataLenRecvd p)
    (m_DataLenSent p) (m_dwLastError p).
Definition set_m_bConnShutted (v : bool) (p : CPRCTcpPeer) : CPRCTcpPeer :=
  mkTcpPeer (p_socket p) (p_handle p) (m_lEvent p) (m_pProxyLayer p) (m_pSecureLayer p) v
    (m_bReadClosed p) (m_bWriteShutdown p) (m_bForwardingReady p) (m_bFullyClosing p)
    (m_SocketStatus p) (m_TimeoutMonitor p) (m_recvbuf p) (m_sentpos p) (m_DataLenRecvd p)
    (m_DataLenSent p) (m_dwLastError p).
Definition set_m_bReadClosed (v : bool) (p : CPRCTcpPeer) : CPRCTcpPeer :=
  mkTcpPeer (p_socket p) (p_handle p) (m_lEvent p) (m_pProxyLayer p) (m_pSecureLayer p)
    (m_bConnShutted p) v (m_bWriteShutdown p) (m_bForwardingReady p) (m_bFullyClosing p)
    (m_SocketStatus p) (m_TimeoutMonitor p) (m_recvbuf p) (m_sentpos p) (m_DataLenRecvd p)
    (m_DataLenSent p) (m_dwLastError p).
Definition set_m_bWriteShutdown (v : bool) (p : CPRCTcpPeer) : CPRCTcpPeer :=
  mkTcpPeer (p_socket p) (p_handle p) (m_lEvent p) (m_pProxyLayer p) (m_pSecureLayer p)
    (m_bConnShutted p) (m_bReadClosed p) v (m_bForwardingReady p) (m_bFullyClosing p)
    (m_SocketStatus p) (m_TimeoutMonitor p) (m_recvbuf p) (m_sentpos p) (m_DataLenRecvd p)
    (m_DataLenSent p) (m_dwLastError p).
Definition set_m_bForwardingReady (v : bool) (p : CPRCTcpPeer) : CPRCTcpPeer :=
  mkTcpPeer (p_socket p) (p_handle p) (m_lEvent p) (m_pProxyLayer p) (m_pSecureLayer p)
    (m_bConnShutted p) (m_bReadClosed p) (m_bWriteShutdown p) v (m_bFullyClosing p)
    (m_SocketStatus p) (m_TimeoutMonitor p) (m_recvbuf p) (m_sentpos p) (m_DataLenRecvd p)
    (m_DataLenSent p) (m_dwLastError p).
Definition set_m_bFullyClosing (v : bool) (p : CPRCTcpPeer) : CPRCTcpPeer :=
  mkTcpPeer (p_socket p) (p_handle p) (m_lEvent p) (m_pProxyLayer p) (m_pSecureLayer p)
    (m_bConnShutted p) (m_bReadClosed p) (m_bWriteShutdown p) (m_bForwardingReady p) v
    (m_SocketStatus p) (m_TimeoutMonitor p) (m_recvbuf p) (m_sentpos p) (m_DataLenRecvd p)
    (m_DataLenSent p) (m_dwLastError p).
Definition set_m_SocketStatus (v : em_TMTimeOut) (p : CPRCTcpPeer) : CPRCTcpPeer :=
  mkTcpPeer (p_socket p) (p_handle p) (m_lEvent p) (m_pProxyLayer p) (m_pSecureLayer p)
    (m_bConnShutted p) (m_bReadClosed p) (m_bWriteShutdown p) (m_bForwardingReady p)
    (m_bFullyClosing p) v (m_TimeoutMonitor p) (m_recvbuf p) (m_sentpos p) (m_DataLenRecvd p)
    (m_DataLenSent p) (m_dwLastError p).
Definition set_m_TimeoutMonitor (v : list CTimeoutMonitor) (p : CPRCTcpPeer) : CPRCTcpPeer :=
  mkTcpPeer (p_socket p) (p_handle p) (m_lEvent p) (m_pProxyLayer p) (m_pSecureLayer p)
    (m_bConnShutted p) (m_bReadClosed p) (m_bWriteShutdown p) (m_bForwardingReady p)
    (m_bFullyClosing p) (m_SocketStatus p) v (m_recvbuf p) (m_sentpos p) (m_DataLenRecvd p)
    (m_DataLenSent p) (m_dwLastError p).
Definition set_m_recvbuf (v : bytes) (p : CPRCTcpPeer) : CPRCTcpPeer :=
  mkTcpPeer (p_socket p) (p_handle p) (m_lEvent p) (m_pProxyLayer p) (m_pSecureLayer p)
    (m_bConnShutted p) (m_bReadClosed p) (m_bWriteShutdown p) (m_bForwardingReady p)
    (m_bFullyClosing p) (m_SocketStatus p) (m_TimeoutMonitor p) v (m_sentpos p) (m_DataLenRecvd
    p) (m_DataLenSent p) (m_dwLastError p).
Definition set_m_sentpos (v : Z) (p : CPRCTcpPeer) : CPRCTcpPeer :=
  mkTcpPeer (p_socket p) (p_handle p) (m_lEvent p) (m_pProxyLayer p) (m_pSecureLayer p)
    (m_bConnShutted p) (m_bReadClosed p) (m_bWriteShutdown p) (m_bForwardingReady p)
    (m_bFullyClosing p) (m_SocketStatus p) (m_TimeoutMonitor p) (m_recvbuf p) v (m_DataLenRecvd
    p) (m_DataLenSent p) (m_dwLastError p).
Definition set_m_DataLenRecvd (v : Z) (p : CPRCTcpPeer) : CPRCTcpPeer :=
  mkTcpPeer (p_socket p) (p_handle p) (m_lEvent p) (m_pProxyLayer p) (m_pSecureLayer p)
    (m_bConnShutted p) (m_bReadClosed p) (m_bWriteShutdown p) (m_bForwardingReady p)
    (m_bFullyClosing p) (m_SocketStatus p) (m_TimeoutMonitor p) (m_recvbuf p) (m_sentpos p) v
    (m_DataLenSent p) (m_dwLastError p).
Definition set_m_DataLenSent (v : Z) (p : CPRCTcpPeer) : CPRCTcpPeer :=
  mkTcpPeer (p_socket p) (p_handle p) (m_lEvent p) (m_pProxyLayer p) (m_pSecureLayer p)
    (m_bConnShutted p) (m_bReadClosed p) (m_bWriteShutdown p) (m_bForwardingReady p)
    (m_bFullyClosing p) (m_SocketStatus p) (m_TimeoutMonitor p) (m_recvbuf p) (m_sentpos p)
    (m_DataLenRecvd p) v (m_dwLastError p).
Definition set_m_dwLastError (v : Z) (p : CPRCTcpPeer) : CPRCTcpPeer :=
  mkTcpPeer (p_socket p) (p_handle p) (m_lEvent p) (m_pProxyLayer p) (m_pSecureLayer p)
    (m_bConnShutted p) (m_bReadClosed p) (m_bWriteShutdown p) (m_bForwardingReady p)
    (m_bFullyClosing p) (m_SocketStatus p) (m_TimeoutMonitor p) (m_recvbuf p) (m_sentpos p)
    (m_DataLenRecvd p) (m_DataLenSent p) v.

Record relay := mkRelay {
  m_pClient : CPRCTcpPeer;
  m_pServer : CPRCTcpPeer;
  m_bDeletePending : bool;
  m_pProtocol : bool;   (* the protocol tap is attached *)
  r_tick : Z;   (* GetTickCount *)
  r_selects : list Z;   (* what select will return *)
  r_ioctls : list (option Z);   (* what FIONREAD will give *)
  r_lasterr : Z;   (* WSAGetLastError *)
  r_out : list relay_output   (* what the task did, oldest first *)
}.

Definition set_m_pClient (v : CPRCTcpPeer) (w : relay) : relay :=
  mkRelay v (m_pServer w) (m_bDeletePending w) (m_pProtocol w) (r_tick w) (r_selects w)
    (r_ioctls w) (r_lasterr w) (r_out w).
Definition set_m_pServer (v : CPRCTcpPeer) (w : relay) : relay :=
  mkRelay (m_pClient w) v (m_bDeletePending w) (m_pProtocol w) (r_tick w) (r_selects w)
    (r_ioctls w) (r_lasterr w) (r_out w).
Definition set_m_bDeletePending (v : bool) (w : relay) : relay :=
  mkRelay (m_pClient w) (m_pServer w) v (m_pProtocol w) (r_tick w) (r_selects w) (r_ioctls w)
    (r_lasterr w) (r_out w).
Definition set_m_pProtocol (v : bool) (w : relay) : relay :=
  mkRelay (m_pClient w) (m_pServer w) (m_bDeletePending w) v (r_tick w) (r_selects w) (r_ioctls
    w) (r_lasterr w) (r_out w).
Definition set_r_tick (v : Z) (w : relay) : relay :=
  mkRelay (m_pClient w) (m_pServer w) (m_bDeletePending w) (m_pProtocol w) v (r_selects w)
    (r_ioctls w) (r_lasterr w) (r_out w).
Definition set_r_selects (v : list Z) (w : relay) : relay :=
  mkRelay (m_pClient w) (m_pServer w) (m_bDeletePending w) (m_pProtocol w) (r_tick w) v
    (r_ioctls w) (r_lasterr w) (r_out w).
Definition set_r_ioctls (v : list (option Z)) (w : relay) : relay :=
  mkRelay (m_pClient w) (m_pServer w) (m_bDeletePending w) (m_pProtocol w) (r_tick w) (r_selects
    w) v (r_lasterr w) (r_out w).
Definition set_r_lasterr (v : Z) (w : relay) : relay :=
  mkRelay (m_pClient w) (m_pServer w) (m_bDeletePending w) (m_pProtocol w) (r_tick w) (r_selects
    w) (r_ioctls w) v (r_out w).
Definition set_r_out (v : list relay_output) (w : relay) : relay :=
  mkRelay (m_pClient w) (m_pServer w) (m_bDeletePending w) (m_pProtocol w) (r_tick w) (r_selects
    w) (r_ioctls w) (r_lasterr w) v.

Abbreviation RM := (M relay).

Definition peer_of (s : side) (w : relay) : CPRCTcpPeer :=
  match s with Client => m_pClient w | Server => m_pServer w end.
Definition set_peer (s : side) (p : CPRCTcpPeer) (w : relay) : relay :=
  match s with Client => set_m_pClient p w | Server => set_m_pServer p w end.

Definition of_peer {A} (s : side) (f : CPRCTcpPeer -> A) : RM A := gets (fun w => f (peer_of s w)).
Definition on (s : side) (f : CPRCTcpPeer -> CPRCTcpPeer) : RM unit :=
  modify (fun w => set_peer s (f (peer_of s w)) w).
Definition remit (o : relay_output) : RM unit := modify (fun w => set_r_out (r_out w ++ [o]) w).
Definition GetLastError_ : RM Z := gets r_lasterr.

(** ** Primitives of the socket base class *)

(** With a layer [AsyncSelect] only records the events: the lowest layer has
    them all selected. *)
Definition AsyncSelect (s : side) (lEvent : Z) : RM unit :=
  on s (set_m_lEvent lEvent);;
  open ← of_peer s p_handle;
  layers ← of_peer s m_pProxyLayer;
  when (open && negb layers) (remit (RAsyncSelect s lEvent)).

(** Without a layer the error code does not get into the posted message. *)
Definition TriggerEvent (s : side) (lEvent nErrorCode : Z) : RM unit :=
  open ← of_peer s p_handle;
  layers ← of_peer s m_pProxyLayer;
  when open (remit (RTrigger s lEvent (if layers : bool then nErrorCode else 0))).

(** [Close] ends with [RemoveAllLayers]. *)
Definition CloseSocket (s : side) : RM unit :=
  open ← of_peer s p_handle;
  when open (remit (RClose s));;
  on s (fun p => set_m_pProxyLayer false (set_m_pSecureLayer false (set_p_handle false p))).

Definition PeerReceive (s : side) (n : Z) : RM (Z * bytes) := fun w =>
  let p := peer_of s w in
  if negb (p_handle p) then ((SOCKET_ERROR, []), set_r_lasterr WSAENOTSOCK w)
  else
    let '(r, k) := sock_receive n (p_socket p) in
    (r, set_r_lasterr (sock_error k) (set_peer s (set_p_socket k p) w)).

Definition PeerSend (s : side) (data : bytes) : RM Z := fun w =>
  let p := peer_of s w in
  if negb (p_handle p) then (SOCKET_ERROR, set_r_lasterr WSAENOTSOCK w)
  else
    let '(n, k) := sock_send data (p_socket p) in
    (n, set_r_lasterr (sock_error k) (set_peer s (set_p_socket k p) w)).

(** select on one socket, without waiting. *)
Definition TestSocketStatus (s : side) (lEvent : Z) : RM Z := fun w =>
  match r_selects w with [] => (0, w) | r :: l => (r, set_r_selects l w) end.

(** IOCtl(FIONREAD): [None] when it fails. *)
Definition PendingBytes (s : side) : RM (option Z) := fun w =>
  match r_ioctls w with [] => (Some 0, w) | r :: l => (r, set_r_ioctls l w) end.

Definition UpdateMonitor (s : side) (t : em_TMTimeOut) : RM unit :=
  now ← gets r_tick;
  on s (fun p => set_m_TimeoutMonitor (alter (Update now) (tm_index t) (m_TimeoutMonitor p)) p).
Definition change_monitor (s : side) (t : em_TMTimeOut) (f : CTimeoutMonitor -> CTimeoutMonitor) : RM unit :=
  on s (fun p => set_m_TimeoutMonitor (alter f (tm_index t) (m_TimeoutMonitor p)) p).

(** ** The peer (PRCTcpPeer.cpp) *)

Definition valid (p : CPRCTcpPeer) : Z := Z.of_nat (length (m_recvbuf p)) - m_sentpos p.
Definition GetValidDataLen (s : side) : RM Z := of_peer s valid.

Definition tcp_ClearBuffer (s : side) : RM unit :=
  on s (fun p => set_m_sentpos 0 (set_m_recvbuf [] p)).

(** The sends of [TransferSend]: whether none failed, what is unsent, how much went. *)
Fixpoint transfer_loop (s : side) (fuel : nat) (unsent : bytes) (nBytesSent : Z) : RM (bool * bytes * Z) :=
  match unsent with
  | [] => mret (true, [], nBytesSent)
  | _ :: _ =>
      match fuel with
      | O => remit RFault;; mret (false, unsent, nBytesSent)
      | Datatypes.S fuel =>
          n ← PeerSend (partner s) unsent;
          if n =? SOCKET_ERROR then
            e ← GetLastError_;
            mret (e =? WSAEWOULDBLOCK, unsent, nBytesSent)
          else
            on s (fun p => set_m_DataLenSent (u64 (m_DataLenSent p + n)) p);;
            layers ← of_peer s m_pProxyLayer;
            remit (RTraffic layers n);;
            transfer_loop s fuel (drop (Z.to_nat n) unsent) (nBytesSent + n)
      end
  end.

(** -1 on an error, otherwise the bytes sent. *)
Definition TransferSend (s : side) : RM Z :=
  on (partner s) (set_m_SocketStatus TM_SEND);;
  UpdateMonitor (partner s) TM_SEND;;
  data ← of_peer s (fun p => drop (Z.to_nat (m_sentpos p)) (m_recvbuf p));
  r ← transfer_loop s (length data) data 0;
  let '(bOK, unsent, nBytesSent) := (r : bool * bytes * Z) in
  (if bool_decide (unsent = [])
   then on s (fun p => set_m_sentpos 0 (set_m_recvbuf [] p))
   else on s (fun p => set_m_sentpos (m_sentpos p + nBytesSent) p));;
  mret (if bOK then nBytesSent else -1).

Definition PropagateHalfClose (s : side) : RM unit :=
  p ← of_peer s id;
  q ← of_peer (partner s) id;
  if negb (m_bReadClosed p) || negb (valid p =? 0) || negb (p_handle q) || m_bWriteShutdown q
     || (m_pProxyLayer q && negb (m_bForwardingReady q)) then mret tt
  else
    pending ← PendingBytes s;
    if match pending with Some n => 0 <? n | None => false end then TriggerEvent s FD_READ 0
    else
      remit (RShutDown (partner s));;
      on (partner s) (set_m_bWriteShutdown true).

(** CTcpProxyTask::OnPeerClosed *)
Definition tcp_OnPeerClosed (s : side) : RM unit :=
  c ← of_peer Client p_handle;
  v ← of_peer Server p_handle;
  when (negb c && negb v) (modify (set_m_bDeletePending true)).

Definition TryFinishConnection (s : side) : RM unit :=
  p ← of_peer s id;
  q ← of_peer (partner s) id;
  if m_bFullyClosing p || negb (m_bReadClosed p) || negb (m_bReadClosed q)
     || negb (valid p =? 0) || negb (valid q =? 0) then mret tt
  else
    on s (set_m_bFullyClosing true);;
    on (partner s) (set_m_bFullyClosing true);;
    AsyncSelect s 0;;
    AsyncSelect (partner s) 0;;
    CloseSocket s;;
    CloseSocket (partner s);;
    on s (set_m_SocketStatus TM_CLOSE);;
    on (partner s) (set_m_SocketStatus TM_CLOSE);;
    tcp_OnPeerClosed s.

Definition MAX_EVENT_READ_BYTES : Z := MAXTCPBUFSIZE * 16.

(** The reading loop: whether it went well, the error code, the bytes read. *)
Fixpoint receive_loop (s : side) (fuel : nat) (nRecvd : Z) : RM (bool * Z * Z) :=
  p ← of_peer s id;
  let pos := Z.of_nat (length (m_recvbuf p)) in
  if negb ((pos <? MAXTCPBUFSIZE) && ((nRecvd <? MAX_EVENT_READ_BYTES) || m_bReadClosed p)) then
    mret (true, 0, nRecvd)
  else
    match fuel with
    | O => remit RFault;; mret (true, 0, nRecvd)
    | Datatypes.S fuel =>
        r ← PeerReceive s (MAXTCPBUFSIZE - pos);
        let '(n, got) := (r : Z * bytes) in
        tap ← gets m_pProtocol;
        if n =? SOCKET_ERROR then
          e ← GetLastError_;
          mret (e =? WSAEWOULDBLOCK, e, nRecvd)
        else if n =? 0 then
          layers ← of_peer s m_pProxyLayer;
          when tap (remit (RTapEof layers));;
          on s (set_m_bConnShutted true);;
          on s (set_m_bReadClosed true);;
          AsyncSelect s (FD_WRITE + FD_CLOSE);;
          mret (true, 0, nRecvd)
        else
          layers ← of_peer s m_pProxyLayer;
          when tap (remit (RTapData layers got));;
          let buf := m_recvbuf p ++ got in
          (* m_recvbuf has MAXTCPBUFSIZE + 1 bytes, the last for the terminator *)
          when (MAXTCPBUFSIZE <? Z.of_nat (length buf)) (remit RFault);;
          on s (fun p => set_m_DataLenRecvd (u64 (m_DataLenRecvd p + n)) (set_m_recvbuf buf p));;
          remit (RPacket layers buf);;
          sent ← TransferSend s;
          if sent <? 0 then mret (false, 0, nRecvd + n)
          else if sent <? Z.of_nat (length buf) then mret (true, 0, nRecvd + n)
          else
            readable ← TestSocketStatus s FD_READ;
            if readable <? 0 then mret (false, 0, nRecvd + n)
            else if readable =? 0 then mret (true, 0, nRecvd + n)
            else receive_loop s fuel (nRecvd + n)
    end.

(** Each turn but the last reads a byte or more below [MAX_EVENT_READ_BYTES]. *)
Definition receive_fuel : nat := Z.to_nat (MAX_EVENT_READ_BYTES + 1).

Definition tcp_OnReceive (s : side) (nErrorCode : Z) : RM unit :=
  if negb (nErrorCode =? 0) then mret tt
  else
    on s (set_m_SocketStatus TM_RECV);;
    UpdateMonitor s TM_RECV;;
    buffered ← of_peer s (fun p => negb (bool_decide (m_recvbuf p = [])));
    if (buffered : bool) then mret tt
    else
      r ← receive_loop s receive_fuel 0;
      let '(bOK, nErrorCode, nRecvd) := (r : bool * Z * Z) in
      if negb bOK then
        tcp_ClearBuffer s;;
        TriggerEvent s FD_CLOSE nErrorCode
      else
        closed ← of_peer s m_bReadClosed;
        (if negb closed && (MAX_EVENT_READ_BYTES <=? nRecvd) then
           readable ← TestSocketStatus s FD_READ;
           when (0 <? readable) (TriggerEvent s FD_READ 0)
         else mret tt);;
        PropagateHalfClose s;;
        TryFinishConnection s.

Definition tcp_OnSend (s : side) (nErrorCode : Z) : RM unit :=
  if negb (nErrorCode =? 0) then mret tt
  else
    on s (set_m_SocketStatus TM_SEND);;
    UpdateMonitor s TM_SEND;;
    validlen ← GetValidDataLen (partner s);
    gone ← (if 0 <? validlen then
       n ← TransferSend (partner s);
       if n <? 0 then
         tcp_ClearBuffer s;; tcp_ClearBuffer (partner s);;
         TriggerEvent s FD_CLOSE 0;; mret true
       else if n <? validlen then mret false
       else
         readable ← TestSocketStatus (partner s) FD_READ;
         if readable <? 0 then
           tcp_ClearBuffer s;; tcp_ClearBuffer (partner s);;
           TriggerEvent s FD_CLOSE 0;; mret false
         else
           more ← of_peer (partner s) (fun q => m_pSecureLayer q && HasPendingRead (p_socket q));
           when ((0 <? readable) || more) (TriggerEvent (partner s) FD_READ 0);;
           mret false
     else mret false);
    if (gone : bool) then mret tt
    else PropagateHalfClose (partner s);; TryFinishConnection (partner s).

Definition tcp_OnClose (s : side) (nErrorCode : Z) : RM unit :=
  on s (set_m_bConnShutted true);;
  if nErrorCode =? 0 then
    n ← GetValidDataLen s;
    if 0 <? n then mret tt
    else
      closed ← of_peer s m_bReadClosed;
      if (closed : bool) then PropagateHalfClose s;; TryFinishConnection s
      else AsyncSelect s (FD_READ + FD_WRITE + FD_CLOSE);; TriggerEvent s FD_READ 0
  else
    layers ← of_peer s m_pProxyLayer;
    tap ← gets m_pProtocol;
    when tap (remit (RTapClosed layers nErrorCode));;
    remit (RObserved FD_CLOSE layers nErrorCode);;
    on s (set_m_SocketStatus TM_CLOSE);;
    AsyncSelect s 0;;
    CloseSocket s;;
    on s (set_m_dwLastError nErrorCode);;
    open ← of_peer (partner s) p_handle;
    when open (AsyncSelect (partner s) 0;; CloseSocket (partner s));;
    tcp_OnPeerClosed s.

Definition tcp_OnConnect (s : side) (nErrorCode : Z) : RM unit :=
  tap ← gets m_pProtocol;
  when tap (remit (RTapConnected nErrorCode));;
  remit (RObserved FD_CONNECT true nErrorCode);;
  if negb (nErrorCode =? 0) then tcp_OnClose s nErrorCode
  else
    on s (set_m_bForwardingReady true);;
    AsyncSelect (partner s) (FD_READ + FD_WRITE + FD_CLOSE);;
    n ← GetValidDataLen (partner s);
    when (0 <? n) (TriggerEvent s FD_WRITE 0);;
    writable ← TestSocketStatus (partner s) FD_WRITE;
    when (0 <? writable) (TriggerEvent (partner s) FD_WRITE 0);;
    readable ← TestSocketStatus (partner s) FD_READ;
    when (0 <? readable) (TriggerEvent (partner s) FD_READ 0);;
    change_monitor (partner s) TM_SEND Enable;; UpdateMonitor (partner s) TM_SEND;;
    change_monitor (partner s) TM_RECV Enable;; UpdateMonitor (partner s) TM_RECV;;
    PropagateHalfClose (partner s).

Definition IsTimedOut (s : side) (t : em_TMTimeOut) : RM bool :=
  now ← gets r_tick;
  of_peer s (fun p => match m_TimeoutMonitor p !! tm_index t with
                      | Some m => IsTimeout now m
                      | None => false
                      end).

Definition tcp_OnTimer (s : side) : RM unit :=
  st ← of_peer s m_SocketStatus;
  match st with
  | TM_CONN =>
      late ← IsTimedOut s TM_CONN;
      when late (remit (RProxyFailure WSAETIMEDOUT);; tcp_ClearBuffer s;;
                 TriggerEvent s FD_CLOSE WSAETIMEDOUT)
  | TM_SHUT =>
      late ← IsTimedOut s TM_SHUT;
      when late (tcp_ClearBuffer s;; TriggerEvent s FD_CLOSE WSAETIMEDOUT)
  | _ => mret tt
  end.

(** ** The task (TcpProxyTask.cpp) *)

Definition new_tcp_peer (now : Z) (k : S) : CPRCTcpPeer :=
  mkTcpPeer k false 0 false false false false false false false TM_0
    (alter (SetTimeoutVal (30 * 1000)) (tm_index TM_RECV)
      (alter (SetTimeoutVal (30 * 1000)) (tm_index TM_SEND)
        (alter (SetTimeoutVal (15 * 1000)) (tm_index TM_CONN)
          (replicate TM_COUNT (new_monitor now)))))
    [] 0 0 0 0.

(** EndTask of a task whose peers are still there. *)
Definition tcp_EndTask : RM unit :=
  tap ← gets m_pProtocol;
  when tap (remit RTapReleased);;
  modify (set_m_pProtocol false);;
  CloseSocket Client;; CloseSocket Server.
End Relay.

Arguments relay S : clear implicits.
Arguments CPRCTcpPeer S : clear implicits.
