(* ===== verification/TcpRelayInv.v ===== *)
(** * What a TCP relay promises, and the invariant that keeps it

    The abstract pipe each direction of the relay refines, and the laws the
    sockets have to satisfy. *)

From S2P Require Import Prelude Winsock TcpRelay.

(** ** The pipe: what is still to come, what is held, what was delivered, and
    whether the end was announced. *)
Record pipe := mkPipe {
  pin : bytes;
  pbuf : bytes;
  pout : bytes;
  pshut : bool
}.

Inductive pipe_step : pipe -> pipe -> Prop :=
  | pipe_take got i b o s :
      pipe_step (mkPipe (got ++ i) b o s) (mkPipe i (b ++ got) o s)
  | pipe_put sent i b o s :
      pipe_step (mkPipe i (sent ++ b) o s) (mkPipe i b (o ++ sent) s)
  | pipe_end o :
      pipe_step (mkPipe [] [] o false) (mkPipe [] [] o true).

Definition pipe_steps : pipe -> pipe -> Prop := rtc pipe_step.

(** All bytes of a pipe, in order. *)
Definition pipe_bytes (p : pipe) : bytes := pout p ++ pbuf p ++ pin p.

Lemma pipe_steps_bytes p q : pipe_steps p q -> pipe_bytes q = pipe_bytes p.
Proof.
  induction 1 as [|p q r H _ IH]; [done|]. rewrite IH. destruct H; unfold pipe_bytes; cbn; try done;
    by rewrite <- ?app_assoc.
Qed.

(** Once the end is announced nothing more moves. *)
Lemma pipe_steps_done p q :
  pipe_steps p q -> pin p = [] -> pbuf p = [] -> pin q = [] /\ pbuf q = [] /\ pout q = pout p.
Proof.
  induction 1 as [|p q r H _ IH]; [done|]. intros Hi Hb.
  assert (E : pin q = [] /\ pbuf q = [] /\ pout q = pout p).
  { destruct H as [got i b o s|sent i b o s|o]; cbn in *.
    - apply app_eq_nil in Hi as [-> ->]. by rewrite Hb.
    - apply app_eq_nil in Hb as [-> ->]. by rewrite app_nil_r.
    - done. }
  destruct E as (E1 & E2 & <-). by apply IH.
Qed.

Lemma pipe_steps_shut p q :
  pipe_steps p q -> pshut p = false -> pshut q = true -> pin q = [] /\ pbuf q = [].
Proof.
  induction 1 as [|p q r H Hqr IH]; [congruence|]. intros Hp Hr.
  destruct (pshut q) eqn:Eq; [|by apply IH].
  destruct H as [got i b o s|sent i b o s|o]; cbn in *; try congruence.
  destruct (pipe_steps_done _ _ Hqr) as (? & ? & _); done.
Qed.

(** ** The laws of a stream socket

    [sane] is the socket's invariant.  [steady] sockets never refuse a send
    for another reason than being full.  [incoming] is what receiving will
    return, in order; [outgoing] what was taken for sending. *)
Class StreamLaws (S : Type) `{StreamSocket S} := {
  sane : S -> Prop;
  steady : S -> Prop;
  incoming : S -> bytes;
  outgoing : S -> bytes;
  receive_law : forall n k, 0 < n -> sane k ->
    let '((c, got), k') := sock_receive n k in
    sane k' /\ (steady k -> steady k') /\ outgoing k' = outgoing k /\
    incoming k = got ++ incoming k' /\
    (c = SOCKET_ERROR /\ got = [] \/
     c = 0 /\ got = [] /\ incoming k = [] \/
     0 < c <= n /\ c = Z.of_nat (length got));
  send_law : forall data k, data <> [] -> sane k ->
    let '(c, k') := sock_send data k in
    sane k' /\ (steady k -> steady k') /\ incoming k' = incoming k /\
    (c = SOCKET_ERROR /\ outgoing k' = outgoing k /\ (steady k -> sock_error k' = WSAEWOULDBLOCK) \/
     0 < c <= Z.of_nat (length data) /\ outgoing k' = outgoing k ++ take (Z.to_nat c) data)
}.

From S2P Require Import SockAddr Effects UdpPolicy.

(** * The TCP relay keeps its invariant

    [rinv] through every operation of TcpRelay.v.  With [st] the sockets are
    steady, and each direction has made steps of the pipe of TcpRelayInv.v. *)

Create HintDb relay.

Lemma receive_fuel_S : exists fuel, receive_fuel = Datatypes.S fuel.
Proof.
  exists (Z.to_nat MAX_EVENT_READ_BYTES). unfold receive_fuel. generalize MAX_EVENT_READ_BYTES (eq_refl : (0 <=? MAX_EVENT_READ_BYTES) = true).
  intros n Hn%Z.leb_le. lia.
Qed.

Lemma both_sides (s : side) (Q : side -> Prop) : Q s -> Q (partner s) -> forall s', Q s'.
Proof. by destruct s; intros ?? []. Qed.

(** A fact about both sides, from the two. *)
Ltac sides s := refine (both_sides s _ _ _).

Section Inv.
Context {S : Type} {socket : StreamSocket S} {laws : StreamLaws S}.

Abbreviation RM := (M (relay S)).

Lemma partner_partner s : partner (partner s) = s.
Proof. by destruct s. Qed.

Lemma peer_set_same s p (w : relay S) : peer_of s (set_peer s p w) = p.
Proof. by destruct s. Qed.
Lemma peer_set_partner s p (w : relay S) : peer_of (partner s) (set_peer s p w) = peer_of (partner s) w.
Proof. by destruct s. Qed.
Lemma peer_set_other s p (w : relay S) : peer_of s (set_peer (partner s) p w) = peer_of s w.
Proof. by destruct s. Qed.

(** ** The invariant *)

(** How much of the invariant holds inside a handler: while the sockets are
    being closed, while they are open and one direction may just have ended,
    and between handlers. *)
Inductive mode := Closing | Running | Settled.

Record peer_ok (p : CPRCTcpPeer S) : Prop := {
  po_sane : sane (p_socket p);
  po_sent : 0 <= m_sentpos p;
  po_valid : m_recvbuf p = [] /\ m_sentpos p = 0 \/ m_sentpos p < Z.of_nat (length (m_recvbuf p));
  po_size : Z.of_nat (length (m_recvbuf p)) <= MAXTCPBUFSIZE;
  po_eof : m_bReadClosed p = true -> incoming (p_socket p) = [];
  po_conn : m_SocketStatus p = TM_CONN -> m_recvbuf p = [];
  po_shut : m_SocketStatus p <> TM_SHUT
}.

Definition held (p : CPRCTcpPeer S) : bytes := drop (Z.to_nat (m_sentpos p)) (m_recvbuf p).

Definition pipe_of (s : side) (w : relay S) : pipe :=
  mkPipe (incoming (p_socket (peer_of s w))) (held (peer_of s w))
    (outgoing (p_socket (peer_of (partner s) w))) (m_bWriteShutdown (peer_of (partner s) w)).

(** Both directions ended and empty: then both sockets are closed, and the
    task is to be deleted. *)
Definition finished (w : relay S) : Prop :=
  (forall s, m_bReadClosed (peer_of s w) = true /\ valid (peer_of s w) = 0) ->
  (forall s, p_handle (peer_of s w) = false) /\ m_bDeletePending w = true.

Record rinv (st : bool) (m : mode) (P : side -> pipe) (w : relay S) : Prop := {
  ri_peer : forall s, peer_ok (peer_of s w);
  ri_open : m <> Closing -> forall s, p_handle (peer_of s w) = p_handle (peer_of (partner s) w);
  ri_fully : m <> Closing -> forall s, m_bFullyClosing (peer_of s w) = true -> p_handle (peer_of s w) = false;
  ri_out : RFault ∉ r_out w;
  ri_steady : st = true -> forall s, steady (p_socket (peer_of s w));
  ri_select : st = true -> Forall (fun r => 0 <= r) (r_selects w);
  ri_pipe : st = true -> forall s, pipe_steps (P s) (pipe_of s w);
  ri_live : st = true -> m = Running -> forall s, p_handle (peer_of s w) = true;
  ri_fin : st = true -> m = Settled -> finished w
}.

Lemma valid_held p : peer_ok p -> valid p = Z.of_nat (length (held p)).
Proof. intros []. unfold valid, held. rewrite length_drop. lia. Qed.

Lemma valid_empty p : peer_ok p -> valid p = 0 -> m_recvbuf p = [] /\ m_sentpos p = 0 /\ held p = [].
Proof.
  intros [] H. unfold valid in H. destruct po_valid0 as [[E1 E2]|?]; [|lia].
  unfold held. by rewrite E1, E2.
Qed.

(** ** Between the modes *)

Lemma rinv_run st P s w :
  rinv st Settled P w -> (st = true -> p_handle (peer_of s w) = true) -> rinv st Running P w.
Proof.
  intros [] H. constructor; try done; try (by intros; apply ri_open0); try (by intros; apply ri_fully0).
  intros Hst _. sides s; [|rewrite <- ri_open0 by done]; by apply H.
Qed.

Lemma rinv_closing st m P w : rinv st m P w -> rinv st Closing P w.
Proof. intros []. by constructor. Qed.

Lemma rinv_closed st P w :
  rinv st Closing P w -> (forall s, p_handle (peer_of s w) = false) -> m_bDeletePending w = true ->
  rinv st Settled P w.
Proof.
  intros [] H Hd. constructor; try done.
  - intros _ s. by rewrite !H.
Qed.

Lemma rinv_quiet st P w :
  rinv st Running P w -> (st = true -> finished w) -> rinv st Settled P w.
Proof.
  intros [] H. constructor; try done; try (by intros; apply ri_open0); try (by intros; apply ri_fully0).
  intros Hst _. by apply H.
Qed.

Lemma no_fault_snoc o l : RFault ∉ l -> o <> RFault -> RFault ∉ l ++ [o].
Proof. intros H1 H2. apply not_elem_of_app. split; [done|]. by rewrite list_elem_of_singleton. Qed.

Lemma set_peer_out s p (w : relay S) : r_out (set_peer s p w) = r_out w.
Proof. by destruct s. Qed.

(** ** Updates that do not matter *)

(** A peer's update outside the buffer, the socket and the handle. *)
Definition inert (f : CPRCTcpPeer S -> CPRCTcpPeer S) : Prop := forall p,
  p_socket (f p) = p_socket p /\ p_handle (f p) = p_handle p /\ m_recvbuf (f p) = m_recvbuf p /\
  m_sentpos (f p) = m_sentpos p /\ m_bReadClosed (f p) = m_bReadClosed p /\
  m_bWriteShutdown (f p) = m_bWriteShutdown p /\
  (m_bFullyClosing (f p) = true -> m_bFullyClosing p = true) /\
  (m_SocketStatus (f p) = m_SocketStatus p \/
   m_SocketStatus (f p) <> TM_CONN /\ m_SocketStatus (f p) <> TM_SHUT).

Lemma inert_ok f p : inert f -> peer_ok p -> peer_ok (f p).
Proof.
  intros Hf []. destruct (Hf p) as (E1 & E2 & E3 & E4 & E5 & E6 & E7 & E8).
  constructor; rewrite ?E1, ?E3, ?E4, ?E5; auto.
  - destruct E8 as [->|[? ?]]; [done|congruence].
  - destruct E8 as [->|[? ?]]; done.
Qed.

Lemma inert_peer f s s' (w : relay S) : inert f ->
  let w' := set_peer s (f (peer_of s w)) w in
  p_socket (peer_of s' w') = p_socket (peer_of s' w) /\
  p_handle (peer_of s' w') = p_handle (peer_of s' w) /\
  m_recvbuf (peer_of s' w') = m_recvbuf (peer_of s' w) /\
  m_sentpos (peer_of s' w') = m_sentpos (peer_of s' w) /\
  m_bReadClosed (peer_of s' w') = m_bReadClosed (peer_of s' w) /\
  m_bWriteShutdown (peer_of s' w') = m_bWriteShutdown (peer_of s' w).
Proof.
  intros Hf w'. destruct (decide (s = s')) as [<-|Hn].
  - subst w'. rewrite peer_set_same. destruct (Hf (peer_of s w)) as (? & ? & ? & ? & ? & ? & _). done.
  - destruct s, s'; done.
Qed.

Section Fixed.
Variables (st : bool) (m : mode) (P : side -> pipe).
#[local] Abbreviation I := (rinv st m P).

Lemma keeps_on s f : inert f -> keeps I (on s f).
Proof.
  intros Hf. apply keeps_modify. intros w []. set (w' := set_peer s (f (peer_of s w)) w).
  pose proof (fun s' => inert_peer f s s' w Hf) as E. cbn zeta in E. fold w' in E.
  assert (Ev : forall s', valid (peer_of s' w') = valid (peer_of s' w)).
  { intros s'. destruct (E s') as (_ & _ & E3 & E4 & _). unfold valid. by rewrite E3, E4. }
  assert (Ep : forall s', pipe_of s' w' = pipe_of s' w).
  { intros s'. unfold pipe_of, held. destruct (E s') as (E1 & _ & E3 & E4 & _).
    destruct (E (partner s')) as (F1 & _ & _ & _ & _ & F6). by rewrite E1, E3, E4, F1, F6. }
  constructor.
  - intros s'. destruct (decide (s = s')) as [<-|Hn].
    + unfold w'. rewrite peer_set_same. by apply inert_ok.
    + replace (peer_of s' w') with (peer_of s' w) by (by destruct s, s'). apply ri_peer0.
  - intros Hm s'. destruct (E s') as (_ & -> & _), (E (partner s')) as (_ & -> & _). by apply ri_open0.
  - intros Hm s'. destruct (E s') as (_ & -> & _). intros Hc. apply ri_fully0; [done|].
    destruct (decide (s = s')) as [<-|Hn].
    + unfold w' in Hc. rewrite peer_set_same in Hc. by apply (Hf (peer_of s w)).
    + by replace (peer_of s' w') with (peer_of s' w) in Hc by (by destruct s, s').
  - by destruct s.
  - intros Hst s'. destruct (E s') as (-> & _). by apply ri_steady0.
  - by destruct s.
  - intros Hst s'. rewrite Ep. by apply ri_pipe0.
  - intros Hst Hm s'. destruct (E s') as (_ & -> & _). by apply ri_live0.
  - intros Hst Hfin Hd. destruct (ri_fin0 Hst Hfin) as [H1 H2].
    2: { split; [|by destruct s]. intros s'. destruct (E s') as (_ & -> & _). apply H1. }
    intros s2. rewrite <- Ev. destruct (E s2) as (_ & _ & _ & _ & <- & _). done.
Qed.

(** Everything but the peers and the selects. *)
Definition aside (f : relay S -> relay S) : Prop := forall w,
  m_pClient (f w) = m_pClient w /\ m_pServer (f w) = m_pServer w /\ r_selects (f w) = r_selects w /\
  (m_bDeletePending w = true -> m_bDeletePending (f w) = true) /\ (RFault ∉ r_out w -> RFault ∉ r_out (f w)).

Lemma rinv_aside f w : aside f -> I w -> I (f w).
Proof.
  intros Hf []. destruct (Hf w) as (E1 & E2 & E3 & Ed & E4).
  assert (E : forall s, peer_of s (f w) = peer_of s w) by (by intros []).
  assert (Ep : forall s, pipe_of s (f w) = pipe_of s w) by (intros s; unfold pipe_of; by rewrite !E).
  constructor.
  - intros s. rewrite E. apply ri_peer0.
  - intros Hm s. rewrite !E. by apply ri_open0.
  - intros Hm s. rewrite E. by apply ri_fully0.
  - by apply E4.
  - intros Hst s. rewrite E. by apply ri_steady0.
  - by rewrite E3.
  - intros Hst s. rewrite Ep. by apply ri_pipe0.
  - intros Hst Hm s. rewrite E. by apply ri_live0.
  - intros Hst Hfin Hd. destruct (ri_fin0 Hst Hfin) as [H1 H2]; [intros s; rewrite <- E; apply Hd|].
    split; [intros s; rewrite E; apply H1|auto].
Qed.

Lemma keeps_aside f : aside f -> keeps I (modify f).
Proof. intros Hf. apply keeps_modify. intros w. by apply rinv_aside. Qed.

Lemma keeps_remit o : o <> RFault -> keeps I (remit o).
Proof.
  intros Ho. apply keeps_aside. intros w. split_and!; try done. intros H. cbn.
  by apply no_fault_snoc.
Qed.

Lemma keeps_of_peer {A} s (f : CPRCTcpPeer S -> A) : keeps I (of_peer s f).
Proof. apply keeps_gets. Qed.

Lemma keeps_AsyncSelect s e : keeps I (AsyncSelect s e).
Proof.
  unfold AsyncSelect. apply keeps_bind; [apply keeps_on; intros p; cbn; tauto|intros _].
  do 2 (apply keeps_bind; [apply keeps_of_peer|intros ?]). apply keeps_when. by apply keeps_remit.
Qed.

Lemma keeps_TriggerEvent s e c : keeps I (TriggerEvent s e c).
Proof.
  unfold TriggerEvent. apply keeps_bind; [apply keeps_of_peer|intros b].
  apply keeps_bind; [apply keeps_of_peer|intros l]. apply keeps_when. by apply keeps_remit.
Qed.

Lemma keeps_UpdateMonitor s t : keeps I (UpdateMonitor s t).
Proof.
  unfold UpdateMonitor. apply keeps_bind; [apply keeps_gets|intros now]. apply keeps_on. intros p. cbn. tauto.
Qed.
Lemma keeps_change_monitor s t f : keeps I (change_monitor s t f).
Proof. apply keeps_on. intros p. cbn. tauto. Qed.

(** The status of a peer, not one the timers look at. *)
Lemma keeps_status s t : t <> TM_CONN -> t <> TM_SHUT -> keeps I (on s (set_m_SocketStatus t)).
Proof. intros H1 H2. apply keeps_on. intros p. cbn. tauto. Qed.

(** select: an answer that is not an error, if it never fails. *)
Lemma wp_TestSocketStatus s e Q w :
  I w -> (forall r w', I w' -> (st = true -> 0 <= r) -> (forall s', peer_of s' w' = peer_of s' w) -> Q r w') ->
  wp (TestSocketStatus s e) Q w.
Proof.
  intros Hw HQ. unfold wp, TestSocketStatus. pose proof Hw as [].
  destruct (r_selects w) as [|r l] eqn:E; [apply HQ; [done|lia|done]|].
  apply HQ.
  - constructor; auto. cbn. intros Hst. specialize (ri_select0 Hst).
    by apply Forall_cons in ri_select0 as [_ ?].
  - intros Hst. specialize (ri_select0 Hst).
    by apply Forall_cons in ri_select0 as [? _].
  - by intros [].
Qed.

Lemma wp_PendingBytes s (Q : option Z -> relay S -> Prop) w : (forall o l, Q o (set_r_ioctls l w)) -> wp (PendingBytes s) Q w.
Proof.
  intros HQ. unfold wp, PendingBytes. destruct (r_ioctls w) eqn:E; [|apply HQ].
  specialize (HQ (Some 0) (r_ioctls w)). by destruct w; cbn in *.
Qed.
End Fixed.

(** ** Steps that leave the buffers, the ends of stream and the handles alone *)
Definition framed (w w' : relay S) : Prop := forall s,
  m_recvbuf (peer_of s w') = m_recvbuf (peer_of s w) /\
  m_sentpos (peer_of s w') = m_sentpos (peer_of s w) /\
  m_bReadClosed (peer_of s w') = m_bReadClosed (peer_of s w) /\
  p_handle (peer_of s w') = p_handle (peer_of s w) /\
  (m_SocketStatus (peer_of s w') = TM_CONN -> m_SocketStatus (peer_of s w) = TM_CONN).

Lemma framed_refl w : framed w w.
Proof. by intros s. Qed.
Lemma framed_trans w1 w2 w3 : framed w1 w2 -> framed w2 w3 -> framed w1 w3.
Proof.
  intros H1 H2 s. destruct (H1 s) as (? & ? & ? & ? & ?), (H2 s) as (? & ? & ? & ? & ?).
  split_and!; (congruence || auto).
Qed.

(** Not even the sockets moved. *)
Definition still (w w' : relay S) : Prop :=
  framed w w' /\ forall s, p_socket (peer_of s w') = p_socket (peer_of s w).

Lemma still_refl w : still w w.
Proof. split; [apply framed_refl|done]. Qed.
Lemma still_trans w1 w2 w3 : still w1 w2 -> still w2 w3 -> still w1 w3.
Proof. intros [H1 E1] [H2 E2]. split; [by eapply framed_trans|]. intros s. by rewrite E2. Qed.

Definition frames {A} (m : RM A) : Prop := forall w, still w (exec m w).

Lemma frames_ret {A} (a : A) : frames (mret a).
Proof. intros w. apply still_refl. Qed.
Lemma frames_gets {A} (f : relay S -> A) : frames (gets f).
Proof. intros w. apply still_refl. Qed.
Lemma frames_bind {A B} (m : RM A) (k : A -> RM B) : frames m -> (forall a, frames (k a)) -> frames (m ≫= k).
Proof. intros Hm Hk w. rewrite exec_bind. eapply still_trans; [apply Hm|apply Hk]. Qed.
Lemma frames_when b (m : RM unit) : frames m -> frames (when b m).
Proof. intros. by destruct b; [|apply frames_ret]. Qed.
Lemma frames_aside f : aside f -> frames (modify f).
Proof.
  intros Hf w. destruct (Hf w) as (E1 & E2 & _).
  assert (E : forall s, peer_of s (f w) = peer_of s w) by (by intros []).
  split; intros s; cbn; by rewrite E.
Qed.
Lemma frames_on s f : inert f -> frames (on s f).
Proof.
  intros Hf w. change (exec (on s f) w) with (set_peer s (f (peer_of s w)) w).
  split; intros s'; destruct (inert_peer f s s' w Hf) as (E1 & E2 & E3 & E4 & E5 & _); [|done].
  split_and!; try done. destruct (decide (s = s')) as [<-|].
  - rewrite peer_set_same. destruct (Hf (peer_of s w)) as (_ & _ & _ & _ & _ & _ & _ & [->|[? _]]); done.
  - by destruct s, s'.
Qed.
Lemma frames_remit o : frames (remit o).
Proof. intros w. by split; intros []. Qed.
Lemma frames_AsyncSelect s e : frames (AsyncSelect s e).
Proof.
  apply frames_bind; [apply frames_on; intros p; cbn; tauto|intros _].
  do 2 (apply frames_bind; [apply frames_gets|intros ?]). apply frames_when, frames_remit.
Qed.
Lemma frames_TriggerEvent s e c : frames (TriggerEvent s e c).
Proof. do 2 (apply frames_bind; [apply frames_gets|intros ?]). apply frames_when, frames_remit. Qed.
Lemma frames_UpdateMonitor s t : frames (UpdateMonitor s t).
Proof. apply frames_bind; [apply frames_gets|intros ?]. apply frames_on. intros p. cbn. tauto. Qed.
Lemma frames_change_monitor s t f : frames (change_monitor s t f).
Proof. apply frames_on. intros p. cbn. tauto. Qed.
Lemma frames_status s t : t <> TM_CONN -> t <> TM_SHUT -> frames (on s (set_m_SocketStatus t)).
Proof. intros. apply frames_on. intros p. cbn. tauto. Qed.

(** A step that keeps the invariant and the frame. *)
Lemma wp_calm {A} (I : relay S -> Prop) (m : RM A) (Q : A -> relay S -> Prop) w :
  keeps I m -> frames m -> I w -> (forall a w', I w' -> still w w' -> Q a w') -> wp m Q w.
Proof.
  intros H1 H2 Hw HQ. specialize (H1 w Hw). specialize (H2 w). unfold wp, exec in *.
  destruct (m w). by apply HQ.
Qed.

(** ** Sending

    While the sends go on, the bytes gone are still in the buffer: [settled n]
    is the relay once [n] of them are taken off. *)

Definition advance (n : Z) (p : CPRCTcpPeer S) : CPRCTcpPeer S :=
  if m_sentpos p + n =? Z.of_nat (length (m_recvbuf p))
  then set_m_sentpos 0 (set_m_recvbuf [] p) else set_m_sentpos (m_sentpos p + n) p.

Definition settled (s : side) (n : Z) (w : relay S) : relay S :=
  set_peer s (advance n (peer_of s w)) w.

Lemma advance_same n p :
  p_socket (advance n p) = p_socket p /\ p_handle (advance n p) = p_handle p /\
  m_bReadClosed (advance n p) = m_bReadClosed p /\ m_bWriteShutdown (advance n p) = m_bWriteShutdown p /\
  m_bFullyClosing (advance n p) = m_bFullyClosing p /\ m_SocketStatus (advance n p) = m_SocketStatus p.
Proof. unfold advance. by destruct (_ =? _). Qed.

Lemma advance_held n p : peer_ok p -> 0 <= n <= valid p -> held (advance n p) = drop (Z.to_nat n) (held p).
Proof.
  intros [] Hn. unfold valid in Hn. unfold advance, held. destruct (_ =? _) eqn:E; bool_hyps; cbn.
  - rewrite drop_drop, (drop_ge (m_recvbuf p)) by lia. done.
  - rewrite drop_drop. f_equal. lia.
Qed.

Lemma advance_valid n p : valid (advance n p) = valid p - n.
Proof. unfold advance, valid. destruct (_ =? _) eqn:E; bool_hyps; cbn; lia. Qed.

Lemma advance_ok n p : peer_ok p -> 0 <= n <= valid p -> peer_ok (advance n p).
Proof.
  intros [] Hn. unfold valid in Hn. unfold advance.
  destruct (_ =? _) eqn:E; bool_hyps; constructor; cbn; auto; unfold MAXTCPBUFSIZE in *; try lia.
Qed.

Lemma advance_0 p : peer_ok p -> advance 0 p = p.
Proof.
  intros []. unfold advance. destruct (_ =? _) eqn:E; bool_hyps.
  - destruct po_valid0 as [[E1 E2]|?]; [|lia]. destruct p; cbn in *. by subst.
  - destruct p; cbn in *. by rewrite Z.add_0_r.
Qed.

Lemma set_peer_id s (w : relay S) : set_peer s (peer_of s w) w = w.
Proof. by destruct s, w. Qed.

Lemma settled_0 s w : peer_ok (peer_of s w) -> settled s 0 w = w.
Proof. intros H. unfold settled. by rewrite advance_0, set_peer_id. Qed.

(** One send of [sent], the next bytes: nothing else that matters changes. *)
Lemma settled_send st m P s n sent rest k d w :
  rinv st m P (settled s n w) -> m <> Settled -> peer_ok (peer_of s w) ->
  0 <= n <= valid (peer_of s w) -> drop (Z.to_nat n) (held (peer_of s w)) = sent ++ rest ->
  sane k -> (steady (p_socket (peer_of (partner s) w)) -> steady k) ->
  incoming k = incoming (p_socket (peer_of (partner s) w)) ->
  outgoing k = outgoing (p_socket (peer_of (partner s) w)) ++ sent ->
  let w' := set_peer s (set_m_DataLenSent d (peer_of s w))
              (set_peer (partner s) (set_p_socket k (peer_of (partner s) w)) w) in
  rinv st m P (settled s (n + Z.of_nat (length sent)) w').
Proof.
  intros [] Hm Hs Hn Hd Hk Hsk Hik Hok w'. unfold settled in *.
  set (p := peer_of s w) in *. set (q := peer_of (partner s) w) in *.
  set (n' := n + Z.of_nat (length sent)) in *.
  assert (Hn' : 0 <= n' <= valid p).
  { apply (f_equal length) in Hd. rewrite length_drop, length_app in Hd. rewrite valid_held in * by done. lia. }
  set (p' := set_m_DataLenSent d p). assert (Hp' : peer_ok p') by (destruct Hs; by constructor).
  assert (Ep : peer_of s w' = p') by (subst w'; by rewrite peer_set_same).
  rewrite Ep.
  assert (E1 : forall a, peer_of (partner s) (set_peer s a w') = set_p_socket k q).
  { intros a. subst w'. rewrite peer_set_partner. by destruct s. }
  assert (E2 : forall a, peer_of (partner s) (set_peer s a w) = q) by (intros; by rewrite peer_set_partner).
  pose proof (advance_same n p) as (A1 & A2 & A3 & A4 & A5 & A6).
  pose proof (advance_same n' p') as (B1 & B2 & B3 & B4 & B5 & B6).
  constructor.
  - sides s; rewrite ?peer_set_same, ?E1; [by apply advance_ok|].
    specialize (ri_peer0 (partner s)). rewrite E2 in ri_peer0. destruct ri_peer0. constructor; cbn; auto.
    rewrite Hik. auto.
  - intros Hc s'. specialize (ri_open0 Hc s).
    assert (Eo : p_handle p = p_handle q) by (rewrite peer_set_same, E2, A2 in ri_open0; done).
    revert s'. sides s; rewrite ?partner_partner, ?peer_set_same, ?E1, ?B2; cbn; congruence.
  - intros Hc s'. pose proof (ri_fully0 Hc s) as F1. pose proof (ri_fully0 Hc (partner s)) as F2.
    rewrite peer_set_same, A2, A5 in F1. rewrite E2 in F2. revert s'.
    sides s; rewrite ?peer_set_same, ?E1, ?B2, ?B5; [exact F1|exact F2].
  - by destruct s.
  - intros Hst s'. pose proof (ri_steady0 Hst s) as F1. pose proof (ri_steady0 Hst (partner s)) as F2.
    rewrite peer_set_same, A1 in F1. rewrite E2 in F2. revert s'.
    sides s; rewrite ?peer_set_same, ?E1, ?B1; cbn; auto.
  - by destruct s.
  - intros Hst s'. pose proof (ri_pipe0 Hst s) as F1. pose proof (ri_pipe0 Hst (partner s)) as F2.
    unfold pipe_of in *. rewrite ?partner_partner, ?peer_set_same, ?E2, ?A1, ?A4 in *.
    rewrite advance_held in F1 by done.
    revert s'. sides s; rewrite ?partner_partner, ?peer_set_same, ?E1, ?B1, ?B4; cbn.
    + eapply rtc_r; [exact F1|]. rewrite advance_held by done. rewrite Hd, Hok.
      replace (drop (Z.to_nat n') (held p')) with rest; [by constructor|].
      change (held p') with (held p). subst n'. rewrite Z2Nat.inj_add, <- drop_drop by lia.
      by rewrite Hd, Nat2Z.id, drop_app_length.
    + by rewrite Hik.
  - intros Hst Hc s'. pose proof (ri_live0 Hst Hc s) as F1. pose proof (ri_live0 Hst Hc (partner s)) as F2.
    rewrite peer_set_same, A2 in F1. rewrite E2 in F2. revert s'.
    sides s; rewrite ?peer_set_same, ?E1, ?B2; done.
  - done.
Qed.

(** The relay [w] in the middle of the sends of [s]: [n] bytes are gone. *)
Record sending (st : bool) (P : side -> pipe) (s : side) (n : Z) (w : relay S) : Prop := {
  sd_inv : rinv st Running P (settled s n w);
  sd_peer : peer_ok (peer_of s w);
  sd_range : 0 <= n <= valid (peer_of s w)
}.

Lemma sending_out st P s n w : sending st P s n w -> RFault ∉ r_out w.
Proof. intros [H _ _]. apply ri_out in H. unfold settled in H. by rewrite set_peer_out in H. Qed.

Lemma sending_aside st P s n f w :
  aside f -> (forall w, settled s n (f w) = f (settled s n w)) -> sending st P s n w -> sending st P s n (f w).
Proof.
  intros Hf Hc [H1 H2 H3]. destruct (Hf w) as (E1 & E2 & _ & _).
  assert (E : peer_of s (f w) = peer_of s w) by (by destruct s).
  constructor; rewrite ?E; [|done|done]. rewrite Hc. by apply rinv_aside.
Qed.

Lemma wp_PeerSend st P s n unsent w (Q : Z -> relay S -> Prop) :
  sending st P s n w -> unsent = drop (Z.to_nat n) (held (peer_of s w)) -> unsent <> [] ->
  (forall w', sending st P s n w' -> framed w w' -> (st = true -> r_lasterr w' = WSAEWOULDBLOCK) ->
    Q SOCKET_ERROR w') ->
  (forall c w', 0 < c <= Z.of_nat (length unsent) -> framed w w' ->
    (forall d o, RFault ∉ o ->
      sending st P s (n + c) (set_r_out o (set_peer s (set_m_DataLenSent d (peer_of s w')) w'))) ->
    r_out w' = r_out w -> Q c w') ->
  wp (PeerSend (partner s) unsent) Q w.
Proof.
  intros [H1 H2 H3] Hu Hne Hf Hs. unfold wp, PeerSend.
  assert (Hq : forall s', p_handle (peer_of s' (settled s n w)) = p_handle (peer_of s' w)).
  { intros s'. destruct (decide (s' = s)) as [->|]; [|by destruct s, s'].
    unfold settled. rewrite peer_set_same. apply advance_same. }
  destruct (p_handle (peer_of (partner s) w)) eqn:Eh; cbn [negb].
  2: { apply Hf.
    - apply (sending_aside _ _ _ _ (set_r_lasterr WSAENOTSOCK)); [by intros ?|by destruct s|by constructor].
    - by intros [].
    - intros Hst. exfalso. pose proof (ri_live _ _ _ _ H1 Hst eq_refl (partner s)). rewrite Hq in H. congruence. }
  destruct (sock_send unsent (p_socket (peer_of (partner s) w))) as [c k] eqn:Ek.
  assert (Hk : sane (p_socket (peer_of (partner s) w))).
  { pose proof (ri_peer _ _ _ _ H1 (partner s)) as []. unfold settled in *. by rewrite peer_set_partner in *. }
  pose proof (send_law unsent _ Hne Hk) as L. rewrite Ek in L. destruct L as (L1 & L2 & L3 & L4).
  set (w1 := set_peer (partner s) (set_p_socket k (peer_of (partner s) w)) w).
  set (w2 := set_r_lasterr (sock_error k) w1).
  assert (Fw : framed w w2) by (by destruct s; intros []).
  assert (Ew : peer_of s w1 = peer_of s w) by (by destruct s).
  assert (G : forall sent rest d o e, unsent = sent ++ rest ->
    outgoing k = outgoing (p_socket (peer_of (partner s) w)) ++ sent -> RFault ∉ o ->
    sending st P s (n + Z.of_nat (length sent))
      (set_r_lasterr e (set_r_out o (set_peer s (set_m_DataLenSent d (peer_of s w1)) w1)))).
  { intros sent rest d o e E Eo Ho. rewrite Ew.
    apply (sending_aside _ _ _ _ (set_r_lasterr e)); [by intros ?|by destruct s|].
    apply (sending_aside _ _ _ _ (set_r_out o)); [by intros ?|by destruct s|].
    constructor.
    - eapply settled_send; try done. by rewrite <- Hu.
    - rewrite peer_set_same. destruct H2. by constructor.
    - rewrite peer_set_same. change (valid _) with (valid (peer_of s w)).
      apply (f_equal length) in E, Hu. rewrite length_drop in Hu. rewrite length_app in E.
      rewrite (valid_held _ H2) in *. lia. }
  destruct L4 as [(-> & Lo & Le)|(Lc & Lo)].
  - apply Hf; [|done|].
    + specialize (G [] unsent (m_DataLenSent (peer_of s w)) (r_out w) (sock_error k) eq_refl).
      rewrite Z.add_0_r, app_nil_r in G.
      replace (set_r_lasterr _ _) with w2 in G; [|by destruct s, w as [[][]]].
      apply G; [done|]. pose proof (ri_out _ _ _ _ H1) as F. by destruct s.
    + intros Hst. apply Le. pose proof (ri_steady _ _ _ _ H1 Hst (partner s)) as F. unfold settled in F.
      by rewrite peer_set_partner in F.
  - apply Hs; [done|done| |by destruct s]. intros d o Ho.
    specialize (G (take (Z.to_nat c) unsent) (drop (Z.to_nat c) unsent) d o (sock_error k)).
    rewrite length_take, Nat.min_l, Z2Nat.id in G by lia.
    specialize (G (eq_sym (take_drop _ _)) Lo Ho). by destruct s.
Qed.

Lemma wp_transfer_loop st P s fuel : forall unsent n w (Q : bool * bytes * Z -> relay S -> Prop),
  sending st P s n w -> unsent = drop (Z.to_nat n) (held (peer_of s w)) -> (length unsent <= fuel)%nat ->
  (forall ok n' w', sending st P s n' w' -> framed w w' -> (st = true -> ok = true) ->
    (n' = valid (peer_of s w) -> ok = true) ->
    Q (ok, drop (Z.to_nat n') (held (peer_of s w')), n') w') ->
  wp (transfer_loop s fuel unsent n) Q w.
Proof.
  induction fuel as [|fuel IH]; intros unsent n w Q Hw Hu Hfuel HQ.
  - destruct unsent; [|cbn in Hfuel; lia]. apply wp_ret. rewrite Hu. by apply HQ.
  - destruct unsent as [|b unsent]; [apply wp_ret; rewrite Hu; by apply HQ|].
    cbn [transfer_loop]. set (u := b :: unsent) in *. apply wp_bind.
    eapply wp_PeerSend; [done|done|done|..].
    + intros w' H' Fw He. rewrite Z.eqb_refl. apply wp_bind, wp_gets, wp_ret.
      assert (Hh : held (peer_of s w') = held (peer_of s w)).
      { destruct (Fw s) as (E1 & E2 & _). unfold held. by rewrite E1, E2. }
      rewrite Hu, <- Hh. apply HQ; [done|done| |].
      * intros Hst. by rewrite He.
      * intros ->. exfalso. rewrite (valid_held _ (sd_peer _ _ _ _ _ Hw)) in Hu.
        rewrite drop_ge in Hu by lia. done.
    + intros c w' Hc Fw Hs Ho. unfold SOCKET_ERROR. destruct (c =? -1) eqn:Ec; bool_hyps; [lia|].
      unfold on, of_peer, remit. do 3 (apply wp_bind; first [apply wp_modify|apply wp_gets]).
      set (w2 := set_r_out _ _).
      assert (F2 : framed w w2).
      { eapply framed_trans; [exact Fw|]. intros s'. subst w2. destruct (decide (s' = s)) as [->|].
        - by destruct s.
        - by destruct s, s'. }
      assert (H2 : sending st P s (n + c) w2).
      { subst w2. specialize (Hs (u64 (m_DataLenSent (peer_of s w') + c))).
        match goal with |- sending _ _ _ _ (set_r_out ?o ?w0) =>
          specialize (Hs o); replace w0 with (set_peer s (set_m_DataLenSent
            (u64 (m_DataLenSent (peer_of s w') + c)) (peer_of s w')) w') by done end.
        apply Hs, no_fault_snoc; [|done]. rewrite set_peer_out, Ho. by apply (sending_out _ _ _ _ _ Hw). }
      assert (Hh : held (peer_of s w2) = held (peer_of s w)).
      { destruct (F2 s) as (E1 & E2 & _). unfold held. by rewrite E1, E2. }
      apply IH; [done| | |].
      * rewrite Hh, Hu, drop_drop. f_equal. pose proof (sd_range _ _ _ _ _ Hw). lia.
      * rewrite length_drop. cbn in *. lia.
      * intros ok n' w3 H3 F3 Hok1 Hok2. apply HQ; [done|by eapply framed_trans|done|].
        intros ->. apply Hok2. destruct (F2 s) as (E1 & E2 & _). unfold valid. by rewrite E1, E2.
Qed.

(** What a transfer of [s] leaves alone. *)
Definition forwarded (s : side) (w w' : relay S) : Prop :=
  (forall s', m_bReadClosed (peer_of s' w') = m_bReadClosed (peer_of s' w) /\
              p_handle (peer_of s' w') = p_handle (peer_of s' w) /\
              (m_SocketStatus (peer_of s' w') = TM_CONN -> m_SocketStatus (peer_of s' w) = TM_CONN)) /\
  m_recvbuf (peer_of (partner s) w') = m_recvbuf (peer_of (partner s) w) /\
  m_sentpos (peer_of (partner s) w') = m_sentpos (peer_of (partner s) w).

Lemma framed_forwarded s w w' : framed w w' -> forwarded s w w'.
Proof. intros H. split; [intros s'|]; by destruct (H s') || destruct (H (partner s)); tauto. Qed.

Lemma forwarded_settled s n w w' : forwarded s w w' -> forwarded s w (settled s n w').
Proof.
  intros (H1 & H2 & H3). unfold settled. split; [|by rewrite peer_set_partner].
  sides s; rewrite ?peer_set_same, ?peer_set_partner; [|apply H1].
  destruct (advance_same n (peer_of s w')) as (_ & -> & -> & _ & _ & ->). apply H1.
Qed.

Lemma wp_TransferSend st P s w (Q : Z -> relay S -> Prop) :
  rinv st Running P w ->
  (forall n w', rinv st Running P w' -> forwarded s w w' ->
     (n = -1 /\ st = false \/
      0 <= n <= valid (peer_of s w) /\ valid (peer_of s w') = valid (peer_of s w) - n) -> Q n w') ->
  wp (TransferSend s) Q w.
Proof.
  intros Hw HQ. unfold TransferSend. apply wp_bind.
  eapply wp_calm; [by apply keeps_status|by apply frames_status|exact Hw|]. intros _ w1 H1 [F1 _]. apply wp_bind.
  eapply wp_calm; [apply keeps_UpdateMonitor|apply frames_UpdateMonitor|exact H1|]. intros _ w2 H2 [F2 _].
  apply wp_bind, wp_gets. fold (held (peer_of s w2)). apply wp_bind.
  pose proof (ri_peer _ _ _ _ H2 s) as Hp. pose proof (valid_held _ Hp) as Ev.
  eapply wp_transfer_loop; [|done|done|].
  { constructor; [by rewrite settled_0|done|lia]. }
  intros ok n w3 [H3 Hp3 Hn3] F3 Hst Hfull. apply wp_bind.
  assert (F : framed w w3) by (eapply framed_trans; [|exact F3]; by eapply framed_trans).
  assert (Evw : valid (peer_of s w3) = valid (peer_of s w) /\ valid (peer_of s w3) = valid (peer_of s w2)).
  { unfold valid. destruct (F s) as (-> & -> & _). destruct (F3 s) as (<- & <- & _).
    destruct (F s) as (-> & -> & _). done. }
  apply (wp_mono _ (fun _ w' => w' = settled s n w3)).
  - pose proof (valid_held _ Hp3) as Ev3. unfold valid in Ev3, Hn3.
    unfold settled, advance, wp. case_bool_decide as E.
    + apply (f_equal length) in E. rewrite length_drop in E. cbn in E.
      destruct (_ =? _) eqn:Eq; bool_hyps; [done|lia].
    + destruct (_ =? _) eqn:Eq; bool_hyps; [|done]. exfalso. apply E. apply drop_ge. lia.
  - intros _ w' ->. apply wp_ret, HQ; [done|by apply forwarded_settled, framed_forwarded|].
    destruct ok; [right|left]; [|by destruct st; [specialize (Hst eq_refl)|]].
    split; [lia|]. unfold settled. rewrite peer_set_same, advance_valid. lia.
Qed.
End Inv.

#[export] Hint Resolve keeps_ret keeps_gets keeps_when keeps_AsyncSelect keeps_TriggerEvent
  keeps_UpdateMonitor keeps_change_monitor frames_ret frames_gets frames_when frames_remit
  frames_AsyncSelect frames_TriggerEvent frames_UpdateMonitor frames_change_monitor : relay.
#[export] Hint Extern 1 (keeps _ (remit _)) => apply keeps_remit; discriminate : relay.
#[export] Hint Extern 1 (keeps _ (on _ (set_m_SocketStatus _))) => apply keeps_status; discriminate : relay.
#[export] Hint Extern 1 (frames (on _ (set_m_SocketStatus _))) => apply frames_status; discriminate : relay.
#[export] Hint Extern 2 (keeps _ (on _ _)) => apply keeps_on; intros ?; cbn; tauto : relay.
#[export] Hint Extern 2 (frames (on _ _)) => apply frames_on; intros ?; cbn; tauto : relay.
#[export] Hint Unfold of_peer : relay.

(** Execute a step that matters to nothing but the outputs and the timers. *)
Ltac calm w H F :=
  eapply wp_calm; [solve [eauto with relay]|solve [eauto with relay]|eassumption|intros ? w H F].
