(* ===== verification/TcpRelayRefinement.v ===== *)
(** * The TCP relay refines its pipes: the handlers, then the whole

    [rinv] through the reading loop, the half close and the end of the task. *)

From S2P Require Import Prelude Winsock SockAddr Effects UdpPolicy TcpRelay TcpRelayInv.

Section Steps.
Context {S : Type} {socket : StreamSocket S} {laws : StreamLaws S}.
Variables (st : bool) (P : side -> pipe).

Abbreviation RM := (M (relay S)).

(** ** Reading *)

(** The next bytes of the stream go into the empty buffer. *)
Lemma rinv_take s got k d w :
  rinv st Running P w -> m_recvbuf (peer_of s w) = [] ->
  m_SocketStatus (peer_of s w) <> TM_CONN -> Z.of_nat (length got) <= MAXTCPBUFSIZE ->
  sane k -> (steady (p_socket (peer_of s w)) -> steady k) ->
  outgoing k = outgoing (p_socket (peer_of s w)) -> incoming (p_socket (peer_of s w)) = got ++ incoming k ->
  rinv st Running P (set_peer s (set_m_DataLenRecvd d (set_m_recvbuf got (set_p_socket k (peer_of s w)))) w).
Proof.
  intros [] Hb Hs Hg Hk Hsk Ho Hi. pose proof (ri_peer s) as Hp. set (p := peer_of s w) in *.
  assert (Hpos : m_sentpos p = 0).
  { destruct Hp as [? ? [[? ?]|Hl] _ _ _ _]; [done|]. rewrite Hb in Hl. cbn in Hl. lia. }
  constructor.
  - sides s; rewrite ?peer_set_same, ?peer_set_partner; [|apply ri_peer].
    destruct Hp. constructor; cbn; auto; try done.
    + rewrite Hpos. destruct got; [by left|right; cbn; lia].
    + intros Hc. specialize (po_eof Hc). rewrite Hi in po_eof. by apply app_eq_nil in po_eof as [_ ?].
  - intros _. pose proof (ri_open ltac:(done) s) as E.
    sides s; rewrite ?partner_partner, ?peer_set_same, ?peer_set_partner; done.
  - intros _. sides s; rewrite ?peer_set_same, ?peer_set_partner; by apply ri_fully.
  - by destruct s.
  - intros Hst. sides s; rewrite ?peer_set_same, ?peer_set_partner; [|by apply ri_steady].
    by apply Hsk, ri_steady.
  - by destruct s.
  - intros Hst. pose proof (ri_pipe Hst s) as F1. pose proof (ri_pipe Hst (partner s)) as F2.
    unfold pipe_of in *. rewrite partner_partner in F2. fold p in F1, F2.
    sides s; rewrite ?partner_partner, ?peer_set_same, ?peer_set_partner; cbn.
    + eapply rtc_r; [exact F1|]. unfold held. cbn. rewrite Hb, Hi, Hpos. cbn. rewrite !drop_0.
      apply (pipe_take got _ []).
    + by rewrite Ho.
  - intros Hst _. sides s; rewrite ?peer_set_same, ?peer_set_partner; by apply ri_live.
  - done.
Qed.

Lemma wp_PeerReceive s n w (Q : Z * bytes -> relay S -> Prop) :
  rinv st Running P w -> m_recvbuf (peer_of s w) = [] -> m_SocketStatus (peer_of s w) <> TM_CONN ->
  0 < n <= MAXTCPBUFSIZE ->
  (forall w', rinv st Running P w' -> framed w w' -> Q (SOCKET_ERROR, []) w') ->
  (forall w', rinv st Running P w' -> framed w w' -> incoming (p_socket (peer_of s w')) = [] ->
     Q (0, []) w') ->
  (forall got w', (0 < length got)%nat -> Z.of_nat (length got) <= n -> framed w w' -> r_out w' = r_out w ->
     m_bReadClosed (peer_of s w) = false ->
     (forall d o, RFault ∉ o -> rinv st Running P
        (set_peer s (set_m_DataLenRecvd d (set_m_recvbuf got (peer_of s w'))) (set_r_out o w'))) ->
     Q (Z.of_nat (length got), got) w') ->
  wp (PeerReceive s n) Q w.
Proof.
  intros Hw Hb Hs Hn He Hz Hd. unfold wp, PeerReceive.
  set (p := peer_of s w) in *.
  destruct (p_handle p) eqn:Eh; cbn [negb].
  2: { apply He; [|by intros []]. apply (rinv_aside _ _ _ (set_r_lasterr WSAENOTSOCK)); [by intros ?|done]. }
  destruct (sock_receive n (p_socket p)) as [[c got] k] eqn:Ek.
  pose proof (ri_peer _ _ _ _ Hw s) as Hp. fold p in Hp.
  pose proof (receive_law n _ ltac:(lia) (po_sane _ Hp)) as L. rewrite Ek in L.
  destruct L as (L1 & L2 & L3 & L4 & L5).
  set (w1 := set_peer s (set_p_socket k p) w).
  assert (Fw : framed w (set_r_lasterr (sock_error k) w1)).
  { intros s'. destruct (decide (s' = s)) as [->|]; [by destruct s|by destruct s, s']. }
  assert (Ew : peer_of s w1 = set_p_socket k p) by (subst w1; by rewrite peer_set_same).
  assert (G : forall d o, Z.of_nat (length got) <= n -> RFault ∉ o -> rinv st Running P
    (set_peer s (set_m_DataLenRecvd d (set_m_recvbuf got (peer_of s w1)))
       (set_r_out o (set_r_lasterr (sock_error k) w1)))).
  { intros d o Hlen Ho. rewrite Ew.
    replace (set_peer s _ _) with (set_r_out o (set_peer s (set_m_DataLenRecvd d (set_m_recvbuf got (set_p_socket k p)))
       (set_r_lasterr (sock_error k) w1))) by (by destruct s). apply (rinv_aside _ _ _ (set_r_out o)); [by intros ?|].
    replace (set_peer s _ _) with (set_r_lasterr (sock_error k)
      (set_peer s (set_m_DataLenRecvd d (set_m_recvbuf got (set_p_socket k p))) w)); [|by destruct s].
    apply (rinv_aside _ _ _ (set_r_lasterr (sock_error k))); [by intros ?|].
    apply rinv_take; try done. lia. }
  assert (G0 : got = [] -> rinv st Running P (set_r_lasterr (sock_error k) w1)).
  { intros ->. specialize (G (m_DataLenRecvd p) (r_out w) ltac:(cbn; lia) (ri_out _ _ _ _ Hw)).
    rewrite Ew in G. replace (set_peer _ _ _) with (set_r_lasterr (sock_error k) w1) in G; [done|].
    rewrite <- Hb. subst w1 p. by destruct s, w as [[] []]. }
  destruct L5 as [(-> & ->)|[(-> & -> & L5)|(Hc & ->)]].
  - apply He; [by apply G0|done].
  - apply Hz; [by apply G0|done|]. replace (peer_of s _) with (peer_of s w1) by (by destruct s).
    rewrite Ew. cbn. rewrite L4 in L5. by apply app_eq_nil in L5 as [_ ?].
  - apply Hd; [lia|lia|done|by destruct s| |].
    + fold p. destruct (m_bReadClosed p) eqn:Er; [|done]. rewrite (po_eof _ Hp Er) in L4.
      destruct got; [cbn in Hc; lia|done].
    + intros d o Ho. replace (peer_of s (set_r_lasterr _ _)) with (peer_of s w1) by (by destruct s).
      apply G; [lia|done].
Qed.

Lemma rinv_eof s w :
  rinv st Running P w -> incoming (p_socket (peer_of s w)) = [] ->
  rinv st Running P (set_peer s (set_m_bReadClosed true (peer_of s w)) w).
Proof.
  intros [] Hi. constructor.
  - sides s; rewrite ?peer_set_same, ?peer_set_partner; [|apply ri_peer].
    destruct (ri_peer s). constructor; cbn; auto.
  - intros _. pose proof (ri_open ltac:(done) s) as E.
    sides s; rewrite ?partner_partner, ?peer_set_same, ?peer_set_partner; done.
  - intros _. sides s; rewrite ?peer_set_same, ?peer_set_partner; by apply ri_fully.
  - by rewrite set_peer_out.
  - intros Hst. sides s; rewrite ?peer_set_same, ?peer_set_partner; by apply ri_steady.
  - by destruct s.
  - intros Hst. pose proof (ri_pipe Hst s) as F1. pose proof (ri_pipe Hst (partner s)) as F2.
    unfold pipe_of in *. rewrite partner_partner in F2.
    sides s; by rewrite ?partner_partner, ?peer_set_same, ?peer_set_partner.
  - intros Hst _. sides s; rewrite ?peer_set_same, ?peer_set_partner; by apply ri_live.
  - done.
Qed.

(** Neither direction came to its end. *)
Definition no_ending (s : side) (w w' : relay S) : Prop :=
  m_recvbuf (peer_of s w') = [] /\
  forall s', m_bReadClosed (peer_of s' w') = m_bReadClosed (peer_of s' w) /\
             valid (peer_of s' w') = valid (peer_of s' w).

Definition same_handles (w w' : relay S) : Prop :=
  forall s, p_handle (peer_of s w') = p_handle (peer_of s w).

Lemma empty_sent p : peer_ok (S := S) p -> m_recvbuf p = [] -> m_sentpos p = 0.
Proof. intros [? ? [[? ?]|Hl]] Hb; [done|]. rewrite Hb in Hl. cbn in Hl. lia. Qed.

(** The chunk in the buffer, and the observers told. *)
Lemma wp_accept s (tap : bool) got w1 (k : RM (bool * Z * Z)) Q :
  Z.of_nat (length got) <= MAXTCPBUFSIZE -> RFault ∉ r_out w1 -> 
  (forall d o, RFault ∉ o -> rinv st Running P
     (set_peer s (set_m_DataLenRecvd d (set_m_recvbuf got (peer_of s w1))) (set_r_out o w1))) ->
  (forall w2, rinv st Running P w2 -> m_recvbuf (peer_of s w2) = got ->
     m_sentpos (peer_of s w2) = m_sentpos (peer_of s w1) ->
     m_SocketStatus (peer_of s w2) = m_SocketStatus (peer_of s w1) ->
     peer_of (partner s) w2 = peer_of (partner s) w1 ->
     m_bReadClosed (peer_of s w2) = m_bReadClosed (peer_of s w1) ->
     p_handle (peer_of s w2) = p_handle (peer_of s w1) -> wp k Q w2) ->
  wp (layers ← of_peer s m_pProxyLayer;
      when tap (remit (RTapData layers got));;
      when (MAXTCPBUFSIZE <? Z.of_nat (length got)) (remit RFault);;
      on s (fun p => set_m_DataLenRecvd (u64 (m_DataLenRecvd p + Z.of_nat (length got))) (set_m_recvbuf got p));;
      remit (RPacket layers got);; k) Q w1.
Proof.
  intros Hlen Ho Hin HQ. apply wp_bind, wp_gets, wp_bind.
  set (lay := m_pProxyLayer _).
  apply (wp_mono _ (fun _ w' => exists o, RFault ∉ o /\ w' = set_r_out o w1)).
  { apply wp_when; intros _; [|exists (r_out w1); split; [done|by destruct w1]].
    apply wp_modify. eexists. split; [|done]. by apply no_fault_snoc. }
  intros _ ? (o & Ho' & ->). apply wp_bind.
  replace (MAXTCPBUFSIZE <? Z.of_nat (length got)) with false by (symmetry; apply Z.ltb_ge; lia).
  apply wp_ret, wp_bind, wp_modify, wp_bind, wp_modify.
  set (d := u64 _). apply HQ.
  - pose proof (Hin d (o ++ [RPacket lay got])) as G. 
    replace (set_r_out _ _) with (set_peer s (set_m_DataLenRecvd d (set_m_recvbuf got (peer_of s w1)))
      (set_r_out (o ++ [RPacket lay got]) w1)); [|by destruct s].
    apply G. by apply no_fault_snoc.
  - by destruct s.
  - by destruct s.
  - by destruct s.
  - by destruct s.
  - by destruct s.
  - by destruct s.
Qed.

Lemma wp_receive_loop s fuel : forall nRecvd w (Q : bool * Z * Z -> relay S -> Prop),
  rinv st Running P w -> m_recvbuf (peer_of s w) = [] -> m_SocketStatus (peer_of s w) <> TM_CONN ->
  MAX_EVENT_READ_BYTES - nRecvd < Z.of_nat fuel -> (m_bReadClosed (peer_of s w) = true -> (0 < fuel)%nat) ->
  (forall ok e n w', rinv st Running P w' -> same_handles w w' ->
     (st = true -> ok = false -> no_ending s w w') -> Q (ok, e, n) w') ->
  wp (receive_loop s fuel nRecvd) Q w.
Proof.
  induction fuel as [|fuel IH]; intros nRecvd w Q Hw Hb Hs Hf1 Hf2 HQ.
  - cbn [receive_loop]. apply wp_bind, wp_gets. unfold id. rewrite Hb.
    destruct (m_bReadClosed (peer_of s w)); [specialize (Hf2 eq_refl); lia|].
    replace (nRecvd <? MAX_EVENT_READ_BYTES) with false by (symmetry; apply Z.ltb_ge; lia).
    rewrite andb_false_r. apply wp_ret, HQ; [done|by intros ?|done].
  - cbn [receive_loop]. apply wp_bind, wp_gets. unfold id. rewrite Hb. apply wp_if; intros _.
    { apply wp_ret, HQ; [done|by intros ?|done]. }
    apply wp_bind. cbn [length]. eapply wp_PeerReceive; [done|done|done|unfold MAXTCPBUFSIZE; lia|..].
    + intros w1 H1 F1. apply wp_bind, wp_gets. cbn. apply wp_bind, wp_gets, wp_ret.
      apply HQ; [done|intros s'; apply F1|]. intros _ _. split; [destruct (F1 s); congruence|].
      intros s'. destruct (F1 s') as (E1 & E2 & E3 & _). unfold valid. by rewrite E1, E2, E3.
    + intros w1 H1 F1 Hi. apply wp_bind, wp_gets. cbn. apply wp_bind, wp_gets, wp_bind.
      calm w2 H2 F2. apply wp_bind. calm w3 H3 F3. apply wp_bind.
      apply wp_modify. set (w4 := set_peer s (set_m_bReadClosed true (peer_of s w3)) w3).
      assert (H4 : rinv st Running P w4).
      { apply rinv_eof; [done|]. by rewrite (proj2 F3), (proj2 F2). }
      apply wp_bind. calm w5 H5 F5. apply wp_ret, HQ; [done| |done].
      intros s'. destruct (F1 s') as (_ & _ & _ & <- & _), F2 as [F2 _], F3 as [F3 _], F5 as [F5 _].
      destruct (F2 s') as (_ & _ & _ & <- & _), (F3 s') as (_ & _ & _ & <- & _).
      destruct (F5 s') as (_ & _ & _ & -> & _). subst w4. destruct (decide (s = s')) as [<-|].
      * by rewrite peer_set_same.
      * by destruct s, s'.
    + intros got w1 Hlen Hmax F1 Ho Hr Hin. apply wp_bind, wp_gets. unfold SOCKET_ERROR.
      replace (Z.of_nat (length got) =? -1) with false by (symmetry; apply Z.eqb_neq; lia).
      replace (Z.of_nat (length got) =? 0) with false by (symmetry; apply Z.eqb_neq; lia).
      apply wp_accept; [unfold MAXTCPBUFSIZE in *; lia|rewrite Ho; by apply ri_out in Hw|done|].
      intros w2 H2 B2 S2 T2 Q2 R2 O2. apply wp_bind. eapply wp_TransferSend; [done|]. intros sent w3 H3 F3 Hsent.
      destruct (F1 s) as (_ & G2 & G3 & G4 & G5), (F1 (partner s)) as (K1 & K2 & K3 & K4 & _).
      destruct F3 as (F3 & L1 & L2). pose proof (F3 s) as (M1 & M2 & M3). pose proof (F3 (partner s)) as (M4 & M5 & _).
      pose proof (empty_sent _ (ri_peer _ _ _ _ Hw s) Hb) as E0.
      assert (Ev : valid (peer_of s w2) = Z.of_nat (length got)) by (unfold valid; rewrite B2; lia).
      assert (Hh : same_handles w w3).
      { sides s; [congruence|]. rewrite M5, Q2. done. }
      apply wp_if; intros B1; bool_hyps.
      { apply wp_ret, HQ; [done|done|]. intros Hst. destruct Hsent as [[_ ?]|[? _]]; [congruence|lia]. }
      apply wp_if; intros B3; bool_hyps; [by apply wp_ret, HQ|].
      cbn [app] in B3. destruct Hsent as [[? _]|[Hn Hv]]; [lia|].
      assert (Hv3 : valid (peer_of s w3) = 0) by lia.
      destruct (valid_empty _ (ri_peer _ _ _ _ H3 s) Hv3) as (Hb3 & _ & _).
      assert (Hno : no_ending s w w3).
      { split; [done|]. sides s; (split; [congruence|]).
        - rewrite Hv3. unfold valid. rewrite Hb, E0. done.
        - unfold valid. rewrite L1, L2, Q2. congruence. }
      apply wp_bind. eapply wp_TestSocketStatus; [done|]. intros r w4 H4 Hr4 P4.
      assert (Hh4 : same_handles w w4) by (intros s'; rewrite P4; apply Hh).
      apply wp_if; intros B4; bool_hyps.
      { apply wp_ret, HQ; [done|done|]. intros Hst. specialize (Hr4 Hst). lia. }
      apply wp_if; intros B5; bool_hyps; [by apply wp_ret, HQ|].
      apply IH; rewrite ?P4.
      * done.
      * done.
      * intros Hc. apply Hs, G5. rewrite <- T2. by apply M3.
      * lia.
      * congruence.
      * intros ok e n w5 H5 Hh5 Hn5. apply HQ; [done|intros s'; by rewrite Hh5|].
        intros Hst Hok. destruct (Hn5 Hst Hok) as [Hb5 Hm]. split; [done|]. intros s'.
        destruct (Hm s') as [N1 N2], Hno as [_ Hno]. destruct (Hno s') as [N3 N4]. rewrite P4 in N1, N2.
        split; congruence.
Qed.

(** ** Ending *)

Lemma rinv_shut m s w :
  rinv st m P w -> m_bReadClosed (peer_of s w) = true -> valid (peer_of s w) = 0 ->
  m_bWriteShutdown (peer_of (partner s) w) = false ->
  rinv st m P (set_peer (partner s) (set_m_bWriteShutdown true (peer_of (partner s) w)) w).
Proof.
  intros [] Hr Hv Hs. set (w' := set_peer _ _ _).
  assert (E1 : peer_of s w' = peer_of s w) by apply peer_set_other.
  assert (E2 : peer_of (partner s) w' = set_m_bWriteShutdown true (peer_of (partner s) w)) by apply peer_set_same.
  constructor.
  - sides s; rewrite ?E1, ?E2; [apply ri_peer|]. destruct (ri_peer (partner s)). by constructor.
  - intros Hm. pose proof (ri_open Hm s). sides s; rewrite ?partner_partner, ?E1, ?E2; done.
  - intros Hm. sides s; rewrite ?E1, ?E2; by apply ri_fully.
  - subst w'. by rewrite set_peer_out.
  - intros Hst. sides s; rewrite ?E1, ?E2; by apply ri_steady.
  - by destruct s.
  - intros Hst. pose proof (ri_pipe Hst s) as F1. pose proof (ri_pipe Hst (partner s)) as F2.
    destruct (valid_empty _ (ri_peer s) Hv) as (_ & _ & Hh). unfold pipe_of in *. rewrite partner_partner in F2.
    sides s; rewrite ?partner_partner, ?E1, ?E2; cbn; [|done].
    rewrite Hh, Hs, (po_eof _ (ri_peer s) Hr) in *. eapply rtc_r; [exact F1|]. constructor.
  - intros Hst Hm. sides s; rewrite ?E1, ?E2; by apply ri_live.
  - intros Hst Hm Hf. destruct (ri_fin Hst Hm) as [H1 H2].
    + sides s; [specialize (Hf s); by rewrite E1 in Hf|specialize (Hf (partner s)); by rewrite E2 in Hf].
    + split; [|by destruct s]. sides s; rewrite ?E1, ?E2; apply H1.
Qed.

Lemma keeps_PropagateHalfClose m s : keeps (rinv st m P) (PropagateHalfClose s).
Proof.
  intros w Hw. apply wp_exec. unfold PropagateHalfClose, of_peer, id. do 2 apply wp_bind, wp_gets.
  apply wp_if; intros B; [by apply wp_ret|]. bool_hyps.
  apply wp_bind, wp_PendingBytes. intros o l.
  assert (Hio : rinv st m P (set_r_ioctls l w)) by (apply (rinv_aside _ _ _ (set_r_ioctls l)); [by intros ?|done]).
  apply wp_if; intros _; [by apply wp_exec, keeps_TriggerEvent|].
  apply wp_bind, wp_modify, wp_modify. set (w2 := set_r_out _ _).
  assert (E : forall s', peer_of s' w2 = peer_of s' w) by (by intros []).
  apply rinv_shut; rewrite ?E; try done. by apply (keeps_remit st m P).
Qed.

(** A change that closes. *)
Definition loose (f : CPRCTcpPeer S -> CPRCTcpPeer S) : Prop := forall p,
  p_socket (f p) = p_socket p /\ m_recvbuf (f p) = m_recvbuf p /\ m_sentpos (f p) = m_sentpos p /\
  m_bReadClosed (f p) = m_bReadClosed p /\ m_bWriteShutdown (f p) = m_bWriteShutdown p /\
  m_SocketStatus (f p) = m_SocketStatus p.

Lemma keeps_loose s f : loose f -> keeps (rinv st Closing P) (on s f).
Proof.
  intros Hf. apply keeps_modify. intros w []. set (w' := set_peer s _ w).
  destruct (Hf (peer_of s w)) as (E1 & E2 & E3 & E4 & E5 & E6).
  assert (F1 : peer_of s w' = f (peer_of s w)) by apply peer_set_same.
  assert (F2 : peer_of (partner s) w' = peer_of (partner s) w) by apply peer_set_partner.
  constructor; try done.
  - sides s; rewrite ?F1, ?F2; [|apply ri_peer]. destruct (ri_peer s).
    constructor; by rewrite ?E1, ?E2, ?E3, ?E4, ?E6.
  - subst w'. by rewrite set_peer_out.
  - intros Hst. sides s; rewrite ?F1, ?F2, ?E1; by apply ri_steady.
  - by destruct s.
  - intros Hst. pose proof (ri_pipe Hst s) as G1. pose proof (ri_pipe Hst (partner s)) as G2.
    unfold pipe_of, held in *. rewrite partner_partner in *.
    sides s; rewrite ?partner_partner, ?F1, ?F2, ?E1, ?E2, ?E3, ?E5; done.
Qed.

Lemma wp_CloseSocket s w (Q : unit -> relay S -> Prop) :
  rinv st Closing P w ->
  (forall w', rinv st Closing P w' -> p_handle (peer_of s w') = false ->
     peer_of (partner s) w' = peer_of (partner s) w -> Q tt w') ->
  wp (CloseSocket s) Q w.
Proof.
  intros Hw HQ. unfold CloseSocket. apply wp_bind, wp_gets, wp_bind.
  apply (wp_mono _ (fun _ w' => rinv st Closing P w' /\ forall s', peer_of s' w' = peer_of s' w)).
  { apply wp_when; intros _; [|done]. split; [by apply (keeps_remit st Closing P)|by intros []]. }
  intros [] w1 [H1 E1]. apply (wp_mono _ (fun _ w' => w' = exec (on s (fun p => set_m_pProxyLayer false
    (set_m_pSecureLayer false (set_p_handle false p)))) w1)); [done|].
  intros [] ? ->. apply HQ.
  - by apply keeps_loose.
  - cbn. by rewrite peer_set_same.
  - cbn. by rewrite peer_set_partner.
Qed.

Lemma rinv_OnPeerClosed s w :
  rinv st Closing P w -> (forall s, p_handle (peer_of s w) = false) ->
  rinv st Settled P (exec (tcp_OnPeerClosed s) w).
Proof.
  intros Hw H. unfold tcp_OnPeerClosed. apply wp_exec. unfold of_peer. do 2 apply wp_bind, wp_gets.
  rewrite !H. apply wp_modify, rinv_closed; [|intros []; [apply (H Client)|apply (H Server)]|done].
  apply (rinv_aside _ _ _ (set_m_bDeletePending true)); [by intros ?|done].
Qed.

Lemma rinv_TryFinish s w :
  rinv st Running P w -> rinv st Settled P (exec (TryFinishConnection s) w).
Proof.
  intros Hw. apply wp_exec. unfold TryFinishConnection, of_peer, id. do 2 apply wp_bind, wp_gets.
  apply wp_if; intros B.
  - apply wp_ret, rinv_quiet; [done|]. intros Hst Hd. exfalso. destruct (Hd s) as [D1 D2], (Hd (partner s)) as [D3 D4].
    rewrite D1, D2, D3, D4 in B. cbn in B. rewrite !orb_false_r in B.
    pose proof (ri_fully _ _ _ _ Hw ltac:(done) s B). pose proof (ri_live _ _ _ _ Hw Hst eq_refl s). congruence.
  - apply rinv_closing in Hw. apply wp_bind, wp_modify, wp_bind, wp_modify.
    set (w1 := set_peer (partner s) _ _).
    assert (H1 : rinv st Closing P w1) by (by apply (keeps_loose (partner s) (set_m_bFullyClosing true)), (keeps_loose s (set_m_bFullyClosing true))).
    clearbody w1. apply wp_bind. calm w2 H2 F2. apply wp_bind. calm w3 H3 F3.
    apply wp_bind, wp_CloseSocket; [done|]. intros w4 H4 E4 _.
    apply wp_bind, wp_CloseSocket; [done|]. intros w5 H5 E5 E5'. rewrite partner_partner in E5'.
    apply wp_bind. calm w6 H6 F6. apply wp_bind. calm w7 H7 F7.
    apply wp_exec, rinv_OnPeerClosed; [done|].
    destruct F6 as [F6 _], F7 as [F7 _].
    sides s; destruct (F7 s) as (_ & _ & _ & -> & _) || idtac.
    + destruct (F6 s) as (_ & _ & _ & -> & _). by rewrite E5'.
    + destruct (F7 (partner s)) as (_ & _ & _ & -> & _), (F6 (partner s)) as (_ & _ & _ & -> & _). done.
Qed.
End Steps.

(** * The TCP relay refines a pair of pipes

    Every event keeps [rinv]: the buffers stay in bounds and no loop outlives
    its fuel, whatever the sockets do; and over steady sockets each direction
    makes the steps of the pipe of TcpRelayInv.v. *)

Lemma steady_or (b : bool) : b = true \/ b = false.
Proof. destruct b; auto. Qed.

Section Handlers.
Context {S : Type} {socket : StreamSocket S} {laws : StreamLaws S}.
Variables (st : bool) (P : side -> pipe).

(** ** The handlers *)

Lemma clear_empty s (w : relay S) :
  m_recvbuf (peer_of s w) = [] -> m_sentpos (peer_of s w) = 0 -> exec (tcp_ClearBuffer s) w = w.
Proof. intros H1 H2. destruct s, w as [[] []]; cbn in *; by subst. Qed.

(** Clearing loses data: never over steady sockets. *)
Lemma rinv_clear m s w : st = false -> rinv st m P w -> rinv st m P (exec (tcp_ClearBuffer s) w).
Proof.
  intros -> []. change (exec _ w) with (set_peer s (set_m_sentpos 0 (set_m_recvbuf [] (peer_of s w))) w).
  constructor; try done.
  - sides s; rewrite ?peer_set_same, ?peer_set_partner; [|apply ri_peer]. destruct (ri_peer s).
    constructor; cbn; auto; unfold MAXTCPBUFSIZE; lia.
  - intros Hm. pose proof (ri_open Hm s). sides s; rewrite ?partner_partner, ?peer_set_same, ?peer_set_partner; done.
  - intros Hm. sides s; rewrite ?peer_set_same, ?peer_set_partner; by apply ri_fully.
  - by rewrite set_peer_out.
Qed.

Lemma peer_open s w : rinv st Settled P w -> p_handle (peer_of s w) = true -> forall s', p_handle (peer_of s' w) = true.
Proof. intros [] H. sides s; [done|]. by rewrite <- ri_open. Qed.

Definition open_if_steady (s : side) (w : relay S) : Prop := st = true -> p_handle (peer_of s w) = true.

Lemma OnReceive_rinv s e w :
  rinv st Settled P w -> open_if_steady s w -> rinv st Settled P (exec (tcp_OnReceive s e) w).
Proof.
  intros Hw Ho. apply wp_exec. unfold tcp_OnReceive. apply wp_if; intros _; [by apply wp_ret|].
  apply wp_bind, wp_modify. set (w1 := set_peer s (set_m_SocketStatus TM_RECV (peer_of s w)) w).
  assert (H1 : rinv st Settled P w1) by (apply (keeps_status st Settled P s TM_RECV); done).
  assert (Ho1 : open_if_steady s w1) by (intros Hst; unfold w1; rewrite peer_set_same; by apply Ho).
  assert (Hs1 : m_SocketStatus (peer_of s w1) <> TM_CONN) by (unfold w1; by rewrite peer_set_same).
  clearbody w1. clear w Hw Ho. apply wp_bind. calm w2 H2 F2. destruct F2 as [F2 _].
  assert (Ho2 : open_if_steady s w2).
  { intros Hst. destruct (F2 s) as (_ & _ & _ & -> & _). by apply Ho1. }
  apply wp_bind, wp_gets. case_bool_decide as Hb; cbn [negb]; [|by apply wp_ret].
  pose proof (rinv_run _ _ _ _ H2 Ho2) as H3.
  apply wp_bind. eapply wp_receive_loop; [done|done| |unfold receive_fuel; lia|unfold receive_fuel, MAX_EVENT_READ_BYTES, MAXTCPBUFSIZE; lia|].
  { destruct (F2 s) as (_ & _ & _ & _ & Hs). auto. }
  intros ok e' n w4 H4 Hh4 Hn4. destruct ok; cbn [negb].
  - apply wp_bind, wp_gets, wp_bind.
    apply (wp_mono _ (fun _ w' => rinv st Running P w')).
    { apply wp_if; intros _; [|by apply wp_ret]. apply wp_bind. eapply wp_TestSocketStatus; [done|].
      intros r w5 H5 _ _. apply wp_when; intros _; [|done]. by apply wp_exec, keeps_TriggerEvent. }
    intros [] w5 H5. apply wp_bind, wp_exec, wp_exec, rinv_TryFinish. by apply keeps_PropagateHalfClose.
  - assert (H5 : rinv st Settled P w4).
    { apply rinv_quiet; [done|]. intros Hst Hd. exfalso. destruct (Hn4 Hst eq_refl) as [_ Hn].
      destruct (ri_fin _ _ _ _ H2 Hst eq_refl) as [Hc _].
      - intros s'. destruct (Hn s') as [<- <-]. apply Hd.
      - specialize (Hc s). specialize (Ho2 Hst). congruence. }
    apply wp_bind, wp_exec, wp_exec, keeps_TriggerEvent. 
    destruct (steady_or st) as [Est|Est]; [|by apply rinv_clear].
    destruct (Hn4 Est eq_refl) as [Hb4 _]. rewrite clear_empty; [done|done|].
    apply empty_sent; [|done]. by apply (ri_peer _ _ _ _ H4).
Qed.

Lemma open_still s w w' : open_if_steady s w -> framed w w' -> open_if_steady s w'.
Proof. intros H F Hst. destruct (F s) as (_ & _ & _ & -> & _). by apply H. Qed.

Lemma open_partner s w : rinv st Settled P w -> open_if_steady s w -> open_if_steady (partner s) w.
Proof. intros Hw H Hst. by eapply peer_open, H. Qed.

(** The end of a handler. *)
Lemma rinv_ending s w :
  rinv st Running P w -> rinv st Settled P (exec (PropagateHalfClose s;; TryFinishConnection s) w).
Proof. intros Hw. rewrite exec_bind. apply rinv_TryFinish. by apply keeps_PropagateHalfClose. Qed.

(** Both buffers cleared, and the end of it. *)
Lemma wp_abandon {A} s w (a : A) (Q : A -> relay S -> Prop) :
  st = false -> rinv st Running P w -> (forall w', rinv st Running P w' -> Q a w') ->
  wp (tcp_ClearBuffer s;; tcp_ClearBuffer (partner s);; TriggerEvent s FD_CLOSE 0;; mret a) Q w.
Proof.
  intros Hst Hw HQ. do 2 apply wp_bind, wp_modify. set (w1 := set_peer (partner s) _ _).
  assert (H1 : rinv st Running P w1) by (apply (rinv_clear Running (partner s)), (rinv_clear Running s); done).
  apply wp_bind. calm w2 H2 F2. by apply wp_ret, HQ.
Qed.

Lemma OnSend_rinv s e w :
  rinv st Settled P w -> open_if_steady s w -> rinv st Settled P (exec (tcp_OnSend s e) w).
Proof.
  intros Hw Ho. apply wp_exec. unfold tcp_OnSend. apply wp_if; intros _; [by apply wp_ret|].
  apply wp_bind. calm w1 H1 F1. destruct F1 as [F1 _]. apply wp_bind. calm w2 H2 F2. destruct F2 as [F2 _].
  assert (Ho2 : open_if_steady s w2) by (eapply open_still; [|exact F2]; by eapply open_still).
  clear Hw Ho H1 F1 F2 w1. pose proof (rinv_run _ _ _ _ H2 Ho2) as H3.
  apply wp_bind, wp_gets. fold (valid (peer_of (partner s) w2)). apply wp_bind.
  apply (wp_mono _ (fun gone w' => rinv st Running P w' /\ (gone = true -> st = false))).
  - apply wp_if; intros B; [|by apply wp_ret]. apply wp_bind. eapply wp_TransferSend; [done|].
    intros n w4 H4 F4 Hn. apply wp_if; intros B1; bool_hyps.
    { destruct Hn as [[_ Hst]|?]; [|lia]. by apply wp_abandon. }
    apply wp_if; intros B2; bool_hyps; [by apply wp_ret|].
    apply wp_bind. eapply wp_TestSocketStatus; [done|]. intros r w5 H5 Hr _. apply wp_if; intros B3; bool_hyps.
    { apply wp_abandon; [|done|done]. destruct (steady_or st) as [Est|]; [|done]. specialize (Hr Est). lia. }
    apply wp_bind, wp_gets, wp_bind. calm w6 H6 F6. by apply wp_ret.
  - intros gone w4 [H4 Hg]. apply wp_if; intros B.
    + apply wp_ret, rinv_quiet; [done|]. intros Hst. by rewrite Hst in Hg; specialize (Hg B).
    + by apply wp_exec, rinv_ending.
Qed.

Lemma still_handle (w w' : relay S) s : still w w' -> p_handle (peer_of s w') = p_handle (peer_of s w).
Proof. intros [F _]. by destruct (F s) as (_ & _ & _ & ? & _). Qed.

Lemma peers_OnPeerClosed s (w : relay S) s' : peer_of s' (exec (tcp_OnPeerClosed s) w) = peer_of s' w.
Proof.
  apply (wp_exec _ (fun w' : relay S => peer_of s' w' = peer_of s' w)).
  do 2 apply wp_bind, wp_gets. apply wp_when; intros _; [|done]. apply wp_modify. by destruct s'.
Qed.

Lemma OnClose_error s e w :
  e <> 0 -> rinv st Settled P w ->
  let w' : relay S := exec (tcp_OnClose s e) w in
  rinv st Settled P w' /\ forall s', p_handle (peer_of s' w') = false.
Proof.
  intros He Hw. apply Z.eqb_neq in He. apply rinv_closing in Hw. cbn zeta. unfold tcp_OnClose.
  apply (wp_exec _ (fun w' : relay S => rinv st Settled P w' /\ forall s', p_handle (peer_of s' w') = false)).
  apply wp_bind. calm w1 H1 F1. rewrite He. do 2 apply wp_bind, wp_gets.
  apply wp_bind. calm w2 H2 F2. apply wp_bind. calm w3 H3 F3. apply wp_bind. calm w4 H4 F4.
  apply wp_bind. calm w5 H5 F5. apply wp_bind, (wp_CloseSocket st P); [done|]. intros w6 H6 C6 _.
  apply wp_bind. calm w7 H7 F7. apply wp_bind, wp_gets, wp_bind.
  apply (wp_mono _ (fun _ (w' : relay S) => rinv st Closing P w' /\ forall s', p_handle (peer_of s' w') = false)).
  - pose proof (still_handle _ _ s F7) as Es. rewrite C6 in Es. apply wp_when; intros B.
    + apply wp_bind. calm w8 H8 F8. apply (wp_CloseSocket st P); [done|]. intros w9 H9 C9 E9.
      split; [done|]. sides s; [|done]. rewrite partner_partner in E9. by rewrite E9, (still_handle _ _ s F8).
    + split; [done|]. by sides s.
  - intros [] w8 [H8 C8]. pose proof (rinv_OnPeerClosed st P s w8 H8 C8) as H9.
    apply wp_exec. split; [done|]. intros s'. by rewrite peers_OnPeerClosed.
Qed.

Lemma OnClose_rinv s e w :
  rinv st Settled P w -> open_if_steady s w -> rinv st Settled P (exec (tcp_OnClose s e) w).
Proof.
  intros Hw Ho. destruct (Z.eq_dec e 0) as [->|He]; [|by apply OnClose_error].
  apply wp_exec. unfold tcp_OnClose. apply wp_bind. calm w1 H1 F1. cbn [Z.eqb].
  apply wp_bind, wp_gets. apply wp_if; intros _; [by apply wp_ret|].
  apply wp_bind, wp_gets. apply wp_if; intros _.
  - apply wp_exec, rinv_ending. eapply rinv_run; [done|]. destruct F1 as [F1 _]. by eapply open_still.
  - apply wp_bind. calm w2 H2 F2. by apply wp_exec, keeps_TriggerEvent.
Qed.

Lemma OnConnect_rinv s e w :
  rinv st Settled P w -> open_if_steady s w -> rinv st Settled P (exec (tcp_OnConnect s e) w).
Proof.
  intros Hw Ho. apply wp_exec. unfold tcp_OnConnect. apply wp_bind, wp_gets, wp_bind. calm w1 H1 F1.
  apply wp_bind. calm w2 H2 F2. apply wp_if; intros _.
  { apply wp_exec, OnClose_rinv; [done|]. intros Hst. rewrite (still_handle _ _ s F2), (still_handle _ _ s F1).
    by apply Ho. }
  apply wp_bind. calm w3 H3 F3. apply wp_bind. calm w4 H4 F4.
  apply wp_bind, wp_gets, wp_bind. calm w5 H5 F5.
  apply wp_bind. eapply wp_TestSocketStatus; [done|]. intros r1 w6 H6 _ _. apply wp_bind. calm w7 H7 F7.
  apply wp_bind. eapply wp_TestSocketStatus; [done|]. intros r2 w8 H8 _ _. apply wp_bind. calm w9 H9 F9.
  apply wp_bind. calm w10 H10 F10. apply wp_bind. calm w11 H11 F11. apply wp_bind. calm w12 H12 F12.
  apply wp_bind. calm w13 H13 F13. by apply wp_exec, keeps_PropagateHalfClose.
Qed.

Lemma OnTimer_rinv s w : rinv st Settled P w -> rinv st Settled P (exec (tcp_OnTimer s) w).
Proof.
  intros Hw. apply wp_exec. unfold tcp_OnTimer. apply wp_bind, wp_gets.
  pose proof (ri_peer _ _ _ _ Hw s) as Hp.
  destruct (m_SocketStatus (peer_of s w)) eqn:Es; try (by apply wp_ret); [|by destruct (po_shut _ Hp)].
  unfold IsTimedOut. apply wp_bind, wp_bind, wp_gets, wp_gets. apply wp_when; intros _; [|done].
  pose proof (po_conn _ Hp Es) as Hb. pose proof (empty_sent _ Hp Hb) as He.
  apply wp_bind. apply (wp_mono _ (fun _ (w' : relay S) => rinv st Settled P w' /\ peer_of s w' = peer_of s w)).
  { split; [by apply (keeps_remit st Settled P)|by destruct s]. }
  intros [] w1 [H1 E1]. apply wp_bind, wp_exec. rewrite clear_empty by (by rewrite E1).
  by apply wp_exec, keeps_TriggerEvent.
Qed.
End Handlers.
