(* ===== verification/TcpTask.v ===== *)
(** * Starting a TCP task (TcpProxyTask.cpp, PRCTcpPeer.cpp)

    [SetTaskInfo] makes the two peers, connects the server through its proxy
    layer and attaches the accepted socket.  What the sockets and layers do
    themselves is the interface [SocketSetup].  At the end, a started task
    satisfies the relay's invariant.  [new] does not fail, and
    CMitmBridge is disabled. *)

From S2P Require Import Prelude Winsock SockAddr Effects UdpPolicy TcpRelay.

(** The calls of SetProxy. *)
Inductive layer_config :=
  | LDirect (nProxyType : Z)
  | LProxy (nProxyType : Z) (host : bytes) (port : Z)
  | LProxyLogon (nProxyType : Z) (host : bytes) (port : Z) (user pass : bytes).

Inductive connect_target :=
  | ByName (name : bytes) (port : Z)
  | ByAddress (a : _SockAddr).

(** CAsyncSocketEx and its layers, before the connection: [AddLayer] of the
    proxy layer and of a configured secure layer, [Create] with the family,
    [Connect]; and AsyncSelect on a socket that was accepted. *)
Class SocketSetup (S : Type) := {
  sock_add_proxy : layer_config -> S -> bool * S;
  sock_add_secure : bytes -> bytes -> S -> bool * S;
  sock_create : Z -> S -> bool * S;
  sock_connect : connect_target -> S -> bool * S;
  sock_select : S -> bool
}.

Inductive ConnectionStage :=
  | STAGE_ALLOCATE | STAGE_TRANSPORT | STAGE_SOCKET | STAGE_CONNECT | STAGE_ATTACH | STAGE_IPV6_ROUTE.

Section Setup.
Context {S : Type} {socket : StreamSocket S} {setup : SocketSetup S}.

Abbreviation RM := (M (relay S)).

Definition SetLastError_ (e : Z) : RM unit := modify (set_r_lasterr e).

(** A call into the socket below, with the error it leaves. *)
Definition below (s : side) (f : S -> bool * S) : RM bool := fun w =>
  let p := peer_of s w in
  let '(ok, k) := f (p_socket p) in
  (ok, set_r_lasterr (sock_error k) (set_peer s (set_p_socket k p) w)).

Definition proxy_config (info : ProxyInfo) : layer_config :=
  let t := GetProxyType info in
  if t =? PROXYTYPE_NOPROXY then LDirect t
  else if (t =? PROXYTYPE_HTTP10) || (t =? PROXYTYPE_HTTP11) || (t =? PROXYTYPE_SOCKS5) then
    LProxyLogon t (strProxyHost info) (nProxyPort info) (strProxyUser info) (strProxyPass info)
  else LProxy t (strProxyHost info) (nProxyPort info).

Definition AddProxyLayer (s : side) (info : ProxyInfo) : RM bool :=
  let useSecureTransport := UsesGoncTlsPsk (Some info) in
  if useSecureTransport
     && (negb (SupportsGoncTlsPsk (GetProxyType info)) || bool_decide (cstr (strTransportPsk info) = []))
  then SetLastError_ WSAEINVAL;; mret false
  else
    on s (set_m_pProxyLayer true);;
    ok ← below s (sock_add_proxy (proxy_config info));
    if negb ok then mret false
    else if useSecureTransport then
      on s (set_m_pSecureLayer true);;
      below s (sock_add_secure (cstr (strTransportPsk info)) (cstr (strProxyHost info)))
    else mret true.

Definition connect_by_name (c : PRCClient) : bool := IsDNValid (szDomainName c) && negb (HasProxyDestination c).

Definition transport_family (c : PRCClient) (info : ProxyInfo) : Z :=
  if (GetProxyType info =? PROXYTYPE_NOPROXY) && negb (connect_by_name c) && IsIPv6 (GetProxyDestination c)
  then AF_INET6 else AF_INET.

Definition proxy_target (c : PRCClient) : connect_target :=
  if connect_by_name c then ByName (szDomainName c) (GetPort (dstAddr c)) else ByAddress (GetProxyDestination c).

(** AsyncSelect does not fail: the proxy layer is there. *)
Definition tcp_ConnectProxy (s : side) (c : PRCClient) (info : ProxyInfo) : RM (bool * ConnectionStage) :=
  layered ← AddProxyLayer s info;
  if negb layered then mret (false, STAGE_TRANSPORT)
  else
    created ← below s (sock_create (transport_family c info));
    if negb created then mret (false, STAGE_SOCKET)
    else
      on s (set_p_handle true);;
      AsyncSelect s (FD_READ + FD_WRITE + FD_CONNECT + FD_CLOSE);;
      bConnect ← below s (sock_connect (proxy_target c));
      e ← GetLastError_;
      if negb bConnect && negb (e =? WSAEWOULDBLOCK) then mret (false, STAGE_CONNECT)
      else
        on s (set_m_SocketStatus TM_CONN);;
        UpdateMonitor s TM_CONN;;
        change_monitor (partner s) TM_SEND Disable;;
        change_monitor (partner s) TM_RECV Disable;;
        mret (true, STAGE_CONNECT).

(** Attach: the accepted socket, its events. *)
Definition Attach (s : side) (k : S) (lEvent : Z) : RM bool :=
  on s (fun p => set_p_handle true (set_p_socket k p));;
  AsyncSelect s lEvent;;
  mret (sock_select k).

(** The task is new: [k] is the socket accepted, [blank] one not created yet;
    [tap] is CProtocolTap::Enabled(). *)
Definition new_relay (now : Z) (blank : S) (tap : bool) (selects : list Z) (ioctls : list (option Z)) : relay S :=
  mkRelay (new_tcp_peer now blank) (new_tcp_peer now blank) false tap now selects ioctls 0 [].

(** The options of the server are set before it has a socket, and fail. *)
Definition SetSockOpt (s : side) : RM unit :=
  open ← of_peer s p_handle;
  when (negb open) (SetLastError_ WSAENOTSOCK).

Definition tcp_SetTaskInfo (k : S) (c : PRCClient) (info : ProxyInfo) : RM (bool * ConnectionStage) :=
  SetSockOpt Server;; SetSockOpt Server;;
  r ← tcp_ConnectProxy Server c info;
  let '(connected, stage) := (r : bool * ConnectionStage) in
  attached ← (if connected then Attach Client k FD_CLOSE else mret false);
  if (attached : bool) then
    SetSockOpt Client;; SetSockOpt Client;; mret (true, STAGE_ATTACH)
  else
    error ← GetLastError_;
    tap ← gets m_pProtocol;
    when tap (remit (RTapConnected (if error =? 0 then WSAECONNABORTED else error)));;
    modify (set_m_pProtocol false);;
    CloseSocket Client;; CloseSocket Server;;
    SetLastError_ error;;
    mret (false, if connected then STAGE_ATTACH else stage).
End Setup.

From S2P Require Import TcpRelayInv.

(** * A started TCP task satisfies the relay's invariant *)

(** Making a socket ready keeps it sane. *)
Class SetupLaws (S : Type) `{StreamLaws S} `{SocketSetup S} := {
  add_proxy_law cfg k : sane k -> sane (snd (sock_add_proxy cfg k));
  add_secure_law psk host k : sane k -> sane (snd (sock_add_secure psk host k));
  create_law family k : sane k -> sane (snd (sock_create family k));
  connect_law t k : sane k -> sane (snd (sock_connect t k))
}.

Section Start.
Context {S : Type} `{laws : SetupLaws S}.

Record fresh_peer (p : CPRCTcpPeer S) : Prop := {
  fp_sane : sane (p_socket p);
  fp_buf : m_recvbuf p = [];
  fp_sent : m_sentpos p = 0;
  fp_eof : m_bReadClosed p = false;
  fp_shut : m_bWriteShutdown p = false;
  fp_fully : m_bFullyClosing p = false;
  fp_status : m_SocketStatus p <> TM_SHUT
}.

(** No data yet; the sides of [opened] have a socket. *)
Record fresh (opened : list side) (w : relay S) : Prop := {
  fr_peer : forall s, fresh_peer (peer_of s w);
  fr_open : forall s, s ∈ opened -> p_handle (peer_of s w) = true;
  fr_out : RFault ∉ r_out w
}.

Lemma fresh_set opened s p w :
  fresh opened w -> fresh_peer p -> (s ∈ opened -> p_handle p = true) -> fresh opened (set_peer s p w).
Proof.
  intros [] Hp Ho. constructor.
  - sides s; [by rewrite peer_set_same|rewrite peer_set_partner; apply fr_peer0].
  - intros s'. destruct (decide (s' = s)) as [->|]; [by rewrite peer_set_same|].
    replace (peer_of s' _) with (peer_of s' w) by (by destruct s, s'). apply fr_open0.
  - by destruct s.
Qed.

Lemma keeps_fresh_on opened s f :
  (forall p, fresh_peer p -> fresh_peer (f p) /\ (p_handle p = true -> p_handle (f p) = true)) ->
  keeps (fresh opened) (on s f).
Proof.
  intros Hf w Hw. change (exec _ w) with (set_peer s (f (peer_of s w)) w).
  pose proof Hw as []. destruct (Hf (peer_of s w) (fr_peer0 s)) as [F1 F2]. apply fresh_set; auto.
Qed.

Lemma keeps_fresh_below opened s f :
  (forall k, sane k -> sane (snd (f k))) -> keeps (fresh opened) (below s f).
Proof.
  intros Hf w Hw. unfold exec, below. destruct (f (p_socket (peer_of s w))) as [ok k] eqn:E. cbn.
  assert (F : fresh opened (set_peer s (set_p_socket k (peer_of s w)) w)).
  { pose proof Hw as []. destruct (fr_peer0 s). specialize (Hf (p_socket (peer_of s w))). rewrite E in Hf.
    specialize (Hf fp_sane0). apply fresh_set; [done|constructor; cbn; auto|cbn; auto]. }
  destruct F. constructor; try done.
Qed.

Lemma keeps_fresh_modify opened (f : relay S -> relay S) :
  (forall w, m_pClient (f w) = m_pClient w /\ m_pServer (f w) = m_pServer w /\
     (RFault ∉ r_out w -> RFault ∉ r_out (f w))) ->
  keeps (fresh opened) (modify f).
Proof.
  intros Hf w []. destruct (Hf w) as (E1 & E2 & E4). change (exec _ w) with (f w).
  assert (E : forall s, peer_of s (f w) = peer_of s w) by (by intros []).
  constructor; [intros s; rewrite E; auto|intros s; rewrite E; auto|auto].
Qed.

Lemma keeps_fresh_remit opened o : o <> RFault -> keeps (fresh opened) (remit o).
Proof.
  intros Ho. apply keeps_fresh_modify. intros w. split_and!; try done. intros H'. by apply no_fault_snoc.
Qed.

#[local] Hint Extern 1 (keeps (fresh _) (on _ _)) =>
  apply keeps_fresh_on; intros p []; split; [by constructor|done] : relay.
#[local] Hint Extern 1 (keeps (fresh _) (remit _)) => by apply keeps_fresh_remit : relay.
#[local] Hint Extern 1 (keeps (fresh _) (SetLastError_ _)) => by apply keeps_fresh_modify : relay.
#[local] Hint Extern 1 (keeps (fresh _) (below _ _)) =>
  apply keeps_fresh_below; intros ?;
  first [apply add_proxy_law|apply add_secure_law|apply create_law|apply connect_law] : relay.
#[local] Ltac fresh_steps := unfold of_peer; repeat (keeps_step || solve [eauto with relay]).

Lemma keeps_fresh_AsyncSelect opened s e : keeps (fresh opened) (AsyncSelect s e).
Proof. unfold AsyncSelect. fresh_steps. Qed.
Lemma keeps_fresh_UpdateMonitor opened s t : keeps (fresh opened) (UpdateMonitor s t).
Proof. unfold UpdateMonitor. fresh_steps. Qed.
Lemma keeps_fresh_change_monitor opened s t f : keeps (fresh opened) (change_monitor s t f).
Proof. unfold change_monitor. fresh_steps. Qed.
Lemma keeps_fresh_SetSockOpt opened s : keeps (fresh opened) (SetSockOpt s).
Proof. unfold SetSockOpt. fresh_steps. Qed.
Lemma keeps_fresh_AddProxyLayer opened s info : keeps (fresh opened) (AddProxyLayer s info).
Proof. unfold AddProxyLayer. fresh_steps. Qed.
#[local] Hint Resolve keeps_fresh_AsyncSelect keeps_fresh_UpdateMonitor keeps_fresh_change_monitor
  keeps_fresh_SetSockOpt keeps_fresh_AddProxyLayer : relay.

Lemma fresh_opened opened s f w :
  (forall p, fresh_peer p -> fresh_peer (f p) /\ p_handle (f p) = true) ->
  fresh opened w -> fresh (s :: opened) (exec (on s f) w).
Proof.
  intros Hf Hw. change (exec _ w) with (set_peer s (f (peer_of s w)) w).
  pose proof Hw as []. destruct (Hf _ (fr_peer0 s)) as [F1 F2].
  destruct (fresh_set opened s _ w Hw F1 ltac:(done)). constructor; try done.
  intros s' [->|Hs]%elem_of_cons; [by rewrite peer_set_same|auto].
Qed.

Lemma fresh_weaken opened w : fresh opened w -> fresh [] w.
Proof. intros []. constructor; try done. set_solver. Qed.

#[local] Ltac fresh_step w F :=
  eapply wp_keeping; [|eassumption|intros ? w F]; [solve [eauto with relay]|].

(** The connection is under way only once the server has its socket. *)
Lemma wp_tcp_ConnectProxy c info w :
  fresh [] w ->
  wp (tcp_ConnectProxy Server c info)
     (fun r w' => fresh (if (r : bool * ConnectionStage).1 then [Server] else []) w') w.
Proof.
  intros Hw. unfold tcp_ConnectProxy. apply wp_bind. fresh_step w1 F1.
  apply wp_if; intros _; [by apply wp_ret|]. apply wp_bind. fresh_step w2 F2.
  apply wp_if; intros _; [by apply wp_ret|]. apply wp_bind.
  apply (wp_mono _ (fun _ => fresh [Server])).
  { apply wp_exec, fresh_opened; [|done]. intros p []. split; [by constructor|done]. }
  intros [] w3 F3. apply wp_bind. fresh_step w4 F4. apply wp_bind. fresh_step w5 F5.
  apply wp_bind, wp_gets. apply wp_if; intros _; [by apply wp_ret, (fresh_weaken [Server])|].
  apply wp_bind. fresh_step w6 F6. apply wp_bind. fresh_step w7 F7. apply wp_bind. fresh_step w8 F8.
  apply wp_bind. fresh_step w9 F9. by apply wp_ret.
Qed.

Lemma wp_tcp_SetTaskInfo k c info w :
  fresh [] w -> sane k ->
  wp (tcp_SetTaskInfo k c info)
     (fun r w' => (r : bool * ConnectionStage).1 = true -> fresh [Client; Server] w') w.
Proof.
  intros Hw Hk. unfold tcp_SetTaskInfo. apply wp_bind. fresh_step w1 F1. apply wp_bind. fresh_step w2 F2.
  apply wp_bind. eapply wp_mono; [by apply wp_tcp_ConnectProxy|]. intros [connected stage] w3 F3. cbn [fst snd] in F3.
  apply wp_bind. apply (wp_mono _ (fun (attached : bool) w' => attached = true -> fresh [Client; Server] w')).
  - apply wp_if; intros E; [rewrite E in F3|by apply wp_ret].
    unfold Attach. apply wp_bind. apply (wp_mono _ (fun _ => fresh [Client; Server])).
    { apply wp_exec, fresh_opened; [|done]. intros p []. split; [by constructor|done]. }
    intros [] w4 F4. apply wp_bind. fresh_step w5 F5. by apply wp_ret.
  - intros attached w4 F4. apply wp_if; intros E.
    + specialize (F4 E). apply wp_bind. fresh_step w5 F5. apply wp_bind. fresh_step w6 F6. by apply wp_ret.
    + apply wp_bind, wp_gets, wp_bind, wp_gets, wp_bind. eapply wp_mono; [by apply (wp_exec _ (fun _ => True))|].
      intros [] w5 _. do 3 (apply wp_bind; eapply wp_mono; [by apply (wp_exec _ (fun _ => True))|intros [] ? _]).
      apply wp_bind. eapply wp_mono; [by apply (wp_exec _ (fun _ => True))|intros [] ? _]. by apply wp_ret.
Qed.

Lemma fresh_rinv st w :
  fresh [Client; Server] w ->
  (st = true -> (forall s, steady (p_socket (peer_of s w))) /\ Forall (fun r => 0 <= r) (r_selects w)) ->
  rinv st Settled (fun s => pipe_of s w) w.
Proof.
  intros [] Hst. assert (Ho : forall s, p_handle (peer_of s w) = true) by (intros []; apply fr_open0; set_solver).
  constructor; try done.
  - intros s. destruct (fr_peer0 s). constructor; rewrite ?fp_buf0, ?fp_sent0; auto; try done; cbn; try lia.
    congruence.
  - intros _ s. by rewrite !Ho.
  - intros _ s Hf. destruct (fr_peer0 s). congruence.
  - intros E. by apply Hst.
  - intros E. by apply Hst.
  - intros _ _ Hf. destruct (Hf Client) as [Hc _], (fr_peer0 Client). congruence.
Qed.

(** The state of a task that started. *)
Lemma started_fresh now blank k tap selects ioctls c info stage w :
  sane blank -> sane k ->
  tcp_SetTaskInfo k c info (new_relay now blank tap selects ioctls) = ((true, stage), w) ->
  fresh [Client; Server] w.
Proof.
  intros Hb Hk E. assert (F : fresh [] (new_relay now blank tap selects ioctls)).
  { constructor; [intros []; by constructor| |]; set_solver. }
  pose proof (wp_tcp_SetTaskInfo k c info _ F Hk) as G. unfold wp in G. rewrite E in G. by apply G.
Qed.
End Start.
