(* ===== verification/TcpTaskSafety.v ===== *)
(** * What a TCP task guarantees

    A task is a started relay and the events that reach it.  Whatever the
    sockets do it stays in bounds and every handler ends; over steady sockets
    it refines two pipes, so the bytes arrive in order and without loss, the
    end of stream after the last of them, and a task whose directions have
    both ended has closed its sockets and asks to be deleted. *)

From S2P Require Import Prelude Winsock SockAddr Effects UdpPolicy TcpRelay TcpTask TcpRelayInv.
From S2P Require Import TcpRelayRefinement.

(** The notifications and the timer; [TTick] is the clock, [TSocket] a socket
    whose layers did something of their own. *)
Inductive tcp_event (S : Type) :=
  | TReceive (s : side) (nErrorCode : Z)
  | TSend (s : side) (nErrorCode : Z)
  | TConnect (nErrorCode : Z)
  | TClose (s : side) (nErrorCode : Z)
  | TTimer (s : side)
  | TTick (now : Z)
  | TSocket (s : side) (k : S).
Arguments TReceive {S}.
Arguments TSend {S}.
Arguments TConnect {S}.
Arguments TClose {S}.
Arguments TTimer {S}.
Arguments TTick {S}.
Arguments TSocket {S}.

Section Task.
Context {S : Type} `{laws : SetupLaws S}.

Definition tcp_handle (ev : tcp_event S) : M (relay S) unit :=
  match ev with
  | TReceive s e => tcp_OnReceive s e
  | TSend s e => tcp_OnSend s e
  | TConnect e => tcp_OnConnect Server e
  | TClose s e => tcp_OnClose s e
  | TTimer s => tcp_OnTimer s
  | TTick now => modify (set_r_tick now)
  | TSocket s k => on s (set_p_socket k)
  end.

(** What may come: notifications of an open socket, and sockets that change
    by themselves.  [st]: they leave the streams alone and stay steady, as
    they do once the handshake with the proxy is over. *)
Definition may_come (st : bool) (ev : tcp_event S) (w : relay S) : Prop :=
  match ev with
  | TReceive s _ | TSend s _ | TClose s _ => p_handle (peer_of s w) = true
  | TConnect _ => p_handle (peer_of Server w) = true
  | TTimer _ | TTick _ => True
  | TSocket s k =>
      let k0 := p_socket (peer_of s w) in
      sane k /\ (m_bReadClosed (peer_of s w) = true -> incoming k = []) /\
      (st = true -> incoming k = incoming k0 /\ outgoing k = outgoing k0 /\ steady k)
  end.

Inductive task_steps (st : bool) (w0 : relay S) : relay S -> Prop :=
  | task_begin : task_steps st w0 w0
  | task_event ev w : task_steps st w0 w -> may_come st ev w -> task_steps st w0 (exec (tcp_handle ev) w).

Fixpoint tcp_run (evs : list (tcp_event S)) (w : relay S) : relay S :=
  match evs with [] => w | ev :: evs => tcp_run evs (exec (tcp_handle ev) w) end.

Fixpoint all_may_come (st : bool) (evs : list (tcp_event S)) (w : relay S) : Prop :=
  match evs with
  | [] => True
  | ev :: evs => may_come st ev w /\ all_may_come st evs (exec (tcp_handle ev) w)
  end.

Lemma task_steps_run st evs w0 : forall w,
  task_steps st w0 w -> all_may_come st evs w -> task_steps st w0 (tcp_run evs w).
Proof.
  induction evs as [|ev evs IH]; intros w Hw He; [done|]. destruct He as [H1' H2'].
  apply IH; [by apply task_event|done].
Qed.

(** A task that SetTaskInfo started. *)
Definition task_started (w : relay S) : Prop :=
  exists now blank k tap selects ioctls c info stage,
    sane blank /\ sane k /\
    tcp_SetTaskInfo k c info (new_relay now blank tap selects ioctls) = ((true, stage), w).

(** Its sockets are steady and select does not fail. *)
Definition calm_network (w : relay S) : Prop :=
  (forall s, steady (p_socket (peer_of s w))) /\ Forall (fun r => 0 <= r) (r_selects w).

Lemma rinv_socket st P s k w :
  rinv st Settled P w -> may_come st (TSocket s k) w ->
  rinv st Settled P (set_peer s (set_p_socket k (peer_of s w)) w).
Proof.
  intros [] (Hk & Hi & Hst). constructor.
  - sides s; rewrite ?peer_set_same, ?peer_set_partner; [|apply ri_peer]. destruct (ri_peer s).
    constructor; cbn; auto.
  - intros Hm. pose proof (ri_open Hm s). sides s; rewrite ?partner_partner, ?peer_set_same, ?peer_set_partner; done.
  - intros Hm. sides s; rewrite ?peer_set_same, ?peer_set_partner; by apply ri_fully.
  - by rewrite set_peer_out.
  - intros E. sides s; rewrite ?peer_set_same, ?peer_set_partner; [by apply Hst|by apply ri_steady].
  - by destruct s.
  - intros E. pose proof (ri_pipe E s) as F1. pose proof (ri_pipe E (partner s)) as F2.
    destruct (Hst E) as (Hi' & Ho' & _). unfold pipe_of in *. rewrite partner_partner in F2.
    sides s; rewrite ?partner_partner, ?peer_set_same, ?peer_set_partner; cbn; by rewrite ?Hi', ?Ho'.
  - done.
  - intros E Hm Hf. destruct (ri_fin E Hm) as [H1' H2'].
    + sides s; [specialize (Hf s); by rewrite peer_set_same in Hf|
        specialize (Hf (partner s)); by rewrite peer_set_partner in Hf].
    + split; [|by destruct s]. sides s; rewrite ?peer_set_same, ?peer_set_partner; apply H1'.
Qed.

Lemma handle_rinv st P ev w :
  rinv st Settled P w -> may_come st ev w -> rinv st Settled P (exec (tcp_handle ev) w).
Proof.
  intros Hw He. destruct ev as [s e|s e|e|s e|s|now|s k]; cbn [tcp_handle] in *.
  - apply OnReceive_rinv; [done|by intros _].
  - apply OnSend_rinv; [done|by intros _].
  - apply OnConnect_rinv; [done|by intros _].
  - apply OnClose_rinv; [done|by intros _].
  - by apply OnTimer_rinv.
  - apply (rinv_aside _ _ _ (set_r_tick now)); [by intros ?|done].
  - by apply rinv_socket.
Qed.

Lemma steps_keep st P w0 w :
  rinv st Settled P w0 -> task_steps st w0 w -> rinv st Settled P w.
Proof. intros H0'. induction 1 as [|ev w Hw IH He]; [done|by apply handle_rinv]. Qed.

Lemma started_steps w0 w P :
  task_started w0 -> task_steps false w0 w -> rinv false Settled P w.
Proof.
  intros (now & blank & k & tap & sel & ioc & c & info & stage & Hb & Hk & E).
  pose proof (started_fresh _ _ _ _ _ _ _ _ _ _ Hb Hk E) as F.
  apply steps_keep. pose proof (fresh_rinv false w0 F ltac:(done)) as []. by constructor.
Qed.

(** A task in operation: it was started, went on, say through the handshake
    with the proxy, and has not seen the end of the upstream. *)
Definition established (w : relay S) : Prop :=
  (exists w0, task_started w0 /\ task_steps false w0 w) /\ m_bReadClosed (m_pServer w) = false.

Lemma established_rinv w :
  established w -> calm_network w -> (forall s, p_handle (peer_of s w) = true) ->
  rinv true Settled (fun s => pipe_of s w) w.
Proof.
  intros [(w0 & Hs & Hw) Hr] [Hc1 Hc2] Ho.
  pose proof (started_steps w0 w (fun s => pipe_of s w) Hs Hw) as []. constructor; try done.
  intros _ _ Hf. destruct (Hf Server) as [Hc _]. cbn in Hc. congruence.
Qed.

(** C3: A TCP task stays in bounds and its handlers end, whatever the network
    and the layers do: no write outside the 4096-byte buffers and no loop that
    outlives its fuel is ever recorded, and in each peer the bytes sent are a
    prefix of the bytes held, of which there are at most [MAXTCPBUFSIZE]. *)
Theorem tcp_task_safe w0 w :
  task_started w0 -> task_steps false w0 w ->
  RFault ∉ r_out w /\
  forall s, 0 <= m_sentpos (peer_of s w) <= Z.of_nat (length (m_recvbuf (peer_of s w))) /\
            Z.of_nat (length (m_recvbuf (peer_of s w))) <= MAXTCPBUFSIZE.
Proof.
  intros Hs Hw. destruct (started_steps w0 w (fun s => pipe_of s w) Hs Hw).
  split; [done|]. intros s. destruct (ri_peer s) as [_ H2 H3 H4 _ _ _]. split; [|done].
  destruct H3 as [[-> ->]|?]; cbn; lia.
Qed.

(** C4: Refinement.  Once the sockets are steady, each direction of the relay
    - what the socket will still deliver, what the peer's buffer holds, what
    the partner's socket took, and whether its write side was shut down -
    only makes steps of the abstract pipe: bytes enter at one end, leave at
    the other in order, and the end is announced when both are empty. *)
Theorem tcp_task_refines w0 w s :
  established w0 -> calm_network w0 -> (forall s, p_handle (peer_of s w0) = true) ->
  task_steps true w0 w ->
  pipe_steps (pipe_of s w0) (pipe_of s w).
Proof.
  intros He Hc Ho Hw.
  by apply (ri_pipe _ _ _ _ (steps_keep _ _ _ _ (established_rinv w0 He Hc Ho) Hw)).
Qed.

(** Over steady sockets nothing is lost, invented or reordered: what the
    partner's socket took, the bytes held and the bytes still to come are, in
    this order, those there were; and when the task has shut down the
    partner's write side, all of them have been taken. *)
Theorem tcp_stream_intact w0 w s :
  established w0 -> calm_network w0 -> (forall s, p_handle (peer_of s w0) = true) ->
  task_steps true w0 w ->
  let all w := outgoing (p_socket (peer_of (partner s) w)) ++ held (peer_of s w) ++
               incoming (p_socket (peer_of s w)) in
  all w = all w0 /\
  (m_bWriteShutdown (peer_of (partner s) w0) = false -> m_bWriteShutdown (peer_of (partner s) w) = true ->
   outgoing (p_socket (peer_of (partner s) w)) = all w0).
Proof.
  intros He Hc Ho Hw all.
  pose proof (ri_pipe _ _ _ _ (steps_keep _ _ _ _ (established_rinv w0 He Hc Ho) Hw) eq_refl s) as Hp.
  pose proof (pipe_steps_bytes _ _ Hp) as E. change (all w = all w0) in E. split; [done|].
  intros H1' H2'. destruct (pipe_steps_shut _ _ Hp H1' H2') as [E1 E2]. cbn in E1, E2.
  rewrite <- E. unfold all. by rewrite E1, E2, !app_nil_r.
Qed.

(** A task whose directions have both ended, with nothing left to forward,
    has closed both sockets and asks to be deleted. *)
Theorem tcp_task_finishes w0 w :
  established w0 -> calm_network w0 -> (forall s, p_handle (peer_of s w0) = true) ->
  task_steps true w0 w ->
  (forall s, m_bReadClosed (peer_of s w) = true /\ valid (peer_of s w) = 0) ->
  (forall s, p_handle (peer_of s w) = false) /\ m_bDeletePending w = true.
Proof.
  intros He Hc Ho Hw. by apply (ri_fin _ _ _ _ (steps_keep _ _ _ _ (established_rinv w0 He Hc Ho) Hw)).
Qed.
End Task.
