(* ===== verification/TcpTaskMgr.v ===== *)
(** * The manager of the TCP tasks (ProxyTaskMgr.cpp)

    A [CProxyTCPTaskMgr] starts a task for each accepted connection, lists it,
    drives its peers' timers and drops it when it asks for that, when its
    process is gone, or when the connections are to be made again.  The state
    [tmanager] is the object and the heap of task objects ([t_objects], an
    address is a [nat]).

    Each task has its relay with its own outside (TcpRelay.v).  Using a task
    that was deleted is [KFault].  What a task did is in the relay's [r_out]
    and goes to [t_trace] when the task is deleted.  The observers' calls carry
    the address of the task besides what they are passed.  [new] does not
    fail; printed messages are left out. *)

From S2P Require Import Prelude Winsock SockAddr Effects UdpPolicy TcpRelay TcpTask TaskManager.

Inductive kmgr_output :=
  | KTask (t : nat) (o : relay_output)
  | KAdd (t : nat) (c : PRCClient) (p : ProxyInfo)   (* OnAddTask of the observers *)
  | KDel (t : nat) (c : PRCClient)                   (* OnDelTask of the observers *)
  | KFault.

Section Manager.
Context {S : Type} {socket : StreamSocket S} {setup : SocketSetup S}.

(** A CTcpProxyTask: [k_peers] is whether its peers are not deleted yet. *)
Record tcp_task := mkTcpTask {
  k_client : PRCClient;
  k_proxy : ProxyInfo;
  k_relay : relay S;
  k_peers : bool;
  m_reconnectSelected : bool;
  m_reconnectPending : bool
}.

Record tmanager := mkTManager {
  t_tasklist : list nat;
  t_objects : gmap nat tcp_task;
  t_next : nat;
  t_timer_task : bool;    (* TIMER_TCPPERTASK is set *)
  t_timer_alive : bool;   (* TIMER_IS_TASK_ALIVE is set *)
  t_trace : list kmgr_output
}.

Definition set_t_tasklist (v : list nat) (w : tmanager) : tmanager :=
  mkTManager v (t_objects w) (t_next w) (t_timer_task w) (t_timer_alive w) (t_trace w).
Definition set_t_objects (v : gmap nat tcp_task) (w : tmanager) : tmanager :=
  mkTManager (t_tasklist w) v (t_next w) (t_timer_task w) (t_timer_alive w) (t_trace w).
Definition set_t_next (v : nat) (w : tmanager) : tmanager :=
  mkTManager (t_tasklist w) (t_objects w) v (t_timer_task w) (t_timer_alive w) (t_trace w).
Definition set_t_timers (v : bool) (w : tmanager) : tmanager :=
  mkTManager (t_tasklist w) (t_objects w) (t_next w) v v (t_trace w).
Definition set_t_trace (v : list kmgr_output) (w : tmanager) : tmanager :=
  mkTManager (t_tasklist w) (t_objects w) (t_next w) (t_timer_task w) (t_timer_alive w) v.

Abbreviation KM := (M tmanager).

Definition kemit (os : list kmgr_output) : KM unit := modify (fun w => set_t_trace (t_trace w ++ os) w).

(** ** Tasks *)

Definition set_k_relay (r : relay S) (t : tcp_task) : tcp_task :=
  mkTcpTask (k_client t) (k_proxy t) r (k_peers t) (m_reconnectSelected t) (m_reconnectPending t).
Definition set_reconnect (selected pending : bool) (t : tcp_task) : tcp_task :=
  mkTcpTask (k_client t) (k_proxy t) (k_relay t) (k_peers t) selected pending.
Definition IsDeletePending (t : tcp_task) : bool := m_bDeletePending (k_relay t).

(** Reading and changing a task object. *)
Definition of_task {A} (id : nat) (default_ : A) (f : tcp_task -> A) : KM A :=
  h ← gets t_objects;
  match h !! id with Some t => mret (f t) | None => kemit [KFault];; mret default_ end.
Definition on_task (id : nat) (f : tcp_task -> tcp_task) : KM unit :=
  h ← gets t_objects;
  match h !! id with Some t => modify (set_t_objects (<[id := f t]> h)) | None => kemit [KFault] end.

(** An operation of its relay. *)
Definition in_relay (id : nat) (m : M (relay S) unit) : KM unit :=
  on_task id (fun t => set_k_relay (exec m (k_relay t)) t).

Definition EndTask_ (t : tcp_task) : tcp_task :=
  if k_peers t then
    mkTcpTask (k_client t) (k_proxy t) (exec tcp_EndTask (k_relay t)) false (m_reconnectSelected t)
      (m_reconnectPending t)
  else t.
Definition EndTask (id : nat) : KM unit := on_task id EndTask_.

(** [delete], with the destructor. *)
Definition delete_object (id : nat) : KM unit :=
  EndTask id;;
  out ← of_task id [] (fun t => r_out (k_relay t));
  kemit (map (KTask id) out);;
  modify (fun w => set_t_objects (delete id (t_objects w)) w).

Definition OnAddTask (id : nat) (c : PRCClient) (p : ProxyInfo) : KM unit := kemit [KAdd id c p].
Definition OnDelTask (id : nat) : KM unit :=
  h ← gets t_objects;
  match h !! id with Some t => kemit [KDel id (k_client t)] | None => kemit [KFault] end.

(** [m_tasklist.erase] and [remove]; a task is listed once. *)
Definition erase (id : nat) : KM unit :=
  modify (fun w => set_t_tasklist (filter (fun i => i <> id) (t_tasklist w)) w).

Definition SetTimers : KM unit := modify (set_t_timers true).
Definition KillTimers : KM unit := modify (set_t_timers false).

(** ** The operations *)

(** [k] is the accepted socket, [blank] one not created yet, and the rest the
    outside of the new task. *)
Definition OnNewTask (k : S) (c : PRCClient) (p : ProxyInfo)
    (now : Z) (blank : S) (tap : bool) (selects : list Z) (ioctls : list (option Z))
    : KM (bool * ConnectionStage) :=
  let '((ok, stage), r) := tcp_SetTaskInfo k c p (new_relay now blank tap selects ioctls) in
  if negb ok then mret (false, stage)
  else
    id ← gets t_next;
    modify (fun w => set_t_next (id + 1)%nat
      (set_t_objects (<[id := mkTcpTask c p r true false false]> (t_objects w)) w));;
    OnAddTask id c p;;
    l ← gets t_tasklist;
    when (bool_decide (l = [])) SetTimers;;
    modify (fun w => set_t_tasklist (t_tasklist w ++ [id]) w);;
    mret (true, stage).

Definition OnDeleteTask (id : nat) : KM unit :=
  OnDelTask id;;
  erase id;;
  l ← gets t_tasklist;
  when (bool_decide (l = [])) KillTimers;;
  delete_object id.

Definition RemoveAllTasks : KM unit :=
  l ← gets t_tasklist;
  walk (fun id => EndTask id;; OnDelTask id;; delete_object id) l;;
  modify (set_t_tasklist []).

Definition selectable (t : tcp_task) : bool := negb (IsDeletePending t) && negb (m_reconnectPending t).

(** Every task there is, but those on their way out, is selected. *)
Fixpoint select_loop (l : list nat) : KM Z :=
  match l with
  | [] => mret 0
  | id :: l =>
      on_task id (fun t => set_reconnect (selectable t) (m_reconnectPending t) t);;
      chosen ← of_task id false m_reconnectSelected;
      count ← select_loop l;
      mret (if (chosen : bool) then u32 (count + 1) else count)
  end.
Definition PrepareReconnect : KM Z := l ← gets t_tasklist; select_loop l.

Definition CompleteReconnect (disconnect : bool) : KM unit :=
  l ← gets t_tasklist;
  walk (fun id => on_task id (fun t =>
    set_reconnect false (m_reconnectPending t || (m_reconnectSelected t && disconnect)) t)) l.

Definition peer_timer (id : nat) (s : side) : KM unit :=
  open ← of_task id false (fun t => k_peers t && p_handle (peer_of s (k_relay t)));
  when open (in_relay id (tcp_OnTimer s)).

Definition OnTimer_task : KM unit :=
  l ← gets t_tasklist;
  walk (fun id =>
    pending ← of_task id false m_reconnectPending;
    if (pending : bool) then EndTask id;; OnDelTask id;; erase id;; delete_object id
    else
      peer_timer id Client;; peer_timer id Server;;
      gone ← of_task id false IsDeletePending;
      when gone (OnDelTask id;; erase id;; delete_object id)) l;;
  l ← gets t_tasklist;
  when (bool_decide (l = [])) KillTimers.

(** [os] is what the system answers about a process. *)
Definition OnTimer_alive (os : Z -> process_query) : KM unit :=
  l ← gets t_tasklist;
  walk (fun id =>
    runs ← of_task id true (fun t => TestTaskByPid (os (dwPid (k_client t))) (processCreateTime (k_client t)));
    when (negb runs) (EndTask id;; OnDelTask id;; delete_object id;; erase id)) l.

Definition EnumTask : KM (list (PRCClient * ProxyInfo)) :=
  gets (fun w => omap (fun id => (fun t => (k_client t, k_proxy t)) <$> t_objects w !! id) (t_tasklist w)).

Definition GetTaskCount : KM Z := gets (fun w => u32 (Z.of_nat (length (t_tasklist w)))).

(** The constructor. *)
Definition new_tmanager : tmanager := mkTManager [] ∅ 0 false false [].
End Manager.

Arguments tcp_task S : clear implicits.
Arguments tmanager S : clear implicits.
