(* ===== verification/TcpSockets.v ===== *)
(** * The TCP relay over the proxy layer

    The proxy layer of ProxyLayer.v is a [StreamSocket]: its [Send] and
    [Receive] are what the server peer calls.  Without a proxy and connected it
    is the plain socket of the client, whose calls it only passes on.  The
    witnesses of TcpTaskSafety.v's theorems are run on it, and so is what the
    relay does with errors. *)

From S2P Require Import Prelude Winsock SockAddr Effects ProxyLayer ProxyLayerRules ProxyLayerSafety.
From S2P Require Import UdpPolicy TcpRelay TcpTask TcpRelayInv TcpTaskSafety.

#[global] Instance layer_socket : StreamSocket world := {
  sock_receive n w := Receive n w;
  sock_send data w := Send data w;
  sock_error := lasterr;
  HasPendingRead _ := false
}.

(** ** The laws *)

(** What recv will return before the end of the stream. *)
Fixpoint upto_eof (r : list rx_event) : bytes :=
  match r with
  | [] => []
  | RxData b :: r => b ++ upto_eof r
  | RxEof :: _ => []
  | _ :: r => upto_eof r
  end.

Definition kept (w : world) : bytes :=
  match m_pAppRecvBuffer w with Some (d, p) => drop (Z.to_nat p) d | None => [] end.

Definition rx_sane (e : rx_event) : Prop := match e with RxData b => b <> [] | _ => True end.
Definition tx_sane (e : tx_event) : Prop := match e with TxAccept k => 0 < k | _ => True end.
Definition tx_steady (e : tx_event) : Prop := match e with TxError e => e = WSAEWOULDBLOCK | _ => True end.

Definition layer_sane (w : world) : Prop :=
  send_ok (m_pAppRecvBuffer w) /\ Forall rx_sane (rx w) /\ Forall tx_sane (tx w).

(** Sends are refused for being full only: while an operation is pending, or
    connected. *)
Definition layer_steady (w : world) : Prop :=
  (m_nProxyOpID w <> 0 \/ next_error w = None) /\ Forall tx_steady (tx w).

Definition layer_in (w : world) : bytes := kept w ++ upto_eof (rx w).
Definition layer_out (w : world) : bytes := sent_bytes (out w).

Lemma next_error_steady w w' :
  m_nCriticalError w' = m_nCriticalError w -> m_nLayerState w' = m_nLayerState w -> next_error w' = next_error w.
Proof. intros E1 E2. unfold next_error. by rewrite E1, E2. Qed.

Lemma recv_law n w :
  0 < n -> layer_sane w -> m_pAppRecvBuffer w = None ->
  let '((c, got), w') := recv n w in
  layer_sane w' /\ (layer_steady w -> layer_steady w') /\ layer_out w' = layer_out w /\
  layer_in w = got ++ layer_in w' /\
  (c = SOCKET_ERROR /\ got = [] \/ c = 0 /\ got = [] /\ layer_in w = [] \/
   0 < c <= n /\ c = Z.of_nat (length got)).
Proof.
  intros Hn (H1 & H2 & H3) Ha. unfold recv, layer_in, kept, layer_sane. rewrite Ha.
  destruct (rx w) as [|[b| |e|] r] eqn:Er; cbn [m_pAppRecvBuffer set_lasterr set_rx rx tx];
    rewrite ?Ha, ?Er; cbn [upto_eof app].
  - split_and!; try done. by left.
  - apply Forall_cons in H2 as [Hb H2]. cbn in Hb.
    assert (Hl : (0 < length (take (Z.to_nat n) b))%nat).
    { rewrite length_take. destruct b; [done|]. cbn. lia. }
    split_and!; try done.
    + destruct (drop (Z.to_nat n) b); [done|]. by constructor.
    + rewrite <- (take_drop (Z.to_nat n) b) at 1. destruct (drop (Z.to_nat n) b); cbn; by rewrite <- app_assoc.
    + right. right. rewrite length_take in *. lia.
  - apply Forall_cons in H2 as [_ H2]. split_and!; try done. by left.
  - apply Forall_cons in H2 as [_ H2]. split_and!; try done. by left.
  - split_and!; try done. by right; left.
Qed.

Lemma layer_receive_law n w :
  0 < n -> layer_sane w ->
  let '((c, got), w') := Receive n w in
  layer_sane w' /\ (layer_steady w -> layer_steady w') /\ layer_out w' = layer_out w /\
  layer_in w = got ++ layer_in w' /\
  (c = SOCKET_ERROR /\ got = [] \/ c = 0 /\ got = [] /\ layer_in w = [] \/
   0 < c <= n /\ c = Z.of_nat (length got)).
Proof.
  intros Hn Hs. pose proof Hs as (Ha & Hr & Ht). unfold Receive.
  rewrite (proj2 (Z.ltb_ge _ _)), (proj2 (Z.eqb_neq _ _)) by lia. unfold mbind, M_bind, gets.
  destruct (m_nProxyOpID w =? 0) eqn:Eid; cbn [negb]; [|split_and!; try done; by left].
  assert (Hnext : m_pAppRecvBuffer w = None ->
    let '((c, got), w') := ReceiveNext n 0 n w in
    layer_sane w' /\ (layer_steady w -> layer_steady w') /\ layer_out w' = layer_out w /\
    layer_in w = got ++ layer_in w' /\
    (c = SOCKET_ERROR /\ got = [] \/ c = 0 /\ got = [] /\ layer_in w = [] \/
     0 < c <= n /\ c = Z.of_nat (length got))).
  { intros E. unfold ReceiveNext, mbind, M_bind, gets. destruct (next_error w) eqn:En.
    - split_and!; try done. by left.
    - rewrite (proj2 (Z.ltb_lt _ _)), (proj2 (Z.leb_le _ _)) by lia. by apply recv_law. }
  destruct (m_pAppRecvBuffer w) as [[d p]|] eqn:Ea; [|by apply Hnext]. cbn in Ha.
  rewrite (proj2 (Z.ltb_lt _ _)) by lia. unfold modify, mret, M_ret.
  set (c := Z.min n (Z.of_nat (length d) - p)).
  assert (Hlen : length (take (Z.to_nat c) (drop (Z.to_nat p) d)) = Z.to_nat c)
    by (rewrite length_take, length_drop; lia).
  unfold layer_in, kept, layer_sane. rewrite Ea. cbn [m_pAppRecvBuffer set_m_pAppRecvBuffer rx tx].
  split_and!; try done.
  - destruct (p + c =? _) eqn:E; bool_hyps; [done|]. cbn. lia.
  - rewrite app_assoc. f_equal. rewrite <- (take_drop (Z.to_nat c) (drop (Z.to_nat p) d)) at 1. f_equal.
    rewrite drop_drop. destruct (p + c =? _) eqn:E; bool_hyps; [rewrite drop_ge; [done|lia]|f_equal; lia].
  - right. right. lia.
Qed.

Lemma layer_send_law data w :
  data <> [] -> layer_sane w ->
  let '(c, w') := Send data w in
  layer_sane w' /\ (layer_steady w -> layer_steady w') /\ layer_in w' = layer_in w /\
  (c = SOCKET_ERROR /\ layer_out w' = layer_out w /\ (layer_steady w -> lasterr w' = WSAEWOULDBLOCK) \/
   0 < c <= Z.of_nat (length data) /\ layer_out w' = layer_out w ++ take (Z.to_nat c) data).
Proof.
  intros Hd Hs. pose proof Hs as (Ha & Hr & Ht). unfold Send, mbind, M_bind, gets.
  destruct (m_nProxyOpID w =? 0) eqn:Eid; cbn [negb]; [|split_and!; try done; by left].
  unfold SendNext, mbind, M_bind, gets. destruct (next_error w) as [e|] eqn:En.
  - split_and!; try done. left. split_and!; try done. intros [[H|H] _]; bool_hyps; congruence.
  - unfold send. destruct (tx w) as [|[k| |e] t] eqn:Et; unfold layer_sane, layer_steady, layer_in, layer_out; cbn.
    + rewrite Et. split_and!; try done. by left.
    + apply Forall_cons in Ht as [Hk Ht]. cbn in Hk.
      assert (Hl : (0 < length (take (Z.to_nat k) data))%nat).
      { rewrite length_take. destruct data; [done|]. cbn. lia. }
      rewrite Et, Forall_cons. split_and!; try done; [tauto|]. right. rewrite sent_bytes_app. cbn. unfold sent_bytes. cbn.
      rewrite app_nil_r, Nat2Z.id, take_length_take. split; [rewrite length_take in *; lia|done].
    + apply Forall_cons in Ht as [Hk Ht]. rewrite Et, Forall_cons. split_and!; try done; [tauto|]. by left.
    + apply Forall_cons in Ht as [Hk Ht]. rewrite Et, Forall_cons. split_and!; try done; [tauto|]. left.
      split_and!; try done. tauto.
Qed.

#[global] Instance layer_laws : StreamLaws world := {
  sane := layer_sane;
  steady := layer_steady;
  incoming := layer_in;
  outgoing := layer_out;
  receive_law := layer_receive_law;
  send_law := layer_send_law
}.

(** ** Setting the layer up

    Without a secure layer. *)
Section Setup.
Context {platform : Platform}.

Definition set_proxy (cfg : layer_config) : M world unit :=
  match cfg with
  | LDirect t => SetProxyNone t
  | LProxy t host port => SetProxy t host port
  | LProxyLogon t host port user pass => SetProxyLogon t host port user pass
  end.

(** The base class creates the socket under the layer, which is unconnected. *)
Definition create_socket (w : world) : world := set_hSocketValid true (set_m_nLayerState unconnected w).

#[global] Instance layer_setup : SocketSetup world := {
  sock_add_proxy cfg w := (true, exec (set_proxy cfg) w);
  sock_add_secure _ _ w := (false, set_lasterr WSAENOBUFS w);
  sock_create _ w := (true, create_socket w);
  sock_connect t w := match t with
                      | ByName name port => ConnectHost name port w
                      | ByAddress a => ConnectAddr (Some a) (Size a) w
                      end;
  sock_select _ := true
}.

(** The calls that connect leave the streams alone. *)
Definition streams (w : world) := (m_pAppRecvBuffer w, rx w, tx w).
Definition keeps_streams {A} (m : M world A) : Prop := forall w, streams (exec m w) = streams w.

Lemma keeps_streams_bind {A B} (m : M world A) (k : A -> M world B) :
  keeps_streams m -> (forall a, keeps_streams (k a)) -> keeps_streams (m ≫= k).
Proof. intros Hm Hk w. rewrite exec_bind. by rewrite Hk. Qed.
Lemma keeps_streams_when b (m : M world unit) : keeps_streams m -> keeps_streams (when b m).
Proof. by destruct b. Qed.
Lemma keeps_streams_emit o : keeps_streams (emit o).
Proof. done. Qed.
Lemma keeps_streams_connect : keeps_streams connect_result.
Proof. intros w. unfold connect_result, exec. by destruct (conns w) as [|[]]. Qed.
Lemma keeps_streams_state s : keeps_streams (SetLayerState s).
Proof. intros w. unfold exec. by rewrite exec_SetLayerState. Qed.

#[local] Ltac streams_step :=
  match goal with
  | |- keeps_streams (_ ≫= _) => apply keeps_streams_bind; [|intros ?]
  | |- keeps_streams (when _ _) => apply keeps_streams_when
  | |- keeps_streams connect_result => apply keeps_streams_connect
  | |- keeps_streams (SetLayerState _) => apply keeps_streams_state
  | |- keeps_streams (if ?b then _ else _) => destruct b
  | |- keeps_streams (match ?x with _ => _ end) => destruct x
  | |- keeps_streams (emit _) => done
  | |- keeps_streams (gets _) => done
  | |- keeps_streams (modify _) => done
  | |- keeps_streams (mret _) => done
  end.
#[local] Ltac streams_solve := repeat streams_step; try done.

Lemma keeps_streams_ConnectAddr a n : keeps_streams (ConnectAddr a n).
Proof.
  unfold ConnectAddr, ConnectNextAddr, ConnectNextHost, after_connect, WSAGetLastError, DoLayerCallback,
    WSASetLastError. streams_solve.
Qed.
Lemma keeps_streams_ConnectHost host port : keeps_streams (ConnectHost host port).
Proof.
  unfold ConnectHost, connect_resolved, ConnectNextHost, after_connect, WSAGetLastError, DoLayerCallback,
    WSASetLastError. repeat (streams_step || apply keeps_streams_ConnectAddr). 
Qed.

Lemma sane_streams {A} (m : M world A) w : keeps_streams m -> layer_sane w -> layer_sane (exec m w).
Proof. intros Hm. specialize (Hm w). unfold layer_sane. injection Hm as -> -> ->. done. Qed.

#[global] Instance layer_setup_laws : SetupLaws world.
Proof.
  constructor.
  - intros cfg k. apply (sane_streams (set_proxy cfg)). by destruct cfg.
  - by intros.
  - by intros.
  - intros [name port|a] k; cbn [sock_connect layer_setup].
    + apply (sane_streams (ConnectHost name port)), keeps_streams_ConnectHost.
    + apply (sane_streams (ConnectAddr _ _)), keeps_streams_ConnectAddr.
Qed.
End Setup.

(** ** A run

    A direct task: the application sends 5 bytes and ends its side; the
    server takes 3, then the rest, answers and ends its own. *)

#[local] Instance demo_platform : Platform := test_platform.

Definition socket_with (r : list rx_event) (t : list tx_event) : world :=
  set_m_nLayerState connected (set_rx r (set_tx t new_layer)).

Definition demo_app : world := socket_with [RxData [1; 2; 3; 4; 5]; RxEof] [TxAccept 100].
Definition demo_upstream : world := socket_with [RxBlock; RxData [6; 7]; RxEof] [TxAccept 3; TxBlock; TxAccept 100].
Definition demo_blank : world := set_conns [(false, WSAEWOULDBLOCK)] new_layer.
Definition demo_client : PRCClient :=
  mkPRCClient 1 0 0 SOCK_STREAM 0 [] SockAddr.Clear SockAddr.Clear SockAddr.Clear 0 0 SockAddr.Clear.
Definition demo_proxy : ProxyInfo := mkProxyInfo [] [] [] 0 [] [] PROXY_TRANSPORT_PLAIN [].

(** SetTaskInfo; the server connects. *)
Definition demo_begun : relay world :=
  exec (tcp_SetTaskInfo demo_app demo_client demo_proxy)
    (new_relay 0 demo_blank false [0; 0; 1; 1; 1] [Some 0]).
Definition demo_connect : list (tcp_event world) := [TSocket Server demo_upstream; TConnect 0].
Definition demo_up : relay world := tcp_run demo_connect demo_begun.

Definition demo_traffic : list (tcp_event world) :=
  [TReceive Client 0; TReceive Server 0; TSend Server 0; TSend Server 0; TReceive Client 0;
   TReceive Server 0; TTick 7; TTimer Server].
Definition demo_over : relay world := tcp_run demo_traffic demo_up.

Ltac sane_solve := hnf; split; [|split]; vm_compute; repeat (constructor; try done).

Lemma demo_started : task_started demo_begun.
Proof.
  exists 0, demo_blank, demo_app, false, [0; 0; 1; 1; 1], [Some 0], demo_client, demo_proxy, STAGE_ATTACH.
  split; [|split]; [| |by vm_compute].
  - sane_solve.
  - sane_solve.
Qed.

Ltac run_event := split; [first [exact I|by vm_compute]|cbn [all_may_come tcp_handle]].

Lemma demo_established : established demo_up.
Proof.
  split; [|by vm_compute]. exists demo_begun. split; [apply demo_started|].
  apply task_steps_run; [constructor|]. split; [|split; [by vm_compute|done]].
  split; [|split; [|done]]; [sane_solve|]. intros H. vm_compute in H. done.
Qed.

Lemma demo_calm : calm_network demo_up.
Proof. 
  split; [|by apply (bool_decide_unpack _)].
  intros []; (split; [right; by vm_compute|vm_compute; repeat (constructor; try done)]).
Qed.

Lemma demo_open : forall s, p_handle (peer_of s demo_up) = true.
Proof. by intros []; vm_compute. Qed.

Lemma demo_steps : task_steps true demo_up demo_over.
Proof. apply task_steps_run; [constructor|]. repeat run_event. done. Qed.

Lemma tcp_task_safe_witness :
  demo_up <> demo_begun /\ RFault ∉ r_out demo_up /\
  forall s, 0 <= m_sentpos (peer_of s demo_up) <= Z.of_nat (length (m_recvbuf (peer_of s demo_up))) /\
            Z.of_nat (length (m_recvbuf (peer_of s demo_up))) <= MAXTCPBUFSIZE.
Proof.
  split; [intros E; apply (f_equal (fun w => m_bForwardingReady (m_pServer w))) in E; by vm_compute in E|].
  refine (tcp_task_safe demo_begun demo_up _ _); [apply demo_started|]. destruct demo_established as [(w0 & _ & _) _].
  apply task_steps_run; [constructor|]. split; [|split; [by vm_compute|done]].
  split; [|split; [|done]]; [sane_solve|]. intros H. vm_compute in H. done.
Defined.

Lemma tcp_task_refines_witness :
  pipe_of Client demo_up = mkPipe [1; 2; 3; 4; 5] [] [] false /\
  pipe_of Client demo_over = mkPipe [] [] [1; 2; 3; 4; 5] true /\
  pipe_steps (pipe_of Client demo_up) (pipe_of Client demo_over).
Proof.
  split; [by vm_compute|split; [by vm_compute|]].
  refine (tcp_task_refines demo_up demo_over Client _ _ _ _); [apply demo_established|apply demo_calm|apply demo_open|apply demo_steps].
Defined.

Lemma tcp_stream_intact_witness :
  m_bWriteShutdown (m_pServer demo_over) = true /\
  outgoing (p_socket (m_pServer demo_over)) = [1; 2; 3; 4; 5].
Proof.
  split; [by vm_compute|].
  pose proof (tcp_stream_intact demo_up demo_over Client demo_established demo_calm demo_open demo_steps) as H.
  cbv zeta in H. transitivity (outgoing (p_socket (peer_of (partner Client) demo_over))); [by vm_compute|].
  rewrite (proj2 H); by vm_compute.
Defined.

Lemma tcp_task_finishes_witness :
  (forall s, p_handle (peer_of s demo_over) = false) /\ m_bDeletePending demo_over = true.
Proof.
  refine (tcp_task_finishes demo_up demo_over _ _ _ _ _); [apply demo_established|apply demo_calm|apply demo_open|apply demo_steps|].
  intros []; by vm_compute.
Defined.

(** * Errors of the TCP relay

    Without a layer [TriggerEvent] posts the event without its error code, so
    for the client an error is an ordinary close: the peer goes on reading. *)

(** Run a handler on a concrete peer. *)
Ltac run_relay :=
  cbv [wp mbind M_bind mret M_ret gets modify on of_peer UpdateMonitor PeerReceive PeerSend id when remit
       GetLastError_ tcp_ClearBuffer TriggerEvent AsyncSelect GetValidDataLen valid];
  cbn -[MAXTCPBUFSIZE MAX_EVENT_READ_BYTES Z.sub Z.add app u64].

Section Errors.
Context {S : Type} {socket : StreamSocket S}.

(** The client between events: open, no layer, nothing held, no tap. *)
Definition idle_client (w : relay S) : Prop :=
  let p := m_pClient w in
  p_handle p = true /\ m_pProxyLayer p = false /\ m_recvbuf p = [] /\ m_sentpos p = 0 /\ m_bReadClosed p = false.

(** What happened to an idle client: outputs [o], its socket [k]. *)
Record idle_step (o : list relay_output) (k : S) (w w' : relay S) : Prop := {
  is_out : r_out w' = r_out w ++ o;
  is_socket : p_socket (m_pClient w') = k;
  is_idle : idle_client w';
  is_server : m_pServer w' = m_pServer w
}.

Lemma idle_receive_error w k :
  idle_client w -> sock_receive MAXTCPBUFSIZE (p_socket (m_pClient w)) = ((SOCKET_ERROR, []), k) ->
  sock_error k <> WSAEWOULDBLOCK ->
  wp (tcp_OnReceive Client 0) (fun _ => idle_step [RTrigger Client FD_CLOSE 0] k w) w.
Proof.
  intros (Hh & Hl & Hb & Hp & Hr) Hrx He. apply Z.eqb_neq in He.
  destruct w as [[] q dp tap tick sel ioc le out]. cbn in *. subst.
  unfold tcp_OnReceive. cbn [Z.eqb negb]. destruct receive_fuel_S as [fuel ->].
  cbn [receive_loop]. run_relay.
  replace (negb ((Z.of_nat 0 <? MAXTCPBUFSIZE) && ((0 <? MAX_EVENT_READ_BYTES) || false))) with false by done.
  cbn -[MAXTCPBUFSIZE Z.sub].
  change (MAXTCPBUFSIZE - Z.of_nat 0) with MAXTCPBUFSIZE. rewrite Hrx. cbn. rewrite He. cbn.
  by constructor.
Qed.

Lemma idle_close w k :
  idle_client w -> p_socket (m_pClient w) = k ->
  wp (tcp_OnClose Client 0) (fun _ => idle_step
    [RAsyncSelect Client (FD_READ + FD_WRITE + FD_CLOSE); RTrigger Client FD_READ 0] k w) w.
Proof.
  intros (Hh & Hl & Hb & Hp & Hr) Hk.
  destruct w as [[] q dp tap tick sel ioc le out]. cbn in *. subst.
  unfold tcp_OnClose. run_relay. constructor; [cbn; by rewrite <- app_assoc|done|done|done].
Qed.

(** When recv fails for another reason than having nothing, the client
    posts itself FD_CLOSE without the error, and OnClose then posts FD_READ:
    both sockets stay open and the reading starts over. *)
Theorem client_receive_error_loops w k :
  idle_client w ->
  sock_receive MAXTCPBUFSIZE (p_socket (m_pClient w)) = ((SOCKET_ERROR, []), k) ->
  sock_error k <> WSAEWOULDBLOCK ->
  idle_step [RTrigger Client FD_CLOSE 0; RAsyncSelect Client (FD_READ + FD_WRITE + FD_CLOSE);
             RTrigger Client FD_READ 0] k w
    (exec (tcp_OnReceive Client 0;; tcp_OnClose Client 0) w).
Proof.
  intros Hw Hrx He. apply wp_exec, wp_bind. eapply wp_mono; [by apply idle_receive_error|].
  intros [] w1 []. eapply wp_mono; [by apply (idle_close w1 k)|]. intros [] w2 [].
  constructor; [|done|done|congruence]. rewrite is_out1, is_out0. by rewrite <- app_assoc.
Qed.

Lemma TransferSend_refused w data q :
  m_recvbuf (m_pClient w) = data -> m_sentpos (m_pClient w) = 0 -> data <> [] ->
  p_handle (m_pServer w) = true -> sock_send data (p_socket (m_pServer w)) = (SOCKET_ERROR, q) ->
  sock_error q <> WSAEWOULDBLOCK ->
  wp (TransferSend Client)
     (fun n w' => n = -1 /\ m_pClient w' = m_pClient w /\ p_handle (m_pServer w') = true /\
                  p_socket (m_pServer w') = q /\ r_out w' = r_out w) w.
Proof.
  intros <- Hp Hne Hs Hsend He. apply Z.eqb_neq in He.
  destruct w as [[] [] dp tap tick sel ioc le out]. cbn in *. subst.
  destruct m_recvbuf as [|b data]; [done|]. unfold TransferSend. run_relay.
  change (drop (Z.to_nat 0) (b :: data)) with (b :: data). cbn [transfer_loop length]. run_relay.
  rewrite Hsend. run_relay. by rewrite He.
Qed.

(** Both sockets are open, the client idle over [k], the server over [q]; the
    last thing done is the close the client posted itself. *)
Definition data_dropped (k q : S) (w : relay S) : Prop :=
  idle_client w /\ p_socket (m_pClient w) = k /\
  p_handle (m_pServer w) = true /\ p_socket (m_pServer w) = q /\
  last (r_out w) = Some (RTrigger Client FD_CLOSE 0).

(** When the partner's send fails for another reason than being full - as
    it does on a direct route while the server still connects - the bytes
    received are dropped, no error is reported, and both sockets stay open. *)
Theorem send_error_drops_data w got k q :
  idle_client w ->
  sock_receive MAXTCPBUFSIZE (p_socket (m_pClient w)) = ((Z.of_nat (length got), got), k) ->
  got <> [] -> p_handle (m_pServer w) = true ->
  sock_send got (p_socket (m_pServer w)) = (SOCKET_ERROR, q) -> sock_error q <> WSAEWOULDBLOCK ->
  data_dropped k q (exec (tcp_OnReceive Client 0) w).
Proof.
  intros (Hh & Hl & Hb & Hp & Hr) Hrx Hne Hs Hsend He. apply wp_exec. unfold tcp_OnReceive. cbn [Z.eqb negb].
  apply wp_bind, wp_modify. unfold UpdateMonitor. apply wp_bind, wp_bind, wp_gets, wp_modify.
  set (w1 := set_peer Client _ _).
  assert (I1 : idle_client w1 /\ p_socket (m_pClient w1) = p_socket (m_pClient w) /\ m_pServer w1 = m_pServer w).
  { done. }
  clearbody w1. destruct I1 as ((Hh1 & Hl1 & Hb1 & Hp1 & Hr1) & Ek & Es).
  rewrite <- Ek in Hrx. rewrite <- Es in Hs, Hsend.
  apply wp_bind, wp_gets. cbn [peer_of]. rewrite bool_decide_true by done. cbn [negb].
  destruct receive_fuel_S as [fuel ->]. cbn [receive_loop]. do 2 apply wp_bind. apply wp_gets. unfold id.
  cbn [peer_of]. rewrite Hb1. apply wp_if; intros B; [by vm_compute in B|clear B]. apply wp_bind.
  unfold wp at 1, PeerReceive. cbn [peer_of]. rewrite Hh1. cbn [negb length].
  change (MAXTCPBUFSIZE - Z.of_nat 0) with MAXTCPBUFSIZE. rewrite Hrx.
  set (w2 := set_r_lasterr _ _).
  assert (I2 : m_recvbuf (m_pClient w2) = [] /\ m_sentpos (m_pClient w2) = 0 /\ m_pServer w2 = m_pServer w1 /\
    p_handle (m_pClient w2) = true /\ m_pProxyLayer (m_pClient w2) = false /\
    m_bReadClosed (m_pClient w2) = false /\ p_socket (m_pClient w2) = k) by done.
  clearbody w2. destruct I2 as (Hb2 & Hp2 & E2 & Hh2 & Hl2 & Hr2 & Hk2).
  rewrite <- E2 in Hs, Hsend.
  apply wp_bind, wp_gets. apply wp_if; intros B; [unfold SOCKET_ERROR in B; bool_hyps; lia|clear B].
  apply wp_if; intros B; [bool_hyps; by destruct got|clear B].
  apply wp_bind, wp_gets, wp_bind. cbn [app].
  apply (wp_mono _ (fun _ (w' : relay S) => m_pClient w' = m_pClient w2 /\ m_pServer w' = m_pServer w2));
    [by apply wp_when|].
  intros [] w3 [C3 S3]. apply wp_bind.
  apply (wp_mono _ (fun _ (w' : relay S) => m_pClient w' = m_pClient w3 /\ m_pServer w' = m_pServer w3));
    [by apply wp_when|].
  intros [] w4 [C4 S4]. apply wp_bind, wp_modify, wp_bind, wp_modify, wp_bind.
  eapply wp_mono; [apply (TransferSend_refused _ got q); cbn; try done; rewrite ?C4, ?C3, ?S4, ?S3; done|].
  intros n w5 (-> & C5 & H5 & K5 & O5). cbn [Z.ltb Z.compare]. apply wp_ret. cbn [negb].
  apply wp_bind, wp_modify. set (w6 := set_peer Client _ w5).
  cbn in C5. rewrite C4, C3 in C5.
  assert (E6 : m_pClient w6 = set_m_sentpos 0 (set_m_recvbuf [] (m_pClient w5)) /\ m_pServer w6 = m_pServer w5) by done.
  clearbody w6. destruct E6 as [E6 S6]. rewrite C5 in E6.
  unfold TriggerEvent. apply wp_bind, wp_gets, wp_bind, wp_gets. cbn [peer_of].
  rewrite E6. cbn [p_handle m_pProxyLayer set_m_sentpos set_m_recvbuf set_m_DataLenRecvd]. rewrite Hh2, Hl2.
  apply wp_modify. unfold data_dropped, idle_client. cbn. rewrite E6, S6, last_snoc. done.
Qed.
End Errors.

(** A client whose connection was reset. *)
Definition reset_socket : world := socket_with [RxError WSAECONNRESET] [].
Definition reset_task : relay world :=
  set_m_pClient (set_p_handle true (new_tcp_peer 0 reset_socket)) (TcpTask.new_relay 0 new_layer false [] []).
Definition reset_read : world := snd (sock_receive MAXTCPBUFSIZE reset_socket).

Lemma client_receive_error_loops_witness :
  idle_step [RTrigger Client FD_CLOSE 0; RAsyncSelect Client (FD_READ + FD_WRITE + FD_CLOSE);
             RTrigger Client FD_READ 0] reset_read reset_task
    (exec (tcp_OnReceive Client 0;; tcp_OnClose Client 0) reset_task).
Proof.
  refine (client_receive_error_loops reset_task reset_read _ _ _).
  - by vm_compute.
  - by vm_compute.
  - by vm_compute.
Defined.

(** The direct task of TcpSockets.v before its server is connected. *)
Definition early_data : bytes := [1; 2; 3; 4; 5].
Definition early_read : world := snd (sock_receive MAXTCPBUFSIZE (p_socket (m_pClient demo_begun))).
Definition early_sent : world := snd (sock_send early_data (p_socket (m_pServer demo_begun))).

Lemma send_error_drops_data_witness :
  sock_error early_sent = WSAENOTCONN /\
  data_dropped early_read early_sent (exec (tcp_OnReceive Client 0) demo_begun).
Proof.
  split; [by vm_compute|].
  refine (send_error_drops_data demo_begun early_data early_read early_sent _ _ _ _ _ _); by vm_compute.
Defined.
