(* ===== verification/TcpTaskMgrSafety.v ===== *)
(** * What the TCP task manager guarantees

    Its invariant: the tasks listed are the objects there are, each of them a
    started relay in operation, with the observers told and the timers set;
    and the connections that PrepareReconnect saw are gone after the tick that
    follows CompleteReconnect. *)

From S2P Require Import Prelude Winsock SockAddr Effects ProxyLayer ProxyLayerSafety.
From S2P Require Import UdpPolicy TcpRelay TcpTask TcpRelayInv.
From S2P Require Import TcpRelayRefinement TcpTaskSafety TaskManager TcpTaskMgr TcpSockets.

(** ** A task that asks to be deleted goes on asking *)
Section Doomed.
Context {S : Type} {socket : StreamSocket S}.

Definition doomed (w : relay S) : Prop := m_bDeletePending w = true.

Lemma doomed_on s f : keeps doomed (on s f).
Proof. apply keeps_modify. intros w Hw. by destruct s. Qed.
Lemma doomed_modify f :
  (forall w, m_bDeletePending (f w) = m_bDeletePending w) -> keeps doomed (modify f).
Proof. intros H. apply keeps_modify. intros w Hw. unfold doomed. by rewrite H. Qed.
Lemma doomed_remit o : keeps doomed (remit o).
Proof. by apply doomed_modify. Qed.
Lemma doomed_PeerReceive s n : keeps doomed (PeerReceive s n).
Proof.
  intros w Hw. unfold PeerReceive, exec. destruct (negb _); [done|].
  destruct (sock_receive _ _) as [r k]. by destruct s.
Qed.
Lemma doomed_PeerSend s d : keeps doomed (PeerSend s d).
Proof.
  intros w Hw. unfold PeerSend, exec. destruct (negb _); [done|].
  destruct (sock_send _ _) as [r k]. by destruct s.
Qed.
Lemma doomed_Test s e : keeps doomed (TestSocketStatus s e).
Proof. intros w Hw. unfold TestSocketStatus, exec. by destruct (r_selects w). Qed.
Lemma doomed_Pending s : keeps doomed (PendingBytes s).
Proof. intros w Hw. unfold PendingBytes, exec. by destruct (r_ioctls w). Qed.
End Doomed.

Create HintDb doomed.
#[export] Hint Resolve doomed_on doomed_remit doomed_PeerReceive doomed_PeerSend doomed_Test doomed_Pending : doomed.
Ltac doomed_step :=
  match goal with
  | |- keeps doomed (of_peer _ _) => apply keeps_gets
  | |- keeps doomed GetLastError_ => apply keeps_gets
  | |- keeps doomed (modify (set_m_bDeletePending true)) => by apply keeps_modify
  | |- keeps doomed _ => solve [eauto with doomed nocore]
  | |- keeps doomed (modify _) => by apply doomed_modify
  | |- _ => keeps_step
  end.
Tactic Notation "dooms" := repeat doomed_step.

Section DoomedHandlers.
Context {S : Type} `{laws : SetupLaws S}.

Lemma doomed_AsyncSelect s e : keeps (doomed (S := S)) (AsyncSelect s e).
Proof. unfold AsyncSelect. dooms. Qed.
Lemma doomed_Trigger s e c : keeps (doomed (S := S)) (TriggerEvent s e c).
Proof. unfold TriggerEvent. dooms. Qed.
Lemma doomed_CloseSocket s : keeps (doomed (S := S)) (CloseSocket s).
Proof. unfold CloseSocket. dooms. Qed.
Lemma doomed_UpdateMonitor s t : keeps (doomed (S := S)) (UpdateMonitor s t).
Proof. unfold UpdateMonitor. dooms. Qed.
#[local] Hint Resolve doomed_AsyncSelect doomed_Trigger doomed_CloseSocket doomed_UpdateMonitor : doomed.

Lemma doomed_transfer s fuel : forall d n, keeps (doomed (S := S)) (transfer_loop s fuel d n).
Proof.
  induction fuel as [|fuel IH]; intros [|b d] n; cbn [transfer_loop]; dooms; apply IH.
Qed.
#[local] Hint Resolve doomed_transfer : doomed.

Lemma doomed_TransferSend s : keeps (doomed (S := S)) (TransferSend s).
Proof. unfold TransferSend. dooms. Qed.
Lemma doomed_Propagate s : keeps (doomed (S := S)) (PropagateHalfClose s).
Proof. unfold PropagateHalfClose. dooms. Qed.
Lemma doomed_TryFinish s : keeps (doomed (S := S)) (TryFinishConnection s).
Proof. unfold TryFinishConnection, tcp_OnPeerClosed. dooms. Qed.
#[local] Hint Resolve doomed_TransferSend doomed_Propagate doomed_TryFinish : doomed.

Lemma doomed_receive s fuel : forall n, keeps (doomed (S := S)) (receive_loop s fuel n).
Proof. induction fuel as [|fuel IH]; intros n; cbn [receive_loop]; dooms; apply IH. Qed.
#[local] Hint Resolve doomed_receive : doomed.

Lemma doomed_OnClose s e : keeps (doomed (S := S)) (tcp_OnClose s e).
Proof. unfold tcp_OnClose, GetValidDataLen, tcp_OnPeerClosed. dooms. Qed.
#[local] Hint Resolve doomed_OnClose : doomed.

Lemma doomed_handle ev : keeps (doomed (S := S)) (tcp_handle (S := S) ev).
Proof.
  destruct ev as [s e|s e|e|s e|s|now|s k]; cbn [tcp_handle].
  - unfold tcp_OnReceive, tcp_ClearBuffer. destruct receive_fuel_S as [fuel ->]. dooms.
  - unfold tcp_OnSend, tcp_ClearBuffer, GetValidDataLen. dooms.
  - unfold tcp_OnConnect, GetValidDataLen, change_monitor. dooms.
  - apply doomed_OnClose.
  - unfold tcp_OnTimer, IsTimedOut, tcp_ClearBuffer. dooms.
  - by apply doomed_modify.
  - apply doomed_on.
Qed.
End DoomedHandlers.

(** ** The invariant *)
Section Safety.
Context {S : Type} `{laws : SetupLaws S}.

Abbreviation KM := (M (tmanager S)).

(** The task was started and its peers are there. *)
Definition tgood (t : tcp_task S) : Prop :=
  k_peers t = true /\ exists w0, task_started w0 /\ task_steps false w0 (k_relay t).

Definition tnoted (l : list nat) (o : kmgr_output) : list nat :=
  match o with
  | KAdd t _ _ => l ++ [t]
  | KDel t _ => filter (fun i => i <> t) l
  | _ => l
  end.
Definition tknown (tr : list kmgr_output) : list nat := fold_left tnoted tr [].
#[local] Arguments tknown _ : simpl never.

Definition tfault (o : kmgr_output) : bool :=
  match o with KFault | KTask _ RFault => true | _ => false end.

Record kok (w : tmanager S) : Prop := {
  k_nodup : NoDup (t_tasklist w);
  k_heap : forall id, is_Some (t_objects w !! id) <-> id ∈ t_tasklist w;
  k_fresh : forall id, is_Some (t_objects w !! id) -> (id < t_next w)%nat;
  k_good : forall id t, t_objects w !! id = Some t -> tgood t;
  k_timers : t_tasklist w <> [] -> t_timer_task w = true /\ t_timer_alive w = true;
  k_known : tknown (t_trace w) = t_tasklist w;
  k_safe : Forall (fun o => tfault o = false) (t_trace w)
}.

Lemma tknown_dropped tr id c l :
  tknown (tr ++ [KDel id c] ++ map (KTask id) l) = filter (fun i => i <> id) (tknown tr).
Proof.
  unfold tknown. rewrite !fold_left_app. cbn. generalize (filter (fun i => i <> id) (fold_left tnoted tr [])).
  by induction l.
Qed.

Lemma kok_start : kok new_tmanager.
Proof.
  constructor; cbn; try done; try by constructor.
  - intros id. split; [by intros []|by intros ?%not_elem_of_nil].
  - by intros id [].
Qed.

(** A task in the heap, changed but still good. *)
Lemma kok_update id t t' w :
  kok w -> t_objects w !! id = Some t -> tgood t' -> kok (set_t_objects (<[id := t']> (t_objects w)) w).
Proof.
  intros [] Ht Hg. constructor; cbn; try done.
  - intros i. rewrite <- k_heap0. destruct (decide (id = i)) as [<-|Hn].
    + rewrite lookup_insert_eq, Ht. split; by eexists.
    + by rewrite lookup_insert_ne.
  - intros i Hi. apply k_fresh0. destruct (decide (id = i)) as [<-|Hn]; [by rewrite Ht; eexists|].
    by rewrite lookup_insert_ne in Hi.
  - intros i u Hu. destruct (decide (id = i)) as [<-|Hn].
    + rewrite lookup_insert_eq in Hu. by injection Hu as <-.
    + rewrite lookup_insert_ne in Hu by done. by apply (k_good0 i).
Qed.

(** ** Dropping a task: every order of the calls has this effect *)

Definition dropped (id : nat) (t : tcp_task S) (w : tmanager S) : tmanager S :=
  mkTManager (filter (fun i => i <> id) (t_tasklist w)) (delete id (t_objects w)) (t_next w)
    (t_timer_task w) (t_timer_alive w)
    (t_trace w ++ [KDel id (k_client t)] ++ map (KTask id) (r_out (k_relay (EndTask_ t)))).

Lemma End_End (t : tcp_task S) : EndTask_ (EndTask_ t) = EndTask_ t.
Proof. unfold EndTask_ at 2 3. by destruct (k_peers t) eqn:E; unfold EndTask_; cbn; rewrite ?E. Qed.

Lemma exec_on_task id f t (w : tmanager S) :
  t_objects w !! id = Some t -> exec (on_task id f) w = set_t_objects (<[id := f t]> (t_objects w)) w.
Proof. intros Ht. unfold on_task, exec, mbind, M_bind, gets. by rewrite Ht. Qed.

Lemma exec_OnDel id t (w : tmanager S) :
  t_objects w !! id = Some t -> exec (OnDelTask id) w = set_t_trace (t_trace w ++ [KDel id (k_client t)]) w.
Proof. intros Ht. unfold OnDelTask, exec, mbind, M_bind, gets. by rewrite Ht. Qed.

Lemma exec_delete id t (w : tmanager S) :
  t_objects w !! id = Some t ->
  exec (delete_object id) w = set_t_objects (delete id (t_objects w))
    (set_t_trace (t_trace w ++ map (KTask id) (r_out (k_relay (EndTask_ t)))) w).
Proof.
  intros Ht. unfold delete_object, EndTask. rewrite exec_bind, (exec_on_task id EndTask_ t w Ht).
  rewrite exec_bind. unfold of_task, eval, exec, mbind, M_bind, gets. cbn. rewrite lookup_insert_eq. cbn.
  by rewrite delete_insert_eq.
Qed.

Lemma client_End (t : tcp_task S) : k_client (EndTask_ t) = k_client t.
Proof. unfold EndTask_. by destruct (k_peers t). Qed.

Lemma exec_drop_now id t w :
  t_objects w !! id = Some t -> exec (OnDelTask id;; erase id;; delete_object id) w = dropped id t w.
Proof.
  intros Ht. rewrite !exec_bind, (exec_OnDel id t w Ht). rewrite (exec_delete id t) by done.
  unfold dropped. cbn. by rewrite <- app_assoc.
Qed.

Lemma exec_drop_ended id t w :
  t_objects w !! id = Some t ->
  exec (EndTask id;; OnDelTask id;; erase id;; delete_object id) w = dropped id t w.
Proof.
  intros Ht. unfold EndTask at 1. rewrite exec_bind, (exec_on_task id EndTask_ t w Ht).
  rewrite (exec_drop_now id (EndTask_ t)) by (cbn; apply lookup_insert_eq).
  unfold dropped. cbn. by rewrite delete_insert_eq, End_End, client_End.
Qed.

Lemma exec_drop_late id t w :
  t_objects w !! id = Some t ->
  exec (EndTask id;; OnDelTask id;; delete_object id;; erase id) w = dropped id t w.
Proof.
  intros Ht. unfold EndTask at 1. rewrite !exec_bind, (exec_on_task id EndTask_ t w Ht).
  rewrite (exec_OnDel id (EndTask_ t)) by (cbn; apply lookup_insert_eq).
  rewrite (exec_delete id (EndTask_ t)) by (cbn; apply lookup_insert_eq).
  unfold dropped. cbn. by rewrite delete_insert_eq, End_End, client_End, <- app_assoc.
Qed.

Lemma End_safe (t : tcp_task S) : tgood t -> RFault ∉ r_out (k_relay (EndTask_ t)).
Proof.
  intros [Hp (w0 & Hs & Hw)]. destruct (started_steps w0 _ (fun s => pipe_of s (k_relay t)) Hs Hw).
  unfold EndTask_. rewrite Hp. cbn [k_relay].
  assert (Hk : forall A (m : M (relay S) A), keeps (fun w => RFault ∉ r_out w) m ->
    RFault ∉ r_out (exec m (k_relay t))) by (intros A m Hm; by apply (Hm (k_relay t))).
  apply Hk. unfold tcp_EndTask, CloseSocket, of_peer.
  assert (Hr : forall o, o <> RFault -> keeps (fun w : relay S => RFault ∉ r_out w) (remit o)).
  { intros o Ho. apply keeps_modify. intros w Hw'. by apply no_fault_snoc. }
  repeat first [keeps_step | by apply Hr
    | apply keeps_modify; intros ? ?; cbn; rewrite ?set_peer_out; done].
Qed.

Lemma kok_dropped id t w : kok w -> t_objects w !! id = Some t -> kok (dropped id t w).
Proof.
  intros [] Ht. constructor; cbn.
  - by apply NoDup_filter.
  - intros i. rewrite list_elem_of_filter, <- k_heap0.
    destruct (decide (i = id)) as [->|Hn]; [rewrite lookup_delete_eq; split; [by intros []|by intros []]|].
    rewrite lookup_delete_ne by done. by split; [|intros []].
  - intros i Hi. apply k_fresh0. destruct (decide (i = id)) as [->|Hn]; [by eexists|].
    by rewrite lookup_delete_ne in Hi.
  - intros i u Hu. apply lookup_delete_Some in Hu as [_ Hu]. by apply (k_good0 i).
  - intros Hne. apply k_timers0. intros E. by rewrite E in Hne.
  - pose proof (tknown_dropped (t_trace w) id (k_client t) (r_out (k_relay (EndTask_ t)))) as E.
    cbn in E. by rewrite E, k_known0.
  - apply Forall_app. split; [done|]. constructor; [done|]. apply Forall_map, Forall_forall.
    intros o Ho. pose proof (End_safe t (k_good0 id t Ht)) as Hs. by destruct o.
Qed.

(** ** How the tasks change *)

(** The same task later: nothing marked it, and it still asks to be deleted if it did. *)
Definition follows (t t' : tcp_task S) : Prop :=
  k_client t' = k_client t /\ m_reconnectSelected t' = m_reconnectSelected t /\
  m_reconnectPending t' = m_reconnectPending t /\ (IsDeletePending t = true -> IsDeletePending t' = true).

(** Tasks go on, go away, or are new and not marked. *)
Definition evolves (w w' : tmanager S) : Prop :=
  (t_next w <= t_next w')%nat /\
  forall id t', t_objects w' !! id = Some t' ->
    (exists t, t_objects w !! id = Some t /\ follows t t') \/
    ((t_next w <= id)%nat /\ m_reconnectSelected t' = false /\ m_reconnectPending t' = false).

#[export] Instance follows_preorder : PreOrder follows.
Proof.
  split; [by intros t|]. intros a b c (E1 & E2 & E3 & E4) (F1 & F2 & F3 & F4).
  split_and!; [congruence|congruence|congruence|auto].
Qed.

#[export] Instance evolves_preorder : PreOrder evolves.
Proof.
  split.
  - intros w. split; [done|]. intros id t Ht. left. by exists t.
  - intros a b c [Hn1 H1'] [Hn2 H2']. split; [lia|]. intros id t Ht.
    destruct (H2' id t Ht) as [(u & Hu & Hf)|(Hi & Hs & Hp)]; [|right; split_and!; [lia|done|done]].
    destruct (H1' id u Hu) as [(v & Hv & Hf')|(Hi & Hs & Hp)].
    + left. exists v. split; [done|]. by etrans.
    + right. destruct Hf as (_ & E2 & E3 & _). split_and!; [done|congruence|congruence].
Qed.

Lemma evolves_update id t t' (w : tmanager S) :
  t_objects w !! id = Some t -> follows t t' -> evolves w (set_t_objects (<[id := t']> (t_objects w)) w).
Proof.
  intros Ht Hf. split; [done|]. intros i u Hu. left. cbn in Hu. destruct (decide (id = i)) as [<-|Hn].
  - rewrite lookup_insert_eq in Hu. injection Hu as <-. by exists t.
  - rewrite lookup_insert_ne in Hu by done. by exists u.
Qed.

Lemma evolves_dropped id t w : evolves w (dropped id t w).
Proof. split; [done|]. intros i u Hu. left. cbn in Hu. apply lookup_delete_Some in Hu as [_ Hu]. by exists u. Qed.

Lemma wp_of_task {A} id (d : A) f t w (Q : A -> tmanager S -> Prop) :
  t_objects w !! id = Some t -> Q (f t) w -> wp (of_task id d f) Q w.
Proof. intros Ht HQ. unfold of_task. apply wp_bind, wp_gets. rewrite Ht. by apply wp_ret. Qed.

(** ** Socket callbacks and timers of a task *)

Lemma tgood_handle ev t :
  tgood t -> may_come false ev (k_relay t) -> tgood (set_k_relay (exec (tcp_handle ev) (k_relay t)) t).
Proof. intros [Hp (w0 & Hs & Hw)] He. split; [done|]. exists w0. split; [done|]. by apply task_event. Qed.

Lemma follows_handle ev t : follows t (set_k_relay (exec (tcp_handle ev) (k_relay t)) t).
Proof. split_and!; try done. apply (doomed_handle ev (k_relay t)). Qed.

Definition quiet (w w' : tmanager S) : Prop := kok w' /\ evolves w w'.

Lemma in_relay_quiet id ev t w :
  kok w -> t_objects w !! id = Some t -> may_come false ev (k_relay t) ->
  quiet w (exec (in_relay id (tcp_handle ev)) w).
Proof.
  intros Hw Ht He. unfold in_relay. rewrite (exec_on_task id _ t w Ht). split.
  - apply (kok_update id t); [done|done|].
    by apply tgood_handle; [apply (k_good w Hw id)|].
  - by apply (evolves_update id t); [|apply follows_handle].
Qed.

Lemma wp_peer_timer id s t w (Q : unit -> tmanager S -> Prop) :
  kok w -> t_objects w !! id = Some t ->
  (forall t', kok (set_t_objects (<[id := t']> (t_objects w)) w) -> follows t t' ->
     Q tt (set_t_objects (<[id := t']> (t_objects w)) w)) ->
  wp (peer_timer id s) Q w.
Proof.
  intros Hw Ht HQ. unfold peer_timer. apply wp_bind, (wp_of_task id false _ t); [done|].
  apply wp_when; intros _.
  - apply (wp_mono _ (fun _ => Q tt)); [|by intros []]. apply wp_exec. unfold in_relay.
    rewrite (exec_on_task id _ t w Ht). apply HQ; [|apply (follows_handle (TTimer s))].
    apply (kok_update id t); [done|done|].
    by apply (tgood_handle (TTimer s)); [apply (k_good w Hw id)|].
  - specialize (HQ t). rewrite insert_id in HQ by done. destruct w. by apply HQ.
Qed.

Lemma kok_KillTimers w : kok w -> t_tasklist w = [] -> kok (set_t_timers false w).
Proof. intros [] Hl. by constructor. Qed.

(** What a tick leaves: no task marked for a new connection, or asking to be deleted. *)
Lemma wp_tcp_tick w :
  kok w ->
  wp OnTimer_task (fun _ w' => quiet w w' /\
    (forall id t, t_objects w' !! id = Some t -> m_reconnectPending t = false /\ IsDeletePending t = false) /\
    (t_tasklist w' = [] -> t_timer_task w' = false /\ t_timer_alive w' = false)) w.
Proof.
  intros Hw. unfold OnTimer_task. apply wp_bind, wp_gets, wp_bind.
  apply (wp_pass (quiet w) t_tasklist (fun w id => t_objects w !! id)
    (fun w' H' => k_nodup w' (proj1 H')) (fun w' H' => k_heap w' (proj1 H'))
    (fun _ t => m_reconnectPending t = false /\ IsDeletePending t = false)); [by split| |].
  - intros id w1 [K1 E1] Hid. pose proof (proj2 (k_heap w1 K1 id) Hid) as [t Ht].
    assert (Hdrop : quiet w (dropped id t w1) /\
      (forall i, i <> id -> t_objects (dropped id t w1) !! i = t_objects w1 !! i) /\
      (forall u, t_objects (dropped id t w1) !! id = Some u -> m_reconnectPending u = false /\ IsDeletePending u = false)).
    { split; [split; [by apply kok_dropped|etrans; [exact E1|apply evolves_dropped]]|]. cbn. split.
      - intros i Hi. by apply lookup_delete_ne.
      - intros u Hu. by rewrite lookup_delete_eq in Hu. }
    apply wp_bind, (wp_of_task id false _ t); [done|]. apply wp_if; intros Hpend.
    { apply wp_exec. by rewrite (exec_drop_ended id t w1 Ht). }
    clear Hdrop. apply wp_bind, (wp_peer_timer id Client t w1 _ K1 Ht). intros t2 K2 F2.
    set (w2 := set_t_objects _ w1) in *.
    assert (Ht2 : t_objects w2 !! id = Some t2) by (cbn; apply lookup_insert_eq).
    apply wp_bind, (wp_peer_timer id Server t2 w2 _ K2 Ht2). intros t3 K3 F3.
    set (w3 := set_t_objects _ w2) in *.
    assert (Ht3 : t_objects w3 !! id = Some t3) by (cbn; apply lookup_insert_eq).
    assert (Q3 : quiet w w3).
    { split; [done|]. etrans; [exact E1|]. etrans; [by apply (evolves_update id t t2)|].
      by apply (evolves_update id t2 t3). }
    assert (Hoth : forall i, i <> id -> t_objects w3 !! i = t_objects w1 !! i).
    { intros i Hi. cbn. by rewrite !lookup_insert_ne. }
    apply wp_bind, (wp_of_task id false _ t3); [done|]. apply wp_when; intros Hgone.
    + apply wp_exec. rewrite (exec_drop_now id t3 w3 Ht3).
      split; [split; [by apply kok_dropped|etrans; [apply Q3|apply evolves_dropped]]|]. split.
      * intros i Hi. cbn [dropped t_objects]. by rewrite lookup_delete_ne, Hoth.
      * intros u Hu. cbn in Hu. by rewrite lookup_delete_eq in Hu.
    + split; [done|]. split; [done|]. intros u Hu. rewrite Ht3 in Hu. injection Hu as <-.
      split; [|done]. destruct F2 as (_ & _ & P2 & _), F3 as (_ & _ & P3 & _). congruence.
  - intros w1 [K1 E1] Hg. apply wp_bind, wp_gets, wp_when; intros Hl.
    + apply bool_decide_eq_true in Hl. apply wp_modify. split; [split; [by apply kok_KillTimers|done]|]. by split.
    + apply bool_decide_eq_false in Hl. by split; [split|].
Qed.

Definition runs (os : Z -> process_query) (t : tcp_task S) : bool :=
  TestTaskByPid (os (dwPid (k_client t))) (processCreateTime (k_client t)).

Lemma wp_tcp_alive os w :
  kok w ->
  wp (OnTimer_alive os) (fun _ w' => quiet w w' /\
    (forall id t, t_objects w' !! id = Some t -> runs os t = true)) w.
Proof.
  intros Hw. unfold OnTimer_alive. apply wp_bind, wp_gets.
  apply (wp_pass (quiet w) t_tasklist (fun w id => t_objects w !! id)
    (fun w' H' => k_nodup w' (proj1 H')) (fun w' H' => k_heap w' (proj1 H'))
    (fun _ t => runs os t = true)); [by split| |by intros w' Q' Hg; split].
  intros id w1 [K1 E1] Hid. pose proof (proj2 (k_heap w1 K1 id) Hid) as [t Ht].
  apply wp_bind, (wp_of_task id true _ t); [done|]. apply wp_when; intros Hr.
  - apply wp_exec. rewrite (exec_drop_late id t w1 Ht).
    split; [split; [by apply kok_dropped|etrans; [exact E1|apply evolves_dropped]]|]. split.
    + intros i Hi. cbn. by apply lookup_delete_ne.
    + intros u Hu. cbn in Hu. by rewrite lookup_delete_eq in Hu.
  - split; [done|]. split; [done|]. intros u Hu. rewrite Ht in Hu. injection Hu as <-.
    by apply negb_false_iff in Hr.
Qed.

(** ** Starting and removing tasks *)

Lemma OnNewTask_quiet k c p now blank tap selects ioctls w :
  kok w -> sane k -> sane blank ->
  quiet w (exec (OnNewTask k c p now blank tap selects ioctls) w).
Proof.
  intros Hw Hk Hb. pose proof Hw as []. unfold OnNewTask.
  destruct (tcp_SetTaskInfo _ _ _ _) as [[ok stage] r] eqn:Er. destruct ok; cbn [negb]; [|by split].
  assert (Hg : tgood (mkTcpTask c p r true false false)).
  { split; [done|]. exists r. split; [|constructor]. by exists now, blank, k, tap, selects, ioctls, c, p, stage. }
  assert (Hfresh : t_objects w !! t_next w = None).
  { destruct (t_objects w !! t_next w) eqn:E; [|done]. specialize (k_fresh0 _ ltac:(by eexists)). lia. }
  assert (Hid : t_next w ∉ t_tasklist w).
  { intros Hin. apply k_heap0 in Hin. rewrite Hfresh in Hin. by destruct Hin. }
  set (w' := exec _ w).
  assert (Ew : exists b1 b2, w' = mkTManager (t_tasklist w ++ [t_next w])
      (<[t_next w := mkTcpTask c p r true false false]> (t_objects w)) (t_next w + 1)%nat b1 b2
      (t_trace w ++ [KAdd (t_next w) c p]) /\ b1 = true /\ b2 = true).
  { unfold w', exec, OnAddTask, kemit, when, SetTimers, mbind, M_bind, gets, modify, mret, M_ret. cbn.
    destruct (bool_decide (t_tasklist w = [])) eqn:El; cbn.
    - by exists true, true.
    - apply bool_decide_eq_false in El. destruct (k_timers0 El). eexists _, _. split; [done|done]. }
  destruct Ew as (b1 & b2 & -> & -> & ->). split.
  - constructor; cbn; try done.
    + apply NoDup_app. split; [done|]. split; [|apply NoDup_singleton].
      intros i Hi Hi'. apply list_elem_of_singleton in Hi' as ->. done.
    + intros i. rewrite elem_of_app, list_elem_of_singleton, <- k_heap0.
      destruct (decide (t_next w = i)) as [<-|Hn].
      * rewrite lookup_insert_eq. split; [by right|by eexists].
      * rewrite lookup_insert_ne by done. split; [by left|]. intros [?|?]; congruence.
    + intros i Hi. destruct (decide (t_next w = i)) as [<-|Hn]; [lia|].
      rewrite lookup_insert_ne in Hi by done. specialize (k_fresh0 i Hi). lia.
    + intros i u Hu. destruct (decide (t_next w = i)) as [<-|Hn].
      * rewrite lookup_insert_eq in Hu. by injection Hu as <-.
      * rewrite lookup_insert_ne in Hu by done. by apply (k_good0 i).
    + unfold tknown. rewrite fold_left_app. cbn. by f_equal.
    + apply Forall_app. split; [done|by constructor].
  - split; cbn; [lia|]. intros i u Hu. destruct (decide (t_next w = i)) as [<-|Hn].
    + rewrite lookup_insert_eq in Hu. injection Hu as <-. by right.
    + rewrite lookup_insert_ne in Hu by done. left. by exists u.
Qed.

Lemma OnDeleteTask_quiet id w : kok w -> id ∈ t_tasklist w -> quiet w (exec (OnDeleteTask id) w).
Proof.
  intros Hw Hid. pose proof (proj2 (k_heap w Hw id) Hid) as [t Ht].
  pose proof (kok_dropped id t w Hw Ht) as Hd. set (w' := exec _ w).
  assert (E : w' = dropped id t w \/ (w' = set_t_timers false (dropped id t w) /\ t_tasklist (dropped id t w) = [])).
  { unfold w', OnDeleteTask. rewrite !exec_bind, (exec_OnDel id t w Ht).
    match goal with |- context[exec (when ?b KillTimers) ?x] => set (w1 := x); destruct b eqn:El end.
    - right. split; [|by apply bool_decide_eq_true in El]. cbn [when].
      rewrite (exec_delete id t) by done. unfold dropped, set_t_timers. cbn. by rewrite <- app_assoc.
    - left. cbn [when]. rewrite (exec_delete id t) by done. unfold dropped. cbn. by rewrite <- app_assoc. }
  destruct E as [->|[-> El]].
  - split; [done|apply evolves_dropped].
  - split; [by apply kok_KillTimers|]. etrans; [apply (evolves_dropped id t)|]. split; [done|].
    intros i u Hu. left. by exists u.
Qed.

Lemma RemoveAll_quiet w : kok w -> quiet w (exec RemoveAllTasks w) /\
  t_tasklist (exec RemoveAllTasks w) = [] /\ t_objects (exec RemoveAllTasks w) = ∅.
Proof.
  intros Hw. apply wp_exec. unfold RemoveAllTasks. apply wp_bind, wp_gets, wp_bind.
  eapply wp_mono; [apply (wp_walk (fun l w' => quiet w (set_t_tasklist l w')))|].
  - split; [by destruct w|]. by destruct w.
  - intros id l w1 [K1 E1].
    assert (Hid : id ∈ t_tasklist (set_t_tasklist (id :: l) w1)) by (cbn; by left).
    pose proof (proj2 (k_heap _ K1 id) Hid) as [t Ht]. cbn in Ht.
    pose proof (kok_dropped id t _ K1 Ht) as Kd. pose proof (k_nodup _ K1) as Hnd. cbn in Hnd.
    apply NoDup_cons in Hnd as [Hn _].
    assert (Ef : filter (fun i => i <> id) (id :: l) = l).
    { rewrite filter_cons_False by (intros Hx; by apply Hx). clear -Hn. induction l as [|x l IH]; [done|].
      apply not_elem_of_cons in Hn as [? ?]. rewrite filter_cons_True by done. by rewrite IH. }
    assert (Ew : set_t_tasklist l (exec (EndTask id;; OnDelTask id;; delete_object id) w1)
      = dropped id t (set_t_tasklist (id :: l) w1)).
    { unfold EndTask at 1. rewrite !exec_bind, (exec_on_task id EndTask_ t w1 Ht).
      rewrite (exec_OnDel id (EndTask_ t)) by (cbn; apply lookup_insert_eq).
      rewrite (exec_delete id (EndTask_ t)) by (cbn; apply lookup_insert_eq).
      unfold dropped. cbn [set_t_tasklist set_t_objects set_t_trace t_tasklist t_objects t_next
        t_timer_task t_timer_alive t_trace].
      by rewrite Ef, delete_insert_eq, End_End, client_End, <- app_assoc. }
    apply wp_exec. rewrite Ew. split; [done|]. etrans; [exact E1|]. apply evolves_dropped.
  - intros [] w1 [K1 E1]. apply wp_modify. split; [by split|]. split; [done|]. cbn.
    apply map_empty. intros i. destruct (t_objects w1 !! i) as [t|] eqn:E; [|done].
    assert (Hi : i ∈ t_tasklist (set_t_tasklist [] w1)) by (apply (k_heap _ K1); by eexists).
    by apply not_elem_of_nil in Hi.
Qed.

(** ** Making the connections again *)

Definition marking (f : tcp_task S -> tcp_task S) : Prop := forall t,
  k_client (f t) = k_client t /\ k_peers (f t) = k_peers t /\ k_relay (f t) = k_relay t.

Lemma kok_mark f id t w : marking f -> kok w -> t_objects w !! id = Some t -> kok (exec (on_task id f) w).
Proof.
  intros Hf Hw Ht. rewrite (exec_on_task id f t w Ht). apply (kok_update id t); [done|done|].
  destruct (k_good w Hw id t Ht) as [Hp Hr], (Hf t) as (_ & E2 & E3). split; [congruence|by rewrite E3].
Qed.

Definition lookups (w : tmanager S) (l : list nat) : list (tcp_task S) := omap (fun id => t_objects w !! id) l.
Definition choose (t : tcp_task S) : tcp_task S := set_reconnect (selectable t) (m_reconnectPending t) t.

Lemma wp_select_loop l w :
  kok w -> NoDup l -> (forall x, x ∈ l -> x ∈ t_tasklist w) ->
  wp (select_loop l) (fun n w' =>
    n = u32 (Z.of_nat (length (filter (fun t => selectable t = true) (lookups w l)))) /\
    kok w' /\ t_next w' = t_next w /\
    forall i, t_objects w' !! i = (if decide (i ∈ l) then choose <$> t_objects w !! i else t_objects w !! i)) w.
Proof.
  revert w. induction l as [|id l IH]; intros w Hw Hnd Hl; cbn [select_loop].
  { apply wp_ret. split_and!; try done. }
  apply NoDup_cons in Hnd as [Hn Hnd]. pose proof (proj2 (k_heap w Hw id) (Hl id ltac:(by left))) as [t Ht].
  apply wp_bind. apply wp_exec.
  pose proof (kok_mark choose id t w ltac:(done) Hw Ht) as K1. fold choose.
  rewrite (exec_on_task id choose t w Ht) in K1 |- *. set (w1 := set_t_objects _ w) in *.
  apply wp_bind, (wp_of_task id false _ (choose t)); [cbn; apply lookup_insert_eq|].
  apply wp_bind. eapply wp_mono; [apply (IH w1 K1 Hnd)|].
  { intros x Hx. apply (Hl x). by right. }
  intros n w2 (-> & K2 & En & Ho). apply wp_ret.
  assert (El : lookups w1 l = lookups w l).
  { unfold lookups. clear -Hn. induction l as [|x l IH]; [done|]. apply not_elem_of_cons in Hn as [? ?].
    assert (Ex : t_objects w1 !! x = t_objects w !! x) by (cbn; by rewrite lookup_insert_ne).
    cbn [omap list_omap]. by rewrite Ex, IH. }
  split_and!; [|done|done|].
  - change (lookups w (id :: l)) with
      (match t_objects w !! id with Some y => y :: lookups w l | None => lookups w l end).
    rewrite Ht, El.
    change (m_reconnectSelected (choose t)) with (selectable t). rewrite filter_cons.
    destruct (selectable t); [rewrite decide_True by done|by rewrite decide_False].
    cbn [length]. rewrite Nat2Z.inj_succ. unfold u32. rewrite Zplus_mod_idemp_l. f_equal.
  - intros i. rewrite Ho. unfold w1. cbn. destruct (decide (i = id)) as [->|Hi].
    + rewrite decide_False by done. rewrite decide_True by by left. by rewrite lookup_insert_eq, Ht.
    + rewrite lookup_insert_ne by done. destruct (decide (i ∈ l)) as [Hin|Hin].
      * rewrite decide_True; [done|]. by right.
      * rewrite decide_False; [done|]. by apply not_elem_of_cons.
Qed.

Definition commit (disconnect : bool) (t : tcp_task S) : tcp_task S :=
  set_reconnect false (m_reconnectPending t || (m_reconnectSelected t && disconnect)) t.

Lemma wp_Complete b w :
  kok w ->
  wp (CompleteReconnect b) (fun _ w' => kok w' /\ t_next w' = t_next w /\
    forall i, t_objects w' !! i = commit b <$> t_objects w !! i) w.
Proof.
  intros Hw. unfold CompleteReconnect. apply wp_bind, wp_gets.
  set (J := fun l w' => kok w' /\ NoDup l /\ t_tasklist w' = t_tasklist w /\ t_next w' = t_next w /\
    (forall x, x ∈ l -> x ∈ t_tasklist w) /\
    forall i, t_objects w' !! i = (if decide (i ∈ l) then t_objects w !! i else commit b <$> t_objects w !! i)).
  eapply wp_mono; [apply (wp_walk J)|].
  - split_and!; try done; first by apply k_nodup.
    intros i. case_decide as Hi; [done|].
    destruct (t_objects w !! i) eqn:E; [|done]. destruct Hi. apply (k_heap w Hw). by eexists.
  - intros id l w1 (K1 & Hnd & El & En & Hl & Ho). apply NoDup_cons in Hnd as [Hn Hnd].
    pose proof (proj2 (k_heap w1 K1 id)) as Hid. rewrite El in Hid.
    destruct (Hid (Hl id ltac:(by left))) as [t Ht].
    apply wp_exec. fold (commit b). pose proof (kok_mark (commit b) id t w1 ltac:(done) K1 Ht) as K2.
    rewrite (exec_on_task id (commit b) t w1 Ht) in K2 |- *. split_and!; try done.
    + intros x Hx. apply Hl. by right.
    + intros i. cbn. destruct (decide (i = id)) as [->|Hi].
      * rewrite lookup_insert_eq, decide_False by done. rewrite Ho, decide_True in Ht by by left. by rewrite Ht.
      * rewrite lookup_insert_ne, Ho by done. destruct (decide (i ∈ l)) as [Hin|Hin].
        -- by rewrite decide_True by by right.
        -- by rewrite decide_False by by apply not_elem_of_cons.
  - intros [] w' (K1 & _ & _ & En & _ & Ho). by split_and!.
Qed.

(** ** Runs of the manager *)

Inductive kevent :=
  | KNew (k : S) (c : PRCClient) (p : ProxyInfo) (now : Z) (blank : S) (tap : bool)
      (selects : list Z) (ioctls : list (option Z))
  | KCallback (id : nat) (ev : tcp_event S)   (* a socket of a task calls back *)
  | KRemove (id : nat)
  | KShutdown
  | KTimer
  | KAlive (os : Z -> process_query)
  | KPrepare
  | KComplete (disconnect : bool).

Definition khandle (e : kevent) : KM unit :=
  match e with
  | KNew k c p now blank tap selects ioctls => OnNewTask k c p now blank tap selects ioctls;; mret tt
  | KCallback id ev => in_relay id (tcp_handle ev)
  | KRemove id => OnDeleteTask id
  | KShutdown => RemoveAllTasks
  | KTimer => OnTimer_task
  | KAlive os => OnTimer_alive os
  | KPrepare => PrepareReconnect;; mret tt
  | KComplete b => CompleteReconnect b
  end.

Definition kallowed (e : kevent) (w : tmanager S) : Prop :=
  match e with
  | KNew k _ _ _ blank _ _ _ => sane k /\ sane blank
  | KCallback id ev => exists t, t_objects w !! id = Some t /\ may_come false ev (k_relay t)
  | KRemove id => id ∈ t_tasklist w
  | _ => True
  end.

(** The network goes on; no reconnect is prepared or completed. *)
Definition ordinary (e : kevent) : bool :=
  match e with KPrepare | KComplete _ => false | _ => true end.

Inductive kreachable : tmanager S -> Prop :=
  | kreach_start : kreachable new_tmanager
  | kreach_step w e : kreachable w -> kallowed e w -> kreachable (exec (khandle e) w).

Inductive goes_on (w : tmanager S) : tmanager S -> Prop :=
  | goes_refl : goes_on w w
  | goes_step w' e : goes_on w w' -> ordinary e = true -> kallowed e w' -> goes_on w (exec (khandle e) w').

Lemma ordinary_quiet e w : kok w -> kallowed e w -> ordinary e = true -> quiet w (exec (khandle e) w).
Proof.
  intros Hw Ha Ho. destruct e as [k c p now blank tap sel ioc|id ev|id| | |os| |b]; cbn [khandle]; try done.
  - rewrite exec_bind. cbn. destruct Ha. by apply OnNewTask_quiet.
  - destruct Ha as (t & Ht & Hm). by apply (in_relay_quiet id ev t).
  - by apply OnDeleteTask_quiet.
  - by apply RemoveAll_quiet.
  - apply wp_exec. eapply wp_mono; [by apply wp_tcp_tick|]. by intros [] w' [? _].
  - apply wp_exec. eapply wp_mono; [by apply wp_tcp_alive|]. by intros [] w' [? _].
Qed.

Lemma wp_Prepare w :
  kok w -> wp PrepareReconnect (fun n w' =>
    n = u32 (Z.of_nat (length (filter (fun t => selectable t = true) (lookups w (t_tasklist w))))) /\
    kok w' /\ t_next w' = t_next w /\ forall i, t_objects w' !! i = choose <$> t_objects w !! i) w.
Proof.
  intros Hw. unfold PrepareReconnect. apply wp_bind, wp_gets.
  eapply wp_mono; [by apply wp_select_loop; [|apply k_nodup|]|]. intros n w' (En & K & Ex & Ho).
  split_and!; try done. intros i. rewrite Ho. case_decide as Hi; [done|].
  destruct (t_objects w !! i) eqn:E; [|done]. destruct Hi. apply (k_heap w Hw). by eexists.
Qed.

Lemma kreachable_ok w : kreachable w -> kok w.
Proof.
  induction 1 as [|w e Hw IH Ha]; [apply kok_start|].
  destruct (ordinary e) eqn:Eo; [by apply ordinary_quiet|]. destruct e; try done; cbn [khandle].
  - apply wp_exec, wp_bind. eapply wp_mono; [by apply wp_Prepare|]. intros n w' (_ & K & _). by apply wp_ret.
  - apply wp_exec. eapply wp_mono; [by apply wp_Complete|]. by intros [] w' [K _].
Qed.

Lemma goes_on_quiet w w' : kok w -> goes_on w w' -> quiet w w'.
Proof.
  intros Hw. induction 1 as [|w' e Hg [K E] Ho Ha]; [by split|].
  destruct (ordinary_quiet e w' K Ha Ho) as [K' E']. split; [done|]. by etrans.
Qed.

(** ** The properties *)

(** C25: The TCP task manager manages its memory, and runs only tasks in
    order.  After any sequence of connections, socket callbacks, deletions,
    stops, timer ticks and reconnects: no deleted task was used and no task
    ran out of bounds; the task objects in memory are exactly the tasks
    listed, each once, and the observers were told of exactly those; both
    timers run while a task is listed; and each listed task was started and
    only took steps of a TCP task. *)
Theorem tcp_manager_safe (w : tmanager S) :
  kreachable w ->
  (KFault ∉ t_trace w /\ forall id, KTask id RFault ∉ t_trace w) /\
  NoDup (t_tasklist w) /\ (forall id, is_Some (t_objects w !! id) <-> id ∈ t_tasklist w) /\
  tknown (t_trace w) = t_tasklist w /\
  (t_tasklist w <> [] -> t_timer_task w = true /\ t_timer_alive w = true) /\
  forall id t, t_objects w !! id = Some t ->
    exists w0, task_started w0 /\ task_steps false w0 (k_relay t).
Proof.
  intros Hw. destruct (kreachable_ok w Hw). rewrite Forall_forall in k_safe0. split_and!; try done.
  - intros Hf. by specialize (k_safe0 _ Hf).
  - intros id Hf. by specialize (k_safe0 _ Hf).
  - intros id t Ht. by destruct (k_good0 id t Ht).
Qed.

(** Reconnecting tears down exactly the connections there were.
    PrepareReconnect counts the tasks that are not on their way out.  When
    CompleteReconnect commits, whatever the network did in between and
    afterwards, the next tick of the maintenance timer has deleted every task
    there was at PrepareReconnect, while a connection accepted since then is
    not marked; when it cancels, no task that was not marked before is. *)
Theorem reconnect_tears_down (w w2 w4 : tmanager S) :
  kreachable w ->
  goes_on (exec PrepareReconnect w) w2 ->
  goes_on (exec (CompleteReconnect true) w2) w4 ->
  eval PrepareReconnect w
    = u32 (Z.of_nat (length (filter (fun t => selectable t = true) (lookups w (t_tasklist w))))) /\
  (forall id, id ∈ t_tasklist w -> id ∉ t_tasklist (exec OnTimer_task w4)) /\
  (forall id t, id ∉ t_tasklist w -> t_objects w4 !! id = Some t ->
     m_reconnectPending t = false) /\
  (forall id t, t_objects (exec (CompleteReconnect false) w2) !! id = Some t ->
     (exists t0, t_objects w2 !! id = Some t0 /\ m_reconnectPending t = m_reconnectPending t0) /\
     m_reconnectSelected t = false).
Proof.
  intros Hw H12 H34. apply kreachable_ok in Hw.
  pose proof (wp_Prepare w Hw) as HP. unfold wp in HP. unfold eval. unfold exec at 1 in H12.
  destruct (PrepareReconnect w) as [n w1]. cbn [fst snd] in *. destruct HP as (-> & K1 & N1 & O1).
  destruct (goes_on_quiet w1 w2 K1 H12) as [K2 [N2 O2]].
  pose proof (proj1 (wp_exec _ _ _) (wp_Complete true w2 K2)) as (K3 & N3 & O3).
  set (w3 := exec (CompleteReconnect true) w2) in *.
  destruct (goes_on_quiet w3 w4 K3 H34) as [K4 [N4 O4]].
  pose proof (proj1 (wp_exec _ _ _) (wp_tcp_tick w4 K4)) as ([K5 [N5 O5]] & Hgone & _).
  set (w5 := exec OnTimer_task w4) in *.
  (* a task of w4 that is older than the prepare is marked or goes anyway *)
  assert (Hold : forall id t, (id < t_next w)%nat -> t_objects w4 !! id = Some t ->
    m_reconnectPending t = true \/ IsDeletePending t = true).
  { intros id t Hid Ht. destruct (O4 id t Ht) as [(t3 & Ht3 & _ & _ & F3 & G3)|[Hn _]]; [|lia].
    rewrite O3 in Ht3. apply fmap_Some in Ht3 as (t2 & Ht2 & ->).
    destruct (O2 id t2 Ht2) as [(t1 & Ht1 & _ & F2 & E2 & G2)|[Hn _]]; [|lia].
    rewrite O1 in Ht1. apply fmap_Some in Ht1 as (t0 & Ht0 & ->).
    cbn in F2, E2, F3. change (IsDeletePending (commit true t2)) with (IsDeletePending t2) in G3.
    change (IsDeletePending (choose t0)) with (IsDeletePending t0) in G2.
    rewrite F3, E2, F2. unfold selectable.
    destruct (m_reconnectPending t0), (IsDeletePending t0) eqn:Ed; cbn; auto. }
  assert (Hlt : forall id, id ∈ t_tasklist w -> (id < t_next w)%nat).
  { intros id Hid. by apply (k_fresh w Hw), (k_heap w Hw). }
  split; [done|]. split; [|split].
  - intros id Hid Hin. apply (k_heap w5 K5) in Hin as [t5 Ht5]. destruct (Hgone id t5 Ht5) as [Hp Hd].
    destruct (O5 id t5 Ht5) as [(t4 & Ht4 & _ & _ & F5 & G5)|[Hn _]]; [|specialize (Hlt id Hid); lia].
    destruct (Hold id t4 (Hlt id Hid) Ht4) as [Hq|Hq]; [congruence|]. rewrite G5 in Hd by done. done.
  - intros id t Hid Ht. destruct (O4 id t Ht) as [(t3 & Ht3 & _ & _ & F3 & _)|(_ & _ & ?)]; [|done].
    rewrite O3 in Ht3. apply fmap_Some in Ht3 as (t2 & Ht2 & ->).
    destruct (O2 id t2 Ht2) as [(t1 & Ht1 & _)|(_ & Es & Ep)].
    + rewrite O1 in Ht1. apply fmap_Some in Ht1 as (t0 & Ht0 & ->). destruct Hid. apply (k_heap w Hw). by eexists.
    + rewrite F3. cbn. by rewrite Es, Ep.
  - pose proof (proj1 (wp_exec _ _ _) (wp_Complete false w2 K2)) as (_ & _ & O3').
    intros id t Ht. rewrite O3' in Ht. apply fmap_Some in Ht as (t0 & Ht0 & ->). split; [|done].
    exists t0. split; [done|]. cbn. by rewrite andb_false_r, orb_false_r.
Qed.
End Safety.

(** ** A manager with a connection, which is made again *)

#[local] Instance demo_platform : Platform := test_platform.

Definition demo_new : kevent (S := world) :=
  KNew demo_app demo_client demo_proxy 0 demo_blank false [0; 0; 1; 1; 1] [Some 0].
Definition one_task : tmanager world := exec (khandle demo_new) new_tmanager.
Definition two_tasks : tmanager world := exec (khandle demo_new) (exec PrepareReconnect one_task).
Definition committed : tmanager world := exec (CompleteReconnect true) two_tasks.

Lemma demo_sane : sane demo_app /\ sane demo_blank.
Proof. split; sane_solve. Qed.

Lemma one_task_reachable : kreachable one_task.
Proof. apply (kreach_step new_tmanager demo_new); [constructor|apply demo_sane]. Qed.

Lemma tcp_manager_safe_witness :
  t_tasklist one_task = [0%nat] /\ tknown (t_trace one_task) = [0%nat] /\ t_timer_task one_task = true.
Proof.
  assert (Hl : t_tasklist one_task = [0%nat]) by by vm_compute.
  pose proof (tcp_manager_safe one_task one_task_reachable) as (_ & _ & _ & Hk & Ht & _).
  split; [exact Hl|]. split; [by rewrite Hk|]. apply Ht. by rewrite Hl.
Defined.

Lemma two_tasks_on : goes_on (exec PrepareReconnect one_task) two_tasks.
Proof. unfold two_tasks. refine (goes_step _ _ demo_new (goes_refl _) eq_refl demo_sane). Qed.
Lemma committed_on : goes_on (exec (CompleteReconnect true) two_tasks) committed.
Proof. unfold committed. apply goes_refl. Qed.

(** The first connection goes, the one made meanwhile stays. *)
Lemma reconnect_tears_down_witness :
  eval PrepareReconnect one_task = 1 /\ (0%nat ∉ t_tasklist (exec OnTimer_task committed)) /\
  t_tasklist (exec OnTimer_task committed) = [1%nat].
Proof.
  pose proof (reconnect_tears_down one_task two_tasks committed one_task_reachable) as Hr.
  destruct (Hr two_tasks_on committed_on) as (_ & H2 & _).
  split; [by vm_compute|]. split; [apply H2; vm_compute; by left|by vm_compute].
Defined.
