(* ===== verification/OrderedMap.v ===== *)
(** * Maps in iteration order

    A [std::map] keyed by integers is walked by increasing key. *)

From stdpp Require Import sorting.
From S2P Require Import Prelude.

Definition sorted {A} (m : gmap Z A) : list (Z * A) :=
  omap (fun k => pair k <$> m !! k) (merge_sort Z.le (elements (dom m))).

Section Sorted.
Context {A : Type}.
Implicit Types m : gmap Z A.

Lemma sorted_spec m k e : (k, e) ∈ sorted m <-> m !! k = Some e.
Proof.
  unfold sorted. rewrite list_elem_of_omap. setoid_rewrite merge_sort_Permutation.
  setoid_rewrite elem_of_elements. split.
  - intros (k' & _ & H). destruct (m !! k') eqn:E; [|done]. by injection H as <- <-.
  - intros H. exists k. split; [by apply elem_of_dom_2 in H|by rewrite H].
Qed.

Lemma sorted_fst m : map fst (sorted m) = merge_sort Z.le (elements (dom m)).
Proof.
  unfold sorted.
  assert (H : forall k, k ∈ merge_sort Z.le (elements (dom m)) -> is_Some (m !! k)).
  { intros k. rewrite merge_sort_Permutation, elem_of_elements. apply elem_of_dom. }
  induction (merge_sort Z.le (elements (dom m))) as [|k l IH]; [done|].
  simpl. destruct (H k) as [e ->]; [by left|]. simpl. f_equal. apply IH. intros. apply H. by right.
Qed.

Lemma sorted_NoDup m : NoDup (map fst (sorted m)).
Proof. rewrite sorted_fst, merge_sort_Permutation. apply NoDup_elements. Qed.

Lemma sorted_order m : Sorted Z.le (map fst (sorted m)).
Proof. rewrite sorted_fst. apply (Sorted_merge_sort Z.le). Qed.

Lemma list_to_map_sorted m : list_to_map (sorted m) = m.
Proof.
  apply map_eq. intros k. apply option_eq. intros e.
  rewrite <- elem_of_list_to_map by apply sorted_NoDup. apply sorted_spec.
Qed.
End Sorted.
