(* ===== verification/ProcessIdentity.v ===== *)
(** * Process snapshots (ProcessIdentity.h)

    [ReadSnapshot] walks the linked records that NtQuerySystemInformation left
    in a buffer; [QuerySnapshot] grows the buffer until the system call fits.
    Every read of the buffer is a checked [load]: a read outside it is the
    outcome [Fault].  [size_t] and [ULONG_PTR] wrap at the pointer width, which
    is a parameter: the two builds differ in the record layout. *)

From S2P Require Import Prelude.

(** ** The two record layouts *)

Inductive Width := W32 | W64.

#[global] Instance Width_eq_dec : EqDecision Width.
Proof. solve_decision. Defined.

Definition uptr (w : Width) (z : Z) : Z :=
  match w with W32 => u32 z | W64 => u64 z end.
Definition ptr_bytes (w : Width) : nat := match w with W32 => 4 | W64 => 8 end.
Definition ptr_limit (w : Width) : Z := 256 ^ Z.of_nat (ptr_bytes w).

(** Field offsets of [SystemProcessPrefix] and its size. *)
Definition off_createTime : nat := 32.
Definition off_imageLength : nat := 56.
Definition off_imageMaximumLength : nat := 58.
Definition off_imageBuffer (w : Width) : nat := match w with W32 => 60 | W64 => 64 end.
Definition off_processId (w : Width) : nat := match w with W32 => 68 | W64 => 80 end.
Definition off_parentProcessId (w : Width) : nat := match w with W32 => 72 | W64 => 88 end.
Definition off_sessionId (w : Width) : nat := match w with W32 => 80 | W64 => 100 end.
Definition sizeof_SystemProcessPrefix (w : Width) : Z :=
  match w with W32 => 88 | W64 => 104 end.

Record SystemProcessPrefix := mkSystemProcessPrefix {
  nextEntryOffset : Z;
  createTime : Z;              (* LARGE_INTEGER.QuadPart, signed *)
  imageLength : Z;
  imageMaximumLength : Z;
  imageBuffer : Z;
  entry_processId : Z;
  entry_parentProcessId : Z;
  entry_sessionId : Z
}.

Record Process := mkProcess {
  pid : Z;
  parentPid : Z;
  creationTime : Z;
  pname : list Z;              (* UTF-16 units *)
  sessionId : Z
}.

Record Snapshot := mkSnapshot {
  complete : bool;
  processes : list Process;
  creationTimes : gmap Z Z
}.

Definition empty_snapshot : Snapshot := mkSnapshot false [] ∅.

Definition MAX_PATH : nat := 260.
Definition MAXDWORD : Z := 4294967295.
Definition PROCESS_HOOK_STATE_PENDING : Z := 0.
Definition PROCESS_HOOK_STATE_SUCCEEDED : Z := 1.
Definition PROCESS_HOOK_STATE_FAILED : Z := 2.

Record HookProcessIdentityInfo := mkIdentity {
  dwProcessId : Z;
  id_processCreateTime : Z;
  szAppPath : list Z;          (* the MAX_PATH units of the array up to the first NUL *)
  hookState : Z;
  hookError : Z
}.

Definition HasExited (s : Snapshot) (identity : HookProcessIdentityInfo) : bool :=
  if negb (complete s) || (dwProcessId identity =? 0) || (id_processCreateTime identity =? 0)
  then false
  else match creationTimes s !! dwProcessId identity with
       | None => true
       | Some t => negb (t =? 0) && negb (t =? id_processCreateTime identity)
       end.

(** ** Checked reads *)

Inductive outcome (A : Type) :=
  | Done (a : A)          (* the value *)
  | Refused               (* the code returns FALSE *)
  | Fault                 (* a read outside the buffer *)
  | OutOfFuel.
Arguments Done {A} a.
Arguments Refused {A}.
Arguments Fault {A}.
Arguments OutOfFuel {A}.

Definition obind {A B} (m : outcome A) (k : A -> outcome B) : outcome B :=
  match m with Done a => k a | Refused => Refused | Fault => Fault | OutOfFuel => OutOfFuel end.

Definition s64 (z : Z) : Z :=
  let r := u64 z in if r <? 9223372036854775808 then r else r - 18446744073709551616.

Definition slice (off n : nat) (l : bytes) : bytes := take n (drop off l).
Definition word_at (off n : nat) (l : bytes) : Z := le_join (slice off n l).

(** [CopyMemory(dst, p + off, n)] where the object at [p] holds [buffer]. *)
Definition load (buffer : bytes) (off n : Z) : outcome bytes :=
  if (0 <=? off) && (0 <=? n) && (off + n <=? Z.of_nat (length buffer))
  then Done (slice (Z.to_nat off) (Z.to_nat n) buffer) else Fault.

(** The fields of the bytes copied into [entry]. *)
Definition parse_prefix (w : Width) (entry : bytes) : SystemProcessPrefix :=
  {| nextEntryOffset := word_at 0 4 entry;
     createTime := s64 (word_at off_createTime 8 entry);
     imageLength := word_at off_imageLength 2 entry;
     imageMaximumLength := word_at off_imageMaximumLength 2 entry;
     imageBuffer := word_at (off_imageBuffer w) (ptr_bytes w) entry;
     entry_processId := word_at (off_processId w) (ptr_bytes w) entry;
     entry_parentProcessId := word_at (off_parentProcessId w) (ptr_bytes w) entry;
     entry_sessionId := word_at (off_sessionId w) 4 entry |}.

(** [n] bytes as WCHARs. *)
Fixpoint wchars (l : bytes) : list Z :=
  match l with
  | a :: b :: r => a + 256 * b :: wchars r
  | _ => []
  end.

(** ** [ReadSnapshot] *)
Section Read.
Context (w : Width).

(** The name of one record: [base] is the address of the buffer. *)
Definition read_name (base : Z) (buffer : bytes) (entry : SystemProcessPrefix)
    : outcome (list Z) :=
  let length := Z.of_nat (length buffer) in
  if negb (imageLength entry mod 2 =? 0) || (imageMaximumLength entry <? imageLength entry)
  then Refused
  else if imageLength entry =? 0 then Done []
  else
    let name := imageBuffer entry in
    let at_ := uptr w (name - base) in
    if (name <? base) || (length <? at_) || (uptr w (length - at_) <? imageLength entry)
    then Refused
    else obind (load buffer at_ (imageLength entry)) (fun l => Done (wchars l)).

(** One turn of the loop: the process and the offset to add, 0 for the last. *)
Definition read_entry (base : Z) (buffer : bytes) (offset : Z) (times : gmap Z Z)
    : outcome (Process * Z) :=
  let length := Z.of_nat (length buffer) in
  if uptr w (length - offset) <? sizeof_SystemProcessPrefix w then Refused
  else
    obind (load buffer offset (sizeof_SystemProcessPrefix w)) (fun l =>
    let entry := parse_prefix w l in
    if (MAXDWORD <? entry_processId entry) || (MAXDWORD <? entry_parentProcessId entry)
    then Refused
    else
      let time := if 0 <? createTime entry then createTime entry else 0 in
      match times !! entry_processId entry with
      | Some _ => Refused
      | None =>
          obind (read_name base buffer entry) (fun name =>
          if nextEntryOffset entry =? 0
          then Done (mkProcess (entry_processId entry) (entry_parentProcessId entry) time name
                       (entry_sessionId entry), 0)
          else if (nextEntryOffset entry <? sizeof_SystemProcessPrefix w)
                  || (uptr w (length - offset) <? nextEntryOffset entry)
          then Refused
          else Done (mkProcess (entry_processId entry) (entry_parentProcessId entry) time name
                       (entry_sessionId entry), nextEntryOffset entry))
      end).

Fixpoint read_entries (fuel : nat) (base : Z) (buffer : bytes) (offset : Z)
    (times : gmap Z Z) (ps : list Process) : outcome (gmap Z Z * list Process) :=
  match fuel with
  | O => OutOfFuel
  | S fuel =>
      obind (read_entry base buffer offset times) (fun '(p, next) =>
      let times := <[pid p := creationTime p]> times in
      let ps := ps ++ [p] in
      if next =? 0 then Done (times, ps)
      else read_entries fuel base buffer (uptr w (offset + next)) times ps)
  end.

(** The fuel is the number of records that fit, and one. *)
Definition read_fuel (buffer : bytes) : nat := S (length buffer / 88).

Definition ReadSnapshot (base : Z) (buffer : option bytes) : outcome Snapshot :=
  match buffer with
  | None => Refused
  | Some buffer =>
      obind (read_entries (read_fuel buffer) base buffer 0 ∅ []) (fun '(times, ps) =>
      Done (mkSnapshot true ps times))
  end.
End Read.

(** The out-parameter and the BOOL: a refused read leaves the cleared snapshot. *)
Definition snapshot_result (o : outcome Snapshot) : option (bool * Snapshot) :=
  match o with
  | Done s => Some (true, s)
  | Refused => Some (false, empty_snapshot)
  | Fault | OutOfFuel => None
  end.

(** ** [QuerySnapshot]

    [query attempt size] is what the system call answers for a buffer of [size]
    bytes at some address: its status, the length it returns and the bytes it
    leaves there. *)
Record QueryAnswer := mkQueryAnswer {
  qa_status : Z;
  qa_returned : Z;
  qa_base : Z;
  qa_buffer : bytes
}.

Definition STATUS_INFO_LENGTH_MISMATCH : Z := -1073741820.
Definition query_maxSize : Z := 64 * 1024 * 1024.

Section Query.
Context (w : Width) (query : option (nat -> Z -> QueryAnswer)).

(** The loop from attempt [8 - left] on. *)
Fixpoint query_loop (query : nat -> Z -> QueryAnswer) (left : nat) (size : Z)
    : outcome Snapshot :=
  match left with
  | O => Refused
  | S k =>
      if query_maxSize <? size then Refused
      else
        let a := query (8 - left)%nat size in
        if negb (qa_status a =? STATUS_INFO_LENGTH_MISMATCH) then
          if (0 <=? qa_status a) && (qa_returned a <=? size)
          then ReadSnapshot w (qa_base a) (Some (take (Z.to_nat (qa_returned a)) (qa_buffer a)))
          else Refused
        else if query_maxSize - 64 * 1024 <? qa_returned a then Refused
        else query_loop query k
               (if size <? qa_returned a then u32 (qa_returned a + 64 * 1024) else u32 (size * 2))
  end.

Definition QuerySnapshot : outcome Snapshot :=
  match query with
  | None => Refused
  | Some query => query_loop query 8 (64 * 1024)
  end.

(** The free function [HasExited]: one snapshot, one question. *)
Definition HasExited_now (identity : HookProcessIdentityInfo) : bool :=
  match QuerySnapshot with Done s => HasExited s identity | _ => false end.
End Query.

(** ** Reads stay inside the buffer and the walk ends *)

Lemma length_slice off n l : (off + n <= length l)%nat -> length (slice off n l) = n.
Proof. intros. unfold slice. rewrite length_take, length_drop. lia. Qed.

Lemma slice_ok off n l : bytes_ok l -> bytes_ok (slice off n l).
Proof. intros. unfold slice. by apply Forall_take, Forall_drop. Qed.

Lemma word_at_range off n l : bytes_ok l -> 0 <= word_at off n l < 256 ^ Z.of_nat n.
Proof.
  intros H. unfold word_at. pose proof (le_join_range _ (slice_ok off n l H)) as R.
  assert (Z.of_nat (length (slice off n l)) <= Z.of_nat n).
  { unfold slice. rewrite length_take. lia. }
  assert (256 ^ Z.of_nat (length (slice off n l)) <= 256 ^ Z.of_nat n)
    by (apply Z.pow_le_mono_r; lia). lia.
Qed.

Lemma load_done buffer off n :
  0 <= off -> 0 <= n -> off + n <= Z.of_nat (length buffer) ->
  load buffer off n = Done (slice (Z.to_nat off) (Z.to_nat n) buffer).
Proof.
  intros. unfold load. by rewrite !(proj2 (Z.leb_le _ _)) by lia.
Qed.

Lemma obind_done {A B} (m : outcome A) (k : A -> outcome B) b :
  obind m k = Done b -> exists a, m = Done a /\ k a = Done b.
Proof. destruct m; simpl; [eauto|discriminate..]. Qed.

Section Bounds.
Context (w : Width).

Lemma ptr_limit_pos : 4294967296 <= ptr_limit w.
Proof. by destruct w. Qed.

Lemma uptr_small z : 0 <= z < ptr_limit w -> uptr w z = z.
Proof. destruct w; unfold ptr_limit; simpl; intros; apply Z.mod_small; lia. Qed.

Lemma sizeof_prefix_pos : 88 <= sizeof_SystemProcessPrefix w <= 104.
Proof. destruct w; simpl; lia. Qed.

(** A result that is neither a fault nor a lack of fuel. *)
Definition settled {A} (o : outcome A) (Q : A -> Prop) : Prop :=
  match o with Done a => Q a | Refused => True | Fault | OutOfFuel => False end.

Lemma settled_bind {A B} (m : outcome A) (k : A -> outcome B) P Q :
  settled m P -> (forall a, P a -> settled (k a) Q) -> settled (obind m k) Q.
Proof. destruct m; simpl; auto. Qed.

Lemma settled_load buffer off n :
  0 <= off -> 0 <= n -> off + n <= Z.of_nat (length buffer) ->
  settled (load buffer off n) (fun l => l = slice (Z.to_nat off) (Z.to_nat n) buffer).
Proof. intros. by rewrite load_done. Qed.

Context (base : Z) (buffer : bytes).
Hypothesis Hbase : 0 <= base.
Hypothesis Hroom : base + Z.of_nat (length buffer) < ptr_limit w.
Hypothesis Hbytes : bytes_ok buffer.

Lemma parse_fields l : bytes_ok l ->
  let e := parse_prefix w l in
  0 <= nextEntryOffset e < 4294967296 /\ 0 <= imageLength e < 65536 /\
  0 <= imageBuffer e < ptr_limit w.
Proof.
  intros H. unfold parse_prefix; simpl.
  pose proof (word_at_range 0 4 l H). pose proof (word_at_range off_imageLength 2 l H).
  pose proof (word_at_range (off_imageBuffer w) (ptr_bytes w) l H).
  unfold ptr_limit. simpl in *. lia.
Qed.

Lemma settled_read_name entry :
  0 <= imageLength entry -> 0 <= imageBuffer entry < ptr_limit w ->
  settled (read_name w base buffer entry) (fun _ => True).
Proof.
  intros Hl Hp. unfold read_name.
  destruct (negb _ || _); [done|]. destruct (Z.eqb_spec (imageLength entry) 0); [done|].
  destruct ((imageBuffer entry <? base) || (_ <? _) || _) eqn:E; [done|]. bool_hyps.
  assert (Hn : uptr w (imageBuffer entry - base) = imageBuffer entry - base)
    by (apply uptr_small; lia).
  rewrite Hn in *. rewrite uptr_small in H0 by lia.
  eapply settled_bind; [apply settled_load; lia|]. done.
Qed.

Lemma settled_read_entry offset times :
  0 <= offset <= Z.of_nat (length buffer) ->
  settled (read_entry w base buffer offset times) (fun '(_, next) =>
    sizeof_SystemProcessPrefix w <= Z.of_nat (length buffer) - offset /\
    (next = 0 \/ sizeof_SystemProcessPrefix w <= next <= Z.of_nat (length buffer) - offset)).
Proof.
  intros Ho. unfold read_entry. pose proof sizeof_prefix_pos.
  rewrite !uptr_small by lia.
  destruct (Z.ltb_spec (Z.of_nat (length buffer) - offset) (sizeof_SystemProcessPrefix w)); [done|].
  eapply settled_bind; [apply settled_load; lia|]. intros l ->.
  set (l := slice _ _ _). destruct (parse_fields l) as (Hn & Hl & Hp); [by apply slice_ok|].
  destruct (_ || _); [done|]. destruct (times !! _); [done|].
  eapply settled_bind; [apply settled_read_name; lia|]. intros name _.
  destruct (Z.eqb_spec (nextEntryOffset (parse_prefix w l)) 0); [simpl; split; [lia|by left]|].
  destruct (_ || _) eqn:E; [done|]. bool_hyps. cbn [settled]. split; [lia|right; lia].
Qed.

Lemma settled_read_entries fuel offset times ps :
  0 <= offset <= Z.of_nat (length buffer) ->
  Z.of_nat (length buffer) - offset < 88 * Z.of_nat fuel ->
  settled (read_entries w fuel base buffer offset times ps) (fun _ => True).
Proof.
  revert offset times ps. induction fuel as [|fuel IH]; intros offset times ps Ho Hf; [lia|].
  simpl. eapply settled_bind; [by apply settled_read_entry|]. intros [p next] [Hs Hn].
  pose proof sizeof_prefix_pos.
  destruct (Z.eqb_spec next 0); [done|]. rewrite uptr_small by lia. apply IH; lia.
Qed.
End Bounds.

(** C29: Every field is read inside the buffer and the walk ends, whatever the bytes. *)
Theorem ReadSnapshot_total (w : Width) (base : Z) (buffer : bytes) :
  0 <= base -> base + Z.of_nat (length buffer) < ptr_limit w -> bytes_ok buffer ->
  exists r, snapshot_result (ReadSnapshot w base (Some buffer)) = Some r.
Proof.
  intros Hb Hr Hok. unfold ReadSnapshot.
  assert (S : settled (read_entries w (read_fuel buffer) base buffer 0 ∅ []) (fun _ => True)).
  { apply settled_read_entries; try done; [lia|]. unfold read_fuel.
    pose proof (Nat.div_mod (length buffer) 88). pose proof (Nat.mod_upper_bound (length buffer) 88). lia. }
  destruct (read_entries _ _ _ _ _ _ _) as [[times ps]| | |]; [by eexists..|done|done].
Qed.

(** ** The records the system writes *)

(** One process and the bytes around the fields the code reads. *)
Record RawEntry := mkRawEntry {
  re_process : Process;
  re_maximum : Z;        (* the name's MaximumLength *)
  re_reserved : bytes;   (* 28 bytes *)
  re_times : bytes;      (* 16 bytes *)
  re_priority : bytes;   (* 4 bytes *)
  re_handles : bytes;    (* 4 bytes *)
  re_pad : bytes;        (* 4 bytes of padding *)
  re_tail : bytes        (* the rest of the fixed part and the thread records *)
}.

Definition wbytes (l : list Z) : bytes := flat_map (fun c => le_split 2 c) l.

Definition entry_ok (w : Width) (e : RawEntry) : Prop :=
  length (re_reserved e) = 28%nat /\ length (re_times e) = 16%nat /\
  length (re_priority e) = 4%nat /\ length (re_handles e) = 4%nat /\
  length (re_pad e) = 4%nat /\
  0 <= pid (re_process e) <= MAXDWORD /\ 0 <= parentPid (re_process e) <= MAXDWORD /\
  0 <= creationTime (re_process e) < 9223372036854775808 /\
  0 <= sessionId (re_process e) <= MAXDWORD /\
  Forall (fun c => 0 <= c < 65536) (pname (re_process e)) /\
  2 * Z.of_nat (length (pname (re_process e))) <= re_maximum e < 65536.

Definition name_address (w : Width) (address : Z) (e : RawEntry) : Z :=
  address + (sizeof_SystemProcessPrefix w + Z.of_nat (length (re_tail e))).

Definition entry_prefix (w : Width) (address next : Z) (e : RawEntry) : bytes :=
  let p := re_process e in
  le_split 4 next ++ re_reserved e ++ le_split 8 (creationTime p) ++ re_times e ++
  le_split 2 (2 * Z.of_nat (length (pname p))) ++ le_split 2 (re_maximum e) ++
  (match w with W32 => [] | W64 => re_pad e end) ++
  le_split (ptr_bytes w) (name_address w address e) ++ re_priority e ++
  (match w with W32 => [] | W64 => re_pad e end) ++
  le_split (ptr_bytes w) (pid p) ++ le_split (ptr_bytes w) (parentPid p) ++ re_handles e ++
  le_split 4 (sessionId p) ++ (match w with W32 => re_pad e | W64 => [] end).

Definition entry_body (e : RawEntry) : bytes := re_tail e ++ wbytes (pname (re_process e)).

Definition entry_size (w : Width) (e : RawEntry) : Z :=
  sizeof_SystemProcessPrefix w + Z.of_nat (length (entry_body e)).

(** The buffer at [address] for the list [es]; the last record's next is 0. *)
Fixpoint encode_entries (w : Width) (address : Z) (es : list RawEntry) : bytes :=
  match es with
  | [] => []
  | e :: rest =>
      entry_prefix w address (match rest with [] => 0 | _ => entry_size w e end) e ++ entry_body e ++
      encode_entries w (address + entry_size w e) rest
  end.

Definition times_of (ps : list Process) : gmap Z Z :=
  list_to_map ((fun p => (pid p, creationTime p)) <$> ps).

Lemma slice_skip off n a l :
  (length a <= off)%nat -> slice off n (a ++ l) = slice (off - length a) n l.
Proof. intros. unfold slice. by rewrite drop_app_ge. Qed.
Lemma slice_here n a l : length a = n -> slice 0 n (a ++ l) = a.
Proof. intros <-. unfold slice. rewrite drop_0. apply take_app_length. Qed.

Lemma word_here n z l : word_at 0 n (le_split n z ++ l) = z mod 256 ^ Z.of_nat n.
Proof. unfold word_at. by rewrite slice_here, le_join_split by apply length_le_split. Qed.
Lemma word_skip off n a l :
  (length a <= off)%nat -> word_at off n (a ++ l) = word_at (off - length a) n l.
Proof. intros. unfold word_at. by rewrite slice_skip. Qed.

Lemma wchars_wbytes l : Forall (fun c => 0 <= c < 65536) l -> wchars (wbytes l) = l.
Proof.
  induction 1 as [|c l Hc _ IH]; [done|].
  change (wbytes (c :: l)) with (c mod 256 :: c / 256 mod 256 :: wbytes l).
  cbn [wchars]. rewrite IH. f_equal.
  rewrite (Z.mod_small (c / 256)) by (split; [apply Z.div_pos|apply Z.div_lt_upper_bound]; lia).
  pose proof (Z.div_mod c 256). lia.
Qed.

Lemma length_wbytes l : Z.of_nat (length (wbytes l)) = 2 * Z.of_nat (length l).
Proof. induction l as [|c l IH]; [done|]. simpl length. lia. Qed.

(** A field of the encoded prefix: skip the parts before it. *)
Ltac at_field :=
  repeat (rewrite word_skip by (rewrite ?length_le_split; lia);
          rewrite ?length_le_split;
          repeat match goal with H : length _ = _ |- _ => rewrite H end; cbn [Nat.sub]);
  rewrite word_here.

Section Parse.
Context (w : Width) (address next : Z) (e : RawEntry).
Hypothesis He : entry_ok w e.
Hypothesis Haddress : 0 <= address /\ name_address w address e < ptr_limit w.
Hypothesis Hnext : 0 <= next < 4294967296.

Lemma length_prefix : Z.of_nat (length (entry_prefix w address next e)) = sizeof_SystemProcessPrefix w.
Proof.
  clear Haddress Hnext. destruct He as (? & ? & ? & ? & ? & _). unfold entry_prefix.
  destruct w; cbn [app ptr_bytes sizeof_SystemProcessPrefix];
    rewrite ?length_app, ?length_le_split; simpl length; lia.
Qed.

Lemma parse_encoded rest :
  parse_prefix w (slice 0 (Z.to_nat (sizeof_SystemProcessPrefix w))
                    (entry_prefix w address next e ++ rest))
  = mkSystemProcessPrefix next (creationTime (re_process e))
      (2 * Z.of_nat (length (pname (re_process e)))) (re_maximum e)
      (name_address w address e)
      (pid (re_process e)) (parentPid (re_process e)) (sessionId (re_process e)).
Proof.
  rewrite slice_here by (pose proof length_prefix; lia).
  destruct He as (? & ? & ? & ? & ? & ? & ? & ? & ? & ? & ?). unfold MAXDWORD in *.
  assert (Ht : s64 (creationTime (re_process e)) = creationTime (re_process e)).
  { unfold s64, u64. rewrite Z.mod_small by lia. by rewrite (proj2 (Z.ltb_lt _ _)) by lia. }
  assert (0 <= name_address w address e)
    by (unfold name_address; pose proof (sizeof_prefix_pos w); lia).
  unfold parse_prefix, entry_prefix, off_createTime, off_imageLength, off_imageMaximumLength.
  unfold ptr_limit in *.
  destruct w; cbn [app ptr_bytes off_imageBuffer off_processId off_parentProcessId off_sessionId
                     sizeof_SystemProcessPrefix] in *;
    change (256 ^ Z.of_nat 4) with 4294967296 in *;
    change (256 ^ Z.of_nat 8) with 18446744073709551616 in *;
    f_equal; at_field; change (256 ^ Z.of_nat 4) with 4294967296;
    change (256 ^ Z.of_nat 8) with 18446744073709551616;
    change (256 ^ Z.of_nat 2) with 65536; rewrite Z.mod_small by lia; done.
Qed.
End Parse.

Lemma entry_body_eq e : entry_body e = re_tail e ++ wbytes (pname (re_process e)).
Proof. done. Qed.
#[local] Opaque entry_prefix entry_body.

Lemma slice_at pre n l : slice (length pre) n (pre ++ l) = slice 0 n l.
Proof. rewrite slice_skip by lia. by rewrite Nat.sub_diag. Qed.

Section Encoded.
Context (w : Width) (base : Z).
Hypothesis Hbase : 0 <= base.

Lemma read_name_encoded pre name post maximum next p s :
  Forall (fun c => 0 <= c < 65536) name ->
  base + Z.of_nat (length (pre ++ wbytes name ++ post)) < ptr_limit w ->
  2 * Z.of_nat (length name) <= maximum ->
  forall ct pp,
  read_name w base (pre ++ wbytes name ++ post)
    (mkSystemProcessPrefix next ct (2 * Z.of_nat (length name)) maximum
       (base + Z.of_nat (length pre)) p pp s) = Done name.
Proof.
  intros Hn Hroom Hm ct pp. unfold read_name. cbn [imageLength imageMaximumLength imageBuffer].
  rewrite (Z.mul_comm 2), Z.mod_mul by lia. cbn [Z.eqb negb orb].
  rewrite (proj2 (Z.ltb_ge _ _)) by lia.
  destruct (Z.eqb_spec (Z.of_nat (length name) * 2) 0).
  { destruct name; [done|simpl in *; lia]. }
  replace (base + Z.of_nat (length pre) - base) with (Z.of_nat (length pre)) by lia.
  pose proof (length_wbytes name) as Hw. rewrite !length_app in *.
  rewrite !uptr_small by lia. rewrite !(proj2 (Z.ltb_ge _ _)) by lia. cbn [orb].
  rewrite load_done by (rewrite ?length_app; lia). cbn [obind].
  rewrite Nat2Z.id, slice_at, slice_here by lia. by rewrite wchars_wbytes.
Qed.

Lemma read_entry_encoded pre e next post times :
  entry_ok w e -> times !! pid (re_process e) = None ->
  let buffer := pre ++ entry_prefix w (base + Z.of_nat (length pre)) next e ++
                entry_body e ++ post in
  base + Z.of_nat (length buffer) < ptr_limit w ->
  next = 0 \/ sizeof_SystemProcessPrefix w <= next < 4294967296 /\
              next <= Z.of_nat (length buffer) - Z.of_nat (length pre) ->
  read_entry w base buffer (Z.of_nat (length pre)) times = Done (re_process e, next).
Proof.
  intros He Ht buffer Hroom Hnext.
  pose proof (sizeof_prefix_pos w) as Hs.
  pose proof (length_prefix w (base + Z.of_nat (length pre)) next e He) as Hl.
  assert (Hb : Z.of_nat (length buffer) = Z.of_nat (length pre) + sizeof_SystemProcessPrefix w
                + Z.of_nat (length (entry_body e)) + Z.of_nat (length post))
    by (subst buffer; rewrite !length_app; lia).
  assert (Ha : name_address w (base + Z.of_nat (length pre)) e < ptr_limit w).
  { unfold name_address. rewrite entry_body_eq, (length_app (re_tail e)) in Hb. lia. }
  unfold read_entry. rewrite !uptr_small by lia. rewrite (proj2 (Z.ltb_ge _ _)) by lia.
  rewrite load_done by lia. cbn [obind].
  rewrite Nat2Z.id. subst buffer. rewrite slice_at.
  rewrite parse_encoded by (try done; lia).
  cbn [entry_processId entry_parentProcessId createTime entry_sessionId nextEntryOffset].
  destruct He as (? & ? & ? & ? & ? & ? & ? & ? & ? & ? & ?).
  rewrite !(proj2 (Z.ltb_ge _ _)) by lia. cbn [orb]. rewrite Ht.
  assert (R : read_name w base (pre ++ entry_prefix w (base + Z.of_nat (length pre)) next e ++ entry_body e ++ post)
    (mkSystemProcessPrefix next (creationTime (re_process e))
      (2 * Z.of_nat (length (pname (re_process e)))) (re_maximum e)
      (name_address w (base + Z.of_nat (length pre)) e)
      (pid (re_process e)) (parentPid (re_process e)) (sessionId (re_process e)))
    = Done (pname (re_process e))).
  { rewrite entry_body_eq. unfold name_address.
    set (P := entry_prefix _ _ _ _) in *.
    replace (pre ++ P ++ (re_tail e ++ wbytes (pname (re_process e))) ++ post)
      with ((pre ++ P ++ re_tail e) ++ wbytes (pname (re_process e)) ++ post)
      by (by rewrite <- !app_assoc).
    replace (base + Z.of_nat (length pre) + (sizeof_SystemProcessPrefix w + Z.of_nat (length (re_tail e))))
      with (base + Z.of_nat (length (pre ++ P ++ re_tail e))) by (rewrite !length_app; lia).
    apply read_name_encoded; [done| |lia].
    rewrite !entry_body_eq in *. rewrite !length_app in *. lia. }
  rewrite R. cbn [obind].
  replace (if 0 <? creationTime (re_process e) then creationTime (re_process e) else 0)
    with (creationTime (re_process e))
    by (destruct (Z.ltb_spec 0 (creationTime (re_process e))); lia).
  replace (mkProcess (pid (re_process e)) _ _ _ _) with (re_process e) by (by destruct (re_process e)).
  destruct Hnext as [->|[? ?]]; [done|].
  rewrite (proj2 (Z.eqb_neq _ _)) by lia. rewrite !(proj2 (Z.ltb_ge _ _)) by lia. done.
Qed.

Definition sizes_ok (es : list RawEntry) : Prop :=
  Forall (fun e => entry_ok w e /\ entry_size w e < 4294967296) es.

Lemma length_encode es address :
  sizes_ok es ->
  Z.of_nat (length (encode_entries w address es)) = fold_right (fun e n => entry_size w e + n) 0 es.
Proof.
  intros H. revert address. induction H as [|e es [He _] _ IH]; intros address; [done|].
  cbn [encode_entries fold_right]. rewrite !length_app, !Nat2Z.inj_add, IH, length_prefix by done.
  assert (entry_size w e = sizeof_SystemProcessPrefix w + Z.of_nat (length (entry_body e))) by done. lia.
Qed.

Lemma encode_bound es :
  88 * Z.of_nat (length es) <= fold_right (fun e n => entry_size w e + n) 0 es.
Proof.
  induction es as [|e es IH]; [done|].
  cbn [length fold_right]. pose proof (sizeof_prefix_pos w).
  assert (88 <= entry_size w e) by (unfold entry_size; lia). lia.
Qed.

Lemma read_encoded fuel pre es times ps :
  sizes_ok es -> es <> [] ->
  NoDup (map (fun e => pid (re_process e)) es) ->
  (forall e, e ∈ es -> times !! pid (re_process e) = None) ->
  let buffer := pre ++ encode_entries w (base + Z.of_nat (length pre)) es in
  base + Z.of_nat (length buffer) < ptr_limit w ->
  (length es <= fuel)%nat ->
  read_entries w fuel base buffer (Z.of_nat (length pre)) times ps
  = Done (foldl (fun t p => <[pid p := creationTime p]> t) times (map re_process es),
          ps ++ map re_process es).
Proof.
  revert pre es times ps. induction fuel as [|fuel IH]; intros pre es times ps Hok Hne Hnd Hfresh buffer Hroom Hfuel.
  { destruct es; [done|simpl in Hfuel; lia]. }
  destruct es as [|e es]; [done|]. clear Hne. subst buffer.
  inversion Hok as [|? ? [He Hsz] Hes]; subst. inversion Hnd as [|? ? Hnin Hnd']; subst.
  cbn [encode_entries] in *. cbn [read_entries].
  pose proof (sizeof_prefix_pos w) as Hs. pose proof (length_prefix w (base + Z.of_nat (length pre))
    (match es with [] => 0 | _ => entry_size w e end) e He) as Hl.
  set (next := match es with [] => 0 | _ => entry_size w e end) in *.
  assert (Hse : entry_size w e = sizeof_SystemProcessPrefix w + Z.of_nat (length (entry_body e))) by done.
  rewrite read_entry_encoded; [|done|apply Hfresh; left|done|].
  2: { subst next. destruct es; [by left|right]. rewrite !length_app in *. lia. }
  cbn [obind]. destruct es as [|e' es].
  { by subst next. }
  assert (next <> 0) by (subst next; lia).
  rewrite (proj2 (Z.eqb_neq _ _)) by done.
  set (pre' := pre ++ entry_prefix w (base + Z.of_nat (length pre)) next e ++ entry_body e).
  assert (Hlen : Z.of_nat (length pre') = Z.of_nat (length pre) + next).
  { subst pre' next. rewrite !length_app. lia. }
  replace (pre ++ entry_prefix _ _ _ _ ++ entry_body e ++ _)
    with (pre' ++ encode_entries w (base + Z.of_nat (length pre')) (e' :: es)) in *.
  2: { subst pre'. rewrite <- !app_assoc. do 4 f_equal. rewrite Hlen. subst next. lia. }
  rewrite uptr_small by (rewrite ?length_app in *; lia). rewrite <- Hlen.
  rewrite IH; [|done|done|done| |done|simpl in *; lia].
  - by rewrite <- app_assoc.
  - intros d Hd. rewrite lookup_insert_ne; [apply Hfresh; by right|].
    intros E. apply Hnin. rewrite E. by apply (list_elem_of_fmap_2 (fun e => pid (re_process e))).
Qed.
End Encoded.

Lemma foldl_times ps t :
  NoDup (map pid ps) -> (forall p, p ∈ ps -> t !! pid p = None) ->
  foldl (fun t p => <[pid p := creationTime p]> t) t ps = times_of ps ∪ t.
Proof.
  revert t. induction ps as [|p ps IH]; intros t Hnd Hf; cbn [foldl].
  { unfold times_of. simpl. by rewrite (left_id_L ∅ (∪)). }
  inversion Hnd as [|? ? Hnin Hnd']; subst. rewrite IH; [|done|].
  - unfold times_of. cbn [fmap list_fmap list_to_map fst snd foldr]. unfold times_of.
    rewrite <- insert_union_r; [by rewrite insert_union_l|].
    apply not_elem_of_list_to_map. rewrite <- list_fmap_compose. done.
  - intros q Hq. rewrite lookup_insert_ne; [apply Hf; by right|].
    intros E. apply Hnin. rewrite E. by apply (list_elem_of_fmap_2 pid).
Qed.

(** What the walk recovers from the system's records: every process in order,
    and its creation time under its identifier. *)
Theorem ReadSnapshot_encoded (w : Width) (base : Z) (es : list RawEntry) :
  0 <= base -> sizes_ok w es -> es <> [] ->
  NoDup (map (fun e => pid (re_process e)) es) ->
  base + Z.of_nat (length (encode_entries w base es)) < ptr_limit w ->
  ReadSnapshot w base (Some (encode_entries w base es))
  = Done (mkSnapshot true (map re_process es) (times_of (map re_process es))).
Proof.
  intros Hb Hok Hne Hnd Hroom. unfold ReadSnapshot.
  pose proof (read_encoded w base Hb (read_fuel (encode_entries w base es)) [] es ∅ [] Hok Hne Hnd) as R.
  change (Z.of_nat (length (@nil Z))) with 0 in R. rewrite !Z.add_0_r in R. cbn [app] in R. rewrite R; [|done|done|].
  - cbn [obind]. rewrite foldl_times; [by rewrite (right_id_L ∅ (∪))| |done].
    by rewrite map_map.
  - unfold read_fuel. pose proof (encode_bound w es). pose proof (length_encode w es base Hok).
    assert (88 * length es <= length (encode_entries w base es))%nat by lia.
    pose proof (Nat.div_le_lower_bound (length (encode_entries w base es)) 88 (length es)). lia.
Qed.

Lemma times_of_lookup ps k t :
  NoDup (map pid ps) ->
  times_of ps !! k = Some t <-> exists p, p ∈ ps /\ pid p = k /\ creationTime p = t.
Proof.
  intros Hnd. unfold times_of. rewrite <- elem_of_list_to_map.
  - rewrite list_elem_of_fmap. split.
    + intros (p & [= -> ->] & Hp). by exists p.
    + intros (p & Hp & <- & <-). by exists p.
  - by rewrite <- list_fmap_compose.
Qed.

(** ** [QuerySnapshot] against a system that keeps its word

    [image] is the process list the kernel would write at [base]: a buffer too
    small is refused with the length needed, a large enough one is filled. *)
Definition kernel_answers (query : nat -> Z -> QueryAnswer) (base : Z) (image : bytes) : Prop :=
  forall attempt size,
    query attempt size =
      if Z.of_nat (length image) <=? size
      then mkQueryAnswer 0 (Z.of_nat (length image)) base
             (image ++ replicate (Z.to_nat size - length image) 0)
      else mkQueryAnswer STATUS_INFO_LENGTH_MISMATCH (Z.of_nat (length image)) base
             (replicate (Z.to_nat size) 0).

Lemma query_loop_fits w query base image k size :
  kernel_answers query base image -> Z.of_nat (length image) <= size <= query_maxSize ->
  query_loop w query (S k) size = ReadSnapshot w base (Some image).
Proof.
  intros Hq Hs. cbn [query_loop]. rewrite (proj2 (Z.ltb_ge _ _)) by lia.
  rewrite !Hq, !(proj2 (Z.leb_le _ size)) by lia. cbn [qa_status qa_returned qa_base qa_buffer].
  change (negb (0 =? STATUS_INFO_LENGTH_MISMATCH)) with true. change (0 <=? 0) with true. cbn [andb].
  rewrite (proj2 (Z.leb_le _ _)) by lia. by rewrite Nat2Z.id, take_app_length.
Qed.

Lemma query_loop_retry w query base image k size :
  kernel_answers query base image -> size < Z.of_nat (length image) ->
  0 <= size -> Z.of_nat (length image) <= query_maxSize - 64 * 1024 ->
  query_loop w query (S k) size
  = query_loop w query k (u32 (Z.of_nat (length image) + 64 * 1024)).
Proof.
  intros Hq Hs H0 Hm. cbn [query_loop]. rewrite (proj2 (Z.ltb_ge query_maxSize _)) by lia.
  rewrite !Hq, !(proj2 (Z.leb_gt _ size)) by lia. cbn [qa_status qa_returned].
  rewrite Z.eqb_refl. cbn [negb].
  rewrite !(proj2 (Z.ltb_ge (query_maxSize - _) _)) by lia.
  by rewrite (proj2 (Z.ltb_lt size _)) by lia.
Qed.

Lemma QuerySnapshot_complete (w : Width) query base image :
  kernel_answers query base image ->
  Z.of_nat (length image) <= query_maxSize - 64 * 1024 ->
  QuerySnapshot w (Some query) = ReadSnapshot w base (Some image).
Proof.
  unfold QuerySnapshot. intros Hq Hl.
  assert (query_maxSize = 67108864) by done.
  destruct (Z.le_gt_cases (Z.of_nat (length image)) (64 * 1024)).
  { apply query_loop_fits; [done|lia]. }
  rewrite (query_loop_retry w query base image) by (done || lia).
  rewrite u32_small by lia. apply query_loop_fits; [done|lia].
Qed.

(** C28: A process the system no longer lists, or lists with another creation time,
    has exited; a listed process of unknown creation time has not. *)
Theorem system_snapshot_exact (w : Width) query base (es : list RawEntry) (identity : HookProcessIdentityInfo) :
  0 <= base -> sizes_ok w es -> es <> [] ->
  NoDup (map (fun e => pid (re_process e)) es) ->
  base + Z.of_nat (length (encode_entries w base es)) < ptr_limit w ->
  Z.of_nat (length (encode_entries w base es)) <= query_maxSize - 64 * 1024 ->
  kernel_answers query base (encode_entries w base es) ->
  dwProcessId identity <> 0 -> id_processCreateTime identity <> 0 ->
  exists s, snapshot_result (QuerySnapshot w (Some query)) = Some (true, s) /\
    processes s = map re_process es /\
    (HasExited s identity = true <->
     forall p, p ∈ processes s -> pid p = dwProcessId identity ->
       creationTime p <> 0 /\ creationTime p <> id_processCreateTime identity).
Proof.
  intros Hb Hok Hne Hnd Hroom Hmax Hq Hp Ht.
  rewrite (QuerySnapshot_complete w query base _ Hq Hmax), ReadSnapshot_encoded by done.
  eexists; split; [done|]. split; [done|]. unfold HasExited. cbn [complete creationTimes processes negb orb].
  rewrite !(proj2 (Z.eqb_neq _ _)) by done. cbn [orb].
  assert (Hnd' : NoDup (map pid (map re_process es))) by (by rewrite map_map).
  pose proof (times_of_lookup (map re_process es) (dwProcessId identity)) as L.
  destruct (times_of _ !! _) as [t|] eqn:E.
  - destruct (proj1 (L t Hnd') eq_refl) as (p & Hin & Hpid & Htime). rewrite andb_true_iff, !negb_true_iff, !Z.eqb_neq.
    split; [|intros H; specialize (H p Hin Hpid); lia].
    intros H q Hq' Eq. assert (Some t = Some (creationTime q)) as [= <-]; [|done].
    apply L; [done|by exists q].
  - split; [|done]. intros _ p Hin Hpid.
    assert (None = Some (creationTime p)) by (apply L; [done|by exists p]). done.
Qed.

(** A buffer whose only record says that the next one lies beyond its end. *)
Definition bad_buffer : bytes := [255; 255] ++ replicate 102 0.

Lemma ReadSnapshot_total_witness :
  (0 <= 4096 /\ 4096 + Z.of_nat (length bad_buffer) < ptr_limit W64 /\ bytes_ok bad_buffer) /\
  exists r, snapshot_result (ReadSnapshot W64 4096 (Some bad_buffer)) = Some r.
Proof.
  assert (H : bytes_ok bad_buffer) by (apply (bool_decide_unpack _); by vm_compute).
  assert (L : 4096 + Z.of_nat (length bad_buffer) < ptr_limit W64) by (by vm_compute).
  split; [split; [lia|by split]|].
  apply ReadSnapshot_total; [lia|exact L|exact H].
Defined.

(** Two processes, the second without a creation time the caller may see. *)
Definition plain_entry (p : Process) : RawEntry :=
  mkRawEntry p 20 (replicate 28 9) (replicate 16 7) (replicate 4 8) (replicate 4 1)
    (replicate 4 0) (replicate 80 3).
Definition two_entries : list RawEntry :=
  [plain_entry (mkProcess 4 0 0 (ascii_bytes "System") 0);
   plain_entry (mkProcess 900 4 133000000000000000 (ascii_bytes "a.exe") 1)].

Definition answer_with (image : bytes) : nat -> Z -> QueryAnswer := fun _ size =>
  if Z.of_nat (length image) <=? size
  then mkQueryAnswer 0 (Z.of_nat (length image)) 4096
         (image ++ replicate (Z.to_nat size - length image) 0)
  else mkQueryAnswer STATUS_INFO_LENGTH_MISMATCH (Z.of_nat (length image)) 4096
         (replicate (Z.to_nat size) 0).

Lemma entry_ok_plain w p :
  0 <= pid p <= MAXDWORD -> 0 <= parentPid p <= MAXDWORD ->
  0 <= creationTime p < 9223372036854775808 -> 0 <= sessionId p <= MAXDWORD ->
  Forall (fun c => 0 <= c < 65536) (pname p) -> (length (pname p) <= 10)%nat ->
  entry_ok w (plain_entry p).
Proof. intros. repeat split; try done; simpl; lia. Qed.

Lemma system_snapshot_exact_witness :
  exists s,
    snapshot_result (QuerySnapshot W64 (Some (answer_with (encode_entries W64 4096 two_entries))))
      = Some (true, s) /\
    processes s = map re_process two_entries /\
    (HasExited s (mkIdentity 900 5 [] 0 0) = true <->
     forall p, p ∈ processes s -> pid p = 900 -> creationTime p <> 0 /\ creationTime p <> 5).
Proof.
  assert (F : forall l, forallb (fun c => (0 <=? c) && (c <? 65536)) l = true ->
                        Forall (fun c => 0 <= c < 65536) l).
  { intros l H. apply Forall_forall. intros c Hc. apply list_elem_of_In in Hc.
    rewrite forallb_forall in H. specialize (H c Hc). bool_hyps. lia. }
  assert (Hs : sizes_ok W64 two_entries).
  { unfold two_entries. repeat constructor; try (by vm_compute);
      apply entry_ok_plain; simpl; unfold MAXDWORD; try lia; by apply F. }
  assert (Hl : Z.of_nat (length (encode_entries W64 4096 two_entries)) = 390) by (by vm_compute).
  apply (system_snapshot_exact W64 (answer_with (encode_entries W64 4096 two_entries)) 4096
           two_entries (mkIdentity 900 5 [] 0 0)); try done.
  apply (bool_decide_unpack _). by vm_compute.
Defined.
