(* ===== verification/ProcessRegistry.v ===== *)
(** * The registry of hooked processes (ProcessRegistry.h)

    One record per process identifier, guarded by a lock: each method's locked
    section is one atomic operation.  [PruneExited] releases the lock between
    copying the table, asking the system for its processes and erasing each
    entry, so it is a small state machine that other threads interleave with. *)

From S2P Require Import Prelude OrderedMap ProcessIdentity.

Abbreviation Records := (gmap Z HookProcessIdentityInfo).

Definition zero_identity : HookProcessIdentityInfo := mkIdentity 0 0 [] 0 0.

(** [m_processes[pid]]: [operator[]] inserts a zeroed record. *)
Definition subscript (pid : Z) (m : Records) : HookProcessIdentityInfo * Records :=
  match m !! pid with
  | Some entry => (entry, m)
  | None => (zero_identity, <[pid := zero_identity]> m)
  end.

(** A record of another lifetime of the identifier is cleared first. *)
Definition same_lifetime (pid creationTime : Z) (entry : HookProcessIdentityInfo)
    : HookProcessIdentityInfo :=
  if id_processCreateTime entry =? creationTime then entry
  else mkIdentity pid creationTime [] PROCESS_HOOK_STATE_PENDING 0.

Definition set_szAppPath (path : list Z) (e : HookProcessIdentityInfo) : HookProcessIdentityInfo :=
  mkIdentity (dwProcessId e) (id_processCreateTime e) path (hookState e) (hookError e).
Definition set_hook (state error : Z) (e : HookProcessIdentityInfo) : HookProcessIdentityInfo :=
  mkIdentity (dwProcessId e) (id_processCreateTime e) (szAppPath e) state error.

Definition Register (identity : option HookProcessIdentityInfo) (m : Records) : bool * Records :=
  match identity with
  | None => (false, m)
  | Some identity =>
      if (dwProcessId identity =? 0) || (id_processCreateTime identity =? 0)
         || bool_decide (szAppPath identity = [])
      then (false, m)
      else
        let '(entry, m) := subscript (dwProcessId identity) m in
        if id_processCreateTime identity <? id_processCreateTime entry then (false, m)
        else
          let entry := same_lifetime (dwProcessId identity) (id_processCreateTime identity) entry in
          (true, <[dwProcessId identity :=
                     set_szAppPath (take (MAX_PATH - 1) (szAppPath identity)) entry]> m)
  end.

Definition Update (pid creationTime error : Z) (m : Records) : bool * Records :=
  if (pid =? 0) || (creationTime =? 0) then (false, m)
  else
    let '(entry, m) := subscript pid m in
    if creationTime <? id_processCreateTime entry then (false, m)
    else
      let entry := same_lifetime pid creationTime entry in
      let entry :=
        if negb (hookState entry =? PROCESS_HOOK_STATE_SUCCEEDED)
        then set_hook (if negb (error =? 0) then PROCESS_HOOK_STATE_FAILED
                       else PROCESS_HOOK_STATE_SUCCEEDED) error entry
        else entry in
      (true, <[pid := entry]> m).

(** [identity] is whether the caller gives a place for the result. *)
Definition Get (pid creationTime : Z) (identity : bool) (m : Records)
    : option HookProcessIdentityInfo :=
  if (pid =? 0) || negb identity then None
  else match m !! pid with
       | None => None
       | Some e =>
           if negb (creationTime =? 0) && negb (id_processCreateTime e =? creationTime)
           then None else Some e
       end.

(** The count and the entries written to the caller's array. *)
Definition SnapshotHooked (identities : bool) (capacity : Z) (m : Records)
    : Z * list HookProcessIdentityInfo :=
  let hooked := filter (fun e => hookState e = PROCESS_HOOK_STATE_SUCCEEDED) (map snd (sorted m)) in
  let count := Z.of_nat (length hooked) in
  if negb identities || (capacity <? count) then (count, []) else (count, hooked).

(** ** [PruneExited], one locked section at a time *)

Inductive PruneState :=
  | PIdle
  | PCopied (snapshot : Records)
  | PScan (processes : Snapshot) (rest : list (Z * HookProcessIdentityInfo)).

Definition prune_copy (m : Records) : PruneState :=
  if bool_decide (m = ∅) then PIdle else PCopied m.

Definition prune_query (answer : outcome Snapshot) (snapshot : Records) : PruneState :=
  match answer with
  | Done processes => PScan processes (sorted snapshot)
  | _ => PIdle
  end.

(** One turn of the loop. *)
Definition prune_one (processes : Snapshot) (it : Z * HookProcessIdentityInfo) (m : Records) : Records :=
  if negb (HasExited processes it.2) then m
  else match m !! it.1 with
       | Some current =>
           if id_processCreateTime current =? id_processCreateTime it.2 then delete it.1 m else m
       | None => m
       end.

(** The whole method with nobody in between. *)
Definition PruneExited (answer : outcome Snapshot) (m : Records) : Records :=
  match prune_copy m with
  | PCopied snapshot =>
      match prune_query answer snapshot with
      | PScan processes rest => fold_left (fun m it => prune_one processes it m) rest m
      | _ => m
      end
  | _ => m
  end.

(** ** The records' invariant *)

Record identity_ok (pid : Z) (e : HookProcessIdentityInfo) : Prop := {
  io_pid : dwProcessId e = pid /\ pid <> 0;
  io_time : 0 < id_processCreateTime e;
  io_path : (length (szAppPath e) < MAX_PATH)%nat;
  io_hook : hookState e = PROCESS_HOOK_STATE_PENDING /\ hookError e = 0 \/
            hookState e = PROCESS_HOOK_STATE_SUCCEEDED /\ hookError e = 0 \/
            hookState e = PROCESS_HOOK_STATE_FAILED /\ hookError e <> 0
}.

Definition registry_ok (m : Records) : Prop := map_Forall identity_ok m.

(** What [Register] and [Update] do to the record of one process. *)
Definition registered (identity : HookProcessIdentityInfo) (old : option HookProcessIdentityInfo)
    : option HookProcessIdentityInfo :=
  Some (set_szAppPath (take (MAX_PATH - 1) (szAppPath identity))
          (same_lifetime (dwProcessId identity) (id_processCreateTime identity)
             (default zero_identity old))).

Definition updated (pid creationTime error : Z) (old : option HookProcessIdentityInfo)
    : option HookProcessIdentityInfo :=
  let entry := same_lifetime pid creationTime (default zero_identity old) in
  Some (if negb (hookState entry =? PROCESS_HOOK_STATE_SUCCEEDED)
        then set_hook (if negb (error =? 0) then PROCESS_HOOK_STATE_FAILED
                       else PROCESS_HOOK_STATE_SUCCEEDED) error entry
        else entry).

(** The lifetime recorded for an identifier, 0 when there is none. *)
Definition lifetime (m : Records) (pid : Z) : Z :=
  match m !! pid with Some e => id_processCreateTime e | None => 0 end.

Lemma Register_eq identity m :
  0 <= id_processCreateTime identity ->
  snd (Register (Some identity) m) =
    if (dwProcessId identity =? 0) || (id_processCreateTime identity =? 0)
       || bool_decide (szAppPath identity = [])
       || (id_processCreateTime identity <? lifetime m (dwProcessId identity))
    then m
    else <[dwProcessId identity := default zero_identity
                                    (registered identity (m !! dwProcessId identity))]> m.
Proof.
  intros Hp. unfold Register, lifetime, registered, subscript.
  destruct (_ || _ || _); [done|]. cbn [orb].
  destruct (m !! dwProcessId identity) as [e|] eqn:E; cbn [default zero_identity id_processCreateTime].
  - by destruct (_ <? _).
  - rewrite !(proj2 (Z.ltb_ge _ 0)) by lia. cbn [snd]. by rewrite insert_insert_eq.
Qed.

Lemma Update_eq pid creationTime error m :
  0 <= creationTime ->
  snd (Update pid creationTime error m) =
    if (pid =? 0) || (creationTime =? 0) || (creationTime <? lifetime m pid)
    then m
    else <[pid := default zero_identity (updated pid creationTime error (m !! pid))]> m.
Proof.
  intros Hp. unfold Update, lifetime, updated, subscript.
  destruct (_ || _); [done|]. cbn [orb].
  destruct (m !! pid) as [e|] eqn:E; cbn [default zero_identity id_processCreateTime].
  - by destruct (_ <? _).
  - rewrite !(proj2 (Z.ltb_ge _ 0)) by lia. cbn [snd]. by rewrite insert_insert_eq.
Qed.

Lemma same_lifetime_ok pid t e :
  0 < t -> pid <> 0 -> (e = zero_identity \/ identity_ok pid e) ->
  identity_ok pid (same_lifetime pid t e) /\ id_processCreateTime (same_lifetime pid t e) = t.
Proof.
  intros Ht Hp He. unfold same_lifetime. destruct (Z.eqb_spec (id_processCreateTime e) t) as [<-|].
  - destruct He as [->|He]; [simpl in Ht; lia|done].
  - split; [|done]. split; simpl; [done|lia|unfold MAX_PATH; lia|by left].
Qed.

Lemma registered_ok identity old e :
  0 < id_processCreateTime identity -> dwProcessId identity <> 0 ->
  (forall o, old = Some o -> identity_ok (dwProcessId identity) o) ->
  registered identity old = Some e ->
  identity_ok (dwProcessId identity) e /\ id_processCreateTime e = id_processCreateTime identity.
Proof.
  intros Ht Hp Ho [= <-].
  destruct (same_lifetime_ok (dwProcessId identity) (id_processCreateTime identity)
              (default zero_identity old) Ht Hp) as [[? ? ? ?] E].
  { destruct old; [right; by apply Ho|by left]. }
  split; [|done]. split; simpl; try done. rewrite length_take. unfold MAX_PATH. lia.
Qed.

Lemma updated_ok pid t error old e :
  0 < t -> pid <> 0 -> (forall o, old = Some o -> identity_ok pid o) ->
  updated pid t error old = Some e -> identity_ok pid e /\ id_processCreateTime e = t.
Proof.
  intros Ht Hp Ho [= <-].
  destruct (same_lifetime_ok pid t (default zero_identity old) Ht Hp) as [Hk E].
  { destruct old; [right; by apply Ho|by left]. }
  destruct (negb (_ =? PROCESS_HOOK_STATE_SUCCEEDED)); [|done].
  destruct Hk as [? ? ? ?]. split; [|done]. split; simpl; try done.
  destruct (Z.eqb_spec error 0); simpl; [right; by left|right; by right].
Qed.

Definition creation_time_ok (identity : HookProcessIdentityInfo) : Prop :=
  0 <= id_processCreateTime identity.

Lemma registry_ok_Register identity m :
  creation_time_ok identity -> registry_ok m -> registry_ok (snd (Register (Some identity) m)).
Proof.
  unfold creation_time_ok. intros Ht Hm. rewrite Register_eq by done.
  destruct (_ || _ || _ || _) eqn:E; [done|]. bool_hyps.
  apply map_Forall_insert_2; [|done].
  eapply (registered_ok identity (m !! dwProcessId identity)); [lia|done| |done].
  intros o Ho. by apply Hm.
Qed.

Lemma registry_ok_Update pid t error m :
  0 <= t -> registry_ok m -> registry_ok (snd (Update pid t error m)).
Proof.
  intros Ht Hm. rewrite Update_eq by done. destruct (_ || _ || _) eqn:E; [done|]. bool_hyps.
  apply map_Forall_insert_2; [|done].
  eapply (updated_ok pid t error (m !! pid)); [lia|done| |done].
  intros o Ho. by apply Hm.
Qed.

Lemma prune_one_subseteq processes it m : prune_one processes it m ⊆ m.
Proof.
  unfold prune_one. destruct (negb _); [done|]. destruct (m !! it.1); [|done].
  destruct (_ =? _); [apply delete_subseteq|done].
Qed.

Lemma registry_ok_prune_one processes it m :
  registry_ok m -> registry_ok (prune_one processes it m).
Proof. intros H k e Hk. apply H. eapply lookup_weaken; [done|apply prune_one_subseteq]. Qed.

(** [PruneExited] on its own keeps exactly the records that have not exited. *)
Lemma prune_all processes rest m k :
  NoDup (map fst rest) ->
  (forall k' e, (k', e) ∈ rest -> m !! k' = Some e) ->
  fold_left (fun m it => prune_one processes it m) rest m !! k =
    match (list_to_map rest : Records) !! k with
    | Some e => if HasExited processes e then None else Some e
    | None => m !! k
    end.
Proof.
  revert m. induction rest as [|[k' e] rest IH]; intros m Hnd Hin; [done|].
  inversion Hnd as [|? ? Hnot Hnd']; subst.
  assert (Hrest : forall k'' e', (k'', e') ∈ rest -> k'' <> k').
  { intros k'' e' H ->. apply Hnot. by apply (list_elem_of_fmap_2 fst) in H. }
  assert (Hk' : m !! k' = Some e) by (apply Hin; left).
  cbn [fold_left list_to_map foldr fst snd]. rewrite IH; [|done|].
  - destruct (decide (k = k')) as [->|Hne].
    + rewrite lookup_insert_eq.
      rewrite (not_elem_of_list_to_map_1 rest k') by done.
      unfold prune_one. simpl. rewrite Hk', Z.eqb_refl.
      destruct (HasExited processes e); simpl; [by rewrite lookup_delete_eq|done].
    + rewrite lookup_insert_ne by done. destruct (list_to_map rest !! k); [done|].
      unfold prune_one. simpl. rewrite Hk', Z.eqb_refl.
      destruct (HasExited processes e); simpl; [by rewrite lookup_delete_ne|done].
  - intros k'' e' H. unfold prune_one. simpl. rewrite Hk', Z.eqb_refl.
    destruct (negb _); [apply Hin; by right|].
    rewrite lookup_delete_ne; [apply Hin; by right|]. intros <-. by eapply Hrest.
Qed.

Theorem PruneExited_exact (answer : outcome Snapshot) (m : Records) :
  PruneExited answer m =
    match answer with
    | Done processes => filter (fun '(_, e) => HasExited processes e = false) m
    | _ => m
    end.
Proof.
  unfold PruneExited, prune_copy. destruct (bool_decide (m = ∅)) eqn:E.
  { apply bool_decide_eq_true in E as ->. destruct answer; [|done..]. by rewrite map_filter_empty. }
  destruct answer as [processes| | |]; [|done..]. cbn [prune_query].
  apply map_eq. intros k. rewrite prune_all; [|apply sorted_NoDup|by intros k' e; rewrite sorted_spec].
  rewrite list_to_map_sorted, map_lookup_filter.
  destruct (m !! k) as [e|]; [|done]. cbn.
  destruct (HasExited processes e) eqn:H; [by rewrite option_guard_False|by rewrite option_guard_True].
Qed.

(** ** The hooked entries handed to the caller *)

(** All the successfully hooked records in identifier order, or only their
    number: never a partial copy, never more than [capacity]. *)
Theorem SnapshotHooked_all_or_nothing (identities : bool) (capacity : Z) (m : Records) :
  let '(count, out) := SnapshotHooked identities capacity m in
  count = Z.of_nat (length (filter (fun e => hookState e = PROCESS_HOOK_STATE_SUCCEEDED)
                              (map snd (sorted m)))) /\
  (out = [] \/
   Z.of_nat (length out) = count /\ count <= capacity /\
   (forall e, e ∈ out <-> hookState e = PROCESS_HOOK_STATE_SUCCEEDED /\ exists k, m !! k = Some e)) /\
  (identities = true -> count <= capacity -> Z.of_nat (length out) = count).
Proof.
  unfold SnapshotHooked.
  set (hooked := filter _ _).
  destruct (negb identities || (capacity <? Z.of_nat (length hooked))) eqn:E.
  - split; [done|]. split; [by left|]. intros -> H. simpl in E. bool_hyps. lia.
  - bool_hyps. split; [done|]. split; [|done]. right. split; [done|]. split; [lia|].
    intros e. subst hooked. rewrite list_elem_of_filter.
    split; intros [H1 H2]; (split; [done|]).
    + apply list_elem_of_fmap in H2 as ([k e'] & -> & H2). exists k. by apply sorted_spec.
    + destruct H2 as [k H2]. apply list_elem_of_fmap. exists (k, e). by rewrite sorted_spec.
Qed.

(** ** The registry among other threads

    [live] is the system's process table (identifier to creation time) and
    [last] the latest creation time each identifier ever had: the system reuses
    an identifier only with a later time.  A report is about a process that has
    been created.  A complete system snapshot lists every live process, with
    its creation time or with 0. *)

Record World := mkWorld {
  live : gmap Z Z;
  last : gmap Z Z;
  registry : Records;
  pruning : PruneState
}.

Definition last_time (w : World) (pid : Z) : Z := default 0 (last w !! pid).

Definition lists_live (l : gmap Z Z) (s : Snapshot) : Prop :=
  forall p t, l !! p = Some t ->
    exists t', creationTimes s !! p = Some t' /\ (t' = 0 \/ t' = t).

Inductive step : World -> World -> Prop :=
  | step_create w p t :
      live w !! p = None -> p <> 0 -> 0 < t -> last_time w p < t ->
      step w (mkWorld (<[p := t]> (live w)) (<[p := t]> (last w)) (registry w) (pruning w))
  | step_exit w p :
      step w (mkWorld (delete p (live w)) (last w) (registry w) (pruning w))
  | step_Register w id :
      0 <= id_processCreateTime id <= last_time w (dwProcessId id) ->
      step w (mkWorld (live w) (last w) (snd (Register (Some id) (registry w))) (pruning w))
  | step_Update w p t error :
      0 <= t <= last_time w p ->
      step w (mkWorld (live w) (last w) (snd (Update p t error (registry w))) (pruning w))
  | step_prune_copy w :
      pruning w = PIdle ->
      step w (mkWorld (live w) (last w) (registry w) (prune_copy (registry w)))
  | step_prune_query w m answer :
      pruning w = PCopied m -> (forall s, answer = Done s -> lists_live (live w) s) ->
      step w (mkWorld (live w) (last w) (registry w) (prune_query answer m))
  | step_prune_one w s it rest :
      pruning w = PScan s (it :: rest) ->
      step w (mkWorld (live w) (last w) (prune_one s it (registry w)) (PScan s rest))
  | step_prune_done w s :
      pruning w = PScan s [] ->
      step w (mkWorld (live w) (last w) (registry w) PIdle).

(** A record about [p] made no later than now. *)
Definition dated (w : World) (p : Z) (e : HookProcessIdentityInfo) : Prop :=
  identity_ok p e /\ id_processCreateTime e <= last_time w p.

Definition pruning_ok (w : World) : Prop :=
  match pruning w with
  | PIdle => True
  | PCopied m => map_Forall (dated w) m
  | PScan s rest =>
      forall p e, (p, e) ∈ rest -> dated w p e /\
        (HasExited s e = true -> live w !! p <> Some (id_processCreateTime e))
  end.

Record world_ok (w : World) : Prop := {
  wo_live : forall p t, live w !! p = Some t -> last_time w p = t /\ 0 < t;
  wo_registry : map_Forall (dated w) (registry w);
  wo_pruning : pruning_ok w
}.

Definition start : World := mkWorld ∅ ∅ ∅ PIdle.

Lemma start_ok : world_ok start.
Proof. split; [done| |done]. apply map_Forall_empty. Qed.

Lemma registry_of_world w : world_ok w -> registry_ok (registry w).
Proof. intros [_ H _] k e Hk. by apply H. Qed.

Lemma dated_weaken w w' p e :
  (forall p, last_time w p <= last_time w' p) -> dated w p e -> dated w' p e.
Proof. intros H [? ?]. split; [done|]. specialize (H p). lia. Qed.

Lemma last_create w p t q :
  last_time w p < t ->
  last_time (mkWorld (<[p := t]> (live w)) (<[p := t]> (last w)) (registry w) (pruning w)) q
  = (if decide (q = p) then t else last_time w q) /\
  last_time w q <= (if decide (q = p) then t else last_time w q).
Proof.
  intros H. unfold last_time at 1. simpl. destruct (decide (q = p)) as [->|].
  - rewrite lookup_insert_eq. simpl. lia.
  - rewrite lookup_insert_ne by done. simpl. split; [done|lia].
Qed.

Lemma lists_live_alive w s p e :
  lists_live (live w) s -> live w !! p = Some (id_processCreateTime e) -> dwProcessId e = p ->
  HasExited s e = false.
Proof.
  intros Hs Hl Hp. destruct (Hs _ _ Hl) as (t' & Ht & Hor). unfold HasExited.
  destruct (_ || _ || _); [done|]. rewrite Hp, Ht. apply andb_false_iff.
  destruct Hor as [->| ->]; [left|right]; by rewrite Z.eqb_refl.
Qed.

Lemma create_ok w p t :
  0 < t -> last_time w p < t -> world_ok w ->
  world_ok (mkWorld (<[p := t]> (live w)) (<[p := t]> (last w)) (registry w) (pruning w)).
Proof.
  intros H0 Ht [Hlive Hreg Hpr].
  assert (Hmono : forall q, last_time w q <= last_time (mkWorld (<[p := t]> (live w))
      (<[p := t]> (last w)) (registry w) (pruning w)) q)
    by (intros q; destruct (last_create w p t q Ht) as [-> ?]; done).
  split.
  - intros q u. rewrite (proj1 (last_create w p t q Ht)). simpl.
    destruct (decide (q = p)) as [->|].
    + rewrite lookup_insert_eq. by intros [= <-].
    + rewrite lookup_insert_ne by done. apply Hlive.
  - intros k e Hk. eapply dated_weaken; [done|]. by apply Hreg.
  - unfold pruning_ok in *; simpl. destruct (pruning w) as [|m|s rest]; [done| |].
    + intros k e Hk. eapply dated_weaken; [done|]. by apply Hpr.
    + intros q e Hq. destruct (Hpr q e Hq) as [Hd He]. split; [by eapply dated_weaken|].
      intros Hx. destruct (decide (q = p)) as [->|].
      * rewrite lookup_insert_eq. intros [= Heq]. destruct Hd as [_ Hd]. lia.
      * rewrite lookup_insert_ne by done. by apply He.
Qed.

Lemma exit_ok w p :
  world_ok w -> world_ok (mkWorld (delete p (live w)) (last w) (registry w) (pruning w)).
Proof.
  intros [Hlive Hreg Hpr]. split; simpl; [|done|].
  - intros q t Hq. apply lookup_delete_Some in Hq as [_ Hq]. by apply Hlive.
  - unfold pruning_ok in *; simpl. destruct (pruning w) as [|m|s rest]; [done..|].
    intros q e Hq. destruct (Hpr q e Hq) as [Hd He]. split; [done|].
    intros Hx Hl. apply lookup_delete_Some in Hl as [_ Hl]. by apply He.
Qed.

Lemma report_ok w m :
  world_ok w -> map_Forall (dated w) m -> world_ok (mkWorld (live w) (last w) m (pruning w)).
Proof. intros [Hlive Hreg Hpr] Hm. by split. Qed.

Lemma dated_Register w id :
  0 <= id_processCreateTime id <= last_time w (dwProcessId id) -> world_ok w ->
  map_Forall (dated w) (snd (Register (Some id) (registry w))).
Proof.
  intros Ht Hw. rewrite Register_eq by lia.
  destruct (_ || _ || _ || _) eqn:E; [apply Hw|]. bool_hyps.
  apply map_Forall_insert_2; [|apply Hw].
  destruct (registered_ok id (registry w !! dwProcessId id)
    (default zero_identity (registered id (registry w !! dwProcessId id)))) as [? He]; [lia|done| |done|].
  { intros o Ho. by apply (registry_of_world w Hw). }
  split; [done|]. rewrite He. lia.
Qed.

Lemma dated_Update w p t error :
  0 <= t <= last_time w p -> world_ok w ->
  map_Forall (dated w) (snd (Update p t error (registry w))).
Proof.
  intros Ht Hw. rewrite Update_eq by lia.
  destruct (_ || _ || _) eqn:E; [apply Hw|]. bool_hyps.
  apply map_Forall_insert_2; [|apply Hw].
  destruct (updated_ok p t error (registry w !! p)
    (default zero_identity (updated p t error (registry w !! p)))) as [? He]; [lia|done| |done|].
  { intros o Ho. by apply (registry_of_world w Hw). }
  split; [done|]. rewrite He. lia.
Qed.

Lemma query_ok w m answer :
  (forall s, answer = Done s -> lists_live (live w) s) -> map_Forall (dated w) m ->
  world_ok w -> world_ok (mkWorld (live w) (last w) (registry w) (prune_query answer m)).
Proof.
  intros Hs Hm [Hlive Hreg Hpr]. split; [done..|]. unfold pruning_ok, prune_query; simpl.
  destruct answer as [s| | |]; [|done..]. intros q e Hq. apply sorted_spec in Hq.
  pose proof (Hm _ _ Hq) as [Hid Hd]. split; [done|]. intros Hx Hl.
  rewrite (lists_live_alive w s q e) in Hx; [done|by apply Hs|done|apply Hid].
Qed.

Lemma step_ok w w' : step w w' -> world_ok w -> world_ok w'.
Proof.
  intros Hstep Hw. pose proof (wo_pruning w Hw) as Hpr. unfold pruning_ok in Hpr.
  destruct Hstep as [w p t Hp Hp0 H0 Ht|w p|w id Hid|w p t error Ht|w E|w m answer E Hs|w s it rest E|w s E];
    try rewrite E in Hpr.
  - by apply create_ok.
  - by apply exit_ok.
  - apply report_ok; [done|]. by apply dated_Register.
  - apply report_ok; [done|]. by apply dated_Update.
  - destruct Hw. split; [done..|]. unfold pruning_ok, prune_copy. simpl.
    by destruct (bool_decide _).
  - by apply query_ok.
  - destruct Hw as [Hlive Hreg _]. split; [done| |].
    + simpl. intros k e Hk. apply Hreg. eapply lookup_weaken; [done|apply prune_one_subseteq].
    + intros p e Hin. apply Hpr. by right.
  - by destruct Hw.
Qed.

(** ** A live process keeps its record *)

(** [e'] still says of [e]'s process what [e] said: same lifetime, and a
    successful hook stays successful. *)
Definition keeps_result (e e' : HookProcessIdentityInfo) : Prop :=
  id_processCreateTime e' = id_processCreateTime e /\
  (hookState e = PROCESS_HOOK_STATE_SUCCEEDED ->
   hookState e' = PROCESS_HOOK_STATE_SUCCEEDED /\ hookError e' = hookError e).

Lemma step_last w w' p : step w w' -> last_time w p <= last_time w' p.
Proof.
  destruct 1 as [w q t Hp Hp0 H0 Ht| | | | | | |]; try done.
  destruct (last_create w q t p Ht) as [-> ?]. done.
Qed.

Lemma step_live_back w w' p t :
  step w w' -> t <= last_time w p -> live w' !! p = Some t -> live w !! p = Some t.
Proof.
  intros Hs Ht. destruct Hs as [w q u Hp Hp0 H0 Hu|w q| | | | | |]; try done; simpl.
  - destruct (decide (p = q)) as [->|]; [rewrite lookup_insert_eq; intros [= ->]; lia|].
    by rewrite lookup_insert_ne.
  - by intros [_ ?]%lookup_delete_Some.
Qed.

Lemma keeps_result_trans a b c : keeps_result a b -> keeps_result b c -> keeps_result a c.
Proof.
  intros [E1 H1] [E2 H2]. split; [congruence|]. intros H.
  destruct (H1 H) as [Hb Eb]. destruct (H2 Hb). split; congruence.
Qed.

Lemma same_lifetime_same pid e : same_lifetime pid (id_processCreateTime e) e = e.
Proof. unfold same_lifetime. by rewrite Z.eqb_refl. Qed.

Lemma step_keeps w w' p e :
  step w w' -> world_ok w -> registry w !! p = Some e ->
  live w !! p = Some (id_processCreateTime e) ->
  exists e', registry w' !! p = Some e' /\ keeps_result e e'.
Proof.
  intros Hstep Hw He Hl. destruct (wo_live w Hw _ _ Hl) as [Hlast Hpos].
  pose proof (wo_pruning w Hw) as Hpr. unfold pruning_ok in Hpr.
  assert (Hself : exists e', registry w !! p = Some e' /\ keeps_result e e') by (exists e; by split).
  destruct Hstep as [w q t Hp Hp0 H0 Ht|w q|w id Hid|w q t error Ht|w E|w m answer E Hs|w s [q x] rest E|w s E];
    try done; try rewrite E in Hpr; cbn [registry].
  - rewrite Register_eq by lia. destruct (_ || _ || _ || _) eqn:B; [done|]. bool_hyps.
    destruct (decide (p = dwProcessId id)) as [->|]; [|by rewrite lookup_insert_ne].
    rewrite lookup_insert_eq, He. eexists; split; [done|].
    assert (id_processCreateTime id = id_processCreateTime e) as Ei
      by (unfold lifetime in *; rewrite He in *; lia).
    unfold registered; simpl. rewrite Ei, same_lifetime_same. done.
  - rewrite Update_eq by lia. destruct (_ || _ || _) eqn:B; [done|]. bool_hyps.
    destruct (decide (p = q)) as [->|]; [|by rewrite lookup_insert_ne].
    rewrite lookup_insert_eq, He. eexists; split; [done|].
    assert (t = id_processCreateTime e) as ->
      by (unfold lifetime in *; rewrite He in *; lia).
    unfold updated; simpl. rewrite same_lifetime_same.
    destruct (Z.eqb_spec (hookState e) PROCESS_HOOK_STATE_SUCCEEDED); simpl; by split.
  - unfold prune_one; cbn [fst snd]. destruct (Hpr q x) as [_ Hx]; [left|].
    destruct (HasExited s x) eqn:X; cbn [negb]; [|done].
    destruct (registry w !! q) as [c|] eqn:C; [|done].
    destruct (Z.eqb_spec (id_processCreateTime c) (id_processCreateTime x)) as [Ec|]; [|done].
    destruct (decide (p = q)) as [->|]; [|by rewrite lookup_delete_ne].
    exfalso. apply Hx; [done|]. rewrite Hl. congruence.
Qed.

(** C23: Whatever registrations, results, process starts and exits interleave with a
    scan, the record of a process that is still running is never lost, never
    replaced by another lifetime and never forgets a successful hook. *)
Theorem registered_survives (w0 w w' : World) (p : Z) (e : HookProcessIdentityInfo) :
  world_ok w0 -> rtc step w0 w -> rtc step w w' ->
  registry w !! p = Some e ->
  live w' !! p = Some (id_processCreateTime e) ->
  exists e', registry w' !! p = Some e' /\ keeps_result e e'.
Proof.
  intros H0 Hw Hs He Hl.
  assert (world_ok w) as Hok by (clear -H0 Hw; induction Hw; eauto using step_ok).
  clear w0 H0 Hw. revert e He Hl.
  induction Hs as [w|w w1 w' Hstep Hs IH]; intros e He Hl; [exists e; by split|].
  assert (Hd : id_processCreateTime e <= last_time w p) by (by apply (wo_registry w Hok)).
  assert (Hl1 : live w1 !! p = Some (id_processCreateTime e)).
  { clear IH. pose proof (step_last w w1 p Hstep) as Hm. clear Hstep Hok He.
    assert (Hd1 : id_processCreateTime e <= last_time w1 p) by lia. clear Hm Hd w.
    induction Hs as [w|w w1 w' Hstep Hs IH]; [done|].
    eapply step_live_back; [done|done|]. apply IH; [done|].
    pose proof (step_last w w1 p Hstep). lia. }
  destruct (step_keeps w w1 p e Hstep Hok He) as (e1 & He1 & Hk).
  { by eapply step_live_back. }
  destruct (IH (step_ok _ _ Hstep Hok) e1 He1) as (e' & He' & Hk').
  { by rewrite (proj1 Hk). }
  exists e'. split; [done|]. by eapply keeps_result_trans.
Qed.

(** Process 7 is hooked, a scan copies the table, 7 exits and its identifier is
    reused by a later process that registers before the scan goes on: the scan
    finds the old lifetime gone but keeps the new record. *)
Definition app_path : list Z := ascii_bytes "C:\a.exe".
Definition first_life : HookProcessIdentityInfo := mkIdentity 7 100 app_path 0 0.
Definition second_life : HookProcessIdentityInfo := mkIdentity 7 200 app_path 0 0.
Definition reuse_snapshot : Snapshot := mkSnapshot true [] {[ 7 := 200 ]}.
Definition reuse_records : Records := {[ 7 := first_life ]}.

Lemma registered_survives_witness :
  exists w w' e',
    rtc step start w /\ rtc step w w' /\ registry w !! 7 = Some second_life /\
    registry w' !! 7 = Some e' /\ keeps_result second_life e'.
Proof.
  set (w := mkWorld {[ 7 := 200 ]} {[ 7 := 200 ]} {[ 7 := second_life ]} (PCopied reuse_records)).
  set (w' := mkWorld {[ 7 := 200 ]} {[ 7 := 200 ]} {[ 7 := second_life ]} (PScan reuse_snapshot [])).
  assert (R1 : rtc step start w).
  { eapply rtc_l; [apply (step_create start 7 100); [done|done|lia|by vm_compute]|].
    eapply rtc_l; [apply (step_Register _ first_life); by vm_compute|].
    eapply rtc_l; [by apply step_prune_copy|].
    eapply rtc_l; [apply (step_exit _ 7)|].
    eapply rtc_l; [apply (step_create _ 7 200); [by vm_compute|done|lia|by vm_compute]|].
    eapply rtc_l; [apply (step_Register _ second_life); by vm_compute|].
    assert (forall a b, a = b -> rtc step a b) as H by (by intros a ? <-). apply H. by vm_compute. }
  assert (R2 : rtc step w w').
  { eapply rtc_l; [eapply (step_prune_query w reuse_records (Done reuse_snapshot)); [done|]|].
    { intros s [= <-] p t Hp. exists t. split; [|by right].
      unfold w in Hp; simpl in Hp. apply lookup_singleton_Some in Hp as [<- <-]. by vm_compute. }
    eapply rtc_l; [eapply (step_prune_one _ reuse_snapshot (7, first_life) []); by vm_compute|].
    assert (forall a b, a = b -> rtc step a b) as H by (by intros a ? <-). apply H. by vm_compute. }
  exists w, w'.
  destruct (registered_survives start w w' 7 second_life start_ok R1 R2) as (e' & H1 & H2);
    [by vm_compute|by vm_compute|].
  exists e'. split; [done|]. split; [done|]. split; [by vm_compute|]. by split.
Defined.
