(* ===== verification/ChildGuard.v ===== *)
(** * The guard against orphaned suspended children (ProxyReceptionCentre.cpp)

    [CheckSuspendedChildren] runs on a timer and terminates processes that were
    created suspended for injection and whose parent died before releasing
    them.  Everything it asks the system for is a function of a moment that
    grows with each question; the tables it shares with the pipe threads may be
    changed by them whenever it takes the lock. *)

From S2P Require Import Prelude OrderedMap Effects ProcessIdentity ProcessRegistry.

Definition CHILD_GUARD_MINIMUM_AGE_100NS : Z := 600000000.

Record ChildGuardProcessSnapshot := mkChildGuard {
  cg_processId : Z;
  cg_parentProcessId : Z;
  cg_threadId : Z;
  cg_threadCount : Z;
  cg_createTime : Z;
  cg_cpuTime : Z;
  cg_onlyThreadSuspended : bool
}.

Abbreviation ProcessTable := (gmap Z ChildGuardProcessSnapshot).

Record SuspendedChildObservation := mkObservation {
  ob_processCreateTime : Z;
  ob_cpuTime : Z;
  ob_consecutiveChecks : Z
}.

(** ** What the guard asks the outside *)
Class Outside := {
  GetProxyLaneChildGuardInfo : nat -> option (list Z * Z);   (* marker name, generation time *)
  QueryChildGuardProcessSnapshot : nat -> option ProcessTable;
  SystemTime : nat -> Z;                                     (* GetSystemTimeAsFileTime *)
  RemoteProcessHasChildGuard : nat -> Z -> list Z -> bool;
  OpenProcess_times : nat -> Z -> option (option Z);  (* handle, creation time it reports *)
  TerminateProcess : nat -> Z -> bool;
  (* what other threads own or do before this thread takes the lock *)
  process_registry : nat -> Records;
  released_by_others : nat -> list (Z * Z)
}.

(** A termination, with the moment of the request. *)
Inductive Kill := mkKill (pid createTime : Z) (at_ : nat).

Record Guard := mkGuard {
  m_ReleasedChildren : gmap Z Z;
  m_SuspendedChildObservations : gmap Z SuspendedChildObservation;
  m_ProcessedSuspendedChildren : gmap Z Z;
  moment : nat;
  kills : list Kill;
  lock_log : list (nat * gmap Z Z)   (* ghost: the released children found at each locking *)
}.

Definition set_released (v : gmap Z Z) (g : Guard) : Guard :=
  mkGuard v (m_SuspendedChildObservations g) (m_ProcessedSuspendedChildren g) (moment g) (kills g)
    (lock_log g).
Definition set_observations (v : gmap Z SuspendedChildObservation) (g : Guard) : Guard :=
  mkGuard (m_ReleasedChildren g) v (m_ProcessedSuspendedChildren g) (moment g) (kills g)
    (lock_log g).
Definition set_processed (v : gmap Z Z) (g : Guard) : Guard :=
  mkGuard (m_ReleasedChildren g) (m_SuspendedChildObservations g) v (moment g) (kills g) (lock_log g).
Definition tick (g : Guard) : Guard :=
  mkGuard (m_ReleasedChildren g) (m_SuspendedChildObservations g)
    (m_ProcessedSuspendedChildren g) (S (moment g)) (kills g) (lock_log g).
Definition add_kill (k : Kill) (g : Guard) : Guard :=
  mkGuard (m_ReleasedChildren g) (m_SuspendedChildObservations g)
    (m_ProcessedSuspendedChildren g) (moment g) (kills g ++ [k]) (lock_log g).
Definition log_lock (g : Guard) : Guard :=
  mkGuard (m_ReleasedChildren g) (m_SuspendedChildObservations g)
    (m_ProcessedSuspendedChildren g) (moment g) (kills g)
    (lock_log g ++ [(moment g, m_ReleasedChildren g)]).

(** A guard at its start; the tables it shares may have entries. *)
Definition start_guard (released processed : gmap Z Z) : Guard := mkGuard released ∅ processed 0 [] [].

Abbreviation GM := (M Guard).

(** A question asked at the present moment. *)
Definition ask {A} (f : nat -> A) : GM A :=
  n ← gets moment;
  modify tick ;;
  mret (f n).

(** ** The process table (an association of identifier and snapshot)

    [current == end || current.createTime != time]: the table no longer lists
    that lifetime. *)
Definition gone (processes : ProcessTable) (pid time : Z) : bool :=
  match processes !! pid with
  | Some current => negb (cg_createTime current =? time)
  | None => true
  end.

Definition prune_times (processes : ProcessTable) (m : gmap Z Z) : gmap Z Z :=
  filter (fun '(pid, time) => gone processes pid time = false) m.
Definition prune_observations (processes : ProcessTable) (m : gmap Z SuspendedChildObservation)
    : gmap Z SuspendedChildObservation :=
  filter (fun '(pid, o) => gone processes pid (ob_processCreateTime o) = false) m.

(** [RegisterReleasedChild] after its argument and creation time checks: the
    locked assignment. *)
Definition release (m : gmap Z Z) (child : Z * Z) : gmap Z Z := <[child.1 := child.2]> m.

Section Guard.
Context `{Outside}.

(** [EnterCriticalSection(&m_ReleasedChildrenLock)]: what the other threads
    did meanwhile is visible. *)
Definition lock : GM unit :=
  others ← ask released_by_others;
  modify (fun g => set_released (foldl release (m_ReleasedChildren g) others) g) ;;
  modify log_lock.

Definition RegisterReleasedChild (actual : option Z) (pid createTime : Z) : GM bool :=
  if (pid =? 0) || (createTime =? 0) then mret false
  else if match actual with Some a => negb (a =? createTime) | None => false end
  then mret false
  else
    lock ;;
    modify (fun g => set_released (release (m_ReleasedChildren g) (pid, createTime)) g) ;;
    mret true.

(** The first filter on one entry of the table. *)
Definition candidate (markerGenerationTime now : Z) (child : ChildGuardProcessSnapshot) : bool :=
  negb ((cg_createTime child <? markerGenerationTime) || (now <? cg_createTime child)
        || (u64 (now - cg_createTime child) <? CHILD_GUARD_MINIMUM_AGE_100NS)
        || negb (cg_threadCount child =? 1) || negb (cg_onlyThreadSuspended child)
        || (cg_threadId child =? 0)).

(** The parent is still the process that created the child. *)
Definition has_parent (processes : ProcessTable) (child : ChildGuardProcessSnapshot) : bool :=
  negb (cg_parentProcessId child =? 0) &&
  match processes !! cg_parentProcessId child with
  | Some parent => cg_createTime parent <=? cg_createTime child
  | None => false
  end.

(** Registered or released, looked up under the lock. *)
Definition claimed (child : ChildGuardProcessSnapshot) : GM bool :=
  lock ;;
  registry ← ask process_registry;
  released ← gets m_ReleasedChildren;
  mret (match Get (cg_processId child) (cg_createTime child) true registry with
        | Some _ => true
        | None => false
        end || bool_decide (released !! cg_processId child = Some (cg_createTime child))).

Definition next_observation (previous : option SuspendedChildObservation)
    (child : ChildGuardProcessSnapshot) : SuspendedChildObservation :=
  mkObservation (cg_createTime child) (cg_cpuTime child)
    match previous with
    | Some p =>
        if (ob_processCreateTime p =? cg_createTime child) && (ob_cpuTime p =? cg_cpuTime child)
        then u32 (ob_consecutiveChecks p + 1) else 1
    | None => 1
    end.

(** The facts read again just before the termination. *)
Definition unchanged (recheckProcesses : ProcessTable) (child : ChildGuardProcessSnapshot) : bool :=
  match recheckProcesses !! cg_processId child with
  | Some r =>
      (cg_createTime r =? cg_createTime child) && (cg_threadCount r =? 1)
      && cg_onlyThreadSuspended r && (cg_threadId r =? cg_threadId child)
      && (cg_cpuTime r =? cg_cpuTime child)
  | None => false
  end.

Definition terminate (child : ChildGuardProcessSnapshot) : GM unit :=
  opened ← ask (fun n => OpenProcess_times n (cg_processId child));
  match opened with
  | Some (Some created) =>
      if negb (created =? cg_createTime child) then mret tt
      else
        releaseWasRegistered ← claimed child;
        if releaseWasRegistered : bool then mret tt
        else
          n ← gets moment;
          terminated ← ask (fun n => TerminateProcess n (cg_processId child));
          if terminated : bool then
            modify (add_kill (mkKill (cg_processId child) (cg_createTime child) n)) ;;
            modify (fun g => set_processed
              (<[cg_processId child := cg_createTime child]> (m_ProcessedSuspendedChildren g)) g)
          else mret tt
  | _ => mret tt
  end.

Definition recheck_and_terminate (markerName : list Z) (child : ChildGuardProcessSnapshot) : GM unit :=
  recheck ← ask QueryChildGuardProcessSnapshot;
  match recheck with
  | Some recheckProcesses =>
      if negb (unchanged recheckProcesses child) then mret tt
      else
        guarded ← ask (fun n => RemoteProcessHasChildGuard n (cg_processId child) markerName);
        if guarded : bool then terminate child else mret tt
  | None => mret tt
  end.

Abbreviation Observations := (gmap Z SuspendedChildObservation).

(** One turn of the loop over the table; the result is [nextObservations]. *)
Definition check_child (processes : ProcessTable) (markerName : list Z)
    (markerGenerationTime now : Z) (nextObservations : Observations)
    (child : ChildGuardProcessSnapshot) : GM Observations :=
  if negb (candidate markerGenerationTime now child) then mret nextObservations
  else if has_parent processes child then mret nextObservations
  else
    excluded ← claimed child;
    processed ← gets m_ProcessedSuspendedChildren;
    if (excluded : bool)
       || bool_decide (processed !! cg_processId child = Some (cg_createTime child))
    then mret nextObservations
    else
      guarded ← ask (fun n => RemoteProcessHasChildGuard n (cg_processId child) markerName);
      if negb guarded then mret nextObservations
      else
        previous ← gets (fun g => m_SuspendedChildObservations g !! cg_processId child);
        let observation := next_observation previous child in
        let nextObservations := <[cg_processId child := observation]> nextObservations in
        (if ob_consecutiveChecks observation <? 2 then mret tt
         else recheck_and_terminate markerName child) ;;
        mret nextObservations.

Fixpoint check_children (processes : ProcessTable) (markerName : list Z)
    (markerGenerationTime now : Z) (nextObservations : Observations)
    (children : list ChildGuardProcessSnapshot) : GM Observations :=
  match children with
  | [] => mret nextObservations
  | child :: rest =>
      next ← check_child processes markerName markerGenerationTime now nextObservations child;
      check_children processes markerName markerGenerationTime now next rest
  end.

Definition CheckSuspendedChildren : GM unit :=
  info ← ask GetProxyLaneChildGuardInfo;
  match info with
  | None => mret tt
  | Some (markerName, markerGenerationTime) =>
      table ← ask QueryChildGuardProcessSnapshot;
      match table with
      | None => mret tt
      | Some processes =>
          lock ;;
          modify (fun g => set_released (prune_times processes (m_ReleasedChildren g)) g) ;;
          modify (fun g => set_observations
                             (prune_observations processes (m_SuspendedChildObservations g)) g) ;;
          modify (fun g => set_processed
                             (prune_times processes (m_ProcessedSuspendedChildren g)) g) ;;
          now ← ask SystemTime;
          next ← check_children processes markerName markerGenerationTime now ∅
                   (map snd (sorted processes));
          modify (set_observations next)
      end
  end.

(** [k] timer ticks. *)
Definition scans (k : nat) (g : Guard) : Guard := Nat.iter k (exec CheckSuspendedChildren) g.
End Guard.
