(* ===== verification/ChildGuardSafety.v ===== *)
(** * What the child guard terminates

    Every termination is justified by what the system answered at named
    moments, and a child that was released or registered is spared. *)

From S2P Require Import Prelude OrderedMap Effects ProcessIdentity ProcessRegistry ChildGuard.

(** What the queries promise: entries are filed under their identifier. *)
Class OutsideLaws `{Outside} := {
  table_keys n T p c :
    QueryChildGuardProcessSnapshot n = Some T -> T !! p = Some c -> cg_processId c = p
}.

Section Safety.
Context `{OutsideLaws}.

Lemma wp_ask {A} (f : nat -> A) Q g : Q (f (moment g)) (tick g) -> wp (ask f) Q g.
Proof. done. Qed.

(** ** Justified terminations *)

(** At moment [n] the system lists the process with its only thread, [tid],
    suspended. *)
Definition listed (n : nat) (pid time cpu tid : Z) (T : ProcessTable) : Prop :=
  exists c, QueryChildGuardProcessSnapshot n = Some T /\ T !! pid = Some c /\
    cg_createTime c = time /\ cg_cpuTime c = cpu /\ cg_threadCount c = 1 /\
    cg_onlyThreadSuspended c = true /\ cg_threadId c = tid /\ tid <> 0.

(** In that table its parent has exited (or its identifier has been reused). *)
Definition orphaned (T : ProcessTable) (pid : Z) : Prop :=
  exists c, T !! pid = Some c /\ has_parent T c = false.

(** What one scan sees of a process: asked at moment [i], the marker's name,
    whose generation is not younger than the process; listed at [n] as an
    orphan; a minute old at [t]; and with the marker in it at [m]. *)
Definition sighting (i n t m : nat) (pid time cpu tid : Z) (name : list Z) : Prop :=
  (i < n < t)%nat /\ (t < m)%nat /\
  (exists generation, GetProxyLaneChildGuardInfo i = Some (name, generation) /\ generation <= time) /\
  (exists T, listed n pid time cpu tid T /\ orphaned T pid) /\
  CHILD_GUARD_MINIMUM_AGE_100NS <= u64 (SystemTime t - time) /\ time <= SystemTime t /\
  RemoteProcessHasChildGuard m pid name = true.

(** Two scans in a row, [0] and [1], saw the process as an orphan that waits, and
    it used no time in between; after the second it was listed once more with
    the same thread suspended and the same time used, [n2], and had the marker,
    [n3]; a handle to it named its lifetime, [n4]; and at [n5] the guard took
    the lock and found it neither released nor registered. *)
Definition justified (log : list (nat * gmap Z Z)) (k : Kill) : Prop :=
  let '(mkKill pid time n) := k in
  exists i0 n0 t0 m0 tid0 name0 i1 n1 t1 m1 tid name n2 n3 n4 n5 cpu T2 released,
    sighting i0 n0 t0 m0 pid time cpu tid0 name0 /\ (m0 < i1)%nat /\
    sighting i1 n1 t1 m1 pid time cpu tid name /\
    (m1 < n2 < n3)%nat /\ (n3 < n4 < n5)%nat /\ (n5 < n)%nat /\
    listed n2 pid time cpu tid T2 /\ RemoteProcessHasChildGuard n3 pid name = true /\
    OpenProcess_times n4 pid = Some (Some time) /\
    (n5, released) ∈ log /\ released !! pid <> Some time /\
    Get pid time true (process_registry n5) = None.

Lemma justified_more log l k : justified log k -> justified (log ++ l) k.
Proof.
  destruct k. intros (i0 & n0 & t0 & m0 & tid0 & name0 & i1 & n1 & t1 & m1 & tid & name & n2 & n3 & n4 & n5 &
    cpu & T2 & released & H'). exists i0, n0, t0, m0, tid0, name0, i1, n1, t1, m1, tid, name, n2, n3, n4, n5, cpu, T2, released.
  repeat (split; [apply H'|]). split; [apply elem_of_app; left; apply H'|]. apply H'.
Qed.

(** An observation is a sighting that was over before [b]. *)
Definition backed (b : nat) (O : gmap Z SuspendedChildObservation) : Prop :=
  forall pid o, O !! pid = Some o ->
    exists i n t m tid name, (m < b)%nat /\
      sighting i n t m pid (ob_processCreateTime o) (ob_cpuTime o) tid name.

Lemma backed_weaken b b' O : (b <= b')%nat -> backed b O -> backed b' O.
Proof.
  intros Hb HO pid o Ho. destruct (HO pid o Ho) as (i & n & t & m & tid & name & Hn & Hs).
  exists i, n, t, m, tid, name. split; [lia|done].
Qed.

Lemma backed_prune b T O : backed b O -> backed b (prune_observations T O).
Proof.
  intros HO pid o Ho. apply map_lookup_filter_Some in Ho as [Ho _]. by apply HO.
Qed.

Record guard_ok (g : Guard) : Prop := {
  go_kills : Forall (justified (lock_log g)) (kills g);
  go_observations : backed (moment g) (m_SuspendedChildObservations g)
}.

Lemma start_guard_ok r p : guard_ok (start_guard r p).
Proof. split; [constructor|]. by intros pid o. Qed.

(** ** One scan

    [b] is the moment the scan asked for the marker's name, [n1] that of its
    table and [t1] that of its clock; [O] are the observations of earlier scans. *)
Section Scan.
Context (b n1 t1 : nat) (T : ProcessTable) (name : list Z) (generation : Z)
        (O : gmap Z SuspendedChildObservation).
Hypothesis Hb : (b < n1 < t1)%nat.
Hypothesis HT : QueryChildGuardProcessSnapshot n1 = Some T.
Hypothesis Hname : GetProxyLaneChildGuardInfo b = Some (name, generation).
Hypothesis HO : backed b O.

Definition scanning (g : Guard) : Prop :=
  (t1 < moment g)%nat /\ Forall (justified (lock_log g)) (kills g) /\ m_SuspendedChildObservations g = O.

Lemma scanning_tick g : scanning g -> scanning (tick g).
Proof. intros (? & ? & ?). split; [simpl; lia|done]. Qed.

Lemma scanning_released v g : scanning g -> scanning (set_released v g).
Proof. by intros (? & ? & ?). Qed.

Lemma scanning_log g : scanning g -> scanning (log_lock g).
Proof.
  intros (? & Hk & ?). split; [done|]. split; [|done]. simpl.
  eapply Forall_impl; [exact Hk|]. intros k. apply justified_more.
Qed.

(** The lock, the registry and the released children: [claimed] asks at a
    later moment, and finds the children as they are at the locking. *)
Lemma wp_claimed child (Q : bool -> Guard -> Prop) g :
  scanning g ->
  (forall c g' n5 released, scanning g' -> (moment g < n5 < moment g')%nat ->
     (n5, released) ∈ lock_log g' ->
     (c = false -> Get (cg_processId child) (cg_createTime child) true (process_registry n5) = None /\
        released !! cg_processId child <> Some (cg_createTime child)) ->
     Q c g') ->
  wp (claimed child) Q g.
Proof.
  intros Hg HQ. unfold claimed, lock. repeat (wp_step || apply wp_ask).
  set (released := foldl release (m_ReleasedChildren (tick g)) (released_by_others (moment g))).
  apply (HQ _ _ (S (moment g)) released).
  - apply scanning_tick, scanning_log, scanning_released, scanning_tick. done.
  - simpl. lia.
  - simpl. apply elem_of_app. right. by left.
  - cbn [moment tick log_lock set_released]. destruct (Get _ _ _ _); [done|]. cbn [orb]. intros Hr.
    split; [done|]. by apply bool_decide_eq_false in Hr.
Qed.

(** A child that passed the filters of this scan. *)
Definition filtered (child : ChildGuardProcessSnapshot) : Prop :=
  T !! cg_processId child = Some child /\
  candidate generation (SystemTime t1) child = true /\ has_parent T child = false.

(** The process of [child], seen in an earlier scan. *)
Definition seen_before (child : ChildGuardProcessSnapshot) : Prop :=
  exists i n t m tid name0, (m < b)%nat /\
    sighting i n t m (cg_processId child) (cg_createTime child) (cg_cpuTime child) tid name0.

(** The same in this scan, once the marker was found at [m]. *)
Definition seen_now (m : nat) (child : ChildGuardProcessSnapshot) : Prop :=
  sighting b n1 t1 m (cg_processId child) (cg_createTime child) (cg_cpuTime child) (cg_threadId child) name.

Lemma filtered_seen m child :
  filtered child -> (t1 < m)%nat -> RemoteProcessHasChildGuard m (cg_processId child) name = true ->
  seen_now m child.
Proof.
  intros (Hin & Hc & Hp) Hm Hr. unfold candidate in Hc. bool_hyps.
  split; [done|]. split; [done|]. split; [exists generation; split; [done|lia]|].
  split; [|split; [lia|split; [lia|done]]].
  exists T. split; exists child; [|done]. repeat split; try done; lia.
Qed.

Lemma wp_terminate child m1 n2 n3 T2 (Q : unit -> Guard -> Prop) g :
  scanning g -> seen_before child -> seen_now m1 child ->
  (m1 < n2 < n3)%nat -> (n3 < moment g)%nat ->
  listed n2 (cg_processId child) (cg_createTime child) (cg_cpuTime child) (cg_threadId child) T2 ->
  RemoteProcessHasChildGuard n3 (cg_processId child) name = true ->
  (forall g', scanning g' -> (moment g <= moment g')%nat -> Q tt g') ->
  wp (terminate child) Q g.
Proof.
  intros Hg Hs0 S1 Hn2 Hn3 S2 Hm HQ. unfold terminate. wp_step. apply wp_ask.
  destruct (OpenProcess_times (moment g) _) as [[created|]|] eqn:E;
    [|wp_step; apply HQ; [by apply scanning_tick|simpl; lia]..].
  wp_step; [wp_step; apply HQ; [by apply scanning_tick|simpl; lia]|]. bool_hyps. wp_step.
  apply wp_claimed; [by apply scanning_tick|]. intros c g' n5 released Hg' Hn5 Hlog Hreg. simpl in Hn5.
  destruct c; [wp_step; apply HQ; [done|lia]|].
  repeat (wp_step || apply wp_ask); [|apply HQ; [by apply scanning_tick|simpl; lia]].
  apply HQ; [|simpl; lia]. destruct Hg' as (? & Hk & ?). split; [simpl; lia|]. split; [|done]. simpl.
  apply Forall_app; split; [done|]. constructor; [|constructor].
  destruct Hs0 as (i0 & n0 & t0 & m0 & tid0 & name0 & Hm0 & S0). destruct (Hreg eq_refl) as [Hr1 Hr2].
  exists i0, n0, t0, m0, tid0, name0, b, n1, t1, m1, (cg_threadId child), name, n2, n3, (moment g), n5,
    (cg_cpuTime child), T2, released.
  repeat (split; [first [done|lia]|]). split; [by rewrite E; f_equal; f_equal|]. done.
Qed.

Lemma wp_recheck child m1 (Q : unit -> Guard -> Prop) g :
  scanning g -> seen_before child -> seen_now m1 child -> (m1 < moment g)%nat -> 
  (forall g', scanning g' -> (moment g <= moment g')%nat -> Q tt g') ->
  wp (recheck_and_terminate name child) Q g.
Proof.
  intros Hg S0 S1 Hm1 HQ. unfold recheck_and_terminate. wp_step. apply wp_ask.
  destruct (QueryChildGuardProcessSnapshot (moment g)) as [T2|] eqn:E;
    [|wp_step; apply HQ; [by apply scanning_tick|simpl; lia]].
  wp_step; [wp_step; apply HQ; [by apply scanning_tick|simpl; lia]|].
  wp_step. apply wp_ask.
  destruct (RemoteProcessHasChildGuard _ _ _) eqn:G;
    [|wp_step; apply HQ; [by apply scanning_tick, scanning_tick|simpl; lia]].
  assert (S2 : listed (moment g) (cg_processId child) (cg_createTime child) (cg_cpuTime child)
                 (cg_threadId child) T2).
  { unfold unchanged in *. destruct (T2 !! cg_processId child) as [r|] eqn:R; [|done].
    bool_hyps. destruct S1 as (_ & _ & _ & (T1 & (c1 & _ & _ & _ & _ & _ & _ & _ & Hz) & _) & _).
    exists r. repeat split; try done; lia. }
  destruct Hg as (Hm & ? & ?).
  apply (wp_terminate child m1 (moment g) (moment (tick g)) T2); try done; simpl; try lia.
  - split; [simpl; lia|done].
  - intros g' Hg' Hle. apply HQ; [done|lia].
Qed.

(** The observation carried to the next scan, and what two checks mean. *)
Lemma next_observation_seen m child previous :
  seen_now m child ->
  (forall p, previous = Some p -> exists i n t m0 tid name0, (m0 < b)%nat /\
     sighting i n t m0 (cg_processId child) (ob_processCreateTime p) (ob_cpuTime p) tid name0) ->
  let o := next_observation previous child in
  sighting b n1 t1 m (cg_processId child) (ob_processCreateTime o) (ob_cpuTime o) (cg_threadId child) name /\
  (2 <= ob_consecutiveChecks o -> seen_before child).
Proof.
  intros Hs Hp. cbv zeta. split; [exact Hs|].
  unfold next_observation; simpl. destruct previous as [p|]; [|lia].
  destruct (_ && _) eqn:E; [|lia]. bool_hyps. intros _.
  destruct (Hp p eq_refl) as (i & k & t & m0 & tid & name0 & Hm0 & Hs0).
  exists i, k, t, m0, tid, name0. split; [done|]. congruence.
Qed.

(** Observations of this scan are backed by what it saw before the moment [moment g]. *)
Lemma wp_check_child next child (Q : gmap Z SuspendedChildObservation -> Guard -> Prop) g :
  scanning g -> T !! cg_processId child = Some child -> backed (moment g) next ->
  (forall next' g', scanning g' -> backed (moment g') next' -> Q next' g') ->
  wp (check_child T name generation (SystemTime t1) next child) Q g.
Proof.
  intros Hg Hin Hnext HQ. unfold check_child.
  wp_step; [wp_step; by apply HQ|]. wp_step; [wp_step; by apply HQ|].
  assert (Hf : filtered child) by (split; [done|]; split; [by bool_hyps|done]).
  wp_step. apply wp_claimed; [done|]. intros c g' n5 released Hg' Hn5 _ _.
  assert (Hnext1 : backed (moment g') next) by (eapply backed_weaken; [|exact Hnext]; lia).
  wp_step. wp_step. wp_step; [wp_step; by apply HQ|]. wp_step. apply wp_ask.
  wp_step; [wp_step; apply HQ; [by apply scanning_tick|]; eapply backed_weaken; [|exact Hnext1]; simpl; lia|].
  do 2 wp_step. bool_hyps.
  assert (Hg'' : scanning (tick g')) by (by apply scanning_tick).
  assert (Hs : seen_now (moment g') child) by (apply filtered_seen; [done|apply Hg'|done]).
  set (previous := m_SuspendedChildObservations (tick g') !! cg_processId child).
  destruct (next_observation_seen (moment g') child previous Hs) as [So Stwo].
  { intros p Hp. apply HO. destruct Hg'' as (_ & _ & <-). exact Hp. }
  set (o := next_observation previous child) in *.
  assert (Hnext' : backed (moment (tick g')) (<[cg_processId child := o]> next)).
  { intros q o' Ho'. destruct (decide (q = cg_processId child)) as [->|].
    - rewrite lookup_insert_eq in Ho'. injection Ho' as <-.
      exists b, n1, t1, (moment g'), (cg_threadId child), name. split; [simpl; lia|exact So].
    - rewrite lookup_insert_ne in Ho' by done. destruct (Hnext1 q o' Ho') as (i & k & t & m & tid & nm & ? & ?).
      exists i, k, t, m, tid, nm. split; [simpl; lia|done]. }
  wp_step. wp_step; [wp_step; wp_step; by apply HQ|]. bool_hyps.
  apply (wp_recheck child (moment g')); [done|apply Stwo; lia|done|simpl; lia|].
  intros g2 Hg2 Hle. wp_step. apply HQ; [done|]. by eapply backed_weaken.
Qed.

Lemma wp_check_children next children (Q : gmap Z SuspendedChildObservation -> Guard -> Prop) g :
  scanning g -> backed (moment g) next ->
  (forall c, c ∈ children -> T !! cg_processId c = Some c) ->
  (forall next' g', scanning g' -> backed (moment g') next' -> Q next' g') ->
  wp (check_children T name generation (SystemTime t1) next children) Q g.
Proof.
  revert next g. induction children as [|c children IH]; intros next g Hg Hn Hin HQ; simpl.
  { wp_step. by apply HQ. }
  wp_step. apply wp_check_child; [done|apply Hin; left|done|].
  intros next' g' Hg' Hn'. apply IH; try done. intros d Hd. apply Hin. by right.
Qed.
End Scan.

Lemma guard_ok_CheckSuspendedChildren : keeps guard_ok CheckSuspendedChildren.
Proof.
  intros g [Hk HO]. apply wp_exec. unfold CheckSuspendedChildren.
  wp_step. apply wp_ask.
  destruct (GetProxyLaneChildGuardInfo (moment g)) as [[name generation]|] eqn:Hi; wp_step.
  2: { split; [done|]. eapply backed_weaken; [|done]. simpl; lia. }
  apply wp_ask.
  destruct (QueryChildGuardProcessSnapshot (moment (tick g))) as [T|] eqn:HT.
  2: { wp_step. split; [done|]. eapply backed_weaken; [|done]. simpl; lia. }
  unfold lock. repeat (wp_step || apply wp_ask).
  eapply (wp_check_children (moment g) (moment (tick g)) _ T name generation
            (prune_observations T (m_SuspendedChildObservations g))); [simpl; lia|done|done|by apply backed_prune| | | |].
  - split; [simpl; lia|]. split; [|done]. simpl. eapply Forall_impl; [exact Hk|]. intros k. apply justified_more.
  - by intros q o.
  - intros c Hc. apply list_elem_of_fmap in Hc as ([p c'] & -> & Hc). apply sorted_spec in Hc.
    simpl. by rewrite (table_keys _ T p c' HT Hc).
  - intros next g' (Hm & Hk' & _) Hn. wp_step. by split.
Qed.

(** C17: Every process the guard terminates was seen by two scans, each of which
    found it listed with a single suspended thread, older than a minute, not
    older than the marker's generation, its parent gone, and the marker in its
    environment; it used no time between them.  After the second it was listed
    again with the same suspended thread and no more time used, and had the
    marker; then a handle to it named that lifetime, and at the last locking of
    the tables before the request it was neither among the released children
    nor in the registry. *)
Theorem terminations_justified (r p : gmap Z Z) (n : nat) (k : Kill) :
  let g := scans n (start_guard r p) in
  k ∈ kills g -> justified (lock_log g) k.
Proof.
  assert (Hok : guard_ok (scans n (start_guard r p))).
  { unfold scans. induction n as [|n IH]; simpl; [apply start_guard_ok|].
    by apply guard_ok_CheckSuspendedChildren. }
  intros g Hk. by apply (proj1 (Forall_forall _ _) (go_kills _ Hok)).
Qed.

(** ** A released child is spared *)
Section Spared.
Context (pid time : Z).
Hypothesis Hothers : forall n c, c ∈ released_by_others n -> c.1 = pid -> c.2 = time.
Hypothesis Hlisted : forall n T, QueryChildGuardProcessSnapshot n = Some T -> gone T pid time = false.

Definition spared (g : Guard) : Prop :=
  m_ReleasedChildren g !! pid = Some time /\ forall n, mkKill pid time n ∉ kills g.

Lemma spared_tick g : spared g -> spared (tick g).
Proof. done. Qed.

Lemma released_others others m :
  (forall c, c ∈ others -> c.1 = pid -> c.2 = time) -> m !! pid = Some time ->
  foldl release m others !! pid = Some time.
Proof.
  revert m. induction others as [|[p t] others IH]; intros m Ho Hm; [done|]. simpl.
  apply IH; [intros c Hc; apply Ho; by right|]. unfold release. simpl.
  destruct (decide (p = pid)) as [->|].
  - rewrite lookup_insert_eq. f_equal. apply (Ho (pid, t)); [left|done].
  - by rewrite lookup_insert_ne.
Qed.

Lemma wp_lock_spared (Q : unit -> Guard -> Prop) g :
  spared g -> (forall g', spared g' -> Q tt g') -> wp lock Q g.
Proof.
  intros [Hr Hk] HQ. unfold lock. wp_step. apply wp_ask. wp_step. apply HQ. split; [|done].
  apply released_others; [|done]. intros c. apply Hothers.
Qed.

Lemma wp_claimed_spared child (Q : bool -> Guard -> Prop) g :
  spared g ->
  (forall c g', spared g' -> (c = false -> (cg_processId child, cg_createTime child) <> (pid, time)) -> Q c g') ->
  wp (claimed child) Q g.
Proof.
  intros Hg HQ. unfold claimed. wp_step. apply wp_lock_spared; [done|]. intros g' Hg'.
  repeat (wp_step || apply wp_ask). apply HQ; [done|]. intros Hc [= E1 E2].
  destruct Hg' as [Hr _]. simpl in Hc. rewrite E1, E2, Hr, bool_decide_eq_true_2, orb_true_r in Hc; done.
Qed.

Lemma keeps_terminate_spared child : keeps spared (terminate child).
Proof.
  intros g Hg. apply wp_exec. unfold terminate. wp_step. apply wp_ask.
  destruct (OpenProcess_times _ _) as [[created|]|]; [|by wp_step..].
  wp_step; [by wp_step|]. wp_step. apply wp_claimed_spared; [done|]. intros c g' Hg' Hc.
  destruct c; [by wp_step|]. repeat (wp_step || apply wp_ask); [|done].
  destruct Hg' as [Hr Hk]. split; [done|]. intros n. simpl.
  rewrite elem_of_app, list_elem_of_singleton. intros [Hn|Hn]; [by apply (Hk n)|].
  injection Hn as -> -> ->. by apply Hc.
Qed.

Lemma keeps_check_child_spared T name generation now next child :
  keeps spared (check_child T name generation now next child).
Proof.
  intros g Hg. apply wp_exec. unfold check_child, recheck_and_terminate.
  wp_step; [by wp_step|]. wp_step; [by wp_step|]. wp_step.
  apply wp_claimed_spared; [done|]. intros c g' Hg' _.
  do 2 wp_step. wp_step; [by wp_step|]. wp_step. apply wp_ask. wp_step; [by wp_step|].
  do 3 wp_step. wp_step; [by do 2 wp_step|]. wp_step. apply wp_ask.
  destruct (QueryChildGuardProcessSnapshot _); [|by do 2 wp_step].
  wp_step; [by do 2 wp_step|]. wp_step. apply wp_ask. wp_step; [|by do 2 wp_step].
  apply (wp_keeping spared); [apply keeps_terminate_spared|done|]. intros u g2 Hg2. by wp_step.
Qed.

Lemma keeps_check_children_spared T name generation now next children :
  keeps spared (check_children T name generation now next children).
Proof.
  revert next. induction children as [|c children IH]; intros next; simpl; [apply keeps_ret|].
  apply keeps_bind; [apply keeps_check_child_spared|done].
Qed.

Lemma keeps_scan_spared : keeps spared CheckSuspendedChildren.
Proof.
  intros g Hg. apply wp_exec. unfold CheckSuspendedChildren.
  wp_step. apply wp_ask. destruct (GetProxyLaneChildGuardInfo _) as [[name generation]|]; [|by wp_step].
  wp_step. apply wp_ask. destruct (QueryChildGuardProcessSnapshot _) as [T|] eqn:HT; [|by wp_step].
  wp_step. apply wp_lock_spared; [done|]. intros g' [Hr Hk].
  repeat (wp_step || apply wp_ask).
  apply (wp_keeping spared); [apply keeps_check_children_spared| |].
  - split; [|done]. simpl. apply map_lookup_filter_Some. split; [done|].
    by apply (Hlisted (moment (tick g))).
  - intros next g2 Hg2. by wp_step.
Qed.

(** C18: While the process runs and nobody releases its identifier for another
    lifetime, a released child is never terminated and stays released. *)
Theorem released_child_spared (g : Guard) (k : nat) :
  spared g -> spared (scans k g).
Proof.
  intros Hg. unfold scans. induction k as [|k IH]; simpl; [done|]. by apply keeps_scan_spared.
Qed.
End Spared.
End Safety.
