(* ===== verification/ChildGuardQuery.v ===== *)
(** * The process table of the child guard (ProxyReceptionCentre.cpp)

    [QueryChildGuardProcessSnapshot] reads the same system records as
    ProcessIdentity, with the thread count, the times and the only thread's
    state, and without checking the offsets it follows: a read outside the
    buffer is again the outcome [Fault]. *)

From S2P Require Import Prelude OrderedMap ProcessIdentity ProcessRegistry ChildGuard.

(** Offsets in [ChildGuardSystemProcessInformation] and in a thread record. *)
Definition off_numberOfThreads : nat := 4.
Definition off_userTime : nat := 40.
Definition off_kernelTime : nat := 48.
Definition off_threads (w : Width) : nat := match w with W32 => 184 | W64 => 256 end.
Definition off_clientThread (w : Width) : nat := match w with W32 => 36 | W64 => 48 end.
Definition off_threadState (w : Width) : nat := match w with W32 => 52 | W64 => 68 end.
Definition off_waitReason (w : Width) : nat := match w with W32 => 56 | W64 => 72 end.

Section Table.
Context (w : Width) (buffer : bytes).

(** A field of [n] bytes at [address + off]. *)
Definition field (address : Z) (off n : nat) : outcome Z :=
  obind (load buffer (address + Z.of_nat off) (Z.of_nat n)) (fun l => Done (le_join l)).

Definition suspended_state (threadState waitReason : Z) : bool :=
  (threadState =? 5) && ((waitReason =? 5) || (waitReason =? 12)).

(** The only thread of the entry: identifier and whether it is suspended. *)
Definition only_thread (address : Z) : outcome (Z * bool) :=
  obind (field address (off_threads w + off_clientThread w) (ptr_bytes w)) (fun thread =>
  obind (field address (off_threads w + off_threadState w) 4) (fun state =>
  obind (field address (off_threads w + off_waitReason w) 4) (fun reason =>
  Done (u32 thread, suspended_state state reason)))).

(** The snapshot of one entry; none for the idle process or an unknown time. *)
Definition guard_entry (address : Z) : outcome (option ChildGuardProcessSnapshot) :=
  obind (field address (off_processId w) (ptr_bytes w)) (fun pid =>
  let pid := u32 pid in
  obind (field address off_createTime 8) (fun created =>
  if negb (pid =? 0) && (0 <? s64 created) then
    obind (field address (off_parentProcessId w) (ptr_bytes w)) (fun parent =>
    obind (field address off_numberOfThreads 4) (fun threadCount =>
    obind (field address off_kernelTime 8) (fun kernel =>
    obind (field address off_userTime 8) (fun user =>
    obind (if threadCount =? 1 then only_thread address else Done (0, false)) (fun '(thread, only) =>
    Done (Some (mkChildGuard pid (u32 parent) thread threadCount (u64 (s64 created))
                  (u64 (kernel + user)) only)))))))
  else Done None)).

Fixpoint guard_walk (fuel : nat) (address : Z) (processes : ProcessTable) : outcome ProcessTable :=
  match fuel with
  | O => OutOfFuel
  | S fuel =>
      obind (guard_entry address) (fun found =>
      let processes :=
        match found with Some s => <[cg_processId s := s]> processes | None => processes end in
      obind (field address 0 4) (fun next =>
      if next =? 0 then Done processes else guard_walk fuel (address + next) processes))
  end.
End Table.

(** The loop that grows the buffer: at most [left] more attempts; the buffer
    and the status of the last one. *)
Fixpoint guard_query_loop (query : nat -> Z -> QueryAnswer) (left : nat) (bufferSize : Z)
    (last : Z * bytes) : Z * bytes :=
  match left with
  | O => last
  | S k =>
      let a := query (8 - left)%nat bufferSize in
      if qa_status a =? STATUS_INFO_LENGTH_MISMATCH
      then guard_query_loop query k
             (if bufferSize <? qa_returned a then u32 (qa_returned a + 64 * 1024) else u32 (bufferSize * 2))
             (qa_status a, qa_buffer a)
      else (qa_status a, qa_buffer a)
  end.

(** The step of the walk is at least one byte, so the buffer's length bounds it. *)
Definition guard_query (w : Width) (query : option (nat -> Z -> QueryAnswer)) : outcome ProcessTable :=
  match query with
  | None => Refused
  | Some query =>
      let '(status, buffer) := guard_query_loop query 8 (64 * 1024) (STATUS_INFO_LENGTH_MISMATCH, []) in
      if (status <? 0) || bool_decide (buffer = []) then Refused
      else guard_walk w buffer (S (length buffer)) 0 ∅
  end.

(** ** Entries are filed under their identifier *)

Definition filed (processes : ProcessTable) : Prop :=
  map_Forall (fun p c => cg_processId c = p) processes.

Lemma guard_walk_filed w buffer fuel address processes T :
  filed processes -> guard_walk w buffer fuel address processes = Done T -> filed T.
Proof.
  revert address processes. induction fuel as [|fuel IH]; intros address processes Hf; simpl; [done|].
  intros E. apply obind_done in E as (found & _ & E). apply obind_done in E as (next & _ & E).
  assert (Hf' : filed match found with Some s => <[cg_processId s := s]> processes | None => processes end).
  { destruct found; [|done]. by apply map_Forall_insert_2. }
  destruct (next =? 0); [by injection E as <-|]. by eapply IH.
Qed.

Lemma guard_query_filed w query T : guard_query w query = Done T -> filed T.
Proof.
  unfold guard_query. destruct query as [query|]; [|done].
  destruct (guard_query_loop _ _ _ _) as [status buffer]. destruct (_ || _); [done|].
  apply guard_walk_filed, map_Forall_empty.
Qed.

(** ** The walk never outlives its fuel *)

Lemma field_settled buffer address off n v :
  field buffer address off n = Done v ->
  0 <= address + Z.of_nat off /\ address + Z.of_nat off + Z.of_nat n <= Z.of_nat (length buffer).
Proof.
  unfold field, load. destruct (_ && _ && _) eqn:E; [|done]. intros _. bool_hyps. lia.
Qed.

Lemma field_range buffer address off n v :
  bytes_ok buffer -> field buffer address off n = Done v -> 0 <= v < 256 ^ Z.of_nat n.
Proof.
  intros Hb. unfold field. intros E. apply obind_done in E as (l & El & E). injection E as <-.
  unfold load in El. destruct (_ && _ && _); [|done]. injection El as <-.
  pose proof (word_at_range (Z.to_nat (address + Z.of_nat off)) n buffer Hb) as R.
  unfold word_at in R. by rewrite Nat2Z.id.
Qed.

Lemma obind_fuel {A B} (m : outcome A) (k : A -> outcome B) :
  m <> OutOfFuel -> (forall a, m = Done a -> k a <> OutOfFuel) -> obind m k <> OutOfFuel.
Proof. destruct m; simpl; intros H1 H2; [by apply H2|done|done|done]. Qed.

Lemma field_fuel buffer address off n : field buffer address off n <> OutOfFuel.
Proof. unfold field, load. by destruct (_ && _ && _). Qed.

Lemma guard_entry_fuel w buffer address : guard_entry w buffer address <> OutOfFuel.
Proof.
  unfold guard_entry, only_thread.
  repeat first [ apply field_fuel | apply obind_fuel; [|intros ? _] | done
               | match goal with |- context [if ?b then _ else _] => destruct b end
               | match goal with |- context [let '(_, _) := ?p in _] => destruct p end ].
Qed.

Lemma guard_walk_fuel w buffer fuel address processes :
  bytes_ok buffer -> 0 <= address -> Z.of_nat (length buffer) - address < Z.of_nat fuel ->
  (0 < fuel)%nat -> guard_walk w buffer fuel address processes <> OutOfFuel.
Proof.
  intros Hb. revert address processes. induction fuel as [|fuel IH]; intros address processes Ha Hf Hp; [lia|].
  simpl. apply obind_fuel; [apply guard_entry_fuel|]. intros found _.
  apply obind_fuel; [apply field_fuel|]. intros next E.
  pose proof (field_settled _ _ _ _ _ E). pose proof (field_range _ _ _ _ _ Hb E).
  destruct (Z.eqb_spec next 0); [done|]. apply IH; lia.
Qed.

(** ** The table of the system's records *)

(** The thread count, times and only thread of a record, where the kernel puts them. *)
Definition re_threadCount (e : RawEntry) : Z := word_at 0 4 (re_reserved e).
Definition re_userTime (e : RawEntry) : Z := word_at 0 8 (re_times e).
Definition re_kernelTime (e : RawEntry) : Z := word_at 8 8 (re_times e).
Definition tail_field (w : Width) (off n : nat) (e : RawEntry) : Z :=
  word_at (off_threads w - Z.to_nat (sizeof_SystemProcessPrefix w) + off) n (re_tail e).

(** An entry with one thread carries its thread record. *)
Definition threads_ok (w : Width) (e : RawEntry) : Prop :=
  re_threadCount e = 1 ->
  (off_threads w - Z.to_nat (sizeof_SystemProcessPrefix w) + off_waitReason w + 4
   <= length (re_tail e))%nat.

Definition guard_snapshot (w : Width) (e : RawEntry) : option ChildGuardProcessSnapshot :=
  let p := re_process e in
  if (pid p =? 0) || (creationTime p =? 0) then None
  else
    let one := re_threadCount e =? 1 in
    Some (mkChildGuard (pid p) (parentPid p)
            (if one then u32 (tail_field w (off_clientThread w) (ptr_bytes w) e) else 0)
            (re_threadCount e) (creationTime p) (u64 (re_kernelTime e + re_userTime e))
            (if one then suspended_state (tail_field w (off_threadState w) 4 e)
                           (tail_field w (off_waitReason w) 4 e)
             else false)).

Definition file_snapshot (w : Width) (T : ProcessTable) (e : RawEntry) : ProcessTable :=
  match guard_snapshot w e with Some s => <[cg_processId s := s]> T | None => T end.

Definition guard_table (w : Width) (es : list RawEntry) : ProcessTable :=
  foldl (file_snapshot w) ∅ es.

Lemma word_at_app_l off n a b : (off + n <= length a)%nat -> word_at off n (a ++ b) = word_at off n a.
Proof.
  intros Hl. unfold word_at, slice. rewrite drop_app_le, take_app_le; [done| |lia].
  rewrite length_drop. lia.
Qed.

Lemma word_part k n off m l :
  (k + n <= m)%nat -> (off + m <= length l)%nat ->
  word_at k n (slice off m l) = word_at (off + k) n l.
Proof.
  intros Hk Hm. unfold word_at, slice. rewrite skipn_firstn_comm, take_take, drop_drop.
  f_equal. by replace (n `min` (m - k))%nat with n by lia.
Qed.

Section Prefix.
Context (w : Width) (address next : Z) (e : RawEntry).
Hypothesis He : entry_ok w e.
Hypothesis Haddress : 0 <= address /\ name_address w address e < ptr_limit w.
Hypothesis Hnext : 0 <= next < 4294967296.
Abbreviation P := (entry_prefix w address next e).

Lemma prefix_words :
  word_at (off_processId w) (ptr_bytes w) P = pid (re_process e) /\
  word_at (off_parentProcessId w) (ptr_bytes w) P = parentPid (re_process e) /\
  s64 (word_at off_createTime 8 P) = creationTime (re_process e) /\
  word_at 0 4 P = next.
Proof.
  pose proof (parse_encoded w address next e He Haddress Hnext []) as E.
  rewrite slice_here in E by (pose proof (length_prefix w address next e He); lia).
  unfold parse_prefix in E. injection E as E1 E2 E3 E4 E5 E6 E7 E8. done.
Qed.

Lemma prefix_counters :
  word_at off_numberOfThreads 4 P = re_threadCount e /\
  word_at off_userTime 8 P = re_userTime e /\
  word_at off_kernelTime 8 P = re_kernelTime e.
Proof.
  destruct He as (? & ? & _). unfold entry_prefix, re_threadCount, re_userTime, re_kernelTime,
    off_numberOfThreads, off_userTime, off_kernelTime.
  repeat split;
    repeat (rewrite word_skip by (rewrite ?length_le_split; lia); rewrite ?length_le_split;
            repeat match goal with E : length _ = _ |- _ => rewrite E end; cbn [Nat.sub]);
    by rewrite word_at_app_l by lia.
Qed.
End Prefix.

Lemma field_at a b c address off k n :
  address + Z.of_nat off = Z.of_nat (length a) + Z.of_nat k -> (k + n <= length b)%nat ->
  field (a ++ b ++ c) address off n = Done (word_at k n b).
Proof.
  intros Ha Hk. unfold field. rewrite Ha.
  rewrite load_done by (rewrite ?length_app; lia). cbn [obind]. f_equal.
  rewrite !Nat2Z.id, <- Nat2Z.inj_add, Nat2Z.id. fold (word_at (length a + k) n (a ++ b ++ c)).
  rewrite word_skip by lia. replace (length a + k - length a)%nat with k by lia.
  by apply word_at_app_l.
Qed.

#[local] Opaque entry_prefix.

Section Encoded.
Context (w : Width) (base : Z).

(** An entry at offset [length pre] of the buffer. *)
Lemma fields_encoded pre next e post :
  entry_ok w e -> threads_ok w e -> 0 <= base ->
  0 <= next < 4294967296 ->
  let buffer := pre ++ entry_prefix w (base + Z.of_nat (length pre)) next e ++
                entry_body e ++ post in
  base + Z.of_nat (length buffer) < ptr_limit w ->
  guard_entry w buffer (Z.of_nat (length pre)) = Done (guard_snapshot w e) /\
  field buffer (Z.of_nat (length pre)) 0 4 = Done next.
Proof.
  intros He Hth Hb Hnext buffer Hroom. subst buffer. rewrite entry_body_eq, <- app_assoc in *.
  set (P := entry_prefix w (base + Z.of_nat (length pre)) next e) in *.
  assert (HP : Z.of_nat (length P) = sizeof_SystemProcessPrefix w) by (by apply length_prefix).
  assert (Ha : name_address w (base + Z.of_nat (length pre)) e < ptr_limit w).
  { unfold name_address. rewrite !length_app in Hroom. lia. }
  assert (Ha' : 0 <= base + Z.of_nat (length pre) /\
                name_address w (base + Z.of_nat (length pre)) e < ptr_limit w) by (split; [lia|done]).
  destruct (prefix_words w (base + Z.of_nat (length pre)) next e He Ha' Hnext) as (Wp & Wpp & Wc & Wn).
  destruct (prefix_counters w (base + Z.of_nat (length pre)) next e He) as (Wt & Wu & Wk).
  fold P in Wp, Wpp, Wc, Wn, Wt, Wu, Wk.
  assert (F : forall off n, (off + n <= length P)%nat ->
    field (pre ++ P ++ re_tail e ++ wbytes (pname (re_process e)) ++ post) (Z.of_nat (length pre)) off n
    = Done (word_at off n P)) by (intros; by apply field_at).
  assert (G : forall off n, (off_threads w - Z.to_nat (sizeof_SystemProcessPrefix w) + off + n <= length (re_tail e))%nat ->
    field (pre ++ P ++ re_tail e ++ wbytes (pname (re_process e)) ++ post) (Z.of_nat (length pre))
      (off_threads w + off) n = Done (tail_field w off n e)).
  { intros off n Hn. rewrite app_assoc. apply field_at; [|done]. rewrite length_app.
    destruct w; simpl in *; lia. }
  destruct He as (? & ? & ? & ? & ? & Hpid & Hppid & Hct & _). unfold MAXDWORD in *.
  pose proof (sizeof_prefix_pos w) as Hs. split; [|rewrite F by lia; by rewrite Wn].
  unfold guard_entry, guard_snapshot.
  rewrite !F by (destruct w; simpl in *; unfold off_createTime, off_numberOfThreads, off_kernelTime, off_userTime; lia).
  cbn [obind]. rewrite Wp, Wpp, Wt, Wu, Wk, Wc, !u32_small by lia.
  rewrite (Z.ltb_antisym (creationTime _)).
  assert (Eu : u64 (creationTime (re_process e)) = creationTime (re_process e))
    by (unfold u64; apply Z.mod_small; lia). rewrite Eu.
  destruct (Z.eqb_spec (pid (re_process e)) 0); [done|]. cbn [negb andb orb].
  destruct (Z.eqb_spec (creationTime (re_process e)) 0) as [->|]; [done|].
  rewrite (proj2 (Z.leb_gt _ _)) by lia. cbn [negb].
  destruct (Z.eqb_spec (re_threadCount e) 1) as [E1|]; [|done].
  specialize (Hth E1). unfold only_thread.
  rewrite !G by (destruct w; simpl in *; lia). done.
Qed.

Lemma guard_walk_encoded fuel pre es pad T :
  sizes_ok w es -> Forall (threads_ok w) es -> 0 <= base -> es <> [] ->
  let buffer := pre ++ encode_entries w (base + Z.of_nat (length pre)) es ++ pad in
  base + Z.of_nat (length buffer) < ptr_limit w -> (length es <= fuel)%nat ->
  guard_walk w buffer fuel (Z.of_nat (length pre)) T = Done (foldl (file_snapshot w) T es).
Proof.
  intros Hok Hth Hb Hne. revert pre es T Hok Hth Hne.
  induction fuel as [|fuel IH]; intros pre es T Hok Hth Hne buffer Hroom Hfuel;
    [destruct es; [done|simpl in Hfuel; lia]|].
  destruct es as [|e es]; [done|]. clear Hne. subst buffer.
  inversion Hok as [|? ? [He Hsz] Hes]; subst. inversion Hth as [|? ? Hte Hth']; subst.
  cbn [encode_entries guard_walk foldl] in *. rewrite <- !app_assoc in *.
  pose proof (sizeof_prefix_pos w) as Hs.
  set (next := match es with [] => 0 | _ => entry_size w e end) in *.
  assert (Hse : entry_size w e = sizeof_SystemProcessPrefix w + Z.of_nat (length (entry_body e))) by done.
  pose proof (length_prefix w (base + Z.of_nat (length pre)) next e He) as Hl.
  destruct (fields_encoded pre next e (encode_entries w (base + Z.of_nat (length pre) + entry_size w e) es ++ pad)
              He Hte Hb) as [-> ->]; [subst next; destruct es; lia|done|].
  cbn [obind]. fold (file_snapshot w T e). destruct es as [|e' es]; [done|].
  assert (next <> 0) by (subst next; lia). rewrite (proj2 (Z.eqb_neq _ _)) by done.
  set (pre' := pre ++ entry_prefix w (base + Z.of_nat (length pre)) next e ++ entry_body e).
  assert (Hlen : Z.of_nat (length pre') = Z.of_nat (length pre) + next).
  { subst pre' next. rewrite !length_app. lia. }
  replace (pre ++ entry_prefix _ _ _ _ ++ entry_body e ++ _)
    with (pre' ++ encode_entries w (base + Z.of_nat (length pre')) (e' :: es) ++ pad) in *.
  2: { subst pre'. rewrite <- !app_assoc. do 5 f_equal. rewrite Hlen. subst next. lia. }
  rewrite <- Hlen. apply IH; [done|done|done|done|simpl in *; lia].
Qed.
End Encoded.

(** What the table holds of a list of records with distinct identifiers. *)
Lemma guard_snapshot_pid w e s :
  guard_snapshot w e = Some s -> cg_processId s = pid (re_process e).
Proof. unfold guard_snapshot. destruct (_ || _); [done|]. by intros [= <-]. Qed.

Lemma guard_table_lookup w es p s :
  NoDup (map (fun e => pid (re_process e)) es) ->
  guard_table w es !! p = Some s <->
  exists e, e ∈ es /\ pid (re_process e) = p /\ guard_snapshot w e = Some s.
Proof.
  unfold guard_table. intros Hnd.
  assert (G : forall T, (forall e, e ∈ es -> T !! pid (re_process e) = None) ->
    foldl (file_snapshot w) T es !! p = Some s <->
    T !! p = Some s \/ exists e, e ∈ es /\ pid (re_process e) = p /\ guard_snapshot w e = Some s).
  { induction es as [|e es IH]; intros T HT; simpl.
    { split; [by left|]. intros [?|(e & He & _)]; [done|]. by apply not_elem_of_nil in He. }
    inversion Hnd as [|? ? Hni Hnd']; subst.
    assert (Hne : forall e', e' ∈ es -> pid (re_process e') <> pid (re_process e)).
    { intros e' He' E. apply Hni. rewrite <- E. by apply (list_elem_of_fmap_2 (fun e => pid (re_process e))). }
    assert (He : T !! pid (re_process e) = None) by (apply HT; left).
    rewrite IH; [|done|].
    - unfold file_snapshot. destruct (guard_snapshot w e) as [s'|] eqn:E.
      + pose proof (guard_snapshot_pid _ _ _ E) as Ep. rewrite Ep. split.
        * intros [Hl|(e' & He' & Hx)]; [|right; exists e'; split; [by right|done]].
          destruct (decide (p = pid (re_process e))) as [->|].
          -- rewrite lookup_insert_eq in Hl. injection Hl as <-. right. exists e. split; [left|done].
          -- rewrite lookup_insert_ne in Hl by done. by left.
        * intros [Hl|(e' & He' & <- & Hx)].
          -- left. rewrite lookup_insert_ne; [done|]. intros <-. congruence.
          -- apply elem_of_cons in He' as [->|He']; [left; rewrite lookup_insert_eq; congruence|].
             right. by exists e'.
      + split; intros [Hl|(e' & He' & Hp & Hx)]; try (by left); right.
        * exists e'. split; [by right|done].
        * apply elem_of_cons in He' as [->|He']; [congruence|]. by exists e'.
    - intros e' He'. unfold file_snapshot. destruct (guard_snapshot w e) as [s'|] eqn:E; [|apply HT; by right].
      rewrite (guard_snapshot_pid _ _ _ E), lookup_insert_ne; [apply HT; by right|].
      intros Ex. by eapply Hne. }
  rewrite G; [|intros; apply lookup_empty]. rewrite lookup_empty. split; [intros [?|?]; done|by right].
Qed.

(** The kernel's answers, for the guard's own loop: it doubles or follows the
    required length until the list fits. *)
Lemma guard_query_fits query base image :
  kernel_answers query base image -> Z.of_nat (length image) <= query_maxSize - 64 * 1024 ->
  exists pad, guard_query_loop query 8 (64 * 1024) (STATUS_INFO_LENGTH_MISMATCH, [])
              = (0, image ++ pad) /\ 0 < Z.of_nat (length (image ++ pad)) <= query_maxSize.
Proof.
  intros Hq Hm. unfold query_maxSize in *.
  assert (Fits : forall k size last, Z.of_nat (length image) <= size ->
    guard_query_loop query (S k) size last
    = (0, image ++ replicate (Z.to_nat size - length image) 0)).
  { intros k size last Hs. cbn [guard_query_loop]. rewrite !Hq, !(proj2 (Z.leb_le _ size)) by lia. done. }
  destruct (Z.le_gt_cases (Z.of_nat (length image)) (64 * 1024)).
  - eexists. split; [by apply Fits|]. rewrite length_app, length_replicate. lia.
  - assert (R : forall last, guard_query_loop query 8 (64 * 1024) last
      = guard_query_loop query 7 (Z.of_nat (length image) + 64 * 1024)
          (STATUS_INFO_LENGTH_MISMATCH, replicate (Z.to_nat (64 * 1024)) 0)).
    { intros last. remember 7%nat as k. remember (64 * 1024) as z. cbn [guard_query_loop].
      rewrite !Hq, !(proj2 (Z.leb_gt _ z)) by lia. cbn [qa_status qa_returned qa_buffer].
      rewrite Z.eqb_refl, (proj2 (Z.ltb_lt z _)) by lia. subst z. rewrite u32_small by lia. done. }
    rewrite R. eexists. split; [apply Fits; lia|]. rewrite length_app, length_replicate. lia.
Qed.

(** C31: The guard reads the same records as the process snapshot: its table holds
    exactly the processes with an identifier and a known creation time, each
    with the thread state and times the system wrote. *)
Theorem guard_table_exact (w : Width) query base (es : list RawEntry) :
  0 <= base -> sizes_ok w es -> Forall (threads_ok w) es -> es <> [] ->
  NoDup (map (fun e => pid (re_process e)) es) ->
  base + query_maxSize < ptr_limit w ->
  Z.of_nat (length (encode_entries w base es)) <= query_maxSize - 64 * 1024 ->
  kernel_answers query base (encode_entries w base es) ->
  exists T, guard_query w (Some query) = Done T /\
    forall p s, T !! p = Some s <->
      exists e, e ∈ es /\ pid (re_process e) = p /\ guard_snapshot w e = Some s.
Proof.
  intros Hb Hok Hth Hne Hnd Hroom Hmax Hq.
  unfold guard_query.
  destruct (guard_query_fits query base _ Hq Hmax) as (pad & -> & Hlen).
  change (0 <? 0) with false. cbn [orb].
  rewrite bool_decide_eq_false_2 by (intros E; rewrite E in Hlen; simpl in Hlen; lia).
  exists (guard_table w es). split; [|intros; by apply guard_table_lookup].
  pose proof (guard_walk_encoded w base (S (length (encode_entries w base es ++ pad))) [] es pad ∅ Hok Hth Hb Hne) as R.
  change (Z.of_nat (length (@nil Z))) with 0 in R. rewrite Z.add_0_r in R. cbn [app] in R.
  apply R; [lia|]. pose proof (encode_bound w es). pose proof (length_encode w es base Hok).
  rewrite length_app. lia.
Qed.

(** ** A concrete system: a suspended orphan among others *)

Definition suspended_tail : bytes :=
  replicate 152 3 ++ replicate 48 0 ++ le_split 8 77 ++ replicate 12 0 ++ le_split 4 5 ++ le_split 4 5.
Definition suspended_entry : RawEntry :=
  mkRawEntry (mkProcess 900 4 133000000000000000 (ascii_bytes "a.exe") 1) 20
    (le_split 4 1 ++ replicate 24 0) (le_split 8 40 ++ le_split 8 2) (replicate 4 8)
    (replicate 4 1) (replicate 4 0) suspended_tail.
Definition guard_entries : list RawEntry :=
  [plain_entry (mkProcess 4 0 0 (ascii_bytes "System") 0); suspended_entry].

Lemma guard_table_exact_witness :
  exists T, guard_query W64 (Some (answer_with (encode_entries W64 4096 guard_entries))) = Done T /\
    T !! 900 = Some (mkChildGuard 900 4 77 1 133000000000000000 42 true) /\ T !! 4 = None.
Proof.
  assert (Hs : sizes_ok W64 guard_entries).
  { repeat constructor; try (by vm_compute); simpl; unfold MAXDWORD; try lia;
      try (by apply (bool_decide_unpack _); vm_compute). }
  assert (Ht : Forall (threads_ok W64) guard_entries).
  { constructor; [by vm_compute|]. constructor; [|constructor]. intros _. apply Nat.leb_le. by vm_compute. }
  assert (Hn : NoDup (map (fun e => pid (re_process e)) guard_entries))
    by (apply (bool_decide_unpack _); by vm_compute).
  assert (Hl : Z.of_nat (length (encode_entries W64 4096 guard_entries)) <= query_maxSize - 64 * 1024)
    by (apply Z.leb_le; by vm_compute).
  assert (Hk : kernel_answers (answer_with (encode_entries W64 4096 guard_entries)) 4096
                 (encode_entries W64 4096 guard_entries)) by (intros n z; exact eq_refl).
  assert (Hne : guard_entries <> []) by discriminate.
  assert (Hr : 4096 + query_maxSize < ptr_limit W64) by (apply Z.ltb_lt; by vm_compute).
  destruct (guard_table_exact W64 (answer_with (encode_entries W64 4096 guard_entries)) 4096 guard_entries
              (Zle_0_pos _) Hs Ht Hne Hn Hr Hl Hk) as (T & ET & HT).
  exists T. split; [exact ET|]. split.
  - apply HT. exists suspended_entry. split; [right; left|]. split; [reflexivity|vm_compute; reflexivity].
  - apply eq_None_not_Some. intros [s Hx%HT]. destruct Hx as (e & He & Hp & Hsn).
    apply elem_of_cons in He as [->|He]; [vm_compute in Hsn; discriminate|].
    apply list_elem_of_singleton in He as ->. vm_compute in Hp. discriminate.
Defined.
