(* ===== verification/ChildGuardMarker.v ===== *)
(** * The environment marker of a guarded child (ProxyReceptionCentre.cpp)

    [RemoteProcessHasChildGuard] follows the other process's PEB to its
    environment block, copies the block in pieces and looks for the string
    "<marker>=1".  The other process's memory answers through the two system
    calls; the copy is a list of UTF-16 units read with bounds checks. *)

From S2P Require Import Prelude ProcessIdentity.

(** What [VirtualQueryEx] says of an address: committed and readable, and where
    its region ends. *)
Record RegionInfo := mkRegionInfo { ri_readable : bool; ri_end : Z }.

Class RemoteMemory := {
  VirtualQueryEx : Z -> option RegionInfo;
  ReadProcessMemory : Z -> Z -> option bytes     (* the bytes read *)
}.

Definition maximumBytes : Z := 1024 * 1024.

(** ** Copying the block *)

(** One pass over the new units: the units up to the second of two NULs, or
    whether the last unit was a NUL. *)
Inductive scan_result := SFound (prefix : list Z) | SNone (previousWasNull : bool).

Fixpoint scan_nulls (previousWasNull : bool) (l : list Z) : scan_result :=
  match l with
  | [] => SNone previousWasNull
  | c :: r =>
      if (c =? 0) && previousWasNull then SFound [c]
      else match scan_nulls (c =? 0) r with
           | SFound p => SFound (c :: p)
           | SNone q => SNone q
           end
  end.

Section Remote.
Context (w : Width) `{RemoteMemory}.

Definition ReadRemotePointer (address : Z) (pointer32 : bool) : option Z :=
  if address =? 0 then None
  else
    let n := if pointer32 then 4 else Z.of_nat (ptr_bytes w) in
    match ReadProcessMemory address n with
    | Some l => if Z.of_nat (length l) =? n then Some (le_join l) else None
    | None => None
    end.

(** How much the next read asks for. *)
Definition bytesToRead (info : RegionInfo) (currentAddress totalBytes : Z) : Z :=
  let n := Z.min (Z.min (uptr w (ri_end info - currentAddress)) (maximumBytes - totalBytes)) 4096 in
  n - n mod 2.

Fixpoint read_environment (fuel : nat) (environmentAddress totalBytes : Z)
    (previousWasNull : bool) (environment : list Z) : outcome (list Z) :=
  match fuel with
  | O => OutOfFuel
  | S fuel =>
      if maximumBytes <=? totalBytes then Refused
      else
        let currentAddress := uptr w (environmentAddress + totalBytes) in
        match VirtualQueryEx currentAddress with
        | None => Refused
        | Some info =>
            if negb (ri_readable info) then Refused
            else
              let n := bytesToRead info currentAddress totalBytes in
              if n =? 0 then Refused
              else
                match ReadProcessMemory currentAddress n with
                | None => Refused
                | Some l =>
                    if bool_decide (l = []) then Refused
                    else
                      match scan_nulls previousWasNull (wchars l) with
                      | SFound prefix => Done (environment ++ prefix)
                      | SNone previousWasNull =>
                          read_environment fuel environmentAddress
                            (totalBytes + Z.of_nat (length l)) previousWasNull
                            (environment ++ wchars l)
                      end
                end
        end
  end.

(** Each turn reads at least a byte of at most [maximumBytes]. *)
Definition ReadRemoteEnvironmentBlock (environmentAddress : Z) : outcome (list Z) :=
  read_environment (S (Z.to_nat maximumBytes)) environmentAddress 0 false [].
End Remote.

(** ** Looking for the marker *)

(** The units before the first NUL, at most the whole list. *)
Fixpoint wcs (l : list Z) : list Z :=
  match l with
  | [] => []
  | c :: r => if c =? 0 then [] else c :: wcs r
  end.

(** A unit of the copied block. *)
Definition unit_at (entry : list Z) (i : nat) : outcome Z :=
  match entry !! i with Some c => Done c | None => Fault end.

(** [_wcsnicmp] of the first [length marker] units, in the "C" locale. *)
Definition same_name (entry marker : list Z) : bool :=
  bool_decide (map tolower (take (length marker) entry) = map tolower marker).

Definition entry_marked (marker entry : list Z) : outcome bool :=
  let markerLength := length marker in
  if (markerLength + 1 <? length (wcs entry))%nat then
    obind (unit_at entry markerLength) (fun c =>
    if negb (c =? 61) then Done false
    else if negb (same_name entry marker) then Done false
    else
      obind (unit_at entry (markerLength + 1)) (fun c =>
      if negb (c =? 49) then Done false
      else obind (unit_at entry (markerLength + 2)) (fun c => Done (c =? 0))))
  else Done false.

Fixpoint find_marker (fuel : nat) (marker entry : list Z) : outcome bool :=
  match fuel with
  | O => OutOfFuel
  | S fuel =>
      match entry with
      | [] => Done false
      | c :: _ =>
          if c =? 0 then Done false
          else
            obind (entry_marked marker entry) (fun found =>
            if found : bool then Done true
            else find_marker fuel marker (drop (length (wcs entry) + 1) entry))
      end
  end.

(** ** [RemoteProcessHasChildGuard] *)

(** What the guard learns of the process it opened. *)
Record Target := mkTarget {
  tg_memory : RemoteMemory;
  tg_wow64 : bool;                 (* IsWow64Process *)
  tg_wow64_peb : option Z;         (* information class 26 *)
  tg_peb : option Z                (* information class 0 *)
}.

Section Guard.
Context (w : Width).
(** Whether this process runs under WOW64, whether the information query is
    exported, and the process behind an identifier. *)
Context (currentWow64 : bool) (has_query : bool) (OpenProcess : Z -> option Target).

(** The PEB address and whether its pointers are 32 bits wide. *)
Definition peb_address (t : Target) : Z * bool :=
  if negb has_query then (0, false)
  else
    let '(peb, pointer32) :=
      match w, tg_wow64 t, tg_wow64_peb t with
      | W64, true, Some p => (p, true)
      | _, _, _ => (0, false)
      end in
    if peb =? 0
    then (match tg_peb t with Some p => p | None => 0 end, pointer32)
    else (peb, pointer32).

Definition processParametersOffset (pointer32 : bool) : Z :=
  if pointer32 then 16 else match w with W64 => 32 | W32 => 16 end.
Definition environmentOffset (pointer32 : bool) : Z :=
  if pointer32 then 72 else match w with W64 => 128 | W32 => 72 end.

Definition target_environment (t : Target) : outcome (list Z) :=
  let '(pebAddress, pointer32) := peb_address t in
  let mem := tg_memory t in
  if pebAddress =? 0 then Refused
  else
    match ReadRemotePointer w (uptr w (pebAddress + processParametersOffset pointer32)) pointer32 with
    | None => Refused
    | Some processParameters =>
        match ReadRemotePointer w (uptr w (processParameters + environmentOffset pointer32)) pointer32 with
        | None => Refused
        | Some environmentAddress => ReadRemoteEnvironmentBlock w environmentAddress
        end
    end.

Definition RemoteProcessHasChildGuard (processId : Z) (markerName : list Z) : outcome bool :=
  if (processId =? 0) || bool_decide (markerName = []) then Done false
  else
    match OpenProcess processId with
    | None => Done false
    | Some t =>
        if match w with W32 => currentWow64 && negb (tg_wow64 t) | W64 => false end then Done false
        else
          match target_environment t with
          | Done environment => find_marker (S (length environment)) markerName environment
          | Refused => Done false
          | Fault => Fault
          | OutOfFuel => OutOfFuel
          end
    end.
End Guard.

(** ** No read leaves the copied block, and every loop ends *)

Definition ends_nul (l : list Z) : Prop := exists a, l = a ++ [0].

Lemma length_wcs l : (length (wcs l) <= length l)%nat.
Proof. induction l as [|c l IH]; [done|]. simpl. destruct (c =? 0); simpl; lia. Qed.

Lemma wcs_lt l : ends_nul l -> (length (wcs l) < length l)%nat.
Proof.
  intros [a ->]. induction a as [|c a IH]; simpl; [lia|]. destruct (c =? 0); simpl in *; lia.
Qed.

Lemma ends_nul_drop l n : ends_nul l -> (n < length l)%nat -> ends_nul (drop n l).
Proof.
  intros [a ->] Hn. rewrite length_app in Hn. simpl in Hn. exists (drop n a).
  rewrite drop_app_le by lia. done.
Qed.

Lemma unit_at_done l i : (i < length l)%nat -> exists c, l !! i = Some c /\ unit_at l i = Done c.
Proof.
  intros Hi. destruct (lookup_lt_is_Some_2 l i Hi) as [c Hc]. exists c. unfold unit_at. by rewrite Hc.
Qed.

Lemma entry_marked_total marker l : ends_nul l -> exists b, entry_marked marker l = Done b.
Proof.
  intros Hl. pose proof (wcs_lt l Hl). unfold entry_marked.
  destruct (Nat.ltb_spec (length marker + 1) (length (wcs l))); [|by eexists].
  destruct (unit_at_done l (length marker)) as (c1 & _ & ->); [lia|]. cbn [obind].
  destruct (negb (c1 =? 61)); [by eexists|]. destruct (negb (same_name l marker)); [by eexists|].
  destruct (unit_at_done l (length marker + 1)) as (c2 & _ & ->); [lia|]. cbn [obind].
  destruct (negb (c2 =? 49)); [by eexists|].
  destruct (unit_at_done l (length marker + 2)) as (c3 & _ & ->); [lia|]. by eexists.
Qed.

Lemma find_marker_total fuel marker l :
  l = [] \/ ends_nul l -> (length l < fuel)%nat -> exists b, find_marker fuel marker l = Done b.
Proof.
  revert l. induction fuel as [|fuel IH]; intros l Hl Hf; [lia|]. simpl.
  destruct l as [|c l]; [by eexists|]. destruct Hl as [?|Hl]; [done|].
  destruct (c =? 0) eqn:Ec; [by eexists|].
  destruct (entry_marked_total marker (c :: l) Hl) as [b ->]. cbn [obind].
  destruct b; [by eexists|]. pose proof (wcs_lt _ Hl) as Hw.
  apply IH; [|rewrite length_drop; simpl in *; lia].
  destruct (decide (length (wcs (c :: l)) + 1 < length (c :: l))%nat).
  - right. by apply ends_nul_drop.
  - left. apply drop_ge. lia.
Qed.

Lemma scan_found prev l p : scan_nulls prev l = SFound p -> ends_nul p.
Proof.
  revert prev p. induction l as [|c l IH]; intros prev p; simpl; [done|].
  destruct (Z.eqb_spec c 0) as [->|]; simpl.
  - destruct prev; [intros [= <-]; by exists []|].
    destruct (scan_nulls true l) as [q|] eqn:E; [|done]. intros [= <-].
    destruct (IH _ _ E) as [a ->]. by exists (0 :: a).
  - destruct (scan_nulls false l) as [q|] eqn:E; [|done]. intros [= <-].
    destruct (IH _ _ E) as [a ->]. by exists (c :: a).
Qed.

Lemma ends_nul_app a b : ends_nul b -> ends_nul (a ++ b).
Proof. intros [x ->]. exists (a ++ x). by rewrite app_assoc. Qed.

Lemma read_environment_settled w `{RemoteMemory} fuel address total prev env :
  (0 < fuel)%nat -> maximumBytes - total < Z.of_nat fuel ->
  settled (read_environment w fuel address total prev env) ends_nul.
Proof.
  revert total prev env. induction fuel as [|fuel IH]; intros total prev env Hf Hm; [lia|].
  cbn [read_environment]. destruct (Z.leb_spec maximumBytes total); [done|].
  destruct (VirtualQueryEx _) as [info|]; [|done]. destruct (negb (ri_readable info)); [done|].
  destruct (_ =? 0); [done|]. destruct (ReadProcessMemory _ _) as [l|]; [|done].
  destruct (bool_decide (l = [])) eqn:El; [done|]. apply bool_decide_eq_false in El.
  destruct (scan_nulls prev (wchars l)) as [p|q] eqn:E.
  - cbn [settled]. eapply ends_nul_app, scan_found, E.
  - destruct l; [done|]. apply IH; simpl length; lia.
Qed.

(** Whatever the other process's memory answers, the search ends with yes or
    no and never reads beyond the units it copied. *)
Theorem marker_search_total (w : Width) currentWow64 has_query OpenProcess pid marker :
  exists b, RemoteProcessHasChildGuard w currentWow64 has_query OpenProcess pid marker = Done b.
Proof.
  unfold RemoteProcessHasChildGuard. destruct (_ || _); [by eexists|].
  destruct (OpenProcess pid) as [t|]; [|by eexists].
  destruct (match w with W32 => _ | W64 => _ end); [by eexists|].
  assert (S : settled (target_environment w has_query t) ends_nul).
  { unfold target_environment. destruct (peb_address w has_query t) as [peb p32].
    destruct (peb =? 0); [done|]. destruct (ReadRemotePointer _ _ _) as [params|]; [|done].
    destruct (ReadRemotePointer _ _ _) as [address|]; [|done].
    unfold ReadRemoteEnvironmentBlock. apply read_environment_settled; [lia|]. unfold maximumBytes. lia. }
  destruct (target_environment w has_query t) as [env| | |]; [|by eexists|done..].
  apply find_marker_total; [by right|lia].
Qed.

(** ** The block of a list of strings *)

(** An environment string: not empty, without NUL. *)
Definition env_string (s : list Z) : Prop := s <> [] /\ Forall (fun c => c <> 0) s.

Definition block (strs : list (list Z)) : list Z := concat (map (fun s => s ++ [0]) strs) ++ [0].

(** A string "name=1" with the marker's name in any case. *)
Definition marks (marker s : list Z) : Prop :=
  exists name, s = name ++ [61; 49] /\ map tolower name = map tolower marker.

Lemma wcs_string s r : Forall (fun c => c <> 0) s -> wcs (s ++ 0 :: r) = s.
Proof.
  induction 1 as [|c s Hc _ IH]; [done|]. simpl. apply Z.eqb_neq in Hc. by rewrite Hc, IH.
Qed.

Lemma unit_at_l s r i c : s !! i = Some c -> unit_at (s ++ r) i = Done c.
Proof. intros E. unfold unit_at. by rewrite (lookup_app_l_Some _ _ _ _ E). Qed.

Lemma entry_marked_string marker s r :
  Forall (fun c => c <> 0) s ->
  exists b, entry_marked marker (s ++ 0 :: r) = Done b /\ (b = true <-> marks marker s).
Proof.
  intros Hs. unfold entry_marked. rewrite wcs_string by done.
  destruct (Nat.ltb_spec (length marker + 1) (length s)) as [Hl|Hl].
  2: { exists false. split; [done|]. split; [done|]. intros (name & -> & E).
       apply (f_equal length) in E. rewrite !length_map in E. rewrite length_app in Hl. simpl in Hl. lia. }
  destruct (lookup_lt_is_Some_2 s (length marker)) as [c1 H1]; [lia|].
  destruct (lookup_lt_is_Some_2 s (length marker + 1)) as [c2 H2]; [lia|].
  rewrite (unit_at_l _ _ _ _ H1), (unit_at_l _ _ _ _ H2). cbn [obind].
  assert (Et : take (length marker) (s ++ 0 :: r) = take (length marker) s) by (apply take_app_le; lia).
  assert (Hsplit : s = take (length marker) s ++ c1 :: c2 :: drop (length marker + 2) s).
  { rewrite <- (take_drop (length marker) s) at 1. f_equal. rewrite (drop_S s c1) by done. f_equal.
    rewrite (drop_S s c2) by (by rewrite <- Nat.add_1_r). f_equal. f_equal. lia. }
  unfold same_name. rewrite Et.
  assert (Hm : marks marker s -> c1 = 61 /\ map tolower (take (length marker) s) = map tolower marker /\
                 c2 = 49 /\ length s = (length marker + 2)%nat).
  { intros (name & -> & E). pose proof (f_equal length E) as El. rewrite !length_map in El.
    rewrite <- El in *. rewrite take_app_length.
    rewrite lookup_app_r, Nat.sub_diag in H1 by lia. injection H1 as <-.
    rewrite lookup_app_r in H2 by lia. replace (length name + 1 - length name)%nat with 1%nat in H2 by lia.
    injection H2 as <-. rewrite length_app. by simpl. }
  destruct (Z.eqb_spec c1 61); cbn [negb]; [|exists false; split; [done|]; split; [done|]; by intros [? _]%Hm].
  destruct (bool_decide _) eqn:Eb; cbn [negb].
  2: { apply bool_decide_eq_false in Eb. exists false. split; [done|]. split; [done|]. by intros (_ & ? & _)%Hm. }
  apply bool_decide_eq_true in Eb.
  destruct (Z.eqb_spec c2 49); cbn [negb]; [|exists false; split; [done|]; split; [done|]; by intros (_ & _ & ? & _)%Hm].
  destruct (decide (length s = length marker + 2)%nat) as [El|Hne].
  - exists true. split.
    + unfold unit_at. rewrite lookup_app_r by lia. replace (length marker + 2 - length s)%nat with 0%nat by lia. done.
    + split; [|done]. intros _. exists (take (length marker) s). split; [|done].
      rewrite Hsplit at 1. rewrite drop_ge by lia. congruence.
  - destruct (lookup_lt_is_Some_2 s (length marker + 2)) as [c3 H3]; [lia|].
    rewrite (unit_at_l _ _ _ _ H3). cbn [obind].
    assert (c3 <> 0) as Hc3 by exact (Forall_lookup_1 _ s _ _ Hs H3).
    apply Z.eqb_neq in Hc3. rewrite Hc3. exists false. split; [done|]. split; [done|].
    intros (_ & _ & _ & ?)%Hm. done.
Qed.

(** The search finds the marker exactly when one of the strings is it. *)
Lemma find_marker_block fuel marker strs :
  Forall env_string strs -> (length (block strs) < fuel)%nat ->
  exists b, find_marker fuel marker (block strs) = Done b /\
    (b = true <-> exists s, s ∈ strs /\ marks marker s).
Proof.
  revert fuel. induction strs as [|s strs IH]; intros fuel Hs Hf; (destruct fuel as [|fuel]; [lia|]).
  { exists false. split; [done|]. split; [done|]. intros (s & Hin & _). by apply not_elem_of_nil in Hin. }
  inversion Hs as [|? ? [Hne Hnn] Hs']; subst.
  assert (Eb : block (s :: strs) = s ++ 0 :: block strs).
  { unfold block. simpl. by rewrite <- !app_assoc. }
  rewrite Eb in *. destruct s as [|c s]; [done|]. cbn [app find_marker].
  assert (Hc : c <> 0) by (by inversion Hnn). rewrite (proj2 (Z.eqb_neq _ _) Hc).
  change (c :: s ++ 0 :: block strs) with ((c :: s) ++ 0 :: block strs).
  destruct (entry_marked_string marker (c :: s) (block strs) Hnn) as (b & -> & Hb). cbn [obind].
  rewrite wcs_string by done.
  destruct b.
  - exists true. split; [done|]. split; [|done]. intros _. exists (c :: s). split; [left|by apply Hb].
  - rewrite drop_app_ge by lia. replace (length (c :: s) + 1 - length (c :: s))%nat with 1%nat by lia.
    change (drop 1 (0 :: block strs)) with (block strs).
    destruct (IH fuel Hs') as (b & -> & Hb').
    { rewrite length_app in Hf. simpl in Hf. lia. }
    exists b. split; [done|]. rewrite Hb'. split.
    + intros (s' & Hin & Hm). exists s'. split; [by right|done].
    + intros (s' & Hin & Hm). apply elem_of_cons in Hin as [->|Hin]; [|by exists s'].
      apply Hb in Hm. done.
Qed.

(** ** Copying gives the block, however it is cut *)

Lemma scan_app prev a b :
  scan_nulls prev (a ++ b) =
    match scan_nulls prev a with
    | SFound p => SFound p
    | SNone q => match scan_nulls q b with SFound p => SFound (a ++ p) | SNone r => SNone r end
    end.
Proof.
  revert prev. induction a as [|c a IH]; intros prev; simpl.
  { by destruct (scan_nulls prev b). }
  destruct ((c =? 0) && prev); [done|]. rewrite IH.
  destruct (scan_nulls (c =? 0) a) as [p|q]; [done|]. by destruct (scan_nulls q b).
Qed.

Lemma scan_string prev s : env_string s -> scan_nulls prev s = SNone false.
Proof.
  intros [Hne Hnn]. revert prev. induction Hnn as [|c s Hc Hs IH]; intros prev; [done|].
  simpl. rewrite (proj2 (Z.eqb_neq _ _) Hc). cbn [andb].
  destruct s as [|d s]; [done|]. by rewrite IH.
Qed.

Lemma scan_block strs r :
  strs <> [] -> Forall env_string strs -> scan_nulls false (block strs ++ r) = SFound (block strs).
Proof.
  intros Hne Hs. unfold block. rewrite <- app_assoc.
  assert (G : forall prev, scan_nulls prev (concat (map (fun s => s ++ [0]) strs)) = SNone true).
  { induction Hs as [|s strs Hs _ IH]; [done|]. intros prev. simpl. rewrite !scan_app, scan_string by done.
    simpl. destruct strs; [done|]. by rewrite IH. }
  by rewrite scan_app, G.
Qed.

Lemma wbytes_slice u k m :
  slice (2 * k) (2 * m) (wbytes u) = wbytes (take m (drop k u)).
Proof.
  revert k m. induction u as [|c u IH]; intros k m.
  { unfold slice. rewrite !drop_nil, take_nil. change (wbytes []) with (@nil Z). by rewrite drop_nil, take_nil. }
  change (wbytes (c :: u)) with (c mod 256 :: c / 256 mod 256 :: wbytes u).
  destruct k as [|k].
  - destruct m as [|m]; [done|]. pose proof (IH 0%nat m : take (2 * m) (wbytes u) = wbytes (take m u)) as E.
    replace (2 * S m)%nat with (S (S (2 * m))) by lia.
    change (c mod 256 :: c / 256 mod 256 :: take (2 * m) (wbytes u)
            = c mod 256 :: c / 256 mod 256 :: wbytes (take m u)). by rewrite E.
  - replace (2 * S k)%nat with (S (S (2 * k))) by lia. unfold slice. simpl. apply IH.
Qed.

Section Copy.
Context (w : Width) `{RemoteMemory} (E : Z) (u : list Z) (strs : list (list Z)).
Abbreviation size := (2 * Z.of_nat (length u)).

(** The units [u] are readable at [E], in regions of whole units; a successful
    read gives all it was asked for. *)
Hypothesis Hroom : 0 <= E /\ E + size < ptr_limit w.
Hypothesis Hunits : Forall (fun c => 0 <= c < 65536) u.
Hypothesis Hquery : forall k, 0 <= k < Z.of_nat (length u) ->
  exists info, VirtualQueryEx (E + 2 * k) = Some info /\ ri_readable info = true /\
    E + 2 * k < ri_end info <= E + size /\ (ri_end info - E) mod 2 = 0.
Hypothesis Hread : forall off n, 0 <= off -> 0 < n -> off + n <= size ->
  ReadProcessMemory (E + off) n = Some (slice (Z.to_nat off) (Z.to_nat n) (wbytes u)).
Hypothesis Hstrs : strs <> [] /\ Forall env_string strs.
Hypothesis Hblock : exists r, u = block strs ++ r.
Hypothesis Hmaximum : 2 * Z.of_nat (length (block strs)) <= maximumBytes.

(** The next read is of [m > 0] whole units inside the memory. *)
Lemma next_read k :
  0 <= k < Z.of_nat (length (block strs)) ->
  exists info m, VirtualQueryEx (uptr w (E + 2 * k)) = Some info /\ ri_readable info = true /\
    bytesToRead w info (uptr w (E + 2 * k)) (2 * k) = 2 * m /\ 0 < m /\ k + m <= Z.of_nat (length u).
Proof.
  intros Hk. assert (Z.of_nat (length (block strs)) <= Z.of_nat (length u)).
  { destruct Hblock as [r Er]. apply (f_equal length) in Er. rewrite length_app in Er. lia. }
  destruct (Hquery k) as (info & Hq & Hr & Hend & Hmod); [lia|].
  exists info. unfold bytesToRead. rewrite !uptr_small by lia.
  set (n := Z.min (Z.min (ri_end info - (E + 2 * k)) (maximumBytes - 2 * k)) 4096).
  assert (Hn : n mod 2 = 0).
  { assert ((ri_end info - (E + 2 * k)) mod 2 = 0)
      by (replace (ri_end info - (E + 2 * k)) with (ri_end info - E + (- k) * 2) by lia; by rewrite Z_mod_plus_full).
    assert ((maximumBytes - 2 * k) mod 2 = 0).
    { unfold maximumBytes. replace (1024 * 1024 - 2 * k) with ((524288 - k) * 2) by lia. apply Z.mod_mul. lia. }
    unfold n. apply Z.min_case_strong; [intros _|done]. by apply Z.min_case_strong. }
  exists (n / 2). pose proof (Z.div_mod n 2) as Hd. rewrite Hn in *.
  assert (0 < n <= size - 2 * k) by (unfold n; lia).
  split; [done|]. split; [done|]. split; [lia|]. split; lia.
Qed.

Lemma read_environment_block fuel k :
  (0 < fuel)%nat -> maximumBytes - 2 * Z.of_nat k < Z.of_nat fuel ->
  (k < length (block strs))%nat ->
  forall prev, scan_nulls false (take k u) = SNone prev ->
  read_environment w fuel E (2 * Z.of_nat k) prev (take k u) = Done (block strs).
Proof.
  revert k. induction fuel as [|fuel IH]; intros k Hf Hm Hk prev Hscan; [lia|].
  destruct (next_read (Z.of_nat k)) as (info & m & Hq & Hr & Hn & Hpos & Hfit); [lia|].
  cbn [read_environment]. rewrite (proj2 (Z.leb_gt _ _)) by lia. rewrite Hq, Hr, Hn. cbn [negb].
  rewrite (proj2 (Z.eqb_neq (2 * m) 0)) by lia. rewrite uptr_small by lia.
  rewrite Hread by lia.
  replace (Z.to_nat (2 * Z.of_nat k)) with (2 * k)%nat by lia.
  replace (Z.to_nat (2 * m)) with (2 * Z.to_nat m)%nat by lia. rewrite wbytes_slice.
  set (piece := take (Z.to_nat m) (drop k u)).
  assert (Hlen : length piece = Z.to_nat m) by (unfold piece; rewrite length_take, length_drop; lia).
  assert (Hp : Forall (fun c => 0 <= c < 65536) piece) by (by apply Forall_take, Forall_drop).
  rewrite bool_decide_eq_false_2.
  2: { intros En. apply (f_equal length) in En. pose proof (length_wbytes piece). simpl in En. lia. }
  rewrite wchars_wbytes by done.
  assert (Et : take k u ++ piece = take (k + Z.to_nat m) u) by (unfold piece; by rewrite take_take_drop).
  destruct Hblock as [r Er]. destruct Hstrs as [Hne Hs].
  pose proof (scan_block strs r Hne Hs) as Hall. rewrite <- Er in Hall.
  rewrite <- (take_drop (k + Z.to_nat m) u), scan_app, <- Et, scan_app, Hscan in Hall.
  destruct (scan_nulls prev piece) as [p|q] eqn:Ep.
  - injection Hall as ->. done.
  - rewrite Et. replace (2 * Z.of_nat k + Z.of_nat (length (wbytes piece)))
      with (2 * Z.of_nat (k + Z.to_nat m)) by (rewrite length_wbytes; lia).
    assert (Hscan' : scan_nulls false (take (k + Z.to_nat m) u) = SNone q)
      by (by rewrite <- Et, scan_app, Hscan, Ep).
    apply IH; [lia|lia| |done].
    destruct (decide (k + Z.to_nat m < length (block strs))%nat) as [|Hge]; [done|]. exfalso.
    rewrite Er, take_app_ge in Hscan' by lia. by rewrite scan_block in Hscan'.
Qed.

Lemma environment_copied : ReadRemoteEnvironmentBlock w E = Done (block strs).
Proof.
  unfold ReadRemoteEnvironmentBlock.
  apply (read_environment_block (S (Z.to_nat maximumBytes)) 0 ltac:(lia)); [unfold maximumBytes; lia| |done].
  unfold block. rewrite length_app. simpl. lia.
Qed.
End Copy.

(** The other process's environment at [E]: the units [u], readable region by
    region, start with the block of [strs]. *)
Record holds_environment (w : Width) (m : RemoteMemory) (E : Z) (u : list Z)
    (strs : list (list Z)) : Prop := {
  he_room : 0 <= E /\ E + 2 * Z.of_nat (length u) < ptr_limit w;
  he_units : Forall (fun c => 0 <= c < 65536) u;
  he_query : forall k, 0 <= k < Z.of_nat (length u) ->
    exists info, VirtualQueryEx (E + 2 * k) = Some info /\ ri_readable info = true /\
      E + 2 * k < ri_end info <= E + 2 * Z.of_nat (length u) /\ (ri_end info - E) mod 2 = 0;
  he_read : forall off n, 0 <= off -> 0 < n -> off + n <= 2 * Z.of_nat (length u) ->
    ReadProcessMemory (E + off) n = Some (slice (Z.to_nat off) (Z.to_nat n) (wbytes u));
  he_strs : strs <> [] /\ Forall env_string strs;
  he_block : exists r, u = block strs ++ r;
  he_maximum : 2 * Z.of_nat (length (block strs)) <= maximumBytes
}.

(** C30: The guard recognises a process by its environment: yes exactly when one of
    the strings is the marker's name (in any case) followed by "=1". *)
Theorem marker_exact (w : Width) currentWow64 has_query OpenProcess pid marker
    (t : Target) peb pointer32 parameters E u strs :
  pid <> 0 -> marker <> [] -> OpenProcess pid = Some t ->
  (w = W32 -> currentWow64 && negb (tg_wow64 t) = false) ->
  peb_address w has_query t = (peb, pointer32) -> peb <> 0 ->
  @ReadRemotePointer w (tg_memory t) (uptr w (peb + processParametersOffset w pointer32)) pointer32
    = Some parameters ->
  @ReadRemotePointer w (tg_memory t) (uptr w (parameters + environmentOffset w pointer32)) pointer32
    = Some E ->
  holds_environment w (tg_memory t) E u strs ->
  exists b, RemoteProcessHasChildGuard w currentWow64 has_query OpenProcess pid marker = Done b /\
    (b = true <-> exists s, s ∈ strs /\ marks marker s).
Proof.
  intros Hp Hm Ho Hw Hpeb Hpeb0 Hparams Henv [Hr Hu Hq Hrd Hs Hb Hmax].
  unfold RemoteProcessHasChildGuard. rewrite (proj2 (Z.eqb_neq _ _)) by done.
  rewrite bool_decide_eq_false_2 by done. cbn [orb]. rewrite Ho.
  assert (Hskip : match w with W32 => currentWow64 && negb (tg_wow64 t) | W64 => false end = false)
    by (destruct w; auto).
  rewrite Hskip. unfold target_environment. rewrite Hpeb, (proj2 (Z.eqb_neq _ _)), Hparams, Henv by done.
  rewrite (@environment_copied w (tg_memory t) E u strs Hr Hu Hq Hrd Hs Hb Hmax).
  apply find_marker_block; [apply Hs|lia].
Qed.

(** ** A concrete process *)

Definition demo_strs : list (list Z) := [ascii_bytes "A=2"; ascii_bytes "pl_x=1"].
Definition demo_units : list Z := block demo_strs ++ [7; 0; 9].

Definition demo_memory : RemoteMemory := {|
  VirtualQueryEx := fun a =>
    if (12288 <=? a) && (a <? 12288 + 2 * Z.of_nat (length demo_units))
    then Some (mkRegionInfo true (12288 + 2 * Z.of_nat (length demo_units))) else None;
  ReadProcessMemory := fun a n =>
    if a =? 4096 + 32 then Some (le_split (Z.to_nat n) 8192)
    else if a =? 8192 + 128 then Some (le_split (Z.to_nat n) 12288)
    else Some (slice (Z.to_nat (a - 12288)) (Z.to_nat n) (wbytes demo_units))
|}.

Definition demo_target : Target := mkTarget demo_memory false None (Some 4096).
Definition demo_open (pid : Z) : option Target := if pid =? 900 then Some demo_target else None.

Lemma demo_environment : holds_environment W64 demo_memory 12288 demo_units demo_strs.
Proof.
  assert (L : Z.of_nat (length demo_units) = 15) by (by vm_compute).
  split.
  - rewrite L. split; [lia|]. by vm_compute.
  - repeat constructor; by vm_compute.
  - intros k Hk. rewrite L in *.
    exists (mkRegionInfo true (12288 + 2 * Z.of_nat (length demo_units))). cbn [VirtualQueryEx demo_memory].
    rewrite L. rewrite (proj2 (Z.leb_le _ _)), (proj2 (Z.ltb_lt _ _)) by lia. split; [done|].
    split; [done|]. cbn [ri_end]. split; [lia|done].
  - intros off n Ho Hn Hle. rewrite L in *. cbn [ReadProcessMemory demo_memory].
    rewrite !(proj2 (Z.eqb_neq _ _)) by lia. do 3 f_equal. lia.
  - split; [done|]. repeat constructor; (done || (by vm_compute)).
  - by eexists.
  - by vm_compute.
Qed.

Lemma marker_exact_witness :
  exists b, RemoteProcessHasChildGuard W64 false true demo_open 900 (ascii_bytes "PL_X") = Done b /\
    (b = true <-> exists s, s ∈ demo_strs /\ marks (ascii_bytes "PL_X") s).
Proof.
  apply (marker_exact W64 false true demo_open 900 (ascii_bytes "PL_X") demo_target 4096 false 8192
           12288 demo_units demo_strs); try discriminate; try reflexivity.
  apply demo_environment.
Defined.
