(* ===== verification/ChildGuardLive.v ===== *)
(** * The child guard does its work

    A suspended orphan that stays as it is, is terminated by the second scan
    that sees it, whatever the other processes do.  The guard over the system's
    own answers, of ChildGuardQuery.v and ChildGuardMarker.v, is at the end. *)

From S2P Require Import Prelude OrderedMap Effects ProcessIdentity ProcessRegistry ChildGuard ChildGuardSafety.

Section Live.
Context `{OutsideLaws}.
Context (T : ProcessTable) (name : list Z) (generation : Z) (child : ChildGuardProcessSnapshot).
Abbreviation pid := (cg_processId child).
Abbreviation time := (cg_createTime child).

(** The system as the guard finds it, at every moment. *)
Hypothesis Hinfo : forall n, GetProxyLaneChildGuardInfo n = Some (name, generation).
Hypothesis Htable : forall n, QueryChildGuardProcessSnapshot n = Some T.
Hypothesis Hlisted : T !! pid = Some child.
Hypothesis Hcandidate : forall n, candidate generation (SystemTime n) child = true.
Hypothesis Horphan : has_parent T child = false.
Hypothesis Hmarked : forall n, RemoteProcessHasChildGuard n pid name = true.
Hypothesis Hopen : forall n, OpenProcess_times n pid = Some (Some time).
Hypothesis Hterminate : forall n, TerminateProcess n pid = true.
Hypothesis Hunregistered : forall n, Get pid time true (process_registry n) = None.
Hypothesis Hunreleased : forall n c, c ∈ released_by_others n -> c.1 <> pid.

(** Nobody claims the child; [o] is what earlier scans saw. *)
Definition poised (o : option SuspendedChildObservation) (g : Guard) : Prop :=
  m_ReleasedChildren g !! pid <> Some time /\
  m_ProcessedSuspendedChildren g !! pid <> Some time /\
  m_SuspendedChildObservations g !! pid = o.

Definition killed (g : Guard) : Prop := exists n, mkKill pid time n ∈ kills g.

Lemma released_not others m :
  (forall c, c ∈ others -> c.1 <> pid) -> foldl release m others !! pid = m !! pid.
Proof.
  revert m. induction others as [|c others IH]; intros m Ho; [done|]. simpl.
  rewrite IH by (intros; apply Ho; by right). unfold release.
  rewrite lookup_insert_ne; [done|]. apply Ho. left.
Qed.

(** Handlers that leave the child alone. *)
Definition apart (g g' : Guard) : Prop :=
  (forall o, poised o g -> poised o g') /\ (killed g -> killed g').

Lemma apart_refl g : apart g g.
Proof. by split. Qed.
Lemma apart_trans g1 g2 g3 : apart g1 g2 -> apart g2 g3 -> apart g1 g3.
Proof. intros [P1 K1] [P2 K2]. split; auto. Qed.

Lemma wp_claimed_apart c (Q : bool -> Guard -> Prop) g :
  (forall r g', apart g g' ->
     (forall o, cg_processId c = pid -> cg_createTime c = time -> poised o g -> r = false) -> Q r g') ->
  wp (claimed c) Q g.
Proof.
  intros HQ. unfold claimed, lock. repeat (wp_step || apply wp_ask).
  set (released := foldl release (m_ReleasedChildren (tick g)) (released_by_others (moment g))).
  assert (Hr : released !! pid = m_ReleasedChildren g !! pid)
    by (apply released_not; intros d; apply Hunreleased).
  apply HQ.
  - split; [|done]. intros o (Ha & Hb & Hc). split; [|done].
    change (released !! pid <> Some time). by rewrite Hr.
  - intros o Ep Et (Ha & _). rewrite Ep, Et, Hunregistered. cbn [orb].
    apply bool_decide_eq_false. change (released !! pid <> Some time). by rewrite Hr.
Qed.

Lemma wp_terminate_apart c g :
  cg_processId c <> pid -> wp (terminate c) (fun _ g' => apart g g') g.
Proof.
  intros Hc. unfold terminate. wp_step. apply wp_ask.
  destruct (OpenProcess_times _ _) as [[created|]|]; [|by wp_step..].
  wp_step; [by wp_step|]. wp_step. apply wp_claimed_apart. intros r g' Ha _.
  destruct r; [by wp_step|]. repeat (wp_step || apply wp_ask); [|done].
  eapply apart_trans; [exact Ha|]. split.
  - intros o (P1 & P2 & P3). split; [done|]. split; [|done]. simpl. by rewrite lookup_insert_ne.
  - intros [n Hn]. exists n. simpl. apply elem_of_app. by left.
Qed.

Lemma wp_check_other next c now g :
  cg_processId c <> pid ->
  wp (check_child T name generation now next c)
     (fun next' g' => apart g g' /\ next' !! pid = next !! pid) g.
Proof.
  intros Hc. unfold check_child, recheck_and_terminate.
  wp_step; [by wp_step|]. wp_step; [by wp_step|]. wp_step.
  apply wp_claimed_apart. intros r g' Ha _.
  do 2 wp_step. wp_step; [by wp_step|]. wp_step. apply wp_ask. wp_step; [by wp_step|].
  assert (Hn : forall o, <[cg_processId c := o]> next !! pid = next !! pid)
    by (intros o; by rewrite lookup_insert_ne).
  do 3 wp_step. wp_step; [by do 2 wp_step|]. wp_step. apply wp_ask.
  destruct (QueryChildGuardProcessSnapshot _); [|by do 2 wp_step].
  wp_step; [by do 2 wp_step|]. wp_step. apply wp_ask. wp_step; [|by do 2 wp_step].
  eapply wp_mono; [by apply wp_terminate_apart|]. intros u g2 Ha2. wp_step.
  split; [|done]. eapply apart_trans; [exact Ha|exact Ha2].
Qed.

(** The child's own turn. *)
Lemma wp_check_self next o n g :
  poised o g ->
  wp (check_child T name generation (SystemTime n) next child)
     (fun next' g' => next' !! pid = Some (next_observation o child) /\
        (killed g -> killed g') /\
        (2 <= ob_consecutiveChecks (next_observation o child) -> killed g') /\
        (ob_consecutiveChecks (next_observation o child) < 2 -> poised o g')) g.
Proof.
  intros Hp. unfold check_child. rewrite Hcandidate, Horphan. cbn [negb]. wp_step.
  apply wp_claimed_apart. intros r g' Ha Hr. rewrite (Hr o) by done. clear r Hr.
  destruct (proj1 Ha o Hp) as (P1 & P2 & P3). wp_step. wp_step.
  rewrite bool_decide_eq_false_2 by done. cbn [orb]. wp_step. apply wp_ask. rewrite Hmarked. cbn [negb].
  do 2 wp_step. change (m_SuspendedChildObservations (tick g') !! pid) with
    (m_SuspendedChildObservations g' !! pid). rewrite P3.
  wp_step. wp_step.
  { bool_hyps. do 2 wp_step. rewrite lookup_insert_eq. split; [done|].
    split; [apply Ha|]. split; [lia|done]. }
  bool_hyps. unfold recheck_and_terminate. wp_step. apply wp_ask. rewrite Htable.
  assert (Hu : unchanged T child = true).
  { unfold unchanged. rewrite Hlisted, !Z.eqb_refl.
    specialize (Hcandidate 0%nat). unfold candidate in Hcandidate. by bool_hyps;
      repeat match goal with E : _ = true |- _ => rewrite E | E : cg_threadCount _ = _ |- _ => rewrite E end. }
  rewrite Hu. cbn [negb]. wp_step. apply wp_ask. rewrite Hmarked. unfold terminate.
  wp_step. apply wp_ask. rewrite Hopen, Z.eqb_refl. cbn [negb]. wp_step.
  apply wp_claimed_apart. intros r g2 Ha2 Hr. rewrite (Hr o) by done.
  repeat (wp_step || apply wp_ask); [|congruence].
  rewrite lookup_insert_eq. split; [done|].
  assert (K : killed (set_processed (<[pid := time]> (m_ProcessedSuspendedChildren
    (add_kill (mkKill pid time (moment g2)) (tick g2)))) (add_kill (mkKill pid time (moment g2)) (tick g2)))).
  { exists (moment g2). simpl. apply elem_of_app. right. by apply list_elem_of_singleton. }
  split; [done|]. split; [done|lia].
Qed.

(** The loop: the other children before and after do not matter. *)
Lemma wp_check_others next children now g :
  pid ∉ map cg_processId children ->
  wp (check_children T name generation now next children)
     (fun next' g' => apart g g' /\ next' !! pid = next !! pid) g.
Proof.
  revert next g. induction children as [|c children IH]; intros next g Hni; simpl.
  { wp_step. split; [apply apart_refl|done]. }
  cbn [map] in Hni. apply not_elem_of_cons in Hni as [Hne Hni]. wp_step.
  eapply wp_mono; [by apply wp_check_other|]. intros next' g' [Ha En].
  eapply wp_mono; [by apply IH|]. intros next2 g2 [Ha2 En2]. split; [by eapply apart_trans|congruence].
Qed.

Lemma wp_check_all next o n children g :
  poised o g -> child ∈ children -> NoDup (map cg_processId children) ->
  wp (check_children T name generation (SystemTime n) next children)
     (fun next' g' => next' !! pid = Some (next_observation o child) /\
        (killed g -> killed g') /\
        (2 <= ob_consecutiveChecks (next_observation o child) -> killed g') /\
        (ob_consecutiveChecks (next_observation o child) < 2 -> poised o g')) g.
Proof.
  revert next g. induction children as [|c children IH]; intros next g Hp Hin Hnd; simpl.
  { by apply not_elem_of_nil in Hin. }
  inversion Hnd as [|? ? Hni Hnd']; subst. wp_step.
  apply elem_of_cons in Hin as [<-|Hin].
  - eapply wp_mono; [by apply wp_check_self|]. intros next' g' (En & K & Hk & Hp').
    eapply wp_mono; [by apply wp_check_others|]. intros next2 g2 [Ha2 En2].
    rewrite En2. split; [done|]. destruct Ha2 as [HP HK]. split; [auto|]. split; auto.
  - assert (cg_processId c <> pid) by (intros E; apply Hni; rewrite E; by apply list_elem_of_fmap_2).
    eapply wp_mono; [by apply wp_check_other|]. intros next' g' [[HP HK] _].
    eapply wp_mono; [apply IH; [by apply HP|done|done]|].
    intros next2 g2 (En & K & Hk & Hp'). split; [done|]. split; auto.
Qed.

Lemma table_pids : map cg_processId (map snd (sorted T)) = map fst (sorted T).
Proof.
  rewrite map_map. apply map_ext_in. intros [p c] Hin. simpl.
  apply (table_keys 0 T); [apply Htable|]. apply sorted_spec. by apply list_elem_of_In.
Qed.

Lemma child_listed : child ∈ map snd (sorted T).
Proof. apply list_elem_of_fmap. exists (pid, child). by rewrite sorted_spec. Qed.

(** What the scan's pruning leaves of the earlier observation. *)
Definition kept (o : option SuspendedChildObservation) : option SuspendedChildObservation :=
  match o with
  | Some x => if ob_processCreateTime x =? time then Some x else None
  | None => None
  end.

Lemma pruned_time (m : gmap Z Z) :
  m !! pid <> Some time -> prune_times T m !! pid <> Some time.
Proof. intros Hm E. apply map_lookup_filter_Some in E as [E _]. done. Qed.

Lemma pruned_observation (m : gmap Z SuspendedChildObservation) :
  prune_observations T m !! pid = kept (m !! pid).
Proof.
  unfold prune_observations. rewrite map_lookup_filter. destruct (m !! pid) as [x|]; [|done]. simpl.
  unfold gone. rewrite Hlisted. destruct (Z.eqb_spec (ob_processCreateTime x) time) as [->|Hne].
  - rewrite Z.eqb_refl. by rewrite option_guard_True.
  - rewrite (proj2 (Z.eqb_neq _ _)) by done. by rewrite option_guard_False.
Qed.

Lemma wp_scan o g :
  poised o g ->
  wp CheckSuspendedChildren (fun _ g' =>
        (2 <= ob_consecutiveChecks (next_observation (kept o) child) -> killed g') /\
        (ob_consecutiveChecks (next_observation (kept o) child) < 2 ->
           poised (Some (next_observation (kept o) child)) g')) g.
Proof.
  intros (P1 & P2 & P3). unfold CheckSuspendedChildren. wp_step. apply wp_ask. rewrite Hinfo.
  wp_step. apply wp_ask. rewrite Htable. unfold lock. repeat (wp_step || apply wp_ask).
  eapply wp_mono; [apply (wp_check_all _ (kept o))| ].
  - split; [|split].
    + simpl. apply pruned_time. rewrite released_not; [done|]. intros c. apply Hunreleased.
    + simpl. by apply pruned_time.
    + simpl. by rewrite pruned_observation, P3.
  - apply child_listed.
  - rewrite table_pids. apply sorted_NoDup.
  - intros next g' (En & _ & Hk & Hp). wp_step. split; [by intros [n Hn]%Hk; exists n|].
    intros Hlt. destruct (Hp Hlt) as (Q1 & Q2 & _). split; [done|]. by split.
Qed.

(** C19: An unclaimed orphan that stays suspended is observed by the first scan and
    terminated by the second. *)
Theorem orphan_terminated (g : Guard) :
  poised None g -> killed (scans 2 g).
Proof.
  intros Hg. unfold scans. simpl.
  assert (H1 : poised (Some (next_observation None child)) (exec CheckSuspendedChildren g)).
  { apply wp_exec. eapply wp_mono; [by apply (wp_scan None)|]. intros _ g' [_ H1]. by apply H1. }
  apply wp_exec. eapply wp_mono; [by apply (wp_scan (Some (next_observation None child)))|].
  intros _ g' [H2 _]. apply H2. unfold kept, next_observation; simpl. by rewrite !Z.eqb_refl.
Qed.
End Live.

From S2P Require Import ChildGuardQuery ChildGuardMarker.

(** * The child guard on the system's own answers

    The questions of ChildGuard are answered by the code of ChildGuardQuery and
    ChildGuardMarker from the bytes and calls of the system; the law the safety
    proof needs of them holds of that code. *)

(** The system at each moment. *)
Record System := mkSystem {
  sys_guard_info : nat -> option (list Z * Z);
  sys_query : nat -> option (nat -> Z -> QueryAnswer);    (* NtQuerySystemInformation *)
  sys_time : nat -> Z;
  sys_current_wow64 : bool;
  sys_has_query : bool;                                   (* NtQueryInformationProcess *)
  sys_open : nat -> Z -> option Target;
  sys_times : nat -> Z -> option (option Z);              (* OpenProcess, GetProcessTimes *)
  sys_terminate : nat -> Z -> bool;
  sys_registry : nat -> Records;
  sys_released : nat -> list (Z * Z)
}.

Definition done_or {A} (d : A) (o : outcome A) : A :=
  match o with Done a => a | _ => d end.

#[export] Instance system_outside (w : Width) (s : System) : Outside := {|
  GetProxyLaneChildGuardInfo := sys_guard_info s;
  QueryChildGuardProcessSnapshot := fun n => done_or None (obind (guard_query w (sys_query s n)) (fun T => Done (Some T)));
  SystemTime := sys_time s;
  ChildGuard.RemoteProcessHasChildGuard := fun n pid name =>
    done_or false (ChildGuardMarker.RemoteProcessHasChildGuard w (sys_current_wow64 s)
                     (sys_has_query s) (sys_open s n) pid name);
  OpenProcess_times := sys_times s;
  TerminateProcess := sys_terminate s;
  process_registry := sys_registry s;
  released_by_others := sys_released s
|}.

#[export] Instance system_laws (w : Width) (s : System) : @OutsideLaws (system_outside w s).
Proof.
  constructor. intros n T p c. simpl. destruct (guard_query w (sys_query s n)) as [T'| | |] eqn:E; [|done..].
  intros [= <-]. apply (guard_query_filed _ _ _ E).
Qed.

(** ** A suspended orphan, end to end *)

Definition orphan : ChildGuardProcessSnapshot :=
  mkChildGuard 900 4 77 1 133000000000000000 42 true.
Definition orphan_table : ProcessTable := {[ 900 := orphan ]}.
Definition orphan_answer : nat -> Z -> QueryAnswer := answer_with (encode_entries W64 4096 guard_entries).

Definition orphan_system : System := {|
  sys_guard_info := fun _ => Some (ascii_bytes "PL_X", 132000000000000000);
  sys_query := fun _ => Some orphan_answer;
  sys_time := fun _ => 133000000700000000;
  sys_current_wow64 := false;
  sys_has_query := true;
  sys_open := fun _ => demo_open;
  sys_times := fun _ pid => if pid =? 900 then Some (Some 133000000000000000) else None;
  sys_terminate := fun _ _ => true;
  sys_registry := fun _ => ∅;
  sys_released := fun _ => []
|}.

Lemma orphan_queried : guard_query W64 (Some orphan_answer) = Done orphan_table.
Proof. vm_compute. reflexivity. Qed.

Lemma orphan_marked : forall n, @ChildGuard.RemoteProcessHasChildGuard (system_outside W64 orphan_system) n 900 (ascii_bytes "PL_X") = true.
Proof. intros n. vm_compute. reflexivity. Qed.

Definition fresh_guard : Guard := start_guard ∅ ∅.

Lemma orphan_terminated_witness :
  @killed orphan (@scans (system_outside W64 orphan_system) 2 fresh_guard).
Proof.
  apply (@orphan_terminated (system_outside W64 orphan_system) (system_laws W64 orphan_system)
           orphan_table (ascii_bytes "PL_X") 132000000000000000 orphan).
  - reflexivity.
  - intros n. cbn [QueryChildGuardProcessSnapshot system_outside orphan_system sys_query].
    rewrite orphan_queried. reflexivity.
  - reflexivity.
  - intros n. vm_compute. reflexivity.
  - vm_compute. reflexivity.
  - exact orphan_marked.
  - reflexivity.
  - reflexivity.
  - reflexivity.
  - intros n c Hc. apply not_elem_of_nil in Hc. destruct Hc.
  - split; [|split]; [discriminate..|reflexivity].
Defined.

(** The kill of that run is a justified one. *)
Lemma terminations_justified_witness :
  exists k, k ∈ kills (@scans (system_outside W64 orphan_system) 2 fresh_guard) /\
    @justified (system_outside W64 orphan_system)
      (lock_log (@scans (system_outside W64 orphan_system) 2 fresh_guard)) k.
Proof.
  assert (Hk : kills (@scans (system_outside W64 orphan_system) 2 fresh_guard)
               = [mkKill 900 133000000000000000 19]) by (vm_compute; reflexivity).
  exists (mkKill 900 133000000000000000 19).
  assert (Hin : mkKill 900 133000000000000000 19
                ∈ kills (@scans (system_outside W64 orphan_system) 2 fresh_guard))
    by (rewrite Hk; left).
  split; [exact Hin|].
  exact (@terminations_justified (system_outside W64 orphan_system) (system_laws W64 orphan_system)
           ∅ ∅ 2 _ Hin).
Defined.

(** The same child, released in time, is still there after ten scans. *)
Lemma released_child_spared_witness :
  @spared 900 133000000000000000
    (@scans (system_outside W64 orphan_system) 10
       (start_guard {[ 900 := 133000000000000000 ]} ∅)).
Proof.
  apply (@released_child_spared (system_outside W64 orphan_system)).
  - intros n c Hc. apply not_elem_of_nil in Hc. destruct Hc.
  - intros n T. cbn [QueryChildGuardProcessSnapshot system_outside orphan_system sys_query].
    rewrite orphan_queried. intros [= <-]. reflexivity.
  - split; [reflexivity|]. intros n Hn. apply not_elem_of_nil in Hn. destruct Hn.
Defined.
