(* ===== verification/ReceptionCentre.v ===== *)
(** * The reception centre's tables (ProxyReceptionCentre.cpp, PRCTcpServer.cpp,
    DirectIpv6Route.h, TrafficStatistics.h)

    An injected process registers a TCP socket with its real destination and
    then connects to the local listener; the listener finds the registration by
    the peer's address.  The table is a locked list; each method's locked
    section is one operation.  UDP registrations are handed to the UDP server,
    which is an argument here. *)

From S2P Require Import Prelude Winsock SockAddr UdpPolicy Effects ProcessIdentity ProcessRegistry.

Definition WSAENETUNREACH : Z := 10051.
Definition ERROR_NETWORK_UNREACHABLE : Z := 1231.

(** ** Traffic totals (TrafficStatistics.h) *)

Record CTrafficStatistics := mkTraffic { m_upload : Z; m_download : Z }.

Definition RecordTransfer (download : bool) (n : Z) (t : CTrafficStatistics) : CTrafficStatistics :=
  if n <=? 0 then t
  else if download then mkTraffic (m_upload t) (u64 (m_download t + n))
  else mkTraffic (u64 (m_upload t + n)) (m_download t).
Definition GetTotals (t : CTrafficStatistics) : Z * Z := (m_upload t, m_download t).
Definition Reset : CTrafficStatistics := mkTraffic 0 0.

(** ** Direct IPv6 routes (DirectIpv6Route.h) *)

Definition IN6_IS_ADDR_MULTICAST (b : bytes) : bool := byte_at b 0 =? 255.
Definition IN6_IS_ADDR_LINKLOCAL (b : bytes) : bool :=
  (byte_at b 0 =? 254) && (Z.land (byte_at b 1) 192 =? 128).
Definition sin6_scope_id (a : _SockAddr) : Z := le_join (take 4 (drop 20 (sa_data a))).

Definition NeedsQuery (client : PRCClient) : bool :=
  if negb (sType client =? SOCK_STREAM)
     || (IsDNValid (szDomainName client) && negb (HasProxyDestination client))
  then false
  else
    let destination := GetProxyDestination client in
    if negb (IsIPv6 destination) || IsIPv4Mapped destination || IsLoopback destination
       || IsAny destination
    then false
    else
      let address := v6_bytes destination in
      negb (IN6_IS_ADDR_MULTICAST address)
      && (negb (IN6_IS_ADDR_LINKLOCAL address) || negb (sin6_scope_id destination =? 0)).

(** [query] is the system's route query, none when it is not exported. *)
Definition ShouldReject (query : option (_SockAddr -> Z)) (client : PRCClient) (route : ProxyInfo) : bool :=
  (GetProxyType route =? PROXYTYPE_NOPROXY) && NeedsQuery client &&
  match query with
  | Some q => q (GetProxyDestination client) =? ERROR_NETWORK_UNREACHABLE
  | None => false
  end.

(** ** Registered clients *)

(** An element of [m_RegisteredClient]: [reserved] holds the tick of its
    registration. *)
Record Registration := mkRegistration { rg_client : PRCClient; rg_reserved : Z }.

Definition same_socket (a b : PRCClient) : bool :=
  (dwPid a =? dwPid b) && (processCreateTime a =? processCreateTime b)
  && (socketGeneration a =? socketGeneration b) && (c_s a =? c_s b).

(** Replace the first element with the same socket, or append. *)
Fixpoint upsert (c : PRCClient) (tick : Z) (l : list Registration) : list Registration :=
  match l with
  | [] => [mkRegistration c tick]
  | it :: r =>
      if same_socket c (rg_client it) then mkRegistration c tick :: r else it :: upsert c tick r
  end.

(** The peer of an accepted connection is the registered source: same family
    and port, and the same address unless the socket was bound to any. *)
Definition matches (sa1 : _SockAddr) (it : Registration) : bool :=
  (sa_family sa1 =? sa_family (srcAddr (rg_client it)))
  && (GetPort sa1 =? GetPort (srcAddr (rg_client it)))
  && (IsAny (srcAddr (rg_client it)) || SameAddress sa1 (srcAddr (rg_client it))).

Fixpoint find_client (sa1 : _SockAddr) (l : list Registration)
    : option (PRCClient * list Registration) :=
  match l with
  | [] => None
  | it :: r =>
      if matches sa1 it then Some (rg_client it, r)
      else match find_client sa1 r with
           | Some (c, r') => Some (c, it :: r')
           | None => None
           end
  end.

(** [getpeername] of the accepted socket may fail. *)
Definition GetClientInfo (peername : option _SockAddr) (bpop : bool) (l : list Registration)
    : option PRCClient * list Registration :=
  match peername with
  | None => (None, l)
  | Some sa1 =>
      match find_client sa1 l with
      | Some (c, rest) => (Some c, if bpop then rest else l)
      | None => (None, l)
      end
  end.

Section Centre.
(** The UDP server: its state, registration (result, the client it fills in and
    the error it sets) and unregistration. *)
Context {U : Type}.
Variable udp_OnRegister : PRCClient -> U -> (bool * PRCClient * Z) * U.
Variable udp_OnUnregister : PRCClient -> U -> Z * U.

Record Centre := mkCentre { m_RegisteredClient : list Registration; m_pUdpServer : U }.

(** What a caller sees: the result, the client record, the error set. *)
Record Reply := mkReply { rp_ok : bool; rp_client : PRCClient; rp_error : option Z }.

(** [GetProxyInfo] is the settings instance's answer for this client. *)
Definition RegisterTCPClient (tick : Z) (query : option (_SockAddr -> Z))
    (GetProxyInfo : option ProxyInfo) (c : PRCClient) (s : Centre) : Reply * Centre :=
  let rejected :=
    NeedsQuery c &&
    match GetProxyInfo with Some route => ShouldReject query c route | None => false end in
  if rejected then (mkReply false c (Some WSAENETUNREACH), s)
  else (mkReply true c None,
        mkCentre (upsert c tick (m_RegisteredClient s)) (m_pUdpServer s)).

Definition RegisterUDPClient (c : PRCClient) (s : Centre) : Reply * Centre :=
  let '((ok, c', error), u) := udp_OnRegister c (m_pUdpServer s) in
  (mkReply ok c' (if ok then None else Some error), mkCentre (m_RegisteredClient s) u).

(** [actual] is the creation time the system reports for the process. *)
Definition RegisterClient (actual : option Z) (tick : Z) (query : option (_SockAddr -> Z))
    (GetProxyInfo : option ProxyInfo) (c : PRCClient) (s : Centre) : Reply * Centre :=
  if (dwPid c =? 0) || (processCreateTime c =? 0) || (socketGeneration c =? 0)
  then (mkReply false c None, s)
  else if match actual with Some a => negb (a =? processCreateTime c) | None => false end
  then (mkReply false c None, s)
  else if sType c =? SOCK_STREAM then RegisterTCPClient tick query GetProxyInfo c s
  else if sType c =? SOCK_DGRAM then RegisterUDPClient c s
  else (mkReply false c None, s).

Definition UnregisterClient (c : PRCClient) (s : Centre) : Z * Centre :=
  if sType c =? SOCK_STREAM then
    (0, mkCentre (filter (fun it => same_socket c (rg_client it) = false) (m_RegisteredClient s))
          (m_pUdpServer s))
  else if sType c =? SOCK_DGRAM then
    let '(r, u) := udp_OnUnregister c (m_pUdpServer s) in
    (r, mkCentre (m_RegisteredClient s) u)
  else (0, s).

(** The 30 s timer drops registrations older than a minute. *)
Definition kick_out (now : Z) (s : Centre) : Centre :=
  mkCentre (filter (fun it => (60 * 1000 <? elapsed now (rg_reserved it)) = false)
              (m_RegisteredClient s)) (m_pUdpServer s).

Definition accept_client (peername : option _SockAddr) (s : Centre) : option PRCClient * Centre :=
  let '(r, l) := GetClientInfo peername true (m_RegisteredClient s) in
  (r, mkCentre l (m_pUdpServer s)).
End Centre.
Arguments Centre U : clear implicits.

(** ** Process identities *)

(** [QueryProcessCreateTime] of the process, when it can be opened. *)
Definition stale (actual : option Z) (createTime : Z) : bool :=
  match actual with Some a => negb (a =? createTime) | None => false end.

Definition RegisterProcessIdentity (actual : option Z) (identity : option HookProcessIdentityInfo)
    (m : Records) : bool * Records :=
  match identity with
  | None => (false, m)
  | Some id =>
      if (dwProcessId id =? 0) || (id_processCreateTime id =? 0) || bool_decide (szAppPath id = [])
      then (false, m)
      else if stale actual (id_processCreateTime id) then (false, m)
      else Register identity m
  end.

Record HookWSockResult := mkHookResult { hr_processId : Z; hr_createTime : Z; hr_err : Z }.

Definition UpdateProcessHookResult (actual : option Z) (result : option HookWSockResult)
    (m : Records) : bool * Records :=
  match result with
  | None => (false, m)
  | Some r =>
      if (hr_processId r =? 0) || (hr_createTime r =? 0) then (false, m)
      else if stale actual (hr_createTime r) then (false, m)
      else Update (hr_processId r) (hr_createTime r) (hr_err r) m
  end.

(** The path copied to a buffer of [appPathCount] units; [None] is FALSE. *)
Definition GetProcessIdentity (actual : option Z) (processId appPathCount : Z) (m : Records)
    : option (list Z) :=
  if (processId =? 0) || (appPathCount =? 0) then None
  else match Get processId 0 true m with
       | None => None
       | Some identity =>
           if stale actual (id_processCreateTime identity) then None
           else
             let path := take (Z.to_nat (appPathCount - 1)) (szAppPath identity) in
             if bool_decide (path = []) then None else Some path
       end.

Definition GetProcessHookState (processId createTime : Z) (m : Records) : option (Z * Z) :=
  if createTime =? 0 then None
  else match Get processId createTime true m with
       | None => None
       | Some identity => Some (hookState identity, hookError identity)
       end.

(** ** The listener (PRCTcpServer.cpp) *)

(** [isalpha] of a [char] in the "C" locale. *)
Definition isalpha (b : Z) : bool := ((65 <=? b) && (b <=? 90)) || ((97 <=? b) && (b <=? 122)).

Definition isLLMNR (name : bytes) : bool :=
  match name with
  | [] => false
  | _ => negb (existsb (Z.eqb 46) name) && forallb isalpha name
  end.

(** What the system answers about the process of a connection: each question
    of [ResolveProcPath], in its order. *)
Record ProcQuery := mkProcQuery {
  pq_identity : option Z;          (* creation time, asked by GetProcessIdentity *)
  pq_opened : bool;                (* the process can be opened *)
  pq_image : option (list Z);      (* QueryFullProcessImageNameW *)
  pq_module : option (list Z);     (* GetModuleFileNameExW *)
  pq_created : option Z;           (* GetProcessTimes *)
  pq_register : option Z;          (* creation time, asked by RegisterProcessIdentity *)
  pq_update : option Z             (* creation time, asked by UpdateProcessHookResult *)
}.

Definition process_image (q : ProcQuery) (cchOut : Z) : option (list Z) :=
  match pq_image q with
  | Some (c :: path) => Some (c :: path)
  | _ =>
      match pq_module q with
      | Some path =>
          let path := take (Z.to_nat (cchOut - 1)) path in
          if bool_decide (path = []) then None else Some path
      | None => None
      end
  end.

(** The text after the last backslash, [wcsrchr]. *)
Fixpoint after_backslash (path : list Z) : option (list Z) :=
  match path with
  | [] => None
  | c :: r =>
      match after_backslash r with
      | Some name => Some name
      | None => if c =? 92 then Some r else None
      end
  end.

Definition file_name (path : list Z) : option (list Z) :=
  let name := default path (after_backslash path) in
  if bool_decide (name = []) then None else Some name.

(** The path is looked up once and remembered: the next connection of the
    process finds it in the registry. *)
Definition ResolveProcPath (q : ProcQuery) (dwPid cchOut : Z) (m : Records)
    : option (list Z) * Records :=
  if cchOut =? 0 then (None, m)
  else match GetProcessIdentity (pq_identity q) dwPid cchOut m with
       | Some path => (file_name path, m)
       | None =>
           if negb (pq_opened q) then (None, m)
           else match process_image q cchOut with
                | None => (None, m)
                | Some path =>
                    let identity :=
                      mkIdentity dwPid (default 0 (pq_created q)) (take (MAX_PATH - 1) path) 0 0 in
                    let m := snd (RegisterProcessIdentity (pq_register q) (Some identity) m) in
                    let result := mkHookResult dwPid (id_processCreateTime identity) 0 in
                    let m := snd (UpdateProcessHookResult (pq_update q) (Some result) m) in
                    (file_name path, m)
                end
       end.

(** What [OnAccept] does with an accepted connection. *)
Inductive Accepted :=
  | NoSocket                                        (* accept failed *)
  | NotRegistered                                   (* closed: no client record *)
  | SettingsFailed (c : PRCClient)                  (* closed *)
  | RouteBlocked (c : PRCClient)                    (* closed: LLMNR name *)
  | TaskRefused (c : PRCClient)                     (* closed: OnNewTask failed *)
  | TaskStarted (c : PRCClient) (p : ProxyInfo).

(** [sClient] is the accepted socket's [getpeername], when there is a socket;
    [OnNewTask] is the task manager's answer. *)
Definition OnAccept {U} (sClient : option (option _SockAddr)) (q : PRCClient -> ProcQuery)
    (GetProxyInfo : PRCClient -> option ProxyInfo) (GetProxySettings : option ProxySettingsInfo)
    (OnNewTask : PRCClient -> ProxyInfo -> bool) (s : Centre U) (m : Records)
    : Accepted * Centre U * Records :=
  match sClient with
  | None => (NoSocket, s, m)
  | Some peername =>
      let '(found, s) := accept_client peername s in
      match found with
      | None => (NotRegistered, s, m)
      | Some c =>
          let m := snd (ResolveProcPath (q c) (dwPid c) (Z.of_nat MAX_PATH) m) in
          match GetProxyInfo c with
          | None => (SettingsFailed c, s, m)
          | Some p =>
              match GetProxySettings with
              | None => (SettingsFailed c, s, m)
              | Some psi =>
                  let c := snd (Apply c psi p) in
                  if bDisableLLMNR psi && isLLMNR (szDomainName c) then (RouteBlocked c, s, m)
                  else if OnNewTask c p then (TaskStarted c p, s, m)
                  else (TaskRefused c, s, m)
              end
          end
      end
  end.
