(* ===== verification/ReceptionCentreSafety.v ===== *)
(** * The registration table is right (properties of ReceptionCentre) *)

From S2P Require Import Prelude Winsock SockAddr UdpPolicy Effects ProcessIdentity ProcessRegistry ReceptionCentre.

(** ** Sockets *)

Lemma same_socket_refl c : same_socket c c = true.
Proof. unfold same_socket. by rewrite !Z.eqb_refl. Qed.

Lemma same_socket_spec a b :
  same_socket a b = true <->
  dwPid a = dwPid b /\ processCreateTime a = processCreateTime b /\
  socketGeneration a = socketGeneration b /\ c_s a = c_s b.
Proof. unfold same_socket. rewrite !andb_true_iff, !Z.eqb_eq. tauto. Qed.

Lemma same_socket_sym a b : same_socket a b = same_socket b a.
Proof.
  unfold same_socket. by rewrite (Z.eqb_sym (dwPid a)), (Z.eqb_sym (processCreateTime a)),
    (Z.eqb_sym (socketGeneration a)), (Z.eqb_sym (c_s a)).
Qed.

Lemma same_socket_trans a b c :
  same_socket a b = true -> same_socket b c = same_socket a c.
Proof. intros (E1 & E2 & E3 & E4)%same_socket_spec. unfold same_socket. by rewrite E1, E2, E3, E4. Qed.

(** No two registrations are of one socket. *)
Fixpoint distinct (l : list Registration) : Prop :=
  match l with
  | [] => True
  | it :: r => Forall (fun o => same_socket (rg_client it) (rg_client o) = false) r /\ distinct r
  end.

Definition elsewhere (c : PRCClient) (l : list Registration) : list Registration :=
  filter (fun it => same_socket c (rg_client it) = false) l.

Lemma distinct_filter (P : Registration -> Prop) `{forall it, Decision (P it)} l :
  distinct l -> distinct (filter P l).
Proof.
  induction l as [|it l IH]; [done|]. intros [Hf Hd]. rewrite filter_cons.
  destruct (decide (P it)); [|by apply IH]. split; [|by apply IH].
  apply Forall_forall. intros o Ho. apply list_elem_of_filter in Ho as [_ Ho].
  by apply (proj1 (Forall_forall _ _) Hf).
Qed.

Lemma elsewhere_same c l :
  Forall (fun o => same_socket c (rg_client o) = false) l -> elsewhere c l = l.
Proof.
  unfold elsewhere. induction 1 as [|o l Ho _ IH]; [done|]. rewrite filter_cons_True by done. by f_equal.
Qed.

(** [upsert] puts the client in its old place, or at the end. *)
Lemma upsert_split c tick l :
  distinct l ->
  exists l1 l2, upsert c tick l = l1 ++ mkRegistration c tick :: l2 /\ l1 ++ l2 = elsewhere c l.
Proof.
  induction l as [|it l IH]; intros Hd; simpl.
  { by exists [], []. }
  destruct Hd as [Hf Hd]. unfold elsewhere. rewrite filter_cons.
  destruct (same_socket c (rg_client it)) eqn:E.
  - rewrite decide_False by done. exists [], l. split; [done|]. simpl. symmetry.
    apply (elsewhere_same c). eapply Forall_impl; [exact Hf|]. intros o Ho.
    by rewrite <- (same_socket_trans _ _ _ E).
  - rewrite decide_True by done. destruct (IH Hd) as (l1 & l2 & -> & El).
    exists (it :: l1), l2. split; [done|]. simpl. by rewrite El.
Qed.

Lemma Forall_elsewhere c l : Forall (fun o => same_socket c (rg_client o) = false) (elsewhere c l).
Proof. apply Forall_forall. intros o Ho. by apply list_elem_of_filter in Ho as [Ho _]. Qed.

Lemma distinct_app l1 l2 :
  distinct (l1 ++ l2) <->
  distinct l1 /\ distinct l2 /\
  Forall (fun a => Forall (fun b => same_socket (rg_client a) (rg_client b) = false) l2) l1.
Proof.
  induction l1 as [|a l1 IH]; simpl; [split; [by intros; split; [|split]|tauto]|].
  rewrite IH, Forall_app, Forall_cons. tauto.
Qed.

Lemma distinct_upsert c tick l : distinct l -> distinct (upsert c tick l).
Proof.
  intros Hd. destruct (upsert_split c tick l Hd) as (l1 & l2 & -> & El).
  pose proof (distinct_filter (fun it => same_socket c (rg_client it) = false) l Hd) as Hd'.
  fold (elsewhere c l) in Hd'. pose proof (Forall_elsewhere c l) as Hf.
  rewrite <- El in Hd', Hf. apply distinct_app in Hd' as (H1 & H2 & H12).
  apply Forall_app in Hf as [Hf1 Hf2]. apply distinct_app. split; [done|]. split; [by split|].
  eapply Forall_impl; [apply Forall_and; split; [exact H12|exact Hf1]|].
  intros a [Ha Hc]. constructor; [simpl; by rewrite same_socket_sym|done].
Qed.

Lemma find_client_spec sa l :
  match find_client sa l with
  | Some (c, rest) => exists l1 it l2, l = l1 ++ it :: l2 /\ rest = l1 ++ l2 /\ c = rg_client it /\
                        matches sa it = true /\ Forall (fun o => matches sa o = false) l1
  | None => Forall (fun o => matches sa o = false) l
  end.
Proof.
  induction l as [|it l IH]; simpl; [done|]. destruct (matches sa it) eqn:E.
  - exists [], it, l. by repeat split.
  - destruct (find_client sa l) as [[c rest]|].
    + destruct IH as (l1 & it' & l2 & -> & -> & -> & Hm & Hf). exists (it :: l1), it', l2.
      repeat split; try done. by constructor.
    + by constructor.
Qed.

Lemma distinct_find sa l c rest :
  distinct l -> find_client sa l = Some (c, rest) -> distinct rest.
Proof.
  intros Hd E. pose proof (find_client_spec sa l) as Hs. rewrite E in Hs.
  destruct Hs as (l1 & it & l2 & -> & -> & _). apply distinct_app in Hd as (H1 & [_ H2] & H12).
  apply distinct_app. split; [done|]. split; [done|].
  eapply Forall_impl; [exact H12|]. intros a Ha. by inversion Ha.
Qed.

(** ** Every reachable table *)
Section Reach.
Context {U : Type}.
Variable udp_OnRegister : PRCClient -> U -> (bool * PRCClient * Z) * U.
Variable udp_OnUnregister : PRCClient -> U -> Z * U.

Inductive centre_step : Centre U -> Centre U -> Prop :=
  | cs_register actual tick query info c s :
      0 <= tick < 4294967296 ->
      centre_step s (snd (RegisterClient udp_OnRegister actual tick query info c s))
  | cs_unregister c s : centre_step s (snd (UnregisterClient udp_OnUnregister c s))
  | cs_accept peer q info psi task s m : centre_step s (snd (fst (OnAccept peer q info psi task s m)))
  | cs_timer now s : centre_step s (kick_out now s).

Record registration_ok (it : Registration) : Prop := {
  ro_stream : sType (rg_client it) = SOCK_STREAM;
  ro_ids : dwPid (rg_client it) <> 0 /\ processCreateTime (rg_client it) <> 0 /\
           socketGeneration (rg_client it) <> 0;
  ro_tick : 0 <= rg_reserved it < 4294967296
}.

Definition table_ok (s : Centre U) : Prop :=
  distinct (m_RegisteredClient s) /\ Forall registration_ok (m_RegisteredClient s).

Lemma table_ok_filter (P : Registration -> Prop) `{forall it, Decision (P it)} l u :
  table_ok (mkCentre l u) -> table_ok (mkCentre (filter P l) u).
Proof.
  intros [Hd Hf]. split; [by apply distinct_filter|]. simpl.
  apply Forall_forall. intros o Ho. apply list_elem_of_filter in Ho as [_ Ho].
  by apply (proj1 (Forall_forall _ _) Hf).
Qed.

Lemma accept_client_ok peer s : table_ok s -> table_ok (snd (accept_client peer s)).
Proof.
  intros [Hd Hf]. unfold accept_client, GetClientInfo. destruct peer as [sa|]; [|by split].
  destruct (find_client sa (m_RegisteredClient s)) as [[c rest]|] eqn:E; [|by split].
  split; [by eapply distinct_find|]. simpl. pose proof (find_client_spec sa (m_RegisteredClient s)) as Hs.
  rewrite E in Hs. destruct Hs as (l1 & it & l2 & El & -> & _). rewrite El in Hf.
  apply Forall_app in Hf as [? Hf]. inversion Hf; subst. by apply Forall_app.
Qed.

Lemma OnAccept_ok peer q info psi task s m :
  table_ok s -> table_ok (snd (fst (OnAccept peer q info psi task s m))).
Proof.
  intros Hs. unfold OnAccept. destruct peer as [peer|]; [|done].
  pose proof (accept_client_ok peer s Hs) as Ha. destruct (accept_client peer s) as [[c|] s']; [|done].
  by repeat (case_match; try done).
Qed.

Lemma table_ok_register actual tick query info c s :
  0 <= tick < 4294967296 -> table_ok s ->
  table_ok (snd (RegisterClient udp_OnRegister actual tick query info c s)).
Proof.
  intros Ht Hs. unfold RegisterClient. destruct (_ || _ || _) eqn:E0; [done|].
  destruct (match actual with Some _ => _ | None => _ end); [done|].
  destruct (Z.eqb_spec (sType c) SOCK_STREAM).
  - unfold RegisterTCPClient. destruct (_ && _); [done|]. destruct Hs as [Hd Hf].
    split; [by apply distinct_upsert|]. simpl.
    destruct (upsert_split c tick _ Hd) as (l1 & l2 & -> & El).
    assert (Hf' : Forall registration_ok (l1 ++ l2)).
    { rewrite El. apply Forall_forall. intros o Ho. apply list_elem_of_filter in Ho as [_ Ho].
      by apply (proj1 (Forall_forall _ _) Hf). }
    apply Forall_app in Hf' as [? ?]. apply Forall_app. split; [done|]. constructor; [|done].
    bool_hyps. by split.
  - destruct (sType c =? SOCK_DGRAM); [|done]. unfold RegisterUDPClient.
    destruct (udp_OnRegister c (m_pUdpServer s)) as [[[ok c'] err] u]. by destruct Hs.
Qed.

(** C36: Every registration in the table is a stream socket of an identified
    process, and no socket has two of them. *)
Theorem registrations_unique (u : U) (s : Centre U) :
  rtc centre_step (mkCentre [] u) s -> table_ok s.
Proof.
  intros Hr. assert (H0 : table_ok (mkCentre [] u)) by (split; [done|constructor]).
  revert H0. generalize (mkCentre ([] : list Registration) u) as s0, Hr. clear u Hr.
  intros s0 Hr. induction Hr as [s|s s1 s2 Hs _ IH]; [done|]. intros Hok. apply IH.
  destruct Hs as [actual tick query info c s Ht|c s|peer q info psi task s m|now s].
  - by apply table_ok_register.
  - unfold UnregisterClient. destruct (sType c =? SOCK_STREAM); [destruct s; by apply table_ok_filter|].
    destruct (sType c =? SOCK_DGRAM); [|done].
    destruct (udp_OnUnregister c (m_pUdpServer s)). by destruct Hok.
  - by apply OnAccept_ok.
  - destruct s. by apply table_ok_filter.
Qed.

(** ** From registration to the accepted connection *)

(** C35: A registered stream socket that connects from its registered address is
    recognised: the listener gets this record, and the table is left as it was
    before without this socket. *)
Theorem registered_then_accepted actual tick query info c (s : Centre U) peer :
  table_ok s -> sType c = SOCK_STREAM ->
  dwPid c <> 0 -> processCreateTime c <> 0 -> socketGeneration c <> 0 ->
  (forall a, actual = Some a -> a = processCreateTime c) ->
  match info with Some route => ShouldReject query c route = false | None => True end ->
  sa_family peer = sa_family (srcAddr c) -> GetPort peer = GetPort (srcAddr c) ->
  (IsAny (srcAddr c) || SameAddress peer (srcAddr c)) = true ->
  (forall it, it ∈ m_RegisteredClient s -> same_socket c (rg_client it) = false -> matches peer it = false) ->
  let '(reply, s1) := RegisterClient udp_OnRegister actual tick query info c s in
  let '(found, s2) := accept_client (Some peer) s1 in
  rp_ok reply = true /\ found = Some c /\
  m_RegisteredClient s2 = elsewhere c (m_RegisteredClient s).
Proof.
  intros [Hd Hf] Ht Hp Hc Hg Ha Hq Efam Eport Haddr Hothers. unfold RegisterClient.
  rewrite !(proj2 (Z.eqb_neq _ _)) by done. cbn [orb].
  assert (Hstale : match actual with Some a => negb (a =? processCreateTime c) | None => false end = false).
  { destruct actual as [a|]; [|done]. by rewrite (Ha a eq_refl), Z.eqb_refl. }
  rewrite Hstale, Ht. change (SOCK_STREAM =? SOCK_STREAM) with true. unfold RegisterTCPClient.
  assert (Hrej : NeedsQuery c && match info with Some route => ShouldReject query c route | None => false end = false)
    by (destruct info; [by rewrite Hq, andb_false_r|by rewrite andb_false_r]).
  rewrite Hrej. unfold accept_client, GetClientInfo. cbn [m_RegisteredClient].
  destruct (upsert_split c tick _ Hd) as (l1 & l2 & -> & El). rewrite <- El.
  assert (Hm : matches peer (mkRegistration c tick) = true).
  { unfold matches; simpl. by rewrite Efam, Eport, !Z.eqb_refl, Haddr. }
  assert (Hf1 : Forall (fun o => matches peer o = false) l1).
  { apply Forall_forall. intros o Ho.
    assert (Hin : o ∈ elsewhere c (m_RegisteredClient s)) by (rewrite <- El; apply elem_of_app; by left).
    apply list_elem_of_filter in Hin as [Hs Hin]. by apply Hothers. }
  assert (Efind : find_client peer (l1 ++ mkRegistration c tick :: l2) = Some (c, l1 ++ l2)).
  { clear -Hm Hf1. induction Hf1 as [|o l1 Ho _ IH]; simpl; [by rewrite Hm|]. by rewrite Ho, IH. }
  by rewrite Efind.
Qed.

(** A stream socket's registration is removed, and only it; the answer is
    nevertheless FALSE. *)
Theorem unregister_stream_reports_failure c (s : Centre U) :
  sType c = SOCK_STREAM ->
  fst (UnregisterClient udp_OnUnregister c s) = 0 /\
  m_RegisteredClient (snd (UnregisterClient udp_OnUnregister c s)) = elsewhere c (m_RegisteredClient s).
Proof. intros Ht. unfold UnregisterClient. by rewrite Ht. Qed.

(** The timer keeps a registration for exactly a minute of ticks, across the
    wrap of the tick counter. *)
Theorem kick_out_after_a_minute (s : Centre U) (c : PRCClient) (t d : Z) :
  0 <= d < 4294967296 -> mkRegistration c (u32 t) ∈ m_RegisteredClient s ->
  (mkRegistration c (u32 t) ∈ m_RegisteredClient (kick_out (u32 (t + d)) s) <-> d <= 60000).
Proof.
  intros Hd Hin. unfold kick_out; simpl. rewrite list_elem_of_filter. simpl.
  rewrite elapsed_advance by done. rewrite Z.ltb_ge. split; [by intros [? _]|by split].
Qed.
End Reach.

(** ** The path of a connecting process *)

Lemma stale_agrees (actual : option Z) t : (forall a, actual = Some a -> a = t) -> stale actual t = false.
Proof. intros H. destruct actual as [a|]; [|done]. simpl. by rewrite (H a eq_refl), Z.eqb_refl. Qed.

Lemma process_image_nonempty q cch path : process_image q cch = Some path -> path <> [].
Proof.
  unfold process_image. destruct (pq_image q) as [[|c l]|]; [|by intros [= <-]|];
    (destruct (pq_module q) as [p|]; [|done]); case_bool_decide; [done|by intros [= <-]|done|by intros [= <-]].
Qed.

Lemma same_lifetime_fresh pid t :
  t <> 0 -> same_lifetime pid t zero_identity = mkIdentity pid t [] PROCESS_HOOK_STATE_PENDING 0.
Proof. intros Ht. unfold same_lifetime, zero_identity; cbn [id_processCreateTime]. by destruct (Z.eqb_spec 0 t). Qed.

(** What the system answers of a process created at [t] whose image is [path]. *)
Record answers_for (q : ProcQuery) (t : Z) (path : list Z) : Prop := {
  an_opened : pq_opened q = true;
  an_image : process_image q 260 = Some path;
  an_length : (length path < 260)%nat;
  an_created : pq_created q = Some t;
  an_register : forall a, pq_register q = Some a -> a = t;
  an_update : forall a, pq_update q = Some a -> a = t
}.

(** An unknown process is looked up once: its path and the state of a
    successful hook are recorded, and the next connection of that lifetime is
    answered from the registry, which stays as it is. *)
Theorem process_resolved_once (q q' : ProcQuery) (pid t : Z) (path : list Z) (m : Records) :
  pid <> 0 -> 0 < t -> m !! pid = None -> answers_for q t path ->
  (forall a, pq_identity q' = Some a -> a = t) ->
  let '(name, m1) := ResolveProcPath q pid 260 m in
  name = file_name path /\
  GetProcessIdentity (pq_identity q') pid 260 m1 = Some path /\
  GetProcessHookState pid t m1 = Some (PROCESS_HOOK_STATE_SUCCEEDED, 0) /\
  ResolveProcPath q' pid 260 m1 = (name, m1).
Proof.
  intros Hp Ht0 Hm [Ho Hi Hl Hc Hr Hu] Hq. assert (Ht : t <> 0) by lia. assert (Ht1 : 0 <= t) by lia.
  pose proof (process_image_nonempty _ _ _ Hi) as Hne.
  set (e := mkIdentity pid t path PROCESS_HOOK_STATE_SUCCEEDED 0).
  assert (E : ResolveProcPath q pid 260 m = (file_name path, <[pid := e]> m)).
  { unfold ResolveProcPath, GetProcessIdentity, Get. change (260 =? 0) with false.
    rewrite (proj2 (Z.eqb_neq pid 0)) by done. cbn [orb negb]. rewrite Hm, Ho. cbn [negb]. rewrite Hi, Hc. cbn [default from_option id].
    rewrite take_ge by (unfold MAX_PATH; lia).
    unfold RegisterProcessIdentity; cbn [dwProcessId id_processCreateTime szAppPath]. rewrite !(proj2 (Z.eqb_neq _ 0)) by done.
    rewrite bool_decide_eq_false_2 by done. cbn [orb]. rewrite (stale_agrees _ _ Hr).
    rewrite Register_eq by done. unfold lifetime, registered; simpl. rewrite Hm.
    rewrite !(proj2 (Z.eqb_neq _ 0)), bool_decide_eq_false_2, (proj2 (Z.ltb_ge t 0)) by (done || lia). cbn [orb default from_option id].
    rewrite (stale_agrees _ _ Hu), Update_eq by done.
    rewrite same_lifetime_fresh by done. unfold set_szAppPath; simpl. rewrite take_ge by lia.
    unfold lifetime, updated. rewrite !lookup_insert_eq; cbn [default from_option id id_processCreateTime].
    change (same_lifetime pid t _) with (same_lifetime pid (id_processCreateTime (mkIdentity pid t path 0 0)) (mkIdentity pid t path 0 0)).
    rewrite same_lifetime_same, !(proj2 (Z.eqb_neq _ 0)), Z.ltb_irrefl by done. simpl.
    by rewrite insert_insert_eq. }
  rewrite E. split; [done|].
  assert (G : GetProcessIdentity (pq_identity q') pid 260 (<[pid := e]> m) = Some path).
  { unfold GetProcessIdentity, Get. rewrite (proj2 (Z.eqb_neq pid 0)) by done. simpl.
    rewrite lookup_insert_eq. simpl. rewrite (stale_agrees _ _ Hq).
    change (Z.to_nat (260 - 1)) with 259%nat. rewrite take_ge by lia. by rewrite bool_decide_eq_false_2. }
  split; [done|]. split.
  - unfold GetProcessHookState, Get. rewrite !(proj2 (Z.eqb_neq _ 0)) by done. simpl.
    rewrite lookup_insert_eq. simpl. by rewrite Z.eqb_refl.
  - unfold ResolveProcPath. change (260 =? 0) with false. by rewrite G.
Qed.

(** ** Concrete registrations *)

Definition local_addr (port : Z) : _SockAddr :=
  mkSockAddr AF_INET (htons port) ([127; 0; 0; 1] ++ replicate 20 0).
Definition stream_client (pid socket port : Z) : PRCClient :=
  mkPRCClient pid 500 1 SOCK_STREAM socket (ascii_bytes "example.org") (local_addr port)
    (mkSockAddr AF_INET (htons 443) ([198; 18; 0; 1] ++ replicate 20 0)) SockAddr.Clear 0 0 SockAddr.Clear.

Definition no_udp_register (c : PRCClient) (u : unit) : (bool * PRCClient * Z) * unit := ((false, c, 0), u).
Definition no_udp_unregister (c : PRCClient) (u : unit) : Z * unit := (0, u).
Definition other_table : Centre unit := mkCentre [mkRegistration (stream_client 8 40 6000) 7] tt.

Lemma other_table_ok : table_ok other_table.
Proof. split; [by repeat constructor|]. constructor; [|constructor]. by split. Qed.

Lemma registrations_unique_witness :
  rtc (centre_step no_udp_register no_udp_unregister) (mkCentre [] tt) other_table /\ table_ok other_table.
Proof.
  assert (R : rtc (centre_step no_udp_register no_udp_unregister) (mkCentre [] tt) other_table).
  { eapply rtc_l; [|apply rtc_refl].
    exact (cs_register no_udp_register no_udp_unregister (Some 500) 7 None None (stream_client 8 40 6000)
             (mkCentre [] tt) ltac:(lia)). }
  split; [exact R|]. exact (registrations_unique no_udp_register no_udp_unregister tt other_table R).
Defined.

Lemma registered_then_accepted_witness :
  let '(reply, s1) := RegisterClient no_udp_register (Some 500) 9 None None (stream_client 7 32 5000) other_table in
  let '(found, s2) := accept_client (Some (local_addr 5000)) s1 in
  rp_ok reply = true /\ found = Some (stream_client 7 32 5000) /\
  m_RegisteredClient s2 = elsewhere (stream_client 7 32 5000) (m_RegisteredClient other_table).
Proof.
  apply (registered_then_accepted no_udp_register (Some 500) 9 None None (stream_client 7 32 5000)
           other_table (local_addr 5000) other_table_ok); try done.
  - by intros a [= <-].
  - intros it Hin _. apply list_elem_of_singleton in Hin as ->. by vm_compute.
Defined.

Lemma unregister_stream_reports_failure_witness :
  fst (UnregisterClient no_udp_unregister (stream_client 8 40 6000) other_table) = 0 /\
  m_RegisteredClient (snd (UnregisterClient no_udp_unregister (stream_client 8 40 6000) other_table))
  = elsewhere (stream_client 8 40 6000) (m_RegisteredClient other_table).
Proof. exact (unregister_stream_reports_failure no_udp_unregister (stream_client 8 40 6000) other_table eq_refl). Defined.

Lemma kick_out_after_a_minute_witness :
  mkRegistration (stream_client 8 40 6000) (u32 (7 + 4294967296)) ∈ m_RegisteredClient (kick_out (u32 (7 + 4294967296 + 60000)) other_table).
Proof.
  apply (kick_out_after_a_minute other_table (stream_client 8 40 6000) (7 + 4294967296) 60000); [lia| |lia].
  change (u32 (7 + 4294967296)) with 7. left.
Defined.

Definition app_query : ProcQuery :=
  mkProcQuery (Some 500) true (Some (ascii_bytes "C:\x\app.exe")) None (Some 500) (Some 500) None.

Lemma process_resolved_once_witness :
  let '(name, m1) := ResolveProcPath app_query 7 260 ∅ in
  name = file_name (ascii_bytes "C:\x\app.exe") /\
  GetProcessIdentity (Some 500) 7 260 m1 = Some (ascii_bytes "C:\x\app.exe") /\
  GetProcessHookState 7 500 m1 = Some (PROCESS_HOOK_STATE_SUCCEEDED, 0) /\
  ResolveProcPath app_query 7 260 m1 = (name, m1).
Proof.
  apply (process_resolved_once app_query app_query 7 500 (ascii_bytes "C:\x\app.exe") ∅);
    [done|done|done|split; try done; [simpl; lia|by intros a [= <-]]|by intros a [= <-]].
Defined.

Example app_name : file_name (ascii_bytes "C:\x\app.exe") = Some (ascii_bytes "app.exe").
Proof. reflexivity. Qed.
