(* ===== verification/AppLauncher.v ===== *)
(** * Packaged application launches (AppLauncherProtocol.h, PRCPipeServer.cpp)

    A hooked process that starts a packaged application asks the host to launch
    it over the pipe; an uncertain client repeats the request, and the host
    keeps the requests it has seen so that a repeat answers instead of
    launching again.  Every pipe client has its own worker thread, so
    [HandleAppLaunch] is a machine of four steps: check, locked admission,
    launch, locked store. *)

From S2P Require Import Prelude OrderedMap.

Definition ERROR_BUSY : Z := 170.
Definition ERROR_INVALID_PARAMETER : Z := 87.
Definition ERROR_IO_PENDING : Z := 997.
Definition ERROR_NOT_SUPPORTED : Z := 50.
Definition ERROR_OPERATION_ABORTED : Z := 995.
Definition ERROR_UNHANDLED_EXCEPTION : Z := 574.

(** ** The wire records: arrays of UTF-16 units *)

Record AppLauncherRequest := mkRequest {
  rq_id : list Z;                  (* WCHAR[40] *)
  rq_aumid : list Z;               (* WCHAR[256] *)
  rq_hostPid : Z;
  rq_hostCreationTime : Z;
  rq_parentPid : Z;
  rq_parentCreationTime : Z;
  rq_submittedTime : Z
}.

Record AppLauncherResult := mkResult { rs_error : Z; rs_processId : Z; rs_hookError : Z }.

#[global] Instance AppLauncherRequest_eq_dec : EqDecision AppLauncherRequest.
Proof. solve_decision. Defined.

(** [wcsnlen] and the string of an array of [max] units. *)
Definition wcsn (max : nat) (text : list Z) : list Z := cstr (take max text).

Definition lower_hex (c : Z) : bool := (97 <=? c) && (c <=? 102).
Definition upper_hex (c : Z) : bool := (65 <=? c) && (c <=? 70).
Definition digit (c : Z) : bool := (48 <=? c) && (c <=? 57).
Definition letter (c : Z) : bool := ((97 <=? c) && (c <=? 122)) || ((65 <=? c) && (c <=? 90)).

Definition aumid_char (c : Z) : bool :=
  letter c || digit c || (c =? 46) || (c =? 95) || (c =? 45) || (c =? 33).

(** The units from the first [c] on, as [wcschr]. *)
Fixpoint wcschr (c : Z) (text : list Z) : option (list Z) :=
  match text with
  | [] => None
  | x :: r => if x =? c then Some text else wcschr c r
  end.

Definition ValidAumid (array : list Z) : bool :=
  let text := wcsn 256 array in
  if bool_decide (text = []) || (256 <=? length text)%nat then false
  else match wcschr 33 text with
       | None => false
       | Some bang =>
           if (length bang =? length text)%nat
              || bool_decide (drop 1 bang = [])
              || match wcschr 33 (drop 1 bang) with Some _ => true | None => false end
           then false
           else forallb aumid_char text
       end.

Definition hyphen_at (i : nat) : bool :=
  (i =? 9)%nat || (i =? 14)%nat || (i =? 19)%nat || (i =? 24)%nat.

Definition id_char (i : nat) (c : Z) : bool :=
  if hyphen_at i then c =? 45 else digit c || lower_hex c || upper_hex c.

Definition ValidId (array : list Z) : bool :=
  let text := wcsn 40 array in
  (length text =? 38)%nat && (nth 0 text 0 =? 123) && (nth 37 text 0 =? 125)
  && forallb (fun i => id_char i (nth i text 0)) (seq 1 36).

(** The key of the history: [std::wstring(request.id)]. *)
Definition request_key (r : AppLauncherRequest) : list Z := wcsn 40 (rq_id r).

(** ** The history *)

Record LaunchRecord := mkLaunchRecord { lr_request : AppLauncherRequest; lr_result : AppLauncherResult }.
Abbreviation History := (gmap (list Z) LaunchRecord).

Definition invalid_result : AppLauncherResult := mkResult ERROR_INVALID_PARAMETER 0 0.
Definition pending_result : AppLauncherResult := mkResult ERROR_IO_PENDING 0 0.

Section Host.
(** This process, as the requests must name it. *)
Context (hostPid hostCreationTime : Z).

(** The checks before the lock; [sameUser] is [SameLaunchUser] of the client. *)
Definition acceptable (now : Z) (sameUser : bool) (r : AppLauncherRequest) : bool :=
  ValidId (rq_id r) && ValidAumid (rq_aumid r)
  && (rq_hostPid r =? hostPid) && (rq_hostCreationTime r =? hostCreationTime)
  && negb (now <? rq_submittedTime r)
  && negb (120 * 10000000 <? u64 (now - rq_submittedTime r)) && sameUser.

(** An answered record more than five minutes old. *)
Definition expired (now : Z) (record : LaunchRecord) : bool :=
  negb (rs_error (lr_result record) =? ERROR_IO_PENDING)
  && (300 * 10000000 <? u64 (now - rq_submittedTime (lr_request record))).

Definition expire (now : Z) (h : History) : History :=
  filter (fun '(_, record) => expired now record = false) h.

(** The first locked section: an answer, or [None] for a launch of its own. *)
Definition enter_history (now : Z) (r : AppLauncherRequest) (h : History)
    : option AppLauncherResult * History :=
  let h := expire now h in
  match h !! request_key r with
  | Some found =>
      (Some (if bool_decide (lr_request found = r) then lr_result found else invalid_result), h)
  | None =>
      if (128 <=? size h)%nat then (Some (mkResult ERROR_BUSY 0 0), h)
      else (None, <[request_key r := mkLaunchRecord r pending_result]> h)
  end.

(** [history.requests[request.id].result = result]. *)
Definition store (r : AppLauncherRequest) (result : AppLauncherResult) (h : History) : History :=
  let old := match h !! request_key r with
             | Some rec => rec
             | None => mkLaunchRecord (mkRequest (replicate 40 0) (replicate 256 0) 0 0 0 0 0) (mkResult 0 0 0)
             end in
  <[request_key r := mkLaunchRecord (lr_request old) result]> h.

(** The launch: [LaunchAppFromShell] returns a result, may leave the preset one
    or throw; nothing is launched once the server is stopping. *)
Inductive LaunchOutcome := Launched (r : AppLauncherResult) | Unhandled | Threw | Stopping.

Definition launch_result (o : LaunchOutcome) : AppLauncherResult :=
  match o with
  | Launched r => r
  | Unhandled => mkResult ERROR_NOT_SUPPORTED 0 0
  | Threw => mkResult ERROR_UNHANDLED_EXCEPTION 0 0
  | Stopping => mkResult ERROR_OPERATION_ABORTED 0 0
  end.

(** The whole handler with nobody in between. *)
Definition HandleAppLaunch (now : Z) (sameUser : bool) (o : LaunchOutcome)
    (r : AppLauncherRequest) (h : History) : AppLauncherResult * History :=
  if negb (acceptable now sameUser r) then (invalid_result, h)
  else
    let '(answer, h) := enter_history now r h in
    match answer with
    | Some a => (a, h)
    | None => (launch_result o, store r (launch_result o) h)
    end.

(** ** The workers *)

Inductive Worker :=
  | WArrived (r : AppLauncherRequest) (now : Z)     (* checked; [now] was read *)
  | WAdmitted (r : AppLauncherRequest)
  | WLaunching (r : AppLauncherRequest)
  | WAnswered (r : AppLauncherRequest) (a : AppLauncherResult).

Record LaunchWorld := mkLaunchWorld {
  lw_clock : Z;
  lw_history : History;
  lw_workers : gmap nat Worker;
  lw_launches : list AppLauncherRequest      (* calls of LaunchAppFromShell *)
}.

(** [prompt] says that no time passes between reading the clock and the lock. *)
Inductive launch_step (prompt : bool) : LaunchWorld -> LaunchWorld -> Prop :=
  | ls_tick c h ws l c' : c <= c' < 18446744073709551616 ->
      launch_step prompt (mkLaunchWorld c h ws l) (mkLaunchWorld c' h ws l)
  | ls_arrive c h ws l i r sameUser : ws !! i = None ->
      0 <= rq_submittedTime r < 18446744073709551616 ->
      launch_step prompt (mkLaunchWorld c h ws l)
        (mkLaunchWorld c h
           (<[i := if acceptable c sameUser r then WArrived r c else WAnswered r invalid_result]> ws) l)
  | ls_admit c h ws l i r now : ws !! i = Some (WArrived r now) -> (prompt = true -> now = c) ->
      launch_step prompt (mkLaunchWorld c h ws l)
        (mkLaunchWorld c (snd (enter_history now r h))
           (<[i := match fst (enter_history now r h) with
                   | Some a => WAnswered r a | None => WAdmitted r end]> ws) l)
  | ls_launch c h ws l i r : ws !! i = Some (WAdmitted r) ->
      launch_step prompt (mkLaunchWorld c h ws l)
        (mkLaunchWorld c h (<[i := WLaunching r]> ws) (l ++ [r]))
  | ls_stopping c h ws l i r : ws !! i = Some (WAdmitted r) ->
      launch_step prompt (mkLaunchWorld c h ws l)
        (mkLaunchWorld c (store r (launch_result Stopping) h)
           (<[i := WAnswered r (launch_result Stopping)]> ws) l)
  | ls_store c h ws l i r o : ws !! i = Some (WLaunching r) ->
      launch_step prompt (mkLaunchWorld c h ws l)
        (mkLaunchWorld c (store r (launch_result o) h)
           (<[i := WAnswered r (launch_result o)]> ws) l)
  | ls_done c h ws l i r a : ws !! i = Some (WAnswered r a) ->
      launch_step prompt (mkLaunchWorld c h ws l) (mkLaunchWorld c h (delete i ws) l).

Definition launch_start (clock : Z) : LaunchWorld := mkLaunchWorld clock ∅ ∅ [].
End Host.

(** * A request is launched at most once (properties of AppLauncher) *)

Section Safety.
Context (hostPid hostCreationTime : Z).
Abbreviation step := (launch_step hostPid hostCreationTime).

(** ** The history stays bounded *)

Lemma size_expire now h : (size (expire now h) <= size h)%nat.
Proof. unfold expire. apply map_subseteq_size, map_filter_subseteq. Qed.

Lemma size_admit now r h : (size h <= 128)%nat -> (size (snd (enter_history now r h)) <= 128)%nat.
Proof.
  intros Hs. pose proof (size_expire now h). unfold enter_history.
  destruct (expire now h !! request_key r) eqn:E; cbn [snd]; [lia|].
  destruct (Nat.leb_spec 128 (size (expire now h))); cbn [snd]; [lia|].
  rewrite map_size_insert_None by done. lia.
Qed.

(** The request a worker answers for, between admission and answer. *)
Definition active (w : Worker) : option AppLauncherRequest :=
  match w with WAdmitted r | WLaunching r => Some r | _ => None end.

(** Every active worker's request is in the history, unanswered. *)
Definition held (h : History) (ws : gmap nat Worker) : Prop :=
  forall i w r, ws !! i = Some w -> active w = Some r ->
    h !! request_key r = Some (mkLaunchRecord r pending_result).

Lemma pending_not_expired now r : expired now (mkLaunchRecord r pending_result) = false.
Proof. done. Qed.

Lemma expire_lookup now h k rec :
  h !! k = Some rec -> expired now rec = false -> expire now h !! k = Some rec.
Proof. intros Hl He. by apply map_lookup_filter_Some. Qed.

Lemma expire_lookup_inv now h k rec : expire now h !! k = Some rec -> h !! k = Some rec.
Proof. intros Hl. by apply map_lookup_filter_Some in Hl as [Hl _]. Qed.

Lemma held_expire now h ws : held h ws -> held (expire now h) ws.
Proof. intros H i w r Hw Ha. apply expire_lookup; [by eapply H|done]. Qed.

(** An admission either leaves the unexpired history, or adds a new key. *)
Lemma admit_cases now r h :
  (exists a, enter_history now r h = (Some a, expire now h)) \/
  expire now h !! request_key r = None /\
  enter_history now r h = (None, <[request_key r := mkLaunchRecord r pending_result]> (expire now h)).
Proof.
  unfold enter_history. destruct (expire now h !! request_key r) as [f|]; [left; by eexists|].
  destruct (128 <=? size _)%nat; [left; by eexists|by right].
Qed.

(** ** The workers and the history, at any pace *)

(** The history is bounded, holds every active request, and no request is
    active twice. *)
Record history_ok (w : LaunchWorld) : Prop := {
  ho_size : (size (lw_history w) <= 128)%nat;
  ho_held : held (lw_history w) (lw_workers w);
  ho_once : forall i j wi wj r, lw_workers w !! i = Some wi -> lw_workers w !! j = Some wj ->
      active wi = Some r -> active wj = Some r -> i = j
}.

(** A worker that was not active, or keeps its request. *)
Lemma workers_retire h ws i w' (Q : Prop) :
  held h ws ->
  (forall j k wj wk r, ws !! j = Some wj -> ws !! k = Some wk -> active wj = Some r -> active wk = Some r -> j = k) ->
  (active w' = None \/ exists w, ws !! i = Some w /\ active w' = active w) ->
  held h (<[i := w']> ws) /\
  (forall j k wj wk r, <[i := w']> ws !! j = Some wj -> <[i := w']> ws !! k = Some wk ->
     active wj = Some r -> active wk = Some r -> j = k).
Proof.
  intros Hh Honce Hw'.
  assert (Hback : forall j wj r, <[i := w']> ws !! j = Some wj -> active wj = Some r ->
            exists w0, ws !! j = Some w0 /\ active w0 = Some r).
  { intros j wj r Hj Aj. destruct (decide (i = j)) as [->|].
    - rewrite lookup_insert_eq in Hj. injection Hj as <-. destruct Hw' as [|(w & Hw & E)]; [congruence|].
      exists w. split; [done|congruence].
    - rewrite lookup_insert_ne in Hj by done. by exists wj. }
  split.
  - intros j wj r Hj Aj. destruct (Hback j wj r Hj Aj) as (w0 & H0 & A0). by eapply Hh.
  - intros j k wj wk r Hj Hk Aj Ak. destruct (Hback j wj r Hj Aj) as (w1 & H1 & A1).
    destruct (Hback k wk r Hk Ak) as (w2 & H2 & A2). by eapply Honce.
Qed.

Lemma held_delete h ws i : held h ws -> held h (delete i ws).
Proof. intros H j w r [_ Hj]%lookup_delete_Some. by eapply H. Qed.

(** A store keeps the request of the record and every other record. *)
Lemma store_held h ws i w r a :
  held h ws -> ws !! i = Some w -> active w = Some r ->
  store r a h = <[request_key r := mkLaunchRecord r a]> h.
Proof. intros H Hi Ha. unfold store. by rewrite (H i w r Hi Ha). Qed.

Lemma history_admit c h ws l i r now :
  history_ok (mkLaunchWorld c h ws l) -> ws !! i = Some (WArrived r now) ->
  history_ok (mkLaunchWorld c (snd (enter_history now r h))
    (<[i := match fst (enter_history now r h) with Some a => WAnswered r a | None => WAdmitted r end]> ws) l).
Proof.
  intros [Hs Hh Ho] Hi; simpl in *. pose proof (size_admit now r h Hs) as Hs'.
  pose proof (held_expire now h ws Hh) as Hh'.
  destruct (admit_cases now r h) as [[a E]|[Hnone E]]; rewrite E in *; simpl in *.
  { destruct (workers_retire _ ws i (WAnswered r a) True Hh' Ho) as [? ?]; [by left|]. by split. }
  assert (Hnew : forall j w q, ws !! j = Some w -> active w = Some q -> request_key q <> request_key r).
  { intros j w q Hj Ha Ek. pose proof (Hh' j w q Hj Ha) as Hq. rewrite Ek in Hq. congruence. }
  split; simpl; [done| |].
  - intros j w q Hj Ha. destruct (decide (i = j)) as [->|].
    + rewrite lookup_insert_eq in Hj. injection Hj as <-. injection Ha as ->. by rewrite lookup_insert_eq.
    + rewrite lookup_insert_ne in Hj by done. rewrite lookup_insert_ne; [by eapply Hh'|].
      intros Ek. by eapply Hnew.
  - intros j k wj wk q Hj Hk Aj Ak.
    destruct (decide (j = i)) as [->|], (decide (k = i)) as [->|]; try congruence;
      rewrite ?lookup_insert_eq, ?lookup_insert_ne in * by done.
    + injection Hj as <-. injection Aj as ->. exfalso. by eapply Hnew.
    + injection Hk as <-. injection Ak as ->. exfalso. by eapply Hnew.
    + by eapply Ho.
Qed.

Lemma history_store c h ws l i w r a :
  history_ok (mkLaunchWorld c h ws l) -> ws !! i = Some w -> active w = Some r ->
  history_ok (mkLaunchWorld c (store r a h) (<[i := WAnswered r a]> ws) l).
Proof.
  intros [Hs Hh Ho] Hi Ha; simpl in *. rewrite (store_held h ws i w r a Hh Hi Ha).
  destruct (workers_retire h ws i (WAnswered r a) True Hh Ho) as [Hh' Ho']; [by left|].
  split; simpl; [|intros j wj q Hj Aj|done].
  - rewrite map_size_insert_Some; [done|]. eexists. by eapply Hh.
  - pose proof (Hh' j wj q Hj Aj) as Hq. rewrite lookup_insert_ne; [done|]. intros Ek.
    pose proof (Hh i w r Hi Ha) as Hr. rewrite <- Ek, Hr in Hq. injection Hq as <-.
    destruct (decide (i = j)) as [->|Hne]; [rewrite lookup_insert_eq in Hj; by injection Hj as <-|].
    rewrite lookup_insert_ne in Hj by done. by apply Hne, (Ho i j w wj r).
Qed.

Lemma history_step prompt w w' : step prompt w w' -> history_ok w -> history_ok w'.
Proof.
  destruct 1 as [c h ws l c' Hc'|c h ws l i r sameUser Hi Hr|c h ws l i r now Hi Hnow|c h ws l i r Hi
                |c h ws l i r Hi|c h ws l i r o Hi|c h ws l i r a Hi]; intros Hok.
  - by destruct Hok.
  - destruct Hok as [Hs Hh Ho].
    destruct (workers_retire h ws i (if acceptable hostPid hostCreationTime c sameUser r
       then WArrived r c else WAnswered r invalid_result) True Hh Ho) as [? ?];
      [left; by destruct (acceptable _ _ _ _ _)|]. by split.
  - by apply history_admit.
  - destruct Hok as [Hs Hh Ho].
    destruct (workers_retire h ws i (WLaunching r) True Hh Ho) as [? ?];
      [right; by exists (WAdmitted r)|]. by split.
  - by eapply history_store.
  - by eapply history_store.
  - destruct Hok as [Hs Hh Ho]. split; simpl in *; [done|by apply held_delete|].
    intros j k wj wk q [_ Hj]%lookup_delete_Some [_ Hk]%lookup_delete_Some. by eapply Ho.
Qed.

Lemma history_start clock : history_ok (launch_start clock).
Proof. split; simpl; [rewrite map_size_empty; lia| |]; by intros i. Qed.

(** The history never holds more than 128 requests, and every request that is
    being launched is in it, unanswered, and held by one worker only. *)
Theorem launch_history_bounded (prompt : bool) (clock : Z) (w : LaunchWorld) :
  rtc (step prompt) (launch_start clock) w -> history_ok w.
Proof.
  intros Hr. pose proof (history_start clock) as H0. revert H0. generalize (launch_start clock) as w0, Hr.
  clear Hr. intros w0 Hr. induction Hr as [w|w1 w2 w3 Hs _ IH]; [done|]. intros H0. apply IH.
  by eapply history_step.
Qed.

(** ** Prompt workers launch a request once *)

Definition tracked (c : Z) (h : History) (r : AppLauncherRequest) : Prop :=
  (exists a, h !! request_key r = Some (mkLaunchRecord r a)) \/
  300 * 10000000 < c - rq_submittedTime r.

Record launch_ok (w : LaunchWorld) : Prop := {
  lo_clock : 0 <= lw_clock w < 18446744073709551616;
  lo_entries : forall k rec, lw_history w !! k = Some rec ->
      0 <= rq_submittedTime (lr_request rec) <= lw_clock w;
  lo_arrived : forall i r now, lw_workers w !! i = Some (WArrived r now) ->
      acceptable hostPid hostCreationTime now true r = true /\ 0 <= rq_submittedTime r <= lw_clock w;
  lo_waiting : forall i r, lw_workers w !! i = Some (WAdmitted r) -> r ∉ lw_launches w;
  lo_tracked : forall r, r ∈ lw_launches w -> tracked (lw_clock w) (lw_history w) r;
  lo_launches : NoDup (lw_launches w)
}.

Lemma u64_diff a b : 0 <= b <= a -> a < 18446744073709551616 -> u64 (a - b) = a - b.
Proof. intros. apply Z.mod_small. lia. Qed.

(** With the clock's own time, nothing younger than five minutes expires. *)
Lemma tracked_expire c h r :
  0 <= c < 18446744073709551616 ->
  (forall k rec, h !! k = Some rec -> 0 <= rq_submittedTime (lr_request rec) <= c) ->
  tracked c h r -> tracked c (expire c h) r.
Proof.
  intros Hc He [[a Ha]|Hold]; [|by right].
  destruct (expired c (mkLaunchRecord r a)) eqn:E.
  - right. unfold expired in E. bool_hyps. specialize (He _ _ Ha). simpl in *.
    rewrite u64_diff in * by lia. lia.
  - left. exists a. by apply expire_lookup.
Qed.

(** A worker that changes to something neither arrived nor admitted, and a
    history where the launched requests are still tracked. *)
Lemma launch_ok_worker c h h' ws l i w' :
  launch_ok (mkLaunchWorld c h ws l) ->
  (forall k rec, h' !! k = Some rec -> 0 <= rq_submittedTime (lr_request rec) <= c) ->
  (forall r, tracked c h r -> tracked c h' r) ->
  (forall r now, w' = WArrived r now ->
     acceptable hostPid hostCreationTime now true r = true /\ 0 <= rq_submittedTime r <= c) ->
  (forall r, w' = WAdmitted r -> r ∉ l) ->
  launch_ok (mkLaunchWorld c h' (<[i := w']> ws) l).
Proof.
  intros [Hc He Harr Hwait Htr Hnd] He' Ht Ha Hw; simpl in *. split; simpl; try done.
  - intros j r now Hj. destruct (decide (i = j)) as [->|].
    + rewrite lookup_insert_eq in Hj. injection Hj as ->. by eapply Ha.
    + rewrite lookup_insert_ne in Hj by done. by eapply Harr.
  - intros j r Hj. destruct (decide (i = j)) as [->|].
    + rewrite lookup_insert_eq in Hj. injection Hj as ->. by apply Hw.
    + rewrite lookup_insert_ne in Hj by done. by eapply Hwait.
  - intros r Hr. by apply Ht, Htr.
Qed.

Lemma launch_ok_admit c h ws l i r :
  launch_ok (mkLaunchWorld c h ws l) -> ws !! i = Some (WArrived r c) ->
  launch_ok (mkLaunchWorld c (snd (enter_history c r h))
    (<[i := match fst (enter_history c r h) with Some a => WAnswered r a | None => WAdmitted r end]> ws) l).
Proof.
  intros Hok Hi. pose proof (lo_clock _ Hok) as Hc. simpl in Hc.
  pose proof (lo_arrived _ Hok i r c Hi) as (Hacc & Hsub). simpl in Hsub.
  assert (He : forall k rec, expire c h !! k = Some rec -> 0 <= rq_submittedTime (lr_request rec) <= c)
    by (intros k rec Hk; apply (lo_entries _ Hok k rec), (expire_lookup_inv c _ _ _ Hk)).
  assert (Ht : forall q, tracked c h q -> tracked c (expire c h) q)
    by (intros q; apply tracked_expire; [done|apply (lo_entries _ Hok)]).
  destruct (admit_cases c r h) as [[a ->]|[Hnone ->]]; simpl.
  { by apply (launch_ok_worker c h). }
  assert (Hfresh : c - rq_submittedTime r <= 120 * 10000000).
  { unfold acceptable in Hacc. bool_hyps. rewrite u64_diff in * by lia. lia. }
  apply (launch_ok_worker c h); [done| | |done|].
  - intros k rec Hk. destruct (decide (k = request_key r)) as [->|].
    + rewrite lookup_insert_eq in Hk. injection Hk as <-. simpl. lia.
    + rewrite lookup_insert_ne in Hk by done. by eapply He.
  - intros q Hq. destruct (Ht q Hq) as [[a Ha]|Hold]; [left|by right]. exists a.
    rewrite lookup_insert_ne; [done|]. intros Ek. rewrite Ek in Hnone. congruence.
  - intros q [= <-] Hin. destruct (Ht r (lo_tracked _ Hok r Hin)) as [[a Ha]|Hold]; [congruence|lia].
Qed.

Lemma launch_ok_store c h ws l i w r a :
  launch_ok (mkLaunchWorld c h ws l) -> held h ws -> ws !! i = Some w -> active w = Some r ->
  launch_ok (mkLaunchWorld c (store r a h) (<[i := WAnswered r a]> ws) l).
Proof.
  intros Hok Hh Hi Ha. rewrite (store_held h ws i w r a Hh Hi Ha).
  pose proof (Hh i w r Hi Ha) as Hr.
  apply (launch_ok_worker c h); [done| | |done|done].
  - intros k rec Hk. destruct (decide (k = request_key r)) as [->|].
    + rewrite lookup_insert_eq in Hk. injection Hk as <-. apply (lo_entries _ Hok _ _ Hr).
    + rewrite lookup_insert_ne in Hk by done. by apply (lo_entries _ Hok k).
  - intros q [[b Hb]|Hold]; [left|by right]. destruct (decide (request_key q = request_key r)) as [Ek|].
    + exists a. rewrite Ek, lookup_insert_eq. rewrite Ek, Hr in Hb. by injection Hb as <-.
    + exists b. by rewrite lookup_insert_ne.
Qed.

Lemma launch_ok_launch c h ws l i r :
  launch_ok (mkLaunchWorld c h ws l) -> history_ok (mkLaunchWorld c h ws l) ->
  ws !! i = Some (WAdmitted r) ->
  launch_ok (mkLaunchWorld c h (<[i := WLaunching r]> ws) (l ++ [r])).
Proof.
  intros [Hc He Harr Hwait Htr Hnd] [_ Hh Ho] Hi; simpl in *.
  split; simpl; try done.
  - intros j q now Hj. destruct (decide (i = j)) as [->|].
    + by rewrite lookup_insert_eq in Hj.
    + rewrite lookup_insert_ne in Hj by done. by eapply Harr.
  - intros j q Hj. destruct (decide (i = j)) as [->|]; [by rewrite lookup_insert_eq in Hj|].
    rewrite lookup_insert_ne in Hj by done. intros [Hin| ->%list_elem_of_singleton]%elem_of_app.
    + by eapply Hwait.
    + assert (i = j) by (by eapply (Ho i j _ _ r Hi Hj)). done.
  - intros q [Hq| ->%list_elem_of_singleton]%elem_of_app; [by apply Htr|].
    left. eexists. by eapply (Hh i).
  - apply NoDup_app. split; [done|]. split; [|apply NoDup_singleton].
    intros q Hq ->%list_elem_of_singleton. by eapply Hwait.
Qed.

Lemma acceptable_true now u r :
  acceptable hostPid hostCreationTime now u r = true -> acceptable hostPid hostCreationTime now true r = true.
Proof. unfold acceptable. intros [-> _]%andb_true_iff. done. Qed.

Lemma launch_ok_step w w' : step true w w' -> history_ok w -> launch_ok w -> launch_ok w'.
Proof.
  destruct 1 as [c h ws l c' Hc'|c h ws l i r sameUser Hi Hr|c h ws l i r now Hi Hnow|c h ws l i r Hi
                |c h ws l i r Hi|c h ws l i r o Hi|c h ws l i r a Hi]; intros Hho Hok.
  - destruct Hok as [Hc He Harr Hwait Htr Hnd]; split; simpl in *; try done; [lia|..].
    + intros k rec Hk. specialize (He k rec Hk). lia.
    + intros i r now Hi. destruct (Harr i r now Hi). split; [done|lia].
    + intros r Hr. destruct (Htr r Hr) as [?|?]; [by left|right; lia].
  - apply (launch_ok_worker c h); [done|by apply (lo_entries _ Hok)|done| |].
    + intros q now. destruct (acceptable hostPid hostCreationTime c sameUser r) eqn:E; [|done].
      intros [= <- <-]. pose proof (lo_clock _ Hok) as Hc. simpl in Hc.
      split; [by eapply acceptable_true|]. unfold acceptable in E. bool_hyps. lia.
    + intros q. by destruct (acceptable _ _ _ _ _).
  - rewrite (Hnow eq_refl) in *. by apply launch_ok_admit.
  - by apply launch_ok_launch.
  - eapply launch_ok_store; [done|apply (ho_held _ Hho)|done|done].
  - eapply launch_ok_store; [done|apply (ho_held _ Hho)|done|done].
  - destruct Hok as [Hc He Harr Hwait Htr Hnd]; split; simpl in *; try done.
    + intros j q now [_ Hj]%lookup_delete_Some. by eapply Harr.
    + intros j q [_ Hj]%lookup_delete_Some. by eapply Hwait.
Qed.

Lemma launch_start_ok clock : 0 <= clock < 18446744073709551616 -> launch_ok (launch_start clock).
Proof.
  intros Hc. split; simpl; [done|by intros k|by intros i|by intros i|..].
  - by intros r Hr%not_elem_of_nil.
  - apply NoDup_nil_2.
Qed.

(** The runs in which no time passes between a worker's check and its admission. *)
Definition prompt_run (clock : Z) (w : LaunchWorld) : Prop := rtc (step true) (launch_start clock) w.

(** C34: When no time passes between a worker's check and its admission, no request
    is launched twice, however many workers repeat it and however long it runs. *)
Theorem launched_at_most_once (clock : Z) (w : LaunchWorld) :
  0 <= clock < 18446744073709551616 -> prompt_run clock w ->
  NoDup (lw_launches w).
Proof.
  unfold prompt_run. intros Hc Hr. apply lo_launches.
  pose proof (launch_start_ok clock Hc) as H0. pose proof (history_start clock) as H1.
  clear Hc. induction Hr as [w|w1 w2 w3 Hs _ IH]; [done|].
  apply IH; [by eapply launch_ok_step|by eapply history_step].
Qed.
End Safety.

(** ** A check made before another request finishes

    The clock is read before the lock.  A worker that is overtaken between the
    two by a whole launch submitted later expires that launch's record at once
    (its age wraps below zero), and the client's repeat launches it again. *)

Definition demo_id (c : Z) : list Z :=
  ascii_bytes "{0" ++ [c] ++ ascii_bytes "000000-0000-0000-0000-000000000000}" ++ [0; 0].
Definition demo_aumid : list Z := ascii_bytes "Pkg_1!App" ++ replicate 247 0.
Definition demo_request (c submitted : Z) : AppLauncherRequest :=
  mkRequest (demo_id c) demo_aumid 10 500 20 600 submitted.
Definition early : AppLauncherRequest := demo_request 49 1000.
Definition late : AppLauncherRequest := demo_request 50 1001.

Lemma rtc_at {A} (R : A -> A -> Prop) x y : x = y -> rtc R x y.
Proof. intros ->. apply rtc_refl. Qed.

(** A run in which the same request is launched twice: the worker of an earlier
    request reads the clock, waits while the later one completes, and expires it. *)
Theorem overtaken_check_launches_twice :
  exists w, rtc (launch_step 10 500 false) (launch_start 1000) w /\ lw_launches w = [late; late].
Proof.
  set (ok := mkResult 0 77 0).
  exists (mkLaunchWorld 1001 {[ request_key early := mkLaunchRecord early pending_result;
                                request_key late := mkLaunchRecord late pending_result ]}
            {[ 0%nat := WAdmitted early; 2%nat := WLaunching late ]} [late; late]).
  split; [|done]. unfold launch_start.
  eapply rtc_l; [apply (ls_arrive 10 500 false _ _ _ _ 0 early true); [done|by vm_compute]|].
  eapply rtc_l; [apply (ls_tick 10 500 false _ _ _ _ 1001); lia|].
  eapply rtc_l; [apply (ls_arrive 10 500 false _ _ _ _ 1 late true); [by vm_compute|by vm_compute]|].
  eapply rtc_l; [apply (ls_admit 10 500 false _ _ _ _ 1 late 1001); by vm_compute|].
  eapply rtc_l; [apply (ls_launch 10 500 false _ _ _ _ 1 late); by vm_compute|].
  eapply rtc_l; [apply (ls_store 10 500 false _ _ _ _ 1 late (Launched ok)); by vm_compute|].
  eapply rtc_l; [apply (ls_done 10 500 false _ _ _ _ 1 late ok); by vm_compute|].
  eapply rtc_l; [apply (ls_admit 10 500 false _ _ _ _ 0 early 1000); by vm_compute|].
  eapply rtc_l; [apply (ls_arrive 10 500 false _ _ _ _ 2 late true); [by vm_compute|by vm_compute]|].
  eapply rtc_l; [apply (ls_admit 10 500 false _ _ _ _ 2 late 1001); by vm_compute|].
  eapply rtc_l; [apply (ls_launch 10 500 false _ _ _ _ 2 late); by vm_compute|].
  apply rtc_at. by vm_compute.
Qed.

(** The same two requests with prompt workers: the repeat only gets the answer. *)
Lemma launched_at_most_once_witness :
  exists w, rtc (launch_step 10 500 true) (launch_start 1001) w /\ lw_launches w = [late] /\
    lw_workers w !! 2%nat = Some (WAnswered late (mkResult 0 77 0)) /\ NoDup (lw_launches w).
Proof.
  set (ok := mkResult 0 77 0).
  set (w := mkLaunchWorld 1001 {[ request_key late := mkLaunchRecord late ok ]}
              {[ 2%nat := WAnswered late ok ]} [late]).
  assert (R : rtc (launch_step 10 500 true) (launch_start 1001) w).
  { unfold launch_start.
    eapply rtc_l; [apply (ls_arrive 10 500 true _ _ _ _ 1 late true); [done|by vm_compute]|].
    eapply rtc_l; [apply (ls_admit 10 500 true _ _ _ _ 1 late 1001); by vm_compute|].
    eapply rtc_l; [apply (ls_launch 10 500 true _ _ _ _ 1 late); by vm_compute|].
    eapply rtc_l; [apply (ls_store 10 500 true _ _ _ _ 1 late (Launched ok)); by vm_compute|].
    eapply rtc_l; [apply (ls_done 10 500 true _ _ _ _ 1 late ok); by vm_compute|].
    eapply rtc_l; [apply (ls_arrive 10 500 true _ _ _ _ 2 late true); [by vm_compute|by vm_compute]|].
    eapply rtc_l; [apply (ls_admit 10 500 true _ _ _ _ 2 late 1001); by vm_compute|].
    apply rtc_at. by vm_compute. }
  exists w. split; [exact R|]. split; [done|]. split; [by vm_compute|].
  apply (launched_at_most_once 10 500 1001 w); [lia|exact R].
Defined.

Lemma launch_history_bounded_witness :
  exists w, rtc (launch_step 10 500 false) (launch_start 1000) w /\
    lw_workers w !! 0%nat = Some (WAdmitted early) /\ size (lw_history w) = 1%nat /\ history_ok w.
Proof.
  set (w := mkLaunchWorld 1000 {[ request_key early := mkLaunchRecord early pending_result ]}
              {[ 0%nat := WAdmitted early ]} []).
  assert (R : rtc (launch_step 10 500 false) (launch_start 1000) w).
  { unfold launch_start.
    eapply rtc_l; [apply (ls_arrive 10 500 false _ _ _ _ 0 early true); [done|by vm_compute]|].
    eapply rtc_l; [apply (ls_admit 10 500 false _ _ _ _ 0 early 1000); by vm_compute|].
    apply rtc_at. by vm_compute. }
  exists w. split; [exact R|]. split; [by vm_compute|]. split; [by vm_compute|].
  exact (launch_history_bounded 10 500 false 1000 w R).
Defined.

(** ** Application user model identifiers *)

Lemma wcschr_split c text :
  match wcschr c text with
  | Some t => exists a b, text = a ++ c :: b /\ t = c :: b /\ c ∉ a
  | None => c ∉ text
  end.
Proof.
  induction text as [|x r IH]; simpl; [apply not_elem_of_nil|].
  destruct (Z.eqb_spec x c) as [->|Hne].
  - exists [], r. split; [done|]. split; [done|apply not_elem_of_nil].
  - destruct (wcschr c r) as [t|].
    + destruct IH as (a & b & -> & -> & Ha). exists (x :: a), b. split; [done|]. split; [done|].
      by apply not_elem_of_cons.
    + by apply not_elem_of_cons.
Qed.

(** A valid identifier is "package!application": both parts are there, the only
    '!' separates them and every unit is allowed; so nothing a shell or a path
    could interpret gets through. *)
Theorem ValidAumid_exact (array : list Z) :
  ValidAumid array = true <->
  exists package application : list Z,
    wcsn 256 array = package ++ (33 :: application) /\ package <> [] /\ application <> [] /\
    33 ∉ package /\ 33 ∉ application /\
    Forall (fun c => aumid_char c = true) (package ++ application) /\
    (length (wcsn 256 array) < 256)%nat.
Proof.
  unfold ValidAumid. set (text := wcsn 256 array).
  pose proof (wcschr_split 33 text) as Hbang.
  destruct (bool_decide (text = [])) eqn:En; cbn [orb].
  { apply bool_decide_eq_true in En. split; [done|]. intros (p & a & E & _). rewrite En in E. by destruct p. }
  destruct (Nat.leb_spec 256 (length text)) as [Hl|Hl].
  { split; [done|]. intros (p & a & E & _ & _ & _ & _ & _ & Hlt). lia. }
  destruct (wcschr 33 text) as [t|].
  2: { split; [done|]. intros (p & a & E & _). rewrite E in Hbang. exfalso. apply Hbang.
       apply elem_of_app. right. left. }
  destruct Hbang as (p & a & E & -> & Hp). change (drop 1 (33 :: a)) with a.
  pose proof (wcschr_split 33 a) as Hsecond.
  assert (Hunique : forall p' a', text = p' ++ 33 :: a' -> 33 ∉ p' -> p' = p /\ a' = a).
  { intros p' a' E' Hp'. rewrite E in E'. clear -E' Hp Hp'. revert p' E' Hp'.
    induction p as [|x p IH]; intros [|y p'] E' Hp'; simpl in E'.
    - split; congruence.
    - exfalso. apply Hp'. injection E' as E1 E2. rewrite <- E1. left.
    - exfalso. apply Hp. injection E' as E1 E2. rewrite E1. left.
    - injection E' as E1 E2. apply not_elem_of_cons in Hp as [_ Hp], Hp' as [_ Hp']. subst y.
      destruct (IH Hp p' E2 Hp') as [-> ->]. done. }
  destruct (_ || _ || _) eqn:Eb.
  - split; [done|]. intros (p' & a' & E' & Hp' & Ha' & Hpi & Hai & _).
    destruct (Hunique p' a' E' Hpi) as [-> ->].
    apply orb_true_iff in Eb as [Eb|Eb]; [apply orb_true_iff in Eb as [Eb|Eb]|].
    + apply Nat.eqb_eq in Eb. rewrite E, length_app in Eb. destruct p; [done|simpl in Eb; lia].
    + by apply bool_decide_eq_true in Eb.
    + destruct (wcschr 33 a); [|done]. destruct Hsecond as (x & y & -> & _). exfalso. apply Hai.
      apply elem_of_app. right. left.
  - bool_hyps. assert (Hpne : p <> []).
    { intros ->. rewrite E in *. simpl in *. lia. }
    assert (Hai : 33 ∉ a) by (by destruct (wcschr 33 a)).
    rewrite forallb_forall. split.
    + intros Hc. exists p, a. split; [done|]. split; [done|]. split; [done|]. split; [done|].
      split; [done|]. split; [|lia].
      apply Forall_forall. intros c Hin. apply Hc, list_elem_of_In. rewrite E.
      apply elem_of_app in Hin as [Hin|Hin]; apply elem_of_app; [by left|right; by right].
    + intros (p' & a' & E' & _ & _ & Hpi & _ & Hall & _) c Hin. destruct (Hunique p' a' E' Hpi) as [-> ->].
      apply list_elem_of_In in Hin. rewrite E in Hin. rewrite Forall_forall in Hall.
      apply elem_of_app in Hin as [Hin|Hin]; [apply Hall, elem_of_app; by left|].
      apply elem_of_cons in Hin as [->|Hin]; [done|]. apply Hall, elem_of_app. by right.
Qed.
