(* ===== verification/QuicReports.v ===== *)
(** * Browser compatibility reports (BrowserQuicPolicy.cpp, the host's part)

    A hooked browser reports whether its QUIC stack could be adapted.  The host
    keeps the reports of at most 4096 processes, each under its owner (the
    reception centre), its identifier and its creation time. *)

From stdpp Require Import sorting.
From S2P Require Import Prelude.

Definition QUIC_Pending : Z := 1.
Definition QUIC_Ready : Z := 2.
Definition QUIC_Unavailable : Z := 3.

Record ReportEntry := mkReportEntry { re_status : Z; re_updated : Z }.

(** The key of [reports], a tuple in lexicographic order. *)
Record ReportKey := mkReportKey { rk_owner : Z; rk_pid : Z; rk_birth : Z }.

#[global] Instance ReportKey_eq_dec : EqDecision ReportKey.
Proof. solve_decision. Defined.
#[global] Program Instance ReportKey_countable : Countable ReportKey :=
  inj_countable' (fun k => (rk_owner k, rk_pid k, rk_birth k)) (fun '(o, p, b) => mkReportKey o p b) _.
Next Obligation. by intros []. Qed.

Definition key_le (a b : ReportKey) : Prop :=
  rk_owner a < rk_owner b \/
  (rk_owner a = rk_owner b /\
   (rk_pid a < rk_pid b \/ (rk_pid a = rk_pid b /\ rk_birth a <= rk_birth b))).
#[global] Instance key_le_dec a b : Decision (key_le a b).
Proof. unfold key_le. apply _. Defined.

Abbreviation Reports := (gmap ReportKey ReportEntry).

(** The table in iteration order. *)
Definition report_list (m : Reports) : list (ReportKey * ReportEntry) :=
  omap (fun k => pair k <$> m !! k) (merge_sort key_le (elements (dom m))).

(** The first entry of the greatest age. *)
Fixpoint oldest_from (now : Z) (oldest : ReportKey * ReportEntry)
    (l : list (ReportKey * ReportEntry)) : ReportKey * ReportEntry :=
  match l with
  | [] => oldest
  | i :: r =>
      oldest_from now
        (if u32 (now - re_updated oldest.2) <? u32 (now - re_updated i.2) then i else oldest) r
  end.

Definition oldest (now : Z) (m : Reports) : option ReportKey :=
  match report_list m with
  | [] => None
  | o :: r => Some (oldest_from now o (o :: r)).1
  end.

Definition maxReports : Z := 4096.

Definition Observe (now owner pid birth status : Z) (m : Reports) : Reports :=
  if (pid =? 0) || (birth =? 0) || (status <? QUIC_Pending) || (QUIC_Unavailable <? status) then m
  else
    let key := mkReportKey owner pid birth in
    let insert_ m := <[key := mkReportEntry status now]> m in
    match m !! key with
    | Some e =>
        if negb (re_status e =? QUIC_Pending) && (status =? QUIC_Pending) then m else insert_ m
    | None =>
        if maxReports <=? Z.of_nat (size m)
        then insert_ (match oldest now m with Some k => delete k m | None => m end)
        else insert_ m
    end.

Definition Lookup (owner pid birth fallback : Z) (m : Reports) : Z :=
  match m !! mkReportKey owner pid birth with Some e => re_status e | None => fallback end.

Definition Forget (owner : Z) (m : Reports) : Reports :=
  filter (fun '(k, _) => rk_owner k <> owner) m.

(** ** Properties *)

Lemma report_list_spec m k e : (k, e) ∈ report_list m <-> m !! k = Some e.
Proof.
  unfold report_list. rewrite list_elem_of_omap. setoid_rewrite merge_sort_Permutation.
  setoid_rewrite elem_of_elements. split.
  - intros (k' & _ & H). destruct (m !! k') eqn:E; [|done]. by injection H as <- <-.
  - intros H. exists k. split; [by apply elem_of_dom_2 in H|by rewrite H].
Qed.

Lemma oldest_from_spec now o l :
  let r := oldest_from now o l in
  (r = o \/ r ∈ l) /\
  u32 (now - re_updated o.2) <= u32 (now - re_updated r.2) /\
  forall i, i ∈ l -> u32 (now - re_updated i.2) <= u32 (now - re_updated r.2).
Proof.
  revert o. induction l as [|i l IH]; intros o; simpl.
  { split; [by left|]. split; [lia|]. by intros i ?%elem_of_nil. }
  destruct (Z.ltb_spec (u32 (now - re_updated o.2)) (u32 (now - re_updated i.2))) as [Hlt|Hge].
  - destruct (IH i) as (Hin & Hle & Hall). split; [|split; [lia|]].
    + right. destruct Hin as [->|Hin]; [left|by right].
    + intros j [->|Hj]%elem_of_cons; [done|auto].
  - destruct (IH o) as (Hin & Hle & Hall). split; [|split; [done|]].
    + destruct Hin as [->|Hin]; [by left|right; by right].
    + intros j [->|Hj]%elem_of_cons; [lia|auto].
Qed.

(** The entry evicted from a table that is not empty: one of the oldest. *)
Lemma oldest_spec now m :
  m <> ∅ -> exists k e, oldest now m = Some k /\ m !! k = Some e /\
    forall k' e', m !! k' = Some e' -> u32 (now - re_updated e') <= u32 (now - re_updated e).
Proof.
  intros Hm. unfold oldest. destruct (report_list m) as [|o r] eqn:El.
  { exfalso. apply Hm, map_eq. intros k. rewrite lookup_empty.
    destruct (m !! k) as [e|] eqn:E; [|done]. apply report_list_spec in E. rewrite El in E. by apply elem_of_nil in E. }
  pose proof (oldest_from_spec now o (o :: r)) as (Hin & _ & Hall).
  destruct (oldest_from now o (o :: r)) as [k e] eqn:Eo. exists k, e. split; [done|]. split.
  - apply report_list_spec. rewrite El. destruct Hin as [->|Hin]; [left|done].
  - intros k' e' H'. apply report_list_spec in H'. rewrite El in H'. apply (Hall _ H').
Qed.

Lemma size_Observe now owner pid birth status m :
  Z.of_nat (size m) <= maxReports -> Z.of_nat (size (Observe now owner pid birth status m)) <= maxReports.
Proof.
  intros Hs. unfold Observe. destruct (_ || _ || _ || _); [done|].
  set (key := mkReportKey owner pid birth). destruct (m !! key) as [e|] eqn:E.
  - destruct (_ && _); [done|]. rewrite map_size_insert_Some; [done|by eexists].
  - destruct (Z.leb_spec maxReports (Z.of_nat (size m))).
    + destruct (oldest_spec now m) as (k & e & -> & Hk & _).
      { intros ->. rewrite map_size_empty in *. unfold maxReports in *. lia. }
      assert (k <> key) by congruence.
      rewrite map_size_insert_None by (by rewrite lookup_delete_ne).
      rewrite map_size_delete_Some by (by eexists). unfold maxReports in *. lia.
    + rewrite map_size_insert_None by done. lia.
Qed.

(** A valid report is found by its key unless it would replace a final status
    by Pending; no other entry changes, except that a full table loses one of
    its oldest. *)
Lemma Observe_spec now owner pid birth status m k :
  pid <> 0 -> birth <> 0 -> QUIC_Pending <= status <= QUIC_Unavailable ->
  let m' := Observe now owner pid birth status m in
  let key := mkReportKey owner pid birth in
  m' !! key = (match m !! key with
               | Some e => if negb (re_status e =? QUIC_Pending) && (status =? QUIC_Pending)
                           then Some e else Some (mkReportEntry status now)
               | None => Some (mkReportEntry status now)
               end) /\
  (k <> key -> m' !! k = m !! k \/
     (m' !! k = None /\ maxReports <= Z.of_nat (size m) /\ oldest now m = Some k)).
Proof.
  intros Hp Hb Hs. unfold Observe.
  rewrite !(proj2 (Z.eqb_neq _ 0)), !(proj2 (Z.ltb_ge _ _)) by (done || lia). cbn [orb].
  set (key := mkReportKey owner pid birth). destruct (m !! key) as [e|] eqn:E; cbn zeta.
  - destruct (_ && _); [by split; [|left]|]. split; [apply lookup_insert_eq|].
    intros Hk. left. by apply lookup_insert_ne.
  - destruct (Z.leb_spec maxReports (Z.of_nat (size m))).
    + destruct (oldest now m) as [o|] eqn:Eo; (split; [apply lookup_insert_eq|]); intros Hk;
        rewrite lookup_insert_ne by done.
      * destruct (decide (o = k)) as [->|]; [right; by rewrite lookup_delete_eq|].
        left. by apply lookup_delete_ne.
      * by left.
    + split; [apply lookup_insert_eq|]. intros Hk. left. by apply lookup_insert_ne.
Qed.

Lemma Forget_spec owner m k :
  Forget owner m !! k = if decide (rk_owner k = owner) then None else m !! k.
Proof.
  unfold Forget. destruct (decide (rk_owner k = owner)) as [E|E].
  - apply map_lookup_filter_None. right. intros x _ H. by apply H.
  - destruct (m !! k) as [e|] eqn:El.
    + by apply map_lookup_filter_Some.
    + apply map_lookup_filter_None. by left.
Qed.
