(* ===== verification/QuicAdmission.v ===== *)
(** * Admission of QUIC connections (QuicBridge.cpp)

    A bridge holds back the first datagrams of a connection until it is known
    whether the browser takes part and whether the handshake can be intercepted.
    Then either a session of the TLS module gets them all, or they are passed on.
    The number of bridges, the undecided ones and the bytes they all hold are
    counters of the process.

    Every method runs on the thread of the reception centre, so an operation is
    one step; [answers] is what the system and the module return during it. *)

From S2P Require Import Prelude Effects QuicReports.

Definition initialByteLimit : Z := 8 * 1024 * 1024.
Definition compatibilityWaitMs : Z := 2000.

(** Calls into the module (plm_quic_open, plm_quic_io, plm_quic_inspect of
    ProxyLaneMitm/src/lib.rs: the first gives a handle exactly when it returns 1,
    the last makes the probe, or frees it); the side is true for the upstream one. *)
Inductive module_call :=
  | CInspect (data : bytes)
  | CFreeProbe
  | COpen (first : bytes) (result : Z)
  | CFeed (side : bool) (data : bytes)
  | CConsume (side : bool)
  | CClose.

Record CQuicBridge := mkBridge {
  m_handle : bool;
  m_probe : bool;
  m_initial : list bytes;
  m_compat : Z;
  m_admissionSlot : bool;
  m_started : Z;
  m_bytes : Z;
  m_inspected : Z;
  m_rejected : bool;
  m_timer : bool;                       (* the timer of its window runs *)
  m_id : Z;
  (* seen from outside *)
  calls : list module_call;
  accepted : list bytes;                (* datagrams for which Feed returned true *)
  passed : list bytes;                  (* consumed as passthrough *)
  no_first : bool                       (* m_initial.front() of an empty queue *)
}.

Definition set_handle (v : bool) (b : CQuicBridge) : CQuicBridge :=
  mkBridge v (m_probe b) (m_initial b) (m_compat b) (m_admissionSlot b) (m_started b) (m_bytes b) (m_inspected b)
    (m_rejected b) (m_timer b) (m_id b) (calls b) (accepted b) (passed b) (no_first b).
Definition set_probe (v : bool) (b : CQuicBridge) : CQuicBridge :=
  mkBridge (m_handle b) v (m_initial b) (m_compat b) (m_admissionSlot b) (m_started b) (m_bytes b) (m_inspected b)
    (m_rejected b) (m_timer b) (m_id b) (calls b) (accepted b) (passed b) (no_first b).
Definition set_initial (v : list bytes) (n : Z) (b : CQuicBridge) : CQuicBridge :=
  mkBridge (m_handle b) (m_probe b) v (m_compat b) (m_admissionSlot b) (m_started b) n (m_inspected b)
    (m_rejected b) (m_timer b) (m_id b) (calls b) (accepted b) (passed b) (no_first b).
Definition set_compat (v : Z) (b : CQuicBridge) : CQuicBridge :=
  mkBridge (m_handle b) (m_probe b) (m_initial b) v (m_admissionSlot b) (m_started b) (m_bytes b) (m_inspected b)
    (m_rejected b) (m_timer b) (m_id b) (calls b) (accepted b) (passed b) (no_first b).
Definition set_slot (v : bool) (b : CQuicBridge) : CQuicBridge :=
  mkBridge (m_handle b) (m_probe b) (m_initial b) (m_compat b) v (m_started b) (m_bytes b) (m_inspected b)
    (m_rejected b) (m_timer b) (m_id b) (calls b) (accepted b) (passed b) (no_first b).
Definition set_inspected (v : Z) (b : CQuicBridge) : CQuicBridge :=
  mkBridge (m_handle b) (m_probe b) (m_initial b) (m_compat b) (m_admissionSlot b) (m_started b) (m_bytes b) v
    (m_rejected b) (m_timer b) (m_id b) (calls b) (accepted b) (passed b) (no_first b).
Definition set_rejected (v : bool) (b : CQuicBridge) : CQuicBridge :=
  mkBridge (m_handle b) (m_probe b) (m_initial b) (m_compat b) (m_admissionSlot b) (m_started b) (m_bytes b) (m_inspected b)
    v (m_timer b) (m_id b) (calls b) (accepted b) (passed b) (no_first b).
Definition set_timer (v : bool) (b : CQuicBridge) : CQuicBridge :=
  mkBridge (m_handle b) (m_probe b) (m_initial b) (m_compat b) (m_admissionSlot b) (m_started b) (m_bytes b) (m_inspected b)
    (m_rejected b) v (m_id b) (calls b) (accepted b) (passed b) (no_first b).
Definition add_call (c : module_call) (b : CQuicBridge) : CQuicBridge :=
  mkBridge (m_handle b) (m_probe b) (m_initial b) (m_compat b) (m_admissionSlot b) (m_started b) (m_bytes b) (m_inspected b)
    (m_rejected b) (m_timer b) (m_id b) (calls b ++ [c]) (accepted b) (passed b) (no_first b).
Definition add_accepted (d : bytes) (b : CQuicBridge) : CQuicBridge :=
  mkBridge (m_handle b) (m_probe b) (m_initial b) (m_compat b) (m_admissionSlot b) (m_started b) (m_bytes b) (m_inspected b)
    (m_rejected b) (m_timer b) (m_id b) (calls b) (accepted b ++ [d]) (passed b) (no_first b).
Definition add_passed (d : bytes) (b : CQuicBridge) : CQuicBridge :=
  mkBridge (m_handle b) (m_probe b) (m_initial b) (m_compat b) (m_admissionSlot b) (m_started b) (m_bytes b) (m_inspected b)
    (m_rejected b) (m_timer b) (m_id b) (calls b) (accepted b) (passed b ++ [d]) (no_first b).
Definition set_no_first (b : CQuicBridge) : CQuicBridge :=
  mkBridge (m_handle b) (m_probe b) (m_initial b) (m_compat b) (m_admissionSlot b) (m_started b) (m_bytes b) (m_inspected b)
    (m_rejected b) (m_timer b) (m_id b) (calls b) (accepted b) (passed b) true.

(** The counters of the process, and the bridge whose method runs. *)
Record admission := mkAdmission {
  quicIds : Z; quicBridges : Z; initialBytes : Z; admissions : Z; self : CQuicBridge
}.

Definition AM := M admission.

Definition on_self (f : CQuicBridge -> CQuicBridge) : AM unit :=
  modify (fun w => mkAdmission (quicIds w) (quicBridges w) (initialBytes w) (admissions w) (f (self w))).
Definition add_initialBytes (n : Z) : AM unit :=
  modify (fun w => mkAdmission (quicIds w) (quicBridges w) (initialBytes w + n) (admissions w) (self w)).
Definition add_admissions (n : Z) : AM unit :=
  modify (fun w => mkAdmission (quicIds w) (quicBridges w) (initialBytes w) (admissions w + n) (self w)).
Definition add_quicBridges (n : Z) : AM unit :=
  modify (fun w => mkAdmission (quicIds w) (quicBridges w + n) (initialBytes w) (admissions w) (self w)).

Record answers := mkAnswers {
  an_enabled : bool;          (* ProxyQuicEnabled *)
  an_now : Z;                 (* GetTickCount *)
  an_status : Z;              (* BrowserQuicPolicy::Lookup *)
  an_inspect : Z;
  an_open : Z;
  an_allocates : bool;
  an_window : bool;
  an_timer : bool
}.

Section Operations.
Context (a : answers).

Definition release_slot : AM unit :=
  w ← gets self;
  when (m_admissionSlot w) (add_admissions (-1);; on_self (set_slot false)).

Definition waited : AM Z := w ← gets self; mret (elapsed (an_now a) (m_started w)).

(** Whether to go on: the time, the probe, and the browser's report. *)
Definition review : AM unit :=
  b ← gets self;
  t ← waited;
  if negb (an_enabled a) || (5000 <? t) || (m_inspected b <? 0) then on_self (set_rejected true)
  else if m_compat b =? QUIC_Pending then
    if (compatibilityWaitMs <=? t) || (an_status a =? QUIC_Unavailable) then on_self (set_rejected true)
    else when (an_status a =? QUIC_Ready) (on_self (set_compat (an_status a)))
  else mret tt.

Fixpoint feed_all (l : list bytes) : AM unit :=
  match l with
  | [] => mret tt
  | d :: l => on_self (add_call (CFeed false d));; feed_all l
  end.

Definition start_session : AM unit :=
  b ← gets self;
  match m_initial b with
  | [] => on_self set_no_first
  | first :: rest =>
      on_self (add_call (COpen first (an_open a)));;
      if an_open a =? 1 then
        on_self (set_handle true);;
        feed_all rest;;
        add_initialBytes (- m_bytes b);;
        on_self (set_initial [] 0)
      else on_self (set_rejected true)
  end.

Definition free_probe : AM unit :=
  b ← gets self;
  when (m_probe b) (on_self (add_call CFreeProbe);; on_self (set_probe false)).

Definition TryOpen : AM unit :=
  b ← gets self;
  if m_handle b then mret tt
  else if m_rejected b then release_slot;; on_self (set_timer false)
  else
    review;;
    b ← gets self;
    when (negb (m_rejected b) && negb (m_compat b =? QUIC_Pending) && (m_inspected b =? 1)) start_session;;
    b ← gets self;
    when (m_handle b || m_rejected b) (release_slot;; on_self (set_timer false);; free_probe).

(** [side] is false for the application's side. *)
Definition Feed (side : bool) (data : bytes) : AM bool :=
  b ← gets self;
  let n := Z.of_nat (length data) in
  if m_handle b then on_self (add_call (CFeed side data));; when (negb side) (on_self (add_accepted data));; mret true
  else if side then mret false
  else
    when ((65536 <? m_bytes b + n) || (64 <=? Z.of_nat (length (m_initial b)))) (on_self (set_rejected true));;
    used ← gets initialBytes;
    if (512 * 1024 <? m_bytes b + n) || (initialByteLimit - used <? n) then
      on_self (set_rejected true);; TryOpen;; mret false
    else
      add_initialBytes n;;
      if negb (an_allocates a) then
        add_initialBytes (- n);; on_self (set_rejected true);; TryOpen;; mret false
      else
        on_self (set_initial (m_initial b ++ [data]) (m_bytes b + n));;
        on_self (add_accepted data);;
        b ← gets self;
        when (negb (m_rejected b)) (
          on_self (add_call (CInspect data));; on_self (set_probe true);; on_self (set_inspected (an_inspect a)));;
        TryOpen;;
        mret true.

(** The datagram, or nothing; [waiting] is the answer of a session. *)
Definition Peek (waiting : bytes) (side : bool) (n : Z) (b : CQuicBridge) : bytes :=
  if m_handle b then waiting
  else match m_initial b with
  | first :: _ => if m_rejected b && side && (Z.of_nat (length first) <=? n) then first else []
  | [] => []
  end.

Definition Consume (side : bool) : AM unit :=
  b ← gets self;
  if m_handle b then on_self (add_call (CConsume side))
  else
    match m_initial b with
    | first :: rest =>
        when side (
          add_initialBytes (- Z.of_nat (length first));;
          on_self (set_initial rest (m_bytes b - Z.of_nat (length first)));;
          on_self (add_passed first))
    | [] => mret tt
    end.

(** A session answers with its status and the lengths of what waits on its sides. *)
Definition Drained (status client server : Z) (b : CQuicBridge) : bool :=
  if m_handle b then (status =? 1) && (client =? 0) && (server =? 0)
  else m_rejected b && bool_decide (m_initial b = []).

(** The constructor and the fields [Open] sets. *)
Definition new_bridge (compat id : Z) : CQuicBridge :=
  mkBridge false false [] compat true (an_now a) 0 0 false false id [] [] [] false.

(** The destructor. *)
Definition destroy : AM unit :=
  b ← gets self;
  add_quicBridges (-1);;
  add_initialBytes (- m_bytes b);;
  when (m_admissionSlot b) (add_admissions (-1));;
  when (m_handle b) (on_self (add_call CClose));;
  free_probe.

(** [Open] up to the constructor; the module is complete. *)
Definition may_open (first : bytes) (w : admission) : bool :=
  an_enabled a && (7 <=? Z.of_nat (length first)) && (Z.land (byte_at first 0) 192 =? 192)
  && negb (an_status a =? QUIC_Unavailable) && negb ((256 <=? quicBridges w) || (128 <=? admissions w)).

(** The rest of [Open], on the new bridge; false when it is destroyed again. *)
Definition open_bridge (first : bytes) : AM bool :=
  modify (fun w => mkAdmission (quicIds w) (quicBridges w + 1) (initialBytes w) (admissions w + 1) (new_bridge (an_status a) 0));;
  if negb (an_window a) then destroy;; mret false
  else
    modify (fun w => mkAdmission (quicIds w + 1) (quicBridges w) (initialBytes w) (admissions w)
      (mkBridge false false [] (an_status a) true (an_now a) 0 0 false false
         (Z.lor 9223372036854775808 (quicIds w + 1)) [] [] [] false));;
    Feed false first;;
    b ← gets self;
    if m_rejected b then destroy;; mret false
    else if m_handle b then mret true
    else if an_timer a then on_self (set_timer true);; mret true
    else destroy;; mret false.

(** WM_TIMER, or the module's notification; the task then pumps. *)
Definition on_wake : AM unit := TryOpen.
End Operations.

(** ** The bridges of the process *)

Record host := mkHost { h_ids : Z; h_count : Z; h_bytes : Z; h_admissions : Z; bridges : gmap nat CQuicBridge }.

Definition new_host : host := mkHost 0 0 0 0 ∅.

Definition enter (h : host) (b : CQuicBridge) : admission := mkAdmission (h_ids h) (h_count h) (h_bytes h) (h_admissions h) b.
Definition leave (m : gmap nat CQuicBridge) (w : admission) : host :=
  mkHost (quicIds w) (quicBridges w) (initialBytes w) (admissions w) m.

(** A method of the bridge [k]. *)
Definition run_on {A} (m : AM A) (k : nat) (b : CQuicBridge) (h : host) : host :=
  let w := exec m (enter h b) in leave (<[k := self w]> (bridges h)) w.

Inductive host_step (h : host) : host -> Prop :=
  | H_open a k first kept w : bridges h !! k = None ->
      may_open a first (enter h (new_bridge a 0 0)) = true ->
      open_bridge a first (enter h (new_bridge a 0 0)) = (kept, w) ->
      host_step h (leave (if kept then <[k := self w]> (bridges h) else bridges h) w)
  | H_feed a k b side data : bridges h !! k = Some b -> host_step h (run_on (Feed a side data) k b h)
  | H_wake a k b : bridges h !! k = Some b -> host_step h (run_on (on_wake a) k b h)
  | H_consume k b side waiting n : bridges h !! k = Some b -> Peek waiting side n b <> [] ->
      host_step h (run_on (Consume side) k b h)
  | H_destroy k b : bridges h !! k = Some b -> host_step h (leave (delete k (bridges h)) (exec destroy (enter h b))).

Inductive host_reachable : host -> Prop :=
  | host_new : host_reachable new_host
  | host_more h h' : host_reachable h -> host_step h h' -> host_reachable h'.

(** ** What a bridge keeps *)

(** The datagrams of the application a session has got. *)
Definition given (b : CQuicBridge) : list bytes :=
  omap (fun c => match c with
    | COpen d r => if r =? 1 then Some d else None
    | CFeed false d => Some d
    | _ => None
    end) (calls b).

Definition concluded (b : CQuicBridge) : bool := m_handle b || m_rejected b.

(** In the middle of an operation the slot may still be held. *)
Record bridge_pre (t : bool) (b : CQuicBridge) : Prop := {
  bp_bytes : m_bytes b = sum_len id (m_initial b);
  bp_cap : m_bytes b <= 512 * 1024;
  bp_first : no_first b = false;
  bp_slot : m_admissionSlot b = false -> concluded b = true;
  bp_timer : concluded b = false -> m_timer b = t;
  bp_session : m_handle b = true -> m_rejected b = false /\ m_initial b = [] /\ given b = accepted b /\ passed b = [];
  bp_queue : m_handle b = false -> given b = [] /\ accepted b = passed b ++ m_initial b;
  bp_small : concluded b = false -> passed b = [] /\ m_bytes b <= 65536 /\ (length (m_initial b) <= 64)%nat;
  bp_seen : concluded b = false -> m_inspected b = 1 -> m_initial b <> []
}.

Record bridge_ok (t : bool) (b : CQuicBridge) : Prop := {
  bk_pre : bridge_pre t b;
  bk_slot : m_admissionSlot b = negb (concluded b)
}.

(** The counters, when the other bridges are [nb], [na] of them undecided, holding [ny] bytes. *)
Definition counts (ids nb na ny : Z) (w : admission) : Prop :=
  quicIds w = ids /\ quicBridges w = nb + 1 /\ admissions w = na + (if m_admissionSlot (self w) then 1 else 0)
  /\ initialBytes w = ny + m_bytes (self w) /\ initialBytes w <= initialByteLimit.

Lemma given_add b c : given (add_call c b) = given b ++ omap (fun c => match c with
    | COpen d r => if r =? 1 then Some d else None | CFeed false d => Some d | _ => None end) [c].
Proof. unfold given. cbn [calls add_call]. by rewrite omap_app. Qed.

(** Changes of a bridge that keep it well formed. *)
Section Bridge.
Context (t : bool).

Ltac bridge_cases :=
  split; cbn; unfold concluded, given in *; cbn in *; try done; intros; auto; try congruence; rewrite ?orb_true_r in *; try done.

Lemma ok_release b : bridge_pre t b -> concluded b = true -> bridge_ok t (set_slot false b).
Proof. intros [] Hd. split; [bridge_cases|]. unfold concluded in *. cbn. by rewrite Hd. Qed.

Lemma ok_settled b : bridge_pre t b -> m_admissionSlot b = negb (concluded b) -> bridge_ok t b.
Proof. by split. Qed.

Lemma ok_drop_timer b : bridge_ok t b -> concluded b = true -> bridge_ok t (set_timer false b).
Proof. intros [[] Hs] Hd. split; [bridge_cases|done]. Qed.

Lemma ok_free_probe b : bridge_ok t b -> bridge_ok t (set_probe false (add_call CFreeProbe b)).
Proof.
  intros [[] Hs]. split; [|done]. split; unfold concluded in *; cbn -[given] in *; try done; intros;
    change (given (set_probe false (add_call CFreeProbe b))) with (given (add_call CFreeProbe b));
    rewrite ?given_add, ?app_nil_r; auto.
Qed.

Lemma pre_reject b : bridge_pre t b -> m_handle b = false -> bridge_pre t (set_rejected true b).
Proof. intros [] Hh. bridge_cases. Qed.

Lemma pre_compat b v : bridge_pre t b -> bridge_pre t (set_compat v b).
Proof. intros []. bridge_cases. Qed.

Lemma pre_inspect b d v : bridge_pre t b -> m_initial b <> [] -> m_handle b = false ->
  bridge_pre t (set_inspected v (set_probe true (add_call (CInspect d) b))).
Proof.
  intros [] Hi Hh. split; unfold concluded in *; cbn -[given] in *; try done; intros; try congruence;
  change (given (set_inspected v (set_probe true (add_call (CInspect d) b)))) with (given (add_call (CInspect d) b));
    rewrite ?given_add, ?app_nil_r; auto.
Qed.

Lemma pre_push b d : bridge_pre t b -> m_handle b = false ->
  m_bytes b + Z.of_nat (length d) <= 512 * 1024 ->
  (m_rejected b = false -> m_bytes b + Z.of_nat (length d) <= 65536 /\ (length (m_initial b) < 64)%nat) ->
  bridge_pre t (add_accepted d (set_initial (m_initial b ++ [d]) (m_bytes b + Z.of_nat (length d)) b)).
Proof.
  intros [] Hh Hc Hr. split; cbn -[sum_len]; try done.
  - rewrite sum_len_app, bp_bytes0. cbn. lia.
  - intros E. cbn in *. congruence.
  - intros _. destruct (bp_queue0 Hh) as [G E]. split; [done|]. by rewrite E, app_assoc.
  - unfold concluded in *. cbn. rewrite Hh. cbn. intros Hr'. rewrite Hh, Hr' in bp_small0. destruct (bp_small0 eq_refl) as (E & _ & _).
    rewrite length_app. cbn. specialize (Hr Hr'). split_and!; [done|lia..].
  - intros _ _ E. by apply app_nil in E as [_ E].
Qed.

Lemma pre_session b first rest result c : bridge_pre t b -> concluded b = false -> m_initial b = first :: rest -> result =? 1 = true ->
  c = calls b ++ COpen first result :: map (CFeed false) rest ->
  bridge_pre t (mkBridge true (m_probe b) [] (m_compat b) (m_admissionSlot b) (m_started b) 0 (m_inspected b)
    (m_rejected b) (m_timer b) (m_id b) c (accepted b) (passed b) (no_first b)).
Proof.
  intros [] Hd Hi Hr ->. unfold concluded in *. apply orb_false_iff in Hd as [Hh Hj]. rewrite Hh, Hj in *. cbn in bp_small0.
  destruct (bp_small0 eq_refl) as (E & _). destruct (bp_queue0 eq_refl) as [G Q]. split; cbn; try done; try lia.
  intros _. split_and!; [done|done| |done]. unfold given in *. cbn [calls]. rewrite omap_app, G. cbn. rewrite Hr, Q, E, Hi. cbn. f_equal.
  clear. induction rest as [|x l IH]; cbn; [done|]. by f_equal.
Qed.
End Bridge.

Ltac adm := unfold on_self, add_initialBytes, add_admissions, add_quicBridges; wp_step.

(** The counters, when the other bridges are [nb], [na] of them undecided, holding [ny] bytes. *)
Section Steps.
Context (a : answers) (ids nb na ny : Z) (t : bool).
#[local] Abbreviation C := (counts ids nb na ny).
#[local] Abbreviation OK := (fun w : admission => bridge_ok t (self w) /\ C w).
#[local] Abbreviation PRE := (fun w : admission => bridge_pre t (self w) /\ C w).

Lemma counts_self w b : C w -> m_admissionSlot b = m_admissionSlot (self w) -> m_bytes b = m_bytes (self w) ->
  C (mkAdmission (quicIds w) (quicBridges w) (initialBytes w) (admissions w) b).
Proof. intros (? & ? & ? & ? & ?) Hs Hb. unfold counts. cbn. by rewrite Hs, Hb. Qed.

Lemma wp_release_slot w : PRE w -> concluded (self w) = true ->
  wp release_slot (fun _ w' => OK w' /\ concluded (self w') = true) w.
Proof.
  intros [Hp HC] Hd. unfold release_slot. wp_step. wp_step. wp_step.
  - wp_step. adm. adm. cbn. split_and!; [by apply ok_release| |done].
    destruct HC as (C1 & C2 & C3 & C4 & C5). rewrite H in C3. unfold counts. cbn. split_and!; [done..|lia|done|done].
  - split_and!; [|done..]. apply ok_settled; [done|]. by rewrite H, Hd.
Qed.

Lemma wp_drop_timer w : OK w -> concluded (self w) = true ->
  wp (on_self (set_timer false)) (fun _ w' => OK w') w.
Proof. intros [Ho HC] Hd. adm. cbn. split; [by apply ok_drop_timer|by apply counts_self]. Qed.

Lemma wp_free_probe w : OK w -> wp free_probe (fun _ w' => OK w') w.
Proof.
  intros [Ho HC]. unfold free_probe. wp_step. wp_step. wp_step; [|done].
  wp_step. adm. adm. cbn. split; [by apply ok_free_probe|by apply counts_self].
Qed.

Lemma wp_feed_all l : forall Q w,
  Q tt (mkAdmission (quicIds w) (quicBridges w) (initialBytes w) (admissions w)
    (mkBridge (m_handle (self w)) (m_probe (self w)) (m_initial (self w)) (m_compat (self w)) (m_admissionSlot (self w))
      (m_started (self w)) (m_bytes (self w)) (m_inspected (self w)) (m_rejected (self w)) (m_timer (self w)) (m_id (self w))
      (calls (self w) ++ map (CFeed false) l) (accepted (self w)) (passed (self w)) (no_first (self w)))) ->
  wp (feed_all l) Q w.
Proof.
  induction l as [|d l IH]; intros Q w H; cbn [feed_all].
  - wp_step. destruct w as [? ? ? ? []]. cbn in *. by rewrite app_nil_r in H.
  - wp_step. adm. apply IH. cbn. rewrite <- app_assoc. exact H.
Qed.

(** [review] decides, or leaves the bridge to go on. *)
Lemma wp_review w : PRE w -> concluded (self w) = false ->
  wp (review a) (fun _ w' => PRE w' /\ m_handle (self w') = false) w.
Proof.
  intros [Hp HC] Hd. assert (Hh : m_handle (self w) = false) by (unfold concluded in Hd; by apply orb_false_iff in Hd as [? _]).
  assert (R : wp (on_self (set_rejected true)) (fun _ w' => PRE w' /\ m_handle (self w') = false) w).
  { adm. cbn. split_and!; [by apply pre_reject|by apply counts_self|done]. }
  unfold review, waited. do 6 wp_step. wp_step; [exact R|]. wp_step; [|by wp_step]. wp_step; [exact R|]. wp_step; [|done].
  adm. cbn. split_and!; [by apply pre_compat|by apply counts_self|done].
Qed.

Lemma wp_start_session w : PRE w -> concluded (self w) = false -> m_inspected (self w) = 1 ->
  wp (start_session a) (fun _ w' => PRE w' /\ concluded (self w') = true) w.
Proof.
  intros [Hp HC] Hd Hi. pose proof (bp_seen t _ Hp Hd Hi) as Hne. unfold start_session. wp_step. wp_step.
  destruct (m_initial (self w)) as [|first rest] eqn:E; [done|]. wp_step. adm. wp_step.
  - wp_step. adm. wp_step. apply wp_feed_all. cbn. wp_step. adm. adm. cbn. split_and!.
    + apply (pre_session t (self w) first rest (an_open a)); try done. by rewrite <- app_assoc.
    + destruct HC as (C1 & C2 & C3 & C4 & C5). pose proof (bp_bytes t _ Hp) as Hb. pose proof (sum_len_nonneg id (m_initial (self w))).
      unfold counts. cbn. split_and!; [done..|lia|lia].
    + done.
  - adm. cbn. split_and!.
    + assert (Hh : m_handle (self w) = false) by (unfold concluded in Hd; by apply orb_false_iff in Hd as [? _]).
      destruct Hp. split; unfold concluded in *; cbn -[given] in *; try done; intros; try congruence; rewrite ?orb_true_r in *; try done.
      change (given _) with (given (add_call (COpen first (an_open a)) (self w))). rewrite given_add. cbn. rewrite H, app_nil_r. auto.
    + by apply counts_self.
    + unfold concluded. cbn. by rewrite orb_true_r.
Qed.

Lemma wp_TryOpen w : PRE w -> (m_handle (self w) = true -> OK w) -> wp (TryOpen a) (fun _ w' => OK w') w.
Proof.
  intros Hw Hh. unfold TryOpen. wp_step. wp_step. wp_step; [by wp_step; apply Hh|]. wp_step.
  - wp_step. eapply wp_mono; [apply (wp_release_slot w Hw); unfold concluded; by rewrite H0, orb_true_r|].
    intros ? w1 [H1 Hd]. by apply wp_drop_timer.
  - wp_step. eapply wp_mono; [apply (wp_review w Hw); unfold concluded; by rewrite H, H0|].
    intros ? w1 [H1 Hn]. wp_step. wp_step. wp_step.
    apply (wp_mono _ (fun _ w2 => PRE w2 /\ (concluded (self w2) = false \/ concluded (self w2) = true)) _ w1).
    + wp_step; [|by split; [done|destruct (concluded (self w1)); auto]].
      apply andb_true_iff in H2 as [H2 Hi]. apply andb_true_iff in H2 as [Hr _]. apply negb_true_iff in Hr. apply Z.eqb_eq in Hi.
      eapply wp_mono; [apply wp_start_session; [done|unfold concluded; by rewrite Hn, Hr|done]|]. intros ? w2 [? ?]. auto.
    + intros ? w2 [H3 _]. wp_step. wp_step. wp_step.
      * wp_step. eapply wp_mono; [by apply wp_release_slot|]. intros ? w3 [H4 Hd]. wp_step.
        eapply wp_mono; [by apply wp_drop_timer|]. intros ? w4 H5. by apply wp_free_probe.
      * destruct H3 as [Hp HC]. split; [|done]. apply ok_settled; [done|].
        destruct (m_admissionSlot (self w2)) eqn:Es; [match goal with E : _ || _ = false |- _ => unfold concluded; by rewrite E end|]. by rewrite (bp_slot t _ Hp Es).
Qed.

Lemma ok_feed_session b side d : bridge_ok t b -> m_handle b = true ->
  bridge_ok t (if side : bool then add_call (CFeed side d) b else add_accepted d (add_call (CFeed side d) b)).
Proof.
  intros [[] Hs] Hh. destruct (bp_session0 Hh) as (E1 & E2 & E3 & E4).
  destruct side; (split; [|done]); split; unfold concluded in *; cbn -[given] in *; try done; intros; try congruence.
  - split_and!; try done. rewrite given_add. cbn. by rewrite app_nil_r.
  - split_and!; try done. change (given (add_accepted d (add_call (CFeed false d) b))) with (given (add_call (CFeed false d) b)).
    rewrite given_add. cbn. by rewrite E3.
Qed.

(** A refusal: [m_rejected] is set, and [TryOpen] gives up the slot. *)
Lemma wp_refuse w : PRE w -> m_handle (self w) = false ->
  wp (on_self (set_rejected true) ≫= fun _ => TryOpen a ≫= fun _ => mret false) (fun _ w' => OK w') w.
Proof.
  intros [Hp HC] Hh. wp_step. adm. wp_step. eapply wp_mono; [apply wp_TryOpen|].
  - split; [by apply pre_reject|by apply counts_self].
  - cbn. congruence.
  - intros ? w' H. by wp_step.
Qed.

Lemma wp_Feed side data w : OK w -> wp (Feed a side data) (fun _ w' => OK w') w.
Proof.
  intros [Ho HC]. unfold Feed. wp_step. wp_step. wp_step.
  - pose proof (ok_feed_session (self w) side data Ho H) as Hf. wp_step. adm. wp_step. wp_step.
    + adm. wp_step. destruct side; [done|]. by split; [|apply counts_self].
    + wp_step. destruct side; [|done]. by split; [|apply counts_self].
  - wp_step; [by wp_step|]. wp_step.
    apply (wp_mono _ (fun _ w1 => PRE w1 /\ m_handle (self w1) = false /\ m_initial (self w1) = m_initial (self w) /\
      m_bytes (self w1) = m_bytes (self w) /\ (m_rejected (self w1) = false -> ~ (65536 < m_bytes (self w) + Z.of_nat (length data)) /\
        ~ (64 <= length (m_initial (self w)))%nat)) _ w).
    + wp_step.
      * adm. cbn. split_and!; [by apply (pre_reject t _ (bk_pre t _ Ho))|by apply counts_self|done..].
      * bool_hyps. split_and!; [apply Ho|done..|]. intros _. lia.
    + intros ? w1 ((Hp1 & HC1) & Hn & Ei & Eb & Hr). wp_step. wp_step. wp_step; [by apply wp_refuse|].
      apply orb_false_iff in H1 as [L1 L2]. apply Z.ltb_ge in L1, L2. pose proof HC1 as (C1 & C2 & C3 & C4 & C5).
      wp_step. adm. wp_step.
      * wp_step. adm. apply wp_refuse; [|done]. cbn. split; [done|]. unfold counts. cbn. split_and!; [done..|lia|lia].
      * rewrite <- Ei, <- Eb in *. wp_step. adm. wp_step. adm. wp_step. wp_step. wp_step.
        cbn [self quicIds quicBridges initialBytes admissions]. set (b1 := add_accepted _ _).
        assert (Hb1 : bridge_pre t b1).
        { apply pre_push; [done|done|lia|]. intros Hj. specialize (Hr Hj). lia. }
        apply (wp_mono _ (fun _ w2 => PRE w2 /\ m_handle (self w2) = false)).
        -- assert (C (mkAdmission (quicIds w1) (quicBridges w1) (initialBytes w1 + Z.of_nat (length data)) (admissions w1) b1)).
           { unfold counts. cbn. split_and!; [done..|lia|lia]. }
           wp_step; [|done]. wp_step. adm. wp_step. adm. adm. cbn. split_and!; [|by apply (counts_self _ _ H2)|done].
           apply pre_inspect; [done| |done]. cbn. by destruct (m_initial (self w1)).
        -- intros ? w2 [H2 Hn2]. wp_step. eapply wp_mono; [apply wp_TryOpen; [done|congruence]|]. intros ? w3 H3. by wp_step.
Qed.

Lemma ok_consume b first rest : bridge_ok t b -> m_handle b = false -> m_rejected b = true -> m_initial b = first :: rest ->
  bridge_ok t (add_passed first (set_initial rest (m_bytes b - Z.of_nat (length first)) b)).
Proof.
  intros [[] Hs] Hh Hj Hi. rewrite Hi in *. cbn in bp_bytes0.
  split; [|done]. split; unfold concluded in *; cbn -[given] in *; try done; rewrite ?Hh, ?Hj in *; try congruence; try lia.
  intros _. destruct (bp_queue0 eq_refl) as [G E]. split; [done|]. by rewrite E, <- app_assoc.
Qed.

Lemma wp_Consume side waiting n w : OK w -> Peek waiting side n (self w) <> [] -> wp (Consume side) (fun _ w' => OK w') w.
Proof.
  intros [Ho HC] Hpk. unfold Consume, Peek in *. wp_step. wp_step. wp_step.
  - adm. cbn. split; [|by apply counts_self]. destruct Ho as [[] Hs]. split; [|done].
    split; unfold concluded in *; cbn -[given] in *; try done; intros; try congruence.
    + rewrite given_add, app_nil_r. auto.
  - rewrite H in Hpk. destruct (m_initial (self w)) as [|first rest] eqn:E; [done|].
    destruct (m_rejected (self w)) eqn:Hj; [|done]. destruct side; [|done]. wp_step; [|done].
    wp_step. adm. wp_step. adm. adm. cbn. split; [by apply ok_consume|].
    destruct HC as (C1 & C2 & C3 & C4 & C5). unfold counts. cbn. split_and!; [done..|lia|lia].
Qed.

Lemma wp_destroy w : OK w ->
  wp destroy (fun _ w' => quicIds w' = ids /\ quicBridges w' = nb /\ admissions w' = na /\ initialBytes w' = ny) w.
Proof.
  intros [Ho (C1 & C2 & C3 & C4 & C5)]. unfold destroy, free_probe. wp_step. wp_step. wp_step. adm. wp_step. adm. wp_step.
  apply (wp_mono _ (fun _ w' => quicIds w' = ids /\ quicBridges w' = nb /\ admissions w' = na /\ initialBytes w' = ny)).
  - wp_step; [adm|]; rewrite H in C3; cbn; split_and!; try done; lia.
  - intros ? w1 H1. wp_step. apply (wp_mono _ (fun _ w' => quicIds w' = ids /\ quicBridges w' = nb /\ admissions w' = na /\ initialBytes w' = ny)).
    + wp_step; [by adm|done].
    + intros ? w2 H2. wp_step. wp_step. wp_step; [|done]. wp_step. adm. by adm.
Qed.
End Steps.

(** ** Opening *)

Lemma ok_new_bridge compat started id : bridge_ok false
  (mkBridge false false [] compat true started 0 0 false false id [] [] [] false).
Proof. split; [|done]. split; cbn; try done; try lia. intros _. split_and!; [done|lia|lia]. Qed.

Lemma ok_start_timer t b : bridge_ok t b -> bridge_ok true (set_timer true b).
Proof. intros [[] Hs]. by split. Qed.

Lemma ok_timer_decided t t' b : bridge_ok t b -> concluded b = true -> bridge_ok t' b.
Proof. intros [[] Hs] Hd. split; [|done]. split; try done. congruence. Qed.

Lemma wp_open_bridge a first ids nb na ny w : quicIds w = ids -> quicBridges w = nb -> admissions w = na -> initialBytes w = ny ->
  ny <= initialByteLimit ->
  wp (open_bridge a first) (fun kept w' =>
    if kept : bool then bridge_ok true (self w') /\ counts (ids + 1) nb na ny w'
    else quicBridges w' = nb /\ admissions w' = na /\ initialBytes w' = ny) w.
Proof.
  intros H1 H2 H3 H4 H5. unfold open_bridge. wp_step. wp_step. wp_step.
  - wp_step. eapply wp_mono; [apply (wp_destroy ids nb na ny false)|].
    + cbn. split; [by apply ok_new_bridge|]. unfold counts. cbn. split_and!; try done; lia.
    + intros ? w1 (? & ? & ? & ?). by wp_step.
  - wp_step. wp_step. wp_step. eapply wp_mono; [apply (wp_Feed a (ids + 1) nb na ny false)|].
    + cbn. split; [by apply ok_new_bridge|]. unfold counts. cbn. split_and!; try done; lia.
    + assert (D : forall w1, bridge_ok false (self w1) /\ counts (ids + 1) nb na ny w1 ->
        wp (destroy ≫= fun _ => mret false) (fun (kept : bool) w' => if kept then bridge_ok true (self w') /\ counts (ids + 1) nb na ny w'
          else quicBridges w' = nb /\ admissions w' = na /\ initialBytes w' = ny) w1).
      { intros w1 Hw. wp_step. eapply wp_mono; [by apply (wp_destroy (ids + 1) nb na ny false)|]. intros ? w2 (? & ? & ? & ?). by wp_step. }
      intros ? w1 Hw. wp_step. wp_step. wp_step; [by apply D|]. destruct Hw as [Ho HC]. wp_step.
      * wp_step. split; [|done]. apply (ok_timer_decided false true _ Ho). unfold concluded. match goal with E : m_handle _ = true |- _ => by rewrite E end.
      * wp_step; [|by apply D]. wp_step. adm. wp_step. split.
        -- by apply (ok_start_timer false).
        -- exact (counts_self _ _ _ _ _ _ HC eq_refl eq_refl).
Qed.

(** ** All bridges together *)

Definition mapsum (f : CQuicBridge -> Z) (m : gmap nat CQuicBridge) : Z := map_fold (fun _ b n => f b + n) 0 m.
Definition slot_held (b : CQuicBridge) : Z := if m_admissionSlot b then 1 else 0.

Lemma mapsum_delete f k b m : m !! k = Some b -> mapsum f m = f b + mapsum f (delete k m).
Proof. intros H. unfold mapsum. apply (map_fold_delete_L (fun (_ : nat) b n => f b + n)); [intros; lia|done]. Qed.
Lemma mapsum_insert f k b m : mapsum f (<[k := b]> m) = f b + mapsum f (delete k m).
Proof. rewrite (mapsum_delete f k b) by apply lookup_insert_eq. by rewrite delete_insert_eq. Qed.
Lemma mapsum_size m : Z.of_nat (size m) = mapsum (fun _ => 1) m.
Proof.
  unfold mapsum. induction m as [|k b m Hk IH] using map_ind; [done|].
  rewrite map_size_insert_None, map_fold_insert_L by (done || (intros; lia)). lia.
Qed.

(** The counters are the sums over the bridges there are, and every bridge is in order. *)
Record host_ok (h : host) : Prop := {
  ho_count : h_count h = mapsum (fun _ => 1) (bridges h);
  ho_admissions : h_admissions h = mapsum slot_held (bridges h);
  ho_bytes : h_bytes h = mapsum m_bytes (bridges h);
  ho_limits : h_count h <= 256 /\ h_admissions h <= 128 /\ h_bytes h <= initialByteLimit;
  ho_bridges : map_Forall (fun _ b => bridge_ok true b) (bridges h)
}.

Lemma enter_counts h k b : host_ok h -> bridges h !! k = Some b ->
  bridge_ok true b /\ counts (h_ids h) (mapsum (fun _ => 1) (delete k (bridges h)))
    (mapsum slot_held (delete k (bridges h))) (mapsum m_bytes (delete k (bridges h))) (enter h b).
Proof.
  intros [] Hk. split; [by apply (ho_bridges0 k)|]. unfold counts, enter. cbn.
  rewrite ho_count0, ho_admissions0, ho_bytes0 in *.
  rewrite (mapsum_delete (fun _ => 1) _ _ _ Hk), (mapsum_delete slot_held _ _ _ Hk), (mapsum_delete m_bytes _ _ _ Hk) in *.
  unfold slot_held in *. split_and!; [done|lia..].
Qed.

Lemma slot_range b : 0 <= slot_held b <= 1.
Proof. unfold slot_held. destruct (m_admissionSlot b); lia. Qed.

Lemma run_on_ok {A} (m : AM A) h k b : host_ok h -> bridges h !! k = Some b ->
  keeps (fun w => concluded (self w) = true) m ->
  (forall ids nb na ny w, bridge_ok true (self w) /\ counts ids nb na ny w -> self w = b ->
     wp m (fun _ w' => bridge_ok true (self w') /\ counts ids nb na ny w') w) ->
  host_ok (run_on m k b h).
Proof.
  intros Hh Hk Hd Hm. destruct (enter_counts h k b Hh Hk) as [Hb Hc].
  destruct (proj1 (wp_exec m (fun w' => bridge_ok true (self w') /\ counts (h_ids h) (mapsum (fun _ => 1) (delete k (bridges h)))
    (mapsum slot_held (delete k (bridges h))) (mapsum m_bytes (delete k (bridges h))) w') (enter h b)) (Hm _ _ _ _ (enter h b) (conj Hb Hc) eq_refl)) as [Ho (C1 & C2 & C3 & C4 & C5)].
  assert (Hs : m_admissionSlot b = false -> m_admissionSlot (self (exec m (enter h b))) = false).
  { rewrite (bk_slot true b Hb), (bk_slot true _ Ho), !negb_false_iff. exact (Hd (enter h b)). }
  unfold run_on. set (w' := exec m (enter h b)) in *. destruct Hh as [E1 E2 E3 (L1 & L2 & L3) Hf].
  rewrite (mapsum_delete _ _ _ _ Hk) in E1. rewrite (mapsum_delete slot_held _ _ _ Hk) in E2. unfold slot_held in E2 at 1.
  split; cbn [h_count h_admissions h_bytes bridges leave].
  - rewrite mapsum_insert. lia.
  - rewrite mapsum_insert. unfold slot_held at 1. lia.
  - rewrite mapsum_insert. lia.
  - split_and!; [lia| |done]. rewrite C3. destruct (m_admissionSlot b) eqn:Eb, (m_admissionSlot (self w')) eqn:Ew; try lia.
  - by apply map_Forall_insert_2.
Qed.

(** What was concluded stays concluded. *)
Lemma keeps_on_self f : (forall b, concluded b = true -> concluded (f b) = true) ->
  keeps (fun w => concluded (self w) = true) (on_self f).
Proof. intros Hf. apply keeps_modify. intros w. apply Hf. Qed.

Ltac settled :=
  repeat match goal with
  | |- keeps _ (on_self _) => apply keeps_on_self; intros b0; unfold concluded; cbn; try (by rewrite ?orb_true_r); done
  | |- keeps _ (add_initialBytes _) => by apply keeps_modify
  | |- keeps _ (add_admissions _) => by apply keeps_modify
  | |- keeps _ (match ?x with _ => _ end) => destruct x
  | |- _ => keeps_step
  end.

Lemma keeps_TryOpen a : keeps (fun w => concluded (self w) = true) (TryOpen a).
Proof.
  unfold TryOpen, release_slot, review, waited, start_session, free_probe.
  assert (forall l, keeps (fun w => concluded (self w) = true) (feed_all l)) by (induction l; cbn [feed_all]; settled; done).
  settled; done.
Qed.

Lemma keeps_Feed a side data : keeps (fun w => concluded (self w) = true) (Feed a side data).
Proof. unfold Feed. settled; apply keeps_TryOpen. Qed.

Lemma keeps_Consume side : keeps (fun w => concluded (self w) = true) (Consume side).
Proof. unfold Consume. settled. Qed.

Lemma ok_new_host : host_ok new_host.
Proof. by split. Qed.

Lemma wp_wake a ids nb na ny w : bridge_ok true (self w) /\ counts ids nb na ny w ->
  wp (on_wake a) (fun _ w' => bridge_ok true (self w') /\ counts ids nb na ny w') w.
Proof.
  intros [Ho HC]. apply wp_TryOpen; [split; [apply Ho|done]|done].
Qed.

Lemma host_ok_step h h' : host_ok h -> host_step h h' -> host_ok h'.
Proof.
  intros Hh Hs. destruct Hs as [a k first kept w Hk Ha E|a k b side data Hk|a k b Hk|k b side waiting n Hk Hp|k b Hk].
  - destruct Hh as [E1 E2 E3 (L1 & L2 & L3) Hf].
    assert (Hw : wp (open_bridge a first) (fun kept w' =>
      if kept : bool then bridge_ok true (self w') /\ counts (h_ids h + 1) (h_count h) (h_admissions h) (h_bytes h) w'
      else quicBridges w' = h_count h /\ admissions w' = h_admissions h /\ initialBytes w' = h_bytes h)
      (enter h (new_bridge a 0 0))) by by apply wp_open_bridge.
    unfold wp in Hw. rewrite E in Hw. unfold may_open in Ha. bool_hyps. cbn in *.
    destruct kept.
    + destruct Hw as [Ho (C1 & C2 & C3 & C4 & C5)]. rewrite <- (delete_id _ _ Hk) in E1, E2, E3.
      split; cbn [h_count h_admissions h_bytes bridges leave]; rewrite ?mapsum_insert.
      * lia.
      * unfold slot_held at 1. lia.
      * lia.
      * split_and!; [lia| |done]. destruct (m_admissionSlot (self w)); lia.
      * by apply map_Forall_insert_2.
    + destruct Hw as (C2 & C3 & C4). split; cbn; [congruence..| |done]. rewrite C2, C3, C4. lia.
  - apply run_on_ok; [done..|apply keeps_Feed|]. intros. by apply wp_Feed.
  - apply run_on_ok; [done..|apply keeps_TryOpen|]. intros. by apply wp_wake.
  - apply run_on_ok; [done..|apply keeps_Consume|]. intros ids nb na ny w Hw E. eapply wp_Consume; [done|]. rewrite E. exact Hp.
  - destruct (enter_counts h k b Hh Hk) as [Hb Hc].
    destruct (proj1 (wp_exec destroy (fun w' => quicIds w' = h_ids h /\ quicBridges w' = mapsum (fun _ => 1) (delete k (bridges h)) /\
      admissions w' = mapsum slot_held (delete k (bridges h)) /\ initialBytes w' = mapsum m_bytes (delete k (bridges h))) (enter h b))
      (wp_destroy _ _ _ _ true (enter h b) (conj Hb Hc))) as (_ & C2 & C3 & C4).
    destruct Hh as [E1 E2 E3 (L1 & L2 & L3) Hf].
    rewrite (mapsum_delete _ _ _ _ Hk) in E1. rewrite (mapsum_delete slot_held _ _ _ Hk) in E2. rewrite (mapsum_delete m_bytes _ _ _ Hk) in E3.
    pose proof (slot_range b). pose proof (bp_bytes _ _ (bk_pre _ _ Hb)). pose proof (sum_len_nonneg id (m_initial b)).
    split; cbn [h_count h_admissions h_bytes bridges leave]; [done..|split_and!; lia|by apply map_Forall_delete].
Qed.

(** Whatever the connections do: the counters are the sums over the bridges
    there are and stay within their limits. *)
Lemma host_reachable_ok h : host_reachable h -> host_ok h.
Proof. induction 1; [apply ok_new_host|by eapply host_ok_step]. Qed.

(** At most 256 bridges, 128 of them undecided, and 8 MiB held by all of them. *)
Theorem quic_within_limits h : host_reachable h ->
  Z.of_nat (size (bridges h)) <= 256
  /\ mapsum (fun b => if concluded b then 0 else 1) (bridges h) <= 128
  /\ mapsum (fun b => sum_len id (m_initial b)) (bridges h) <= initialByteLimit.
Proof.
  intros Hr. destruct (host_reachable_ok h Hr) as [E1 E2 E3 (L1 & L2 & L3) Hf].
  assert (forall f g, (forall k b, bridges h !! k = Some b -> f b = g b) -> mapsum f (bridges h) = mapsum g (bridges h)) as Hext.
  { intros f g. generalize (bridges h). intros m. induction m as [|k b m Hk IH] using map_ind; intros Hfg; [done|].
    rewrite !mapsum_insert, !(delete_id m k) by done. rewrite (Hfg k b) by apply lookup_insert_eq. f_equal. apply IH.
    intros k' b' Hk'. apply (Hfg k'). rewrite lookup_insert_ne by congruence. done. }
  rewrite mapsum_size, (Hext (fun b => if concluded b then 0 else 1) slot_held), (Hext (fun b => sum_len id (m_initial b)) m_bytes); [lia|..].
  - intros k b Hk. symmetry. apply (bp_bytes true), (bk_pre true), (Hf k b Hk).
  - intros k b Hk. unfold slot_held. rewrite (bk_slot true b (Hf k b Hk)). by destruct (concluded b).
Qed.

(** No datagram the bridge took is lost, doubled or moved: a session gets them
    all in order, or they are passed on in order, and never some of each. *)
Theorem quic_datagrams_kept h k b : host_reachable h -> bridges h !! k = Some b ->
  (m_handle b = true -> given b = accepted b /\ passed b = [])
  /\ (m_handle b = false -> given b = [] /\ accepted b = passed b ++ m_initial b)
  /\ (concluded b = false -> passed b = [] /\ m_timer b = true)
  /\ no_first b = false.
Proof.
  intros Hr Hk. destruct (host_reachable_ok h Hr) as [_ _ _ _ Hf]. destruct (bk_pre true b (Hf k b Hk)) as [_ _ Hn _ Ht Hs Hq Hp _].
  split_and!; [|done|..|done].
  - intros Hh. by destruct (Hs Hh) as (_ & _ & ? & ?).
  - intros Hd. split; [by destruct (Hp Hd)|by apply Ht].
Qed.

(** An empty datagram that came before the bridge was rejected: [Peek] answers
    nothing for it, so what is behind it waits. *)
Example empty_datagram_waits data n b : m_handle b = false -> m_initial b = [] :: data -> Peek [] true n b = [].
Proof. intros H1 H2. unfold Peek. rewrite H1, H2. by destruct (_ && _). Qed.
