(* ===== verification/PipeRecords.v ===== *)
(** * The records of the pipe protocol as bytes (structinfo.h)

    Hooked processes and the pipe server exchange C structs, packed without
    padding, so that 32-bit and 64-bit programs agree.  A [codec] is the layout
    of one: its size, the memory of a value, the value of a memory.  The layouts
    are composed field by field, and the law that reading back what was written
    gives the value composes with them. *)

From S2P Require Import Prelude Winsock SockAddr ProcessIdentity ReceptionCentre AppLauncher.

#[local] Obligation Tactic := intros; cbv beta in *.

Record codec (A : Type) := mkCodec {
  csize : nat;
  enc : A -> bytes;
  dec : bytes -> A;
  fits : A -> Prop;
  enc_length : forall a, fits a -> length (enc a) = csize;
  dec_enc : forall a, fits a -> dec (enc a) = a
}.
Arguments csize {A} c.
Arguments enc {A} c a.
Arguments dec {A} c l.
Arguments fits {A} c a.
Arguments enc_length {A} c a.
Arguments dec_enc {A} c a.

(** ** Fields *)

(** An unsigned integer of [n] bytes. *)
Program Definition cuint (n : nat) : codec Z := {|
  csize := n; enc := le_split n; dec := fun l => le_join (take n l);
  fits := fun z => 0 <= z < 256 ^ Z.of_nat n |}.
Next Obligation. apply length_le_split. Qed.
Next Obligation.
  rewrite take_ge by (rewrite length_le_split; lia). rewrite le_join_split. by apply Z.mod_small.
Qed.

(** An INT. *)
Program Definition cint : codec Z := {|
  csize := 4; enc := fun z => le_split 4 z; dec := fun l => s32 (le_join (take 4 l));
  fits := fun z => -2147483648 <= z < 2147483648 |}.
Next Obligation. apply length_le_split. Qed.
Next Obligation.
  rewrite take_ge by (rewrite length_le_split; lia). rewrite le_join_split. unfold s32, u32. change (256 ^ Z.of_nat 4) with 4294967296.
  rewrite Zmod_mod. destruct (Z.ltb_spec (a mod 4294967296) 2147483648); Z.to_euclidean_division_equations; lia.
Qed.

(** A BOOL: anything but 0 is true. *)
Program Definition cbool : codec bool := {|
  csize := 4; enc := fun b => le_split 4 (if b then 1 else 0);
  dec := fun l => negb (le_join (take 4 l) =? 0); fits := fun _ => True |}.
Next Obligation. apply length_le_split. Qed.
Next Obligation. by destruct a. Qed.

(** [n] bytes. *)
Program Definition craw (n : nat) : codec bytes := {|
  csize := n; enc := fun l => l; dec := fun l => take n l; fits := fun l => length l = n |}.
Next Obligation. done. Qed.
Next Obligation. apply take_ge. lia. Qed.

(** A [char] array of [n] kept as its C string; the rest is zero when written. *)
Program Definition cchars (n : nat) : codec bytes := {|
  csize := n; enc := fun s => s ++ replicate (n - length s) 0;
  dec := fun l => cstr (take n l); fits := fun s => no_nul s /\ (length s < n)%nat |}.
Next Obligation. destruct H as [_ Hl]. rewrite length_app, length_replicate. lia. Qed.
Next Obligation.
  destruct H as [Hn Hl]. rewrite take_ge by (rewrite length_app, length_replicate; lia).
  destruct (n - length a)%nat as [|k] eqn:E; [lia|]. simpl. by apply cstr_app_nul.
Qed.

(** A WCHAR array of [n]: all its units, or its C string. *)
Program Definition cwunits (n : nat) : codec (list Z) := {|
  csize := 2 * n; enc := wbytes; dec := fun l => wchars (take (2 * n) l);
  fits := fun u => length u = n /\ Forall (fun c => 0 <= c < 65536) u |}.
Next Obligation. destruct H as [Hl _]. pose proof (length_wbytes a). lia. Qed.
Next Obligation.
  destruct H as [Hl Hu]. pose proof (length_wbytes a). rewrite take_ge by lia. by apply wchars_wbytes.
Qed.

(** ** Composition *)

Program Definition cpair {A B} (ca : codec A) (cb : codec B) : codec (A * B) := {|
  csize := csize ca + csize cb;
  enc := fun p => enc ca p.1 ++ enc cb p.2;
  dec := fun l => (dec ca (take (csize ca) l), dec cb (drop (csize ca) l));
  fits := fun p => fits ca p.1 /\ fits cb p.2 |}.
Next Obligation. destruct a as [a b], H as [Ha Hb]. by rewrite length_app, !enc_length. Qed.
Next Obligation.
  destruct a as [a b], H as [Ha Hb]. cbn [fst snd] in *. rewrite <- (enc_length ca a Ha), take_app_length, drop_app_length.
  by rewrite !dec_enc.
Qed.

(** A struct whose fields are the tuple [g a]. *)
Program Definition cstruct {A B} (c : codec A) (f : A -> B) (g : B -> A)
    (H : forall b, f (g b) = b) : codec B := {|
  csize := csize c; enc := fun b => enc c (g b); dec := fun l => f (dec c l);
  fits := fun b => fits c (g b) |}.
Next Obligation. by apply enc_length. Qed.
Next Obligation. by rewrite dec_enc. Qed.

Declare Scope codec_scope.
#[global] Open Scope codec_scope.
Infix "⊗" := cpair (at level 60, right associativity) : codec_scope.

Program Definition cwchars (n : nat) : codec (list Z) := {|
  csize := 2 * n; enc := fun s => wbytes (s ++ replicate (n - length s) 0);
  dec := fun l => cstr (wchars (take (2 * n) l));
  fits := fun s => Forall (fun c => 0 < c < 65536) s /\ (length s < n)%nat |}.
Next Obligation.
  destruct H as [_ Hl]. pose proof (length_wbytes (a ++ replicate (n - length a) 0)) as H.
  rewrite length_app, length_replicate in H. lia.
Qed.
Next Obligation.
  destruct H as [Hs Hl]. pose proof (length_wbytes (a ++ replicate (n - length a) 0)) as H.
  rewrite length_app, length_replicate in H. rewrite take_ge by lia.
  rewrite wchars_wbytes.
  - destruct (n - length a)%nat as [|k] eqn:E; [lia|]. simpl. apply cstr_app_nul.
    eapply Forall_impl; [exact Hs|]. simpl. lia.
  - apply Forall_app. split; [eapply Forall_impl; [exact Hs|]; simpl; lia|].
    apply Forall_replicate. lia.
Qed.

(** ** The header *)

(** [PRCPipeDataHead] *)
Record PipeHead := mkHead { action : Z; flag : Z; dataSize : Z }.

Definition head_codec : codec PipeHead :=
  cstruct (cuint 1 ⊗ cuint 1 ⊗ cuint 4)
    (fun '(a, (f, d)) => mkHead a f d) (fun h => (action h, (flag h, dataSize h)))
    ltac:(by intros []).

Definition PRCPD_REPLY : Z := 0.
Definition PRCPD_GETSTARTUPINFO : Z := 1.
Definition PRCPD_REGISTERCLIENT : Z := 2.
Definition PRCPD_CANPROXYME : Z := 3.
Definition PRCPD_UNREGISTER_CLIENT : Z := 4.
Definition PRCPD_GET_SETTINGS_INFO : Z := 5.
Definition PRCPD_SHOULD_INJECT_NEW_PROCESS : Z := 6.
Definition PRCPD_GET_CLIENT_UDPPORT_STATE : Z := 7.
Definition PRCPD_GET_PROXYINFO : Z := 8.
Definition PRCPD_HOOKWSOCK_RESULT : Z := 9.
Definition PRCPD_Logtext : Z := 10.
Definition PRCPD_CHILD_INJECTION_RESULT : Z := 11.
Definition PRCPD_REGISTER_PROCESS_IDENTITY : Z := 12.
Definition PRCPD_CHILD_RELEASED : Z := 13.
Definition PRCPD_BLOCKED_IPV6 : Z := 14.
Definition PRCPD_QUIC_STATUS : Z := 17.
Definition PRCPD_BLOCKED_UDP : Z := 18.
Definition PRCPD_LAUNCH_PACKAGED_APP : Z := 19.

(** ** Addresses, clients, settings *)

Definition sockaddr_codec : codec _SockAddr :=
  cstruct (cuint 2 ⊗ cuint 2 ⊗ craw 24)
    (fun '(f, (p, d)) => mkSockAddr f p d) (fun a => (sa_family a, (sa_port a, sa_data a)))
    ltac:(by intros []).

(** A [PRCClient] with the fields only the pipe carries. *)
Record ClientMessage := mkClientMessage {
  cm_client : PRCClient; dwTid : Z; sAccept : Z; cm_reserved : Z
}.

Definition client_codec : codec ClientMessage :=
  cstruct
    (cuint 4 ⊗ cuint 4 ⊗ cuint 8 ⊗ cuint 8 ⊗ cint ⊗ cuint 8 ⊗ cuint 8 ⊗ cchars 256
     ⊗ sockaddr_codec ⊗ sockaddr_codec ⊗ sockaddr_codec ⊗ cuint 4 ⊗ cuint 4 ⊗ sockaddr_codec ⊗ cuint 4)
    (fun '(pid, (tid, (time, (gen, (ty, (s, (acc, (name, (src, (dst, (pdst, (fl, (ua, (udp, res)))))))))))))) =>
       mkClientMessage (mkPRCClient pid time gen ty s name src dst pdst fl ua udp) tid acc res)
    (fun m => let c := cm_client m in
       (dwPid c, (dwTid m, (processCreateTime c, (socketGeneration c, (sType c, (c_s c, (sAccept m,
        (szDomainName c, (srcAddr c, (dstAddr c, (proxyDstAddr c, (routingFlags c, (uaFlag c,
        (udpAddr c, cm_reserved m)))))))))))))))
    ltac:(by intros [[] ? ? ?]).

Definition proxyinfo_codec : codec ProxyInfo :=
  cstruct
    (cchars 128 ⊗ cchars 32 ⊗ cchars 128 ⊗ cint ⊗ cchars 128 ⊗ cchars 128 ⊗ cuint 4 ⊗ cchars 256)
    (fun '(n, (t, (h, (p, (u, (w, (r, k))))))) => mkProxyInfo n t h p u w r k)
    (fun p => (szItemName p, (strProxyType p, (strProxyHost p, (nProxyPort p, (strProxyUser p,
               (strProxyPass p, (pi_reserved p, strTransportPsk p))))))))
    ltac:(by intros []).

Definition settings_codec : codec ProxySettingsInfo :=
  cstruct
    (cbool ⊗ cbool ⊗ cint ⊗ cbool ⊗ cbool ⊗ cbool ⊗ cbool ⊗ cbool ⊗ cbool ⊗ cbool ⊗ sockaddr_codec)
    (fun '(a, (b, (c, (d, (e, (f, (g, (h, (i, (j, k)))))))))) => mkProxySettingsInfo a b c d e f g h i j k)
    (fun s => (bHookTCP s, (bHookUDP s, (nDNSOption s, (bHookCreateProcess s, (bHookLanIP s,
               (bDisableLLMNR s, (bDisableMDNS s, (bBlockUDP s, (bBlockIPv6 s,
               (bRedirectPrivateDNS s, redirectDNSAddr s)))))))))))
    ltac:(by intros []).

Record PRCINFO := mkPRCINFO {
  tcpaddr : _SockAddr; tcpaddr6 : _SockAddr; udpaddr : _SockAddr;
  childGuardName : list Z; childGuardGenerationTime : Z
}.

Definition prcinfo_codec : codec PRCINFO :=
  cstruct (sockaddr_codec ⊗ sockaddr_codec ⊗ sockaddr_codec ⊗ cwchars 64 ⊗ cuint 8)
    (fun '(a, (b, (c, (n, t)))) => mkPRCINFO a b c n t)
    (fun i => (tcpaddr i, (tcpaddr6 i, (udpaddr i, (childGuardName i, childGuardGenerationTime i)))))
    ltac:(by intros []).

Record PRCClientInfo := mkPRCClientInfo { ci_pid : Z; ci_tid : Z; protype : Z }.
Definition clientinfo_codec : codec PRCClientInfo :=
  cstruct (cuint 4 ⊗ cuint 4 ⊗ cint)
    (fun '(p, (t, y)) => mkPRCClientInfo p t y) (fun i => (ci_pid i, (ci_tid i, protype i)))
    ltac:(by intros []).

Definition udpport_codec : codec UDPLocalProxyAddrInfo :=
  cstruct (cuint 4 ⊗ cuint 2 ⊗ cuint 2)
    (fun '(i, (c, p)) => mkPortInfo i c p) (fun i => (clientip i, (clientport i, proxyport i)))
    ltac:(by intros []).

(** ** Processes *)

Definition identity_codec : codec HookProcessIdentityInfo :=
  cstruct (cuint 4 ⊗ cuint 8 ⊗ cwchars 260 ⊗ cuint 4 ⊗ cuint 4)
    (fun '(p, (t, (a, (s, e)))) => mkIdentity p t a s e)
    (fun i => (dwProcessId i, (id_processCreateTime i, (szAppPath i, (hookState i, hookError i)))))
    ltac:(by intros []).

Definition hookresult_codec : codec HookWSockResult :=
  cstruct (cuint 4 ⊗ cuint 8 ⊗ cuint 4)
    (fun '(p, (t, e)) => mkHookResult p t e) (fun r => (hr_processId r, (hr_createTime r, hr_err r)))
    ltac:(by intros []).

Record HookNewProcessInfo := mkNewProcess {
  np_appPath : list Z; np_commandLine : list Z;
  np_processId : Z; np_threadId : Z; np_createTime : Z
}.
Definition newprocess_codec : codec HookNewProcessInfo :=
  cstruct (cwchars 260 ⊗ cwchars 260 ⊗ cuint 4 ⊗ cuint 4 ⊗ cuint 8)
    (fun '(a, (c, (p, (t, y)))) => mkNewProcess a c p t y)
    (fun n => (np_appPath n, (np_commandLine n, (np_processId n, (np_threadId n, np_createTime n)))))
    ltac:(by intros []).

Record HookProcessSnapshot := mkSender { sn_processId : Z; sn_createTime : Z; sn_appPath : list Z }.
Record HookProcessCreationNotice := mkNotice { child : HookNewProcessInfo; parent : HookProcessSnapshot }.
Definition notice_codec : codec HookProcessCreationNotice :=
  cstruct (newprocess_codec ⊗ cuint 4 ⊗ cuint 8 ⊗ cwchars 260)
    (fun '(c, (p, (t, a))) => mkNotice c (mkSender p t a))
    (fun n => (child n, (sn_processId (parent n), (sn_createTime (parent n), sn_appPath (parent n)))))
    ltac:(by intros [? []]).

(** The text arrays of this one are checked for a terminator before use. *)
Record HookBlockedIPv6Info := mkBlocked {
  bi_processId : Z; bi_socketType : Z; bi_destination : _SockAddr;
  bi_domain : bytes; bi_processName : list Z
}.
Definition blocked_codec : codec HookBlockedIPv6Info :=
  cstruct (cuint 4 ⊗ cint ⊗ sockaddr_codec ⊗ craw 256 ⊗ cwunits 260)
    (fun '(p, (t, (d, (n, m)))) => mkBlocked p t d n m)
    (fun b => (bi_processId b, (bi_socketType b, (bi_destination b, (bi_domain b, bi_processName b)))))
    ltac:(by intros []).

(** [BrowserQuicPolicy::Report] *)
Record QuicReport := mkReport { rp_birth : Z; rp_status : Z; rp_unused : Z }.
Definition report_codec : codec QuicReport :=
  cstruct (cuint 8 ⊗ cuint 4 ⊗ cuint 4)
    (fun '(b, (s, r)) => mkReport b s r) (fun r => (rp_birth r, (rp_status r, rp_unused r)))
    ltac:(by intros []).

(** ** Launches *)

Record AppLauncherHostInfo := mkHostInfo {
  ah_version : Z; ah_processId : Z; ah_creationTime : Z; ah_executable : list Z
}.
Definition hostinfo_codec : codec AppLauncherHostInfo :=
  cstruct (cuint 4 ⊗ cuint 4 ⊗ cuint 8 ⊗ cwunits 260)
    (fun '(v, (p, (t, e))) => mkHostInfo v p t e)
    (fun h => (ah_version h, (ah_processId h, (ah_creationTime h, ah_executable h))))
    ltac:(by intros []).

Definition request_codec : codec AppLauncherRequest :=
  cstruct (cwunits 40 ⊗ cwunits 256 ⊗ cuint 4 ⊗ cuint 8 ⊗ cuint 4 ⊗ cuint 8 ⊗ cuint 8)
    (fun '(i, (a, (hp, (ht, (pp, (pt, t)))))) => mkRequest i a hp ht pp pt t)
    (fun r => (rq_id r, (rq_aumid r, (rq_hostPid r, (rq_hostCreationTime r, (rq_parentPid r,
               (rq_parentCreationTime r, rq_submittedTime r)))))))
    ltac:(by intros []).

Definition result_codec : codec AppLauncherResult :=
  cstruct (cuint 4 ⊗ cuint 4 ⊗ cuint 4)
    (fun '(e, (p, h)) => mkResult e p h) (fun r => (rs_error r, (rs_processId r, rs_hookError r)))
    ltac:(by intros []).

(** The sizes of the structs. *)
Lemma record_sizes :
  csize head_codec = 6%nat /\ csize sockaddr_codec = 28%nat /\ csize client_codec = 424%nat /\
  csize proxyinfo_codec = 808%nat /\ csize settings_codec = 68%nat /\ csize prcinfo_codec = 220%nat /\
  csize clientinfo_codec = 12%nat /\ csize udpport_codec = 8%nat /\ csize identity_codec = 540%nat /\
  csize hookresult_codec = 16%nat /\ csize newprocess_codec = 1056%nat /\ csize notice_codec = 1588%nat /\
  csize blocked_codec = 812%nat /\ csize report_codec = 16%nat /\ csize hostinfo_codec = 536%nat /\
  csize request_codec = 624%nat /\ csize result_codec = 12%nat.
Proof. by repeat split. Qed.

(** * Programs that talk over a pipe

    One end of the pipe is a program as a tree: it writes a message and goes on
    with the success, reads and goes on with what the system returns, or ends.
    [ReadFile] and [WriteFile] are the only system calls of both ends; what the
    code makes of them is written here as in PRCPipeServer.cpp and
    PRCPipeClient.cpp. *)

Inductive proc (A : Type) :=
  | Ret (a : A)
  | WriteFile (m : bytes) (k : bool -> proc A)            (* all of [m] was written *)
  | ReadFile (n : Z) (k : option bytes -> proc A).        (* at most [n] bytes, or FALSE *)
Arguments Ret {A} a.
Arguments WriteFile {A} m k.
Arguments ReadFile {A} n k.

#[global] Instance proc_ret : MRet proc := @Ret.
#[global] Instance proc_bind : MBind proc :=
  fun A B f => fix go p :=
    match p with
    | Ret a => f a
    | WriteFile m k => WriteFile m (fun ok => go (k ok))
    | ReadFile n k => ReadFile n (fun r => go (k r))
    end.

(** [WritePipe]: the call, and all bytes taken. *)
Definition WritePipe (m : bytes) : proc bool := WriteFile m Ret.

(** [ReadPipe]: the call, and exactly [size] bytes. *)
Definition ReadPipe (size : Z) : proc (option bytes) :=
  ReadFile size (fun r =>
    Ret match r with
        | Some l => if Z.of_nat (length l) =? size then Some l else None
        | None => None
        end).

(** [ReadPipeExactly]: until [size] bytes are there; a turn reads one or more. *)
Fixpoint read_exactly (fuel : nat) (size : Z) (got : bytes) : proc (option bytes) :=
  match fuel with
  | O => Ret None
  | S fuel =>
      let dwTotal := Z.of_nat (length got) in
      if size <=? dwTotal then Ret (if dwTotal =? size then Some got else None)
      else ReadFile (size - dwTotal) (fun r =>
        match r with
        | Some (b :: l) => read_exactly fuel size (got ++ b :: l)
        | _ => Ret None
        end)
  end.
Definition ReadPipeExactly (size : Z) : proc (option bytes) :=
  read_exactly (S (Z.to_nat size)) size [].

(** A record of the protocol. *)
Definition write_record {A} (c : codec A) (a : A) : proc bool := WritePipe (enc c a).
Definition read_record {A} (c : codec A) : proc (option A) :=
  r ← ReadPipe (Z.of_nat (csize c)); mret (match r with Some l => Some (dec c l) | None => None end).

(** ** What a program can end with, and writes *)

(** Some answers of the system lead to [a]. *)
Inductive ends {A} : proc A -> A -> Prop :=
  | ends_ret a : ends (Ret a) a
  | ends_write m k ok a : ends (k ok) a -> ends (WriteFile m k) a
  | ends_read n k r a : ends (k r) a -> ends (ReadFile n k) a.

(** Every end satisfies [Q], whatever the answers. *)
Inductive always {A} (Q : A -> Prop) : proc A -> Prop :=
  | always_ret a : Q a -> always Q (Ret a)
  | always_write m k : (forall ok, always Q (k ok)) -> always Q (WriteFile m k)
  | always_read n k : (forall r, always Q (k r)) -> always Q (ReadFile n k).

(** Two programs that write the same and read the same; what they end with may
    differ by [R]. *)
Inductive same_talk {A} (R : A -> A -> Prop) : proc A -> proc A -> Prop :=
  | same_ret a b : R a b -> same_talk R (Ret a) (Ret b)
  | same_write m k k' : (forall ok, same_talk R (k ok) (k' ok)) ->
      same_talk R (WriteFile m k) (WriteFile m k')
  | same_read n k k' : (forall r, same_talk R (k r) (k' r)) ->
      same_talk R (ReadFile n k) (ReadFile n k').

Lemma always_ends {A} Q (p : proc A) a : always Q p -> ends p a -> Q a.
Proof. intros Ha He. induction He; inversion Ha; auto. Qed.

Lemma always_bind {A B} (f : A -> proc B) P Q p :
  always P p -> (forall a, P a -> always Q (f a)) -> always Q (p ≫= f).
Proof. intros Hp Hf. induction Hp; cbn; [auto|constructor; auto..]. Qed.

Lemma always_mono {A} (P Q : A -> Prop) p :
  always P p -> (forall a, P a -> Q a) -> always Q p.
Proof. intros Hp H. induction Hp; constructor; auto. Qed.

Lemma always_true {A} (p : proc A) : always (fun _ => True) p.
Proof. induction p; constructor; auto. Qed.

Lemma same_talk_bind {A B} (f g : A -> proc B) (R : A -> A -> Prop) S p q :
  same_talk R p q -> (forall a b, R a b -> same_talk S (f a) (g b)) ->
  same_talk S (p ≫= f) (q ≫= g).
Proof. intros Hp Hf. induction Hp; cbn; [auto|constructor; auto..]. Qed.

Lemma same_talk_refl {A} (R : A -> A -> Prop) p : (forall a, R a a) -> same_talk R p p.
Proof. intros HR. induction p; constructor; auto. Qed.

(** What [ReadPipe] returns has the size asked for. *)
Lemma always_ReadPipe size :
  always (fun r => match r with Some l => Z.of_nat (length l) = size | None => True end) (ReadPipe size).
Proof.
  constructor. intros [l|]; constructor; [|done].
  destruct (Z.eqb_spec (Z.of_nat (length l)) size); done.
Qed.

Lemma always_read_exactly fuel size got :
  always (fun r => match r with Some l => Z.of_nat (length l) = size | None => True end)
    (read_exactly fuel size got).
Proof.
  revert got. induction fuel as [|fuel IH]; intros got; simpl; [by constructor|].
  destruct (size <=? _); [constructor; by destruct (Z.eqb_spec (Z.of_nat (length got)) size)|].
  constructor. intros [[|b l]|]; [by constructor|apply IH|by constructor].
Qed.
