(* ===== verification/Base64Url.v ===== *)
(** * Base64URL (ElevatedLaunchProtocol.h, ProfileShareCodec.h)

    The program has two implementations: a launch request for the elevated
    helper is coded in groups of three bytes, a shared profile bit by bit.  Both
    write the same text, and each reads exactly what they write. *)

From S2P Require Import Prelude Base64Coding.

Definition url_alphabet : bytes :=
  ascii_bytes "ABCDEFGHIJKLMNOPQRSTUVWXYZabcdefghijklmnopqrstuvwxyz0123456789-_".
Definition url_char (i : Z) : Z := byte_at url_alphabet (Z.to_nat i).

(** ** In groups (ElevatedLaunchProtocol.h) *)

Definition ProxyLaneBase64UrlEncodedLength (sourceSize : Z) : Z :=
  let fullGroups := sourceSize / 3 in
  let remainder := sourceSize mod 3 in
  fullGroups * 4 + (if remainder =? 0 then 0 else remainder + 1).

(** No length: the [static_cast<size_t>(-1)] of the code. *)
Definition ProxyLaneBase64UrlDecodedLength (sourceLength : Z) : option Z :=
  let remainder := sourceLength mod 4 in
  if remainder =? 1 then None
  else Some (sourceLength / 4 * 3 + (if remainder =? 0 then 0 else remainder - 1)).

Definition ProxyLaneBase64UrlDigitValue (value : Z) : Z :=
  if (65 <=? value) && (value <=? 90) then value - 65
  else if (97 <=? value) && (value <=? 122) then value - 97 + 26
  else if (48 <=? value) && (value <=? 57) then value - 48 + 52
  else if value =? 45 then 62
  else if value =? 95 then 63
  else -1.

Fixpoint encode_groups (source : bytes) : bytes :=
  match source with
  | first :: second :: third :: source =>
      url_char (Z.shiftr first 2) ::
      url_char (Z.lor (Z.shiftl (Z.land first 3) 4) (Z.shiftr second 4)) ::
      url_char (Z.lor (Z.shiftl (Z.land second 15) 2) (Z.shiftr third 6)) ::
      url_char (Z.land third 63) :: encode_groups source
  | [first; second] =>
      [url_char (Z.shiftr first 2);
       url_char (Z.lor (Z.shiftl (Z.land first 3) 4) (Z.shiftr second 4));
       url_char (Z.shiftl (Z.land second 15) 2)]
  | [first] => [url_char (Z.shiftr first 2); url_char (Z.shiftl (Z.land first 3) 4)]
  | [] => []
  end.

(** The characters written, without the terminator after them. *)
Definition ProxyLaneBase64UrlEncode (source : bytes) (destinationSize : Z) : option bytes :=
  if destinationSize <=? ProxyLaneBase64UrlEncodedLength (Z.of_nat (length source)) then None
  else Some (encode_groups source).

Fixpoint decode_groups (source : bytes) : option bytes :=
  let digit := ProxyLaneBase64UrlDigitValue in
  match source with
  | c1 :: c2 :: c3 :: c4 :: source =>
      if (digit c1 <? 0) || (digit c2 <? 0) || (digit c3 <? 0) || (digit c4 <? 0) then None
      else
        rest ← decode_groups source;
        Some (u8 (Z.lor (Z.shiftl (digit c1) 2) (Z.shiftr (digit c2) 4)) ::
              u8 (Z.lor (Z.shiftl (digit c2) 4) (Z.shiftr (digit c3) 2)) ::
              u8 (Z.lor (Z.shiftl (digit c3) 6) (digit c4)) :: rest)
  | [] => Some []
  | c1 :: c2 :: tail =>
      if (digit c1 <? 0) || (digit c2 <? 0)
         || (bool_decide (tail = []) && negb (Z.land (digit c2) 15 =? 0)) then None
      else
        let first := u8 (Z.lor (Z.shiftl (digit c1) 2) (Z.shiftr (digit c2) 4)) in
        match tail with
        | [] => Some [first]
        | c3 :: _ =>
            if (digit c3 <? 0) || negb (Z.land (digit c3) 3 =? 0) then None
            else Some [first; u8 (Z.lor (Z.shiftl (digit c2) 4) (Z.shiftr (digit c3) 2))]
        end
  | [_] => None                      (* refused by its length before the loop *)
  end.

Definition ProxyLaneBase64UrlDecode (source : bytes) (destinationSize : Z) : option bytes :=
  match ProxyLaneBase64UrlDecodedLength (Z.of_nat (length source)) with
  | None => None
  | Some requiredLength =>
      if destinationSize <? requiredLength then None
      else
        decoded ← decode_groups source;
        if Z.of_nat (length decoded) =? requiredLength then Some decoded else None
  end.

(** ** Bit by bit (ProfileShareCodec.h) *)

(** The characters that are full, for [count] bits in [bits]. *)
Definition put_chars (bits count : Z) : bytes * Z :=
  if 12 <=? count then
    ([url_char (Z.land (Z.shiftr bits (count - 6)) 63); url_char (Z.land (Z.shiftr bits (count - 12)) 63)], count - 12)
  else if 6 <=? count then ([url_char (Z.land (Z.shiftr bits (count - 6)) 63)], count - 6)
  else ([], count).

Fixpoint share_encode (input : bytes) (bits count : Z) : bytes :=
  match input with
  | [] => if count =? 0 then [] else [url_char (Z.land (u32 (Z.shiftl bits (6 - count))) 63)]
  | ch :: input =>
      let bits := Z.lor (u32 (Z.shiftl bits 8)) ch in
      let '(out, count) := put_chars bits (count + 8) in out ++ share_encode input bits count
  end.

(** [Base64Url] *)
Definition Base64Url (input : bytes) : bytes := share_encode input 0 0.

(** The loop of [Decode], with the check of the bits left over. *)
Fixpoint share_decode (encoded : bytes) (bits count : Z) (json : bytes) : option bytes :=
  match encoded with
  | [] =>
      if negb (count =? 0) && negb (Z.land bits (u32 (Z.shiftl 1 count - 1)) =? 0) then None else Some json
  | ch :: encoded =>
      let n := ProxyLaneBase64UrlDigitValue ch in
      if n <? 0 then None
      else
        let bits := Z.lor (u32 (Z.shiftl bits 6)) n in
        let count := count + 6 in
        if 8 <=? count then share_decode encoded bits (count - 8) (json ++ [Z.land (Z.shiftr bits (count - 8)) 255])
        else share_decode encoded bits count json
  end.

Definition MaxCodeBytes : Z := 256 * 1024.
Definition MaxJsonBytes : Z := 192 * 1024.

(** What [Decode] does with the text behind its prefix, up to the JSON. *)
Definition share_decode_text (encoded : bytes) : option bytes :=
  if bool_decide (encoded = []) || (Z.of_nat (length encoded) mod 4 =? 1) then None
  else
    json ← share_decode encoded 0 0 [];
    if MaxJsonBytes <? Z.of_nat (length json) then None else Some json.

Example elevated_text : ProxyLaneBase64UrlEncode (ascii_bytes "PLEL??>") 11 = Some (ascii_bytes "UExFTD8_Pg").
Proof. reflexivity. Qed.
Example share_text : Base64Url (ascii_bytes "PLEL??>") = ascii_bytes "UExFTD8_Pg".
Proof. reflexivity. Qed.
Example elevated_bytes : ProxyLaneBase64UrlDecode (ascii_bytes "UExFTD8_Pg") 7 = Some (ascii_bytes "PLEL??>").
Proof. reflexivity. Qed.
Example share_bytes : share_decode_text (ascii_bytes "UExFTD8_Pg") = Some (ascii_bytes "PLEL??>").
Proof. reflexivity. Qed.

(** ** Bits as arithmetic *)

Lemma lor_shiftl a b n : 0 <= n -> 0 <= b < 2 ^ n -> Z.lor (Z.shiftl a n) b = a * 2 ^ n + b.
Proof.
  intros Hn Hb. pose proof (Z.add_lor_land (Z.shiftl a n) b) as E.
  assert (Z.land (Z.shiftl a n) b = 0) as E0; [|rewrite E0 in E; rewrite <- Z.shiftl_mul_pow2 by done; lia].
  apply Z.bits_inj'. intros i Hi. rewrite Z.land_spec, Z.bits_0.
  destruct (Z.lt_ge_cases i n) as [H|H].
  - rewrite Z.shiftl_spec_low by done. done.
  - assert (Z.testbit b i = false) as ->; [|by rewrite andb_false_r].
    rewrite <- (Z.mod_small b (2 ^ n)) by done. by apply Z.mod_pow2_bits_high.
Qed.

Lemma land_ones_mod a n : 0 <= n -> Z.land a (2 ^ n - 1) = a mod 2 ^ n.
Proof. intros. rewrite <- Z.land_ones by done. f_equal. rewrite Z.ones_equiv. lia. Qed.

(** The operations of this file on numbers that are not negative. *)
Ltac bits_arith :=
  repeat match goal with
  | |- context [Z.land ?a 3] => change (Z.land a 3) with (Z.land a (2 ^ 2 - 1)); rewrite (land_ones_mod a 2) by lia
  | |- context [Z.land ?a 15] => change (Z.land a 15) with (Z.land a (2 ^ 4 - 1)); rewrite (land_ones_mod a 4) by lia
  | |- context [Z.land ?a 63] => change (Z.land a 63) with (Z.land a (2 ^ 6 - 1)); rewrite (land_ones_mod a 6) by lia
  | |- context [Z.land ?a 255] => change (Z.land a 255) with (Z.land a (2 ^ 8 - 1)); rewrite (land_ones_mod a 8) by lia
  | |- context [Z.shiftr ?a ?n] => rewrite (Z.shiftr_div_pow2 a n) by lia
  | |- context [Z.lor (Z.shiftl ?a ?n) ?b] =>
      rewrite (lor_shiftl a b n) by (lia || (Z.to_euclidean_division_equations; lia))
  | |- context [Z.shiftl ?a ?n] => rewrite (Z.shiftl_mul_pow2 a n) by lia
  end.

Lemma url_digit_char i : 0 <= i < 64 -> ProxyLaneBase64UrlDigitValue (url_char i) = i.
Proof.
  intros Hi. assert (H : forallb (fun k => ProxyLaneBase64UrlDigitValue (url_char (Z.of_nat k)) =? Z.of_nat k) (seq 0 64) = true)
    by (vm_compute; reflexivity).
  rewrite forallb_forall in H. specialize (H (Z.to_nat i)). rewrite Z2Nat.id, Z.eqb_eq in H by lia.
  apply H, in_seq. lia.
Qed.

Lemma char_digit c : 0 <= ProxyLaneBase64UrlDigitValue c ->
  ProxyLaneBase64UrlDigitValue c < 64 /\ url_char (ProxyLaneBase64UrlDigitValue c) = c.
Proof.
  intros H. assert (Hc : 0 <= c < 256).
  { unfold ProxyLaneBase64UrlDigitValue in H.
    repeat match type of H with context [if ?b then _ else _] => destruct b eqn:?; bool_hyps; try lia end. }
  assert (A : forallb (fun k => let d := ProxyLaneBase64UrlDigitValue (Z.of_nat k) in
    (d <? 0) || ((d <? 64) && (url_char d =? Z.of_nat k))) (seq 0 256) = true) by (vm_compute; reflexivity).
  rewrite forallb_forall in A. specialize (A (Z.to_nat c)). rewrite Z2Nat.id in A by lia.
  specialize (A ltac:(apply in_seq; lia)). cbv zeta in A. apply orb_true_iff in A as [A|A]; [lia|].
  apply andb_true_iff in A. lia.
Qed.

Lemma sextet_bits a b c : byte_ok a -> byte_ok b -> byte_ok c ->
  Z.shiftr a 2 = a / 4 /\
  Z.lor (Z.shiftl (Z.land a 3) 4) (Z.shiftr b 4) = a mod 4 * 16 + b / 16 /\
  Z.lor (Z.shiftl (Z.land b 15) 2) (Z.shiftr c 6) = b mod 16 * 4 + c / 64 /\
  Z.land c 63 = c mod 64.
Proof. intros Ha Hb Hc. unfold byte_ok in *. bits_arith. done. Qed.

Lemma octet_bits d1 d2 d3 d4 : 0 <= d1 < 64 -> 0 <= d2 < 64 -> 0 <= d3 < 64 -> 0 <= d4 < 64 ->
  u8 (Z.lor (Z.shiftl d1 2) (Z.shiftr d2 4)) = d1 * 4 + d2 / 16 /\
  u8 (Z.lor (Z.shiftl d2 4) (Z.shiftr d3 2)) = d2 mod 16 * 16 + d3 / 4 /\
  u8 (Z.lor (Z.shiftl d3 6) d4) = d3 mod 4 * 64 + d4.
Proof.
  intros H1 H2 H3 H4. unfold u8. bits_arith. change (2 ^ 2) with 4. change (2 ^ 4) with 16. change (2 ^ 6) with 64.
  Z.to_euclidean_division_equations. lia.
Qed.

Lemma list_ind4 {A} (P : list A -> Prop) :
  P [] -> (forall a, P [a]) -> (forall a b, P [a; b]) -> (forall a b c, P [a; b; c]) ->
  (forall a b c d l, P l -> P (a :: b :: c :: d :: l)) -> forall l, P l.
Proof.
  intros H0 H1 H2 H3 H4. fix IH 1.
  intros [|a [|b [|c [|d l]]]]; [apply H0|apply H1|apply H2|apply H3|apply H4, IH].
Qed.

Ltac euclid := unfold byte_ok in *; Z.to_euclidean_division_equations; lia.

(** Digits of characters that were written. *)
Ltac read_digits :=
  repeat match goal with
  | |- context [ProxyLaneBase64UrlDigitValue (url_char ?i)] => rewrite (url_digit_char i) by euclid
  end;
  repeat match goal with
  | |- context [?i <? 0] => rewrite (proj2 (Z.ltb_ge i 0)) by euclid
  | |- context [Z.land ?i 15 =? 0] =>
      change (Z.land i 15) with (Z.land i (2 ^ 4 - 1)); rewrite (land_ones_mod i 4), (proj2 (Z.eqb_eq (i mod 2 ^ 4) 0)) by euclid
  | |- context [Z.land ?i 3 =? 0] =>
      change (Z.land i 3) with (Z.land i (2 ^ 2 - 1)); rewrite (land_ones_mod i 2), (proj2 (Z.eqb_eq (i mod 2 ^ 2) 0)) by euclid
  end.

(** ** The two lengths *)

Lemma encode_groups_length source :
  Z.of_nat (length (encode_groups source)) = ProxyLaneBase64UrlEncodedLength (Z.of_nat (length source)).
Proof.
  unfold ProxyLaneBase64UrlEncodedLength. induction source as [|a|a b|a b c l IH] using list_ind3; [done..|].
  cbn [encode_groups length]. replace (Z.of_nat (S (S (S (length l))))) with (Z.of_nat (length l) + 1 * 3) by lia.
  rewrite Z.div_add, Z.mod_add by lia. lia.
Qed.

Lemma decode_groups_length source decoded : decode_groups source = Some decoded ->
  ProxyLaneBase64UrlDecodedLength (Z.of_nat (length source)) = Some (Z.of_nat (length decoded)).
Proof.
  unfold ProxyLaneBase64UrlDecodedLength. revert decoded.
  induction source as [|a|a b|a b c|a b c d l IH] using list_ind4; intros decoded H; cbn [decode_groups] in H.
  1-4: repeat case_match; simplify_eq; done.
  destruct (_ || _) in H; [done|]. destruct (decode_groups l) as [r|]; [|done]. injection H as <-. specialize (IH r eq_refl).
  cbn [length]. replace (Z.of_nat (S (S (S (S (length l)))))) with (Z.of_nat (length l) + 1 * 4) by lia.
  rewrite Z.div_add, Z.mod_add by lia. repeat case_match; simplify_eq; f_equal; lia.
Qed.

(** ** Round trips *)

Lemma decode_encode_groups source : bytes_ok source -> decode_groups (encode_groups source) = Some source.
Proof.
  induction source as [|a|a b|a b c l IH] using list_ind3; intros Hok; unfold bytes_ok in Hok; rewrite ?Forall_cons in Hok;
    [done|destruct Hok as (Ha & _)|destruct Hok as (Ha & Hb & _)|destruct Hok as (Ha & Hb & Hc & Hl)].
  - destruct (sextet_bits a 0 0) as (E1 & E2 & _); [done..|]. rewrite Z.lor_0_r in E2.
    cbn [encode_groups decode_groups]. rewrite E1, E2. read_digits.
    destruct (octet_bits (a / 4) (a mod 4 * 16 + 0 / 16) 0 0) as (-> & _); [euclid..|].
    cbn. do 2 f_equal. euclid.
  - destruct (sextet_bits a b 0) as (E1 & E2 & E3 & _); [done..|]. rewrite Z.lor_0_r in E3.
    cbn [encode_groups decode_groups]. rewrite E1, E2, E3. read_digits.
    destruct (octet_bits (a / 4) (a mod 4 * 16 + b / 16) (b mod 16 * 4 + 0 / 64) 0) as (-> & -> & _); [euclid..|].
    cbn. repeat f_equal; euclid.
  - destruct (sextet_bits a b c) as (E1 & E2 & E3 & E4); [done..|].
    cbn [encode_groups decode_groups]. rewrite E1, E2, E3, E4, (IH Hl). read_digits.
    destruct (octet_bits (a / 4) (a mod 4 * 16 + b / 16) (b mod 16 * 4 + c / 64) (c mod 64)) as (-> & -> & ->); [euclid..|].
    cbn. repeat f_equal; euclid.
Qed.

(** Only what was written is read. *)
Lemma encode_decode_groups source decoded : decode_groups source = Some decoded ->
  bytes_ok decoded /\ encode_groups decoded = source.
Proof.
  revert decoded. induction source as [|c1|c1 c2|c1 c2 c3|c1 c2 c3 c4 l IH] using list_ind4; intros decoded H; cbn [decode_groups] in H.
  - simplify_eq. split; [constructor|done].
  - done.
  - destruct (_ || _) eqn:E in H; [done|]. injection H as <-. rewrite !orb_false_iff in E. destruct E as [[E1 E2] E3].
    destruct (char_digit c1) as [B1 C1]; [lia|]. destruct (char_digit c2) as [B2 C2]; [lia|].
    set (d1 := ProxyLaneBase64UrlDigitValue c1) in *. set (d2 := ProxyLaneBase64UrlDigitValue c2) in *.
    rewrite bool_decide_true in E3 by done. cbn in E3. apply negb_false_iff, Z.eqb_eq in E3.
    change 15 with (2 ^ 4 - 1) in E3. rewrite land_ones_mod in E3 by lia.
    destruct (octet_bits d1 d2 0 0) as (-> & _); [lia..|]. split; [repeat constructor; euclid|].
    destruct (sextet_bits (d1 * 4 + d2 / 16) 0 0) as (F1 & F2 & _); [euclid..|]. rewrite Z.lor_0_r in F2.
    cbn [encode_groups]. rewrite F1, F2, <- C1, <- C2. fold d1 d2. repeat f_equal; euclid.
  - destruct (_ || _) eqn:E in H; [done|]. rewrite !orb_false_iff in E. destruct E as [[E1 E2] _].
    destruct (_ || _) eqn:E in H; [done|]. injection H as <-. rewrite !orb_false_iff in E. destruct E as [E3 E4].
    destruct (char_digit c1) as [B1 C1]; [lia|]. destruct (char_digit c2) as [B2 C2]; [lia|]. destruct (char_digit c3) as [B3 C3]; [lia|].
    set (d1 := ProxyLaneBase64UrlDigitValue c1) in *. set (d2 := ProxyLaneBase64UrlDigitValue c2) in *.
    set (d3 := ProxyLaneBase64UrlDigitValue c3) in *. apply negb_false_iff, Z.eqb_eq in E4.
    change 3 with (2 ^ 2 - 1) in E4. rewrite land_ones_mod in E4 by lia.
    destruct (octet_bits d1 d2 d3 0) as (-> & -> & _); [lia..|]. split; [repeat constructor; euclid|].
    destruct (sextet_bits (d1 * 4 + d2 / 16) (d2 mod 16 * 16 + d3 / 4) 0) as (F1 & F2 & F3 & _); [euclid..|].
    rewrite Z.lor_0_r in F3.
    cbn [encode_groups]. rewrite F1, F2, F3, <- C1, <- C2, <- C3. fold d1 d2 d3. repeat f_equal; euclid.
  - destruct (_ || _) eqn:E in H; [done|]. rewrite !orb_false_iff in E. destruct E as [[[E1 E2] E3] E4].
    destruct (decode_groups l) as [r|]; [|done]. injection H as <-. destruct (IH r eq_refl) as [Hr Er].
    destruct (char_digit c1) as [B1 C1]; [lia|]. destruct (char_digit c2) as [B2 C2]; [lia|].
    destruct (char_digit c3) as [B3 C3]; [lia|]. destruct (char_digit c4) as [B4 C4]; [lia|].
    set (d1 := ProxyLaneBase64UrlDigitValue c1) in *. set (d2 := ProxyLaneBase64UrlDigitValue c2) in *.
    set (d3 := ProxyLaneBase64UrlDigitValue c3) in *. set (d4 := ProxyLaneBase64UrlDigitValue c4) in *.
    destruct (octet_bits d1 d2 d3 d4) as (-> & -> & ->); [lia..|]. split; [repeat (constructor; [euclid|]); exact Hr|].
    destruct (sextet_bits (d1 * 4 + d2 / 16) (d2 mod 16 * 16 + d3 / 4) (d3 mod 4 * 64 + d4)) as (F1 & F2 & F3 & F4); [euclid..|].
    cbn [encode_groups]. rewrite F1, F2, F3, F4, Er, <- C1, <- C2, <- C3, <- C4. fold d1 d2 d3 d4. repeat f_equal; euclid.
Qed.

Lemma url_char_not_nul i : 0 <= i < 64 -> url_char i <> 0.
Proof. intros Hi E. pose proof (url_digit_char i Hi) as H. rewrite E in H. vm_compute in H. lia. Qed.

Lemma encode_groups_no_nul source : bytes_ok source -> no_nul (encode_groups source).
Proof.
  induction source as [|a|a b|a b c l IH] using list_ind3; intros Hok; unfold bytes_ok in Hok; rewrite ?Forall_cons in Hok.
  - constructor.
  - destruct Hok as (Ha & _). destruct (sextet_bits a 0 0) as (E1 & E2 & _); [done..|]. rewrite Z.lor_0_r in E2.
    cbn [encode_groups]. rewrite E1, E2. repeat constructor; apply url_char_not_nul; euclid.
  - destruct Hok as (Ha & Hb & _). destruct (sextet_bits a b 0) as (E1 & E2 & E3 & _); [done..|]. rewrite Z.lor_0_r in E3.
    cbn [encode_groups]. rewrite E1, E2, E3. repeat constructor; apply url_char_not_nul; euclid.
  - destruct Hok as (Ha & Hb & Hc & Hl). destruct (sextet_bits a b c) as (E1 & E2 & E3 & E4); [done..|].
    cbn [encode_groups]. rewrite E1, E2, E3, E4. repeat (constructor; [apply url_char_not_nul; euclid|]). by apply IH.
Qed.

(** ** The two implementations *)

Lemma low_bits x m n : 0 <= m <= n -> x mod 2 ^ m = (x mod 2 ^ n) mod 2 ^ m.
Proof.
  intros. replace n with (m + (n - m)) by lia. rewrite Z.pow_add_r by lia.
  rewrite Z.rem_mul_r by lia. rewrite (Z.mul_comm (2 ^ m)), Z.mod_add by lia. by rewrite Z.mod_mod by lia.
Qed.

(** What the accumulator holds in its low bits after [n] of width [w] came in. *)
Lemma push_bits bits n w m : 0 <= w -> 0 <= m -> m + w <= 32 -> 0 <= n < 2 ^ w ->
  Z.lor (u32 (Z.shiftl bits w)) n mod 2 ^ (m + w) = bits mod 2 ^ m * 2 ^ w + n.
Proof.
  intros Hw Hm Hmw Hn. assert (P : 0 < 2 ^ w) by lia. assert (Pm : 0 < 2 ^ m) by lia.
  assert (E : u32 (Z.shiftl bits w) = Z.shiftl (bits mod 2 ^ (32 - w)) w).
  { unfold u32. rewrite !Z.shiftl_mul_pow2 by done. change 4294967296 with (2 ^ 32).
    replace (2 ^ 32) with (2 ^ (32 - w) * 2 ^ w) by (rewrite <- Z.pow_add_r by lia; f_equal; lia).
    by rewrite Z.mul_mod_distr_r by lia. }
  rewrite E, lor_shiftl by done. rewrite Z.pow_add_r by lia.
  rewrite (low_bits bits m (32 - w)) by lia. set (B := bits mod 2 ^ (32 - w)).
  rewrite (Z.mul_comm (2 ^ m)), Z.rem_mul_r by lia.
  rewrite Z.div_add_l by lia. rewrite (Z.div_small n) by done. rewrite Z.add_0_r.
  rewrite (Z.add_comm (B * 2 ^ w)), Z.mod_add by lia. rewrite (Z.mod_small n) by done. lia.
Qed.

Lemma push_byte bits ch m : 0 <= m <= 24 -> byte_ok ch ->
  Z.lor (u32 (Z.shiftl bits 8)) ch mod 2 ^ (m + 8) = bits mod 2 ^ m * 256 + ch.
Proof. intros. by apply (push_bits bits ch 8 m); [lia..|]. Qed.

Lemma push_digit bits n m : 0 <= m <= 26 -> 0 <= n < 64 ->
  Z.lor (u32 (Z.shiftl bits 6)) n mod 2 ^ (m + 6) = bits mod 2 ^ m * 64 + n.
Proof. intros. by apply (push_bits bits n 6 m); [lia..|]. Qed.

Lemma take_bits x k w : 0 <= k -> 0 <= w -> Z.land (Z.shiftr x k) (2 ^ w - 1) = x mod 2 ^ (k + w) / 2 ^ k.
Proof.
  intros. rewrite Z.shiftr_div_pow2, land_ones_mod by lia. rewrite Z.pow_add_r by lia. rewrite Z.rem_mul_r by lia.
  rewrite (Z.mul_comm (2 ^ k)), Z.div_add by lia. rewrite (Z.div_small (x mod 2 ^ k)); [lia|]. apply Z.mod_pos_bound. lia.
Qed.

Lemma take_char x k v : 0 <= k -> x mod 2 ^ (k + 6) = v -> Z.land (Z.shiftr x k) 63 = v / 2 ^ k.
Proof. intros Hk <-. by apply (take_bits x k 6). Qed.

Lemma take_byte x k v : 0 <= k -> x mod 2 ^ (k + 8) = v -> Z.land (Z.shiftr x k) 255 = v / 2 ^ k.
Proof. intros Hk <-. by apply (take_bits x k 8). Qed.

(** The character of the [n] bits left over, moved up by [k]. *)
Lemma take_rest x n k v : 0 <= n -> 0 <= k -> n + k = 6 -> x mod 2 ^ n = v ->
  Z.land (u32 (Z.shiftl x k)) 63 = v * 2 ^ k.
Proof.
  intros Hn Hk Hnk <-. rewrite (land_ones_mod _ 6) by lia. pose proof (push_bits x 0 k n Hk Hn ltac:(lia) ltac:(lia)) as E.
  rewrite Z.lor_0_r, Z.add_0_r in E. by rewrite <- Hnk.
Qed.

(** One character of the input, by the bits left over. *)
Lemma share_step_0 ch input bits : let B := Z.lor (u32 (Z.shiftl bits 8)) ch in
  share_encode (ch :: input) bits 0 = url_char (Z.land (Z.shiftr B 2) 63) :: share_encode input B 2.
Proof. reflexivity. Qed.
Lemma share_step_2 ch input bits : let B := Z.lor (u32 (Z.shiftl bits 8)) ch in
  share_encode (ch :: input) bits 2 = url_char (Z.land (Z.shiftr B 4) 63) :: share_encode input B 4.
Proof. reflexivity. Qed.
Lemma share_step_4 ch input bits : let B := Z.lor (u32 (Z.shiftl bits 8)) ch in
  share_encode (ch :: input) bits 4 =
  url_char (Z.land (Z.shiftr B 6) 63) :: url_char (Z.land (Z.shiftr B 0) 63) :: share_encode input B 0.
Proof. reflexivity. Qed.
Lemma share_end_2 bits : share_encode [] bits 2 = [url_char (Z.land (u32 (Z.shiftl bits 4)) 63)].
Proof. reflexivity. Qed.
Lemma share_end_4 bits : share_encode [] bits 4 = [url_char (Z.land (u32 (Z.shiftl bits 2)) 63)].
Proof. reflexivity. Qed.

Lemma share_encode_groups input : bytes_ok input -> forall bits, share_encode input bits 0 = encode_groups input.
Proof.
  induction input as [|a|a b|a b c l IH] using list_ind3; intros Hok bits; unfold bytes_ok in Hok; rewrite ?Forall_cons in Hok;
    [done|destruct Hok as (Ha & _)|destruct Hok as (Ha & Hb & _)|destruct Hok as (Ha & Hb & Hc & Hl)];
    rewrite ?share_step_0, ?share_step_2, ?share_step_4, ?share_end_2, ?share_end_4; cbn [encode_groups];
    set (B1 := Z.lor (u32 (Z.shiftl bits 8)) a); pose proof (push_byte bits a 0 ltac:(lia) Ha : B1 mod 2 ^ 8 = _) as P1;
    rewrite Z.mod_1_r in P1; pose proof (low_bits B1 2 8 ltac:(lia)) as Q1; rewrite P1 in Q1;
    rewrite (take_char B1 2 _ ltac:(lia) P1).
  - destruct (sextet_bits a 0 0) as (E1 & E2 & _); [done..|]. rewrite Z.lor_0_r in E2.
    rewrite (take_rest B1 2 4 _ ltac:(lia) ltac:(lia) eq_refl Q1), E1, E2. repeat f_equal; euclid.
  - set (B2 := Z.lor (u32 (Z.shiftl B1 8)) b).
    pose proof (push_byte B1 b 2 ltac:(lia) Hb : B2 mod 2 ^ 10 = _) as P2. rewrite Q1 in P2.
    pose proof (low_bits B2 4 10 ltac:(lia)) as Q2. rewrite P2 in Q2.
    destruct (sextet_bits a b 0) as (E1 & E2 & E3 & _); [done..|]. rewrite Z.lor_0_r in E3.
    rewrite (take_char B2 4 _ ltac:(lia) P2), (take_rest B2 4 2 _ ltac:(lia) ltac:(lia) eq_refl Q2), E1, E2, E3. repeat f_equal; euclid.
  - set (B2 := Z.lor (u32 (Z.shiftl B1 8)) b).
    pose proof (push_byte B1 b 2 ltac:(lia) Hb : B2 mod 2 ^ 10 = _) as P2. rewrite Q1 in P2.
    pose proof (low_bits B2 4 10 ltac:(lia)) as Q2. rewrite P2 in Q2.
    set (B3 := Z.lor (u32 (Z.shiftl B2 8)) c).
    pose proof (push_byte B2 c 4 ltac:(lia) Hc : B3 mod 2 ^ 12 = _) as P3. rewrite Q2 in P3.
    pose proof (low_bits B3 6 12 ltac:(lia)) as Q3. rewrite P3 in Q3.
    destruct (sextet_bits a b c) as (E1 & E2 & E3 & E4); [done..|].
    rewrite (take_char B2 4 _ ltac:(lia) P2), (take_char B3 6 _ ltac:(lia) P3), (take_char B3 0 _ ltac:(lia) Q3), IH by done.
    rewrite E1, E2, E3, E4. repeat f_equal; euclid.
Qed.

(** One digit of the text, by the bits left over. *)
Lemma share_digit ch encoded bits count json : let n := ProxyLaneBase64UrlDigitValue ch in
  let B := Z.lor (u32 (Z.shiftl bits 6)) n in
  share_decode (ch :: encoded) bits count json =
  if n <? 0 then None
  else if 8 <=? count + 6 then share_decode encoded B (count - 2) (json ++ [Z.land (Z.shiftr B (count - 2)) 255])
  else share_decode encoded B (count + 6) json.
Proof. cbn [share_decode]. cbv zeta. replace (count + 6 - 8) with (count - 2) by lia. done. Qed.

Lemma share_pair c1 c2 encoded bits json :
  let d1 := ProxyLaneBase64UrlDigitValue c1 in let d2 := ProxyLaneBase64UrlDigitValue c2 in
  if (d1 <? 0) || (d2 <? 0) then share_decode (c1 :: c2 :: encoded) bits 0 json = None
  else exists B, B mod 2 ^ 4 = d2 mod 16 /\
    share_decode (c1 :: c2 :: encoded) bits 0 json = share_decode encoded B 4 (json ++ [d1 * 4 + d2 / 16]).
Proof.
  cbv zeta. rewrite share_digit. destruct (Z.ltb_spec (ProxyLaneBase64UrlDigitValue c1) 0) as [|N1]; [done|].
  change (8 <=? 0 + 6) with false. cbv iota. rewrite share_digit.
  destruct (Z.ltb_spec (ProxyLaneBase64UrlDigitValue c2) 0) as [|N2]; [done|]. cbn [orb].
  change (8 <=? 0 + 6 + 6) with true. cbv iota. change (0 + 6 - 2) with 4.
  destruct (char_digit c1 N1) as [M1 _]. destruct (char_digit c2 N2) as [M2 _].
  set (d1 := ProxyLaneBase64UrlDigitValue c1) in *. set (d2 := ProxyLaneBase64UrlDigitValue c2) in *.
  set (B1 := Z.lor (u32 (Z.shiftl bits 6)) d1). set (B2 := Z.lor (u32 (Z.shiftl B1 6)) d2).
  pose proof (push_digit bits d1 0 ltac:(lia) ltac:(lia) : B1 mod 2 ^ 6 = _) as P1. rewrite Z.mod_1_r in P1.
  pose proof (push_digit B1 d2 6 ltac:(lia) ltac:(lia) : B2 mod 2 ^ 12 = _) as P2. rewrite P1 in P2.
  exists B2. rewrite (take_byte B2 4 _ ltac:(lia) P2), (low_bits B2 4 12), P2 by lia. split; [euclid|].
  repeat f_equal. euclid.
Qed.

Lemma share_third c3 encoded bits json v : bits mod 2 ^ 4 = v ->
  let d3 := ProxyLaneBase64UrlDigitValue c3 in
  if d3 <? 0 then share_decode (c3 :: encoded) bits 4 json = None
  else exists B, B mod 2 ^ 2 = d3 mod 4 /\
    share_decode (c3 :: encoded) bits 4 json = share_decode encoded B 2 (json ++ [v * 16 + d3 / 4]).
Proof.
  intros Hv. cbv zeta. rewrite share_digit. destruct (Z.ltb_spec (ProxyLaneBase64UrlDigitValue c3) 0) as [|N3]; [done|].
  change (8 <=? 4 + 6) with true. cbv iota. change (4 - 2) with 2. destruct (char_digit c3 N3) as [M3 _].
  set (d3 := ProxyLaneBase64UrlDigitValue c3) in *. set (B := Z.lor (u32 (Z.shiftl bits 6)) d3).
  pose proof (push_digit bits d3 4 ltac:(lia) ltac:(lia) : B mod 2 ^ 10 = _) as P. rewrite Hv in P.
  exists B. rewrite (take_byte B 2 _ ltac:(lia) P), (low_bits B 2 10), P by lia. split; [euclid|].
  repeat f_equal. euclid.
Qed.

Lemma share_fourth c4 encoded bits json v : bits mod 2 ^ 2 = v ->
  let d4 := ProxyLaneBase64UrlDigitValue c4 in
  if d4 <? 0 then share_decode (c4 :: encoded) bits 2 json = None
  else exists B, share_decode (c4 :: encoded) bits 2 json = share_decode encoded B 0 (json ++ [v * 64 + d4]).
Proof.
  intros Hv. cbv zeta. rewrite share_digit. destruct (Z.ltb_spec (ProxyLaneBase64UrlDigitValue c4) 0) as [|N4]; [done|].
  change (8 <=? 2 + 6) with true. cbv iota. change (2 - 2) with 0. destruct (char_digit c4 N4) as [M4 _].
  set (d4 := ProxyLaneBase64UrlDigitValue c4) in *. set (B := Z.lor (u32 (Z.shiftl bits 6)) d4).
  pose proof (push_digit bits d4 2 ltac:(lia) ltac:(lia) : B mod 2 ^ 8 = _) as P. rewrite Hv in P.
  exists B. rewrite (take_byte B 0 _ ltac:(lia) P). by rewrite Z.div_1_r.
Qed.

Lemma share_left bits count json v : 0 <= count < 32 -> bits mod 2 ^ count = v ->
  share_decode [] bits count json = if v =? 0 then Some json else None.
Proof.
  intros Hc <-. cbn [share_decode]. rewrite Z.shiftl_mul_pow2, Z.mul_1_l by lia.
  assert (0 < 2 ^ count < 2 ^ 32) by (split; [lia|apply Z.pow_lt_mono_r; lia]).
  rewrite u32_small by lia. rewrite land_ones_mod by lia.
  destruct (Z.eqb_spec count 0) as [->|]; [by rewrite Z.mod_1_r|]. cbn. by destruct (bits mod 2 ^ count =? 0).
Qed.

(** The check of the bits left over is the check of the last digit. *)
Lemma share_decode_groups encoded : forall bits json, Z.of_nat (length encoded) mod 4 <> 1 ->
  share_decode encoded bits 0 json = (fun d => json ++ d) <$> decode_groups encoded.
Proof.
  induction encoded as [|c1|c1 c2|c1 c2 c3|c1 c2 c3 c4 l IH] using list_ind4; intros bits json Hl; cbn [decode_groups];
    [cbn; by rewrite app_nil_r|done|..].
  - pose proof (share_pair c1 c2 [] bits json) as P. cbv zeta in P. destruct (_ || _) eqn:E in P; [rewrite P, E; done|].
    rewrite E. destruct P as (B & HB & ->). rewrite orb_false_iff in E. destruct E as [E1 E2].
    destruct (char_digit c1) as [M1 _]; [lia|]. destruct (char_digit c2) as [M2 _]; [lia|].
    set (d1 := ProxyLaneBase64UrlDigitValue c1) in *. set (d2 := ProxyLaneBase64UrlDigitValue c2) in *.
    rewrite (share_left B 4 _ _ ltac:(lia) HB), bool_decide_true by done. cbn [orb andb].
    change 15 with (2 ^ 4 - 1). rewrite (land_ones_mod d2 4) by lia. change (2 ^ 4) with 16.
    destruct (octet_bits d1 d2 0 0) as (-> & _); [lia..|]. by destruct (d2 mod 16 =? 0).
  - pose proof (share_pair c1 c2 [c3] bits json) as P. cbv zeta in P. destruct (_ || _) eqn:E in P; [rewrite P, E; done|].
    rewrite E. destruct P as (B & HB & ->). rewrite orb_false_iff in E. destruct E as [E1 E2]. cbn [orb bool_decide].
    pose proof (share_third c3 [] B (json ++ [ProxyLaneBase64UrlDigitValue c1 * 4 + ProxyLaneBase64UrlDigitValue c2 / 16]) _ HB) as P3.
    cbv zeta in P3. destruct (_ <? 0) eqn:E3 in P3; [by rewrite P3, E3|]. rewrite E3. destruct P3 as (B3 & HB3 & ->).
    destruct (char_digit c1) as [M1 _]; [lia|]. destruct (char_digit c2) as [M2 _]; [lia|]. destruct (char_digit c3) as [M3 _]; [lia|].
    rewrite (share_left B3 2 _ _ ltac:(lia) HB3).
    set (d1 := ProxyLaneBase64UrlDigitValue c1) in *. set (d2 := ProxyLaneBase64UrlDigitValue c2) in *. set (d3 := ProxyLaneBase64UrlDigitValue c3) in *.
    cbn [orb andb]. change 3 with (2 ^ 2 - 1). rewrite (land_ones_mod d3 2) by lia. change (2 ^ 2) with 4.
    destruct (octet_bits d1 d2 d3 0) as (-> & -> & _); [lia..|]. destruct (d3 mod 4 =? 0); [|done]. cbn. by rewrite <- app_assoc.
  - pose proof (share_pair c1 c2 (c3 :: c4 :: l) bits json) as P. cbv zeta in P.
    destruct (_ || _) eqn:E in P; [rewrite P, E; done|].
    rewrite E. destruct P as (B & HB & ->). rewrite orb_false_iff in E. destruct E as [E1 E2]. cbn [orb].
    pose proof (share_third c3 (c4 :: l) B (json ++ [ProxyLaneBase64UrlDigitValue c1 * 4 + ProxyLaneBase64UrlDigitValue c2 / 16]) _ HB) as P3.
    cbv zeta in P3. destruct (_ <? 0) eqn:E3 in P3; [by rewrite P3, E3|]. rewrite E3. destruct P3 as (B3 & HB3 & ->). cbn [orb].
    match goal with |- share_decode _ _ 2 ?j = _ => pose proof (share_fourth c4 l B3 j _ HB3) as P4 end.
    cbv zeta in P4. destruct (_ <? 0) eqn:E4 in P4; [by rewrite P4, E4|]. rewrite E4. destruct P4 as (B4 & ->).
    destruct (char_digit c1) as [M1 _]; [lia|]. destruct (char_digit c2) as [M2 _]; [lia|]. destruct (char_digit c3) as [M3 _]; [lia|].
    destruct (char_digit c4) as [M4 _]; [lia|]. rewrite IH.
    2: { cbn [length] in Hl. replace (Z.of_nat (S (S (S (S (length l)))))) with (Z.of_nat (length l) + 1 * 4) in Hl by lia. by rewrite Z.mod_add in Hl by lia. }
    set (d1 := ProxyLaneBase64UrlDigitValue c1) in *. set (d2 := ProxyLaneBase64UrlDigitValue c2) in *.
    set (d3 := ProxyLaneBase64UrlDigitValue c3) in *. set (d4 := ProxyLaneBase64UrlDigitValue c4) in *.
    destruct (octet_bits d1 d2 d3 d4) as (-> & -> & ->); [lia..|]. destruct (decode_groups l); [|done]. cbn. by rewrite <- !app_assoc.
Qed.

(** ** What the rest of the program relies on *)

(** What is written is as long as announced and read back as it was. *)
Theorem base64url_round_trip source size : bytes_ok source ->
  ProxyLaneBase64UrlEncodedLength (Z.of_nat (length source)) < size ->
  exists text, ProxyLaneBase64UrlEncode source size = Some text /\
    Z.of_nat (length text) = ProxyLaneBase64UrlEncodedLength (Z.of_nat (length source)) /\
    ProxyLaneBase64UrlDecodedLength (Z.of_nat (length text)) = Some (Z.of_nat (length source)) /\
    forall capacity, Z.of_nat (length source) <= capacity -> ProxyLaneBase64UrlDecode text capacity = Some source.
Proof.
  intros Hok Hs. exists (encode_groups source). unfold ProxyLaneBase64UrlEncode, ProxyLaneBase64UrlDecode.
  pose proof (decode_encode_groups source Hok) as E. rewrite (decode_groups_length _ _ E), E.
  split_and!; [by destruct (Z.leb_spec size (ProxyLaneBase64UrlEncodedLength (Z.of_nat (length source)))); [lia|]|apply encode_groups_length|done|].
  intros c Hc. destruct (Z.ltb_spec c (Z.of_nat (length source))); [lia|]. cbn. by rewrite Z.eqb_refl.
Qed.

Lemma url_decode_canonical text capacity source : ProxyLaneBase64UrlDecode text capacity = Some source ->
  bytes_ok source /\ encode_groups source = text /\ Z.of_nat (length source) <= capacity.
Proof.
  unfold ProxyLaneBase64UrlDecode. destruct (ProxyLaneBase64UrlDecodedLength _) as [n|] eqn:En; [|done].
  destruct (Z.ltb_spec capacity n); [done|]. destruct (decode_groups text) as [d|] eqn:E; [|done]. cbn.
  destruct (Z.eqb_spec (Z.of_nat (length d)) n); [|done]. intros [= <-]. destruct (encode_decode_groups text d E). split_and!; [done..|lia].
Qed.

Lemma decode_in_groups text capacity : Z.of_nat (length text) <= capacity ->
  ProxyLaneBase64UrlDecode text capacity = decode_groups text.
Proof.
  intros Hc. unfold ProxyLaneBase64UrlDecode. destruct (decode_groups text) as [d|] eqn:E.
  - rewrite (decode_groups_length _ _ E). apply encode_decode_groups in E as [Hok <-].
    pose proof (encode_groups_length d) as El. rewrite El in Hc. unfold ProxyLaneBase64UrlEncodedLength in Hc.
    destruct (Z.ltb_spec capacity (Z.of_nat (length d))); [|cbn; by rewrite Z.eqb_refl].
    exfalso. revert Hc. case_match; euclid.
  - by destruct (ProxyLaneBase64UrlDecodedLength _); [destruct (_ <? _)|].
Qed.

(** Both encoders write the same text; both decoders read the same texts, which
    are those the encoders write, and read them alike.  A code is at most
    [MaxCodeBytes] long, so the limit on the JSON is not the one that is met. *)
Theorem base64url_one_code source text size :
  bytes_ok source -> text <> [] -> ProxyLaneBase64UrlEncodedLength (Z.of_nat (length source)) < size ->
  Z.of_nat (length text) <= size -> Z.of_nat (length text) <= MaxCodeBytes ->
  ProxyLaneBase64UrlEncode source size = Some (Base64Url source) /\
  share_decode_text text = ProxyLaneBase64UrlDecode text size /\
  (share_decode_text text = Some source <-> Base64Url source = text).
Proof.
  intros Hok Ht Hs Hl Hm. unfold Base64Url. rewrite share_encode_groups by done. rewrite decode_in_groups by done.
  assert (E : share_decode_text text = decode_groups text).
  { unfold share_decode_text. rewrite bool_decide_false by done. cbn [orb].
    destruct (Z.eqb_spec (Z.of_nat (length text) mod 4) 1) as [H1|H1].
    - destruct (decode_groups text) as [d|] eqn:E; [|done]. apply decode_groups_length in E.
      unfold ProxyLaneBase64UrlDecodedLength in E. by rewrite H1 in E.
    - rewrite share_decode_groups by done. destruct (decode_groups text) as [d|] eqn:E; [|done]. cbn.
      apply decode_groups_length in E. revert E. unfold ProxyLaneBase64UrlDecodedLength, MaxCodeBytes, MaxJsonBytes in *.
      repeat case_match; try done; intros [= E]; destruct (Z.ltb_spec (192 * 1024) (Z.of_nat (length d))); try done; exfalso; euclid. }
  rewrite E. split_and!; [|done|].
  - unfold ProxyLaneBase64UrlEncode. by destruct (Z.leb_spec size (ProxyLaneBase64UrlEncodedLength (Z.of_nat (length source)))); [lia|].
  - split; [by intros [_ H]%encode_decode_groups|]. intros <-. by apply decode_encode_groups.
Qed.

Lemma base64url_one_code_witness :
  ProxyLaneBase64UrlEncode [255; 0; 62; 7] 7 = Some (Base64Url [255; 0; 62; 7]) /\
  share_decode_text (ascii_bytes "_wA-Bw") = ProxyLaneBase64UrlDecode (ascii_bytes "_wA-Bw") 7 /\
  (share_decode_text (ascii_bytes "_wA-Bw") = Some [255; 0; 62; 7] <-> Base64Url [255; 0; 62; 7] = ascii_bytes "_wA-Bw").
Proof. apply base64url_one_code; [by apply (bool_decide_unpack _)|done|vm_compute; done..]. Defined.
