(* ===== verification/ElevatedLaunch.v ===== *)
(** * Elevated launches (ElevatedLaunchProtocol.h, ElevatedLauncher.cpp, Page3.cpp)

    The application asks an elevated rundll32 to start a program: the request is
    a packed header and four fields in Base64URL on its command line.  The helper
    starts the program suspended, injects the hook and lets it run. *)

From S2P Require Import Prelude ProcessIdentity PipeRecords Base64Url.

Definition PROXYLANE_ELEVATED_REQUEST_MAGIC : Z := 1279609936.
Definition PROXYLANE_ELEVATED_REQUEST_VERSION : Z := 2.
Definition PROXYLANE_ELEVATED_TARGET_CCH : Z := Z.of_nat MAX_PATH + 1024.
Definition PROXYLANE_ELEVATED_COMMAND_CCH : Z := 4096.
Definition PROXYLANE_ELEVATED_DIRECTORY_CCH : Z := Z.of_nat MAX_PATH.
Definition PROXYLANE_ELEVATED_PIPE_CCH : Z := 128.

Inductive ProxyLaneElevatedLaunchExitCode :=
  | ELEVATED_SUCCESS | ELEVATED_INVALID_REQUEST | ELEVATED_NOT_ELEVATED | ELEVATED_INVALID_TARGET
  | ELEVATED_CREATE_FAILED | ELEVATED_INJECTION_FAILED | ELEVATED_RESUME_FAILED | ELEVATED_INTERNAL_ERROR.

Record ProxyLaneElevatedLaunchWireHeader := mkWireHeader {
  magic : Z; version : Z; headerSize : Z; totalSize : Z;
  targetPathBytes : Z; commandLineBytes : Z; workingDirectoryBytes : Z; pipeNameBytes : Z; hdr_flags : Z
}.

Definition header_codec : codec ProxyLaneElevatedLaunchWireHeader :=
  cstruct (cuint 4 ⊗ cuint 2 ⊗ cuint 2 ⊗ cuint 4 ⊗ cuint 4 ⊗ cuint 4 ⊗ cuint 4 ⊗ cuint 4 ⊗ cuint 4)
    (fun '(m, (v, (h, (t, (a, (b, (c, (d, f)))))))) => mkWireHeader m v h t a b c d f)
    (fun h => (magic h, (version h, (headerSize h, (totalSize h, (targetPathBytes h, (commandLineBytes h,
               (workingDirectoryBytes h, (pipeNameBytes h, hdr_flags h)))))))))
    ltac:(by intros []).

Definition sizeof_WireHeader : Z := Z.of_nat (csize header_codec).
Definition PROXYLANE_ELEVATED_MAX_WIRE_BYTES : Z :=
  sizeof_WireHeader + (PROXYLANE_ELEVATED_TARGET_CCH - 1) * 3 + (PROXYLANE_ELEVATED_COMMAND_CCH - 1) * 3
  + (PROXYLANE_ELEVATED_DIRECTORY_CCH - 1) * 3 + (PROXYLANE_ELEVATED_PIPE_CCH - 1).

(** The bytes each field of the view points to. *)
Record ProxyLaneElevatedLaunchRequestView := mkView {
  targetPath : bytes; commandLine : bytes; workingDirectory : bytes; pipeName : bytes
}.

(** PROXYLANE_ASSIGN_WIRE_FIELD: the field and the offset after it. *)
Definition assign_field (data : bytes) (offset headerLength : Z) : option (bytes * Z) :=
  if Z.of_nat (length data) - offset <? headerLength then None
  else Some (take (Z.to_nat headerLength) (drop (Z.to_nat offset) data), offset + headerLength).

Definition header_valid (dataSize : Z) (header : ProxyLaneElevatedLaunchWireHeader) : bool :=
  (magic header =? PROXYLANE_ELEVATED_REQUEST_MAGIC) && (version header =? PROXYLANE_ELEVATED_REQUEST_VERSION)
  && (headerSize header =? sizeof_WireHeader) && (totalSize header =? dataSize) && (hdr_flags header =? 0)
  && negb (targetPathBytes header =? 0) && negb (commandLineBytes header =? 0) && negb (pipeNameBytes header =? 0).

Definition assign_fields (data : bytes) (header : ProxyLaneElevatedLaunchWireHeader) : option ProxyLaneElevatedLaunchRequestView :=
  if negb (header_valid (Z.of_nat (length data)) header) then None
  else
    '(target, offset) ← assign_field data sizeof_WireHeader (targetPathBytes header);
    '(command, offset) ← assign_field data offset (commandLineBytes header);
    '(directory, offset) ← assign_field data offset (workingDirectoryBytes header);
    '(pipe, offset) ← assign_field data offset (pipeNameBytes header);
    if offset =? Z.of_nat (length data) then Some (mkView target command directory pipe) else None.

Definition ProxyLaneParseElevatedRequest (data : bytes) : option ProxyLaneElevatedLaunchRequestView :=
  let dataSize := Z.of_nat (length data) in
  if (dataSize <? sizeof_WireHeader) || (PROXYLANE_ELEVATED_MAX_WIRE_BYTES <? dataSize) then None
  else assign_fields data (dec header_codec (take (csize header_codec) data)).

(** ** What the system does *)

Class ElevatedSystem := {
  WideCharToMultiByte : list Z -> option bytes;     (* CP_UTF8, WC_ERR_INVALID_CHARS *)
  MultiByteToWideChar : bytes -> option (list Z);   (* CP_UTF8, MB_ERR_INVALID_CHARS *)
  IsCurrentProcessElevated : bool;
  IsFile : list Z -> bool;                          (* GetFileAttributes finds it, and no directory *)
  CreateProcess : list Z -> list Z -> list Z -> bool;
  InjectSuspendedProcess : bytes -> bool;
  ResumeThread : bool
}.

(** The documented behaviour of the conversions on strings that are not empty. *)
Class Utf8Laws (H : ElevatedSystem) := {
  utf8_round_trip w b : w <> [] -> WideCharToMultiByte w = Some b -> MultiByteToWideChar b = Some w;
  utf8_length w b : w <> [] -> WideCharToMultiByte w = Some b -> (0 < length b <= 3 * length w)%nat;
  utf8_bytes w b : WideCharToMultiByte w = Some b -> bytes_ok b
}.

Section Launch.
Context `{S : ElevatedSystem}.

(** ** The application's side (LaunchElevatedAndProxy) *)

Inductive AppLaunchResult :=
  | APP_LAUNCH_SUCCESS | APP_LAUNCH_INVALID_TARGET | APP_LAUNCH_CREATE_PROCESS_FAILED | APP_LAUNCH_INJECTION_FAILED
  | APP_LAUNCH_UAC_CANCELLED | APP_LAUNCH_ELEVATED_HELPER_FAILED | APP_LAUNCH_PACKAGED_INJECTION_FAILED
  | APP_LAUNCH_CANCELLED | APP_LAUNCH_SHORTCUT_INVALID | APP_LAUNCH_FORWARDED.

Definition to_utf8 (w : list Z) : option bytes :=
  if bool_decide (w = []) then Some []
  else match WideCharToMultiByte w with Some (c :: b) => Some (c :: b) | _ => None end.

Definition wire_request (target command directory pipe : bytes) : bytes :=
  let wireSize := sizeof_WireHeader + Z.of_nat (length target) + Z.of_nat (length command)
                  + Z.of_nat (length directory) + Z.of_nat (length pipe) in
  enc header_codec (mkWireHeader PROXYLANE_ELEVATED_REQUEST_MAGIC PROXYLANE_ELEVATED_REQUEST_VERSION sizeof_WireHeader
    (u32 wireSize) (u32 (Z.of_nat (length target))) (u32 (Z.of_nat (length command)))
    (u32 (Z.of_nat (length directory))) (u32 (Z.of_nat (length pipe))) 0)
  ++ target ++ command ++ directory ++ pipe.

Definition requestPrefix : bytes := ascii_bytes "--request=".

(** What the helper is given on its command line, after the name of the function;
    [pipe] is the answer of [GetPRCPipeName]. *)
Definition elevated_parameters (target command directory : list Z) (pipe : option bytes) : AppLaunchResult + bytes :=
  if (PROXYLANE_ELEVATED_TARGET_CCH <=? Z.of_nat (length target))
     || (PROXYLANE_ELEVATED_COMMAND_CCH <=? Z.of_nat (length command))
     || (PROXYLANE_ELEVATED_DIRECTORY_CCH <=? Z.of_nat (length directory)) then inl APP_LAUNCH_INVALID_TARGET
  else
    match pipe, to_utf8 target, to_utf8 command, to_utf8 directory with
    | Some pipe, Some target, Some command, Some directory =>
        let wire := wire_request target command directory pipe in
        if PROXYLANE_ELEVATED_MAX_WIRE_BYTES <? Z.of_nat (length wire) then inl APP_LAUNCH_ELEVATED_HELPER_FAILED
        else
          let encodedLength := ProxyLaneBase64UrlEncodedLength (Z.of_nat (length wire)) in
          match ProxyLaneBase64UrlEncode wire (encodedLength + 1) with
          | Some encoded => if Z.of_nat (length encoded) =? encodedLength then inr (requestPrefix ++ encoded)
                            else inl APP_LAUNCH_ELEVATED_HELPER_FAILED
          | None => inl APP_LAUNCH_ELEVATED_HELPER_FAILED
          end
    | _, _, _, _ => inl APP_LAUNCH_ELEVATED_HELPER_FAILED
    end.

Definition helper_result (helperExitCode : ProxyLaneElevatedLaunchExitCode) : AppLaunchResult :=
  match helperExitCode with
  | ELEVATED_SUCCESS => APP_LAUNCH_SUCCESS
  | ELEVATED_INVALID_TARGET => APP_LAUNCH_INVALID_TARGET
  | ELEVATED_INJECTION_FAILED => APP_LAUNCH_INJECTION_FAILED
  | ELEVATED_CREATE_FAILED => APP_LAUNCH_CREATE_PROCESS_FAILED
  | _ => APP_LAUNCH_ELEVATED_HELPER_FAILED
  end.

(** ** The helper's side (ElevatedLaunch) *)

Definition Utf8FieldToWide (source : bytes) (maximumCharacterCount : Z) : option (list Z) :=
  if bool_decide (source = []) then Some []
  else
    match MultiByteToWideChar source with
    | None => None
    | Some w =>
        if bool_decide (w = []) || (maximumCharacterCount <=? Z.of_nat (length w)) then None
        else if existsb (Z.eqb 0) w then None
        else Some w
    end.

Definition absolute (path : list Z) : bool :=
  ((3 <=? Z.of_nat (length path)) && (byte_at path 1 =? 58) && ((byte_at path 2 =? 92) || (byte_at path 2 =? 47)))
  || ((2 <=? Z.of_nat (length path)) && (byte_at path 0 =? 92) && (byte_at path 1 =? 92)).

Definition pipePrefix : bytes := ascii_bytes "\\.\pipe\PRCPipeName".

Definition ValidateDecodedElevatedRequest (target command directory : list Z) (pipe : bytes) : bool :=
  negb (bool_decide (target = [])) && negb (bool_decide (command = [])) && negb (bool_decide (pipe = []))
  && absolute target && (bool_decide (directory = []) || absolute directory)
  && bool_decide (take (length pipePrefix) pipe = pipePrefix).

(** What the helper does. *)
Inductive elevated_action :=
  | ACreate (target command directory : list Z)      (* suspended *)
  | ANotify (target : list Z) (pipe : bytes)
  | AInject (pipe : bytes)
  | AResume
  | ATerminate (code : ProxyLaneElevatedLaunchExitCode).

Fixpoint skip_blanks (s : bytes) : bytes :=
  match s with
  | c :: r => if (c =? 32) || (c =? 9) then skip_blanks r else s
  | [] => []
  end.

Definition decode_fields (target command directory : list Z) (pipe : bytes) : option (list Z * list Z * list Z * bytes) :=
  if bool_decide (pipe = []) || (PROXYLANE_ELEVATED_PIPE_CCH <=? Z.of_nat (length pipe)) then None
  else if existsb (Z.eqb 0) pipe then None
  else if ValidateDecodedElevatedRequest target command directory pipe then Some (target, command, directory, pipe)
  else None.

(** The request on the command line, up to its validation. *)
Definition decode_request (lpCmdLine : bytes) : option (list Z * list Z * list Z * bytes) :=
  let line := skip_blanks (cstr lpCmdLine) in
  if negb (bool_decide (take (length requestPrefix) line = requestPrefix)) then None
  else
    let encoded := drop (length requestPrefix) line in
    match ProxyLaneBase64UrlDecodedLength (Z.of_nat (length encoded)) with
    | None => None
    | Some capacity =>
        if (capacity <? sizeof_WireHeader) || (PROXYLANE_ELEVATED_MAX_WIRE_BYTES <? capacity) then None
        else
          decoded ← ProxyLaneBase64UrlDecode encoded capacity;
          request ← ProxyLaneParseElevatedRequest decoded;
          target ← Utf8FieldToWide (targetPath request) PROXYLANE_ELEVATED_TARGET_CCH;
          command ← Utf8FieldToWide (commandLine request) PROXYLANE_ELEVATED_COMMAND_CCH;
          directory ← Utf8FieldToWide (workingDirectory request) PROXYLANE_ELEVATED_DIRECTORY_CCH;
          decode_fields target command directory (pipeName request)
    end.

Definition launch (target command directory : list Z) (pipe : bytes) : ProxyLaneElevatedLaunchExitCode * list elevated_action :=
  if negb IsCurrentProcessElevated then (ELEVATED_NOT_ELEVATED, [])
  else if negb (IsFile target) then (ELEVATED_INVALID_TARGET, [])
  else if negb (CreateProcess target command directory) then (ELEVATED_CREATE_FAILED, [])
  else
    let started := [ACreate target command directory; ANotify target pipe; AInject pipe] in
    if negb (InjectSuspendedProcess pipe) then
      (ELEVATED_INJECTION_FAILED, started ++ [ATerminate ELEVATED_INJECTION_FAILED])
    else if negb ResumeThread then
      (ELEVATED_RESUME_FAILED, started ++ [ATerminate ELEVATED_RESUME_FAILED])
    else (ELEVATED_SUCCESS, started ++ [AResume]).

Definition ElevatedLaunch (lpCmdLine : bytes) : ProxyLaneElevatedLaunchExitCode * list elevated_action :=
  match decode_request lpCmdLine with
  | None => (ELEVATED_INVALID_REQUEST, [])
  | Some (target, command, directory, pipe) => launch target command directory pipe
  end.
End Launch.

(** ** The request on the wire *)

Lemma assign_field_app pre field post offset n : offset = Z.of_nat (length pre) -> n = Z.of_nat (length field) ->
  assign_field (pre ++ field ++ post) offset n = Some (field, Z.of_nat (length (pre ++ field))).
Proof.
  intros -> ->. unfold assign_field. rewrite !length_app, !Nat2Z.id.
  destruct (Z.ltb_spec (Z.of_nat (length pre + (length field + length post)) - Z.of_nat (length pre)) (Z.of_nat (length field))); [lia|].
  by rewrite drop_app_length, take_app_length, Nat2Z.inj_add.
Qed.

Lemma header_fits m v h t a b c d f :
  0 <= m < 4294967296 -> 0 <= v < 65536 -> 0 <= h < 65536 -> 0 <= t < 4294967296 -> 0 <= a < 4294967296 ->
  0 <= b < 4294967296 -> 0 <= c < 4294967296 -> 0 <= d < 4294967296 -> 0 <= f < 4294967296 ->
  fits header_codec (mkWireHeader m v h t a b c d f).
Proof.
  intros. unfold header_codec. cbn [fits cstruct cpair cuint fst snd magic version headerSize totalSize].
  change (256 ^ Z.of_nat 4) with 4294967296. change (256 ^ Z.of_nat 2) with 65536.
  repeat (split; [assumption|]). assumption.
Qed.

Lemma wire_header_fits t a b c d : fits header_codec (mkWireHeader PROXYLANE_ELEVATED_REQUEST_MAGIC
  PROXYLANE_ELEVATED_REQUEST_VERSION sizeof_WireHeader (u32 t) (u32 a) (u32 b) (u32 c) (u32 d) 0).
Proof. apply header_fits; first [apply u32_range | by vm_compute]. Qed.

Lemma wire_request_length target command directory pipe :
  Z.of_nat (length (wire_request target command directory pipe)) =
  sizeof_WireHeader + Z.of_nat (length target) + Z.of_nat (length command) + Z.of_nat (length directory) + Z.of_nat (length pipe).
Proof.
  unfold wire_request. rewrite !length_app, enc_length by apply wire_header_fits. unfold sizeof_WireHeader. lia.
Qed.

Lemma sizeof_WireHeader_val : sizeof_WireHeader = 32.
Proof. vm_compute. reflexivity. Qed.
Lemma max_wire_val : PROXYLANE_ELEVATED_MAX_WIRE_BYTES = 17070.
Proof. vm_compute. reflexivity. Qed.

Lemma dec_head {A} (c : codec A) a rest : fits c a -> dec c (take (csize c) (enc c a ++ rest)) = a.
Proof. intros H. rewrite <- (enc_length c a H), take_app_length. by apply dec_enc. Qed.

Lemma parse_fields_app pre h target command directory pipe : Z.of_nat (length pre) = sizeof_WireHeader ->
  targetPathBytes h = Z.of_nat (length target) -> commandLineBytes h = Z.of_nat (length command) ->
  workingDirectoryBytes h = Z.of_nat (length directory) -> pipeNameBytes h = Z.of_nat (length pipe) ->
  assign_fields (pre ++ target ++ command ++ directory ++ pipe) h =
  if header_valid (Z.of_nat (length (pre ++ target ++ command ++ directory ++ pipe))) h
  then Some (mkView target command directory pipe) else None.
Proof.
  intros Hs Ht Hc Hd Hp. unfold assign_fields. rewrite Ht, Hc, Hd, Hp. destruct (header_valid _ h); [|done]. cbn [negb].
  rewrite (assign_field_app pre target _ _ _ (eq_sym Hs) eq_refl). cbn [mbind option_bind].
  rewrite (app_assoc _ target), (assign_field_app _ command) by done. cbn [mbind option_bind].
  rewrite (app_assoc _ command), (assign_field_app _ directory) by done. cbn [mbind option_bind].
  rewrite (app_assoc _ directory). rewrite <- (app_nil_r pipe) at 1. rewrite (assign_field_app _ pipe) by done. cbn [mbind option_bind].
  by rewrite Z.eqb_refl.
Qed.

(** What was put on the wire is read from it; without one of the three fields
    that have to be there, nothing is. *)
Lemma parse_wire_request target command directory pipe :
  Z.of_nat (length (wire_request target command directory pipe)) <= PROXYLANE_ELEVATED_MAX_WIRE_BYTES ->
  ProxyLaneParseElevatedRequest (wire_request target command directory pipe) =
  if bool_decide (target = []) || bool_decide (command = []) || bool_decide (pipe = []) then None
  else Some (mkView target command directory pipe).
Proof.
  intros Hmax. pose proof (wire_request_length target command directory pipe) as Hlen.
  unfold ProxyLaneParseElevatedRequest. rewrite (proj2 (Z.ltb_ge _ sizeof_WireHeader)) by lia.
  rewrite (proj2 (Z.ltb_ge PROXYLANE_ELEVATED_MAX_WIRE_BYTES _)) by done. cbn [orb].
  rewrite max_wire_val in Hmax. rewrite sizeof_WireHeader_val in Hlen.
  unfold wire_request at 2. rewrite dec_head by apply wire_header_fits. unfold wire_request in *.
  rewrite (parse_fields_app _ _ target command directory pipe).
  2: { rewrite enc_length by apply wire_header_fits. reflexivity. }
  2-5: cbn [targetPathBytes commandLineBytes workingDirectoryBytes pipeNameBytes]; apply u32_small; lia.
  rewrite Hlen. unfold header_valid.
  cbn [magic version headerSize totalSize targetPathBytes commandLineBytes workingDirectoryBytes pipeNameBytes hdr_flags].
  rewrite !u32_small, sizeof_WireHeader_val, !Z.eqb_refl by (rewrite ?sizeof_WireHeader_val; lia).
  by destruct target, command, pipe.
Qed.

(** ** From the application to the helper *)

Lemma existsb_no_nul l : existsb (Z.eqb 0) l = false <-> no_nul l.
Proof.
  unfold no_nul. induction l as [|x l IH]; [by split|]. rewrite Forall_cons, <- IH. cbn [existsb].
  rewrite orb_false_iff, Z.eqb_neq. split; intros [H1 H2]; split; congruence.
Qed.

(** Layouts that write bytes only, and that determine their memory. *)
Definition writes_bytes {A} (c : codec A) : Prop := forall a, bytes_ok (enc c a).
Definition exact {A} (c : codec A) : Prop := forall l, bytes_ok l -> length l = csize c -> enc c (dec c l) = l.

Lemma cuint_bytes n : writes_bytes (cuint n).
Proof. intros z. apply le_split_ok. Qed.
Lemma cpair_bytes {A B} (a : codec A) (b : codec B) : writes_bytes a -> writes_bytes b -> writes_bytes (cpair a b).
Proof. intros Ha Hb [x y]. apply Forall_app. split; [apply Ha|apply Hb]. Qed.
Lemma cstruct_bytes {A B} (c : codec A) (f : A -> B) g H : writes_bytes c -> writes_bytes (cstruct c f g H).
Proof. intros Hc b. apply Hc. Qed.

Lemma cuint_exact n : exact (cuint n).
Proof.
  intros l Hl En. cbn [enc dec cuint]. cbn [csize cuint] in En. rewrite take_ge by lia. subst n. by apply le_split_join.
Qed.
Lemma cpair_exact {A B} (a : codec A) (b : codec B) : exact a -> exact b -> exact (cpair a b).
Proof.
  intros Ha Hb l Hl En. cbn [csize cpair] in En. cbn [enc dec cpair fst snd]. rewrite Ha, Hb; [apply take_drop|..].
  - by apply Forall_drop.
  - rewrite length_drop. lia.
  - by apply Forall_take.
  - rewrite length_take. lia.
Qed.
Lemma cstruct_exact {A B} (c : codec A) (f : A -> B) g H : (forall a, g (f a) = a) -> exact c -> exact (cstruct c f g H).
Proof. intros Hg Hc l Hl En. cbn [enc dec cstruct]. rewrite Hg. by apply Hc. Qed.

(** Layouts whose every memory is a value that fits. *)
Definition sound {A} (c : codec A) : Prop := forall l, bytes_ok l -> length l = csize c -> fits c (dec c l).

Lemma cuint_sound n : sound (cuint n).
Proof.
  intros l Hl En. cbn [fits dec cuint]. cbn [csize cuint] in En. rewrite take_ge by lia. subst n. by apply le_join_range.
Qed.
Lemma cpair_sound {A B} (a : codec A) (b : codec B) : sound a -> sound b -> sound (cpair a b).
Proof.
  intros Ha Hb l Hl En. cbn [csize cpair] in En. split; cbn [dec cpair fst snd]; [apply Ha|apply Hb].
  - by apply Forall_take.
  - rewrite length_take. lia.
  - by apply Forall_drop.
  - rewrite length_drop. lia.
Qed.
Lemma cstruct_sound {A B} (c : codec A) (f : A -> B) g H : (forall a, g (f a) = a) -> sound c -> sound (cstruct c f g H).
Proof. intros Hg Hc l Hl En. cbn [fits dec cstruct]. rewrite Hg. by apply Hc. Qed.

#[local] Hint Resolve cuint_bytes cpair_bytes cuint_exact cpair_exact cuint_sound cpair_sound : core.

Lemma header_bytes : writes_bytes header_codec.
Proof. apply cstruct_bytes. auto 10. Qed.
Lemma header_exact : exact header_codec.
Proof. apply cstruct_exact; [by intros (? & ? & ? & ? & ? & ? & ? & ? & ?)|]. auto 10. Qed.
Lemma header_sound : sound header_codec.
Proof. apply cstruct_sound; [by intros (? & ? & ? & ? & ? & ? & ? & ? & ?)|]. auto 10. Qed.

Lemma fits_ranges h : fits header_codec h ->
  0 <= targetPathBytes h < 4294967296 /\ 0 <= commandLineBytes h < 4294967296 /\
  0 <= workingDirectoryBytes h < 4294967296 /\ 0 <= pipeNameBytes h < 4294967296.
Proof.
  unfold header_codec. cbn [fits cstruct cpair cuint fst snd]. change (256 ^ Z.of_nat 4) with 4294967296.
  intros (_ & _ & _ & _ & Ha & Hb & Hc & Hd & _). repeat (split; [assumption|]). assumption.
Qed.

Lemma wire_request_ok target command directory pipe :
  bytes_ok target -> bytes_ok command -> bytes_ok directory -> bytes_ok pipe -> bytes_ok (wire_request target command directory pipe).
Proof. intros. unfold wire_request, bytes_ok. rewrite !Forall_app. split_and!; [apply header_bytes|done..]. Qed.

Section Arrives.
Context `{S : ElevatedSystem} `{!Utf8Laws S}.

Lemma to_utf8_spec w b max : to_utf8 w = Some b -> no_nul w -> Z.of_nat (length w) < max ->
  Utf8FieldToWide b max = Some w /\ (length b <= 3 * length w)%nat /\ bytes_ok b /\ (b = [] <-> w = []).
Proof.
  unfold to_utf8, Utf8FieldToWide. intros Hb Hn Hl. destruct (decide (w = [])) as [->|Hw].
  - simplify_eq/=. split_and!; [done|lia|constructor|done].
  - rewrite bool_decide_false in Hb by done. destruct (WideCharToMultiByte w) as [[|c b']|] eqn:E; try done. injection Hb as <-.
    rewrite bool_decide_false by done. rewrite (utf8_round_trip w _ Hw E), bool_decide_false by done.
    rewrite (proj2 (Z.leb_gt _ _)) by done. rewrite (proj2 (existsb_no_nul w) Hn).
    pose proof (utf8_length w _ Hw E). split_and!; [done|lia|by eapply utf8_bytes|done].
Qed.

Lemma decode_request_line source : bytes_ok source ->
  decode_request (requestPrefix ++ encode_groups source) =
  if (Z.of_nat (length source) <? sizeof_WireHeader) || (PROXYLANE_ELEVATED_MAX_WIRE_BYTES <? Z.of_nat (length source)) then None
  else
    request ← ProxyLaneParseElevatedRequest source;
    target ← Utf8FieldToWide (targetPath request) PROXYLANE_ELEVATED_TARGET_CCH;
    command ← Utf8FieldToWide (commandLine request) PROXYLANE_ELEVATED_COMMAND_CCH;
    directory ← Utf8FieldToWide (workingDirectory request) PROXYLANE_ELEVATED_DIRECTORY_CCH;
    decode_fields target command directory (pipeName request).
Proof.
  intros Hok. unfold decode_request. rewrite cstr_id.
  2: { apply Forall_app. split; [by apply (bool_decide_unpack _)|by apply encode_groups_no_nul]. }
  change (skip_blanks (requestPrefix ++ encode_groups source)) with (requestPrefix ++ encode_groups source).
  rewrite take_app_length, drop_app_length, bool_decide_true by done. cbn [negb].
  pose proof (decode_encode_groups source Hok) as E. rewrite (decode_groups_length _ _ E).
  destruct (_ || _); [done|]. unfold ProxyLaneBase64UrlDecode. rewrite (decode_groups_length _ _ E), E, Z.ltb_irrefl.
  cbn [mbind option_bind]. by rewrite Z.eqb_refl.
Qed.

(** *** The other way *)

Lemma assign_field_some data offset n field offset' : 0 <= offset -> 0 <= n -> assign_field data offset n = Some (field, offset') ->
  drop (Z.to_nat offset) data = field ++ drop (Z.to_nat offset') data /\ Z.of_nat (length field) = n /\ offset' = offset + n.
Proof.
  unfold assign_field. intros Ho Hn. destruct (Z.ltb_spec (Z.of_nat (length data) - offset) n); [done|]. intros [= <- <-].
  split_and!; [|rewrite length_take, length_drop; lia|done].
  rewrite Z2Nat.inj_add, <- drop_drop by done. by rewrite take_drop.
Qed.

Lemma parse_inv data view : bytes_ok data -> ProxyLaneParseElevatedRequest data = Some view ->
  data = wire_request (targetPath view) (commandLine view) (workingDirectory view) (pipeName view).
Proof.
  intros Hok. unfold ProxyLaneParseElevatedRequest. destruct (Z.ltb_spec (Z.of_nat (length data)) sizeof_WireHeader) as [|Hs]; [done|].
  destruct (Z.ltb_spec PROXYLANE_ELEVATED_MAX_WIRE_BYTES (Z.of_nat (length data))) as [|Hm]; [done|]. cbn [orb].
  assert (Hk : length (take (csize header_codec) data) = csize header_codec)
    by (rewrite length_take; unfold sizeof_WireHeader in Hs; lia).
  assert (Ho : bytes_ok (take (csize header_codec) data)) by by apply Forall_take.
  pose proof (header_exact _ Ho Hk) as He. pose proof (fits_ranges _ (header_sound _ Ho Hk)) as (R1 & R2 & R3 & R4).
  set (h := dec header_codec _) in *. clearbody h. unfold assign_fields. destruct (header_valid _ h) eqn:Hv; [|done]. cbn [negb].
  destruct (assign_field data sizeof_WireHeader _) as [[t o1]|] eqn:A1; [|done]. cbn [mbind option_bind].
  destruct (assign_field data o1 _) as [[c o2]|] eqn:A2; [|done]. cbn [mbind option_bind].
  destruct (assign_field data o2 _) as [[d o3]|] eqn:A3; [|done]. cbn [mbind option_bind].
  destruct (assign_field data o3 _) as [[p o4]|] eqn:A4; [|done]. cbn [mbind option_bind].
  destruct (Z.eqb_spec o4 (Z.of_nat (length data))) as [E4|]; [|done]. intros [= <-].
  pose proof sizeof_WireHeader_val as Hsz. rewrite max_wire_val in Hm.
  apply assign_field_some in A1 as (D1 & L1 & ->); [|lia..]. apply assign_field_some in A2 as (D2 & L2 & ->); [|lia..].
  apply assign_field_some in A3 as (D3 & L3 & ->); [|lia..]. apply assign_field_some in A4 as (D4 & L4 & E5); [|lia..].
  cbn [targetPath commandLine workingDirectory pipeName].
  assert (Hd : data = take (csize header_codec) data ++ t ++ c ++ d ++ p).
  { rewrite <- (take_drop (csize header_codec) data) at 1. f_equal.
    replace (csize header_codec) with (Z.to_nat sizeof_WireHeader) by (unfold sizeof_WireHeader; lia).
    rewrite D1, D2, D3, D4, E4, Nat2Z.id, drop_all. by rewrite app_nil_r. }
  rewrite Hd at 1. unfold wire_request. f_equal. rewrite <- He. f_equal.
  unfold header_valid in Hv. rewrite !andb_true_iff, !Z.eqb_eq in Hv. destruct Hv as (((((((M & V) & Z1) & T) & F) & _) & _) & _).
  rewrite L1, L2, L3, L4. rewrite !u32_small by lia. destruct h; cbn in *. subst. f_equal. lia.
Qed.

Lemma decode_request_inv line target command directory pipe :
  decode_request line = Some (target, command, directory, pipe) ->
  exists view, skip_blanks (cstr line) = requestPrefix ++ encode_groups
      (wire_request (targetPath view) (commandLine view) (workingDirectory view) (pipeName view)) /\
    Utf8FieldToWide (targetPath view) PROXYLANE_ELEVATED_TARGET_CCH = Some target /\
    Utf8FieldToWide (commandLine view) PROXYLANE_ELEVATED_COMMAND_CCH = Some command /\
    Utf8FieldToWide (workingDirectory view) PROXYLANE_ELEVATED_DIRECTORY_CCH = Some directory /\
    pipeName view = pipe /\ ValidateDecodedElevatedRequest target command directory pipe = true.
Proof.
  unfold decode_request. destruct (bool_decide _) eqn:Hp; [|done]. apply bool_decide_eq_true in Hp. cbn [negb].
  destruct (ProxyLaneBase64UrlDecodedLength _) as [n|]; [|done]. destruct (_ || _); [done|].
  destruct (ProxyLaneBase64UrlDecode _ n) as [data|] eqn:D; [|done]. cbn [mbind option_bind].
  apply url_decode_canonical in D as (Hok & Hdata & _).
  destruct (ProxyLaneParseElevatedRequest data) as [view|] eqn:P; [|done]. cbn [mbind option_bind].
  destruct (Utf8FieldToWide (targetPath view) _) as [t|] eqn:E1; [|done]. cbn [mbind option_bind].
  destruct (Utf8FieldToWide (commandLine view) _) as [c|] eqn:E2; [|done]. cbn [mbind option_bind].
  destruct (Utf8FieldToWide (workingDirectory view) _) as [d|] eqn:E3; [|done]. cbn [mbind option_bind].
  unfold decode_fields. destruct (_ || _); [done|]. destruct (existsb _ _); [done|].
  destruct (ValidateDecodedElevatedRequest t c d (pipeName view)) eqn:V; [|done]. intros [= <- <- <- <-].
  exists view. split_and!; try done. rewrite <- (parse_inv data view) by done. rewrite Hdata. symmetry.
  rewrite <- Hp at 1. apply take_drop.
Qed.

(** A request the application can put into UTF-8 fits the wire, and the helper
    launches exactly it, if it passes the helper's validation. *)
Theorem elevated_request_arrives target command directory pipe t c d :
  to_utf8 target = Some t -> to_utf8 command = Some c -> to_utf8 directory = Some d ->
  no_nul target -> no_nul command -> no_nul directory ->
  Z.of_nat (length target) < PROXYLANE_ELEVATED_TARGET_CCH -> Z.of_nat (length command) < PROXYLANE_ELEVATED_COMMAND_CCH ->
  Z.of_nat (length directory) < PROXYLANE_ELEVATED_DIRECTORY_CCH ->
  bytes_ok pipe -> no_nul pipe -> Z.of_nat (length pipe) < PROXYLANE_ELEVATED_PIPE_CCH ->
  exists line, elevated_parameters target command directory (Some pipe) = inr line /\
    ElevatedLaunch line = if ValidateDecodedElevatedRequest target command directory pipe
                          then launch target command directory pipe else (ELEVATED_INVALID_REQUEST, []).
Proof.
  intros Ht Hc Hd Nt Nc Nd Lt Lc Ld Hp Np Lp.
  destruct (to_utf8_spec target t _ Ht Nt Lt) as (Wt & Bt & Ot & Et). destruct (to_utf8_spec command c _ Hc Nc Lc) as (Wc & Bc & Oc & Ec).
  destruct (to_utf8_spec directory d _ Hd Nd Ld) as (Wd & Bd & Od & _).
  pose proof (wire_request_length t c d pipe) as Hlen. pose proof (wire_request_ok t c d pipe Ot Oc Od Hp) as Hok.
  assert (Hmax : Z.of_nat (length (wire_request t c d pipe)) <= PROXYLANE_ELEVATED_MAX_WIRE_BYTES)
    by (rewrite Hlen; unfold PROXYLANE_ELEVATED_MAX_WIRE_BYTES; lia).
  exists (requestPrefix ++ encode_groups (wire_request t c d pipe)). split.
  - unfold elevated_parameters. rewrite !(proj2 (Z.leb_gt _ _)) by done. cbn [orb]. rewrite Ht, Hc, Hd.
    rewrite (proj2 (Z.ltb_ge _ _)) by done. unfold ProxyLaneBase64UrlEncode. rewrite (proj2 (Z.leb_gt _ _)) by lia.
    by rewrite encode_groups_length, Z.eqb_refl.
  - unfold ElevatedLaunch. rewrite decode_request_line by done. rewrite (proj2 (Z.ltb_ge _ sizeof_WireHeader)) by lia.
    rewrite (proj2 (Z.ltb_ge PROXYLANE_ELEVATED_MAX_WIRE_BYTES _)) by done. cbn [orb]. rewrite parse_wire_request by done.
    rewrite (bool_decide_ext _ _ Et), (bool_decide_ext _ _ Ec). unfold ValidateDecodedElevatedRequest at 1.
    destruct (bool_decide (target = [])) eqn:E1; [done|]. destruct (bool_decide (command = [])) eqn:E2; [done|].
    destruct (bool_decide (pipe = [])) eqn:E3; [done|]. cbn [orb mbind option_bind targetPath commandLine workingDirectory pipeName].
    rewrite Wt, Wc, Wd. cbn [mbind option_bind]. unfold decode_fields. rewrite E3, (proj2 (Z.leb_gt _ _)) by done. cbn [orb].
    rewrite (proj2 (existsb_no_nul pipe) Np). unfold ValidateDecodedElevatedRequest. rewrite E1, E2, E3. by destruct (_ && _).
Qed.

(** The helper creates a process only for the one spelling of a request that
    passes validation, elevated; it lets it run only with the hook in it, and
    otherwise ends it. *)
Theorem elevated_fails_closed line :
  let '(code, actions) := ElevatedLaunch line in
  (actions = [] /\ code <> ELEVATED_SUCCESS) \/
  exists view target command directory,
    skip_blanks (cstr line) = requestPrefix ++ encode_groups
      (wire_request (targetPath view) (commandLine view) (workingDirectory view) (pipeName view)) /\
    Utf8FieldToWide (targetPath view) PROXYLANE_ELEVATED_TARGET_CCH = Some target /\
    Utf8FieldToWide (commandLine view) PROXYLANE_ELEVATED_COMMAND_CCH = Some command /\
    Utf8FieldToWide (workingDirectory view) PROXYLANE_ELEVATED_DIRECTORY_CCH = Some directory /\
    ValidateDecodedElevatedRequest target command directory (pipeName view) = true /\
    IsCurrentProcessElevated = true /\ IsFile target = true /\
    exists last, actions = [ACreate target command directory; ANotify target (pipeName view); AInject (pipeName view); last] /\
      if InjectSuspendedProcess (pipeName view) && ResumeThread
      then code = ELEVATED_SUCCESS /\ last = AResume
      else code <> ELEVATED_SUCCESS /\ last = ATerminate code.
Proof.
  unfold ElevatedLaunch. destruct (decode_request line) as [[[[target command] directory] pipe]|] eqn:E; [|by left].
  apply decode_request_inv in E as (view & E1 & E2 & E3 & E4 & <- & E5). unfold launch.
  destruct IsCurrentProcessElevated eqn:H1; [|by left]. destruct (IsFile target) eqn:H2; [|by left].
  destruct (CreateProcess target command directory) eqn:H3; [|by left]. cbn [negb].
  destruct (InjectSuspendedProcess (pipeName view)) eqn:H4; destruct ResumeThread eqn:H5; cbn [negb andb];
    right; exists view, target, command, directory; split_and!; try done; eexists; split; try reflexivity; rewrite ?H4; done.
Qed.
End Arrives.

(** A system whose strings are ASCII. *)
#[local] Instance ascii_system : ElevatedSystem := {|
  WideCharToMultiByte w := if forallb (fun c => (0 <=? c) && (c <? 128)) w then Some w else None;
  MultiByteToWideChar b := Some b;
  IsCurrentProcessElevated := true; IsFile _ := true; CreateProcess _ _ _ := true;
  InjectSuspendedProcess _ := true; ResumeThread := true |}.

#[local] Instance ascii_laws : Utf8Laws ascii_system.
Proof.
  split; cbn; intros w b.
  - intros _ H. case_match; by simplify_eq.
  - intros Hw H. case_match; simplify_eq. destruct b; [done|]. cbn. lia.
  - intros H. destruct (forallb _ w) eqn:E; simplify_eq. apply Forall_forall. intros x Hx. rewrite forallb_forall in E.
    specialize (E x). rewrite <- list_elem_of_In in E. specialize (E Hx). unfold byte_ok. lia.
Qed.

Lemma elevated_request_arrives_witness :
  let target := ascii_bytes "C:\app.exe" in let command := ascii_bytes "app.exe -x" in
  let pipe := pipePrefix ++ ascii_bytes "7" in
  exists line, elevated_parameters target command [] (Some pipe) = inr line /\
    ElevatedLaunch line = if ValidateDecodedElevatedRequest target command [] pipe
                          then launch target command [] pipe else (ELEVATED_INVALID_REQUEST, []).
Proof.
  intros target command pipe.
  apply (elevated_request_arrives target command [] pipe target command []);
    first [reflexivity | by apply (bool_decide_unpack _) | by vm_compute].
Defined.
