(* ===== verification/PipeServer.v ===== *)
(** * The pipe server (PRCPipeServer.cpp, _InstanceThread)

    One thread serves one connection: it reads a header, then what the action
    calls for, acts on the host and replies; any irregularity drops the
    connection.  [serve] is one turn of its loop.  The host is the reception
    centre with its registries; what the system and the application answer
    during a turn is the record [Answers]. *)

From S2P Require Import Prelude Winsock SockAddr ProcessIdentity ProcessRegistry.
From S2P Require Import ReceptionCentre AppLauncher PipeRecords QuicReports.

Definition ERROR_ACCESS_DENIED : Z := 5.

(** What the other parts of the program are told. *)
Inductive HostEvent :=
  | ProcessCreated (n : HookProcessCreationNotice) (launcher : bool)
  | ChildNotAuthorized (pid error : Z)
  | InjectionResult (c : HookNewProcessInfo) (succeeded : bool)
  | HookWsock (r : HookWSockResult)
  | Blocked (udp : bool) (pid socketType : Z) (destination : _SockAddr) (domain : bytes) (process : list Z)
  | HookText (pid : Z) (text : list Z)
  | OutOfBounds.                          (* a store outside an allocation *)

(** ** The authorisation of an AppContainer child *)

Record ProcessBasicInfo := mkBasicInfo { bi_id : Z; bi_parent : Z }.

(** What the system answers of the child: an error instead of a handle; the
    package SID or an error; its creation time; its basic information; the
    result of the grant. *)
Record ChildAnswers := mkChildAnswers {
  ca_open : option Z;
  ca_sid : bytes + Z;
  ca_created : option Z;
  ca_info : option ProcessBasicInfo;
  ca_grant : option Z                     (* the error when it fails *)
}.

(** The result and the error it leaves. *)
Definition AuthorizeAppContainerChild (q : ChildAnswers) (c : HookNewProcessInfo)
    (pipeClientPid : Z) : bool * Z :=
  match ca_open q with
  | Some error => (error =? ERROR_ACCESS_DENIED, error)
  | None =>
      match ca_sid q with
      | inr error => if error =? ERROR_ACCESS_DENIED then (true, error) else (false, error)
      | inl [] => (true, 0)
      | inl _ =>
          let creation := default 0 (ca_created q) in
          let bound :=
            match ca_info q with
            | Some info => (bi_id info =? np_processId c) && (bi_parent info =? pipeClientPid)
            | None => false
            end in
          if (pipeClientPid =? 0) || (np_createTime c =? 0) || negb (creation =? np_createTime c)
             || negb bound
          then (false, ERROR_ACCESS_DENIED)
          else match ca_grant q with None => (true, 0) | Some error => (false, error) end
      end
  end.

(** ** The host *)

Section Server.
Context {U : Type}.
Variable udp_OnRegister : PRCClient -> U -> (bool * PRCClient * Z) * U.
Variable udp_OnUnregister : PRCClient -> U -> Z * U.
Variable udp_GetUDPPortState : UDPLocalProxyAddrInfo -> U -> Z.

Record Host := mkHost {
  h_centre : Centre U;
  h_registry : Records;
  h_released : gmap Z Z;                 (* m_ReleasedChildren *)
  h_launches : History;
  h_reports : Reports;
  h_events : list HostEvent
}.

Definition with_centre (c : Centre U) (h : Host) : Host :=
  mkHost c (h_registry h) (h_released h) (h_launches h) (h_reports h) (h_events h).
Definition with_registry (r : Records) (h : Host) : Host :=
  mkHost (h_centre h) r (h_released h) (h_launches h) (h_reports h) (h_events h).
Definition with_released (r : gmap Z Z) (h : Host) : Host :=
  mkHost (h_centre h) (h_registry h) r (h_launches h) (h_reports h) (h_events h).
Definition with_launches (l : History) (h : Host) : Host :=
  mkHost (h_centre h) (h_registry h) (h_released h) l (h_reports h) (h_events h).
Definition with_reports (r : Reports) (h : Host) : Host :=
  mkHost (h_centre h) (h_registry h) (h_released h) (h_launches h) r (h_events h).
Definition tell (e : HostEvent) (h : Host) : Host :=
  mkHost (h_centre h) (h_registry h) (h_released h) (h_launches h) (h_reports h) (h_events h ++ [e]).

(** The outside during one turn. *)
Record Answers := mkAnswers {
  an_created_at : Z -> option Z;                        (* QueryProcessCreateTime *)
  an_tick : Z;
  an_route : option (_SockAddr -> Z);
  an_proxy : PRCClient -> option ProxyInfo;             (* the settings' GetProxyInfo *)
  an_settings : option ProxySettingsInfo;               (* the settings' GetProxySettings *)
  an_startup : option PRCINFO;                          (* GetStartupInfo *)
  an_preference : bool;                                 (* BrowserQuicPolicy::Preference *)
  an_launcher : AppLauncherHostInfo;
  an_last_error : Z;                                    (* the thread's last error *)
  an_now : Z;
  an_same_user : bool;                                  (* SameLaunchUser *)
  an_launch : LaunchOutcome;
  an_inject : HookNewProcessInfo -> bool;               (* ShouldInjectNewProcess *)
  an_child : ChildAnswers
}.

(** This process as launches name it, the centre as an owner of reports, and
    the client process of the connection, 0 when the system cannot tell. *)
Context (hostPid hostCreationTime owner pipeClientPid : Z).
Variable q : Answers.

Abbreviation turn := (proc (bool * Host)).

Definition SEC_ERROR (h : Host) : turn := Ret (false, h).
Definition next (h : Host) : turn := Ret (true, h).

(** The client names itself. *)
Definition names_itself (pid : Z) : bool := (pipeClientPid =? 0) || (pid =? pipeClientPid).

(** The header says the size of the record that follows. *)
Definition receive {A} (hdr : PipeHead) (c : codec A) (h : Host) (k : A -> turn) : turn :=
  if negb (dataSize hdr =? Z.of_nat (csize c)) then SEC_ERROR h
  else r ← read_record c;
       match r with None => SEC_ERROR h | Some a => k a end.

(** A header and then the parts, each one message. *)
Fixpoint write_parts (parts : list bytes) (h : Host) : turn :=
  match parts with
  | [] => next h
  | m :: rest => ok ← WritePipe m; if ok : bool then write_parts rest h else SEC_ERROR h
  end.
Definition reply (flag : Z) (size : Z) (parts : list bytes) (h : Host) : turn :=
  write_parts (enc head_codec (mkHead PRCPD_REPLY flag size) :: parts) h.

Definition flag_of (b : bool) : Z := if b then 1 else 0.
Definition size_of {A} (c : codec A) : Z := Z.of_nat (csize c).

Definition on_QUIC_STATUS (hdr : PipeHead) (h : Host) : turn :=
  if (pipeClientPid =? 0) || negb (flag hdr =? 1) then SEC_ERROR h
  else receive hdr report_codec h (fun r =>
    reply 1 0 [] (with_reports (Observe (an_tick q) owner pipeClientPid (rp_birth r) (rp_status r) (h_reports h)) h)).

Definition quic_policy : Z :=
  match an_settings q with
  | Some s => flag_of (an_preference q && bHookUDP s && negb (bBlockUDP s))
  | None => 0
  end.

Definition on_GETSTARTUPINFO (hdr : PipeHead) (h : Host) : turn :=
  let launcherExtended := flag hdr =? 3 in
  let extended := (flag hdr =? 2) || launcherExtended in
  match an_startup q with
  | None => SEC_ERROR h
  | Some info =>
      reply 1 (size_of prcinfo_codec + (if extended then 4 else 0)
               + (if launcherExtended then size_of hostinfo_codec else 0))
        ([enc prcinfo_codec info] ++ (if extended then [le_split 4 quic_policy] else [])
         ++ (if launcherExtended then [enc hostinfo_codec (an_launcher q)] else [])) h
  end.

Definition registration_error (r : Reply) : Z :=
  let error := default (an_last_error q) (rp_error r) in if error =? 0 then WSAEFAULT else error.

Definition on_REGISTERCLIENT (hdr : PipeHead) (h : Host) : turn :=
  receive hdr client_codec h (fun m =>
    let client := cm_client m in
    if negb (names_itself (dwPid client)) then SEC_ERROR h
    else
      let h :=
        if (sType client =? SOCK_DGRAM) && negb (pipeClientPid =? 0)
        then with_reports (Observe (an_tick q) owner pipeClientPid (processCreateTime client)
                             (cm_reserved m) (h_reports h)) h
        else h in
      let '(r, centre) := RegisterClient udp_OnRegister (an_created_at q (dwPid client)) (an_tick q)
                            (an_route q) (an_proxy q client) client (h_centre h) in
      let h := with_centre centre h in
      if negb (rp_ok r) then reply 0 4 [le_split 4 (registration_error r)] h
      else if sType client =? SOCK_DGRAM
      then reply 1 (size_of client_codec)
             [enc client_codec (mkClientMessage (rp_client r) (dwTid m) (sAccept m) (cm_reserved m))] h
      else reply 1 0 [] h).

Definition on_UNREGISTER_CLIENT (hdr : PipeHead) (h : Host) : turn :=
  receive hdr client_codec h (fun m =>
    let client := cm_client m in
    if negb (names_itself (dwPid client)) then SEC_ERROR h
    else
      let '(r, centre) := UnregisterClient udp_OnUnregister client (h_centre h) in
      let h := with_centre centre h in
      if r =? 0 then SEC_ERROR h else reply 1 0 [] h).

(** [IsFiltered] is FALSE for every client. *)
Definition IsFiltered (i : PRCClientInfo) : bool := false.

Definition on_CANPROXYME (hdr : PipeHead) (h : Host) : turn :=
  receive hdr clientinfo_codec h (fun i =>
    if negb (names_itself (ci_pid i)) then SEC_ERROR h
    else reply (flag_of (negb (IsFiltered i))) 0 [] h).

Definition on_GET_SETTINGS_INFO (h : Host) : turn :=
  match an_settings q with
  | Some psi => reply 1 (size_of settings_codec) [enc settings_codec psi] h
  | None => reply 0 0 [] h
  end.

Definition on_LAUNCH_PACKAGED_APP (hdr : PipeHead) (h : Host) : turn :=
  receive hdr request_codec h (fun r =>
    let '(result, launches) :=
      HandleAppLaunch hostPid hostCreationTime (an_now q) (an_same_user q) (an_launch q) r (h_launches h) in
    reply 1 (size_of result_codec) [enc result_codec result] (with_launches launches h)).

(** The arrays are terminated in place. *)
Definition terminated (n : HookProcessCreationNotice) : HookProcessCreationNotice :=
  let c := child n in
  mkNotice (mkNewProcess (take 259 (np_appPath c)) (take 259 (np_commandLine c))
              (np_processId c) (np_threadId c) (np_createTime c))
    (mkSender (sn_processId (parent n)) (sn_createTime (parent n)) (take 259 (sn_appPath (parent n)))).

Definition on_SHOULD_INJECT_NEW_PROCESS (hdr : PipeHead) (h : Host) : turn :=
  receive hdr notice_codec h (fun notice =>
    let recordOnly := flag hdr =? 1 in
    let notice := terminated notice in
    let h := tell (ProcessCreated notice recordOnly) h in
    let inject := recordOnly || an_inject q (child notice) in
    if negb recordOnly && inject then
      let '(ok, error) := AuthorizeAppContainerChild (an_child q) (child notice) pipeClientPid in
      if ok then reply 1 0 [] h
      else reply 0 0 [] (tell (ChildNotAuthorized (np_processId (child notice)) error) h)
    else reply (flag_of inject) 0 [] h).

Definition on_CHILD_INJECTION_RESULT (hdr : PipeHead) (h : Host) : turn :=
  receive hdr newprocess_codec h (fun c => next (tell (InjectionResult c (negb (flag hdr =? 0))) h)).

Definition on_REGISTER_PROCESS_IDENTITY (hdr : PipeHead) (h : Host) : turn :=
  receive hdr identity_codec h (fun i =>
    if negb (names_itself (dwProcessId i)) then SEC_ERROR h
    else
      let i := set_szAppPath (take 259 (szAppPath i)) i in
      next (with_registry (snd (RegisterProcessIdentity (an_created_at q (dwProcessId i)) (Some i)
                                  (h_registry h))) h)).

(** [RegisterReleasedChild] *)
Definition register_released (c : HookNewProcessInfo) (released : gmap Z Z) : gmap Z Z :=
  if (np_processId c =? 0) || (np_createTime c =? 0)
     || stale (an_created_at q (np_processId c)) (np_createTime c)
  then released else <[np_processId c := np_createTime c]> released.

Definition on_CHILD_RELEASED (hdr : PipeHead) (h : Host) : turn :=
  receive hdr newprocess_codec h (fun c => next (with_released (register_released c (h_released h)) h)).

Definition on_GET_CLIENT_UDPPORT_STATE (hdr : PipeHead) (h : Host) : turn :=
  receive hdr udpport_codec h (fun i =>
    reply (u8 (udp_GetUDPPortState i (m_pUdpServer (h_centre h)))) 0 [] h).

(** The key of a secured proxy stays in this process. *)
Definition without_psk (p : ProxyInfo) : ProxyInfo :=
  mkProxyInfo (szItemName p) (strProxyType p) (strProxyHost p) (nProxyPort p) (strProxyUser p)
    (strProxyPass p) (pi_reserved p) [].

Definition on_GET_PROXYINFO (hdr : PipeHead) (h : Host) : turn :=
  receive hdr client_codec h (fun m =>
    let client := cm_client m in
    if negb (names_itself (dwPid client)) then SEC_ERROR h
    else match an_proxy q client with
         | Some pi => reply 1 (size_of proxyinfo_codec) [enc proxyinfo_codec (without_psk pi)] h
         | None => reply 0 0 [] h
         end).

Definition on_HOOKWSOCK_RESULT (hdr : PipeHead) (h : Host) : turn :=
  receive hdr hookresult_codec h (fun r =>
    if negb (names_itself (hr_processId r)) then SEC_ERROR h
    else next (tell (HookWsock r)
      (with_registry (snd (UpdateProcessHookResult (an_created_at q (hr_processId r)) (Some r)
                             (h_registry h))) h))).

(** The last checks on a report of blocked traffic. *)
Definition blocked_ok (udp : bool) (i : HookBlockedIPv6Info) : bool :=
  names_itself (bi_processId i)
  && (if udp
      then (bi_socketType i =? SOCK_DGRAM)
           && (IsIPv4 (bi_destination i) || IsIPv6 (bi_destination i)
               || (sa_family (bi_destination i) =? AF_UNSPEC))
      else IsIPv6 (bi_destination i))
  && existsb (Z.eqb 0) (bi_domain i) && existsb (Z.eqb 0) (bi_processName i).

Definition on_BLOCKED (udp : bool) (hdr : PipeHead) (h : Host) : turn :=
  if negb (dataSize hdr =? size_of blocked_codec) then SEC_ERROR h
  else
    r ← ReadPipeExactly (size_of blocked_codec);
    match r with
    | None => SEC_ERROR h
    | Some l =>
        let i := dec blocked_codec l in
        if negb (blocked_ok udp i) then SEC_ERROR h
        else next (tell (Blocked udp (bi_processId i) (bi_socketType i) (bi_destination i)
                           (cstr (bi_domain i)) (cstr (bi_processName i))) h)
    end.

(** ** Log texts *)

Definition logtext_fixed : Z := 8.        (* FIELD_OFFSET(HookLogtext, str) *)
Definition maxLogBytes : Z := 64 * 1024.

(** [block] is the allocation of [dataSize + 2] bytes with the message in it:
    the terminator is stored after the text, inside the block or not. *)
Definition log_text (block : bytes) (len : Z) : HostEvent :=
  let at_ := logtext_fixed + 2 * (len / 2) in
  if (0 <=? at_) && (at_ + 2 <=? Z.of_nat (length block))
  then
    let block := memcpy block (Z.to_nat at_) [0; 0] in
    HookText (le_join (take 4 block)) (cstr (wchars (drop (Z.to_nat logtext_fixed) block)))
  else OutOfBounds.

Definition on_Logtext (hdr : PipeHead) (h : Host) : turn :=
  if (dataSize hdr <? logtext_fixed) || (maxLogBytes <? dataSize hdr)
     || (4294967295 - 2 <? dataSize hdr)
  then SEC_ERROR h
  else
    r ← ReadPipeExactly (dataSize hdr);
    match r with
    | None => SEC_ERROR h
    | Some l =>
        let len := s32 (le_join (take 4 (drop 4 l))) in
        if negb (names_itself (le_join (take 4 l))) then SEC_ERROR h
        else
          let payloadBytes := dataSize hdr - logtext_fixed in
          if (len <? 0) || negb (Z.land len 1 =? 0) || (payloadBytes <? len) then SEC_ERROR h
          else
            let h := tell (log_text (l ++ [0; 0]) len) h in
            if flag hdr =? 1 then reply 1 0 [] h else next h
    end.

(** ** The turn *)

Definition dispatch (hdr : PipeHead) (h : Host) : turn :=
  let a := action hdr in
  if a =? PRCPD_QUIC_STATUS then on_QUIC_STATUS hdr h
  else if a =? PRCPD_GETSTARTUPINFO then on_GETSTARTUPINFO hdr h
  else if a =? PRCPD_REGISTERCLIENT then on_REGISTERCLIENT hdr h
  else if a =? PRCPD_UNREGISTER_CLIENT then on_UNREGISTER_CLIENT hdr h
  else if a =? PRCPD_CANPROXYME then on_CANPROXYME hdr h
  else if a =? PRCPD_GET_SETTINGS_INFO then on_GET_SETTINGS_INFO h
  else if a =? PRCPD_LAUNCH_PACKAGED_APP then on_LAUNCH_PACKAGED_APP hdr h
  else if a =? PRCPD_SHOULD_INJECT_NEW_PROCESS then on_SHOULD_INJECT_NEW_PROCESS hdr h
  else if a =? PRCPD_CHILD_INJECTION_RESULT then on_CHILD_INJECTION_RESULT hdr h
  else if a =? PRCPD_REGISTER_PROCESS_IDENTITY then on_REGISTER_PROCESS_IDENTITY hdr h
  else if a =? PRCPD_CHILD_RELEASED then on_CHILD_RELEASED hdr h
  else if a =? PRCPD_GET_CLIENT_UDPPORT_STATE then on_GET_CLIENT_UDPPORT_STATE hdr h
  else if a =? PRCPD_GET_PROXYINFO then on_GET_PROXYINFO hdr h
  else if a =? PRCPD_HOOKWSOCK_RESULT then on_HOOKWSOCK_RESULT hdr h
  else if a =? PRCPD_BLOCKED_IPV6 then on_BLOCKED false hdr h
  else if a =? PRCPD_BLOCKED_UDP then on_BLOCKED true hdr h
  else if a =? PRCPD_Logtext then on_Logtext hdr h
  else SEC_ERROR h.

(** One turn, from the moment there are bytes in the pipe. *)
Definition serve (h : Host) : turn :=
  r ← read_record head_codec;
  match r with None => SEC_ERROR h | Some hdr => dispatch hdr h end.
End Server.
Arguments Host U : clear implicits.

(** ** A host to try things on *)

Definition quiet_answers : Answers :=
  mkAnswers (fun _ => None) 0 None (fun _ => None) None None false (mkHostInfo 1 0 0 (replicate 260 0))
    0 0 false Unhandled (fun _ => false) (mkChildAnswers None (inl []) None None None).
Definition empty_host : Host unit := mkHost (mkCentre [] tt) ∅ ∅ ∅ ∅ [].
Definition no_udp_register (c : PRCClient) (u : unit) : (bool * PRCClient * Z) * unit := ((false, c, 0), u).
Definition no_udp_unregister (c : PRCClient) (u : unit) : Z * unit := (0, u).
Definition no_udp_state (i : UDPLocalProxyAddrInfo) (u : unit) : Z := 0.
