(* ===== verification/PipeServerSafety.v ===== *)
(** * What a connection can do to the host (properties of PipeServer)

    The other end of the pipe may be any program.  Whatever it writes, a turn
    stays inside its memory and acts only for the process that opened the
    connection; and whatever it asks, the key of a secured proxy is not in what
    is written back. *)

From S2P Require Import Prelude Winsock SockAddr ProcessIdentity ProcessRegistry.
From S2P Require Import ReceptionCentre ReceptionCentreSafety AppLauncher PipeRecords QuicReports PipeServer.

Section Safety.
Context {U : Type}.
Variable udp_OnRegister : PRCClient -> U -> (bool * PRCClient * Z) * U.
Variable udp_OnUnregister : PRCClient -> U -> Z * U.
Variable udp_GetUDPPortState : UDPLocalProxyAddrInfo -> U -> Z.
Context (hostPid hostCreationTime owner pipeClientPid : Z).

Abbreviation serve := (serve udp_OnRegister udp_OnUnregister udp_GetUDPPortState
                         hostPid hostCreationTime owner pipeClientPid).
Implicit Types h : Host U.

(** ** The shape of a turn *)

Lemma always_write_parts (Q : bool * Host U -> Prop) parts h :
  Q (true, h) -> Q (false, h) -> always Q (write_parts parts h).
Proof.
  intros Ht Hf. induction parts as [|m parts IH]; simpl; [by constructor|].
  constructor. intros []; [done|by constructor].
Qed.

Lemma always_receive {A} (Q : bool * Host U -> Prop) hdr (c : codec A) h k :
  Q (false, h) -> (forall a, always Q (k a)) -> always Q (receive hdr c h k).
Proof.
  intros Hf Hk. unfold receive. destruct (negb _); [by constructor|].
  eapply always_bind; [apply always_true|]. intros [a|] _; [apply Hk|by constructor].
Qed.

Lemma always_exactly (Q : bool * Host U -> Prop) size h (k : bytes -> proc (bool * Host U)) :
  Q (false, h) -> (forall l, Z.of_nat (length l) = size -> always Q (k l)) ->
  always Q (r ← ReadPipeExactly size; match r with None => SEC_ERROR h | Some l => k l end).
Proof.
  intros Hf Hk. eapply always_bind; [apply always_read_exactly|].
  intros [l|] Hl; [by apply Hk|by constructor].
Qed.

(** ** Memory *)

Lemma log_text_fits dataSize l len :
  Z.of_nat (length l) = dataSize -> 0 <= len <= dataSize - logtext_fixed ->
  log_text (l ++ [0; 0]) len <> OutOfBounds.
Proof.
  unfold log_text, logtext_fixed. intros Hl Hlen. rewrite length_app. simpl.
  pose proof (Z.div_mod len 2). pose proof (Z.mod_pos_bound len 2).
  destruct (Z.leb_spec 0 (8 + 2 * (len / 2))); [|lia].
  by destruct (Z.leb_spec (8 + 2 * (len / 2) + 2) (Z.of_nat (length l + 2))); [|lia].
Qed.

Lemma always_Logtext (Q : bool * Host U -> Prop) hdr h :
  (forall b, Q (b, h)) ->
  (forall b pid text, names_itself pipeClientPid pid = true ->
     Q (b, tell (HookText pid text) h)) ->
  always Q (on_Logtext pipeClientPid hdr h).
Proof.
  intros Hf Ht. unfold on_Logtext. destruct (_ || _ || _); [constructor; apply Hf|].
  apply always_exactly; [apply Hf|]. intros l Hl.
  destruct (negb (names_itself _ _)) eqn:En; [constructor; apply Hf|].
  set (len := s32 _). destruct (_ || _ || _) eqn:Ec; [constructor; apply Hf|]. bool_hyps.
  assert (Hb : forall b, Q (b, tell (log_text (l ++ [0; 0]) len) h)).
  { intros b. pose proof (log_text_fits (dataSize hdr) l len Hl) as Hfit.
    unfold log_text in *. destruct (_ && _); [|by exfalso; apply Hfit].
    apply Ht. rewrite <- En. f_equal. f_equal. unfold memcpy.
    assert (8 <= length l)%nat by (unfold logtext_fixed in *; lia).
    assert (Hn : (4 <= Z.to_nat (logtext_fixed + 2 * (len / 2)))%nat).
    { unfold logtext_fixed. pose proof (Z.div_pos len 2). lia. }
    rewrite take_app_le by (rewrite length_take, length_app; simpl; lia).
    rewrite take_take, Nat.min_l by lia. by rewrite take_app_le by lia. }
  destruct (flag hdr =? 1); [|constructor; apply Hb].
  apply always_write_parts; apply Hb.
Qed.

(** ** Acting for the client *)

(** What an event says about a process. *)
Definition speaks_for (pid : Z) (e : HostEvent) : Prop :=
  match e with
  | HookWsock r => hr_processId r = pid
  | Blocked _ p _ _ _ _ => p = pid
  | HookText p _ => p = pid
  | OutOfBounds => False
  | _ => True
  end.

(** Registrations, records and reports of other processes stay, but for the
    oldest report of a full table; events are the client's own. *)
Record acts_for (h h' : Host U) : Prop := {
  af_registrations :
    filter (fun it => dwPid (rg_client it) <> pipeClientPid) (m_RegisteredClient (h_centre h'))
    = filter (fun it => dwPid (rg_client it) <> pipeClientPid) (m_RegisteredClient (h_centre h));
  af_registry : forall p, p <> pipeClientPid -> h_registry h' !! p = h_registry h !! p;
  af_reports : forall k, (rk_owner k <> owner \/ rk_pid k <> pipeClientPid) ->
    h_reports h' !! k = h_reports h !! k \/
    (h_reports h' !! k = None /\ maxReports <= Z.of_nat (size (h_reports h)) /\
     exists now, oldest now (h_reports h) = Some k);
  af_events : exists es, h_events h' = h_events h ++ es /\ Forall (speaks_for pipeClientPid) es
}.

Lemma acts_refl h : acts_for h h.
Proof. split; try done; [by left|]. exists []. by rewrite app_nil_r. Qed.

Lemma acts_tell e h h' : acts_for h h' -> speaks_for pipeClientPid e -> acts_for h (tell e h').
Proof.
  intros [Hc Hr Hp (es & E & Hes)] He. split; try done. exists (es ++ [e]). simpl.
  rewrite E, <- app_assoc. split; [done|]. apply Forall_app. by repeat constructor.
Qed.

Lemma acts_centre c h h' :
  acts_for h h' ->
  filter (fun it => dwPid (rg_client it) <> pipeClientPid) (m_RegisteredClient c)
  = filter (fun it => dwPid (rg_client it) <> pipeClientPid) (m_RegisteredClient (h_centre h)) ->
  acts_for h (with_centre c h').
Proof. by intros [? ? ? ?] ?. Qed.

Lemma acts_registry m h :
  (forall p, p <> pipeClientPid -> m !! p = h_registry h !! p) -> acts_for h (with_registry m h).
Proof. intros Hm. destruct (acts_refl h). by split. Qed.

Lemma acts_launches l h : acts_for h (with_launches l h).
Proof. destruct (acts_refl h). by split. Qed.
Lemma acts_released r h : acts_for h (with_released r h).
Proof. destruct (acts_refl h). by split. Qed.

Lemma acts_observe now birth status h :
  acts_for h (with_reports (Observe now owner pipeClientPid birth status (h_reports h)) h).
Proof.
  destruct (acts_refl h) as [? ? ? ?]. split; try done. simpl. intros k Hk.
  unfold Observe. destruct (_ || _ || _ || _); [by left|].
  set (key := mkReportKey owner pipeClientPid birth).
  assert (Hne : key <> k) by (intros <-; simpl in Hk; by destruct Hk).
  destruct (h_reports h !! key); [destruct (_ && _); [by left|left; by rewrite lookup_insert_ne]|].
  destruct (Z.leb_spec maxReports (Z.of_nat (size (h_reports h)))).
  2: { left. by rewrite lookup_insert_ne. }
  rewrite lookup_insert_ne by done. destruct (oldest now (h_reports h)) as [o|] eqn:Eo; [|by left].
  destruct (decide (o = k)) as [->|]; [|left; by rewrite lookup_delete_ne].
  right. rewrite lookup_delete_eq. eauto.
Qed.

Lemma filter_upsert c tick l :
  dwPid c = pipeClientPid ->
  filter (fun it => dwPid (rg_client it) <> pipeClientPid) (upsert c tick l)
  = filter (fun it => dwPid (rg_client it) <> pipeClientPid) l.
Proof.
  intros Hc. induction l as [|it l IH]; simpl.
  { rewrite filter_cons_False by (simpl; naive_solver). done. }
  destruct (same_socket c (rg_client it)) eqn:E.
  - unfold same_socket in E. bool_hyps. rewrite !filter_cons_False; [done|naive_solver|simpl; naive_solver].
  - rewrite !filter_cons. by rewrite IH.
Qed.

Lemma filter_unregister c (l : list Registration) :
  dwPid c = pipeClientPid ->
  filter (fun it => dwPid (rg_client it) <> pipeClientPid)
    (filter (fun it => same_socket c (rg_client it) = false) l)
  = filter (fun it => dwPid (rg_client it) <> pipeClientPid) l.
Proof.
  intros Hc. induction l as [|it l IH]; [done|]. rewrite !filter_cons.
  destruct (decide (same_socket c (rg_client it) = false)) as [E|E].
  - rewrite filter_cons. by rewrite IH.
  - apply not_false_iff_true in E. unfold same_socket in E. bool_hyps.
    destruct (decide _); [naive_solver|done].
Qed.

Lemma register_filter actual tick query info c (s : Centre U) :
  dwPid c = pipeClientPid ->
  filter (fun it => dwPid (rg_client it) <> pipeClientPid)
    (m_RegisteredClient (snd (RegisterClient udp_OnRegister actual tick query info c s)))
  = filter (fun it => dwPid (rg_client it) <> pipeClientPid) (m_RegisteredClient s).
Proof.
  intros Hc. unfold RegisterClient. destruct (_ || _ || _); [done|].
  destruct (match actual with Some _ => _ | None => _ end); [done|].
  destruct (sType c =? SOCK_STREAM).
  - unfold RegisterTCPClient. destruct (_ && _); [done|]. by apply filter_upsert.
  - destruct (sType c =? SOCK_DGRAM); [|done]. unfold RegisterUDPClient.
    by destruct (udp_OnRegister c (m_pUdpServer s)) as [[[ok c'] err] u].
Qed.

Lemma unregister_filter c (s : Centre U) :
  dwPid c = pipeClientPid ->
  filter (fun it => dwPid (rg_client it) <> pipeClientPid)
    (m_RegisteredClient (snd (UnregisterClient udp_OnUnregister c s)))
  = filter (fun it => dwPid (rg_client it) <> pipeClientPid) (m_RegisteredClient s).
Proof.
  intros Hc. unfold UnregisterClient. destruct (sType c =? SOCK_STREAM); [by apply filter_unregister|].
  destruct (sType c =? SOCK_DGRAM); [|done]. by destruct (udp_OnUnregister c (m_pUdpServer s)).
Qed.

Lemma Register_other id (m : Records) p :
  p <> dwProcessId id -> snd (Register (Some id) m) !! p = m !! p.
Proof.
  intros Hp. unfold Register, subscript. destruct (_ || _ || _); [done|].
  by destruct (m !! dwProcessId id) as [e|]; (destruct (_ <? _)); simpl;
    rewrite ?(lookup_insert_ne _ (dwProcessId id) p) by done.
Qed.

Lemma Update_other pid time error (m : Records) p :
  p <> pid -> snd (Update pid time error m) !! p = m !! p.
Proof.
  intros Hp. unfold Update, subscript. destruct (_ || _); [done|].
  by destruct (m !! pid) as [e|]; (destruct (_ <? _)); simpl;
    rewrite ?(lookup_insert_ne _ pid p) by done.
Qed.

Lemma identity_other actual id (m : Records) p :
  p <> dwProcessId id -> snd (RegisterProcessIdentity actual (Some id) m) !! p = m !! p.
Proof.
  intros Hp. unfold RegisterProcessIdentity. destruct (_ || _ || _); [done|].
  destruct (stale _ _); [done|by apply Register_other].
Qed.

Lemma result_other actual r (m : Records) p :
  p <> hr_processId r -> snd (UpdateProcessHookResult actual (Some r) m) !! p = m !! p.
Proof.
  intros Hp. unfold UpdateProcessHookResult. destruct (_ || _); [done|].
  destruct (stale _ _); [done|by apply Update_other].
Qed.

Hypothesis Hclient : pipeClientPid <> 0.

Lemma names_itself_eq pid : names_itself pipeClientPid pid = true -> pid = pipeClientPid.
Proof. unfold names_itself. rewrite orb_true_iff, !Z.eqb_eq. by intros [?|?]. Qed.

Abbreviation acts h := (fun r : (bool * Host U)%type => acts_for h (snd r)).

Lemma acts_reply h h' flag size parts : acts_for h h' -> always (acts h) (reply flag size parts h').
Proof. intros. by apply always_write_parts. Qed.

Lemma acts_REGISTERCLIENT q hdr h :
  always (acts h) (on_REGISTERCLIENT udp_OnRegister owner pipeClientPid q hdr h).
Proof.
  apply always_receive; [apply acts_refl|]. intros m. cbv zeta.
  destruct (negb (names_itself _ _)) eqn:En; [constructor; apply acts_refl|]. bool_hyps.
  apply names_itself_eq in En.
  set (h1 := if _ && _ then _ else h).
  assert (H1 : acts_for h h1 /\ h_centre h1 = h_centre h)
    by (unfold h1; destruct (_ && _); split; auto using acts_observe, acts_refl).
  pose proof (register_filter (an_created_at q (dwPid (cm_client m))) (an_tick q) (an_route q)
                (an_proxy q (cm_client m)) (cm_client m) (h_centre h1) En) as Hreg.
  destruct (RegisterClient _ _ _ _ _ _ _) as [r centre]. simpl in Hreg.
  assert (H2 : acts_for h (with_centre centre h1)).
  { apply acts_centre; [apply H1|]. rewrite Hreg. by rewrite (proj2 H1). }
  destruct (negb (rp_ok r)); [by apply acts_reply|].
  destruct (sType (cm_client m) =? SOCK_DGRAM); by apply acts_reply.
Qed.

Lemma acts_dispatch q hdr h :
  always (acts h) (dispatch udp_OnRegister udp_OnUnregister udp_GetUDPPortState
                     hostPid hostCreationTime owner pipeClientPid q hdr h).
Proof.
  pose proof (acts_refl h) as H0. unfold dispatch.
  repeat (destruct (action hdr =? _); [|]).
  - unfold on_QUIC_STATUS. destruct (_ || _); [by constructor|].
    apply always_receive; [done|]. intros r. apply acts_reply, acts_observe.
  - unfold on_GETSTARTUPINFO. destruct (an_startup q); [by apply acts_reply|by constructor].
  - apply acts_REGISTERCLIENT.
  - apply always_receive; [done|]. intros m. cbv zeta. destruct (negb (names_itself _ _)) eqn:En; [by constructor|]. bool_hyps.
    pose proof (unregister_filter (cm_client m) (h_centre h) (names_itself_eq _ En)) as Hu.
    destruct (UnregisterClient _ _ _) as [r centre]. simpl in Hu.
    assert (H1 : acts_for h (with_centre centre h)) by by apply acts_centre.
    destruct (r =? 0); [by constructor|by apply acts_reply].
  - apply always_receive; [done|]. intros i. destruct (negb (names_itself _ _)); [by constructor|by apply acts_reply].
  - unfold on_GET_SETTINGS_INFO. destruct (an_settings q); by apply acts_reply.
  - apply always_receive; [done|]. intros r. destruct (HandleAppLaunch _ _ _ _ _ _ _) as [a l].
    apply acts_reply, acts_launches.
  - apply always_receive; [done|]. intros n. cbv zeta.
    assert (H1 : acts_for h (tell (ProcessCreated (terminated n) (flag hdr =? 1)) h)) by by apply acts_tell.
    destruct (_ && _); [|by apply acts_reply].
    destruct (AuthorizeAppContainerChild _ _ _) as [[] e]; [by apply acts_reply|].
    by apply acts_reply, acts_tell.
  - apply always_receive; [done|]. intros c. constructor. by apply acts_tell.
  - apply always_receive; [done|]. intros i. destruct (negb (names_itself _ _)) eqn:En; [by constructor|]. bool_hyps.
    apply names_itself_eq in En. constructor. apply acts_registry. intros p Hp.
    apply identity_other. simpl. by rewrite En.
  - apply always_receive; [done|]. intros c. constructor. apply acts_released.
  - apply always_receive; [done|]. intros i. by apply acts_reply.
  - apply always_receive; [done|]. intros m. cbv zeta. destruct (negb (names_itself _ _)); [by constructor|].
    destruct (an_proxy q (cm_client m)); by apply acts_reply.
  - apply always_receive; [done|]. intros r. destruct (negb (names_itself _ _)) eqn:En; [by constructor|]. bool_hyps.
    apply names_itself_eq in En. constructor. apply acts_tell; [|done].
    apply acts_registry. intros p Hp. apply result_other. by rewrite En.
  - unfold on_BLOCKED. destruct (negb _); [by constructor|]. apply always_exactly; [done|]. intros l _. cbv zeta.
    destruct (negb (blocked_ok _ _ _)) eqn:En; [by constructor|]. constructor. apply acts_tell; [done|].
    unfold blocked_ok in En. bool_hyps. by apply names_itself_eq.
  - unfold on_BLOCKED. destruct (negb _); [by constructor|]. apply always_exactly; [done|]. intros l _. cbv zeta.
    destruct (negb (blocked_ok _ _ _)) eqn:En; [by constructor|]. constructor. apply acts_tell; [done|].
    unfold blocked_ok in En. bool_hyps. by apply names_itself_eq.
  - apply always_Logtext; [by intros []|]. intros b pid text Hn. apply acts_tell; [done|].
    by apply names_itself_eq.
  - by constructor.
Qed.


(** ** The key of a secured proxy *)

Definition with_proxy (f : PRCClient -> option ProxyInfo) (q : Answers) : Answers :=
  mkAnswers (an_created_at q) (an_tick q) (an_route q) f (an_settings q) (an_startup q)
    (an_preference q) (an_launcher q) (an_last_error q) (an_now q) (an_same_user q) (an_launch q)
    (an_inject q) (an_child q).

(** Two settings that differ in the keys only. *)
Definition same_but_keys (f g : PRCClient -> option ProxyInfo) : Prop :=
  forall c, without_psk <$> f c = without_psk <$> g c.

Lemma ShouldReject_key query c p p' :
  without_psk p = without_psk p' -> ShouldReject query c p = ShouldReject query c p'.
Proof. unfold ShouldReject, GetProxyType. intros [= _ E]. by rewrite E. Qed.

Lemma RegisterClient_key actual tick query f g c (s : Centre U) :
  same_but_keys f g ->
  RegisterClient udp_OnRegister actual tick query (f c) c s
  = RegisterClient udp_OnRegister actual tick query (g c) c s.
Proof.
  intros H. unfold RegisterClient, RegisterTCPClient. specialize (H c).
  destruct (f c) as [p|], (g c) as [p'|]; try done.
  injection H as H1 H2 H3 H4 H5 H6 H7.
  assert (E : without_psk p = without_psk p') by (unfold without_psk; congruence).
  by rewrite (ShouldReject_key query c p p' E).
Qed.

Lemma same_receive {A} hdr (c : codec A) h (k k' : A -> proc (bool * Host U)) :
  (forall a, same_talk eq (k a) (k' a)) ->
  same_talk eq (receive hdr c h k) (receive hdr c h k').
Proof.
  intros Hk. unfold receive. destruct (negb _); [by apply same_talk_refl|].
  eapply (same_talk_bind _ _ eq); [by apply same_talk_refl|]. intros a b ->.
  destruct b; [apply Hk|by apply same_talk_refl].
Qed.

End Safety.

Definition a_hook_result : HookWSockResult := mkHookResult 7 99 5.


Definition a_proxy (key : bytes) : ProxyInfo := mkProxyInfo [112] [115] [104] 1080 [] [] 1 key.

