(* ===== verification/PipeClient.v ===== *)
(** * The pipe client (PRCPipeClient.cpp)

    The calls a hooked process makes on the host: each writes a header and a
    record, and most then read a reply. *)

From S2P Require Import Prelude Winsock SockAddr ProcessIdentity ReceptionCentre AppLauncher PipeRecords.

(** A header and a record; FALSE as soon as a write fails. *)
Definition send {A} (action flag : Z) (c : codec A) (a : A) : proc bool :=
  ok ← write_record head_codec (mkHead action flag (Z.of_nat (csize c)));
  if negb ok then mret false else write_record c a.

(** [GetPRCStartupInfo]: the information, the policy flag and the launcher, which
    older hosts do not send. *)
Record StartupReply := mkStartup {
  su_info : PRCINFO; su_policy : bool; su_launcher : option AppLauncherHostInfo
}.

(** A launcher that does not look like one is cleared. *)
Definition usable_launcher (l : AppLauncherHostInfo) : option AppLauncherHostInfo :=
  if negb (ah_version l =? 1) || (ah_processId l =? 0) || (ah_creationTime l =? 0)
     || bool_decide (cstr (ah_executable l) = []) || negb (nth 259 (ah_executable l) 0 =? 0)
  then None else Some l.

Definition GetPRCStartupInfo (quicPolicy launcher : bool) : proc (option StartupReply) :=
  ok ← write_record head_codec
         (mkHead PRCPD_GETSTARTUPINFO (if launcher then 3 else if quicPolicy then 2 else 0) 0);
  if negb ok then mret None
  else
    r ← read_record head_codec;
    match r with
    | None => mret None
    | Some hdr =>
        let base := Z.of_nat (csize prcinfo_codec) in
        let extended := base + 4 in
        let full := extended + Z.of_nat (csize hostinfo_codec) in
        if negb (action hdr =? PRCPD_REPLY) || negb (flag hdr =? 1)
           || (negb (dataSize hdr =? base)
               && (negb (quicPolicy || launcher) || negb (dataSize hdr =? extended))
               && (negb launcher || negb (dataSize hdr =? full)))
        then mret None
        else
          r ← read_record prcinfo_codec;
          match r with
          | None => mret None
          | Some info =>
              f ← (if base <? dataSize hdr then ReadPipe 4 else mret (Some (le_split 4 0)));
              match f with
              | None => mret None
              | Some f =>
                  let policy := quicPolicy && negb (Z.land (le_join f) 1 =? 0) in
                  if launcher && (dataSize hdr =? full) then
                    l ← read_record hostinfo_codec;
                    match l with
                    | None => mret None
                    | Some l => mret (Some (mkStartup info policy (usable_launcher l)))
                    end
                  else mret (Some (mkStartup info policy None))
              end
          end
    end.

Definition PRCReportQuicStatus (r : QuicReport) : proc bool :=
  ok ← send PRCPD_QUIC_STATUS 1 report_codec r;
  if negb ok then mret false
  else h ← read_record head_codec;
       mret match h with
            | Some hdr => (action hdr =? PRCPD_REPLY) && (flag hdr =? 1) && (dataSize hdr =? 0)
            | None => false
            end.

(** The result, the record (filled in for a datagram socket) and the error the
    call sets; [None] is what the system left. *)
Definition registration := (bool * ClientMessage * option Z)%type.

Definition registration_reply (m : ClientMessage) (hdr : PipeHead) : proc registration :=
  if negb (action hdr =? PRCPD_REPLY) then mret (false, m, Some WSAEPROTONOSUPPORT)
  else if flag hdr =? 0 then
    if negb (dataSize hdr =? 4) then mret (false, m, Some 0)
    else e ← ReadPipe 4;
         mret (false, m, match e with Some l => Some (le_join l) | None => None end)
  else if negb (flag hdr =? 1) then mret (false, m, Some WSAEPROTONOSUPPORT)
  else if (sType (cm_client m) =? SOCK_STREAM) && (dataSize hdr =? 0) then mret (true, m, Some 0)
  else if negb (sType (cm_client m) =? SOCK_DGRAM)
          || negb (dataSize hdr =? Z.of_nat (csize client_codec))
  then mret (false, m, Some 0)
  else r ← read_record client_codec;
       mret match r with Some m' => (true, m', Some 0) | None => (false, m, None) end.

Definition PRCRegisterClient (m : ClientMessage) : proc registration :=
  ok ← send PRCPD_REGISTERCLIENT 0 client_codec m;
  if negb ok then mret (false, m, None)
  else
    r ← read_record head_codec;
    match r with None => mret (false, m, None) | Some hdr => registration_reply m hdr end.

(** The reply's header alone. *)
Definition head_reply (good : PipeHead -> bool) : proc bool :=
  r ← read_record head_codec;
  mret match r with Some hdr => good hdr | None => false end.

Definition PRCUnregisterClient (m : ClientMessage) : proc bool :=
  ok ← send PRCPD_UNREGISTER_CLIENT 0 client_codec m;
  if negb ok then mret false
  else head_reply (fun hdr => (action hdr =? PRCPD_REPLY) && (flag hdr =? 1)).

Definition yes (hdr : PipeHead) : bool :=
  (action hdr =? PRCPD_REPLY) && negb (flag hdr =? 0) && (dataSize hdr =? 0).

Definition PRCCanProxyMe (i : PRCClientInfo) : proc bool :=
  ok ← send PRCPD_CANPROXYME 0 clientinfo_codec i;
  if negb ok then mret false else head_reply yes.

(** The header promises a record that is not sent. *)
Definition PRCGetProxySettingsInfo : proc (option ProxySettingsInfo) :=
  ok ← write_record head_codec (mkHead PRCPD_GET_SETTINGS_INFO 0 (Z.of_nat (csize settings_codec)));
  if negb ok then mret None
  else
    r ← read_record head_codec;
    match r with
    | None => mret None
    | Some hdr =>
        if negb (action hdr =? PRCPD_REPLY) || negb (flag hdr =? 1)
           || negb (dataSize hdr =? Z.of_nat (csize settings_codec))
        then mret None else read_record settings_codec
    end.

Definition PRCShouldInjectNewProcess (notice : HookProcessCreationNotice) (recordOnly : bool) : proc bool :=
  ok ← send PRCPD_SHOULD_INJECT_NEW_PROCESS (if recordOnly then 1 else 0) notice_codec notice;
  if negb ok then mret false
  else head_reply (fun hdr => (action hdr =? PRCPD_REPLY) && (flag hdr =? 1) && (dataSize hdr =? 0)).

Definition PRCNotifyChildInjectionResult (c : HookNewProcessInfo) (succeeded : bool) : proc bool :=
  send PRCPD_CHILD_INJECTION_RESULT (if succeeded then 1 else 0) newprocess_codec c.

Definition PRCNotifyChildReleased (c : HookNewProcessInfo) : proc bool :=
  if (np_processId c =? 0) || (np_createTime c =? 0) then mret false
  else send PRCPD_CHILD_RELEASED 0 newprocess_codec c.

Definition PRCRegisterProcessIdentity (i : HookProcessIdentityInfo) : proc bool :=
  if (dwProcessId i =? 0) || bool_decide (szAppPath i = []) then mret false
  else send PRCPD_REGISTER_PROCESS_IDENTITY 0 identity_codec i.

Definition PRCGetUDPClientPortState (i : UDPLocalProxyAddrInfo) : proc bool :=
  ok ← send PRCPD_GET_CLIENT_UDPPORT_STATE 0 udpport_codec i;
  if negb ok then mret false else head_reply yes.

Definition PRCGetProxyInfo (m : ClientMessage) : proc (option ProxyInfo) :=
  ok ← send PRCPD_GET_PROXYINFO 0 client_codec m;
  if negb ok then mret None
  else
    r ← read_record head_codec;
    match r with
    | None => mret None
    | Some hdr =>
        if negb (action hdr =? PRCPD_REPLY) || (flag hdr =? 0)
           || negb (dataSize hdr =? Z.of_nat (csize proxyinfo_codec))
        then mret None else read_record proxyinfo_codec
    end.

(** [own] is this process. *)
Definition PRCNotifyHookWSockResult (own err processCreateTime : Z) : proc bool :=
  send PRCPD_HOOKWSOCK_RESULT 0 hookresult_codec (mkHookResult own processCreateTime err).

Definition PRCLogBlocked (udp : bool) (i : HookBlockedIPv6Info) : proc bool :=
  send (if udp then PRCPD_BLOCKED_UDP else PRCPD_BLOCKED_IPV6) 0 blocked_codec i.

(** The text with its terminator: three messages. *)
Definition PRCLogtext (own : Z) (text : list Z) : proc bool :=
  let len := s32 (2 * (Z.of_nat (length text) + 1)) in
  ok ← write_record head_codec (mkHead PRCPD_Logtext 0 (u32 (8 + len)));
  if negb ok then mret false
  else
    ok ← WritePipe (le_split 4 own ++ le_split 4 len);
    if negb ok then mret false else WritePipe (wbytes (text ++ [0])).
