(* ===== verification/PipeSession.v ===== *)
(** * A client and the server at the two ends of one pipe

    The two threads run side by side: each step is one system call of one of
    them, and nothing orders the calls of one against those of the other.  The
    server's end is in message mode (a read that is too short for the message
    fails), the client's in byte mode (a read takes what is there, up to its
    size).  [inevitably P] says that every run reaches a state with [P]; the
    main lemma reduces it to one run in which the client reads no more than the
    message at the head of its queue. *)

From S2P Require Import Prelude PipeRecords.

Section Session.
Context {A W : Type}.
Variable serve : W -> proc (bool * W).

(** The server waits for a request, serves one, or has dropped the connection. *)
Inductive server_state :=
  | Waiting (w : W)
  | Serving (p : proc (bool * W))
  | Dropped (w : W).

Record session := mkSession {
  the_client : proc A;
  the_server : server_state;
  to_server : list bytes;
  to_client : list bytes
}.

(** Up to [n] bytes of the queue, messages run together. *)
Fixpoint take_bytes (n : nat) (q : list bytes) : bytes * list bytes :=
  match q with
  | [] => ([], [])
  | m :: r =>
      if (n <=? length m)%nat
      then (take n m, match drop n m with [] => r | rest => rest :: r end)
      else let '(l, r') := take_bytes (n - length m) r in (m ++ l, r')
  end.

Inductive client_step : session -> session -> Prop :=
  | cl_write m k s q r :
      (forall w, s <> Dropped w) ->
      client_step (mkSession (WriteFile m k) s q r) (mkSession (k true) s (q ++ [m]) r)
  | cl_write_broken m k w q r :
      client_step (mkSession (WriteFile m k) (Dropped w) q r) (mkSession (k false) (Dropped w) q r)
  | cl_read n k s q r :
      r <> [] ->
      client_step (mkSession (ReadFile n k) s q r)
        (mkSession (k (Some (fst (take_bytes (Z.to_nat n) r)))) s q (snd (take_bytes (Z.to_nat n) r)))
  | cl_read_broken n k w q :
      client_step (mkSession (ReadFile n k) (Dropped w) q []) (mkSession (k None) (Dropped w) q []).

Inductive server_step : session -> session -> Prop :=
  | sv_request c w m q r :
      server_step (mkSession c (Waiting w) (m :: q) r) (mkSession c (Serving (serve w)) (m :: q) r)
  | sv_write c m k q r :
      server_step (mkSession c (Serving (WriteFile m k)) q r) (mkSession c (Serving (k true)) q (r ++ [m]))
  | sv_read c n k m q r :
      Z.of_nat (length m) <= n ->
      server_step (mkSession c (Serving (ReadFile n k)) (m :: q) r) (mkSession c (Serving (k (Some m))) q r)
  | sv_read_short c n k m q r :
      n < Z.of_nat (length m) ->
      server_step (mkSession c (Serving (ReadFile n k)) (m :: q) r)
        (mkSession c (Serving (k None)) (drop (Z.to_nat n) m :: q) r)
  | sv_served c w q r :
      server_step (mkSession c (Serving (Ret (true, w))) q r) (mkSession c (Waiting w) q r)
  | sv_drop c w q r :
      server_step (mkSession c (Serving (Ret (false, w))) q r) (mkSession c (Dropped w) [] []).

Definition session_step (s s' : session) : Prop := client_step s s' \/ server_step s s'.

(** Every run reaches [P]. *)
Inductive inevitably (P : session -> Prop) (s : session) : Prop :=
  | inevitably_now : P s -> inevitably P s
  | inevitably_step :
      (exists s', session_step s s') -> (forall s', session_step s s' -> inevitably P s') ->
      inevitably P s.

(** ** One run for all *)

Lemma client_det s a b : client_step s a -> client_step s b -> a = b.
Proof.
  intros Ha Hb. destruct Ha; inversion Hb; subst; try done.
  all: match goal with H : forall w, Dropped ?v <> Dropped w |- _ => by destruct (H v) | _ => idtac end.
Qed.

Lemma server_det s a b : server_step s a -> server_step s b -> a = b.
Proof. intros Ha Hb. destruct Ha; inversion Hb; subst; try done; lia. Qed.

(** The client reads inside one message, and the server is not about to drop. *)
Definition calm (s : session) : Prop :=
  match the_client s, to_client s with
  | ReadFile n _, m :: _ => 0 <= n <= Z.of_nat (length m)
  | _, _ => True
  end /\
  match the_server s with
  | Serving (Ret (false, _)) => False
  | Dropped _ => False
  | _ => True
  end.

Lemma take_bytes_app n m r x :
  (n <= length m)%nat ->
  take_bytes n ((m :: r) ++ x) = (fst (take_bytes n (m :: r)), snd (take_bytes n (m :: r)) ++ x).
Proof. intros Hn. simpl. destruct (Nat.leb_spec n (length m)); [by destruct (drop n m)|lia]. Qed.

Lemma take_bytes_all m r : take_bytes (length m) (m :: r) = (m, r).
Proof. simpl. by rewrite Nat.leb_refl, drop_all, firstn_all. Qed.

(** The two threads' steps commute in a calm state. *)
Lemma diamond s a b :
  calm s -> client_step s a -> server_step s b ->
  exists d, server_step a d /\ client_step b d.
Proof.
  intros [Hc Hs] Ha Hb. destruct Ha as [m k st q r Hd|m k w q r|n k st q r Hr|n k w q]; inversion Hb; subst;
    simpl in *; try done.
  - eexists. split; [apply sv_request|by apply cl_write].
  - eexists. split; [apply sv_write|by apply cl_write].
  - eexists. split; [by apply sv_read|by apply cl_write].
  - eexists. split; [by apply sv_read_short|by apply cl_write].
  - eexists. split; [apply sv_served|by apply cl_write].
  - eexists. split; [apply sv_request|by apply cl_read].
  - destruct r as [|m0 r]; [done|]. eexists. split; [apply sv_write|].
    epose proof (cl_read n k _ q ((m0 :: r) ++ [m])) as Hstep.
    rewrite take_bytes_app in Hstep by lia. by apply Hstep.
  - eexists. split; [by apply sv_read|by apply cl_read].
  - eexists. split; [by apply sv_read_short|by apply cl_read].
  - eexists. split; [apply sv_served|by apply cl_read].
Qed.

Lemma calm_client s a b d :
  calm s -> client_step s a -> server_step s b -> server_step a d -> calm d -> calm a.
Proof.
  intros [Hc Hs] Ha Hb Hd [Hdc Hds].
  assert (Est : the_server a = the_server s) by by destruct Ha.
  split; [|by rewrite Est]. rewrite <- Est in Hs. clear Ha Hb Est.
  destruct Hd; simpl in *; try done.
  by destruct c as [|?|? ?]; [..|destruct r].
Qed.

Lemma calm_server s a b d :
  calm s -> client_step s a -> server_step s b -> client_step b d -> calm d -> calm b.
Proof.
  intros [Hc Hs] Ha Hb Hd [_ Hds].
  assert (Est : the_server d = the_server b) by by destruct Hd.
  split; [|by rewrite <- Est]. clear Hd.
  destruct Hb; inversion Ha; subst; simpl in *; try done. by destruct r.
Qed.

Inductive calm_run : nat -> session -> session -> Prop :=
  | run_end s : calm s -> (forall s', ~ session_step s s') -> calm_run 0 s s
  | run_step n s s' sf : calm s -> session_step s s' -> calm_run n s' sf -> calm_run (S n) s sf.

Lemma calm_run_calm n s sf : calm_run n s sf -> calm s.
Proof. by destruct 1. Qed.

Lemma calm_run_any n s sf s' :
  calm_run n s sf -> session_step s s' -> exists n', n = S n' /\ calm_run n' s' sf.
Proof.
  intros Hr. revert s'. induction Hr as [s _ Hn|n s c1 sf Hc Hs Hr IH]; intros s' Hs'; [by destruct (Hn s')|].
  exists n. split; [done|].
  destruct Hs as [Hs|Hs], Hs' as [Hs'|Hs'].
  - by rewrite (client_det s s' c1).
  - destruct (diamond s c1 s' Hc Hs Hs') as (d & Hd1 & Hd2).
    destruct (IH d (or_intror Hd1)) as (n' & -> & Hrd).
    apply run_step with d; [|by left|done].
    eapply (calm_server s c1 s' d); eauto using calm_run_calm.
  - destruct (diamond s s' c1 Hc Hs' Hs) as (d & Hd1 & Hd2).
    destruct (IH d (or_introl Hd2)) as (n' & -> & Hrd).
    apply run_step with d; [|by right|done].
    eapply (calm_client s s' c1 d); eauto using calm_run_calm.
  - by rewrite (server_det s s' c1).
Qed.

Lemma calm_run_inevitable n s sf (P : session -> Prop) :
  calm_run n s sf -> P sf -> inevitably P s.
Proof.
  revert s. induction n as [|n IH]; intros s Hr HP.
  - inversion Hr; subst. by apply inevitably_now.
  - apply inevitably_step.
    + inversion Hr; subst. eauto.
    + intros s' Hs. destruct (calm_run_any _ _ _ _ Hr Hs) as (n' & [= <-] & Hr'). by apply IH.
Qed.

(** ** A call *)

(** The client writes [ws], then reads [rs] message by message and ends with [a]. *)
Inductive hears : proc A -> list bytes -> A -> Prop :=
  | hears_ret a : hears (Ret a) [] a
  | hears_read n k m rs a :
      Z.of_nat (length m) = n -> hears (k (Some m)) rs a -> hears (ReadFile n k) (m :: rs) a.
Inductive asks : proc A -> list bytes -> list bytes -> A -> Prop :=
  | asks_done p rs a : hears p rs a -> asks p [] rs a
  | asks_write m k ws rs a : asks (k true) ws rs a -> asks (WriteFile m k) (m :: ws) rs a.

(** The server reads [ws], then writes [rs] and ends with [b]. *)
Inductive says : proc (bool * W) -> list bytes -> bool * W -> Prop :=
  | says_ret b : says (Ret b) [] b
  | says_write m k rs b : says (k true) rs b -> says (WriteFile m k) (m :: rs) b.
Inductive serves : proc (bool * W) -> list bytes -> list bytes -> bool * W -> Prop :=
  | serves_done p rs b : says p rs b -> serves p [] rs b
  | serves_read n k m ws rs b :
      Z.of_nat (length m) <= n -> serves (k (Some m)) ws rs b -> serves (ReadFile n k) (m :: ws) rs b.

Lemma run_hears p rs a w :
  hears p rs a ->
  exists n, calm_run n (mkSession p (Waiting w) [] rs) (mkSession (Ret a) (Waiting w) [] []).
Proof.
  induction 1 as [a|n k m rs a Hl Hh (i & IH)].
  - exists 0%nat. apply run_end; [done|]. intros s' [Hs|Hs]; inversion Hs.
  - exists (S i). eapply run_step; [split; [simpl; lia|done]| |exact IH].
    left. pose proof (cl_read n k (Waiting w) [] (m :: rs)) as Hstep.
    replace (Z.to_nat n) with (length m) in Hstep by lia.
    rewrite take_bytes_all in Hstep. by apply Hstep.
Qed.

Lemma run_says c p rs0 rs w' a :
  says p rs (true, w') -> hears c (rs0 ++ rs) a ->
  exists n, calm_run n (mkSession c (Serving p) [] rs0) (mkSession (Ret a) (Waiting w') [] []).
Proof.
  intros Hs. remember (true, w') as b eqn:Eb. revert rs0.
  induction Hs as [b|m k rs b Hs IH]; intros rs0 Hh; subst b.
  - rewrite app_nil_r in Hh. destruct (run_hears c rs0 a w' Hh) as (n & Hr).
    exists (S n). eapply run_step; [|right; apply sv_served|exact Hr].
    split; [|done]. simpl. inversion Hh; subst; simpl; [done|lia].
  - destruct (IH eq_refl (rs0 ++ [m])) as (n & Hr); [by rewrite <- app_assoc|].
    exists (S n). eapply run_step; [|right; apply sv_write|exact Hr].
    split; [|done]. simpl. inversion Hh as [|? ? ? ? ? Hl]; subst; [done|].
    destruct rs0; [done|]. simplify_eq/=. lia.
Qed.

Lemma run_serves c p ws rs w' a :
  serves p ws rs (true, w') -> hears c rs a ->
  exists n, calm_run n (mkSession c (Serving p) ws []) (mkSession (Ret a) (Waiting w') [] []).
Proof.
  intros Hs. remember (true, w') as b eqn:Eb.
  induction Hs as [p rs b Hs|n k m ws rs b Hl Hs IH]; intros Hh; subst b.
  - by apply (run_says c p [] rs w' a).
  - destruct (IH eq_refl Hh) as (i & Hr). exists (S i).
    eapply run_step; [|right; by apply sv_read|exact Hr].
    split; [|done]. by destruct c.
Qed.

Lemma run_asks c ws0 ws rs a w w' :
  asks c ws rs a -> serves (serve w) (ws0 ++ ws) rs (true, w') -> ws0 ++ ws <> [] ->
  exists n, calm_run n (mkSession c (Waiting w) ws0 []) (mkSession (Ret a) (Waiting w') [] []).
Proof.
  intros Ha. revert ws0. induction Ha as [c rs a Hh|m k ws rs a Ha IH]; intros ws0 Hs Hne.
  - rewrite app_nil_r in *. destruct (run_serves c _ _ _ _ _ Hs Hh) as (n & Hr).
    destruct ws0 as [|m ws0]; [done|]. exists (S n).
    eapply run_step; [|right; apply sv_request|exact Hr]. split; [|done]. by destruct c.
  - destruct (IH (ws0 ++ [m])) as (n & Hr); [by rewrite <- app_assoc|by destruct ws0|].
    exists (S n). eapply run_step; [|left; by apply cl_write|exact Hr]. done.
Qed.

(** A call whose two sides agree ends the same way however the threads run. *)
Lemma call_inevitable c ws rs a w w' :
  asks c ws rs a -> serves (serve w) ws rs (true, w') -> ws <> [] ->
  inevitably (fun s => s = mkSession (Ret a) (Waiting w') [] []) (mkSession c (Waiting w) [] []).
Proof.
  intros Ha Hs Hne. destruct (run_asks c [] ws rs a w w' Ha Hs Hne) as (n & Hr).
  by eapply calm_run_inevitable.
Qed.

(** ** A refused call *)

Lemma inevitably_all (P : session -> Prop) s s0 :
  session_step s s0 -> (forall s', session_step s s' -> inevitably P s') -> inevitably P s.
Proof. intros H0 H. apply inevitably_step; eauto. Qed.

Ltac explore := intros ? [Hstep|Hstep]; inversion Hstep; subst; try done; try lia.

(** The client writes two messages and waits for a reply; the server reads both
    and drops the connection.  Every run ends with the failed read. *)
Lemma refused_inevitable m1 m2 n k1 k2 k3 a w w' n1 n2 f1 f2 :
  k1 true = WriteFile m2 k2 -> k2 true = ReadFile n k3 -> k3 None = Ret a ->
  serve w = ReadFile n1 f1 -> Z.of_nat (length m1) <= n1 ->
  f1 (Some m1) = ReadFile n2 f2 -> Z.of_nat (length m2) <= n2 ->
  f2 (Some m2) = Ret (false, w') ->
  inevitably (fun s => s = mkSession (Ret a) (Dropped w') [] []) (mkSession (WriteFile m1 k1) (Waiting w) [] []).
Proof.
  intros K1 K2 K3 Es L1 F1 L2 F2. set (P := fun s => _).
  assert (H24 : inevitably P (mkSession (ReadFile n k3) (Dropped w') [] [])).
  { eapply inevitably_all; [left; apply cl_read_broken|]. explore. rewrite K3. by apply inevitably_now. }
  assert (H23 : inevitably P (mkSession (ReadFile n k3) (Serving (Ret (false, w'))) [] [])).
  { eapply inevitably_all; [right; apply sv_drop|]. by explore. }
  assert (H22 : inevitably P (mkSession (ReadFile n k3) (Serving (ReadFile n2 f2)) [m2] [])).
  { eapply inevitably_all; [right; by apply sv_read|]. explore. by rewrite F2. }
  assert (H21 : inevitably P (mkSession (ReadFile n k3) (Serving (ReadFile n1 f1)) [m1; m2] [])).
  { eapply inevitably_all; [right; by apply sv_read|]. explore. by rewrite F1. }
  assert (H12 : inevitably P (mkSession (WriteFile m2 k2) (Serving (ReadFile n2 f2)) [] [])).
  { eapply inevitably_all; [left; by apply cl_write|]. explore. by rewrite K2. }
  assert (H11 : inevitably P (mkSession (WriteFile m2 k2) (Serving (ReadFile n1 f1)) [m1] [])).
  { eapply inevitably_all; [left; by apply cl_write|]. explore; [by rewrite K2|by rewrite F1]. }
  assert (H20 : inevitably P (mkSession (ReadFile n k3) (Waiting w) [m1; m2] [])).
  { eapply inevitably_all; [right; by apply sv_request|]. explore. by rewrite Es. }
  assert (H10 : inevitably P (mkSession (WriteFile m2 k2) (Waiting w) [m1] [])).
  { eapply inevitably_all; [left; by apply cl_write|]. explore; [by rewrite K2|by rewrite Es]. }
  eapply inevitably_all; [left; by apply cl_write|]. explore. by rewrite K1.
Qed.
End Session.
Arguments session A W : clear implicits.
Arguments server_state W : clear implicits.
