(* ===== verification/PipeCalls.v ===== *)
(** * Calls over the pipe are calls on the host (PipeClient with PipeServer)

    Each call of the client, answered by a turn of the server, has the result
    and the effect of a local call on the host, however the two threads
    interleave, and leaves the pipe empty for the next one. *)

From S2P Require Import Prelude Winsock SockAddr ProcessIdentity ProcessRegistry ReceptionCentre.
From S2P Require Import AppLauncher PipeRecords QuicReports PipeServer PipeClient PipeSession.

(** ** One side at a time *)

Section Sides.
Context {A B W : Type}.

Lemma asks_send {R} (c : codec R) x action flag (k : bool -> proc A) ws rs a :
  asks (k true) ws rs a ->
  asks (send action flag c x ≫= k)
    (enc head_codec (mkHead action flag (Z.of_nat (csize c))) :: enc c x :: ws) rs a.
Proof. intros H. apply asks_write, asks_write, H. Qed.

Lemma asks_write_record {R} (c : codec R) x (k : bool -> proc A) ws rs a :
  asks (k true) ws rs a -> asks (write_record c x ≫= k) (enc c x :: ws) rs a.
Proof. intros H. apply asks_write, H. Qed.

Lemma read_record_unfold {R} (c : codec R) (k : option R -> proc A) :
  read_record c ≫= k = ReadFile (Z.of_nat (csize c)) (fun r =>
    k (match match r with
             | Some l => if Z.of_nat (length l) =? Z.of_nat (csize c) then Some l else None
             | None => None
             end with Some l => Some (dec c l) | None => None end)).
Proof. done. Qed.

Lemma hears_record {R} (c : codec R) x (k : option R -> proc A) rs a :
  fits c x -> hears (k (Some x)) rs a -> hears (read_record c ≫= k) (enc c x :: rs) a.
Proof.
  intros Hx H. rewrite read_record_unfold. apply hears_read; [by rewrite enc_length|].
  by rewrite enc_length, Z.eqb_refl, dec_enc.
Qed.

Lemma hears_whole (c : codec A) x : fits c x -> hears (read_record c) [enc c x] (Some x).
Proof.
  intros Hx. apply hears_read; [by rewrite enc_length|].
  cbn. rewrite enc_length, Z.eqb_refl, dec_enc by done. apply hears_ret.
Qed.

Lemma hears_map {R} (p : proc R) (f : R -> proc A) rs x a :
  hears p rs x -> f x = Ret a -> hears (p ≫= f) rs a.
Proof. induction 1; intros E; cbn; [rewrite E; constructor|constructor; auto]. Qed.

(** The call's result in its wrapping. *)
Lemma asks_map {R} (p : proc R) (f : R -> proc A) ws rs x a :
  asks p ws rs x -> f x = Ret a -> asks (p ≫= f) ws rs a.
Proof.
  induction 1; intros E; cbn; constructor; auto. by eapply hears_map.
Qed.

Lemma hears_pipe n l (k : option bytes -> proc A) rs a :
  Z.of_nat (length l) = n -> hears (k (Some l)) rs a -> hears (ReadPipe n ≫= k) (l :: rs) a.
Proof. intros Hl H. apply hears_read; [done|]. cbn. by rewrite Hl, Z.eqb_refl. Qed.
End Sides.

Section ServerSide.
Context {W : Type}.
Implicit Types b : bool * W.

Lemma serves_record {R} (c : codec R) x (k : option R -> proc (bool * W)) ws rs b :
  fits c x -> serves (k (Some x)) ws rs b -> serves (read_record c ≫= k) (enc c x :: ws) rs b.
Proof.
  intros Hx H. rewrite read_record_unfold. apply serves_read; [by rewrite enc_length|].
  by rewrite enc_length, Z.eqb_refl, dec_enc.
Qed.

Lemma serves_read_exactly fuel size got ms (k : option bytes -> proc (bool * W)) rs b :
  Forall (fun m => m <> []) ms -> Z.of_nat (length (got ++ concat ms)) = size ->
  (length (concat ms) < fuel)%nat ->
  serves (k (Some (got ++ concat ms))) [] rs b ->
  serves (read_exactly fuel size got ≫= k) ms rs b.
Proof.
  intros Hms. revert fuel got. induction Hms as [|m ms Hm Hms IH]; intros fuel got Hsize Hfuel Hk;
    (destruct fuel as [|fuel]; [lia|]); cbn [concat] in *.
  - rewrite app_nil_r in *. cbn [read_exactly]. rewrite Hsize, Z.leb_refl, Z.eqb_refl. exact Hk.
  - cbn [read_exactly]. rewrite !length_app in *.
    destruct m as [|x m]; [done|]. cbn [length] in *.
    destruct (Z.leb_spec size (Z.of_nat (length got))); [lia|].
    apply serves_read; [simpl; lia|]. apply (IH fuel (got ++ x :: m)).
    + rewrite !length_app. simpl. lia.
    + lia.
    + by rewrite <- app_assoc.
Qed.

Lemma serves_exactly size ms (k : option bytes -> proc (bool * W)) rs b :
  Forall (fun m => m <> []) ms -> Z.of_nat (length (concat ms)) = size ->
  serves (k (Some (concat ms))) [] rs b -> serves (ReadPipeExactly size ≫= k) ms rs b.
Proof. intros Hms Hs Hk. apply serves_read_exactly; [done|done|lia|done]. Qed.
End ServerSide.

Section Replies.
Context {U : Type}.
Implicit Types h : Host U.

Lemma says_write_parts parts h : says (write_parts parts h) parts (true, h).
Proof. induction parts as [|m parts IH]; simpl; constructor. exact IH. Qed.

Lemma serves_reply flag size parts h :
  serves (reply flag size parts h) [] (enc head_codec (mkHead PRCPD_REPLY flag size) :: parts) (true, h).
Proof. apply serves_done. apply (says_write_parts (_ :: parts)). Qed.

Lemma serves_next h : serves (next h) [] [] (true, h).
Proof. apply serves_done, says_ret. Qed.

Lemma serves_receive {R} hdr (c : codec R) x h k ws rs (b : bool * Host U) :
  dataSize hdr = Z.of_nat (csize c) -> fits c x -> serves (k x) ws rs b ->
  serves (receive hdr c h k) (enc c x :: ws) rs b.
Proof.
  intros Hd Hx H. unfold receive. rewrite Hd, Z.eqb_refl. by apply serves_record.
Qed.
End Replies.

Lemma fits_head a f d :
  0 <= a < 256 -> 0 <= f < 256 -> 0 <= d < 4294967296 -> fits head_codec (mkHead a f d).
Proof. intros. repeat split; cbn; lia. Qed.

(** ** Requests and what they mean *)

Inductive request :=
  | RegisterCall (m : ClientMessage)
  | UnregisterCall (m : ClientMessage)
  | CanProxyCall (i : PRCClientInfo)
  | SettingsCall
  | InjectCall (n : HookProcessCreationNotice) (recordOnly : bool)
  | InjectionResultCall (c : HookNewProcessInfo) (succeeded : bool)
  | ReleasedCall (c : HookNewProcessInfo)
  | IdentityCall (i : HookProcessIdentityInfo)
  | UdpStateCall (i : UDPLocalProxyAddrInfo)
  | ProxyInfoCall (m : ClientMessage)
  | HookResultCall (err processCreateTime : Z)
  | BlockedCall (udp : bool) (i : HookBlockedIPv6Info)
  | LogCall (text : list Z)
  | QuicCall (r : QuicReport)
  | StartupCall (quicPolicy launcher : bool).

Inductive response :=
  | Registered (ok : bool) (m : ClientMessage) (error : option Z)
  | Answered (b : bool)
  | SettingsAre (s : option ProxySettingsInfo)
  | ProxyIs (p : option ProxyInfo)
  | StartupIs (s : option StartupReply).

(** The program of the call in process [own]. *)
Definition client_of (own : Z) (rq : request) : proc response :=
  match rq with
  | RegisterCall m => r ← PRCRegisterClient m; mret (let '(ok, m', e) := r in Registered ok m' e)
  | UnregisterCall m => b ← PRCUnregisterClient m; mret (Answered b)
  | CanProxyCall i => b ← PRCCanProxyMe i; mret (Answered b)
  | SettingsCall => s ← PRCGetProxySettingsInfo; mret (SettingsAre s)
  | InjectCall n r => b ← PRCShouldInjectNewProcess n r; mret (Answered b)
  | InjectionResultCall c s => b ← PRCNotifyChildInjectionResult c s; mret (Answered b)
  | ReleasedCall c => b ← PRCNotifyChildReleased c; mret (Answered b)
  | IdentityCall i => b ← PRCRegisterProcessIdentity i; mret (Answered b)
  | UdpStateCall i => b ← PRCGetUDPClientPortState i; mret (Answered b)
  | ProxyInfoCall m => p ← PRCGetProxyInfo m; mret (ProxyIs p)
  | HookResultCall e t => b ← PRCNotifyHookWSockResult own e t; mret (Answered b)
  | BlockedCall udp i => b ← PRCLogBlocked udp i; mret (Answered b)
  | LogCall text => b ← PRCLogtext own text; mret (Answered b)
  | QuicCall r => b ← PRCReportQuicStatus r; mret (Answered b)
  | StartupCall p l => s ← GetPRCStartupInfo p l; mret (StartupIs s)
  end.

Section Calls.
Context {U : Type}.
Variable udp_OnRegister : PRCClient -> U -> (bool * PRCClient * Z) * U.
Variable udp_OnUnregister : PRCClient -> U -> Z * U.
Variable udp_GetUDPPortState : UDPLocalProxyAddrInfo -> U -> Z.
Context (hostPid hostCreationTime owner : Z).

(** The client is [own]; the system tells the server so, or nothing. *)
Context (own pipeClientPid : Z).
Hypothesis Hown : pipeClientPid = own \/ pipeClientPid = 0.

Abbreviation serve := (serve udp_OnRegister udp_OnUnregister udp_GetUDPPortState
                         hostPid hostCreationTime owner pipeClientPid).
Implicit Types (q : Answers) (h : Host U).

(** The registration as a local call. *)
Definition register_locally q (m : ClientMessage) h : response * Host U :=
  let c := cm_client m in
  let h :=
    if (sType c =? SOCK_DGRAM) && negb (pipeClientPid =? 0)
    then with_reports (Observe (an_tick q) owner pipeClientPid (processCreateTime c) (cm_reserved m)
                         (h_reports h)) h
    else h in
  let '(r, centre) := RegisterClient udp_OnRegister (an_created_at q (dwPid c)) (an_tick q)
                        (an_route q) (an_proxy q c) c (h_centre h) in
  let m' := mkClientMessage (rp_client r) (dwTid m) (sAccept m) (cm_reserved m) in
  (if negb (rp_ok r) then Registered false m (Some (registration_error q r))
   else if sType c =? SOCK_DGRAM then Registered true m' (Some 0) else Registered true m (Some 0),
   with_centre centre h).

Definition inject_locally q (n : HookProcessCreationNotice) (recordOnly : bool) h : response * Host U :=
  let n := terminated n in
  let h := tell (ProcessCreated n recordOnly) h in
  if recordOnly then (Answered true, h)
  else if negb (an_inject q (child n)) then (Answered false, h)
  else
    let '(ok, error) := AuthorizeAppContainerChild (an_child q) (child n) pipeClientPid in
    if ok then (Answered true, h)
    else (Answered false, tell (ChildNotAuthorized (np_processId (child n)) error) h).

(** The meaning of each call on the host. *)
Definition local_call q (rq : request) h : response * Host U :=
  match rq with
  | RegisterCall m => register_locally q m h
  | UnregisterCall m =>
      (Answered true, with_centre (snd (UnregisterClient udp_OnUnregister (cm_client m) (h_centre h))) h)
  | CanProxyCall i => (Answered (negb (IsFiltered i)), h)
  | SettingsCall => (SettingsAre (an_settings q), h)
  | InjectCall n r => inject_locally q n r h
  | InjectionResultCall c s => (Answered true, tell (InjectionResult c s) h)
  | ReleasedCall c => (Answered true, with_released (register_released q c (h_released h)) h)
  | IdentityCall i =>
      (Answered true, with_registry (snd (RegisterProcessIdentity (an_created_at q (dwProcessId i))
                                            (Some i) (h_registry h))) h)
  | UdpStateCall i =>
      (Answered (negb (u8 (udp_GetUDPPortState i (m_pUdpServer (h_centre h))) =? 0)), h)
  | ProxyInfoCall m => (ProxyIs (without_psk <$> an_proxy q (cm_client m)), h)
  | HookResultCall e t =>
      let r := mkHookResult own t e in
      (Answered true, tell (HookWsock r)
         (with_registry (snd (UpdateProcessHookResult (an_created_at q own) (Some r) (h_registry h))) h))
  | BlockedCall udp i =>
      (Answered true, tell (Blocked udp (bi_processId i) (bi_socketType i) (bi_destination i)
                              (cstr (bi_domain i)) (cstr (bi_processName i))) h)
  | LogCall text => (Answered true, tell (HookText own text) h)
  | QuicCall r =>
      (Answered true, with_reports (Observe (an_tick q) owner own (rp_birth r) (rp_status r)
                                      (h_reports h)) h)
  | StartupCall p l =>
      (StartupIs (info ← an_startup q;
                  Some (mkStartup info (p && negb (Z.land (quic_policy q) 1 =? 0))
                          (if l then usable_launcher (an_launcher q) else None))), h)
  end.

(** What the host answers fits its records. *)
Record answers_fit q : Prop := {
  af_proxy : forall c p, an_proxy q c = Some p -> fits proxyinfo_codec (without_psk p);
  af_settings : forall s, an_settings q = Some s -> fits settings_codec s;
  af_startup : forall i, an_startup q = Some i -> fits prcinfo_codec i;
  af_launcher : fits hostinfo_codec (an_launcher q);
  af_error : 0 <= an_last_error q < 4294967296
}.

(** A request of [own] that the server accepts: its records fit and name [own]. *)
Definition request_ok q (rq : request) h : Prop :=
  match rq with
  | RegisterCall m =>
      fits client_codec m /\ dwPid (cm_client m) = own /\
      match register_locally q m h with
      | (Registered true m' _, _) => fits client_codec m'
      | (Registered false _ (Some e), _) => 0 <= e < 4294967296
      | _ => True
      end
  | UnregisterCall m =>
      fits client_codec m /\ dwPid (cm_client m) = own /\
      fst (UnregisterClient udp_OnUnregister (cm_client m) (h_centre h)) <> 0
  | CanProxyCall i => fits clientinfo_codec i /\ ci_pid i = own
  | SettingsCall => True
  | InjectCall n _ => fits notice_codec n
  | InjectionResultCall c _ => fits newprocess_codec c
  | ReleasedCall c => fits newprocess_codec c /\ np_processId c <> 0 /\ np_createTime c <> 0
  | IdentityCall i =>
      fits identity_codec i /\ dwProcessId i = own /\ own <> 0 /\ szAppPath i <> []
  | UdpStateCall i => fits udpport_codec i
  | ProxyInfoCall m => fits client_codec m /\ dwPid (cm_client m) = own
  | HookResultCall e t => fits hookresult_codec (mkHookResult own t e)
  | BlockedCall udp i => fits blocked_codec i /\ blocked_ok pipeClientPid udp i = true
  | LogCall text =>
      0 <= own < 4294967296 /\ Forall (fun c => 0 < c < 65536) text /\
      8 + 2 * (Z.of_nat (length text) + 1) <= maxLogBytes
  | QuicCall r => fits report_codec r /\ pipeClientPid = own /\ own <> 0
  | StartupCall _ _ => an_startup q <> None
  end.

Lemma names_own : names_itself pipeClientPid own = true.
Proof. unfold names_itself. rewrite orb_true_iff, !Z.eqb_eq. destruct Hown as [->|]; auto. Qed.

Lemma names_eq pid : pid = own -> names_itself pipeClientPid pid = true.
Proof. intros ->. apply names_own. Qed.

(** A call served: the client's program and a turn agree on the messages. *)
Definition agrees q (rq : request) h : Prop :=
  exists ws rs, ws <> [] /\ asks (client_of own rq) ws rs (fst (local_call q rq h)) /\
    serves (serve q h) ws rs (true, snd (local_call q rq h)).

Lemma serves_serve q hd ws rs b h :
  fits head_codec hd ->
  serves (dispatch udp_OnRegister udp_OnUnregister udp_GetUDPPortState
            hostPid hostCreationTime owner pipeClientPid q hd h) ws rs b ->
  serves (serve q h) (enc head_codec hd :: ws) rs b.
Proof. intros Hf H. by apply serves_record. Qed.

Ltac fit_head := apply fits_head; [lia|lia|split; [lia|vm_compute; reflexivity]].

(** A request with one record and a reply of a header alone. *)
Lemma agrees_head {R} q rq h h' act fl (c : codec R) x good f :
  client_of own rq = (b ← (ok ← send act fl c x; if negb ok then mret false else head_reply good);
                      mret (Answered b)) ->
  0 <= act < 256 -> 0 <= fl < 256 -> 0 <= f < 256 -> fits c x -> Z.of_nat (csize c) < 4294967296 ->
  local_call q rq h = (Answered (good (mkHead PRCPD_REPLY f 0)), h') ->
  serves (dispatch udp_OnRegister udp_OnUnregister udp_GetUDPPortState hostPid hostCreationTime owner
            pipeClientPid q (mkHead act fl (Z.of_nat (csize c))) h) [enc c x]
    [enc head_codec (mkHead PRCPD_REPLY f 0)] (true, h') ->
  agrees q rq h.
Proof.
  intros Ec Ha Hfl Hf Hx Hc El Hs. do 2 eexists. split; [|split].
  2: { rewrite Ec, El. eapply asks_map; [|done]. apply asks_send, asks_done, (hears_record head_codec (mkHead PRCPD_REPLY f 0)).
       - by apply fits_head.
       - apply hears_ret. }
  - done.
  - rewrite El. apply serves_serve; [apply fits_head; lia|]. exact Hs.
Qed.

(** A one-way notification. *)
Lemma agrees_notify {R} q rq h h' act fl (c : codec R) x :
  client_of own rq = (b ← send act fl c x; mret (Answered b)) ->
  0 <= act < 256 -> 0 <= fl < 256 -> fits c x -> Z.of_nat (csize c) < 4294967296 ->
  local_call q rq h = (Answered true, h') ->
  serves (dispatch udp_OnRegister udp_OnUnregister udp_GetUDPPortState hostPid hostCreationTime owner
            pipeClientPid q (mkHead act fl (Z.of_nat (csize c))) h) [enc c x] [] (true, h') ->
  agrees q rq h.
Proof.
  intros Ec Ha Hfl Hx Hc El Hs. exists [enc head_codec (mkHead act fl (Z.of_nat (csize c))); enc c x], [].
  split; [done|]. rewrite Ec, El. split.
  - eapply asks_map; [|done]. apply asks_write, asks_write, asks_done, hears_ret.
  - apply serves_serve; [apply fits_head; lia|]. exact Hs.
Qed.

Ltac known_size := vm_compute; reflexivity.

Lemma agrees_notifications q rq h :
  request_ok q rq h ->
  match rq with
  | InjectionResultCall _ _ | ReleasedCall _ | IdentityCall _ | HookResultCall _ _ => agrees q rq h
  | _ => True
  end.
Proof.
  intros Hok. destruct rq as [| | | | |c s|c|i| | |e t| | | |]; try done; simpl in Hok.
  - eapply (agrees_notify q _ h _ PRCPD_CHILD_INJECTION_RESULT (if s then 1 else 0) newprocess_codec c);
      [done|done|by destruct s|done|known_size|done|].
    apply serves_receive; [done|done|]. destruct s; apply serves_next.
  - destruct Hok as (Hf & Hp & Ht).
    eapply (agrees_notify q _ h _ PRCPD_CHILD_RELEASED 0 newprocess_codec c); [|done|done|done|known_size|done|].
    + simpl. unfold PRCNotifyChildReleased. by rewrite !(proj2 (Z.eqb_neq _ 0)).
    + apply serves_receive; [done|done|]. apply serves_next.
  - destruct Hok as (Hf & Hi & Ho & Hne).
    eapply (agrees_notify q _ h _ PRCPD_REGISTER_PROCESS_IDENTITY 0 identity_codec i);
      [|done|done|done|known_size|done|].
    + simpl. unfold PRCRegisterProcessIdentity. rewrite Hi, (proj2 (Z.eqb_neq _ 0)) by done.
      by rewrite bool_decide_eq_false_2.
    + apply serves_receive; [done|done|]. cbv beta. rewrite (names_eq _ Hi). cbn [negb].
      assert (E : set_szAppPath (take 259 (szAppPath i)) i = i).
      { destruct Hf as (_ & _ & (_ & Hl) & _). simpl in Hl. destruct i; unfold set_szAppPath; simpl in *.
        by rewrite take_ge by lia. }
      rewrite E. apply serves_next.
  - eapply (agrees_notify q _ h _ PRCPD_HOOKWSOCK_RESULT 0 hookresult_codec (mkHookResult own t e));
      [done|done|done|done|known_size|done|].
    apply serves_receive; [done|done|]. cbn [hr_processId]. rewrite names_own. apply serves_next.
Qed.

Lemma agrees_can_proxy q i h : request_ok q (CanProxyCall i) h -> agrees q (CanProxyCall i) h.
Proof.
  intros [Hf Hi].
  eapply (agrees_head q _ h _ PRCPD_CANPROXYME 0 clientinfo_codec i yes 1);
    [done|done|done|done|done|known_size|done|].
  apply serves_receive; [done|done|]. cbv beta. rewrite (names_eq _ Hi). apply serves_reply.
Qed.

Lemma agrees_udp_state q i h : request_ok q (UdpStateCall i) h -> agrees q (UdpStateCall i) h.
Proof.
  intros Hf. set (f := u8 (udp_GetUDPPortState i (m_pUdpServer (h_centre h)))).
  eapply (agrees_head q _ h h PRCPD_GET_CLIENT_UDPPORT_STATE 0 udpport_codec i yes f);
    [done|done|done|apply u8_range|done|known_size| |].
  - simpl. fold f. unfold yes; simpl. by rewrite andb_true_r.
  - apply serves_receive; [done|done|]. apply serves_reply.
Qed.

Lemma agrees_unregister q m h : request_ok q (UnregisterCall m) h -> agrees q (UnregisterCall m) h.
Proof.
  intros (Hf & Hi & Hr).
  eapply (agrees_head q _ h _ PRCPD_UNREGISTER_CLIENT 0 client_codec m
            (fun hdr => (action hdr =? PRCPD_REPLY) && (flag hdr =? 1)) 1);
    [done|done|done|done|done|known_size|done|].
  apply serves_receive; [done|done|]. cbv beta zeta. rewrite (names_eq _ Hi). cbn [negb].
  destruct (UnregisterClient _ _ _) as [r centre]. simpl in *.
  rewrite (proj2 (Z.eqb_neq r 0)) by done. apply serves_reply.
Qed.

Lemma agrees_quic q r h : request_ok q (QuicCall r) h -> agrees q (QuicCall r) h.
Proof.
  intros (Hf & Ep & Ho).
  eapply (agrees_head q _ h _ PRCPD_QUIC_STATUS 1 report_codec r
            (fun hdr => (action hdr =? PRCPD_REPLY) && (flag hdr =? 1) && (dataSize hdr =? 0)) 1);
    [done|done|done|done|done|known_size|done|].
  unfold dispatch. cbn [action]. rewrite Z.eqb_refl. unfold on_QUIC_STATUS.
  rewrite Ep, (proj2 (Z.eqb_neq own 0)) by done.
  apply serves_receive; [done|done|]. apply serves_reply.
Qed.

Lemma agrees_inject q n r h : request_ok q (InjectCall n r) h -> agrees q (InjectCall n r) h.
Proof.
  intros Hf.
  assert (E : exists b h', inject_locally q n r h = (Answered b, h') /\
     serves (dispatch udp_OnRegister udp_OnUnregister udp_GetUDPPortState hostPid hostCreationTime owner
               pipeClientPid q (mkHead PRCPD_SHOULD_INJECT_NEW_PROCESS (if r then 1 else 0)
                                  (Z.of_nat (csize notice_codec))) h) [enc notice_codec n]
       [enc head_codec (mkHead PRCPD_REPLY (flag_of b) 0)] (true, h')).
  { unfold inject_locally. destruct r; cbn [negb].
    - do 2 eexists. split; [done|]. apply serves_receive; [done|done|]. apply serves_reply.
    - destruct (an_inject q (child (terminated n))) eqn:Ei; cbn [negb].
      + destruct (AuthorizeAppContainerChild _ _ _) as [[] e] eqn:Ea; do 2 eexists; (split; [done|]);
          (apply serves_receive; [done|done|]); cbv beta zeta; cbn [flag]; rewrite Ei; cbn [orb negb andb];
          change (0 =? 1) with false; cbn [negb andb]; rewrite Ea; apply serves_reply.
      + do 2 eexists. split; [done|]. apply serves_receive; [done|done|]. cbv beta zeta. cbn [flag].
        rewrite Ei. apply serves_reply. }
  destruct E as (b & h' & El & Hs).
  eapply (agrees_head q _ h h' PRCPD_SHOULD_INJECT_NEW_PROCESS (if r then 1 else 0) notice_codec n
            (fun hdr => (action hdr =? PRCPD_REPLY) && (flag hdr =? 1) && (dataSize hdr =? 0)) (flag_of b));
    [done|done|by destruct r|by destruct b|done|known_size| |exact Hs].
  simpl. rewrite El. by destruct b.
Qed.

(** A request with one record, whatever is replied. *)
Lemma agrees_record {R T} q rq h a h' act fl (c : codec R) x rs (k : bool -> proc T) g :
  client_of own rq = (r ← (ok ← send act fl c x; k ok); mret (g r)) ->
  0 <= act < 256 -> 0 <= fl < 256 -> fits c x -> Z.of_nat (csize c) < 4294967296 ->
  local_call q rq h = (g a, h') ->
  hears (k true) rs a ->
  serves (dispatch udp_OnRegister udp_OnUnregister udp_GetUDPPortState hostPid hostCreationTime owner
            pipeClientPid q (mkHead act fl (Z.of_nat (csize c))) h) [enc c x] rs (true, h') ->
  agrees q rq h.
Proof.
  intros Ec Ha Hfl Hx Hc El Hh Hs.
  exists [enc head_codec (mkHead act fl (Z.of_nat (csize c))); enc c x], rs.
  split; [done|]. rewrite Ec, El. split.
  - eapply asks_map; [|done]. by apply asks_write, asks_write, asks_done.
  - apply serves_serve; [apply fits_head; lia|]. exact Hs.
Qed.

Lemma fits_reply f n : 0 <= f < 256 -> Z.of_nat n < 4294967296 -> fits head_codec (mkHead PRCPD_REPLY f (Z.of_nat n)).
Proof. intros. apply fits_head; [done|done|lia]. Qed.

Lemma agrees_proxy_info q m h :
  answers_fit q -> request_ok q (ProxyInfoCall m) h -> agrees q (ProxyInfoCall m) h.
Proof.
  intros Hq [Hf Hi]. pose proof (af_proxy _ Hq (cm_client m)) as Hp.
  destruct (an_proxy q (cm_client m)) as [p|] eqn:Ep.
  - eapply (agrees_record q _ h (Some (without_psk p)) h PRCPD_GET_PROXYINFO 0 client_codec m
              [enc head_codec (mkHead PRCPD_REPLY 1 (Z.of_nat (csize proxyinfo_codec)));
               enc proxyinfo_codec (without_psk p)]); [done|done|done|done|known_size| | |].
    + simpl. by rewrite Ep.
    + cbv beta. cbn [negb].
      apply (hears_record head_codec (mkHead PRCPD_REPLY 1 (Z.of_nat (csize proxyinfo_codec))));
        [apply fits_reply; [done|known_size]|].
      change (hears (read_record proxyinfo_codec) [enc proxyinfo_codec (without_psk p)] (Some (without_psk p))).
      apply hears_whole. by apply Hp.
    + apply serves_receive; [done|done|]. cbv beta zeta. rewrite (names_eq _ Hi), Ep. apply serves_reply.
  - eapply (agrees_record q _ h None h PRCPD_GET_PROXYINFO 0 client_codec m
              [enc head_codec (mkHead PRCPD_REPLY 0 0)]); [done|done|done|done|known_size| | |].
    + simpl. by rewrite Ep.
    + cbv beta. cbn [negb]. apply (hears_record head_codec (mkHead PRCPD_REPLY 0 0)); [by apply fits_head|].
      apply hears_ret.
    + apply serves_receive; [done|done|]. cbv beta zeta. rewrite (names_eq _ Hi), Ep. apply serves_reply.
Qed.

Lemma agrees_settings q h : answers_fit q -> agrees q SettingsCall h.
Proof.
  intros Hq. pose proof (af_settings _ Hq) as Hs.
  set (hd := mkHead PRCPD_GET_SETTINGS_INFO 0 (Z.of_nat (csize settings_codec))).
  assert (Hhd : fits head_codec hd) by (apply fits_head; [done|done|split; [lia|known_size]]).
  unfold agrees. change (client_of own SettingsCall) with (s ← PRCGetProxySettingsInfo; mret (SettingsAre s)).
  change (local_call q SettingsCall h) with (SettingsAre (an_settings q), h). cbn [fst snd].
  destruct (an_settings q) as [psi|] eqn:Es.
  - exists [enc head_codec hd],
      [enc head_codec (mkHead PRCPD_REPLY 1 (Z.of_nat (csize settings_codec))); enc settings_codec psi].
    split; [done|]. split.
    + eapply asks_map; [|done]. apply asks_write, asks_done. cbn [negb].
      apply (hears_record head_codec (mkHead PRCPD_REPLY 1 (Z.of_nat (csize settings_codec))));
        [apply fits_reply; [done|known_size]|].
      change (hears (read_record settings_codec) [enc settings_codec psi] (Some psi)).
      apply hears_whole. by apply Hs.
    + apply serves_serve; [done|]. change (dispatch _ _ _ _ _ _ _ q hd h) with (on_GET_SETTINGS_INFO q h).
      unfold on_GET_SETTINGS_INFO. rewrite Es. apply serves_reply.
  - exists [enc head_codec hd], [enc head_codec (mkHead PRCPD_REPLY 0 0)]. split; [done|]. split.
    + eapply asks_map; [|done]. apply asks_write, asks_done. cbn [negb].
      apply (hears_record head_codec (mkHead PRCPD_REPLY 0 0)); [by apply fits_head|]. apply hears_ret.
    + apply serves_serve; [done|]. change (dispatch _ _ _ _ _ _ _ q hd h) with (on_GET_SETTINGS_INFO q h).
      unfold on_GET_SETTINGS_INFO. rewrite Es. apply serves_reply.
Qed.

Lemma enc_nonempty {R} (c : codec R) x : fits c x -> csize c <> 0%nat -> enc c x <> [].
Proof. intros Hx Hc E. apply Hc. rewrite <- (enc_length c x Hx), E. done. Qed.

Lemma agrees_blocked q udp i h : request_ok q (BlockedCall udp i) h -> agrees q (BlockedCall udp i) h.
Proof.
  intros [Hf Hb]. set (act := if udp then PRCPD_BLOCKED_UDP else PRCPD_BLOCKED_IPV6).
  eapply (agrees_notify q _ h _ act 0 blocked_codec i); [done|by destruct udp|done|done|known_size|done|].
  assert (Hon : serves (on_BLOCKED pipeClientPid udp (mkHead act 0 (Z.of_nat (csize blocked_codec))) h)
            [enc blocked_codec i] []
            (true, tell (Blocked udp (bi_processId i) (bi_socketType i) (bi_destination i)
                           (cstr (bi_domain i)) (cstr (bi_processName i))) h)); [|by destruct udp].
  unfold on_BLOCKED. change (negb (_ =? size_of blocked_codec)) with false. cbv iota.
  apply serves_exactly.
  - constructor; [|done]. by apply enc_nonempty.
  - cbn [concat]. by rewrite app_nil_r, enc_length.
  - cbn [concat]. rewrite app_nil_r, dec_enc by done. cbv zeta. rewrite Hb. apply serves_next.
Qed.

Lemma registered_type actual tick query proxy c s :
  rp_ok (fst (RegisterClient udp_OnRegister actual tick query proxy c s)) = true ->
  sType c = SOCK_STREAM \/ sType c = SOCK_DGRAM.
Proof.
  unfold RegisterClient. intros H. repeat case_match; simpl in *; try done;
    rewrite ?Z.eqb_eq in *; auto.
Qed.

Lemma le_join_split4 z : 0 <= z < 4294967296 -> le_join (le_split 4 z) = z.
Proof. intros Hz. rewrite le_join_split. by apply Z.mod_small. Qed.

Lemma agrees_register q m h : request_ok q (RegisterCall m) h -> agrees q (RegisterCall m) h.
Proof.
  intros (Hf & Hi & Hr). unfold register_locally in Hr.
  set (h0 := if (sType (cm_client m) =? SOCK_DGRAM) && negb (pipeClientPid =? 0) then _ else h) in Hr.
  destruct (RegisterClient _ _ _ _ _ _ _) as [r centre] eqn:Er.
  pose proof (registered_type (an_created_at q (dwPid (cm_client m))) (an_tick q) (an_route q)
                (an_proxy q (cm_client m)) (cm_client m) (h_centre h0)) as Ht.
  rewrite Er in Ht. cbn [fst] in Ht.
  assert (Hone : forall a f size parts,
    0 <= f < 256 -> 0 <= size < 4294967296 ->
    hears (registration_reply m (mkHead PRCPD_REPLY f size)) parts a ->
    local_call q (RegisterCall m) h = ((let '(ok, m', e) := a in Registered ok m' e), with_centre centre h0) ->
    (if negb (rp_ok r) then reply 0 4 [le_split 4 (registration_error q r)] (with_centre centre h0)
     else if sType (cm_client m) =? SOCK_DGRAM
     then reply 1 (size_of client_codec)
            [enc client_codec (mkClientMessage (rp_client r) (dwTid m) (sAccept m) (cm_reserved m))]
            (with_centre centre h0)
     else reply 1 0 [] (with_centre centre h0)) = reply f size parts (with_centre centre h0) ->
    agrees q (RegisterCall m) h).
  { intros a f size parts Hf' Hsz Hh El Es.
    eapply (agrees_record q _ h a _ PRCPD_REGISTERCLIENT 0 client_codec m
              (enc head_codec (mkHead PRCPD_REPLY f size) :: parts) _
              (fun r => let '(ok, m', e) := r in Registered ok m' e));
      [reflexivity|done|done|exact Hf|known_size|exact El| |].
    - cbv beta. cbn [negb]. apply (hears_record head_codec (mkHead PRCPD_REPLY f size)); [by apply fits_head|].
      exact Hh.
    - apply serves_receive; [done|done|]. cbv beta zeta. rewrite (names_eq _ Hi). cbn [negb].
      fold h0. rewrite Er, Es. apply serves_reply. }
  unfold local_call, register_locally in Hone. fold h0 in Hone. rewrite Er in Hone.
  destruct (rp_ok r); cbn [negb] in *; [destruct (Z.eqb_spec (sType (cm_client m)) SOCK_DGRAM) as [Ed|Ed]|].
  - set (m' := mkClientMessage (rp_client r) (dwTid m) (sAccept m) (cm_reserved m)) in *.
    apply (Hone (true, m', Some 0) 1 (size_of client_codec) [enc client_codec m']);
      [lia|split; [unfold size_of; lia|known_size]| |reflexivity|reflexivity].
    unfold registration_reply. cbn [action flag dataSize]. rewrite Ed.
    apply (hears_record client_codec m'); [exact Hr|apply hears_ret].
  - destruct (Ht eq_refl) as [Et|]; [|done].
    apply (Hone (true, m, Some 0) 1 0 []); [lia|lia| |reflexivity|reflexivity].
    unfold registration_reply. cbn [action flag dataSize]. rewrite Et. apply hears_ret.
  - apply (Hone (false, m, Some (registration_error q r)) 0 4 [le_split 4 (registration_error q r)]);
      [lia|lia| |reflexivity|reflexivity].
    unfold registration_reply. cbn [action flag dataSize].
    apply (hears_pipe 4); [done|]. rewrite le_join_split4 by done. apply hears_ret.
Qed.

(** *** The log *)

Lemma memcpy_end (a b src : bytes) : length src = length b -> memcpy (a ++ b) (length a) src = a ++ src.
Proof.
  intros E. rewrite memcpy_app by lia. rewrite Nat.sub_diag. by rewrite memcpy_full.
Qed.

Lemma wbytes_app a b : wbytes (a ++ b) = wbytes a ++ wbytes b.
Proof. apply flat_map_app. Qed.

(** The text of a message as the host sees it. *)
Lemma log_text_own text :
  0 <= own < 4294967296 -> Forall (fun c => 0 < c < 65536) text ->
  let len := 2 * (Z.of_nat (length text) + 1) in
  log_text ((le_split 4 own ++ le_split 4 len) ++ wbytes (text ++ [0]) ++ [0; 0]) len = HookText own text.
Proof.
  intros Ho Ht len. unfold log_text.
  set (a := (le_split 4 own ++ le_split 4 len) ++ wbytes (text ++ [0])).
  assert (Hl : Z.of_nat (length (wbytes (text ++ [0]))) = len).
  { rewrite length_wbytes, length_app. simpl. unfold len. lia. }
  assert (Ha : Z.of_nat (length a) = 8 + len).
  { unfold a. rewrite !length_app, !length_le_split. lia. }
  assert (Hat : logtext_fixed + 2 * (len / 2) = 8 + len).
  { unfold logtext_fixed, len. rewrite (Z.mul_comm 2 (_ + 1)), Z.div_mul by lia. lia. }
  assert (E : (le_split 4 own ++ le_split 4 len) ++ wbytes (text ++ [0]) ++ [0; 0] = a ++ [0; 0])
    by by rewrite app_assoc.
  rewrite Hat, E, length_app. cbn [length].
  destruct (Z.leb_spec 0 (8 + len)); [|lia].
  destruct (Z.leb_spec (8 + len + 2) (Z.of_nat (length a + 2))); [|lia]. cbn [andb].
  replace (Z.to_nat (8 + len)) with (length a) by lia. rewrite memcpy_end by done. unfold a.
  rewrite <- !app_assoc, take_app_le, firstn_all2 by (rewrite length_le_split; lia).
  rewrite le_join_split4 by done.
  replace (Z.to_nat logtext_fixed) with (length (le_split 4 own) + length (le_split 4 len))%nat
    by (rewrite !length_le_split; reflexivity).
  rewrite <- drop_drop, !drop_app_length. f_equal.
  replace (wbytes (text ++ [0]) ++ [0; 0]) with (wbytes ((text ++ [0]) ++ [0])) by by rewrite wbytes_app.
  rewrite wchars_wbytes, <- app_assoc.
  - apply cstr_app_nul. apply Forall_forall. intros c Hc. pose proof (proj1 (Forall_forall _ _) Ht c Hc). simpl in *. lia.
  - rewrite !Forall_app. repeat split; [|repeat constructor; lia..].
    eapply Forall_impl; [exact Ht|]. simpl. lia.
Qed.

Lemma agrees_log q text h : request_ok q (LogCall text) h -> agrees q (LogCall text) h.
Proof.
  intros (Ho & Ht & Hsz). set (len := 2 * (Z.of_nat (length text) + 1)).
  assert (Hlen : 0 <= len <= 65528) by (unfold len, maxLogBytes in *; lia).
  set (m2 := le_split 4 own ++ le_split 4 len). set (m3 := wbytes (text ++ [0])).
  assert (H2 : length m2 = 8%nat) by (unfold m2; by rewrite length_app, !length_le_split).
  assert (H3 : Z.of_nat (length m3) = len).
  { unfold m3. rewrite length_wbytes, length_app. simpl. unfold len. lia. }
  exists [enc head_codec (mkHead PRCPD_Logtext 0 (8 + len)); m2; m3], []. split; [done|].
  split.
  - change (client_of own (LogCall text)) with (b ← PRCLogtext own text; mret (Answered b)).
    change (fst (local_call q (LogCall text) h)) with (Answered true).
    eapply asks_map; [|reflexivity]. unfold PRCLogtext. fold len. rewrite s32_small by lia.
    rewrite u32_small by lia. apply asks_write_record. cbn [negb].
    apply asks_write, asks_write, asks_done, hears_ret.
  - change (snd (local_call q (LogCall text) h)) with (tell (HookText own text) h).
    apply serves_serve; [apply fits_head; [done|done|lia]|].
    change (dispatch _ _ _ _ _ _ _ q ?hd h) with (on_Logtext pipeClientPid hd h).
    unfold on_Logtext. cbn [dataSize flag].
    replace (_ || _ || _) with false
      by (symmetry; rewrite !orb_false_iff, !Z.ltb_ge; unfold logtext_fixed, maxLogBytes; lia).
    apply serves_exactly.
    + repeat constructor; intros E; [by rewrite E in H2|]. rewrite E in H3. simpl in H3. unfold len in H3. lia.
    + cbn [concat]. rewrite app_nil_r, length_app. lia.
    + cbn [concat]. rewrite app_nil_r. cbv beta iota.
      assert (Ep : le_join (take 4 (m2 ++ m3)) = own).
      { unfold m2. rewrite <- app_assoc, take_app_length' by by rewrite length_le_split.
        by apply le_join_split4. }
      assert (El : s32 (le_join (take 4 (drop 4 (m2 ++ m3)))) = len).
      { unfold m2. rewrite <- app_assoc, drop_app_length', take_app_length' by by rewrite length_le_split.
        rewrite le_join_split4 by lia. by apply s32_small; lia. }
      rewrite !Ep, !El, names_own. cbn [negb]. clear El.
      replace (_ || _ || _) with false.
      2: { symmetry. rewrite !orb_false_iff, !Z.ltb_ge, negb_false_iff. unfold logtext_fixed.
           repeat split; try lia. unfold len. change 1 with (Z.ones 1).
           rewrite Z.land_ones, (Z.mul_comm 2 (_ + 1)), Z.mod_mul by lia. done. }
      change (0 =? 1) with false. cbv iota.
      pose proof (log_text_own text Ho Ht) as El. cbv zeta in El. fold len m3 m2 in El.
      rewrite <- (app_assoc m2), El. apply serves_next.
Qed.

(** *** The startup information *)

Lemma quic_policy_range q : 0 <= quic_policy q < 4294967296.
Proof. unfold quic_policy, flag_of. repeat case_match; lia. Qed.

(** What a client asking for [p] and [l] is sent. *)
Definition startup_flag (p l : bool) : Z := if l then 3 else if p then 2 else 0.
Definition startup_parts (p l : bool) q (info : PRCINFO) : list bytes :=
  enc prcinfo_codec info :: (if p || l then [le_split 4 (quic_policy q)] else [])
  ++ (if l then [enc hostinfo_codec (an_launcher q)] else []).
Definition startup_size (p l : bool) : Z :=
  size_of prcinfo_codec + (if p || l then 4 else 0) + (if l then size_of hostinfo_codec else 0).

Lemma startup_served q p l h info :
  an_startup q = Some info ->
  serves (on_GETSTARTUPINFO q (mkHead PRCPD_GETSTARTUPINFO (startup_flag p l) 0) h) []
    (enc head_codec (mkHead PRCPD_REPLY 1 (startup_size p l)) :: startup_parts p l q info) (true, h).
Proof.
  intros E. unfold on_GETSTARTUPINFO. rewrite E. destruct p, l; apply serves_reply.
Qed.

(** Decide the guards over known sizes. *)
Ltac eval_guards :=
  repeat match goal with
    | |- context [if ?b then _ else _] =>
        let v := eval vm_compute in b in
        lazymatch v with true => idtac | false => idtac end; change b with v; cbv iota
    end.

Lemma agrees_startup q p l h :
  answers_fit q -> request_ok q (StartupCall p l) h -> agrees q (StartupCall p l) h.
Proof.
  intros Hq Hi. simpl in Hi. pose proof (af_startup _ Hq) as Hs. pose proof (af_launcher _ Hq) as Hl.
  destruct (an_startup q) as [info|] eqn:Ei; [|done]. specialize (Hs _ eq_refl).
  exists [enc head_codec (mkHead PRCPD_GETSTARTUPINFO (startup_flag p l) 0)],
    (enc head_codec (mkHead PRCPD_REPLY 1 (startup_size p l)) :: startup_parts p l q info).
  split; [done|]. split.
  - change (client_of own (StartupCall p l)) with (s ← GetPRCStartupInfo p l; mret (StartupIs s)).
    change (fst (local_call q (StartupCall p l) h)) with
      (StartupIs (info ← an_startup q;
                  Some (mkStartup info (p && negb (Z.land (quic_policy q) 1 =? 0))
                          (if l then usable_launcher (an_launcher q) else None)))).
    rewrite Ei. eapply asks_map; [|reflexivity]. unfold GetPRCStartupInfo.
    apply asks_write_record. cbn [negb]. apply asks_done.
    apply (hears_record head_codec (mkHead PRCPD_REPLY 1 (startup_size p l)));
      [apply fits_head; [done|done|by destruct p, l]|].
    assert (E4 : le_join (le_split 4 (quic_policy q)) = quic_policy q)
      by apply le_join_split4, quic_policy_range.
    destruct p, l; unfold startup_parts; cbv beta iota zeta; cbn [action flag dataSize app orb]; eval_guards;
      (apply (hears_record prcinfo_codec info); [done|]); cbv beta iota; eval_guards.
    all: try (apply (hears_pipe 4); [done|]; cbv beta iota; rewrite E4); eval_guards;
      try (apply (hears_record hostinfo_codec (an_launcher q)); [done|]); apply hears_ret.
  - apply serves_serve; [destruct p, l; by apply fits_head|].
    change (dispatch _ _ _ _ _ _ _ q ?hd h) with (on_GETSTARTUPINFO q hd h).
    exact (startup_served q p l h info Ei).
Qed.

(** ** The calls *)

(** C20: Whatever the order in which the two threads run, a call whose records fit
    ends with the result of the local call, leaves the host as the local call
    does, and leaves both directions of the pipe empty and the server waiting. *)
Theorem rpc_transparent q rq h :
  answers_fit q -> request_ok q rq h ->
  inevitably (serve q)
    (fun s => s = mkSession (Ret (fst (local_call q rq h))) (Waiting (snd (local_call q rq h))) [] [])
    (mkSession (client_of own rq) (Waiting h) [] []).
Proof.
  intros Hq Hok. assert (Ha : agrees q rq h).
  { pose proof (agrees_notifications q rq h Hok) as Hn.
    destruct rq; eauto using agrees_register, agrees_unregister, agrees_can_proxy, agrees_settings,
      agrees_inject, agrees_udp_state, agrees_proxy_info, agrees_blocked, agrees_log, agrees_quic,
      agrees_startup. }
  destruct Ha as (ws & rs & Hne & Hc & Hs). by eapply call_inevitable.
Qed.

(** A stream socket that is unregistered: the registration goes, but the client
    is told FALSE and the connection is dropped, in every run. *)
Theorem tcp_unregister_drops q m h :
  fits client_codec m -> dwPid (cm_client m) = own -> sType (cm_client m) = SOCK_STREAM ->
  inevitably (serve q)
    (fun s => s = mkSession (Ret (Answered false))
       (Dropped (with_centre
          (mkCentre (filter (fun it => same_socket (cm_client m) (rg_client it) = false)
                       (m_RegisteredClient (h_centre h))) (m_pUdpServer (h_centre h))) h)) [] [])
    (mkSession (client_of own (UnregisterCall m)) (Waiting h) [] []).
Proof.
  intros Hf Hi Ht.
  set (hd := mkHead PRCPD_UNREGISTER_CLIENT 0 (Z.of_nat (csize client_codec))).
  assert (Hhd : fits head_codec hd) by (apply fits_head; [done|done|split; [lia|known_size]]).
  eapply (refused_inevitable _ (enc head_codec hd) (enc client_codec m));
    [reflexivity|reflexivity|reflexivity|apply read_record_unfold| | | |].
  - by rewrite enc_length.
  - cbv beta iota. rewrite enc_length, Z.eqb_refl, dec_enc by done. cbv iota.
    change (dispatch _ _ _ _ _ _ _ q hd h)
      with (on_UNREGISTER_CLIENT udp_OnUnregister pipeClientPid hd h).
    unfold on_UNREGISTER_CLIENT, receive. cbn [dataSize hd]. rewrite Z.eqb_refl. apply read_record_unfold.
  - by rewrite enc_length.
  - cbv beta iota. rewrite enc_length, Z.eqb_refl, dec_enc by done. cbv beta iota zeta.
    rewrite (names_eq _ Hi). cbn [negb]. unfold UnregisterClient. rewrite Ht. reflexivity.
Qed.
End Calls.

Lemma rpc_transparent_witness :
  inevitably (serve no_udp_register no_udp_unregister no_udp_state 3 4 1 7 quiet_answers)
    (fun s => s = mkSession (Ret (Answered true)) (Waiting (tell (HookText 7 [72; 105]) empty_host)) [] [])
    (mkSession (client_of 7 (LogCall [72; 105])) (Waiting empty_host) [] []).
Proof.
  apply (rpc_transparent no_udp_register no_udp_unregister no_udp_state 3 4 1 7 7 (or_introl eq_refl)
           quiet_answers (LogCall [72; 105]) empty_host).
  - split; try done. repeat split; simpl; try lia. repeat constructor; lia.
  - repeat split; try lia; [repeat constructor; lia|done].
Defined.

Definition a_stream : PRCClient :=
  let a := mkSockAddr 2 80 (replicate 24 0) in mkPRCClient 7 99 1 SOCK_STREAM 5 [] a a a 0 0 a.
Definition a_registration : Host unit :=
  with_centre (mkCentre [mkRegistration a_stream 0] tt) empty_host.

Lemma tcp_unregister_drops_witness :
  inevitably (serve no_udp_register no_udp_unregister no_udp_state 3 4 1 7 quiet_answers)
    (fun s => s = mkSession (Ret (Answered false)) (Dropped empty_host) [] [])
    (mkSession (client_of 7 (UnregisterCall (mkClientMessage a_stream 0 0 0))) (Waiting a_registration) [] []).
Proof.
  apply (tcp_unregister_drops no_udp_register no_udp_unregister no_udp_state 3 4 1 7 7 (or_introl eq_refl)
           quiet_answers (mkClientMessage a_stream 0 0 0) a_registration); [|done|done].
  simpl. unfold SOCK_STREAM. split_and!; try lia; try done; by constructor.
Defined.
