(* ===== verification/DummyDns.v ===== *)
(** * Dummy addresses (CDummyDNS of HookWinsock.h)

    When names are resolved at the proxy, a hooked process is given a dummy
    address for each name: 127.255.x.y, and fdff:: with the same four bytes at
    the end.  The table translates the address a connection names back into
    the name. *)

From S2P Require Import Prelude Winsock.

Record INFO := mkInfo { dummyIP : Z; dummyIPv6 : bytes; szHost : bytes }.

(** The fields; the node list has the newest node in front. *)
Record CDummyDNS := mkDummyDNS { m_DummyIP : Z; m_DummyHandle : Z; dns_ls : list INFO }.

Definition DUMMY_FIRST : Z := 2147418112.      (* 0x7fff0000 *)
Definition DUMMY_LAST : Z := 2147483646.       (* 0x7ffffffe *)

Definition new_CDummyDNS : CDummyDNS := mkDummyDNS DUMMY_FIRST 5374727 [].

Definition IsDummyIP (dwip : Z) : bool := Z.shiftr (htonl dwip) 16 =? 32767.

Definition IsDummyIPv6 (address : option bytes) : bool :=
  match address with
  | Some b => (byte_at b 0 =? 253) && (byte_at b 1 =? 255)
  | None => false
  end.

Definition GetNode (name : bytes) (d : CDummyDNS) : option INFO :=
  find (fun i => stricmp_eq name (szHost i)) (dns_ls d).

(** *** [GetDummyIP]: a search and, under a lock of its own, a new node *)

Definition next_dummy (m : Z) : Z :=
  let m := u32 (m + 1) in if DUMMY_LAST <? m then DUMMY_FIRST else m.

Definition new_info (m : Z) (lpHost : bytes) : INFO :=
  mkInfo (htonl m) ([253; 255] ++ replicate 10 0 ++ le_split 4 (htonl m)) (take 255 lpHost).

Definition add_node (lpHost : bytes) (d : CDummyDNS) : Z * CDummyDNS :=
  let m := next_dummy (m_DummyIP d) in
  (htonl m, mkDummyDNS m (m_DummyHandle d) (new_info m lpHost :: dns_ls d)).

Definition GetDummyIP (lpHost : bytes) (d : CDummyDNS) : Z * CDummyDNS :=
  match GetNode lpHost d with
  | Some node => (dummyIP node, d)
  | None => add_node lpHost d
  end.

Definition GetDummyIPv6 (lpHost : bytes) (d : CDummyDNS) : bytes * CDummyDNS :=
  let '(node, d) :=
    match GetNode lpHost d with
    | Some node => (Some node, d)
    | None => let '(_, d) := GetDummyIP lpHost d in (GetNode lpHost d, d)
    end in
  (match node with Some node => dummyIPv6 node | None => replicate 16 0 end, d).

(** The host of the first node with the address, cut to the buffer. *)
Definition GetHostByIP (dummyip : Z) (bufsize : nat) (d : CDummyDNS) : option bytes :=
  match find (fun i => dummyIP i =? dummyip) (dns_ls d) with
  | Some i => Some (take bufsize (szHost i))
  | None => None
  end.

Definition GetHostByIPv6 (address : bytes) (bufsize : nat) (d : CDummyDNS) : option bytes :=
  if (bufsize <=? 0)%nat then None
  else match find (fun i => bool_decide (dummyIPv6 i = address)) (dns_ls d) with
       | Some i => Some (take (bufsize - 1) (szHost i))
       | None => None
       end.

(** The handle of an asynchronous lookup. *)
Definition GetDummyHandle (name : bytes) (d : CDummyDNS) : Z * CDummyDNS :=
  let h := if 4294901760 <? m_DummyHandle d then 5374727 else m_DummyHandle d in
  let '(_, d) := GetDummyIP name d in
  (h, mkDummyDNS (m_DummyIP d) (h + 1) (dns_ls d)).

(** ** The table after some names *)

(** The [k]-th address given out. *)
Definition ip_at (k : nat) : Z := DUMMY_FIRST + Z.of_nat k mod 65535.

Fixpoint infos (hosts : list bytes) : list INFO :=
  match hosts with
  | [] => []
  | h :: r => new_info (ip_at (length hosts)) h :: infos r
  end.

(** [hosts] were entered, the newest first. *)
Definition entered (hosts : list bytes) (d : CDummyDNS) : Prop :=
  dns_ls d = infos hosts /\ m_DummyIP d = ip_at (length hosts).

(** What other threads do to the table: they enter nodes. *)
Inductive later : CDummyDNS -> CDummyDNS -> Prop :=
  | later_refl d : later d d
  | later_add h d d' : later (snd (add_node h d)) d' -> later d d'
  | later_handle h d d' : later (mkDummyDNS (m_DummyIP d) h (dns_ls d)) d' -> later d d'.

Lemma later_trans a b c : later a b -> later b c -> later a c.
Proof.
  induction 1 as [|h d d' H IH|h d d' H IH]; intros Hc; [done|by apply (later_add h), IH|by apply (later_handle h), IH].
Qed.

Lemma ip_at_range k : DUMMY_FIRST <= ip_at k <= DUMMY_LAST.
Proof. unfold ip_at, DUMMY_FIRST, DUMMY_LAST. pose proof (Z.mod_pos_bound (Z.of_nat k) 65535). lia. Qed.

Lemma next_ip_at k : next_dummy (ip_at k) = ip_at (S k).
Proof.
  unfold next_dummy. pose proof (ip_at_range k) as Hr. unfold DUMMY_FIRST, DUMMY_LAST in *.
  rewrite u32_small by lia. unfold ip_at, DUMMY_FIRST in *. set (z := Z.of_nat k) in *.
  rewrite Nat2Z.inj_succ, <- Z.add_1_r. fold z.
  pose proof (Z.div_mod z 65535). pose proof (Z.mod_pos_bound z 65535).
  destruct (Z.ltb_spec 2147483646 (2147418112 + z mod 65535 + 1)).
  - replace (z + 1) with (0 + (z / 65535 + 1) * 65535) by lia. rewrite Z_mod_plus_full. done.
  - replace (z + 1) with (z mod 65535 + 1 + z / 65535 * 65535) by lia.
    rewrite Z_mod_plus_full, (Z.mod_small (_ + 1)) by lia. lia.
Qed.

(** 65535 addresses in a row are different. *)
Lemma ip_at_inj j k :
  (j < k)%nat -> Z.of_nat (k - j) < 65535 -> ip_at j <> ip_at k.
Proof.
  intros Hj Hk E. unfold ip_at in E.
  assert (Hm : (Z.of_nat k - Z.of_nat j) mod 65535 = 0)
    by (rewrite Zminus_mod; replace (Z.of_nat k mod 65535) with (Z.of_nat j mod 65535) by lia;
        by rewrite Z.sub_diag).
  rewrite Z.mod_small in Hm by lia. lia.
Qed.

Lemma htonl_ip_at_inj j k : htonl (ip_at j) = htonl (ip_at k) -> ip_at j = ip_at k.
Proof.
  pose proof (ip_at_range j). pose proof (ip_at_range k). unfold DUMMY_FIRST, DUMMY_LAST in *.
  apply htonl_inj; lia.
Qed.

Lemma IsDummyIP_ip_at k : IsDummyIP (htonl (ip_at k)) = true.
Proof.
  unfold IsDummyIP. pose proof (ip_at_range k). unfold DUMMY_FIRST, DUMMY_LAST in *.
  rewrite htonl_involutive by lia. rewrite Z.shiftr_div_pow2 by lia. apply Z.eqb_eq.
  change (2 ^ 16) with 65536.
  replace (ip_at k) with (ip_at k - 2147418112 + 32767 * 65536) by lia.
  rewrite Z_div_plus_full, Z.div_small by lia. done.
Qed.

Lemma entered_new : entered [] new_CDummyDNS.
Proof. done. Qed.

Lemma entered_add h hosts d :
  entered hosts d ->
  add_node h d = (htonl (ip_at (S (length hosts))), snd (add_node h d)) /\
  entered (h :: hosts) (snd (add_node h d)).
Proof.
  intros [Hl Hm]. unfold add_node. rewrite Hm, next_ip_at. split; [done|]. split; [|done].
  simpl. by rewrite Hl.
Qed.

Lemma entered_later hosts d d' :
  entered hosts d -> later d d' -> exists more, entered (more ++ hosts) d'.
Proof.
  intros He Hl. revert hosts He. induction Hl as [d|h d d' Hl IH|h d d' Hl IH]; intros hosts He.
  - by exists [].
  - destruct (IH (h :: hosts) (proj2 (entered_add h hosts d He))) as (more & Hm).
    exists (more ++ [h]). by rewrite <- app_assoc.
  - apply IH. exact He.
Qed.

(** The node of the [k]-th name. *)
Lemma infos_find (P : INFO -> bool) more h r :
  (forall j g, (length r < j)%nat -> (j <= length more + S (length r))%nat ->
     j <> S (length r) -> P (new_info (ip_at j) g) = false) ->
  P (new_info (ip_at (S (length r))) h) = true ->
  find P (infos (more ++ h :: r)) = Some (new_info (ip_at (S (length r))) h).
Proof.
  intros Hn Hp. induction more as [|g more IH]; simpl; [by rewrite Hp|].
  rewrite length_app. simpl. rewrite Hn by (simpl; lia). apply IH.
  intros j g' Hj1 Hj2. apply Hn; simpl; lia.
Qed.

Lemma GetHostByIP_entered bufsize more h r d :
  entered (more ++ h :: r) d -> Z.of_nat (length (more ++ h :: r)) <= 65535 ->
  GetHostByIP (htonl (ip_at (S (length r)))) bufsize d = Some (take bufsize (take 255 h)).
Proof.
  intros [Hl _] Hlen. unfold GetHostByIP. rewrite Hl, length_app in *. simpl in Hlen.
  rewrite infos_find; [done| |simpl; by rewrite Z.eqb_refl].
  intros j g Hj1 Hj2 Hj3. simpl. apply Z.eqb_neq. intros E.
  apply htonl_ip_at_inj in E. symmetry in E. revert E. apply ip_at_inj; lia.
Qed.

Lemma GetHostByIPv6_entered bufsize more h r d :
  entered (more ++ h :: r) d -> Z.of_nat (length (more ++ h :: r)) <= 65535 -> (0 < bufsize)%nat ->
  GetHostByIPv6 (dummyIPv6 (new_info (ip_at (S (length r))) h)) bufsize d
  = Some (take (bufsize - 1) (take 255 h)).
Proof.
  intros [Hl _] Hlen Hb. unfold GetHostByIPv6.
  destruct (Nat.leb_spec bufsize 0); [lia|]. rewrite Hl, length_app in *. simpl in Hlen.
  rewrite infos_find; [done| |by apply bool_decide_eq_true].
  intros j g Hj1 Hj2 Hj3. apply bool_decide_eq_false. intros E.
  apply (f_equal (fun l => le_join (drop 12 l))) in E.
  cbn [dummyIPv6 new_info app replicate skipn] in E.
  rewrite !drop_0, !le_join_split in E.
  pose proof (htonl_range (ip_at j)). pose proof (htonl_range (ip_at (S (length r)))).
  change (256 ^ Z.of_nat 4) with 4294967296 in E.
  rewrite !Z.mod_small in E by lia. apply htonl_ip_at_inj in E. symmetry in E.
  revert E. apply ip_at_inj; lia.
Qed.

(** A node that is found is one that was entered. *)
Lemma GetNode_entered name hosts d n :
  entered hosts d -> GetNode name d = Some n ->
  exists more h r, hosts = more ++ h :: r /\ n = new_info (ip_at (S (length r))) h /\
    stricmp_eq name (take 255 h) = true.
Proof.
  intros [Hl _]. unfold GetNode. rewrite Hl. clear Hl. induction hosts as [|h r IH]; simpl; [done|].
  destruct (stricmp_eq name (take 255 h)) eqn:E.
  - intros [= <-]. by exists [], h, r.
  - intros H. destruct (IH H) as (more & h' & r' & -> & ? & ?). by exists (h :: more), h', r'.
Qed.

(** ** Addresses lead back to names *)

(** [GetDummyIP] answers [ip] for [name]: the address of a node that is there
    or, after others may have entered theirs, of a new one. *)
Definition answered (name : bytes) (d : CDummyDNS) (ip : Z) (d' : CDummyDNS) : Prop :=
  (exists n, GetNode name d = Some n /\ ip = dummyIP n /\ d' = d) \/ add_node name d = (ip, d').

Lemma answered_GetDummyIP name d : answered name d (fst (GetDummyIP name d)) (snd (GetDummyIP name d)).
Proof.
  unfold answered, GetDummyIP. destruct (GetNode name d) as [n|] eqn:E; [|by right]. left. eauto.
Qed.

Lemma length_infos hosts : length (infos hosts) = length hosts.
Proof. induction hosts; simpl; auto. Qed.

(** *** Nodes that stand for a name *)

Definition stands_for (name : bytes) (n : INFO) (d : CDummyDNS) : Prop :=
  exists more h r, entered (more ++ h :: r) d /\ n = new_info (ip_at (S (length r))) h /\
    stricmp_eq name (take 255 h) = true.

Lemma stands_later name n d d' : later d d' -> stands_for name n d -> stands_for name n d'.
Proof.
  intros Hl (more & h & r & He & -> & Hs). destruct (entered_later _ _ _ He Hl) as (new & He').
  exists (new ++ more), h, r. by rewrite <- app_assoc.
Qed.

Lemma found_stands name n d : later new_CDummyDNS d -> GetNode name d = Some n -> stands_for name n d.
Proof.
  intros H0 Hn. destruct (entered_later _ _ _ entered_new H0) as (hosts & He). rewrite app_nil_r in He.
  destruct (GetNode_entered _ _ _ _ He Hn) as (more & h & r & -> & -> & Hs). by exists more, h, r.
Qed.

Lemma answered_stands name d ip d1 :
  later new_CDummyDNS d -> answered name d ip d1 -> (length name <= 255)%nat ->
  exists n, stands_for name n d1 /\ ip = dummyIP n.
Proof.
  intros H0 [(n & Hn & -> & ->)|Ha] Hlen; [exists n; split; [by apply found_stands|done]|].
  destruct (entered_later _ _ _ entered_new H0) as (hosts & He). rewrite app_nil_r in He.
  destruct (entered_add name hosts d He) as [E1 E2]. rewrite Ha in *. injection E1 as ->.
  exists (new_info (ip_at (S (length hosts))) name). split; [|done].
  exists [], name, hosts. split_and!; [done..|]. rewrite take_ge by lia. apply stricmp_eq_refl.
Qed.

Lemma stands_found name n d : stands_for name n d -> exists n', GetNode name d = Some n'.
Proof.
  intros (more & h & r & [Hl _] & _ & Hs). unfold GetNode. rewrite Hl. clear Hl.
  induction more as [|g more IH]; simpl; [rewrite Hs; eauto|]. case_match; [by eexists|exact IH].
Qed.

Lemma stands_dummy name n d : stands_for name n d -> IsDummyIP (dummyIP n) = true /\ 0 <= dummyIP n < 4294967296.
Proof. intros (more & h & r & _ & -> & _). split; [apply IsDummyIP_ip_at|apply htonl_range]. Qed.

Lemma stands_dummy6 name n d : stands_for name n d ->
  IsDummyIPv6 (Some (dummyIPv6 n)) = true /\ length (dummyIPv6 n) = 16%nat.
Proof. intros (more & h & r & _ & -> & _). split; [done|]. by simpl. Qed.

Section Resolves.
Context {name : bytes} {n : INFO} {d : CDummyDNS} (Hn : stands_for name n d) (Hlen : Z.of_nat (length (dns_ls d)) <= 65535).

Lemma stands_ip : exists h, GetHostByIP (dummyIP n) 256 d = Some h /\ stricmp_eq name h = true.
Proof.
  destruct Hn as (more & h & r & He & -> & Hs). exists (take 255 h). split; [|done].
  rewrite (proj1 He), length_infos in Hlen. cbn [dummyIP new_info]. rewrite (GetHostByIP_entered 256 _ _ _ _ He Hlen).
  f_equal. by rewrite take_take, Nat.min_r by lia.
Qed.

Lemma stands_ip6 : exists h, GetHostByIPv6 (dummyIPv6 n) 256 d = Some h /\ stricmp_eq name h = true.
Proof.
  destruct Hn as (more & h & r & He & -> & Hs). exists (take 255 h). split; [|done].
  rewrite (proj1 He), length_infos in Hlen. rewrite (GetHostByIPv6_entered 256 _ _ _ _ He Hlen) by lia.
  f_equal. by rewrite take_take, Nat.min_r by lia.
Qed.
End Resolves.

(** C33: Whatever other threads enter in between, the address a name was given leads
    back to that name, by its IPv4 and its IPv6 form, while the table holds no
    more than 65535 names. *)
Theorem dummy_resolves (name : bytes) (d d1 d2 : CDummyDNS) (ip : Z) :
  later new_CDummyDNS d -> answered name d ip d1 -> later d1 d2 ->
  (length name <= 255)%nat -> Z.of_nat (length (dns_ls d2)) <= 65535 ->
  IsDummyIP ip = true /\
  (exists h, GetHostByIP ip 256 d2 = Some h /\ stricmp_eq name h = true) /\
  exists h6, GetHostByIPv6 (fst (GetDummyIPv6 name d1)) 256 d2 = Some h6 /\ stricmp_eq name h6 = true /\
    IsDummyIPv6 (Some (fst (GetDummyIPv6 name d1))) = true.
Proof.
  intros H0 Ha H12 Hname Hlen. destruct (answered_stands _ _ _ _ H0 Ha Hname) as (n & Hn & ->).
  split; [by eapply stands_dummy|]. split; [eapply stands_ip; [by eapply stands_later|done]|].
  destruct (stands_found _ _ _ Hn) as (n' & En). unfold GetDummyIPv6. rewrite En. cbn [fst].
  assert (Hn' : stands_for name n' d1).
  { apply found_stands; [|done]. apply (later_trans _ d); [done|].
    destruct Ha as [(? & _ & _ & ->)|Ha]; [apply later_refl|]. apply (later_add name). rewrite Ha. apply later_refl. }
  destruct (stands_ip6 (stands_later _ _ _ _ H12 Hn') Hlen) as (h & Eh & Hs). exists h.
  split_and!; [done..|]. by eapply stands_dummy6.
Qed.

(** ** The table is full *)

(** Names looked up one after the other. *)
Definition look_up (names : list bytes) (d : CDummyDNS) : CDummyDNS :=
  fold_left (fun d name => snd (GetDummyIP name d)) names d.

Abbreviation folded := (map (map tolower)).

Lemma stricmp_folded a b : stricmp_eq a b = true <-> map tolower a = map tolower b.
Proof. unfold stricmp_eq. apply bool_decide_eq_true. Qed.

Lemma GetNode_absent name hosts d :
  entered hosts d -> Forall (fun h => (length h <= 255)%nat) hosts ->
  map tolower name ∉ folded hosts -> GetNode name d = None.
Proof.
  intros He Hl Hn. destruct (GetNode name d) as [n|] eqn:E; [|done].
  destruct (GetNode_entered _ _ _ _ He E) as (more & h & r & -> & -> & Hs).
  apply Forall_app in Hl as [_ Hl]. apply Forall_cons in Hl as [Hh _].
  rewrite take_ge in Hs by lia. apply stricmp_folded in Hs. exfalso. apply Hn.
  rewrite Hs. apply list_elem_of_In, in_map, in_app_iff. right. by left.
Qed.

Lemma look_up_entered names hosts d :
  entered hosts d -> NoDup (folded (rev names ++ hosts)) ->
  Forall (fun h => (length h <= 255)%nat) (rev names ++ hosts) ->
  entered (rev names ++ hosts) (look_up names d).
Proof.
  revert hosts d. induction names as [|n names IH]; intros hosts d He Hd Hl; [done|].
  simpl in *. rewrite <- app_assoc in *. simpl in *. apply IH; [|done|done].
  unfold GetDummyIP. rewrite map_app in Hd. apply NoDup_app in Hd as (_ & _ & Hd).
  apply Forall_app in Hl as [_ Hl]. apply Forall_cons in Hl as [_ Hl].
  simpl in Hd. apply NoDup_cons in Hd as [Hn _].
  rewrite (GetNode_absent n hosts d) by done. by apply entered_add.
Qed.

(** The 65536th name takes the address of the first: a connection to the first
    name is then made to the last. *)
Theorem dummy_table_wraps (a b : bytes) (names : list bytes) :
  Z.of_nat (length (a :: names)) = 65535 -> NoDup (folded (a :: names ++ [b])) ->
  Forall (fun h => (length h <= 255)%nat) (a :: names ++ [b]) ->
  let d := look_up (a :: names ++ [b]) new_CDummyDNS in
  let '(ip, d') := GetDummyIP a d in
  d' = d /\ GetHostByIP ip 256 d' = Some b /\ stricmp_eq a b = false.
Proof.
  intros Hn Hd Hl d.
  assert (Hp : rev (a :: names ++ [b]) ≡ₚ a :: names ++ [b]) by apply Permutation_sym, Permutation_rev.
  assert (He : entered (rev (a :: names ++ [b]) ++ []) d).
  { apply look_up_entered; [apply entered_new| |]; rewrite app_nil_r.
    - eapply NoDup_Permutation_proper; [apply Permutation_map, Hp|done].
    - by rewrite Hp. }
  rewrite app_nil_r in He. simpl in He. rewrite rev_app_distr in He. simpl in He.
  assert (Hdis : map tolower a ∉ folded (names ++ [b])) by by apply NoDup_cons in Hd as [? _].
  assert (Hlast : exists n, GetNode a d = Some n /\ n = new_info (ip_at 1) a).
  { assert (Hs : stricmp_eq a (take 255 a) = true).
    { apply Forall_cons in Hl as [Hla _]. rewrite take_ge by lia. apply stricmp_eq_refl. }
    destruct (stands_found a (new_info (ip_at 1) a) d) as (n & En); [by exists (b :: rev names), a, []|]. exists n. split; [done|].
    destruct (GetNode_entered _ _ _ _ He En) as (more & h & r & E & -> & Hs').
    destruct r as [|g r]; [by apply (app_inj_tail (b :: rev names) more a h) in E as [_ <-]|].
    exfalso. destruct (exists_last (l := g :: r)) as (r' & z & Er); [done|]. rewrite Er in E.
    replace (more ++ h :: r' ++ [z]) with ((more ++ h :: r') ++ [z]) in E by by rewrite <- app_assoc.
    apply (app_inj_tail (b :: rev names)) in E as [E _].
    assert (Hin : h ∈ names ++ [b]).
    { apply list_elem_of_In, in_app_iff. assert (Hin : In h (b :: rev names)) by (rewrite E; apply in_app_iff; right; by left).
      destruct Hin as [<-|Hin]; [right; by left|left; by apply in_rev in Hin]. }
    apply Forall_cons in Hl as [_ Hl]. rewrite Forall_forall in Hl. specialize (Hl h Hin).
    rewrite take_ge in Hs' by lia. apply stricmp_folded in Hs'. apply Hdis. rewrite Hs'.
    apply list_elem_of_In, in_map. by apply list_elem_of_In. }
  destruct Hlast as (n & En & ->). unfold GetDummyIP. rewrite En. split; [done|]. split.
  - destruct He as [Hls _]. unfold GetHostByIP. rewrite Hls. simpl infos.
    assert (Eb : ip_at (S (length (rev names ++ [a]))) = ip_at 1).
    { unfold ip_at. f_equal. rewrite length_app, length_rev. cbn [length] in *.
      assert (E2 : Z.of_nat (S (length names + 1)) = 1 + 1 * 65535) by (clear - Hn; lia).
      by rewrite E2, Z_mod_plus_full. }
    rewrite Eb. cbn [find dummyIP new_info]. rewrite Z.eqb_refl. cbn [szHost new_info].
    apply Forall_cons in Hl as [_ Hl]. apply Forall_app in Hl as [_ Hb]. apply Forall_cons in Hb as [Hb _].
    by rewrite !take_ge by (rewrite ?length_take; lia).
  - destruct (stricmp_eq a b) eqn:E; [|done]. apply stricmp_folded in E. exfalso. apply Hdis.
    rewrite E. apply list_elem_of_In, in_map, in_app_iff. right. by left.
Qed.

Definition a_name : bytes := ascii_bytes "example.org".

Lemma dummy_resolves_witness :
  let '(ip, d1) := GetDummyIP a_name new_CDummyDNS in
  let d2 := snd (add_node (ascii_bytes "example.net") d1) in
  IsDummyIP ip = true /\
  (exists h, GetHostByIP ip 256 d2 = Some h /\ stricmp_eq a_name h = true) /\
  exists h6, GetHostByIPv6 (fst (GetDummyIPv6 a_name d1)) 256 d2 = Some h6 /\ stricmp_eq a_name h6 = true /\
    IsDummyIPv6 (Some (fst (GetDummyIPv6 a_name d1))) = true.
Proof.
  apply (dummy_resolves a_name new_CDummyDNS (snd (GetDummyIP a_name new_CDummyDNS))
           (snd (add_node (ascii_bytes "example.net") (snd (GetDummyIP a_name new_CDummyDNS))))
           (fst (GetDummyIP a_name new_CDummyDNS))).
  - apply later_refl.
  - apply answered_GetDummyIP.
  - eapply later_add, later_refl.
  - apply Nat.leb_le. reflexivity.
  - apply Z.leb_le. reflexivity.
Defined.

(** 65536 names. *)
Definition numbered (i : nat) : bytes :=
  let z := Z.of_nat i in map (Z.add 97) [z mod 16; z / 16 mod 16; z / 256 mod 16; z / 4096 mod 16].

Lemma numbered_inj i j :
  Z.of_nat i < 65536 -> Z.of_nat j < 65536 -> numbered i = numbered j -> i = j.
Proof.
  intros Hi Hj E. unfold numbered in E. cbn [map] in E. injection E as E0 E1 E2 E3.
  assert (D : forall z, 0 <= z < 65536 ->
    z = z mod 16 + 16 * (z / 16 mod 16) + 256 * (z / 256 mod 16) + 4096 * (z / 4096 mod 16)).
  { intros z Hz. rewrite (Z.mod_small (z / 4096)) by (split; [apply Z.div_pos|apply Z.div_lt_upper_bound]; lia).
    change 4096 with (16 * (16 * 16)) at 2. change 256 with (16 * 16) at 2.
    rewrite <- !Z.div_div by lia. set (q := z / 16). set (q2 := q / 16).
    pose proof (Z.div_mod z 16). pose proof (Z.div_mod q 16). pose proof (Z.div_mod q2 16). lia. }
  pose proof (D (Z.of_nat i)). pose proof (D (Z.of_nat j)). lia.
Qed.

Lemma tolower_numbered i : map tolower (numbered i) = numbered i.
Proof.
  unfold numbered. rewrite map_map. apply map_ext_in. intros z Hz. unfold tolower.
  assert (97 <= 97 + z).
  { simpl in Hz. destruct Hz as [<-|[<-|[<-|[<-|[]]]]];
      match goal with |- context [?a mod 16] => pose proof (Z.mod_pos_bound a 16) end; lia. }
  destruct (Z.leb_spec 65 (97 + z)), (Z.leb_spec (97 + z) 90); simpl; lia.
Qed.

Definition many_names : list bytes := map numbered (seq 0 (Z.to_nat 65534)).

Lemma many_names_folded : folded many_names = many_names.
Proof. unfold many_names. rewrite map_map. apply map_ext. apply tolower_numbered. Qed.

Lemma many_names_distinct : NoDup ([122] :: many_names ++ [[121]]).
Proof.
  assert (Hl : forall n, n ∈ many_names -> length n = 4%nat).
  { intros n Hn. apply list_elem_of_In, in_map_iff in Hn as (i & <- & _). done. }
  apply NoDup_cons. split.
  - rewrite elem_of_app. intros [H|H]; [by apply Hl in H|]. by apply list_elem_of_singleton in H.
  - apply NoDup_app. split_and!.
    + apply NoDup_fmap_2_strong; [|apply NoDup_seq]. intros i j Hi Hj. apply elem_of_seq in Hi, Hj.
      apply numbered_inj; lia.
    + intros n Hn H. apply list_elem_of_singleton in H as ->. by apply Hl in Hn.
    + apply NoDup_singleton.
Qed.

Lemma dummy_table_wraps_witness :
  let d := look_up ([122] :: many_names ++ [[121]]) new_CDummyDNS in
  let '(ip, d') := GetDummyIP [122] d in
  d' = d /\ GetHostByIP ip 256 d' = Some [121] /\ stricmp_eq [122] [121] = false.
Proof.
  apply (dummy_table_wraps [122] [121] many_names).
  - unfold many_names. cbn [length]. rewrite length_map, length_seq. lia.
  - rewrite map_cons, map_app, many_names_folded. apply many_names_distinct.
  - rewrite Forall_cons, Forall_app. split; [simpl; lia|]. split; [|repeat constructor; simpl; lia].
    apply Forall_forall. intros n Hn. apply list_elem_of_In, in_map_iff in Hn as (i & <- & _).
    simpl. lia.
Defined.
