(* ===== verification/HackedSockets.v ===== *)
(** * The sockets a process has redirected (CHackedSocket of HookWinsock.h)

    Three lists, each under a lock of its own: the requests that were
    registered, a generation for each socket, and the largest payload of each
    datagram route. *)

From S2P Require Import Prelude Winsock SockAddr UdpPolicy PipeRecords.

Record SOCKETGEN := mkGen { sg_s : Z; sg_type : Z; sg_generation : Z }.

Record UDP_PAYLOAD_LIMIT := mkLimit {
  ul_s : Z; ul_generation : Z; ul_destination : _SockAddr; ul_destinationPort : Z;
  ul_domain : bytes; ul_maxPayload : Z; ul_connected : bool
}.

Record CHackedSocket := mkHacked {
  hk_ls : list ClientMessage;
  hk_generations : list SOCKETGEN;
  hk_limits : list UDP_PAYLOAD_LIMIT;
  hk_nextGeneration : Z
}.

Definition new_CHackedSocket : CHackedSocket := mkHacked [] [] [] 0.

Definition set_hk_ls (l : list ClientMessage) (h : CHackedSocket) : CHackedSocket :=
  mkHacked l (hk_generations h) (hk_limits h) (hk_nextGeneration h).
Definition set_hk_limits (l : list UDP_PAYLOAD_LIMIT) (h : CHackedSocket) : CHackedSocket :=
  mkHacked (hk_ls h) (hk_generations h) l (hk_nextGeneration h).

(** The first match is overwritten, or a new element is put in front. *)
Fixpoint overwrite {A} (P : A -> bool) (x : A) (l : list A) : option (list A) :=
  match l with
  | [] => None
  | a :: r => if P a then Some (x :: r)
              else match overwrite P x r with Some r' => Some (a :: r') | None => None end
  end.

Definition GetSocketGeneration (s sType : Z) (h : CHackedSocket) : Z * CHackedSocket :=
  match find (fun it => (sg_s it =? s) && (sg_type it =? sType)) (hk_generations h) with
  | Some it => (sg_generation it, h)
  | None =>
      let generation := u64 (hk_nextGeneration h + 1) in
      let generation := if generation =? 0 then u64 (generation + 1) else generation in
      (generation,
       mkHacked (hk_ls h) (hk_generations h ++ [mkGen s sType generation]) (hk_limits h) generation)
  end.

Definition same_request (it pCI : PRCClient) : bool :=
  (c_s it =? c_s pCI) && (sType it =? sType pCI)
  && (GetPort (srcAddr it) =? GetPort (srcAddr pCI))
  && sockaddr_eq (dstAddr it) (dstAddr pCI)
  && stricmp_eq (szDomainName it) (szDomainName pCI).

Definition push (pCI : ClientMessage) (h : CHackedSocket) : CHackedSocket :=
  match overwrite (fun it => same_request (cm_client it) (cm_client pCI)) pCI (hk_ls h) with
  | Some l => set_hk_ls l h
  | None => set_hk_ls (pCI :: hk_ls h) h
  end.

Definition on_socket (s : Z) (it : ClientMessage) : bool := c_s (cm_client it) =? s.

(** The number of requests removed, and the first of them. *)
Definition remove (s : Z) (h : CHackedSocket) : (nat * option ClientMessage) * CHackedSocket :=
  (length (List.filter (on_socket s) (hk_ls h)), find (on_socket s) (hk_ls h),
   mkHacked (List.filter (fun it => negb (on_socket s it)) (hk_ls h))
     (List.filter (fun it => negb (sg_s it =? s)) (hk_generations h))
     (List.filter (fun it => negb (ul_s it =? s)) (hk_limits h)) (hk_nextGeneration h)).

(** ** Payload limits *)

Definition same_limit (pCI : PRCClient) (it : UDP_PAYLOAD_LIMIT) : bool :=
  (ul_s it =? c_s pCI) && (ul_generation it =? socketGeneration pCI)
  && sockaddr_eq (ul_destination it) (dstAddr pCI) && stricmp_eq (ul_domain it) (szDomainName pCI).

Definition limited (maxPayload : Z) (connected : bool) (it : UDP_PAYLOAD_LIMIT) : UDP_PAYLOAD_LIMIT :=
  mkLimit (ul_s it) (ul_generation it) (ul_destination it) (ul_destinationPort it) (ul_domain it)
    maxPayload connected.

Definition SetUDPMaxPayload (pCI : PRCClient) (maxPayload : Z) (connected : bool) (h : CHackedSocket)
    : CHackedSocket :=
  if negb (sType pCI =? SOCK_DGRAM) then h
  else
    match find (same_limit pCI) (hk_limits h) with
    | Some it =>
        match overwrite (same_limit pCI) (limited maxPayload connected it) (hk_limits h) with
        | Some l => set_hk_limits l h
        | None => h
        end
    | None =>
        set_hk_limits
          (mkLimit (c_s pCI) (socketGeneration pCI) (dstAddr pCI) (GetPort (dstAddr pCI))
             (take 255 (szDomainName pCI)) maxPayload connected :: hk_limits h) h
    end.

Definition GetUDPMaxPayload (pCI : PRCClient) (h : CHackedSocket) : option Z :=
  ul_maxPayload <$> find (same_limit pCI) (hk_limits h).

Definition GetConnectedUDPMaxPayload (s : Z) (h : CHackedSocket) : option Z :=
  ul_maxPayload <$> find (fun it => (ul_s it =? s) && ul_connected it) (hk_limits h).

Definition GetInfo (s : Z) (h : CHackedSocket) : option ClientMessage := find (on_socket s) (hk_ls h).

(** ** Datagram routes *)

(** The request has the socket and source of [it] and the same destination. *)
Definition routes (pCI : PRCClient) (it : ClientMessage) : bool :=
  let c := cm_client it in
  (c_s c =? c_s pCI) && (sType c =? SOCK_DGRAM)
  && (GetPort (srcAddr c) =? GetPort (srcAddr pCI))
  && (IsAny (srcAddr c) || SameAddress (srcAddr c) (srcAddr pCI))
  && (if IsDNValid (szDomainName pCI)
      then IsDNValid (szDomainName c) && stricmp_eq (szDomainName c) (szDomainName pCI)
           && (GetPort (dstAddr c) =? GetPort (dstAddr pCI))
      else negb (IsDNValid (szDomainName c)) && sockaddr_eq (dstAddr c) (dstAddr pCI)).

(** The route's local address. *)
Definition IsUDPReqHacked (pCI : PRCClient) (h : CHackedSocket) : option _SockAddr :=
  (fun it => udpAddr (cm_client it)) <$> find (routes pCI) (hk_ls h).

Definition IsUDPRouteAddress (s : Z) (destination : _SockAddr) (h : CHackedSocket) : bool :=
  if negb (sa_family destination =? AF_INET) && negb (sa_family destination =? AF_INET6) then false
  else
    existsb (fun it =>
      let c := cm_client it in
      (c_s c =? s) && (sType c =? SOCK_DGRAM) && (GetPort (udpAddr c) =? GetPort destination)
      && (SameAddress (udpAddr c) destination || (IsAny (udpAddr c) && IsLoopback destination)))
      (hk_ls h).

(** ** [CanHackIt] *)

Inductive HookDecision := HOOK_BYPASS | HOOK_REDIRECTED | HOOK_FAILED.

#[global] Instance HookDecision_eq_dec : EqDecision HookDecision.
Proof. solve_decision. Defined.

(** Winsock's [inet_addr]. *)
Class InetText := inet_addr : bytes -> Z.

(** [s_net], [s_host] and [s_lh] of an [in_addr]. *)
Definition s_net (a : Z) : Z := byte_at (octets a) 0.
Definition s_host (a : Z) : Z := byte_at (octets a) 1.
Definition s_lh (a : Z) : Z := byte_at (octets a) 2.

Section CanHack.
Context {inet : InetText}.

(** The destination is in a range taken to be local, and the proxy is not. *)
Definition local_only (dstaddr proxyaddr : Z) : bool :=
  let elsewhere := negb (s_net proxyaddr =? s_net dstaddr) || negb (s_host proxyaddr =? s_host dstaddr)
                   || negb (s_lh proxyaddr =? s_lh dstaddr) in
  if s_net dstaddr =? 127 then negb (s_net proxyaddr =? 127)
  else if (s_net dstaddr =? 192) && (s_host dstaddr =? 168) then elsewhere
  else if (s_net dstaddr =? 172) && (16 <=? s_host dstaddr) && (s_host dstaddr <=? 131) then elsewhere
  else if s_net dstaddr =? 10 then elsewhere
  else false.

(** After the PRC answered with the proxy. *)
Definition CanHackIt (psi : ProxySettingsInfo) (pCI : PRCClient) (pi : ProxyInfo) : HookDecision :=
  if ShouldRedirect pCI psi pi then HOOK_REDIRECTED
  else if IsDNValid (szDomainName pCI) then HOOK_REDIRECTED
  else if IsIPv6 (dstAddr pCI) then HOOK_REDIRECTED
  else
    let dstaddr := GetdwIP (dstAddr pCI) in
    let proxyaddr := inet_addr (strProxyHost pi) in
    if (dstaddr =? 0) || (dstaddr =? INADDR_NONE) then HOOK_BYPASS
    else if (proxyaddr =? 0) || (proxyaddr =? INADDR_NONE) then HOOK_REDIRECTED
    else if bHookLanIP psi then HOOK_REDIRECTED
    else if local_only dstaddr proxyaddr then HOOK_BYPASS
    else HOOK_REDIRECTED.

(** A connection to a public address between 172.32.0.0 and 172.131.255.255 is
    taken for one of the local network and left alone, unless the proxy itself
    is in 172.0.0.0/8: the private range 172.16.0.0/12 ends at 172.31, and that
    is where the rule for private resolvers ends it. *)
Theorem public_range_bypasses (psi : ProxySettingsInfo) (pCI : PRCClient) (pi : ProxyInfo) (b2 b3 b4 : Z) :
  32 <= b2 <= 131 -> 0 <= b3 < 256 -> 0 <= b4 < 256 ->
  GetdwIP (dstAddr pCI) = le_join [172; b2; b3; b4] -> IsIPv6 (dstAddr pCI) = false ->
  IsDNValid (szDomainName pCI) = false -> bHookLanIP psi = false ->
  0 < inet_addr (strProxyHost pi) < INADDR_NONE -> s_net (inet_addr (strProxyHost pi)) <> 172 ->
  IsPrivateDnsAddress (dstAddr pCI) = false /\ CanHackIt psi pCI pi = HOOK_BYPASS.
Proof.
  intros H2 H3 H4 Hip H6 Hdn Hlan Hpr Hnet.
  assert (Hok : bytes_ok [172; b2; b3; b4]) by (unfold bytes_ok, byte_ok; repeat constructor; lia).
  assert (Hp : IsPrivateDnsAddress (dstAddr pCI) = false).
  { unfold IsPrivateDnsAddress, GetAddr6. rewrite H6, Hip, octets_le_join by done. unfold byte_at. cbn [nth].
    destruct (_ || IsIPv4Mapped _); [|done]. cbn [Z.eqb Pos.eqb andb orb]. lia. }
  split; [done|].
  unfold CanHackIt, ShouldRedirect. rewrite Hp, Hdn, H6, Hlan, Hip, !andb_false_r.
  assert (Hr : 0 < le_join [172; b2; b3; b4] < 4294967295) by (cbn [le_join]; lia).
  unfold INADDR_NONE in *.
  destruct (Z.eqb_spec (le_join [172; b2; b3; b4]) 0); [lia|].
  destruct (Z.eqb_spec (le_join [172; b2; b3; b4]) 4294967295); [lia|].
  destruct (Z.eqb_spec (inet_addr (strProxyHost pi)) 0); [lia|].
  destruct (Z.eqb_spec (inet_addr (strProxyHost pi)) 4294967295); [lia|]. cbn [orb].
  assert (En : s_net (le_join [172; b2; b3; b4]) = 172) by (unfold s_net; by rewrite octets_le_join).
  assert (Eh : s_host (le_join [172; b2; b3; b4]) = b2) by (unfold s_host; by rewrite octets_le_join).
  unfold local_only. rewrite En, Eh. cbn [Z.eqb Pos.eqb andb].
  destruct (Z.eqb_spec (s_net (inet_addr (strProxyHost pi))) 172); [lia|]. cbn [negb orb].
  destruct (Z.leb_spec 16 b2), (Z.leb_spec b2 131); try lia. done.
Qed.
End CanHack.

(** 172.64.0.1, and a proxy at 192.0.2.1. *)
Definition public_request : PRCClient :=
  mkPRCClient 1 0 0 SOCK_STREAM 5 [] (mkSockAddr AF_INET 0 (replicate 24 0))
    (mkSockAddr AF_INET 47873 ([172; 64; 0; 1] ++ replicate 20 0)) (mkSockAddr 0 0 (replicate 24 0)) 0 0
    (mkSockAddr 0 0 (replicate 24 0)).

Lemma public_range_bypasses_witness :
  let inet : InetText := fun _ => le_join [192; 0; 2; 1] in
  let psi := mkProxySettingsInfo true true 0 true false false false false false true (mkSockAddr 0 0 (replicate 24 0)) in
  let pi := mkProxyInfo [] [] (ascii_bytes "192.0.2.1") 1080 [] [] 0 [] in
  IsPrivateDnsAddress (dstAddr public_request) = false /\ CanHackIt psi public_request pi = HOOK_BYPASS.
Proof.
  intros inet psi pi. apply (public_range_bypasses psi public_request pi 64 0 1); try done; try lia.
Defined.
