(* ===== verification/HookSystem.v ===== *)
(** * Programs of a hooked process

    A detour is a program as a tree of calls: to Winsock, to the host over the
    pipe, to the browser policy, and to the process's own tables, each of which
    is used under a lock of its own and is therefore one atomic step.  Other
    threads may run between any two calls.

    [wp] says what holds of every run: [rely] bounds what other threads and the
    system change in between, [ok] is what must hold of each call where it is
    made, [answers] what the outside may answer. *)

From S2P Require Import Prelude Winsock SockAddr UdpBlockLogLimiter PipeRecords PipeCalls DummyDns HackedSockets.

Inductive connect_fn := fn_connect | fn_WSAConnect | fn_ConnectEx.

(** A [WSAMSG] without its control data; buffers are known by their lengths. *)
Record WSAMSG := mkMsg {
  msg_name : option _SockAddr; msg_namelen : Z; msg_buffers : option (list Z)
}.

(** What a resolver is asked with; names of the wide functions are wide. *)
Inductive lookup_fn := fn_getaddrinfo | fn_GetAddrInfoW | fn_GetAddrInfoExW.

Record Hints := mkHints { h_flags : Z; h_family : Z }.

Record AddressInfo := mkAddressInfo { ai_family : Z; ai_addr : option _SockAddr; ai_addrlen : Z }.

(** The functions behind the detours, with the arguments the detours look at. *)
Inductive real_call :=
  | real_connect (fn : connect_fn) (s : Z) (name : option _SockAddr) (namelen : Z)
  | real_sendto (s len flags : Z) (to : option _SockAddr) (tolen : Z)
  | real_WSASendTo (s : Z) (buffers : option (list Z)) (flags : Z) (to : option _SockAddr) (tolen : Z)
  | real_WSASendMsg (s : Z) (msg : option WSAMSG) (flags : Z)
  | real_closesocket (s : Z)
  | real_lookup (fn : lookup_fn) (name : option (list Z)) (hints : option Hints).

(** The pipe kept for requests, and one connected for a single use. *)
Inductive pipe := RequestPipe | OwnPipe.

(** The tables of [CHookWinsock]. *)
Record HookState := mkHook {
  m_DummyDNS : CDummyDNS;
  m_HackedSocket : CHackedSocket;
  m_udpBlockLogLimiter : CUdpBlockLogLimiter;
  m_ConnState : bool                      (* of [m_RequestPipe] *)
}.
Definition set_m_DummyDNS (d : CDummyDNS) (h : HookState) : HookState :=
  mkHook d (m_HackedSocket h) (m_udpBlockLogLimiter h) (m_ConnState h).
Definition set_m_HackedSocket (k : CHackedSocket) (h : HookState) : HookState :=
  mkHook (m_DummyDNS h) k (m_udpBlockLogLimiter h) (m_ConnState h).
Definition set_m_udpBlockLogLimiter (l : CUdpBlockLogLimiter) (h : HookState) : HookState :=
  mkHook (m_DummyDNS h) (m_HackedSocket h) l (m_ConnState h).
Definition set_m_ConnState (b : bool) (h : HookState) : HookState :=
  mkHook (m_DummyDNS h) (m_HackedSocket h) (m_udpBlockLogLimiter h) b.

Inductive call : Type -> Type :=
  (* Winsock and the system *)
  | GetSockType (s : Z) : call (option Z)                        (* SO_TYPE *)
  | GetSockName (s : Z) : call (option (_SockAddr * Z))
  | GetPeerName (s : Z) : call (option (_SockAddr * Z))
  | Bind (s : Z) (a : _SockAddr) : call bool
  | GetError : call Z
  | SetError (e : Z) : call unit
  | GetThreadId : call Z
  | ModuleFileName : call (list Z)
  | Real (c : real_call) : call (Z * option Z)                   (* result, count stored *)
  | Lookup (c : real_call) : call (Z * list AddressInfo)         (* a resolver: result, the list *)
  | InetPton (family : Z) (name : bytes) : call bool             (* the name is a literal *)
  | ToAnsi (name : list Z) : call (option bytes)                 (* WideCharToMultiByte, 256 bytes *)
  (* the host *)
  | PipeConnect (p : pipe) : call bool
  | PipeDisconnect (p : pipe) : call unit
  | Rpc (p : pipe) (rq : request) : call response
  (* the browser policy *)
  | QuicEnabled : call bool
  | QuicOnUdp : call Z
  | QuicNeedsPublish : call bool
  | QuicPublish : call unit
  (* the process's own memory *)
  | Table {R : Type} (f : HookState -> R * HookState) : call R
  | TableAt {R : Type} (f : Z -> HookState -> R * HookState) : call R   (* the clock is read inside *)
  | LockPipe : call unit
  | UnlockPipe : call unit.

Inductive prog (A : Type) : Type :=
  | Ret (a : A)
  | Step {R : Type} (c : call R) (k : R -> prog A).
Arguments Ret {A} a.
Arguments Step {A R} c k.

#[global] Instance prog_ret : MRet prog := @Ret.
#[global] Instance prog_bind : MBind prog :=
  fun A B f => fix go p :=
    match p with
    | Ret a => f a
    | Step c k => Step c (fun r => go (k r))
    end.

Definition do_ {R} (c : call R) : prog R := Step c Ret.
Definition table {R} (f : HookState -> R * HookState) : prog R := do_ (Table f).
Definition look {R} (f : HookState -> R) : prog R := table (fun h => (f h, h)).
Definition change_ (f : HookState -> HookState) : prog unit := table (fun h => (tt, f h)).

(** [CScopedCriticalSection] on [m_RequestPipeLock]. *)
Definition locked {A} (p : prog A) : prog A :=
  do_ LockPipe;; a ← p; do_ UnlockPipe;; mret a.

(** ** Weakest preconditions *)

Section Wp.
(** The state: the tables, and what a statement records of the run. *)
Context {G : Type}.
Record hook_world := mkWorld { tables : HookState; ghost : G }.
Variable rely : hook_world -> hook_world -> Prop.
Variable ok : forall R, call R -> hook_world -> Prop.
Variable answers : forall R, call R -> hook_world -> R -> hook_world -> Prop.
Variable see : HookState -> G -> G.             (* the tables when they are used *)

(** The table calls are their functions; the others are the outside's. *)
Definition outcome {R} (c : call R) : hook_world -> R -> hook_world -> Prop :=
  match c in call R0 return hook_world -> R0 -> hook_world -> Prop with
  | Table f => fun w r w' => r = fst (f (tables w)) /\ w' = mkWorld (snd (f (tables w))) (see (tables w) (ghost w))
  | TableAt f => fun w r w' => exists now, 0 <= now < 4294967296 /\
      r = fst (f now (tables w)) /\ w' = mkWorld (snd (f now (tables w))) (see (tables w) (ghost w))
  | c => answers _ c
  end.

Fixpoint wp {A} (p : prog A) (Q : A -> hook_world -> Prop) (w : hook_world) : Prop :=
  match p with
  | Ret a => Q a w
  | Step c k =>
      forall w1, rely w w1 ->
        ok _ c w1 /\ forall r w2, outcome c w1 r w2 -> wp (k r) Q w2
  end.

Lemma wp_prog_bind {A B} (p : prog A) (f : A -> prog B) Q w :
  wp p (fun a w' => wp (f a) Q w') w -> wp (p ≫= f) Q w.
Proof.
  revert w. induction p as [a|R c k IH]; intros w H; [done|].
  simpl in *. intros w1 Hr. destruct (H w1 Hr) as [Hok Hk]. split; [done|].
  intros r w2 Ho. apply IH. by apply Hk.
Qed.

Lemma wp_prog_mono {A} (p : prog A) (P Q : A -> hook_world -> Prop) w :
  wp p P w -> (forall a w', P a w' -> Q a w') -> wp p Q w.
Proof.
  revert w. induction p as [a|R c k IH]; intros w H HPQ; [by apply HPQ|].
  simpl in *. intros w1 Hr. destruct (H w1 Hr) as [Hok Hk]. split; [done|].
  intros r w2 Ho. apply IH; [by apply Hk|done].
Qed.

Lemma wp_prog_ret {A} (a : A) (Q : A -> hook_world -> Prop) w : Q a w -> wp (mret a) Q w.
Proof. done. Qed.

Lemma wp_do {R} (c : call R) (Q : R -> hook_world -> Prop) w :
  (forall w1, rely w w1 -> ok _ c w1 /\ forall r w2, outcome c w1 r w2 -> Q r w2) -> wp (do_ c) Q w.
Proof. done. Qed.

Lemma wp_prog_if {A} (b : bool) (p q : prog A) Q w :
  (b = true -> wp p Q w) -> (b = false -> wp q Q w) -> wp (if b then p else q) Q w.
Proof. destruct b; auto. Qed.
End Wp.
Arguments hook_world G : clear implicits.
Arguments mkWorld {G} tables ghost.

From S2P Require Import UdpPolicy.

(** * Addresses as the detours see them (HookWinsock.cpp) *)

(** A pointer to a SOCKADDR with its length: an address becomes a [_SockAddr],
    an IPv4-mapped one an IPv4 address. *)
Definition NormalizeSocketAddress (address : option _SockAddr) (addressLength : Z) : option _SockAddr :=
  match address with
  | None => None
  | Some a =>
      if (sa_family a =? AF_INET) && (sizeof_SOCKADDR_IN <=? addressLength)
      then Set_ (Some a) sizeof_SOCKADDR_IN
      else if negb (sa_family a =? AF_INET6) || (addressLength <? sizeof_SOCKADDR_IN6) then None
      else if negb (IN6_IS_ADDR_V4MAPPED (v6_bytes a)) then Set_ (Some a) addressLength
      else Some (SetPort (htons (sa_port a))
                   (SetIPLong (le_join (take 4 (drop 12 (v6_bytes a)))) (mkSockAddr AF_INET 0 (replicate 24 0))))
  end.

(** A dummy address is a destination although it is in 127.0.0.0/8. *)
Definition IsUdpAllowedLoopback (address : _SockAddr) : bool :=
  IsLoopback address
  && negb (IsIPv4 address && IsDummyIP (GetdwIP address))
  && negb (IsIPv6 address && IsDummyIPv6 (GetAddr6 address)).

Definition peer_destination (s : Z) : prog (option _SockAddr) :=
  peer ← do_ (GetPeerName s);
  mret match peer with Some (a, len) => NormalizeSocketAddress (Some a) len | None => None end.

Definition IsUdpLoopbackDestination (s : Z) (destination : option _SockAddr) (destinationLength : Z)
    : prog bool :=
  match destination with
  | Some _ =>
      mret match NormalizeSocketAddress destination destinationLength with
           | Some normalized => IsUdpAllowedLoopback normalized
           | None => false
           end
  | None =>
      peer ← peer_destination s;
      mret match peer with Some normalized => IsUdpAllowedLoopback normalized | None => false end
  end.

Definition GetSocketDestination (s : Z) (destination : option _SockAddr) (destinationLength : Z)
    : prog (option _SockAddr) :=
  match destination with
  | Some _ => mret (NormalizeSocketAddress destination destinationLength)
  | None => peer_destination s
  end.

Definition IsBlockedIPv6Destination (s : Z) (destination : option _SockAddr) (destinationLength : Z)
    : prog (option _SockAddr) :=
  a ← GetSocketDestination s destination destinationLength;
  mret match a with Some a => if ShouldBlock a then Some a else None | None => None end.

(** The arguments of [UdpAssociationPolicy::IsMdnsDestination]. *)
Definition is_mdns (a : _SockAddr) : bool :=
  IsMdnsDestination (sa_family a) (GetdwIP a) (GetAddr6 a) (GetPort a).

Definition IsMdnsDestination_ (destination : option _SockAddr) (destinationLength : Z) : bool :=
  match NormalizeSocketAddress destination destinationLength with
  | Some a => is_mdns a
  | None => false
  end.

(** The local endpoint in the family of the destination. *)
Definition endpoint_of (destinationFamily : Z) (storage : _SockAddr) (storageLength : Z) : option _SockAddr :=
  if sa_family storage =? AF_INET then NormalizeSocketAddress (Some storage) storageLength
  else if negb (sa_family storage =? AF_INET6) then None
  else
    let mapped := IN6_IS_ADDR_V4MAPPED (v6_bytes storage) in
    if (destinationFamily =? AF_INET6) && negb mapped then Set_ (Some storage) storageLength
    else if negb (IN6_IS_ADDR_UNSPECIFIED (v6_bytes storage)) && negb mapped then None
    else
      let endpoint := mkSockAddr AF_INET 0 (replicate 24 0) in
      let endpoint := if mapped then SetIPLong (le_join (take 4 (drop 12 (v6_bytes storage)))) endpoint
                      else endpoint in
      Some (SetPort (htons (sa_port storage)) endpoint).

Definition GetSocketEndpoint (s destinationFamily : Z) : prog (option _SockAddr) :=
  name ← do_ (GetSockName s);
  mret match name with Some (a, len) => endpoint_of destinationFamily a len | None => None end.

Definition EnsureSocketBound (s : Z) (address : option _SockAddr) : prog bool :=
  name ← do_ (GetSockName s);
  match name with
  | Some _ => mret true
  | None =>
      e ← do_ GetError;
      match address with
      | None => mret false
      | Some a =>
          if negb (e =? WSAEINVAL) then mret false
          else do_ (Bind s (mkSockAddr (if sa_family a =? AF_INET6 then AF_INET6 else AF_INET) 0 (replicate 24 0)))
      end
  end.

(** An IPv4 address is mapped for a socket of the other family. *)
Definition mapped_address (a : _SockAddr) : _SockAddr :=
  mkSockAddr AF_INET6 (htons (GetPort a))
    (replicate 4 0 ++ replicate 10 0 ++ [255; 255] ++ le_split 4 (GetdwIP a) ++ replicate 4 0).

Definition MakeSocketAddress (original : option _SockAddr) (redirectedAddress : _SockAddr)
    : option (_SockAddr * Z) :=
  match original with
  | None => Some (redirectedAddress, Size redirectedAddress)
  | Some o =>
      if sa_family o =? sa_family redirectedAddress then Some (redirectedAddress, Size redirectedAddress)
      else if negb (sa_family o =? AF_INET6) || negb (IsIPv4 redirectedAddress) then None
      else Some (mapped_address redirectedAddress, sizeof_SOCKADDR_IN6)
  end.

(** [SetIP] of "127.0.0.1" is read as that address. *)
Definition SetLoopbackAddress (family : Z) : _SockAddr :=
  if family =? AF_INET6 then mkSockAddr AF_INET6 0 (replicate 4 0 ++ replicate 15 0 ++ [1] ++ replicate 4 0)
  else mkSockAddr AF_INET 0 ([127; 0; 0; 1] ++ replicate 20 0).

(** ** Payload sizes *)

(** No sum overflows: it is refused before it exceeds the limit. *)
Fixpoint payload_allowed (total maxPayload : Z) (lens : list Z) : bool :=
  match lens with
  | [] => total <=? maxPayload
  | len :: r =>
      if maxPayload - Z.min total maxPayload <? len then false
      else payload_allowed (total + len) maxPayload r
  end.

Definition IsWSABufferPayloadAllowed (buffers : option (list Z)) (maxPayload : Z) : bool :=
  match buffers with
  | None => true
  | Some lens => payload_allowed 0 maxPayload lens
  end.

Definition GetWSABufferPayloadLength (lens : list Z) : Z :=
  fold_left (fun total len => u32 (total + len)) lens 0.

Definition sum_lens (lens : list Z) : Z := foldr Z.add 0 lens.

Lemma sum_lens_nonneg lens : Forall (fun l => 0 <= l) lens -> 0 <= sum_lens lens.
Proof. unfold sum_lens. induction 1; simpl; lia. Qed.

(** Refused exactly when the sum exceeds the limit, without overflow. *)
Lemma payload_allowed_spec total maxPayload lens :
  0 <= total <= maxPayload -> Forall (fun l => 0 <= l) lens ->
  payload_allowed total maxPayload lens = (total + sum_lens lens <=? maxPayload).
Proof.
  intros Ht Hl. revert total Ht. induction Hl as [|l lens Hl Hls IH]; intros total Ht; cbn [payload_allowed].
  - unfold sum_lens. simpl. f_equal. lia.
  - rewrite Z.min_l by lia. pose proof (sum_lens_nonneg lens Hls) as Hs.
    change (sum_lens (l :: lens)) with (l + sum_lens lens).
    destruct (Z.ltb_spec (maxPayload - total) l).
    + symmetry. apply Z.leb_gt. lia.
    + rewrite IH by lia. f_equal. lia.
Qed.

(** ** Mapped addresses *)

(** An IPv4 address as it is kept after normalisation. *)
Definition plain_v4 (a : _SockAddr) : Prop :=
  sa_family a = AF_INET /\ 0 <= sa_port a < 65536 /\
  exists x, bytes_ok x /\ length x = 4%nat /\ sa_data a = x ++ replicate 20 0.

Lemma v6_mapped a : v6_bytes (mapped_address a) = replicate 10 0 ++ [255; 255] ++ le_split 4 (GetdwIP a).
Proof. reflexivity. Qed.

Lemma GetdwIP_plain a x :
  sa_family a = AF_INET -> length x = 4%nat -> sa_data a = x ++ replicate 20 0 -> GetdwIP a = le_join x.
Proof.
  intros Hf Hx Hd. unfold GetdwIP, IsIPv4. rewrite Hf. unfold as_in, v4_bytes. cbn [sin_addr Z.eqb].
  rewrite Hd. by rewrite take_app_length' by done.
Qed.

(** The detour of the next call sees the same IPv4 address again. *)
Lemma mapped_address_normalizes a :
  plain_v4 a -> NormalizeSocketAddress (Some (mapped_address a)) sizeof_SOCKADDR_IN6 = Some a.
Proof.
  intros (Hf & Hp & x & Hx & Hlx & Hd). unfold NormalizeSocketAddress.
  change (sa_family (mapped_address a)) with AF_INET6.
  change ((AF_INET6 =? AF_INET) && _) with false. change (negb (AF_INET6 =? AF_INET6) || _) with false.
  cbv iota. rewrite v6_mapped. unfold IN6_IS_ADDR_V4MAPPED.
  rewrite bool_decide_eq_true_2 by done. cbn [negb].
  change (take 4 (drop 12 (replicate 10 0 ++ [255; 255] ++ le_split 4 (GetdwIP a))))
    with (take 4 (le_split 4 (GetdwIP a))).
  rewrite take_ge by by rewrite length_le_split. rewrite (GetdwIP_plain a x) by done.
  rewrite le_join_split, Z.mod_small by (pose proof (le_join_range x Hx) as H; by rewrite Hlx in H).
  destruct a as [f p d]. cbn [sa_family sa_port sa_data] in *. subst f d. f_equal.
  unfold SetPort, SetIPLong, IsIPv4. cbn [sa_family sa_port sa_data]. rewrite Z.eqb_refl.
  cbn [sa_family sa_port sa_data mapped_address]. f_equal.
  - unfold GetPort. cbn [sa_port]. rewrite !htons_involutive. by rewrite !u16_small by (rewrite ?u16_small; lia).
  - rewrite u32_small by (pose proof (le_join_range x Hx) as H; by rewrite Hlx in H).
    pose proof (le_split_join x Hx) as E. rewrite Hlx in E. rewrite E.
    destruct x as [|? [|? [|? [|? []]]]]; done.
Qed.
