(* ===== verification/HookConnect.v ===== *)
(** * Intercepted connections (HookWinsock.cpp)

    [HackConnect] decides whether a connection goes to the host instead of its
    destination and registers it there first; the three detours of connect,
    WSAConnect and ConnectEx act on its decision. *)

From S2P Require Import Prelude Winsock SockAddr UdpPolicy UdpBlockLogLimiter ReceptionCentre PipeRecords PipeClient.
From S2P Require Import PipeCalls DummyDns HackedSockets HookSystem.

Definition WSAENETDOWN : Z := 10050.
Definition WSAENETUNREACH : Z := 10051.

Definition zero_address : _SockAddr := mkSockAddr 0 0 (replicate 24 0).

Definition pad {n : nat} (l : list Z) : list Z := take n l ++ replicate (n - length l) 0.
Arguments pad n l : clear implicits.

(** [PRCClient::zero] and the fields both detours fill in. *)
Definition request_of (sock type pid time gen : Z) (src dst : _SockAddr) (domain : bytes) (tid : Z)
    : ClientMessage :=
  mkClientMessage (mkPRCClient pid time gen type sock domain src dst zero_address 0 0 zero_address) tid 0 0.

Definition set_domain (domain : bytes) (m : ClientMessage) : ClientMessage :=
  let c := cm_client m in
  mkClientMessage (mkPRCClient (dwPid c) (processCreateTime c) (socketGeneration c) (sType c) (c_s c) domain
    (srcAddr c) (dstAddr c) (proxyDstAddr c) (routingFlags c) (uaFlag c) (udpAddr c))
    (dwTid m) (sAccept m) (cm_reserved m).

(** The name a dummy address stands for. *)
Definition dummy_name (addr : _SockAddr) (d : CDummyDNS) : bytes :=
  if IsDummyIP (GetdwIP addr) then default [] (GetHostByIP (GetdwIP addr) 256 d)
  else if IsIPv6 addr && IsDummyIPv6 (GetAddr6 addr)
  then default [] (a ← GetAddr6 addr; GetHostByIPv6 a 256 d)
  else [].

Section Connect.
Context {inet : InetText}.
Variable psi : ProxySettingsInfo.               (* m_psi *)
Context (pid createTime : Z).                   (* this process *)

(** ** The request pipe *)

Definition EnsureRequestPipe : prog bool :=
  connected ← look m_ConnState;
  if connected : bool then mret true
  else ok ← do_ (PipeConnect RequestPipe);
       if ok : bool then change_ (set_m_ConnState true);; mret true else mret false.

Definition Disconnect : prog unit :=
  do_ (PipeDisconnect RequestPipe);; change_ (set_m_ConnState false).

Definition answered_true (r : response) : bool := match r with Answered b => b | _ => false end.

(** ** Reports of blocked traffic *)

Definition process_name (path : list Z) : list Z :=
  let name := default path (after_backslash path) in
  if bool_decide (name = []) then ascii_bytes "Unknown" else name.

Definition report_blocked (udp : bool) (i : HookBlockedIPv6Info) : prog unit :=
  locked (
    connected ← EnsureRequestPipe;
    if connected : bool then
      r ← do_ (Rpc RequestPipe (BlockedCall udp i));
      if answered_true r then mret tt else Disconnect
    else mret tt).

Definition LogBlockedIPv6 (s : Z) (destination : _SockAddr) : prog unit :=
  match GetAddr6 destination with
  | None => mret tt
  | Some a =>
      path ← do_ ModuleFileName;
      type ← do_ (GetSockType s);
      domain ← look (fun h => if IsDummyIPv6 (Some a) then default [] (GetHostByIPv6 a 256 (m_DummyDNS h)) else []);
      report_blocked false
        (mkBlocked pid (default 0 type) destination (pad 256 domain) (pad 260 (process_name path)))
  end.

Definition LogBlockedUDP (s : Z) (destination : option _SockAddr) (len : Z) : prog unit :=
  to ← GetSocketDestination s destination len;
  let to := default zero_address to in
  allowed ← do_ (TableAt (fun now h =>
    let '(allowed, l) := AllowLocked to now (m_udpBlockLogLimiter h) in
    (allowed, set_m_udpBlockLogLimiter l h)));
  if negb allowed then mret tt
  else
    path ← do_ ModuleFileName;
    domain ← look (fun h =>
      if IsIPv4 to && IsDummyIP (GetdwIP to) then default [] (GetHostByIP (GetdwIP to) 255 (m_DummyDNS h))
      else if IsIPv6 to && IsDummyIPv6 (GetAddr6 to)
      then default [] (a ← GetAddr6 to; GetHostByIPv6 a 256 (m_DummyDNS h)) else []);
    report_blocked true (mkBlocked pid SOCK_DGRAM to (pad 256 domain) (pad 260 (process_name path))).

(** ** [HackConnect] *)

(** The source endpoint; an unbound socket is bound. *)
Definition source_endpoint (s family : Z) : prog (option _SockAddr) :=
  src ← GetSocketEndpoint s family;
  match src with
  | Some a => mret (Some a)
  | None =>
      bound ← do_ (Bind s (mkSockAddr family 0 (replicate 24 0)));
      if negb bound then mret None else GetSocketEndpoint s family
  end.

Definition fail (e : Z) : prog HookDecision := do_ (SetError e);; mret HOOK_FAILED.

(** Registration errors that leave the pipe in order. *)
Definition registration_refused (e : Z) : bool :=
  (e =? WSAEOPNOTSUPP) || (e =? WSAEHOSTUNREACH) || (e =? WSAENETUNREACH).

(** The host's address for the registered request. *)
Definition redirected_to (nSockType : Z) (c : PRCClient) (info : PRCINFO) : _SockAddr :=
  let to :=
    if nSockType =? SOCK_DGRAM then udpAddr c
    else if IsIPv6 (dstAddr c) then tcpaddr6 info else tcpaddr info in
  if IsAny to then SetLoopbackAddress (sa_family (dstAddr c)) else to.

(** Under the lock of the pipe: the listener, the proxy's profile, the
    registration.  The result is the address to connect to. *)
Definition register_connection (prcc : ClientMessage) : prog (HookDecision * _SockAddr) :=
  let nSockType := sType (cm_client prcc) in
  let addrname := dstAddr (cm_client prcc) in
  locked (
    connected ← EnsureRequestPipe;
    if negb connected then mret (HOOK_FAILED, addrname)
    else
      info ← do_ (Rpc RequestPipe (StartupCall false false));
      match info with
      | StartupIs (Some info) =>
          p ← do_ (Rpc RequestPipe (ProxyInfoCall prcc));
          match p with
          | ProxyIs (Some proxyInfo) =>
              let decision := CanHackIt psi (cm_client prcc) proxyInfo in
              if negb (bool_decide (decision = HOOK_REDIRECTED)) then mret (decision, addrname)
              else if (nSockType =? SOCK_STREAM) && IsIPv6 (dstAddr (cm_client prcc))
                      && negb (IsIPv6 (tcpaddr6 (su_info info)))
              then d ← fail WSAEAFNOSUPPORT; mret (d, addrname)
              else
                r ← do_ (Rpc RequestPipe (RegisterCall prcc));
                match r with
                | Registered true prcc _ =>
                    let c := cm_client prcc in
                    change_ (fun h => set_m_HackedSocket (push prcc (m_HackedSocket h)) h);;
                    (if nSockType =? SOCK_DGRAM
                     then change_ (fun h => set_m_HackedSocket
                            (SetUDPMaxPayload c
                               (MaxPayload (GetProxyType proxyInfo =? PROXYTYPE_SOCKS5)
                                  (if IsDNValid (szDomainName c) then Some (szDomainName c) else None)
                                  (IsIPv6 (dstAddr c))) true (m_HackedSocket h)) h)
                     else mret tt);;
                    mret (HOOK_REDIRECTED, redirected_to nSockType c (su_info info))
                | _ =>
                    e ← do_ GetError;
                    (if registration_refused e then mret tt else Disconnect);;
                    mret (HOOK_FAILED, addrname)
                end
          | _ => mret (HOOK_FAILED, addrname)
          end
      | _ => Disconnect;; mret (HOOK_FAILED, addrname)
      end).

Definition HackConnect (s : Z) (addrname : _SockAddr) : prog (HookDecision * _SockAddr) :=
  type ← do_ (GetSockType s);
  match type with
  | None => mret (HOOK_FAILED, addrname)
  | Some nSockType =>
      if negb (nSockType =? SOCK_DGRAM) && negb (nSockType =? SOCK_STREAM) then mret (HOOK_BYPASS, addrname)
      else if (nSockType =? SOCK_DGRAM) && bDisableMDNS psi && is_mdns addrname
      then d ← fail WSAEHOSTUNREACH; mret (d, addrname)
      else if (nSockType =? SOCK_DGRAM) && negb (bHookUDP psi) then mret (HOOK_BYPASS, addrname)
      else if (nSockType =? SOCK_STREAM) && negb (bHookTCP psi) then mret (HOOK_BYPASS, addrname)
      else if IsUdpAllowedLoopback addrname then mret (HOOK_BYPASS, addrname)
      else
        src ← source_endpoint s (sa_family addrname);
        match src with
        | None => mret (HOOK_FAILED, addrname)
        | Some srcAddr =>
            tid ← do_ GetThreadId;
            gen ← table (fun h =>
              let '(g, k) := GetSocketGeneration s nSockType (m_HackedSocket h) in (g, set_m_HackedSocket k h));
            domain ← look (fun h => dummy_name addrname (m_DummyDNS h));
            register_connection (request_of s nSockType pid createTime gen srcAddr addrname domain tid)
        end
  end.

(** ** The detours *)

(** What the caller gets with an error: SOCKET_ERROR, or FALSE of ConnectEx. *)
Definition failure (fn : connect_fn) : Z := match fn with fn_ConnectEx => 0 | _ => SOCKET_ERROR end.

Definition fail_with (fn : connect_fn) (e : Z) : prog Z := do_ (SetError e);; mret (failure fn).

Definition real (c : real_call) : prog Z := r ← do_ (Real c); mret (fst r).

(** The decision put into practice. *)
Definition decided (fn : connect_fn) (s : Z) (name : option _SockAddr) (namelen : Z)
    (decision : HookDecision) (addrname : _SockAddr) : prog Z :=
  match decision with
  | HOOK_FAILED =>
      e ← do_ GetError;
      if e =? 0 then fail_with fn WSAENETDOWN else mret (failure fn)
  | HOOK_BYPASS => real (real_connect fn s name namelen)
  | HOOK_REDIRECTED =>
      match MakeSocketAddress name addrname with
      | None => fail_with fn WSAEAFNOSUPPORT
      | Some (redirected, redirectedLength) => real (real_connect fn s (Some redirected) redirectedLength)
      end
  end.

(** A datagram socket whose destination is blocked. *)
Definition blocked_udp (s : Z) (addrname : _SockAddr) : prog bool :=
  if negb (bBlockUDP psi) then mret false
  else
    type ← do_ (GetSockType s);
    mret match type with
         | Some t => (t =? SOCK_DGRAM) && negb (IsUdpAllowedLoopback addrname)
         | None => false
         end.

(** [inhook_connect] and [inhook_WSAConnect]. *)
Definition inhook_connect (fn : connect_fn) (s : Z) (name : option _SockAddr) (namelen : Z) : prog Z :=
  match NormalizeSocketAddress name namelen with
  | None => real (real_connect fn s name namelen)
  | Some addrname =>
      if bBlockIPv6 psi && ShouldBlock addrname
      then LogBlockedIPv6 s addrname;; fail_with fn WSAEAFNOSUPPORT
      else
        bound ← EnsureSocketBound s name;
        if negb bound then mret (failure fn)
        else
          blocked ← blocked_udp s addrname;
          if blocked : bool then LogBlockedUDP s name namelen;; fail_with fn WSAEACCES
          else
            r ← HackConnect s addrname;
            let '(decision, addrname) := r in decided fn s name namelen decision addrname
  end.

(** [original] says whether the provider's function is known. *)
Definition inhook_ConnectEx (original : bool) (s : Z) (name : option _SockAddr) (namelen : Z) : prog Z :=
  if negb original then fail_with fn_ConnectEx WSAEOPNOTSUPP
  else
    match name with
    | None => real (real_connect fn_ConnectEx s name namelen)
    | Some a =>
        if negb (sa_family a =? AF_INET) && negb (sa_family a =? AF_INET6)
        then real (real_connect fn_ConnectEx s name namelen)
        else
          match NormalizeSocketAddress name namelen with
          | None => fail_with fn_ConnectEx WSAEFAULT
          | Some addrname =>
              if bBlockIPv6 psi && ShouldBlock addrname
              then LogBlockedIPv6 s addrname;; fail_with fn_ConnectEx WSAEAFNOSUPPORT
              else
                r ← HackConnect s addrname;
                let '(decision, addrname) := r in decided fn_ConnectEx s name namelen decision addrname
          end
    end.

(** The three detours. *)
Definition detour_connect (fn : connect_fn) (original : bool) (s : Z) (name : option _SockAddr) (namelen : Z)
    : prog Z :=
  match fn with
  | fn_ConnectEx => inhook_ConnectEx original s name namelen
  | _ => inhook_connect fn s name namelen
  end.
End Connect.
