(* ===== verification/HookRules.v ===== *)
(** * Rules for the programs of a hooked process

    The history of a run lists the answers of the outside and the tables as they
    were used, the latest first.
    Threads rely on each other for two things only: names are added to the
    table of dummy addresses, never changed, and the requests kept as redirected
    are ones the host accepted. *)

From S2P Require Import Prelude PipeRecords PipeCalls DummyDns HackedSockets HookSystem.

Inductive event : Type :=
  | Ev {R : Type} (c : call R) (r : R)
  | Saw (t : HookState).                       (* the tables were used *)

Definition seen (t : HookState) (h : list event) : list event := Saw t :: h.

Section Rules.
(** What must hold of the functions behind the detours when they are called,
    and the requests the host ever accepted. *)
Variable may_call : real_call -> list event -> Prop.
Variable Accepted : ClientMessage -> Prop.

Definition tables_ok (t : HookState) : Prop := Forall Accepted (hk_ls (m_HackedSocket t)).

(** A step on the tables that others can live with. *)
Definition table_step (t t' : HookState) : Prop :=
  later (m_DummyDNS t) (m_DummyDNS t') /\ (tables_ok t -> tables_ok t').

Definition interference (w w1 : hook_world (list event)) : Prop :=
  ghost w1 = ghost w /\ table_step (tables w) (tables w1).

Definition call_ok (R : Type) (c : call R) (w : hook_world (list event)) : Prop :=
  match c with
  | Real rc | Lookup rc => may_call rc (ghost w)
  | Table f => table_step (tables w) (snd (f (tables w)))
  | TableAt f => forall now, table_step (tables w) (snd (f now (tables w)))
  | _ => True
  end.

(** An acceptance is one. *)
Definition truthful (e : event) : Prop :=
  forall p m m' err, e = Ev (Rpc p (RegisterCall m)) (Registered true m' err) -> Accepted m'.

Definition recorded (R : Type) (c : call R) (w : hook_world (list event)) (r : R) (w' : hook_world (list event)) : Prop :=
  w' = mkWorld (tables w) (Ev c r :: ghost w) /\ truthful (Ev c r).

Lemma table_step_refl t : table_step t t.
Proof. split; [apply later_refl|done]. Qed.

Lemma table_step_same t t' :
  m_DummyDNS t' = m_DummyDNS t -> hk_ls (m_HackedSocket t') = hk_ls (m_HackedSocket t) -> table_step t t'.
Proof. intros Ed Ek. split; [rewrite Ed; apply later_refl|]. unfold tables_ok. by rewrite Ek. Qed.

(** From history [h], with a table of names later than [d]. *)
Definition holds {A} (p : prog A) (Q : A -> list event -> Prop) (h : list event) (d : CDummyDNS) : Prop :=
  forall w, ghost w = h -> later d (m_DummyDNS (tables w)) -> tables_ok (tables w) ->
    wp interference call_ok recorded seen p
      (fun a w' => Q a (ghost w') /\ later d (m_DummyDNS (tables w')) /\ tables_ok (tables w')) w.

Lemma holds_ret {A} (a : A) Q h d : Q a h -> holds (mret a) Q h d.
Proof. intros H w Hh Hd Ht. simpl. by rewrite Hh. Qed.

Lemma holds_bind {A B} (p : prog A) (f : A -> prog B) Q h d :
  holds p (fun a h' => holds (f a) Q h' d) h d -> holds (p ≫= f) Q h d.
Proof.
  intros H w Hh Hd Ht. apply wp_prog_bind. eapply wp_prog_mono; [by apply H|].
  intros a w' (Ha & Hd' & Ht'). by apply Ha.
Qed.

Lemma holds_mono {A} (p : prog A) (P Q : A -> list event -> Prop) h d :
  holds p P h d -> (forall a h', P a h' -> Q a h') -> holds p Q h d.
Proof.
  intros H HPQ w Hh Hd Ht. eapply wp_prog_mono; [by apply H|]. intros a w' (? & ? & ?). auto.
Qed.

Lemma holds_if {A} (b : bool) (p q : prog A) Q h d :
  (b = true -> holds p Q h d) -> (b = false -> holds q Q h d) -> holds (if b then p else q) Q h d.
Proof. destruct b; auto. Qed.

(** A call of the outside. *)
Lemma holds_call {R} (c : call R) Q h d :
  match c with Table _ | TableAt _ | Real _ | Lookup _ => False | _ => True end ->
  (forall r, truthful (Ev c r) -> Q r (Ev c r :: h)) -> holds (do_ c) Q h d.
Proof.
  intros Hc H w Hh Hd Ht w1 [Hg [Hl Hk]]. split; [by destruct c|].
  intros r w2 Ho. assert (E : recorded _ c w1 r w2) by by destruct c.
  destruct E as [-> Hr]. simpl. rewrite Hg, Hh. split; [by apply H|].
  split; [by eapply later_trans|by apply Hk].
Qed.

Lemma holds_real (rc : real_call) Q h d :
  may_call rc h -> (forall r, Q r (Ev (Real rc) r :: h)) -> holds (do_ (Real rc)) Q h d.
Proof.
  intros Hm H w Hh Hd Ht w1 [Hg [Hl Hk]]. split; [simpl; by rewrite Hg, Hh|].
  intros r w2 [-> _]. simpl. rewrite Hg, Hh. split; [apply H|].
  split; [by eapply later_trans|by apply Hk].
Qed.

Lemma holds_lookup (rc : real_call) Q h d :
  may_call rc h -> (forall r, Q r (Ev (Lookup rc) r :: h)) -> holds (do_ (Lookup rc)) Q h d.
Proof.
  intros Hm H w Hh Hd Ht w1 [Hg [Hl Hk]]. split; [simpl; by rewrite Hg, Hh|].
  intros r w2 [-> _]. simpl. rewrite Hg, Hh. split; [apply H|].
  split; [by eapply later_trans|by apply Hk].
Qed.

(** The tables are used in a way others can live with. *)
Lemma holds_table {R} (f : HookState -> R * HookState) Q h d :
  (forall t, table_step t (snd (f t))) ->
  (forall t, later d (m_DummyDNS t) -> tables_ok t -> Q (fst (f t)) (Saw t :: h)) -> holds (table f) Q h d.
Proof.
  intros Hf H w Hh Hd Ht w1 [Hg [Hl Hk]]. split; [apply Hf|]. intros r w2 [-> ->]. simpl.
  rewrite Hg, Hh. assert (later d (m_DummyDNS (tables w1))) by by eapply later_trans.
  destruct (Hf (tables w1)) as [Hl' Hk'].
  split; [apply H; auto|]. split; [by eapply later_trans|auto].
Qed.

Lemma holds_table_at {R} (f : Z -> HookState -> R * HookState) Q h d :
  (forall now t, table_step t (snd (f now t))) -> (forall r t, Q r (Saw t :: h)) -> holds (do_ (TableAt f)) Q h d.
Proof.
  intros Hf H w Hh Hd Ht w1 [Hg [Hl Hk]]. split; [intros now; apply Hf|].
  intros r w2 (now & _ & -> & ->). simpl. destruct (Hf now (tables w1)) as [Hl' Hk'].
  rewrite Hg, Hh. split; [apply H|]. split; [|auto].
  eapply later_trans, Hl'. by eapply later_trans.
Qed.

Lemma holds_look {R} (f : HookState -> R) Q h d :
  (forall t, later d (m_DummyDNS t) -> tables_ok t -> Q (f t) (Saw t :: h)) -> holds (look f) Q h d.
Proof. intros H. apply holds_table; [intros; apply table_step_refl|done]. Qed.

Lemma holds_change (f : HookState -> HookState) Q h d :
  (forall t, table_step t (f t)) -> (forall t, Q tt (Saw t :: h)) -> holds (change_ f) Q h d.
Proof. intros Hf H. apply holds_table; auto. Qed.

(** *** Names entered on the way

    The statement sees a table of names that was there at the end: everything
    said of it holds of the later ones. *)
Definition enters {A} (p : prog A) (Q : A -> list event -> CDummyDNS -> Prop) (h : list event) (d : CDummyDNS) : Prop :=
  forall w, ghost w = h -> later d (m_DummyDNS (tables w)) -> tables_ok (tables w) ->
    wp interference call_ok recorded seen p
      (fun a w' => tables_ok (tables w') /\ exists d', later d d' /\ later d' (m_DummyDNS (tables w')) /\ Q a (ghost w') d') w.

Lemma enters_holds {A} (p : prog A) Q h d :
  holds p (fun a h' => Q a h' d) h d -> enters p Q h d.
Proof.
  intros H w Hh Hd Ht. eapply wp_prog_mono; [by apply H|]. intros a w' (Ha & Hd' & Ht').
  split; [done|]. exists d. split_and!; [apply later_refl|done..].
Qed.

Lemma enters_bind {A B} (p : prog A) (f : A -> prog B) Q h d :
  enters p (fun a h' d' => enters (f a) Q h' d') h d -> enters (p ≫= f) Q h d.
Proof.
  intros H w Hh Hd Ht. apply wp_prog_bind. eapply wp_prog_mono; [by apply H|].
  intros a w' (Ht' & d' & H1 & H2 & Ha). eapply wp_prog_mono; [by apply Ha|].
  intros b w'' (Ht'' & d'' & H3 & H4 & Hb). split; [done|]. exists d''.
  split_and!; [by eapply later_trans|done..].
Qed.

Lemma enters_mono {A} (p : prog A) (P Q : A -> list event -> CDummyDNS -> Prop) h d :
  enters p P h d -> (forall a h' d', later d d' -> P a h' d' -> Q a h' d') -> enters p Q h d.
Proof.
  intros H HPQ w Hh Hd Ht. eapply wp_prog_mono; [by apply H|]. intros a w' (Ht' & d' & H1 & H2 & Ha).
  split; [done|]. exists d'. auto.
Qed.

Lemma enters_ret {A} (a : A) (Q : A -> list event -> CDummyDNS -> Prop) h d : Q a h d -> enters (mret a) Q h d.
Proof. intros H. by apply enters_holds, holds_ret. Qed.

Lemma enters_if {A} (b : bool) (p q : prog A) Q h d :
  (b = true -> enters p Q h d) -> (b = false -> enters q Q h d) -> enters (if b then p else q) Q h d.
Proof. destruct b; auto. Qed.

(** One step on the tables, in a state others may have changed. *)
Lemma enters_table {R} (f : HookState -> R * HookState) (Q : R -> list event -> CDummyDNS -> Prop) h d :
  (forall t, table_step t (snd (f t))) ->
  (forall t, later d (m_DummyDNS t) -> Q (fst (f t)) (Saw t :: h) (m_DummyDNS (snd (f t)))) -> enters (table f) Q h d.
Proof.
  intros Hf H w Hh Hd Ht w1 [Hg [Hl Hk]]. split; [apply Hf|]. intros r w2 [-> ->]. simpl.
  rewrite Hg, Hh. assert (later d (m_DummyDNS (tables w1))) by by eapply later_trans.
  destruct (Hf (tables w1)) as [Hl' Hk']. split; [auto|]. exists (m_DummyDNS (snd (f (tables w1)))).
  split_and!; [by eapply later_trans|apply later_refl|auto].
Qed.

(** ** Parts that call nothing behind the detours *)

Definition grows (h h' : list event) : Prop := forall e, In e h -> In e h'.

Lemma grows_refl h : grows h h.
Proof. by intros e. Qed.

Lemma grows_cons e h h' : grows h h' -> grows h (e :: h').
Proof. intros Hg x Hx. right. by apply Hg. Qed.

Lemma grows_step e h : grows h (e :: h).
Proof. apply grows_cons, grows_refl. Qed.

Lemma grows_trans h1 h2 h3 : grows h1 h2 -> grows h2 h3 -> grows h1 h3.
Proof. intros H1 H2 e He. by apply H2, H1. Qed.

Definition quiet {A} (p : prog A) : Prop := forall h d, holds p (fun _ h' => grows h h') h d.

Lemma quiet_ret {A} (a : A) : quiet (mret a).
Proof. intros h d. apply holds_ret, grows_refl. Qed.

Lemma quiet_bind {A B} (p : prog A) (f : A -> prog B) :
  quiet p -> (forall a, quiet (f a)) -> quiet (p ≫= f).
Proof.
  intros Hp Hf h d. apply holds_bind. eapply holds_mono; [apply Hp|]. intros a h' Hg.
  eapply holds_mono; [apply Hf|]. intros b h'' Hg'. exact (grows_trans _ _ _ Hg Hg').
Qed.

Lemma quiet_if {A} (b : bool) (p q : prog A) : quiet p -> quiet q -> quiet (if b then p else q).
Proof. by destruct b. Qed.

Lemma quiet_call {R} (c : call R) :
  match c with Table _ | TableAt _ | Real _ | Lookup _ => False | _ => True end -> quiet (do_ c).
Proof. intros Hc h d. apply holds_call; [done|]. intros r _. apply grows_step. Qed.

Lemma quiet_look {R} (f : HookState -> R) : quiet (look f).
Proof. intros h d. apply holds_look. intros. apply grows_step. Qed.

Lemma quiet_change (f : HookState -> HookState) : (forall t, table_step t (f t)) -> quiet (change_ f).
Proof. intros Hf h d. apply holds_change; [done|intros; apply grows_step]. Qed.

Lemma quiet_locked {A} (p : prog A) : quiet p -> quiet (locked p).
Proof.
  intros Hp. apply quiet_bind; [by apply quiet_call|]. intros _. apply quiet_bind; [done|].
  intros a. apply quiet_bind; [by apply quiet_call|]. intros _. apply quiet_ret.
Qed.

Lemma holds_quiet {A} (p : prog A) Q h d :
  quiet p -> (forall a h', grows h h' -> Q a h') -> holds p Q h d.
Proof. intros Hp H. eapply holds_mono; [apply Hp|]. auto. Qed.

(** A lock around a program does not change what holds of it. *)
Lemma holds_locked {A} (p : prog A) Q h d :
  holds p (fun a h' => Q a (Ev UnlockPipe tt :: h')) (Ev LockPipe tt :: h) d -> holds (locked p) Q h d.
Proof.
  intros H. apply holds_bind, holds_call; [done|]. intros [] _.
  apply holds_bind. eapply holds_mono; [exact H|]. intros a h' Ha.
  apply holds_bind, holds_call; [done|]. intros [] _. by apply holds_ret.
Qed.
End Rules.

(** What may be called may be weakened, with the history before in view. *)
Lemma holds_weaken (may may' : real_call -> list event -> Prop) Accepted {A} (p : prog A) Q h d :
  (forall rc h', grows h h' -> may rc h' -> may' rc h') -> holds may Accepted p Q h d -> holds may' Accepted p Q h d.
Proof.
  intros Hm H w Hh Hd Ht. specialize (H w Hh Hd Ht).
  assert (G : grows h (ghost w)) by (rewrite Hh; apply grows_refl). clear Hh Hd Ht. revert w G H.
  induction p as [a|R c k IH]; intros w G H; [done|]. simpl in *. intros w1 Hr. destruct (H w1 Hr) as [Hok Hk].
  assert (G1 : grows h (ghost w1)) by by rewrite (proj1 Hr).
  split; [destruct c; try exact Hok; by apply Hm|].
  intros r w2 Ho. apply IH; [|by apply Hk]. clear - G1 Ho.
  destruct c; simpl in Ho;
    try (destruct Ho as [-> _]; by apply grows_cons);
    [destruct Ho as [_ ->]|destruct Ho as (now & _ & _ & ->)]; by apply grows_cons.
Qed.

Ltac quiet :=
  repeat first
    [ apply quiet_ret | apply quiet_look | apply quiet_call; exact I
    | apply quiet_change; intros ?; apply table_step_same; reflexivity
    | apply quiet_locked | apply quiet_if
    | apply quiet_bind; [|intros ?]
    | assumption
    | match goal with |- quiet _ _ (match ?x with _ => _ end) => destruct x end ].
