(* ===== verification/HookConnectSafety.v ===== *)
(** * A connection is redirected, excused or refused (HookConnect) *)

From S2P Require Import Prelude Winsock SockAddr UdpPolicy UdpBlockLogLimiter ReceptionCentre PipeRecords PipeClient.
From S2P Require Import PipeCalls DummyDns HackedSockets HookSystem HookConnect HookRules.

Section Safety.
Context {inet : InetText}.
Variable psi : ProxySettingsInfo.
Context (pid createTime : Z).

(** ** What the history must contain *)

(** The request the host was asked for: this process's socket [s] from its own
    endpoint to [addr], with the name [addr] stood for. *)
Record request_for (s : Z) (addr : _SockAddr) (d : CDummyDNS) (h : list event) (m : ClientMessage) : Prop := {
  rf_socket : c_s (cm_client m) = s;
  rf_process : dwPid (cm_client m) = pid /\ processCreateTime (cm_client m) = createTime;
  rf_type : In (Ev (GetSockType s) (Some (sType (cm_client m)))) h;
  rf_source : exists a len, In (Ev (GetSockName s) (Some (a, len))) h /\
    endpoint_of (sa_family addr) a len = Some (srcAddr (cm_client m));
  rf_destination : dstAddr (cm_client m) = addr;
  rf_name : exists t, In (Saw t) h /\ later d (m_DummyDNS t) /\
    szDomainName (cm_client m) = dummy_name addr (m_DummyDNS t)
}.

(** Reasons to connect to [addr] itself: sockets of a kind that is not hooked,
    the machine itself, and destinations the settings keep local. *)
Inductive excused (s : Z) (addr : _SockAddr) (d : CDummyDNS) (h : list event) : Prop :=
  | not_hooked t :
      In (Ev (GetSockType s) (Some t)) h ->
      (t <> SOCK_DGRAM /\ t <> SOCK_STREAM) \/ (t = SOCK_DGRAM /\ bHookUDP psi = false)
      \/ (t = SOCK_STREAM /\ bHookTCP psi = false) ->
      excused s addr d h
  | own_machine : IsUdpAllowedLoopback addr = true -> excused s addr d h
  | kept_local m pi :
      In (Ev (Rpc RequestPipe (ProxyInfoCall m)) (ProxyIs (Some pi))) h ->
      request_for s addr d h m -> CanHackIt psi (cm_client m) pi = HOOK_BYPASS ->
      excused s addr d h.

(** The host accepted the request and the connection goes to its address. *)
Definition redirected (s : Z) (addr : _SockAddr) (d : CDummyDNS) (h : list event) (to : _SockAddr) : Prop :=
  exists m m' e info,
    request_for s addr d h m /\
    In (Ev (Rpc RequestPipe (StartupCall false false)) (StartupIs (Some info))) h /\
    In (Ev (Rpc RequestPipe (RegisterCall m)) (Registered true m' e)) h /\
    to = redirected_to (sType (cm_client m)) (cm_client m') (su_info info).

(** The socket is not one the multicast rule stops. *)
Definition not_stopped (s : Z) (addr : _SockAddr) (h : list event) : Prop :=
  exists t, In (Ev (GetSockType s) (Some t)) h /\
    (bDisableMDNS psi = true -> is_mdns addr = true -> t <> SOCK_DGRAM).

Definition decision_ok (s : Z) (addr : _SockAddr) (d : CDummyDNS) (h0 : list event)
    (r : HookDecision * _SockAddr) (h : list event) : Prop :=
  grows h0 h /\
  match fst r with
  | HOOK_BYPASS => excused s addr d h /\ not_stopped s addr h
  | HOOK_REDIRECTED => redirected s addr d h (snd r) /\ not_stopped s addr h
  | HOOK_FAILED => True
  end.

Lemma request_grows s addr d h h' m : grows h h' -> request_for s addr d h m -> request_for s addr d h' m.
Proof. intros Hg [H1 H2 H3 (a & len & H4 & H5) H6 (t & H7 & H8)]. split; eauto 6. Qed.

Lemma excused_grows s addr d h h' : grows h h' -> excused s addr d h -> excused s addr d h'.
Proof.
  intros Hg [t Ht Hr| |m pi Hp Ha Hc]; [eapply not_hooked|by apply own_machine|eapply kept_local]; eauto.
  by eapply request_grows.
Qed.

Lemma not_stopped_grows s addr h h' : grows h h' -> not_stopped s addr h -> not_stopped s addr h'.
Proof. intros Hg (t & Ht & Hr). exists t. auto. Qed.

Section May.
Variable may_call : real_call -> list event -> Prop.
Variable Accepted : ClientMessage -> Prop.
Abbreviation holds := (holds may_call Accepted).
Abbreviation quiet := (quiet may_call Accepted).

Lemma quiet_EnsureRequestPipe : quiet EnsureRequestPipe.
Proof. unfold EnsureRequestPipe. quiet. Qed.

Lemma quiet_Disconnect : quiet Disconnect.
Proof. unfold Disconnect. quiet. Qed.

Lemma quiet_report_blocked udp i : quiet (report_blocked udp i).
Proof. unfold report_blocked. quiet. Qed.

Lemma quiet_LogBlockedIPv6 s a : quiet (LogBlockedIPv6 pid s a).
Proof. unfold LogBlockedIPv6. quiet. Qed.

Lemma quiet_allow to :
  quiet (do_ (TableAt (fun now h =>
    let '(allowed, l) := AllowLocked to now (m_udpBlockLogLimiter h) in
    (allowed, set_m_udpBlockLogLimiter l h)))).
Proof.
  intros h d. apply holds_table_at; [|intros; apply grows_step].
  intros now t. destruct (AllowLocked _ _ _). by apply table_step_same.
Qed.

Lemma quiet_LogBlockedUDP s a len : quiet (LogBlockedUDP pid s a len).
Proof.
  unfold LogBlockedUDP, GetSocketDestination, peer_destination. quiet.
  all: try apply quiet_allow; quiet; apply quiet_report_blocked.
Qed.

(** *** The tables *)

Lemma Forall_overwrite {A} (P : A -> Prop) f x l l' :
  overwrite f x l = Some l' -> P x -> Forall P l -> Forall P l'.
Proof.
  revert l'. induction l as [|a l IH]; simpl; intros l' E Hx Hl; [done|].
  apply Forall_cons in Hl as [Ha Hl]. destruct (f a); [injection E as <-; by constructor|].
  destruct (overwrite f x l) as [r|]; [|done]. injection E as <-. constructor; auto.
Qed.

Lemma step_push m t :
  Accepted m -> table_step Accepted t (set_m_HackedSocket (push m (m_HackedSocket t)) t).
Proof.
  intros Hm. split; [apply later_refl|]. unfold tables_ok, push. intros Ht. cbn [m_HackedSocket set_m_HackedSocket].
  destruct (overwrite _ _ _) eqn:E; simpl; [by eapply Forall_overwrite|by constructor].
Qed.

Lemma step_generation s ty t :
  table_step Accepted t
    (snd (let '(g, k) := GetSocketGeneration s ty (m_HackedSocket t) in (g, set_m_HackedSocket k t))).
Proof. unfold GetSocketGeneration. destruct (find _ _); by apply table_step_same. Qed.

Lemma step_limit c mp conn t :
  table_step Accepted t (set_m_HackedSocket (SetUDPMaxPayload c mp conn (m_HackedSocket t)) t).
Proof.
  unfold SetUDPMaxPayload. destruct (negb _); [by apply table_step_same|].
  destruct (find _ _); [destruct (overwrite _ _ _)|]; by apply table_step_same.
Qed.

(** *** The source endpoint *)

Lemma holds_GetSocketEndpoint s family h h0 d :
  grows h h0 ->
  holds (GetSocketEndpoint s family)
    (fun r h' => grows h h' /\
       match r with
       | Some src => exists a len, In (Ev (GetSockName s) (Some (a, len))) h' /\ endpoint_of family a len = Some src
       | None => True
       end) h0 d.
Proof.
  intros Hg. apply holds_bind, holds_call; [done|]. intros r _. apply holds_ret.
  split; [by apply grows_cons|]. destruct r as [[a len]|]; [|done].
  destruct (endpoint_of family a len) eqn:E; [|done]. exists a, len. split; [by left|done].
Qed.

Lemma holds_source_endpoint s family h d :
  holds (source_endpoint s family)
    (fun r h' => grows h h' /\
       match r with
       | Some src => exists a len, In (Ev (GetSockName s) (Some (a, len))) h' /\ endpoint_of family a len = Some src
       | None => True
       end) h d.
Proof.
  unfold source_endpoint. apply holds_bind. eapply holds_mono; [apply holds_GetSocketEndpoint, grows_refl|].
  intros [src|] h1 [Hg Hs]; [by apply holds_ret|].
  apply holds_bind, holds_call; [done|]. intros b _. destruct (negb b); [by apply holds_ret; split; [apply grows_cons|]|].
  apply holds_GetSocketEndpoint. by apply grows_cons.
Qed.

(** *** The decision *)

Lemma redirected_grows s addr d h h' to : grows h h' -> redirected s addr d h to -> redirected s addr d h' to.
Proof.
  intros Hg (m & m' & e & info & Hm & Hi & Hr & Hto). exists m, m', e, info.
  split_and!; auto. by eapply request_grows.
Qed.

Lemma decision_grows s addr d h0 r h h' :
  grows h h' -> decision_ok s addr d h0 r h -> decision_ok s addr d h0 r h'.
Proof.
  intros Hg [H0 H]. split; [by eapply grows_trans|]. destruct (fst r); [|destruct H as [H1 H2]|done].
  - destruct H. eauto using excused_grows, not_stopped_grows.
  - eauto using redirected_grows, not_stopped_grows.
Qed.

Lemma failed_ok s addr d h0 to h : grows h0 h -> decision_ok s addr d h0 (HOOK_FAILED, to) h.
Proof. by split. Qed.

Lemma holds_fail e h d : holds (fail e) (fun r h' => r = HOOK_FAILED /\ grows h h') h d.
Proof. apply holds_bind, holds_call; [done|]. intros r _. apply holds_ret. split; [done|apply grows_step]. Qed.

Lemma holds_register s addr d h m :
  request_for s addr d h m -> not_stopped s addr h ->
  holds (register_connection psi m) (decision_ok s addr d h) h d.
Proof.
  intros Hm Hn. unfold register_connection. apply holds_locked.
  eapply holds_mono with (P := decision_ok s addr d h);
    [|intros r h' Hr; eapply decision_grows; [apply grows_step|done]].
  set (h1 := Ev LockPipe tt :: h). assert (G1 : grows h h1) by apply grows_step.
  apply holds_bind, holds_quiet; [apply quiet_EnsureRequestPipe|]. intros connected h2 G2.
  assert (G2' : grows h h2) by by eapply grows_trans. clear G1 G2. subst h1.
  destruct (negb connected); [by apply holds_ret, failed_ok|].
  apply holds_bind, holds_call; [done|]. intros info _.
  set (h3 := _ :: h2). assert (G3 : grows h h3) by by apply grows_cons.
  assert (Hfail : forall (p : prog unit), quiet p ->
    holds (p;; mret (HOOK_FAILED, dstAddr (cm_client m))) (decision_ok s addr d h) h3 d).
  { intros p Hp. apply holds_bind, holds_quiet; [done|]. intros [] h4 G4. apply holds_ret, failed_ok.
    by eapply grows_trans. }
  destruct info as [| | |p|[info|]]; try apply Hfail, quiet_Disconnect. clear Hfail.
  apply holds_bind, holds_call; [done|]. intros p _. set (h4 := _ :: h3).
  assert (G4 : grows h h4) by by apply grows_cons.
  destruct p as [| | |[pi|]|]; try by apply holds_ret, failed_ok.
  pose proof (rf_destination _ _ _ _ _ Hm) as Hdst.
  destruct (CanHackIt psi (cm_client m) pi) eqn:Ed; cbn [negb bool_decide].
  - apply holds_ret. split; [done|]. split; [|by eapply not_stopped_grows].
    eapply kept_local; [by left|by eapply request_grows|done].
  - destruct (_ && _ && _).
    { apply holds_bind. eapply holds_mono; [apply holds_fail|]. intros dd h5 [-> G5].
      apply holds_ret, failed_ok. by eapply grows_trans. }
    apply holds_bind, holds_call; [done|]. intros r Htrue. set (h5 := _ :: h4).
    assert (G5 : grows h h5) by by apply grows_cons.
    assert (Hfail : holds (e ← do_ GetError; (if registration_refused e then mret tt else Disconnect);;
                           mret (HOOK_FAILED, dstAddr (cm_client m))) (decision_ok s addr d h) h5 d).
    { apply holds_bind, holds_quiet; [quiet|]. intros e h6 G6. apply holds_bind, holds_quiet; [quiet|].
      intros [] h7 G7. apply holds_ret, failed_ok. eapply grows_trans; [|done]. by eapply grows_trans. }
    destruct r as [[] m' e| | | |]; try exact Hfail. clear Hfail.
    apply holds_bind, holds_change; [intros t; by apply step_push, (Htrue _ _ _ _ eq_refl)|]. intros t.
    apply holds_bind, holds_quiet; [destruct (_ =? SOCK_DGRAM); [apply quiet_change, step_limit|quiet]|].
    intros [] h6 G6'. assert (G6 : grows h5 h6) by exact (grows_trans _ _ _ (grows_step _ _) G6'). clear G6'.
    apply holds_ret. split; [by eapply grows_trans|]. split.
    + exists m, m', e, info. split_and!; [|apply G6; right; right; by left|apply G6; by left|done].
      eapply request_grows; [|done]. by eapply grows_trans.
    + eapply not_stopped_grows; [|done]. by eapply grows_trans.
  - by apply holds_ret, failed_ok.
Qed.

Lemma holds_HackConnect s addr h d :
  holds (HackConnect psi pid createTime s addr) (decision_ok s addr d h) h d.
Proof.
  unfold HackConnect. apply holds_bind, holds_call; [done|]. intros type _. set (h1 := _ :: h).
  assert (G1 : grows h h1) by apply grows_step.
  destruct type as [t|]; [|by apply holds_ret, failed_ok].
  assert (Ht : In (Ev (GetSockType s) (Some t)) h1) by by left.
  destruct (negb (t =? SOCK_DGRAM) && negb (t =? SOCK_STREAM)) eqn:E1.
  { bool_hyps. apply holds_ret. split; [done|]. split; [|by exists t].
    eapply not_hooked; [done|]. by left. }
  destruct ((t =? SOCK_DGRAM) && bDisableMDNS psi && is_mdns addr) eqn:E2.
  { apply holds_bind. eapply holds_mono; [apply holds_fail|]. intros r h2 [-> G2].
    apply holds_ret, failed_ok. by eapply grows_trans. }
  assert (Hn : not_stopped s addr h1).
  { exists t. split; [done|]. intros Hm Ha ->. by rewrite Z.eqb_refl, Hm, Ha in E2. }
  destruct ((t =? SOCK_DGRAM) && negb (bHookUDP psi)) eqn:E3.
  { bool_hyps. apply holds_ret. split; [done|]. split; [|done]. eapply not_hooked; [done|]. auto. }
  destruct ((t =? SOCK_STREAM) && negb (bHookTCP psi)) eqn:E4.
  { bool_hyps. apply holds_ret. split; [done|]. split; [|done]. eapply not_hooked; [done|]. auto. }
  destruct (IsUdpAllowedLoopback addr) eqn:E5.
  { apply holds_ret. split; [done|]. split; [by apply own_machine|done]. }
  apply holds_bind. eapply holds_mono; [apply holds_source_endpoint|]. intros src h2 [G2 Hsrc].
  assert (G2' : grows h h2) by by eapply grows_trans.
  destruct src as [src|]; [|by apply holds_ret, failed_ok].
  apply holds_bind, holds_call; [done|]. intros tid _. set (h3 := _ :: h2).
  assert (G3 : grows h2 h3) by apply grows_step.
  apply holds_bind, holds_table.
  { apply step_generation. }
  intros tb _ _. set (gen := fst _). clearbody gen.
  apply holds_bind, holds_look. intros tb' Hl _. set (h4 := _ :: _ :: h3).
  assert (G4 : grows h2 h4) by by do 2 apply grows_cons.
  eapply holds_mono; [apply (holds_register s addr)|].
  - split; [done|done| | |done|].
    + apply G4, G2. done.
    + destruct Hsrc as (a & len & Ha & He). exists a, len. split; [by apply G4|done].
    + exists tb'. split; [by left|done].
  - eapply not_stopped_grows; [|done]. by eapply grows_trans.
  - intros r h5 Hr. split; [|apply Hr]. eapply grows_trans; [exact G2'|]. eapply grows_trans; [exact G4|apply Hr].
Qed.
End May.

(** ** The detours *)

(** A connection attempt on the system, after history [h]. *)
Definition may_connect (fn : connect_fn) (s : Z) (name : option _SockAddr) (namelen : Z) (d : CDummyDNS)
    (rc : real_call) (h : list event) : Prop :=
  exists a len, rc = real_connect fn s a len /\
  match NormalizeSocketAddress name namelen with
  | None => a = name /\ len = namelen                          (* not an address *)
  | Some addr =>
      (bBlockIPv6 psi = true -> ShouldBlock addr = false) /\
      (fn <> fn_ConnectEx -> bBlockUDP psi = true ->
       IsUdpAllowedLoopback addr = true \/ exists t, In (Ev (GetSockType s) t) h /\ t <> Some SOCK_DGRAM) /\
      not_stopped s addr h /\
      ((a = name /\ len = namelen /\ excused s addr d h) \/
       (exists to r, redirected s addr d h to /\ MakeSocketAddress name to = Some (r, len) /\ a = Some r))
  end.

Section Detour.
Context (fn : connect_fn) (s : Z) (name : option _SockAddr) (namelen : Z) (d : CDummyDNS).
Abbreviation may := (may_connect fn s name namelen d).
Abbreviation holds := (holds may (fun _ => True)).
Abbreviation done_ := (fun (_ : Z) (_ : list event) => True).

Lemma holds_real_connect a len h : may (real_connect fn s a len) h -> holds (real (real_connect fn s a len)) done_ h d.
Proof. intros Hm. apply holds_bind, holds_real; [done|]. intros r. by apply holds_ret. Qed.

Lemma holds_fail_with e h : holds (fail_with fn e) done_ h d.
Proof. apply holds_bind, holds_call; [done|]. intros r _. by apply holds_ret. Qed.

Lemma holds_decided addr h0 h r :
  NormalizeSocketAddress name namelen = Some addr ->
  (bBlockIPv6 psi = true -> ShouldBlock addr = false) ->
  (fn <> fn_ConnectEx -> bBlockUDP psi = true ->
   IsUdpAllowedLoopback addr = true \/ exists t, In (Ev (GetSockType s) t) h0 /\ t <> Some SOCK_DGRAM) ->
  decision_ok s addr d h0 r h ->
  holds (let '(decision, addrname) := r in decided fn s name namelen decision addrname) done_ h d.
Proof.
  intros En H6 Hu [Hg Hd]. destruct r as [[] to]; cbn [fst snd] in Hd; unfold decided.
  - destruct Hd as [He Hn]. apply holds_real_connect. exists name, namelen. split; [done|]. rewrite En.
    split_and!; [done| |done|by left]. intros Hf Hb. destruct (Hu Hf Hb) as [?|(t & ? & ?)]; eauto.
  - destruct Hd as [Hr Hn]. destruct (MakeSocketAddress name to) as [[r len]|] eqn:Em; [|apply holds_fail_with].
    apply holds_real_connect. exists (Some r), len. split; [done|]. rewrite En.
    split_and!; [done| |done|right; by exists to, r].
    intros Hf Hb. destruct (Hu Hf Hb) as [?|(t & ? & ?)]; eauto.
  - apply holds_bind, holds_call; [done|]. intros e _. destruct (e =? 0); [apply holds_fail_with|by apply holds_ret].
Qed.

Lemma holds_inhook_connect h :
  holds (inhook_connect psi pid createTime fn s name namelen) done_ h d.
Proof.
  unfold inhook_connect. destruct (NormalizeSocketAddress name namelen) as [addr|] eqn:En.
  2: { apply holds_real_connect. exists name, namelen. by rewrite En. }
  destruct (bBlockIPv6 psi && ShouldBlock addr) eqn:E6.
  { apply holds_bind, holds_quiet; [apply quiet_LogBlockedIPv6|]. intros. apply holds_fail_with. }
  assert (H6 : bBlockIPv6 psi = true -> ShouldBlock addr = false) by (intros Hb; by rewrite Hb in E6).
  apply holds_bind, holds_quiet; [unfold EnsureSocketBound; quiet|]. intros bound h1 _.
  destruct (negb bound); [by apply holds_ret|].
  assert (Hrun : forall h2,
    (bBlockUDP psi = true ->
     IsUdpAllowedLoopback addr = true \/ exists t, In (Ev (GetSockType s) t) h2 /\ t <> Some SOCK_DGRAM) ->
    holds (r ← HackConnect psi pid createTime s addr;
           let '(decision, addrname) := r in decided fn s name namelen decision addrname) done_ h2 d).
  { intros h2 Hu. apply holds_bind. eapply holds_mono; [apply holds_HackConnect|]. intros r h3 Hr.
    by apply (holds_decided addr h2). }
  apply holds_bind. unfold blocked_udp. destruct (bBlockUDP psi) eqn:Eu; cbn [negb].
  - apply holds_bind, holds_call; [done|]. intros t _. apply holds_ret.
    destruct (match t with Some t => _ | None => false end) eqn:Eb.
    { apply holds_bind, holds_quiet; [apply quiet_LogBlockedUDP|]. intros. apply holds_fail_with. }
    apply Hrun. intros _. destruct (IsUdpAllowedLoopback addr) eqn:El; [by left|right].
    exists t. split; [by left|]. intros ->. by rewrite Z.eqb_refl in Eb.
  - apply holds_ret. by apply Hrun.
Qed.

Lemma holds_inhook_ConnectEx original h :
  fn = fn_ConnectEx -> holds (inhook_ConnectEx psi pid createTime original s name namelen) done_ h d.
Proof.
  intros Ef. unfold inhook_ConnectEx. rewrite <- Ef.
  destruct (negb original); [apply holds_fail_with|].
  destruct name as [a|] eqn:Ea; rewrite <- Ea in *.
  2: { apply holds_real_connect. exists name, namelen. split; [done|]. by rewrite Ea. }
  destruct (negb (sa_family a =? AF_INET) && negb (sa_family a =? AF_INET6)) eqn:Efam.
  { bool_hyps. apply holds_real_connect. exists name, namelen. split; [done|]. rewrite Ea. simpl.
    by rewrite !(proj2 (Z.eqb_neq _ _)). }
  destruct (NormalizeSocketAddress name namelen) as [addr|] eqn:En; [|apply holds_fail_with].
  destruct (bBlockIPv6 psi && ShouldBlock addr) eqn:E6.
  { apply holds_bind, holds_quiet; [apply quiet_LogBlockedIPv6|]. intros. apply holds_fail_with. }
  assert (H6 : bBlockIPv6 psi = true -> ShouldBlock addr = false) by (intros Hb; by rewrite Hb in E6).
  apply holds_bind. eapply holds_mono; [apply holds_HackConnect|]. intros r h1 Hr.
  by apply (holds_decided addr h).
Qed.
End Detour.

Lemma holds_detour_connect fn original s name namelen h d :
  holds (may_connect fn s name namelen d) (fun _ => True) (detour_connect psi pid createTime fn original s name namelen)
    (fun _ _ => True) h d.
Proof. destruct fn; [apply holds_inhook_connect|apply holds_inhook_connect|by apply holds_inhook_ConnectEx]. Qed.

(** C14: However the host, the system and other threads answer and interleave, a
    detour connects to the destination the application named only where the
    settings or the kind of socket excuse it; otherwise it connects to the
    address at which the host accepted exactly this request, under the name the
    destination stood for, or not at all.  Blocked families never pass. *)
Theorem connect_fails_closed (fn : connect_fn) (original : bool) (s : Z) (name : option _SockAddr)
    (namelen : Z) (t : HookState) :
  wp (interference (fun _ => True)) (call_ok (may_connect fn s name namelen (m_DummyDNS t)) (fun _ => True))
    (recorded (fun _ => True)) seen (detour_connect psi pid createTime fn original s name namelen) (fun _ _ => True) (mkWorld t []).
Proof.
  eapply wp_prog_mono; [apply (holds_detour_connect fn original s name namelen []); [done|apply later_refl|by apply Forall_true]|done].
Qed.
End Safety.
