(* ===== verification/HookSend.v ===== *)
(** * Intercepted datagrams (HookWinsock.cpp)

    [HackSendTo] finds or registers the route of a datagram; the detours of
    sendto, WSASendTo and WSASendMsg act on its decision.  Closing a socket
    forgets its routes. *)

From S2P Require Import Prelude Winsock SockAddr UdpPolicy ReceptionCentre PipeRecords PipeClient PipeCalls.
From S2P Require Import DummyDns HackedSockets HookSystem HookConnect.

Definition set_reserved (r : Z) (m : ClientMessage) : ClientMessage :=
  mkClientMessage (cm_client m) (dwTid m) (sAccept m) r.

(** The route's address; the wildcard stands for the loopback. *)
Definition local_route (udp : _SockAddr) (family : Z) : _SockAddr :=
  if IsAny udp then SetLoopbackAddress family else udp.

(** The payload of a route through the proxy. *)
Definition route_limit (c : PRCClient) (proxyInfo : ProxyInfo) : Z :=
  MaxPayload (GetProxyType proxyInfo =? PROXYTYPE_SOCKS5)
    (if IsDNValid (szDomainName c) then Some (szDomainName c) else None) (IsIPv6 (dstAddr c)).

Section Send.
Context {inet : InetText}.
Variable psi : ProxySettingsInfo.               (* m_psi *)
Context (pid createTime : Z).                   (* this process *)

Definition NotifyQuicUdp : prog unit :=
  enabled ← do_ QuicEnabled;
  if negb enabled || bBlockUDP psi || negb (bHookUDP psi) then mret tt
  else
    error ← do_ GetError;
    do_ QuicOnUdp;;
    publish ← do_ QuicNeedsPublish;
    if negb publish then do_ (SetError error)
    else
      locked (
        connected ← EnsureRequestPipe;
        (if connected : bool then do_ QuicPublish else mret tt);;
        do_ (SetError error)).

(** ** [HackSendTo] *)

(** The endpoint of the socket, which is bound if it has none. *)
Definition send_endpoint (s family : Z) : prog (option _SockAddr) :=
  src ← GetSocketEndpoint s family;
  match src with
  | Some a => mret (Some a)
  | None =>
      e ← do_ GetError;
      if negb (e =? WSAEINVAL) then mret None
      else
        bound ← do_ (Bind s (mkSockAddr family 0 (replicate 24 0)));
        if negb bound then mret None else GetSocketEndpoint s family
  end.

(** The route a request has already. *)
Definition existing_route (prcc : PRCClient) (otherwise : prog (HookDecision * _SockAddr * Z))
    : prog (HookDecision * _SockAddr * Z) :=
  udp ← look (fun h => IsUDPReqHacked prcc (m_HackedSocket h));
  match udp with
  | None => otherwise
  | Some udp =>
      NotifyQuicUdp;;
      limit ← look (fun h => GetUDPMaxPayload prcc (m_HackedSocket h));
      mret (HOOK_REDIRECTED, local_route udp (sa_family (dstAddr prcc)), default MAX_IPV4_UDP_PAYLOAD limit)
  end.

(** The request is registered at the host; the pipe is locked. *)
Definition register_route (prcc : ClientMessage) : prog (HookDecision * _SockAddr * Z) :=
  let addrname := dstAddr (cm_client prcc) in
  let failed := mret (HOOK_FAILED, addrname, MAX_IPV4_UDP_PAYLOAD) in
  connected ← EnsureRequestPipe;
  if negb connected then failed
  else
    p ← do_ (Rpc RequestPipe (ProxyInfoCall prcc));
    match p with
    | ProxyIs (Some proxyInfo) =>
        let decision := CanHackIt psi (cm_client prcc) proxyInfo in
        if negb (bool_decide (decision = HOOK_REDIRECTED)) then mret (decision, addrname, MAX_IPV4_UDP_PAYLOAD)
        else
          reserved ← do_ QuicOnUdp;
          r ← do_ (Rpc RequestPipe (RegisterCall (set_reserved reserved prcc)));
          match r with
          | Registered true prcc _ =>
              let c := cm_client prcc in
              change_ (fun h => set_m_HackedSocket (push prcc (m_HackedSocket h)) h);;
              change_ (fun h => set_m_HackedSocket
                (SetUDPMaxPayload c (route_limit c proxyInfo) false (m_HackedSocket h)) h);;
              mret (HOOK_REDIRECTED, local_route (udpAddr c) (sa_family (dstAddr c)), route_limit c proxyInfo)
          | _ =>
              e ← do_ GetError;
              (if (e =? WSAEOPNOTSUPP) || (e =? WSAEHOSTUNREACH) then mret tt else Disconnect);;
              failed
          end
    | _ => failed
    end.

(** The decision, the address to send to and the largest payload. *)
Definition HackSendTo (s : Z) (addrname : _SockAddr) : prog (HookDecision * _SockAddr * Z) :=
  let answer d := mret (d, addrname, MAX_IPV4_UDP_PAYLOAD) in
  if negb (bHookUDP psi) then answer HOOK_BYPASS
  else
    type ← do_ (GetSockType s);
    match type with
    | None => answer HOOK_FAILED
    | Some nSockType =>
        if negb (nSockType =? SOCK_DGRAM) then answer HOOK_BYPASS
        else
          route ← look (fun h => IsUDPRouteAddress s addrname (m_HackedSocket h));
          if route : bool then answer HOOK_BYPASS
          else
            src ← send_endpoint s (sa_family addrname);
            match src with
            | None => answer HOOK_FAILED
            | Some srcAddr =>
                tid ← do_ GetThreadId;
                gen ← table (fun h =>
                  let '(g, k) := GetSocketGeneration s nSockType (m_HackedSocket h) in (g, set_m_HackedSocket k h));
                domain ← look (fun h => dummy_name addrname (m_DummyDNS h));
                let prcc := request_of s SOCK_DGRAM pid createTime gen srcAddr addrname domain tid in
                existing_route (cm_client prcc)
                  (locked (existing_route (cm_client prcc) (register_route prcc)))
            end
    end.

(** ** The detours *)

(** The result and the count stored for the caller. *)
Definition sent : Type := Z * option Z.

Definition send_real (c : real_call) : prog sent := do_ (Real c).
Definition send_failed : prog sent := mret (SOCKET_ERROR, None).
Definition send_fails (e : Z) : prog sent := do_ (SetError e);; send_failed.

(** What all three refuse before anything else; a missing message has no
    destination and is not on the machine. *)
Definition send_gates (s : Z) (msg : bool) (to : option _SockAddr) (tolen : Z) (onward : prog sent) : prog sent :=
  blocked6 ← (if bBlockIPv6 psi && msg then IsBlockedIPv6Destination s to tolen else mret None);
  match blocked6 with
  | Some a => LogBlockedIPv6 pid s a;; send_fails WSAEAFNOSUPPORT
  | None =>
      loopback ← (if bBlockUDP psi then if msg then IsUdpLoopbackDestination s to tolen else mret false
                  else mret true);
      if negb loopback then LogBlockedUDP pid s to tolen;; send_fails WSAEACCES
      else if bDisableMDNS psi && IsMdnsDestination_ to tolen then send_fails WSAEHOSTUNREACH
      else onward
  end.

(** A datagram on a connected socket. *)
Definition send_connected (s : Z) (buffers : option (list Z)) (direct : prog sent) : prog sent :=
  limit ← look (fun h => GetConnectedUDPMaxPayload s (m_HackedSocket h));
  if match limit with Some m => negb (IsWSABufferPayloadAllowed buffers m) | None => false end
  then send_fails WSAEMSGSIZE
  else
    (if default 0 limit =? 0 then mret tt else NotifyQuicUdp);;
    direct.

(** A datagram with a destination. *)
Definition datagram_to (s : Z) (buffers : option (list Z)) (to : option _SockAddr) (tolen : Z)
    (direct : prog sent) (redirected : _SockAddr -> Z -> prog sent) : prog sent :=
  match NormalizeSocketAddress to tolen with
  | None => direct
  | Some addrname =>
      bound ← EnsureSocketBound s to;
      if negb bound then send_failed
      else
        r ← HackSendTo s addrname;
        let '(decision, addrname, maxPayload) := r in
        match decision with
        | HOOK_FAILED => e ← do_ GetError; if e =? 0 then send_fails WSAENETDOWN else send_failed
        | HOOK_BYPASS => direct
        | HOOK_REDIRECTED =>
            if negb (IsWSABufferPayloadAllowed buffers maxPayload) then send_fails WSAEMSGSIZE
            else match MakeSocketAddress to addrname with
                 | None => send_fails WSAEAFNOSUPPORT
                 | Some (a, len) => redirected a len
                 end
        end
  end.

Definition inhook_WSASendTo (s : Z) (buffers : option (list Z)) (flags : Z) (to : option _SockAddr) (tolen : Z)
    : prog sent :=
  let direct := send_real (real_WSASendTo s buffers flags to tolen) in
  send_gates s true to tolen
    (if negb (bHookUDP psi) then direct
     else match to with
          | None => send_connected s buffers direct
          | Some _ =>
              datagram_to s buffers to tolen direct
                (fun a len => send_real (real_WSASendTo s buffers flags (Some a) len))
          end).

(** The count WSASendTo stored is the result. *)
Definition inhook_sendto (s len flags : Z) (to : option _SockAddr) (tolen : Z) : prog sent :=
  let direct := send_real (real_sendto s len flags to tolen) in
  send_gates s true to tolen
    (if negb (bHookUDP psi) || (len <? 0) then direct
     else
       r ← inhook_WSASendTo s (Some [len]) flags to tolen;
       mret (if fst r =? 0 then s32 (default 0 (snd r)) else fst r, None)).

(** [counted]: the caller wants the number of bytes. *)
Definition inhook_WSASendMsg (original counted : bool) (s : Z) (lpMsg : option WSAMSG) (flags : Z) : prog sent :=
  if negb original then send_fails WSAEOPNOTSUPP
  else
    let to := m ← lpMsg; msg_name m in
    let tolen := match lpMsg with Some m => msg_namelen m | None => 0 end in
    let direct := send_real (real_WSASendMsg s lpMsg flags) in
    send_gates s (bool_decide (is_Some lpMsg)) to tolen
      match lpMsg with
      | None => direct
      | Some m =>
          if negb (bHookUDP psi) then direct
          else match msg_name m with
               | None => send_connected s (msg_buffers m) direct
               | Some _ =>
                   datagram_to s (msg_buffers m) to tolen direct
                     (fun a len =>
                        r ← send_real (real_WSASendTo s (msg_buffers m) flags (Some a) len);
                        mret (if (fst r =? 0) && counted
                              then (fst r, Some (GetWSABufferPayloadLength (default [] (msg_buffers m))))
                              else r))
               end
      end.

(** What the application called. *)
Definition detour_send (original counted : bool) (c : real_call) : prog sent :=
  match c with
  | real_sendto s len flags to tolen => inhook_sendto s len flags to tolen
  | real_WSASendTo s buffers flags to tolen => inhook_WSASendTo s buffers flags to tolen
  | real_WSASendMsg s msg flags => inhook_WSASendMsg original counted s msg flags
  | _ => send_failed
  end.

(** ** Closing and naming a socket *)

(** The host is told with the first request removed. *)
Definition inhook_closesocket (s : Z) : prog Z :=
  let close := r ← do_ (Real (real_closesocket s)); mret (fst r) in
  if negb (bHookTCP psi) && negb (bHookUDP psi) then close
  else
    type ← do_ (GetSockType s);
    match type with
    | None => close
    | Some nSockType =>
        if negb (nSockType =? SOCK_DGRAM) && negb (nSockType =? SOCK_STREAM) then close
        else
          r ← table (fun h => let '(r, k) := remove s (m_HackedSocket h) in (r, set_m_HackedSocket k h));
          match snd r with
          | None => close
          | Some client =>
              connected ← do_ (PipeConnect OwnPipe);
              if negb connected then close
              else
                do_ (Rpc OwnPipe (UnregisterCall client));;
                do_ (PipeDisconnect OwnPipe);;
                close
          end
    end.

(** The peer of a redirected connection is the destination it asked for;
    [inl] is the answer itself, [inr] Winsock's. *)
Definition inhook_getpeername (s : Z) (name : bool) (namelen : option Z)
    : prog ((Z * option _SockAddr) + option (_SockAddr * Z)) :=
  let original := r ← do_ (GetPeerName s); mret (inr r) in
  if negb (bHookTCP psi) && negb (bHookUDP psi) then original
  else
    info ← look (fun h => GetInfo s (m_HackedSocket h));
    match info with
    | Some m =>
        let c := cm_client m in
        if negb (sType c =? SOCK_STREAM) then original
        else if negb name || match namelen with Some n => n <? Size (dstAddr c) | None => true end
        then do_ (SetError WSAEFAULT);; mret (inl (SOCKET_ERROR, None))
        else do_ (SetError 0);; mret (inl (0, Some (dstAddr c)))
    | None => original
    end.
End Send.
