(* ===== verification/HookSendSafety.v ===== *)
(** * A datagram is redirected, excused or refused (HookSend) *)

From S2P Require Import Prelude Winsock SockAddr UdpPolicy UdpBlockLogLimiter ReceptionCentre PipeRecords PipeClient PipeCalls.
From S2P Require Import DummyDns HackedSockets HookSystem HookConnect HookRules HookConnectSafety HookSend.

Section Safety.
Context {inet : InetText}.
Variable psi : ProxySettingsInfo.
Context (pid createTime : Z).
(** What holds of every request the host accepts. *)
Variable Accepted : ClientMessage -> Prop.

(** ** What the history must contain *)

(** The destination is the route of an earlier request of the socket: the
    application asked the system for the peer of its redirected socket. *)
Definition own_route (s : Z) (addr : _SockAddr) : Prop :=
  exists m, Accepted m /\ c_s (cm_client m) = s /\ sType (cm_client m) = SOCK_DGRAM /\
    GetPort (udpAddr (cm_client m)) = GetPort addr /\
    (SameAddress (udpAddr (cm_client m)) addr = true \/ (IsAny (udpAddr (cm_client m)) = true /\ IsLoopback addr = true)).

(** Reasons to send to [addr] itself. *)
Inductive send_excused (s : Z) (addr : _SockAddr) (h : list event) : Prop :=
  | not_udp t : In (Ev (GetSockType s) (Some t)) h -> t <> SOCK_DGRAM -> send_excused s addr h
  | is_route : own_route s addr -> send_excused s addr h
  | stays_local m pi :
      In (Ev (Rpc RequestPipe (ProxyInfoCall m)) (ProxyIs (Some pi))) h ->
      dstAddr (cm_client m) = addr -> CanHackIt psi (cm_client m) pi = HOOK_BYPASS ->
      send_excused s addr h.

(** The datagram goes to the host's address for a request it accepted: the
    very request of this socket, or one with the same source and destination
    made before. *)
Definition routed (s : Z) (addr : _SockAddr) (d : CDummyDNS) (h : list event) (to : _SockAddr) (limit : Z) : Prop :=
  exists q m, request_for pid createTime s addr d h q /\ Accepted m /\
    ((exists r e pi, In (Ev (Rpc RequestPipe (RegisterCall (set_reserved r q))) (Registered true m e)) h /\
        In (Ev (Rpc RequestPipe (ProxyInfoCall q)) (ProxyIs (Some pi))) h /\
        limit = route_limit (cm_client m) pi /\
        to = local_route (udpAddr (cm_client m)) (sa_family (dstAddr (cm_client m)))) \/
     (routes (cm_client q) m = true /\ to = local_route (udpAddr (cm_client m)) (sa_family addr) /\
      exists t, In (Saw t) h /\
        limit = default MAX_IPV4_UDP_PAYLOAD (GetUDPMaxPayload (cm_client q) (m_HackedSocket t)))).

(** The address a send is about: the one given or, without one, the peer. *)
Definition about (s : Z) (to : option _SockAddr) (tolen : Z) (h : list event) (a : option _SockAddr) : Prop :=
  match to with
  | Some _ => NormalizeSocketAddress to tolen = a
  | None => exists p, In (Ev (GetPeerName s) p) h /\
      match p with Some (x, len) => NormalizeSocketAddress (Some x) len | None => None end = a
  end.

Definition gates_passed (s : Z) (msg : bool) (to : option _SockAddr) (tolen : Z) (h : list event) : Prop :=
  (bBlockIPv6 psi = true -> msg = true ->
   exists a, about s to tolen h a /\ match a with Some a => ShouldBlock a = false | None => True end) /\
  (bBlockUDP psi = true -> msg = true /\
   exists a, about s to tolen h (Some a) /\ IsUdpAllowedLoopback a = true) /\
  (bDisableMDNS psi = true -> IsMdnsDestination_ to tolen = false).

(** The payload of a connected route. *)
Definition fits_connected (s : Z) (buffers : option (list Z)) (h : list event) : Prop :=
  exists t, In (Saw t) h /\
    match GetConnectedUDPMaxPayload s (m_HackedSocket t) with
    | Some limit => IsWSABufferPayloadAllowed buffers limit = true
    | None => True
    end.

Definition may_go_direct (s : Z) (buffers : option (list Z)) (to : option _SockAddr) (tolen : Z) (h : list event) : Prop :=
  bHookUDP psi = false \/ (to = None /\ fits_connected s buffers h) \/
  (exists a, to = Some a /\ NormalizeSocketAddress to tolen = None) \/
  (exists addr, NormalizeSocketAddress to tolen = Some addr /\ send_excused s addr h).

Definition may_redirect (s : Z) (buffers : option (list Z)) (to : option _SockAddr) (tolen : Z) (d : CDummyDNS)
    (h : list event) (a : option _SockAddr) (len : Z) : Prop :=
  exists addr to' limit r, NormalizeSocketAddress to tolen = Some addr /\
    routed s addr d h to' limit /\ MakeSocketAddress to to' = Some (r, len) /\ a = Some r /\
    IsWSABufferPayloadAllowed buffers limit = true.

(** What may reach the system when the application makes the call. *)
Definition may_send (app : real_call) (d : CDummyDNS) (rc : real_call) (h : list event) : Prop :=
  match app with
  | real_sendto s len flags to tolen =>
      gates_passed s true to tolen h /\
      ((rc = app /\ (bHookUDP psi = false \/ len < 0)) \/
       (rc = real_WSASendTo s (Some [len]) flags to tolen /\ may_go_direct s (Some [len]) to tolen h) \/
       (exists a alen, rc = real_WSASendTo s (Some [len]) flags a alen /\ may_redirect s (Some [len]) to tolen d h a alen))
  | real_WSASendTo s buffers flags to tolen =>
      gates_passed s true to tolen h /\
      ((rc = app /\ may_go_direct s buffers to tolen h) \/
       (exists a alen, rc = real_WSASendTo s buffers flags a alen /\ may_redirect s buffers to tolen d h a alen))
  | real_WSASendMsg s None flags => bBlockUDP psi = false /\ rc = app
  | real_WSASendMsg s (Some m) flags =>
      gates_passed s true (msg_name m) (msg_namelen m) h /\
      ((rc = app /\ may_go_direct s (msg_buffers m) (msg_name m) (msg_namelen m) h) \/
       (exists a alen, rc = real_WSASendTo s (msg_buffers m) flags a alen /\
          may_redirect s (msg_buffers m) (msg_name m) (msg_namelen m) d h a alen))
  | _ => False
  end.

Definition send_ok (s : Z) (addr : _SockAddr) (d : CDummyDNS) (h0 : list event)
    (r : HookDecision * _SockAddr * Z) (h : list event) : Prop :=
  grows h0 h /\
  match r with
  | (HOOK_BYPASS, _, _) => send_excused s addr h
  | (HOOK_REDIRECTED, to, limit) => routed s addr d h to limit
  | (HOOK_FAILED, _, _) => True
  end.

Lemma send_excused_grows s addr h h' : grows h h' -> send_excused s addr h -> send_excused s addr h'.
Proof. intros Hg [t Ht Hn| |m pi Hp Ha Hc]; [eapply not_udp|by apply is_route|eapply stays_local]; eauto. Qed.

Lemma routed_grows s addr d h h' to limit : grows h h' -> routed s addr d h to limit -> routed s addr d h' to limit.
Proof.
  intros Hg (q & m & Hq & Hm & Hr). exists q, m. split; [by eapply request_grows|]. split; [done|].
  destruct Hr as [(r & e & pi & H1 & H2 & H3)|(H1 & H2 & t & H3 & H4)]; [left; exists r, e, pi; auto|right; split; [done|]; split; [done|]; exists t; auto].
Qed.

Lemma send_ok_grows s addr d h0 r h h' : grows h h' -> send_ok s addr d h0 r h -> send_ok s addr d h0 r h'.
Proof.
  intros Hg [H0 H]. split; [by eapply grows_trans|]. destruct r as [[[] ?] ?]; [|by eapply routed_grows|done].
  by eapply send_excused_grows.
Qed.

Lemma send_ok_earlier s addr d h h0 r h' : grows h h0 -> send_ok s addr d h0 r h' -> send_ok s addr d h r h'.
Proof. intros Hg [H0 H]. split; [by eapply grows_trans|done]. Qed.

Lemma about_grows s to tolen h h' a : grows h h' -> about s to tolen h a -> about s to tolen h' a.
Proof. intros Hg. unfold about. destruct to; [done|]. intros (p & Hp & E). eauto. Qed.

Section May.
Variable may_call : real_call -> list event -> Prop.
Abbreviation holds := (holds may_call Accepted).
Abbreviation quiet := (quiet may_call Accepted).

Lemma quiet_NotifyQuicUdp : quiet (NotifyQuicUdp psi).
Proof.
  unfold NotifyQuicUdp. quiet.
Qed.

Lemma holds_send_endpoint s family h d :
  holds (send_endpoint s family)
    (fun r h' => grows h h' /\
       match r with
       | Some src => exists a len, In (Ev (GetSockName s) (Some (a, len))) h' /\ endpoint_of family a len = Some src
       | None => True
       end) h d.
Proof.
  unfold send_endpoint. apply holds_bind. eapply holds_mono; [apply holds_GetSocketEndpoint, grows_refl|].
  intros [src|] h1 [Hg Hs]; [by apply holds_ret|].
  apply holds_bind, holds_call; [done|]. intros e _. destruct (negb _); [by apply holds_ret; split; [apply grows_cons|]|].
  apply holds_bind, holds_call; [done|]. intros b _.
  destruct (negb b); [by apply holds_ret; split; [do 2 apply grows_cons|]|].
  apply holds_GetSocketEndpoint. by do 2 apply grows_cons.
Qed.

Lemma failed_send s addr d h0 to limit h : grows h0 h -> send_ok s addr d h0 (HOOK_FAILED, to, limit) h.
Proof. by split. Qed.

(** *** [HackSendTo] *)

Lemma holds_existing_route s addr h d q otherwise :
  request_for pid createTime s addr d h q ->
  (forall t, holds otherwise (send_ok s addr d h) (Saw t :: h) d) ->
  holds (existing_route psi (cm_client q) otherwise) (send_ok s addr d h) h d.
Proof.
  intros Hq Ho. unfold existing_route. apply holds_bind, holds_look. intros t _ Ht.
  set (h0 := _ :: h). assert (G0 : grows h h0) by apply grows_step.
  unfold IsUDPReqHacked. destruct (find _ _) as [m|] eqn:E; [|apply Ho]. cbn [fmap option_fmap option_map].
  apply find_some in E as [Hin Hr]. apply holds_bind, holds_quiet; [apply quiet_NotifyQuicUdp|]. intros [] h1 G1.
  apply holds_bind, holds_look. intros t' _ _. apply holds_ret. set (h2 := _ :: h1).
  assert (G2 : grows h h2) by exact (grows_trans _ _ _ G0 (grows_cons _ _ _ G1)). split; [done|].
  exists q, m. split; [by eapply request_grows|]. split.
  - unfold tables_ok in Ht. rewrite Forall_forall in Ht. apply Ht. by apply list_elem_of_In.
  - right. split; [done|]. split; [by rewrite (rf_destination _ _ _ _ _ _ _ Hq)|].
    exists t'. split; [by left|done].
Qed.

Lemma holds_register_route s addr h d q :
  request_for pid createTime s addr d h q -> holds (register_route psi q) (send_ok s addr d h) h d.
Proof.
  intros Hq. unfold register_route. apply holds_bind, holds_quiet; [apply quiet_EnsureRequestPipe|].
  intros connected h1 G1. destruct (negb connected); [by apply holds_ret, failed_send|].
  apply holds_bind, holds_call; [done|]. intros p _. set (h2 := _ :: h1).
  assert (G2 : grows h h2) by by apply grows_cons.
  destruct p as [| | |[pi|]|]; try by apply holds_ret, failed_send.
  destruct (CanHackIt psi (cm_client q) pi) eqn:Ed; cbn [negb bool_decide].
  - apply holds_ret. split; [done|]. eapply stays_local; [by left|by eapply rf_destination|done].
  - apply holds_bind, holds_call; [done|]. intros v _. set (h3 := _ :: h2).
    assert (G3 : grows h h3) by by apply grows_cons.
    apply holds_bind, holds_call; [done|]. intros r Htrue. set (h4 := _ :: h3).
    assert (G4 : grows h h4) by by apply grows_cons.
    assert (Hfail : holds (e ← do_ GetError;
                           (if (e =? WSAEOPNOTSUPP) || (e =? WSAEHOSTUNREACH) then mret tt else Disconnect);;
                           mret (HOOK_FAILED, dstAddr (cm_client q), MAX_IPV4_UDP_PAYLOAD)) (send_ok s addr d h) h4 d).
    { apply holds_bind, holds_quiet; [quiet|]. intros e h6 G6. apply holds_bind, holds_quiet; [quiet|].
      intros [] h7 G7. apply holds_ret, failed_send. eapply grows_trans; [|done]. by eapply grows_trans. }
    destruct r as [[] m e| | | |]; try exact Hfail. clear Hfail.
    pose proof (Htrue _ _ _ _ eq_refl) as Hm.
    apply holds_bind, holds_change; [intros t; by apply step_push|]. intros t1.
    apply holds_bind, holds_change; [intros t; apply step_limit|]. intros t2. set (h5 := _ :: _ :: h4).
    assert (G5 : grows h h5) by by do 2 apply grows_cons.
    apply holds_ret. split; [done|]. exists q, m. split; [by eapply request_grows|]. split; [done|].
    left. exists v, e, pi. split_and!; [right; right; by left|do 4 right; by left|done|done].
  - by apply holds_ret, failed_send.
Qed.

Lemma holds_HackSendTo s addr h d :
  bHookUDP psi = true -> holds (HackSendTo psi pid createTime s addr) (send_ok s addr d h) h d.
Proof.
  intros Hu. unfold HackSendTo. rewrite Hu. cbn [negb].
  apply holds_bind, holds_call; [done|]. intros type _. set (h1 := _ :: h).
  assert (G1 : grows h h1) by apply grows_step.
  destruct type as [t|]; [|by apply holds_ret, failed_send].
  assert (Ht : In (Ev (GetSockType s) (Some t)) h1) by by left.
  destruct (Z.eqb_spec t SOCK_DGRAM) as [->|Hn]; cbn [negb].
  2: { apply holds_ret. split; [done|]. by eapply not_udp. }
  apply holds_bind, holds_look. intros tb _ Htb.
  set (h1' := _ :: h1). assert (G1' : grows h h1') by by apply grows_cons.
  destruct (IsUDPRouteAddress _ _ _) eqn:Er.
  { apply holds_ret. split; [done|]. apply is_route. unfold IsUDPRouteAddress in Er.
    destruct (_ && _); [done|]. apply existsb_exists in Er as (m & Hin & Hm). bool_hyps.
    exists m. split_and!; [|done|done|done|].
    - unfold tables_ok in Htb. rewrite Forall_forall in Htb. apply Htb. by apply list_elem_of_In.
    - match goal with H : _ || _ = true |- _ => apply orb_prop in H as [|] end; [by left|right; by bool_hyps]. }
  apply holds_bind. eapply holds_mono; [apply holds_send_endpoint|]. intros src h2 [G2 Hsrc].
  assert (G2' : grows h h2) by exact (grows_trans _ _ _ G1' G2).
  destruct src as [src|]; [|by apply holds_ret, failed_send].
  apply holds_bind, holds_call; [done|]. intros tid _. set (h3 := _ :: h2).
  assert (G3 : grows h2 h3) by apply grows_step.
  apply holds_bind, holds_table; [apply step_generation|]. intros tg _ _. set (gen := fst _). clearbody gen.
  apply holds_bind, holds_look. intros tb' Hl _. set (q := request_of _ _ _ _ _ _ _ _ _).
  set (h4 := _ :: _ :: h3). assert (G4 : grows h2 h4) by by do 2 apply grows_cons.
  assert (Hq : request_for pid createTime s addr d h4 q).
  { split; [done|done| | |done|].
    - apply G4, G2. by right.
    - destruct Hsrc as (a & len & Ha & He). exists a, len. split; [by apply G4|done].
    - exists tb'. split; [by left|done]. }
  eapply holds_mono with (P := send_ok s addr d h4);
    [|intros r h5; apply send_ok_earlier; exact (grows_trans _ _ _ G2' G4)].
  apply holds_existing_route; [done|]. intros t1. apply holds_locked.
  set (h5 := _ :: _ :: h4). assert (G5 : grows h4 h5) by (do 2 apply grows_cons; apply grows_refl).
  eapply holds_mono with (P := send_ok s addr d h5).
  - assert (Hq' : request_for pid createTime s addr d h5 q) by by eapply request_grows.
    apply holds_existing_route; [done|]. intros t2.
    eapply holds_mono; [apply holds_register_route; eapply request_grows; [apply grows_step|done]|].
    intros r h6. apply send_ok_earlier, grows_step.
  - intros r h6 Hr. eapply send_ok_grows; [apply grows_step|]. by eapply send_ok_earlier.
Qed.
End May.

(** ** The detours *)

Lemma gates_grow s msg to tolen h h' : grows h h' -> gates_passed s msg to tolen h -> gates_passed s msg to tolen h'.
Proof.
  intros Hg (H1 & H2 & H3). split_and!; [| |done].
  - intros Hb Hm. destruct (H1 Hb Hm) as (a & Ha & ?). exists a. split; [by eapply about_grows|done].
  - intros Hb. destruct (H2 Hb) as (Hm & a & Ha & ?). split; [done|]. exists a. split; [by eapply about_grows|done].
Qed.

Section Detour.
Context (app : real_call) (d : CDummyDNS).
Abbreviation may := (may_send app d).
Abbreviation holds := (holds may Accepted).
Abbreviation done_ := (fun (_ : sent) (_ : list event) => True).

Lemma holds_send_real rc h : may rc h -> holds (send_real rc) done_ h d.
Proof. intros Hm. by apply holds_real. Qed.

Lemma holds_send_fails e h : holds (send_fails e) done_ h d.
Proof. apply holds_bind, holds_call; [done|]. intros r _. by apply holds_ret. Qed.

Lemma quiet_peer_destination s : quiet may Accepted (peer_destination s).
Proof. unfold peer_destination. quiet. Qed.

(** The address the gates look at. *)
Lemma holds_about s to tolen h :
  holds (GetSocketDestination s to tolen) (fun a h' => grows h h' /\ about s to tolen h' a) h d.
Proof.
  unfold GetSocketDestination, peer_destination, about. destruct to as [a|].
  - apply holds_ret. split; [apply grows_refl|done].
  - apply holds_bind, holds_call; [done|]. intros p _. apply holds_ret. split; [apply grows_step|].
    exists p. split; [by left|done].
Qed.

Lemma holds_blocked6 s msg to tolen h :
  holds (if bBlockIPv6 psi && msg then IsBlockedIPv6Destination s to tolen else mret None)
    (fun r h' => grows h h' /\ (r = None -> bBlockIPv6 psi = true -> msg = true ->
       exists a, about s to tolen h' a /\ match a with Some a => ShouldBlock a = false | None => True end)) h d.
Proof.
  destruct (bBlockIPv6 psi && msg) eqn:E.
  2: { apply holds_ret. split; [apply grows_refl|]. intros _ Hb Hm. by rewrite Hb, Hm in E. }
  apply holds_bind. eapply holds_mono; [apply holds_about|]. intros a h1 [G1 Ha]. apply holds_ret.
  split; [done|]. intros Hr _ _. exists a. split; [done|]. destruct a as [a|]; [|done].
  by destruct (ShouldBlock a).
Qed.

Lemma holds_loopback s to tolen h :
  holds (IsUdpLoopbackDestination s to tolen)
    (fun r h' => grows h h' /\ (r = true -> exists a, about s to tolen h' (Some a) /\ IsUdpAllowedLoopback a = true)) h d.
Proof.
  unfold IsUdpLoopbackDestination, peer_destination, about. destruct to as [x|].
  - apply holds_ret. split; [apply grows_refl|]. destruct (NormalizeSocketAddress _ _); [eauto|done].
  - apply holds_bind, holds_bind, holds_call; [done|]. intros p _. apply holds_ret, holds_ret.
    split; [apply grows_step|]. set (q := match p with Some _ => _ | None => None end).
    destruct q as [a|] eqn:Eq; [|done]. intros Ha. exists a. split; [|done]. exists p. split; [by left|done].
Qed.

Lemma holds_send_gates s msg to tolen onward h :
  (forall h', grows h h' -> gates_passed s msg to tolen h' -> holds onward done_ h' d) ->
  holds (send_gates psi pid s msg to tolen onward) done_ h d.
Proof.
  intros Ho. unfold send_gates. apply holds_bind. eapply holds_mono; [apply holds_blocked6|].
  intros b6 h1 [G1 H6]. destruct b6 as [a|].
  { apply holds_bind, holds_quiet; [apply quiet_LogBlockedIPv6|]. intros. apply holds_send_fails. }
  apply holds_bind. eapply holds_mono with (P := fun r h' => grows h1 h' /\
    (r = true -> bBlockUDP psi = true -> msg = true /\
       exists a, about s to tolen h' (Some a) /\ IsUdpAllowedLoopback a = true)).
  { destruct (bBlockUDP psi); [|apply holds_ret; split; [apply grows_refl|done]].
    destruct msg; [|apply holds_ret; split; [apply grows_refl|done]].
    eapply holds_mono; [apply holds_loopback|]. intros r h2 [G2 H2]. split; [done|auto]. }
  intros l h2 [G2 H2]. destruct l; cbn [negb].
  2: { apply holds_bind, holds_quiet; [apply quiet_LogBlockedUDP|]. intros. apply holds_send_fails. }
  destruct (bDisableMDNS psi && IsMdnsDestination_ to tolen) eqn:Em; [apply holds_send_fails|].
  apply Ho; [by eapply grows_trans|]. split_and!; [|auto|].
  - intros Hb Hm. destruct (H6 eq_refl Hb Hm) as (a & Ha & ?). exists a. split; [by eapply about_grows|done].
  - intros Hb. by rewrite Hb in Em.
Qed.

Lemma holds_send_connected s buffers rc h :
  (forall h', grows h h' -> fits_connected s buffers h' -> may rc h') ->
  holds (send_connected psi s buffers (send_real rc)) done_ h d.
Proof.
  intros Hd. unfold send_connected. apply holds_bind, holds_look. intros t _ _.
  apply holds_if; intros El; [apply holds_send_fails|].
  apply holds_bind, holds_quiet; [apply quiet_if; [apply quiet_ret|apply quiet_NotifyQuicUdp]|].
  intros _ h1 G1. apply holds_send_real, Hd; [exact (grows_trans _ _ _ (grows_step _ _) G1)|].
  exists t. split; [apply G1; by left|]. destruct (GetConnectedUDPMaxPayload _ _); [|done].
  by apply negb_false_iff.
Qed.

Lemma holds_datagram_to s buffers a tolen rc redirected h :
  bHookUDP psi = true ->
  (forall h', grows h h' -> may_go_direct s buffers (Some a) tolen h' -> may rc h') ->
  (forall h' r len, grows h h' -> may_redirect s buffers (Some a) tolen d h' (Some r) len ->
     holds (redirected r len) done_ h' d) ->
  holds (datagram_to psi pid createTime s buffers (Some a) tolen (send_real rc) redirected) done_ h d.
Proof.
  intros Hu Hd Hr. unfold datagram_to. destruct (NormalizeSocketAddress (Some a) tolen) as [addr|] eqn:En.
  2: { apply holds_send_real, Hd; [apply grows_refl|]. right; right; left. by exists a. }
  apply holds_bind, holds_quiet; [unfold EnsureSocketBound; quiet|]. intros bound h1 G1.
  destruct (negb bound); [by apply holds_ret|].
  apply holds_bind. eapply holds_mono; [by apply holds_HackSendTo|].
  intros [[[] to] limit] h2 [G2 H]; cbn iota beta in H; assert (G : grows h h2) by by eapply grows_trans.
  - apply holds_send_real, Hd; [done|]. right; right; right. by exists addr.
  - destruct (IsWSABufferPayloadAllowed buffers limit) eqn:Ep; cbn [negb]; [|apply holds_send_fails].
    destruct (MakeSocketAddress (Some a) to) as [[r len]|] eqn:Em; [|apply holds_send_fails].
    apply Hr; [done|]. exists addr, to, limit, r. by split_and!.
  - apply holds_bind, holds_call; [done|]. intros e _. destruct (e =? 0); [apply holds_send_fails|by apply holds_ret].
Qed.

(** What a send may do when it goes on as WSASendTo. *)
Definition onward (s : Z) (buffers : option (list Z)) (flags : Z) (to : option _SockAddr) (tolen : Z) (h : list event) : Prop :=
  (forall h', grows h h' -> may_go_direct s buffers to tolen h' -> may (real_WSASendTo s buffers flags to tolen) h') /\
  (forall h' r len, grows h h' -> may_redirect s buffers to tolen d h' (Some r) len ->
     may (real_WSASendTo s buffers flags (Some r) len) h').

Lemma holds_inhook_WSASendTo s buffers flags to tolen h :
  (forall h', grows h h' -> gates_passed s true to tolen h' -> onward s buffers flags to tolen h') ->
  holds (inhook_WSASendTo psi pid createTime s buffers flags to tolen) done_ h d.
Proof.
  intros Hon. unfold inhook_WSASendTo. apply holds_send_gates. intros h1 G1 Hg.
  destruct (Hon h1 G1 Hg) as [Hd Hr].
  destruct (bHookUDP psi) eqn:Hu; cbn [negb].
  2: { apply holds_send_real, Hd; [apply grows_refl|by left]. }
  destruct to as [a|].
  - apply holds_datagram_to; [done|done|]. intros h2 r len G2 H2. by apply holds_send_real, Hr.
  - apply holds_send_connected. intros h2 G2 H2. apply Hd; [done|by right; left].
Qed.
End Detour.

Lemma holds_detour_send original counted app d :
  holds (may_send app d) Accepted (detour_send psi pid createTime original counted app) (fun _ _ => True) [] d.
Proof.
  destruct app as [? ? ? ?|s len flags to tolen|s buffers flags to tolen|s msg flags|?|? ? ?]; try by apply holds_ret.
  - cbn [detour_send]. unfold inhook_sendto. apply holds_send_gates. intros h1 _ Hg.
    apply holds_if; intros Hc.
    + apply holds_send_real. split; [done|]. left. split; [done|]. apply orb_prop in Hc as [Hc|Hc]; [left|right; lia].
      by apply negb_true_iff.
    + apply holds_bind. eapply holds_mono; [apply holds_inhook_WSASendTo|intros r h2 _; by apply holds_ret].
      intros h2 G2 Hg2. split.
      * intros h3 G3 H3. split; [by eapply gates_grow|]. right; left. by split.
      * intros h3 r alen G3 H3. split; [by eapply gates_grow|]. right; right. by exists (Some r), alen.
  - cbn [detour_send]. apply holds_inhook_WSASendTo. intros h1 _ Hg. split.
    + intros h2 G2 H2. split; [by eapply gates_grow|]. left. by split.
    + intros h2 r alen G2 H2. split; [by eapply gates_grow|]. right. by exists (Some r), alen.
  - cbn [detour_send]. unfold inhook_WSASendMsg. apply holds_if; intros _; [apply holds_send_fails|].
    destruct msg as [m|].
    + change (bool_decide (is_Some (Some m))) with true. apply holds_send_gates. intros h1 _ Hg.
      cbn [mbind option_bind option_map] in Hg |- *.
      assert (Hdir : forall h2, grows h1 h2 ->
                may_go_direct s (msg_buffers m) (msg_name m) (msg_namelen m) h2 ->
                may_send (real_WSASendMsg s (Some m) flags) d (real_WSASendMsg s (Some m) flags) h2).
      { intros h2 G2 H2. split; [by eapply gates_grow|]. left. by split. }
      destruct (bHookUDP psi) eqn:Hu; cbn [negb].
      2: { apply holds_send_real, Hdir; [apply grows_refl|by left]. }
      destruct (msg_name m) as [a|] eqn:Ea.
      * apply holds_datagram_to; [done|done|]. intros h2 r len G2 H2. apply holds_bind.
        eapply holds_mono; [apply holds_send_real|intros x h3 _; by apply holds_ret].
        cbn [may_send]. rewrite Ea. split; [by eapply gates_grow|]. right. by exists (Some r), len.
      * apply holds_send_connected. intros h2 G2 H2. apply Hdir; [done|by right; left].
    + change (bool_decide (is_Some None)) with false. apply holds_send_gates. intros h1 _ Hg.
      apply holds_send_real. split; [|done]. destruct Hg as (_ & Hb & _).
      destruct (bBlockUDP psi); [|done]. by destruct (Hb eq_refl).
Qed.

(** C15: However the host, the system and other threads answer and interleave, a
    datagram goes to the destination the application gave only where the
    settings or the socket excuse it, or where that destination is the socket's
    own route; every other goes to the host's address for an accepted request of
    this socket with the same source and destination, and only if its payload
    fits the route, or nowhere.  What the settings block never reaches Winsock. *)
Theorem sends_fail_closed (original counted : bool) (app : real_call) (t : HookState) (Ht : tables_ok Accepted t) :
  wp (interference Accepted) (call_ok (may_send app (m_DummyDNS t)) Accepted) (recorded Accepted) seen
    (detour_send psi pid createTime original counted app) (fun _ _ => True) (mkWorld t []).
Proof.
  eapply wp_prog_mono; [apply (holds_detour_send original counted app); [done|apply later_refl|done]|done].
Qed.
End Safety.

(** A process with one route, to 8.8.8.8:53 over the host's port 4000. *)
Definition v4_addr (x : list Z) (port : Z) : _SockAddr := mkSockAddr AF_INET (htons port) (x ++ replicate 20 0).

Definition route0 : ClientMessage :=
  mkClientMessage (mkPRCClient 1 2 1 SOCK_DGRAM 5 [] (v4_addr [192; 168; 1; 2] 3000) (v4_addr [8; 8; 8; 8] 53)
    zero_address 0 0 (v4_addr [127; 0; 0; 1] 4000)) 7 0 0.

Definition tables0 : HookState :=
  mkHook new_CDummyDNS (push route0 new_CHackedSocket) new_limiter true.

Definition settings0 : ProxySettingsInfo :=
  mkProxySettingsInfo true true 0 true false false true false true false zero_address.

Lemma sends_fail_closed_witness :
  let inet : InetText := fun _ => 0 in
  let app := real_sendto 5 100 0 (Some (v4_addr [8; 8; 8; 8] 53)) 16 in
  let acc := fun m => m = route0 in
  wp (interference acc) (call_ok (may_send settings0 1 2 acc app new_CDummyDNS) acc) (recorded acc) seen
    (detour_send settings0 1 2 true true app) (fun _ _ => True) (mkWorld tables0 []).
Proof.
  intros inet app acc. apply (sends_fail_closed settings0 1 2 acc true true app tables0).
  by constructor.
Defined.
