(* ===== verification/HookDns.v ===== *)
(** * Intercepted name lookups (HookWinsock.cpp)

    A name that is resolved at the proxy is looked up as localhost and the
    addresses of the answer are replaced by the name's dummy addresses. *)

From S2P Require Import Prelude Winsock SockAddr UdpPolicy PipeRecords PipeCalls DummyDns HackedSockets HookSystem HookConnect.

Definition AI_PASSIVE : Z := 1.

Definition IsPassiveLookup (hints : option Hints) : bool :=
  match hints with Some h => negb (Z.land (h_flags h) AI_PASSIVE =? 0) | None => false end.

Section Dns.
Variable psi : ProxySettingsInfo.               (* m_psi *)
Context (pid protype0 : Z) (m_LocalDnsHostName : bytes).   (* [protype] is not set *)

(** ** Which names are resolved at the proxy *)

Definition IsHostNameReserved (name : bytes) : prog bool :=
  if IsLocalhost (Some name) || EqualsDnsName (Some name) (Some m_LocalDnsHostName) then mret true
  else
    literal ← do_ (InetPton AF_INET name);
    literal ← (if literal : bool then mret true else do_ (InetPton AF_INET6 name));
    if literal : bool then mret true
    else
      connected ← do_ (PipeConnect OwnPipe);
      if negb connected then mret true
      else
        tid ← do_ GetThreadId;
        can ← do_ (Rpc OwnPipe (CanProxyCall (mkPRCClientInfo pid tid protype0)));
        do_ (PipeDisconnect OwnPipe);;
        mret (negb (answered_true can)).

Definition HackDNS (name : bytes) : prog bool :=
  if nDNSOption psi =? PSI_DNSOPT_LOCAL then mret false
  else if nDNSOption psi =? PSI_DNSOPT_REMOTE
  then reserved ← IsHostNameReserved name; mret (negb reserved)
  else mret false.

(** ** Dummy addresses, in steps *)

Definition enter_name (name : bytes) (h : HookState) : Z * HookState :=
  let '(ip, d) := add_node name (m_DummyDNS h) in (ip, set_m_DummyDNS d h).

Definition get_dummy_ip (name : bytes) : prog Z :=
  node ← look (fun h => GetNode name (m_DummyDNS h));
  match node with
  | Some node => mret (dummyIP node)
  | None => table (enter_name name)
  end.

Definition get_dummy_ipv6 (name : bytes) : prog bytes :=
  node ← look (fun h => GetNode name (m_DummyDNS h));
  match node with
  | Some node => mret (dummyIPv6 node)
  | None =>
      get_dummy_ip name;;
      node ← look (fun h => GetNode name (m_DummyDNS h));
      mret match node with Some node => dummyIPv6 node | None => replicate 16 0 end
  end.

(** ** The detours *)

Definition set_in (ip : Z) (a : _SockAddr) : _SockAddr :=
  mkSockAddr (sa_family a) (sa_port a) (le_split 4 ip ++ drop 4 (sa_data a)).
Definition set_in6 (ip6 : bytes) (a : _SockAddr) : _SockAddr :=
  mkSockAddr (sa_family a) (sa_port a) (take 4 (sa_data a) ++ ip6 ++ drop 20 (sa_data a)).

(** One entry of the answer. *)
Definition replaced (ip : Z) (ip6 : bytes) (ai : AddressInfo) : AddressInfo :=
  match ai_addr ai with
  | Some a =>
      if (ai_family ai =? AF_INET6) && (sizeof_SOCKADDR_IN6 <=? ai_addrlen ai)
      then mkAddressInfo (ai_family ai) (Some (set_in6 ip6 a)) (ai_addrlen ai)
      else if (ai_family ai =? AF_INET) && (sizeof_SOCKADDR_IN <=? ai_addrlen ai)
      then mkAddressInfo (ai_family ai) (Some (set_in ip a)) (ai_addrlen ai)
      else ai
  | None => ai
  end.

(** The name in bytes; a wide name that does not fit is left to the system. *)
Definition ansi_name (fn : lookup_fn) (name : option (list Z)) : prog (option bytes) :=
  match name with
  | None => mret None
  | Some n => match fn with fn_getaddrinfo => mret (Some n) | _ => do_ (ToAnsi n) end
  end.

Definition localhost_name : bytes := ascii_bytes "localhost".

Definition with_family (family : Z) (hints : option Hints) : option Hints :=
  Some (mkHints (match hints with Some h => h_flags h | None => 0 end) family).

(** [inhook_getaddrinfo], [inhook_GetAddrInfoW], [inhook_GetAddrInfoExW]; an
    overlapped lookup that is taken over completes at once. *)
Definition detour_lookup (fn : lookup_fn) (name : option (list Z)) (hints : option Hints)
    : prog (Z * list AddressInfo) :=
  let direct := do_ (Lookup (real_lookup fn name hints)) in
  ansi ← ansi_name fn name;
  match ansi with
  | None => direct
  | Some nodename =>
      hack ← (if IsPassiveLookup hints then mret false else HackDNS nodename);
      if negb hack then direct
      else
        let family := match hints with Some h => h_family h | None => AF_UNSPEC end in
        match Decide family (bBlockIPv6 psi) with
        | REJECT_IPV6 => mret (WSAEAFNOSUPPORT, [])
        | decision =>
            ip ← get_dummy_ip nodename;
            ip6 ← get_dummy_ipv6 nodename;
            let effective := match decision with FORCE_IPV4 => with_family AF_INET hints | _ => hints end in
            r ← do_ (Lookup (real_lookup fn (Some localhost_name) effective));
            mret (fst r, if fst r =? 0 then map (replaced ip ip6) (snd r) else snd r)
        end
  end.

End Dns.

From S2P Require Import ReceptionCentre PipeClient.
From S2P Require Import HookRules HookConnectSafety.

(** * Names resolved at the proxy stay there (HookDns) *)

Section Safety.
Variable psi : ProxySettingsInfo.
Context (pid protype0 : Z) (local_name : bytes).

(** ** What the history must contain *)

(** The name in bytes. *)
Definition spells (fn : lookup_fn) (name : option (list Z)) (nodename : bytes) (h : list event) : Prop :=
  match fn with
  | fn_getaddrinfo => name = Some nodename
  | _ => exists w, name = Some w /\ In (Ev (ToAnsi w) (Some nodename)) h
  end.

(** Reasons to ask the system for the name itself. *)
Inductive reserved (nodename : bytes) (h : list event) : Prop :=
  | resolved_here : nDNSOption psi <> PSI_DNSOPT_REMOTE -> reserved nodename h
  | own_name : IsLocalhost (Some nodename) || EqualsDnsName (Some nodename) (Some local_name) = true -> reserved nodename h
  | is_literal family : In (Ev (InetPton family nodename) true) h -> reserved nodename h
  | host_absent : In (Ev (PipeConnect OwnPipe) false) h -> reserved nodename h
  | not_proxied i r : In (Ev (Rpc OwnPipe (CanProxyCall i)) r) h -> answered_true r = false -> reserved nodename h.

Inductive left_to_system (fn : lookup_fn) (name : option (list Z)) (hints : option Hints) (h : list event) : Prop :=
  | no_name : name = None -> left_to_system fn name hints h
  | too_long w : name = Some w -> In (Ev (ToAnsi w) None) h -> left_to_system fn name hints h
  | passive : IsPassiveLookup hints = true -> left_to_system fn name hints h
  | reserved_name n : spells fn name n h -> reserved n h -> left_to_system fn name hints h.

Definition may_look_up (fn : lookup_fn) (name : option (list Z)) (hints : option Hints) (rc : real_call)
    (h : list event) : Prop :=
  (rc = real_lookup fn name hints /\ left_to_system fn name hints h) \/
  exists hints', rc = real_lookup fn (Some localhost_name) hints'.

(** The answer is the system's, a refusal, or localhost's with the addresses
    of nodes that stand for the name. *)
Definition resolution (fn : lookup_fn) (name : option (list Z)) (hints : option Hints)
    (r : Z * list AddressInfo) (h : list event) (d : CDummyDNS) : Prop :=
  left_to_system fn name hints h \/ snd r = [] \/ fst r <> 0 \/
  (exists nodename, spells fn name nodename h /\ (255 < length nodename)%nat) \/
  exists nodename n n6 l, spells fn name nodename h /\ snd r = map (replaced (dummyIP n) (dummyIPv6 n6)) l /\
    stands_for nodename n d /\ stands_for nodename n6 d.

(** ** The lookups *)

Section May.
Variable may_call : real_call -> list event -> Prop.
Variable Accepted : ClientMessage -> Prop.
Abbreviation holds := (holds may_call Accepted).
Abbreviation enters := (enters may_call Accepted).
Abbreviation quiet := (quiet may_call Accepted).

Lemma holds_HackDNS nodename h d :
  holds (HackDNS psi pid protype0 local_name nodename)
    (fun b h' => grows h h' /\ (b = false -> reserved nodename h')) h d.
Proof.
  unfold HackDNS. destruct (_ =? PSI_DNSOPT_LOCAL) eqn:E1.
  { apply holds_ret. split; [apply grows_refl|]. intros _. apply resolved_here.
    apply Z.eqb_eq in E1. by rewrite E1. }
  destruct (Z.eqb_spec (nDNSOption psi) PSI_DNSOPT_REMOTE) as [_|Hn].
  2: { apply holds_ret. split; [apply grows_refl|]. intros _. by apply resolved_here. }
  apply holds_bind.
  eapply holds_mono with (P := fun b h' => grows h h' /\ (b = true -> reserved nodename h')).
  2: { intros b h' [Hg Hr]. apply holds_ret. split; [done|]. by destruct b; auto. }
  unfold IsHostNameReserved. apply holds_if; intros E2.
  { apply holds_ret. split; [apply grows_refl|]. intros _. by apply own_name. }
  apply holds_bind, holds_call; [done|]. intros l4 _. set (h1 := _ :: h).
  apply holds_bind. eapply holds_mono with (P := fun b h' => grows h h' /\ (b = true -> reserved nodename h')).
  { destruct l4.
    - apply holds_ret. split; [apply grows_step|]. intros _. eapply is_literal. by left.
    - apply holds_call; [done|]. intros l6 _. split; [apply grows_cons, grows_step|].
      intros ->. eapply is_literal. by left. }
  intros lit h2 [G2 H2]. destruct lit; [apply holds_ret; auto|].
  apply holds_bind, holds_call; [done|]. intros c _. destruct c; cbn [negb].
  2: { apply holds_ret. split; [by apply grows_cons|]. intros _. apply host_absent. by left. }
  apply holds_bind, holds_call; [done|]. intros tid _.
  apply holds_bind, holds_call; [done|]. intros can _.
  apply holds_bind, holds_call; [done|]. intros [] _. apply holds_ret.
  split; [by do 4 apply grows_cons|]. intros Hc. eapply not_proxied; [right; left; reflexivity|].
  by destruct (answered_true can).
Qed.

Section Names.
Context (nodename : bytes).

Lemma enters_step (t : HookState) : table_step Accepted t (snd (enter_name nodename t)).
Proof.
  unfold enter_name. destruct (add_node nodename (m_DummyDNS t)) as [ip d'] eqn:E. split; [|done].
  apply (later_add nodename). rewrite E. apply later_refl.
Qed.

Lemma enters_get_dummy_ip h d :
  (length nodename <= 255)%nat -> later new_CDummyDNS d ->
  enters (get_dummy_ip nodename)
    (fun ip h' d' => grows h h' /\ exists n, stands_for nodename n d' /\ ip = dummyIP n) h d.
Proof.
  intros Hlen H0. unfold get_dummy_ip. apply enters_bind.
  eapply enters_table; [intros; apply table_step_refl|]. intros t Ht. cbn [fst snd].
  assert (H1 : later new_CDummyDNS (m_DummyDNS t)) by by eapply later_trans.
  destruct (GetNode nodename (m_DummyDNS t)) as [n|] eqn:E.
  - apply enters_ret. split; [apply grows_step|]. exists n. split; [by apply found_stands|done].
  - apply enters_table; [apply enters_step|]. intros t' Ht'. split; [apply grows_cons, grows_step|].
    unfold enter_name.
    destruct (add_node nodename (m_DummyDNS t')) as [ip d'] eqn:E'. cbn [fst snd m_DummyDNS set_m_DummyDNS].
    eapply answered_stands; [|by right|done]. by eapply later_trans.
Qed.

Lemma enters_get_dummy_ipv6 h d n0 :
  later new_CDummyDNS d -> stands_for nodename n0 d ->
  enters (get_dummy_ipv6 nodename)
    (fun ip6 h' d' => grows h h' /\ exists n, stands_for nodename n d' /\ ip6 = dummyIPv6 n) h d.
Proof.
  intros H0 Hn0. unfold get_dummy_ipv6. apply enters_bind.
  eapply enters_table; [intros; apply table_step_refl|]. intros t Ht. cbn [fst snd].
  destruct (stands_found _ _ _ (stands_later _ _ _ _ Ht Hn0)) as (n & E). rewrite E.
  apply enters_ret. split; [apply grows_step|]. exists n. split; [|done]. apply found_stands; [by eapply later_trans|done].
Qed.

Lemma quiet_enter_name : quiet (table (enter_name nodename)).
Proof. intros h d. apply holds_table; [apply enters_step|]. intros. apply grows_step. Qed.

Lemma quiet_get_dummy_ip : quiet (get_dummy_ip nodename).
Proof. unfold get_dummy_ip. quiet. apply quiet_enter_name. Qed.

Lemma quiet_get_dummy_ipv6 : quiet (get_dummy_ipv6 nodename).
Proof. unfold get_dummy_ipv6. quiet. apply quiet_enter_name. Qed.
End Names.

Lemma reserved_grows n h h' : grows h h' -> reserved n h -> reserved n h'.
Proof.
  intros Hg [H|H|f H|H|i r H H'];
    [by apply resolved_here|by apply own_name|eapply is_literal|apply host_absent|eapply not_proxied]; eauto.
Qed.

Lemma spells_grows fn name n h h' : grows h h' -> spells fn name n h -> spells fn name n h'.
Proof. intros Hg. unfold spells. destruct fn; [done| |]; intros (w & -> & H); eauto. Qed.

Lemma left_grows fn name hints h h' : grows h h' -> left_to_system fn name hints h -> left_to_system fn name hints h'.
Proof.
  intros Hg [H|w H H'|H|n H H'];
    [by apply no_name|eapply too_long|by apply passive|eapply reserved_name];
    eauto using spells_grows, reserved_grows.
Qed.

Lemma holds_ansi_name fn name h d :
  holds (ansi_name fn name)
    (fun r h' => grows h h' /\
       match r with
       | None => name = None \/ exists w, name = Some w /\ In (Ev (ToAnsi w) None) h'
       | Some n => spells fn name n h'
       end) h d.
Proof.
  unfold ansi_name, spells. destruct name as [w|]; [|apply holds_ret; split; [apply grows_refl|by left]].
  destruct fn; [by apply holds_ret; split; [apply grows_refl|]|..];
    (apply holds_call; [done|]; intros [n|] _; split; [apply grows_step| |apply grows_step|];
     [exists w; split; [done|by left]|right; exists w; split; [done|by left]]).
Qed.
End May.

(** ** The detours *)

Section Detour.
Context (fn : lookup_fn) (name : option (list Z)) (hints : option Hints).
Variable may_call : real_call -> list event -> Prop.
Variable Accepted : ClientMessage -> Prop.
Hypothesis may_ok : forall rc h, may_look_up fn name hints rc h -> may_call rc h.
Abbreviation enters := (enters may_call Accepted).

Lemma enters_direct h d :
  left_to_system fn name hints h ->
  enters (do_ (Lookup (real_lookup fn name hints))) (resolution fn name hints) h d.
Proof.
  intros Hl. apply enters_holds, holds_lookup; [by apply may_ok; left|]. intros r. left.
  eapply left_grows; [apply grows_step|done].
Qed.

Lemma enters_localhost hs ip ip6 (Q : Z * list AddressInfo -> list event -> CDummyDNS -> Prop) h d :
  (forall r h', grows h h' -> fst r <> 0 \/ (exists l, snd r = map (replaced ip ip6) l) -> Q r h' d) ->
  enters (r ← do_ (Lookup (real_lookup fn (Some localhost_name) hs));
          mret (fst r, if fst r =? 0 then map (replaced ip ip6) (snd r) else snd r)) Q h d.
Proof.
  intros HQ. apply enters_holds, holds_bind, holds_lookup; [apply may_ok; right; eauto|].
  intros r. apply holds_ret, HQ; [apply grows_step|]. cbn [fst snd].
  destruct (Z.eqb_spec (fst r) 0); [right; eauto|by left].
Qed.

Lemma enters_hacked nodename hs h d :
  later new_CDummyDNS d -> spells fn name nodename h ->
  enters (ip ← get_dummy_ip nodename; ip6 ← get_dummy_ipv6 nodename;
          r ← do_ (Lookup (real_lookup fn (Some localhost_name) hs));
          mret (fst r, if fst r =? 0 then map (replaced ip ip6) (snd r) else snd r)) (resolution fn name hints) h d.
Proof.
  intros H0 Hs. destruct (Nat.le_gt_cases (length nodename) 255) as [Hlen|Hlen].
  - apply enters_bind. eapply enters_mono; [by apply enters_get_dummy_ip|].
    intros ip h1 d1 L1 (G1 & n & Hn & ->).
    apply enters_bind. eapply enters_mono; [by eapply enters_get_dummy_ipv6; [eapply later_trans|]|].
    intros ip6 h2 d2 L2 (G2 & n6 & Hn6 & ->).
    apply enters_localhost. intros r h3 G3 [Hr|[l Hr]]; [by right; right; left|].
    right; right; right; right. exists nodename, n, n6, l.
    split_and!; [exact (spells_grows _ _ _ _ _ (grows_trans _ _ _ G1 (grows_trans _ _ _ G2 G3)) Hs)|exact Hr|exact (stands_later _ _ _ _ L2 Hn)|exact Hn6].
  - apply enters_bind, enters_holds. eapply holds_mono; [apply quiet_get_dummy_ip|]. intros ip h1 G1.
    apply enters_bind, enters_holds. eapply holds_mono; [apply quiet_get_dummy_ipv6|]. intros ip6 h2 G2.
    apply enters_localhost. intros r h3 G3 _. right; right; right; left. exists nodename.
    split; [|done]. exact (spells_grows _ _ _ _ _ (grows_trans _ _ _ G1 (grows_trans _ _ _ G2 G3)) Hs).
Qed.

Lemma enters_detour_lookup h d :
  later new_CDummyDNS d ->
  enters (detour_lookup psi pid protype0 local_name fn name hints) (resolution fn name hints) h d.
Proof.
  intros H0. unfold detour_lookup. apply enters_bind, enters_holds. eapply holds_mono; [apply holds_ansi_name|].
  intros ansi h1 [G1 H1]. destruct ansi as [nodename|].
  2: { apply enters_direct. destruct H1 as [->|(w & -> & Hw)]; [by apply no_name|by eapply too_long]. }
  apply enters_bind, enters_holds.
  eapply holds_mono with (P := fun b h' => grows h1 h' /\ (b = false -> left_to_system fn name hints h')).
  { apply holds_if; intros Hp.
    - apply holds_ret. split; [apply grows_refl|]. intros _. by apply passive.
    - eapply holds_mono; [apply holds_HackDNS|]. intros b h2 [G2 H2]. split; [done|]. intros Hb.
      eapply reserved_name; [by eapply spells_grows|auto]. }
  intros hack h2 [G2 H2]. destruct hack; cbn [negb]; [|by apply enters_direct, H2].
  assert (H1' : spells fn name nodename h2) by by eapply spells_grows.
  destruct (Decide _ _); [by apply enters_hacked..|].
  apply enters_ret. by right; left.
Qed.
End Detour.
End Safety.
