(* ===== verification/HookNames.v ===== *)
(** * A name an application resolves is the name the host is asked for

    The lookups (HookDns), the table of dummy addresses (DummyDns) and the
    connections (HookConnect) together. *)

From S2P Require Import Prelude Winsock SockAddr UdpPolicy UdpBlockLogLimiter ReceptionCentre PipeRecords PipeClient PipeCalls DummyDns HackedSockets.
From S2P Require Import HookSystem HookConnect HookRules HookConnectSafety HookDns.

(** ** Dummy addresses on the way to a request *)

(** The address is a dummy address of the node. *)
Definition dummy_of (n : INFO) (addr : _SockAddr) : Prop :=
  (sa_family addr = AF_INET /\ GetdwIP addr = dummyIP n) \/
  (sa_family addr = AF_INET6 /\ v6_bytes addr = dummyIPv6 n).

Lemma dummy_not_mapped name n d : stands_for name n d -> IN6_IS_ADDR_V4MAPPED (dummyIPv6 n) = false.
Proof. intros (more & h & r & _ & -> & _). done. Qed.

Lemma GetdwIP_dummy6 name n d addr :
  stands_for name n d -> sa_family addr = AF_INET6 -> v6_bytes addr = dummyIPv6 n -> GetdwIP addr = 0.
Proof.
  intros Hn Hf Hv. unfold GetdwIP, IsIPv4, IsIPv4Mapped, IsIPv6. rewrite Hf, Hv, (dummy_not_mapped name n d Hn). done.
Qed.

(** The name found for a dummy address. *)
Lemma dummy_name_stands name n d addr :
  stands_for name n d -> dummy_of n addr -> Z.of_nat (length (dns_ls d)) <= 65535 ->
  stricmp_eq name (dummy_name addr d) = true.
Proof.
  intros Hn Ha Hl. unfold dummy_name. destruct Ha as [[Hf Hip]|[Hf Hv]].
  - rewrite Hip, (proj1 (stands_dummy _ _ _ Hn)). by destruct (stands_ip Hn Hl) as (h & -> & ?).
  - rewrite (GetdwIP_dummy6 name n d) by done. change (IsDummyIP 0) with false. cbv iota.
    unfold GetAddr6, IsIPv6. rewrite Hf, Hv. change (AF_INET6 =? AF_INET6) with true. cbv iota.
    rewrite (proj1 (stands_dummy6 _ _ _ Hn)). cbn [andb mbind option_bind].
    by destruct (stands_ip6 Hn Hl) as (h & -> & ?).
Qed.

(** A dummy address is not the machine itself. *)
Lemma dummy_not_own name n d addr : stands_for name n d -> dummy_of n addr -> IsUdpAllowedLoopback addr = false.
Proof.
  intros Hn [[Hf Hip]|[Hf Hv]]; unfold IsUdpAllowedLoopback, IsIPv4, IsIPv6.
  - rewrite Hf, Hip, (proj1 (stands_dummy _ _ _ Hn)). cbn. by rewrite andb_false_r.
  - unfold GetAddr6, IsIPv6. rewrite Hf, Hv. change (AF_INET6 =? AF_INET6) with true. cbv iota.
    rewrite (proj1 (stands_dummy6 _ _ _ Hn)). cbn. by rewrite andb_false_r.
Qed.

Definition with_port (port : Z) (a : _SockAddr) : _SockAddr := mkSockAddr (sa_family a) port (sa_data a).

(** An entry of an answer that holds an Internet address. *)
Definition usable (ai : AddressInfo) : bool :=
  match ai_addr ai with
  | Some a =>
      (sa_family a =? ai_family ai) && (length (sa_data a) =? 24)%nat &&
      ((ai_family ai =? AF_INET) && (sizeof_SOCKADDR_IN <=? ai_addrlen ai)
       || (ai_family ai =? AF_INET6) && (sizeof_SOCKADDR_IN6 <=? ai_addrlen ai))
  | None => false
  end.

Lemma memcpy_front (l : bytes) n k : (n <= length l)%nat -> (n <= k)%nat ->
  take n (memcpy (replicate k 0) 0 l) = take n l.
Proof. intros H1 H2. unfold memcpy. simpl. by rewrite take_app_le by lia. Qed.

Lemma memcpy_all (l : bytes) n : length l = n -> memcpy (replicate n 0) 0 l = l.
Proof.
  intros <-. unfold memcpy. rewrite take_0. simpl. rewrite drop_ge by by rewrite length_replicate. by rewrite app_nil_r.
Qed.

Lemma normalize_v4 a len :
  sa_family a = AF_INET -> length (sa_data a) = 24%nat -> sizeof_SOCKADDR_IN <= len ->
  exists a1, NormalizeSocketAddress (Some a) len = Some a1 /\ sa_family a1 = AF_INET /\
    GetdwIP a1 = le_join (take 4 (sa_data a)).
Proof.
  intros Hf Hd Hl. unfold NormalizeSocketAddress. rewrite Hf. change (AF_INET =? AF_INET) with true.
  destruct (Z.leb_spec sizeof_SOCKADDR_IN len); [|lia]. cbn [andb]. unfold Set_. rewrite Hf.
  change (AF_INET =? AF_INET6) with false. cbv iota. eexists. split; [reflexivity|]. split; [done|].
  unfold GetdwIP, IsIPv4. cbn [sa_family as_in sin_addr v4_bytes sa_data].
  change (AF_INET =? AF_INET) with true. cbv iota. f_equal. unfold as_in, v4_bytes. cbn [sin_addr sa_data].
  rewrite memcpy_front; [|rewrite length_take, Hd; unfold sizeof_SOCKADDR_IN; lia|lia].
  by rewrite take_take.
Qed.

Lemma normalize_v6 a len :
  sa_family a = AF_INET6 -> length (sa_data a) = 24%nat -> sizeof_SOCKADDR_IN6 <= len ->
  IN6_IS_ADDR_V4MAPPED (v6_bytes a) = false ->
  exists a1, NormalizeSocketAddress (Some a) len = Some a1 /\ sa_family a1 = AF_INET6 /\ v6_bytes a1 = v6_bytes a.
Proof.
  intros Hf Hd Hl Hm. unfold NormalizeSocketAddress. rewrite Hf, Hm.
  change (AF_INET6 =? AF_INET) with false. change (AF_INET6 =? AF_INET6) with true.
  destruct (Z.ltb_spec len sizeof_SOCKADDR_IN6) as [|Hlt]; [lia|]. cbn [andb orb negb]. unfold Set_. rewrite Hf.
  change (AF_INET6 =? AF_INET) with false. change (AF_INET6 =? AF_INET6) with true. cbn [andb orb negb].
  destruct (Z.ltb_spec len sizeof_SOCKADDR_IN6); [lia|]. eexists. split; [reflexivity|]. split; [done|].
  unfold v6_bytes. cbn [sa_data]. do 2 f_equal.
  rewrite take_ge by (rewrite Hd; unfold sizeof_SOCKADDR_IN6; lia). by apply memcpy_all.
Qed.

(** What an entry that was replaced holds. *)
Lemma usable_replaced ip ip6 ai a :
  usable (replaced ip ip6 ai) = true -> ai_addr (replaced ip ip6 ai) = Some a ->
  0 <= ip < 4294967296 -> length ip6 = 16%nat ->
  length (sa_data a) = 24%nat /\
  ((sa_family a = AF_INET /\ sizeof_SOCKADDR_IN <= ai_addrlen (replaced ip ip6 ai) /\ le_join (take 4 (sa_data a)) = ip) \/
   (sa_family a = AF_INET6 /\ sizeof_SOCKADDR_IN6 <= ai_addrlen (replaced ip ip6 ai) /\ v6_bytes a = ip6)).
Proof.
  destruct ai as [fam [x|] len]; [|done]. unfold replaced. cbn [ai_addr ai_family ai_addrlen].
  destruct ((fam =? AF_INET6) && (sizeof_SOCKADDR_IN6 <=? len)) eqn:E6;
    [|destruct ((fam =? AF_INET) && (sizeof_SOCKADDR_IN <=? len)) eqn:E4];
    unfold usable; cbn [ai_addr ai_family ai_addrlen]; intros Hu [= <-] Hip H16; bool_hyps.
  - split; [done|]. right. split_and!; [cbn [sa_family set_in6] in *; congruence|lia|].
    unfold v6_bytes. cbn [sa_data set_in6] in *. rewrite !length_app, length_take, length_drop, H16 in *.
    rewrite drop_app_length' by (rewrite length_take; lia). by rewrite take_app_length' by done.
  - split; [done|]. left. split_and!; [cbn [sa_family set_in] in *; congruence|lia|].
    cbn [sa_data set_in]. rewrite take_app_length' by by rewrite length_le_split.
    by rewrite le_join_split, Z.mod_small.
  - by rewrite E6, E4 in *.
Qed.

(** The detour of a connection sees the dummy address. *)
Lemma normalize_dummy name n n6 d ai port a :
  stands_for name n d -> stands_for name n6 d -> usable (replaced (dummyIP n) (dummyIPv6 n6) ai) = true ->
  ai_addr (replaced (dummyIP n) (dummyIPv6 n6) ai) = Some a ->
  exists a1 n', stands_for name n' d /\ dummy_of n' a1 /\
    NormalizeSocketAddress (Some (with_port port a)) (ai_addrlen (replaced (dummyIP n) (dummyIPv6 n6) ai)) = Some a1.
Proof.
  intros Hn Hn6 Hu Ha. destruct (stands_dummy _ _ _ Hn) as [_ Hr]. destruct (stands_dummy6 _ _ _ Hn6) as [_ H16].
  destruct (usable_replaced _ _ _ _ Hu Ha Hr H16) as [Hd [(Hf & Hl & Hip)|(Hf & Hl & Hv)]].
  - destruct (normalize_v4 (with_port port a) _ Hf Hd Hl) as (a1 & E & Hf1 & Hi). exists a1, n.
    split_and!; [done| |done]. left. split; [done|]. by rewrite Hi.
  - destruct (normalize_v6 (with_port port a) _ Hf Hd Hl) as (a1 & E & Hf1 & Hv1).
    { change (v6_bytes (with_port port a)) with (v6_bytes a). rewrite Hv. by eapply dummy_not_mapped. }
    exists a1, n6. split_and!; [done| |done]. right. split; [done|]. by rewrite Hv1.
Qed.

(** ** A lookup and a connection to an entry of its answer *)

Section Names.
Context {inet : InetText}.
Variable psi : ProxySettingsInfo.
Context (pid createTime protype0 : Z) (local_name : bytes).

Definition resolve_and_connect (look_fn : lookup_fn) (name : option (list Z)) (hints : option Hints) (i : nat)
    (port : Z) (fn : connect_fn) (original : bool) (s : Z) : prog Z :=
  r ← detour_lookup psi pid protype0 local_name look_fn name hints;
  if negb (fst r =? 0) then mret SOCKET_ERROR
  else
    match snd r !! i with
    | Some ai =>
        match ai_addr ai with
        | Some a =>
            if usable ai
            then detour_connect psi pid createTime fn original s (Some (with_port port a)) (ai_addrlen ai)
            else mret SOCKET_ERROR
        | None => mret SOCKET_ERROR
        end
    | None => mret SOCKET_ERROR
    end.

(** The host accepted a request of the socket under the name, and the
    connection goes to the host. *)
Definition reaches_host (s : Z) (nodename : bytes) (h : list event) (to : option _SockAddr) : Prop :=
  exists m m' e info a len original,
    In (Ev (Rpc RequestPipe (RegisterCall m)) (Registered true m' e)) h /\
    In (Ev (Rpc RequestPipe (StartupCall false false)) (StartupIs (Some info))) h /\
    c_s (cm_client m) = s /\ stricmp_eq nodename (szDomainName (cm_client m)) = true /\
    MakeSocketAddress original (redirected_to (sType (cm_client m)) (cm_client m') (su_info info)) = Some (a, len) /\
    to = Some a.

(** A socket of a kind the settings leave alone. *)
Definition kind_not_hooked (s : Z) (h : list event) : Prop :=
  exists t, In (Ev (GetSockType s) (Some t)) h /\
    ((t <> SOCK_DGRAM /\ t <> SOCK_STREAM) \/ (t = SOCK_DGRAM /\ bHookUDP psi = false)
     \/ (t = SOCK_STREAM /\ bHookTCP psi = false)).

Definition may_reach (look_fn : lookup_fn) (name : option (list Z)) (hints : option Hints) (s : Z)
    (rc : real_call) (h : list event) : Prop :=
  may_look_up psi local_name look_fn name hints rc h \/
  exists fn to len, rc = real_connect fn s to len /\
    (left_to_system psi local_name look_fn name hints h \/
     exists nodename, spells look_fn name nodename h /\
       (nodename = [] \/ (255 < length nodename)%nat \/ kind_not_hooked s h \/
        (exists t, In (Saw t) h /\ 65535 < Z.of_nat (length (dns_ls (m_DummyDNS t)))) \/
        reaches_host s nodename h to)).

Lemma named_valid nodename domain :
  stricmp_eq nodename domain = true -> nodename <> [] -> IsDNValid domain = true.
Proof.
  unfold IsDNValid. destruct domain; [|done]. unfold stricmp_eq. rewrite bool_decide_eq_true. by destruct nodename.
Qed.

(** A connection to a dummy address carries the name. *)
Lemma dummy_connection look_fn name hints nodename n fn s port a len d a1 rc h :
  stands_for nodename n d -> dummy_of n a1 -> NormalizeSocketAddress (Some (with_port port a)) len = Some a1 ->
  spells look_fn name nodename h ->
  may_connect psi pid createTime fn s (Some (with_port port a)) len d rc h ->
  may_reach look_fn name hints s rc h.
Proof.
  intros Hn Ha En Hs (to & tolen & -> & Hm). rewrite En in Hm. right. exists fn, to, tolen. split; [done|].
  right. exists nodename. split; [done|].
  assert (Hq : forall m, request_for pid createTime s a1 d h m ->
    (exists t, In (Saw t) h /\ 65535 < Z.of_nat (length (dns_ls (m_DummyDNS t)))) \/
    stricmp_eq nodename (szDomainName (cm_client m)) = true).
  { intros m Hr. destruct (rf_name _ _ _ _ _ _ _ Hr) as (t & Ht & Hl & ->).
    destruct (Z.le_gt_cases (Z.of_nat (length (dns_ls (m_DummyDNS t)))) 65535) as [Hle|Hgt]; [right|left; by exists t].
    by eapply dummy_name_stands; [eapply stands_later|..]. }
  destruct Hm as (_ & _ & _ & [(_ & _ & He)|(to' & r & (m & m' & e & info & Hr & Hi & Hg & ->) & Hmk & ->)]).
  - destruct He as [t Ht Hk|Hown|m pi Hp Hr Hc].
    + right; right; left. by exists t.
    + by rewrite (dummy_not_own _ _ _ _ Hn Ha) in Hown.
    + destruct (Hq m Hr) as [Hbig|Hname]; [by right; right; right; left|].
      destruct (decide (nodename = [])) as [->|Hne]; [by left|]. exfalso.
      pose proof (named_valid _ _ Hname Hne) as Hv. unfold CanHackIt in Hc. rewrite Hv in Hc.
      by destruct (ShouldRedirect _ _ _).
  - destruct (Hq m Hr) as [Hbig|Hname]; [by right; right; right; left|]. do 4 right.
    exists m, m', e, info, r, tolen, (Some (with_port port a)). split_and!; try done. by eapply rf_socket.
Qed.

(** C16: A name the settings resolve at the proxy: however the host, the system and
    other threads act, the system is asked for it only where it is reserved, and
    a connection to an address of the answer goes to the host under that name
    or not at all. *)
Theorem names_reach_host (look_fn : lookup_fn) (name : option (list Z)) (hints : option Hints) (i : nat)
    (port : Z) (fn : connect_fn) (original : bool) (s : Z) (t : HookState) :
  later new_CDummyDNS (m_DummyDNS t) ->
  wp (interference (fun _ => True)) (call_ok (may_reach look_fn name hints s) (fun _ => True))
    (recorded (fun _ => True)) seen (resolve_and_connect look_fn name hints i port fn original s)
    (fun _ _ => True) (mkWorld t []).
Proof.
  intros H0.
  assert (He : enters (may_reach look_fn name hints s) (fun _ => True)
                 (resolve_and_connect look_fn name hints i port fn original s) (fun _ _ _ => True) [] (m_DummyDNS t)).
  { unfold resolve_and_connect. apply enters_bind.
    eapply enters_mono; [apply enters_detour_lookup; [by left|done]|].
    intros r h d _ Hr. destruct (Z.eqb_spec (fst r) 0) as [Hz|]; cbn [negb]; [|by apply enters_ret].
    destruct (snd r !! i) as [ai|] eqn:Ei; [|by apply enters_ret].
    destruct (ai_addr ai) as [a|] eqn:Ea; [|by apply enters_ret].
    destruct (usable ai) eqn:Eu; [|by apply enters_ret].
    apply enters_holds. eapply holds_weaken; [|apply holds_detour_connect].
    intros rc h' G Hm. destruct Hr as [Hl|[Hnil|[?|[(nodename & Hs & Hlen)|(nodename & n & n6 & l & Hs & Er & Hn & Hn6)]]]].
    - right. destruct Hm as (to & len & -> & _). exists fn, to, len. split; [done|]. left. by eapply left_grows.
    - by rewrite Hnil in Ei.
    - done.
    - right. destruct Hm as (to & len & -> & _). exists fn, to, len. split; [done|]. right.
      exists nodename. split; [by eapply spells_grows|auto].
    - rewrite Er, list_lookup_fmap in Ei. destruct (l !! i) as [ai0|]; [|done]. injection Ei as <-.
      destruct (normalize_dummy _ _ _ _ _ port _ Hn Hn6 Eu Ea) as (a1 & n' & Hn' & Ha1 & En).
      eapply dummy_connection; [done|done|done|by eapply spells_grows|done]. }
  eapply wp_prog_mono; [apply He; [done|apply later_refl|by apply Forall_true]|done].
Qed.
End Names.

(** A browser's lookup of example.org and its connection to the first entry. *)
Definition fresh_tables : HookState := mkHook new_CDummyDNS new_CHackedSocket new_limiter false.

Lemma names_reach_host_witness :
  let inet : InetText := fun _ => 0 in
  let psi := mkProxySettingsInfo true true PSI_DNSOPT_REMOTE true false false false false true false zero_address in
  later new_CDummyDNS (m_DummyDNS fresh_tables) /\
  wp (interference (fun _ => True)) (call_ok (may_reach psi [104] fn_getaddrinfo (Some a_name) None 5) (fun _ => True))
    (recorded (fun _ => True)) seen
    (resolve_and_connect psi 1 2 0 [104] fn_getaddrinfo (Some a_name) None 0 443 fn_connect true 5)
    (fun _ _ => True) (mkWorld fresh_tables []).
Proof.
  intros inet psi. split; [apply later_refl|].
  apply (names_reach_host psi 1 2 0 [104] fn_getaddrinfo (Some a_name) None 0 443 fn_connect true 5 fresh_tables).
  apply later_refl.
Defined.
