(* ===== verification/HookLock.v ===== *)
(** * One registration for each route, and what a broken pipe does (HookSend)

    Two other readings of the programs: with the lock of the request pipe in
    view, and in a process of a single thread. *)

From S2P Require Import Prelude Winsock SockAddr UdpPolicy UdpBlockLogLimiter ReceptionCentre PipeRecords PipeClient PipeCalls.
From S2P Require Import DummyDns HackedSockets HookSystem HookConnect HookSend.

(** ** The lock *)

(** Requests are only removed. *)
Definition fewer (t t' : HookState) : Prop :=
  forall m, In m (hk_ls (m_HackedSocket t')) -> In m (hk_ls (m_HackedSocket t)).

(** The ghost counts how often this thread holds the lock. *)
Definition lock_interference (w w1 : hook_world nat) : Prop :=
  ghost w1 = ghost w /\ (ghost w <> O -> fewer (tables w) (tables w1)).

Definition lock_answers (R : Type) (c : call R) (w : hook_world nat) (r : R) (w' : hook_world nat) : Prop :=
  tables w' = tables w /\
  match c with
  | LockPipe => ghost w' = S (ghost w)
  | UnlockPipe => ghost w' = pred (ghost w)
  | _ => ghost w' = ghost w
  end.

(** What this thread owes the others, requests enter the list under the lock
    only; and where it registers, the host has no route yet. *)
Definition lock_ok (once : bool) (R : Type) (c : call R) (w : hook_world nat) : Prop :=
  match c with
  | Table f => ghost w <> O \/ fewer (tables w) (snd (f (tables w)))
  | TableAt f => ghost w <> O \/ forall now, fewer (tables w) (snd (f now (tables w)))
  | UnlockPipe => ghost w <> O
  | Rpc RequestPipe (RegisterCall m) =>
      ghost w <> O /\ (once = true -> IsUDPReqHacked (cm_client m) (m_HackedSocket (tables w)) = None)
  | _ => True
  end.

Section Lock.
Context {inet : InetText}.
Variable psi : ProxySettingsInfo.
Context (pid createTime : Z) (once : bool).

Abbreviation wpl := (wp lock_interference (lock_ok once) lock_answers (fun _ g => g)).

(** With the lock held [n] times, from tables with [P]. *)
Definition runs {A} (p : prog A) (n : nat) (P : HookState -> Prop) (Q : A -> HookState -> Prop) : Prop :=
  forall w, ghost w = n -> P (tables w) -> wpl p (fun a w' => ghost w' = n /\ Q a (tables w')) w.

(** What the others leave alone. *)
Definition kept (P : HookState -> Prop) (n : nat) : Prop :=
  forall t t', P t -> (n <> O -> fewer t t') -> P t'.

Definition anything (t : HookState) : Prop := True.
Definition free_of (c : PRCClient) (t : HookState) : Prop := IsUDPReqHacked c (m_HackedSocket t) = None.

Lemma kept_anything n : kept anything n.
Proof. done. Qed.

Lemma free_of_fewer c t t' : free_of c t -> fewer t t' -> free_of c t'.
Proof.
  unfold free_of, IsUDPReqHacked, fewer. intros H Hf.
  destruct (find (routes c) (hk_ls (m_HackedSocket t'))) as [m|] eqn:E; [|done].
  apply find_some in E as [Hin Hr]. destruct (find (routes c) (hk_ls (m_HackedSocket t))) eqn:E'; [done|].
  pose proof (find_none _ _ E' m (Hf m Hin)). congruence.
Qed.

Lemma kept_free_of c n : n <> O -> kept (free_of c) n.
Proof. intros Hn t t' H Hf. eapply free_of_fewer; [done|auto]. Qed.

Lemma kept_S P n : kept P n -> kept P (S n).
Proof. intros H t t' Ht Hf. apply (H t); [done|]. intros _. by apply Hf. Qed.

Section Rules.
Context {A B : Type} (n : nat) (P : HookState -> Prop).

Lemma runs_ret (a : A) (Q : A -> HookState -> Prop) : (forall t, P t -> Q a t) -> runs (mret a) n P Q.
Proof. intros H w Hg Hp. split; auto. Qed.

Lemma runs_bind (p : prog A) (f : A -> prog B) (Q : A -> HookState -> Prop) (R : B -> HookState -> Prop) :
  runs p n P Q -> (forall a, runs (f a) n (Q a) R) -> runs (p ≫= f) n P R.
Proof.
  intros Hp Hf w Hg HP. apply wp_prog_bind. eapply wp_prog_mono; [by apply Hp|].
  intros a w' [Hg' Ha]. by apply Hf.
Qed.

Lemma runs_mono (p : prog A) (Q R : A -> HookState -> Prop) :
  runs p n P Q -> (forall a t, Q a t -> R a t) -> runs p n P R.
Proof. intros Hp H w Hg HP. eapply wp_prog_mono; [by apply Hp|]. intros a w' [? ?]. auto. Qed.

Lemma runs_call {R} (c : call R) :
  kept P n ->
  match c with
  | Table _ | TableAt _ | LockPipe | UnlockPipe | Rpc RequestPipe (RegisterCall _) => False
  | _ => True
  end -> runs (do_ c) n P (fun _ => P).
Proof.
  intros Hk Hc w Hg HP w1 [Hg1 Hf]. rewrite <- Hg in Hk.
  assert (HP1 : P (tables w1)) by (apply (Hk (tables w)); [done|exact Hf]).
  split; [by destruct c; try done; destruct p, rq|].
  intros r w2 Ho. destruct c; try done; destruct Ho as [Ht Hg2]; simpl; rewrite Hg2, Ht; (split; [congruence|done]).
Qed.

Lemma runs_table {R} (f : HookState -> R * HookState) (Q : R -> HookState -> Prop) :
  kept P n -> (n <> O \/ forall t, fewer t (snd (f t))) ->
  (forall t, P t -> Q (fst (f t)) (snd (f t))) -> runs (table f) n P Q.
Proof.
  intros Hk Hf HQ w Hg HP w1 [Hg1 Hw]. rewrite <- Hg in Hk, Hf.
  split; [simpl; rewrite Hg1; destruct Hf; auto|]. intros r w2 [-> ->]. split; [simpl; congruence|].
  apply HQ, (Hk (tables w)); auto.
Qed.

Lemma runs_table_at {R} (f : Z -> HookState -> R * HookState) :
  kept P n -> (forall now t, fewer t (snd (f now t)) /\ (P t -> P (snd (f now t)))) ->
  runs (do_ (TableAt f)) n P (fun _ => P).
Proof.
  intros Hk Hf w Hg HP w1 [Hg1 Hw]. rewrite <- Hg in Hk.
  split; [right; intros now; apply Hf|]. intros r w2 (now & _ & -> & ->). split; [simpl; congruence|].
  apply Hf, (Hk (tables w)); auto.
Qed.
End Rules.

Lemma runs_look {R} (f : HookState -> R) n P (Q : R -> HookState -> Prop) :
  kept P n -> (forall t, P t -> Q (f t) t) -> runs (look f) n P Q.
Proof. intros Hk HQ. apply runs_table; [done|right; by intros t m|done]. Qed.

Lemma runs_locked {A} (p : prog A) n P (Q : A -> HookState -> Prop) :
  kept P n -> (forall a, kept (Q a) (S n)) -> runs p (S n) P Q -> runs (locked p) n P Q.
Proof.
  intros Hk HQ Hp w Hg HP w1 [Hg1 Hf]. rewrite <- Hg in Hk. split; [done|].
  intros [] w2 [Ht2 Hg2]. simpl. apply wp_prog_bind.
  eapply wp_prog_mono; [apply Hp; [congruence|rewrite Ht2; by apply (Hk (tables w))]|].
  intros a w3 [Hg3 Ha] w4 [Hg4 Hf4]. split; [simpl; congruence|]. intros [] w5 [Ht5 Hg5].
  split; [rewrite Hg5, Hg4, Hg3; done|]. rewrite Ht5. apply (HQ a (tables w3)); [done|].
  intros _. apply Hf4. by rewrite Hg3.
Qed.

(** Programs that only look and call. *)
Definition steady {A} (p : prog A) : Prop := forall n P, kept P n ->
  (forall t t', P t -> hk_ls (m_HackedSocket t') = hk_ls (m_HackedSocket t) -> P t') -> runs p n P (fun _ => P).

Lemma steady_ret {A} (a : A) : steady (mret a).
Proof. intros n P _ _. by apply runs_ret. Qed.

Lemma steady_bind {A B} (p : prog A) (f : A -> prog B) : steady p -> (forall a, steady (f a)) -> steady (p ≫= f).
Proof. intros Hp Hf n P Hk Hs. eapply runs_bind; [by apply Hp|]. intros a. by apply Hf. Qed.

Lemma steady_call {R} (c : call R) :
  match c with
  | Table _ | TableAt _ | LockPipe | UnlockPipe | Rpc RequestPipe (RegisterCall _) => False
  | _ => True
  end -> steady (do_ c).
Proof. intros Hc n P Hk _. by apply runs_call. Qed.

Lemma steady_table {R} (f : HookState -> R * HookState) :
  (forall t, hk_ls (m_HackedSocket (snd (f t))) = hk_ls (m_HackedSocket t)) -> steady (table f).
Proof.
  intros Hf n P Hk Hs. apply runs_table; [done| |].
  - right. intros t m. by rewrite Hf.
  - intros t Ht. by eapply Hs.
Qed.

Lemma steady_if {A} (b : bool) (p q : prog A) : steady p -> steady q -> steady (if b then p else q).
Proof. by destruct b. Qed.

Lemma steady_locked {A} (p : prog A) : steady p -> steady (locked p).
Proof. intros Hp n P Hk Hs. apply runs_locked; [done|intros _; by apply kept_S|]. apply Hp; [by apply kept_S|done]. Qed.
End Lock.

Ltac steady :=
  repeat first
    [ apply steady_ret | apply steady_call; exact I
    | apply steady_table; intros ?; reflexivity
    | apply steady_locked | apply steady_if
    | apply steady_bind; [|intros ?]
    | assumption
    | match goal with |- steady _ (match ?x with _ => _ end) => destruct x end ].

Section Sends.
Context {inet : InetText}.
Variable psi : ProxySettingsInfo.
Context (pid createTime : Z).

Lemma steady_NotifyQuicUdp once : steady once (NotifyQuicUdp psi).
Proof. unfold NotifyQuicUdp, EnsureRequestPipe, look, change_. steady. Qed.

Lemma steady_send_endpoint once s family : steady once (send_endpoint s family).
Proof. unfold send_endpoint, GetSocketEndpoint. steady. Qed.

Lemma steady_generation once s ty :
  steady once (table (fun h => let '(g, k) := GetSocketGeneration s ty (m_HackedSocket h) in (g, set_m_HackedSocket k h))).
Proof. apply steady_table. intros t. unfold GetSocketGeneration. by destruct (find _ _). Qed.

Abbreviation runs := (runs true).
Abbreviation any_result := (fun _ => anything).

Lemma runs_keeps {A} (p : prog A) n : steady true p -> runs p n anything any_result.
Proof. intros Hp. by apply Hp. Qed.

Lemma runs_existing_route c otherwise n :
  runs otherwise n (fun t => n <> O -> free_of c t) any_result ->
  runs (existing_route psi c otherwise) n anything any_result.
Proof.
  intros Ho. unfold existing_route.
  eapply runs_bind with (Q := fun udp t => udp = None -> free_of c t).
  { apply runs_look; [done|]. by intros t _. }
  intros [udp|].
  - eapply runs_mono with (Q := any_result); [|done]. intros w Hg _. apply (runs_keeps _ n); [|done|done].
    apply steady_bind; [apply steady_NotifyQuicUdp|]. intros _. unfold look. steady.
  - intros w Hg H. apply Ho; [done|]. auto.
Qed.

(** The registration itself. *)
Lemma runs_register q v n :
  n <> O -> runs (do_ (Rpc RequestPipe (RegisterCall (set_reserved v q)))) n (free_of (cm_client q)) any_result.
Proof.
  intros Hn w Hg HP w1 [Hg1 Hf]. assert (free_of (cm_client q) (tables w1)).
  { eapply free_of_fewer; [done|]. apply Hf. congruence. }
  split; [split; [congruence|done]|]. intros r w2 [Ht Hg2]. split; [congruence|done].
Qed.

Lemma steady_refused once (e : Z) : steady once (if (e =? WSAEOPNOTSUPP) || (e =? WSAEHOSTUNREACH) then mret tt else Disconnect).
Proof. unfold Disconnect, change_. steady. Qed.

Lemma runs_change (f : HookState -> HookState) n : n <> O -> runs (change_ f) n anything any_result.
Proof. intros Hn. apply runs_table; [done|by left|done]. Qed.

Lemma runs_register_route q n : n <> O -> runs (register_route psi q) n (free_of (cm_client q)) any_result.
Proof.
  intros Hn. assert (Hk : kept (free_of (cm_client q)) n) by by apply kept_free_of.
  assert (Hs : forall t t', free_of (cm_client q) t -> hk_ls (m_HackedSocket t') = hk_ls (m_HackedSocket t) ->
                 free_of (cm_client q) t').
  { unfold free_of, IsUDPReqHacked. by intros t t' H ->. }
  unfold register_route.
  eapply runs_bind with (Q := fun _ => free_of (cm_client q)).
  { assert (He : steady true EnsureRequestPipe) by (unfold EnsureRequestPipe, look, change_; steady). by apply He. }
  intros connected. destruct (negb connected); [by apply runs_ret|].
  eapply runs_bind; [by apply runs_call|]. intros p.
  destruct p as [| | |[pi|]|]; try by apply runs_ret.
  destruct (negb _); [by apply runs_ret|].
  eapply runs_bind; [by apply runs_call|]. intros v.
  eapply runs_bind; [by apply runs_register|]. intros r.
  assert (Hfail : runs (e ← do_ GetError; (if (e =? WSAEOPNOTSUPP) || (e =? WSAEHOSTUNREACH) then mret tt else Disconnect);;
                        mret (HOOK_FAILED, dstAddr (cm_client q), MAX_IPV4_UDP_PAYLOAD)) n anything any_result).
  { apply runs_keeps. apply steady_bind; [by apply steady_call|]. intros e.
    apply steady_bind; [apply steady_refused|]. intros _. apply steady_ret. }
  destruct r as [[] m e| | | |]; try exact Hfail.
  eapply runs_bind; [by apply runs_change|]. intros u.
  eapply runs_bind; [by apply runs_change|]. intros u'. by apply runs_ret.
Qed.

Lemma runs_HackSendTo s addrname : runs (HackSendTo psi pid createTime s addrname) 0 anything any_result.
Proof.
  unfold HackSendTo. destruct (negb (bHookUDP psi)); [by apply runs_ret|].
  eapply runs_bind; [by apply runs_call|]. intros [t|]; [|by apply runs_ret].
  destruct (negb (t =? SOCK_DGRAM)); [by apply runs_ret|].
  eapply runs_bind with (Q := any_result); [by apply runs_look|]. intros [|]; [by apply runs_ret|].
  eapply runs_bind; [apply runs_keeps, steady_send_endpoint|]. intros [src|]; [|by apply runs_ret].
  eapply runs_bind; [by apply runs_call|]. intros tid.
  eapply runs_bind; [apply runs_keeps, steady_generation|]. intros gen.
  eapply runs_bind with (Q := any_result); [by apply runs_look|]. intros domain.
  apply runs_existing_route. intros w Hg HP. apply (runs_locked true _ 0 anything any_result); [done|done| |done|done].
  clear w Hg HP. apply runs_existing_route. intros w Hg HP. by apply runs_register_route; [|done|apply HP].
Qed.

(** C32: However threads interleave, a datagram is registered at the host only under
    the lock of the request pipe and only where its socket, source and
    destination have no route: of threads that send the first datagram at once,
    one registers and the others use its route.  In turn the others may rely on
    this thread to add routes under the lock only, and the lock is given back. *)
Theorem first_send_registers_once (s : Z) (addrname : _SockAddr) (t : HookState) :
  wp lock_interference (lock_ok true) lock_answers (fun _ g => g) (HackSendTo psi pid createTime s addrname)
    (fun _ w => ghost w = O) (mkWorld t O).
Proof. eapply wp_prog_mono; [by apply runs_HackSendTo|]. by intros r w [? _]. Qed.
End Sends.

(** ** A broken request pipe *)

(** A process of one thread whose request pipe is broken: no question to the
    host is answered on it. *)
Definition broken_answers (R : Type) (c : call R) (w : hook_world unit) (r : R) (w' : hook_world unit) : Prop :=
  tables w' = tables w /\
  match c in call R0 return R0 -> Prop with
  | Rpc RequestPipe (ProxyInfoCall _) => fun r => r = ProxyIs None
  | Rpc RequestPipe (StartupCall _ _) => fun r => r = StartupIs None
  | GetSockType _ => fun r => r = Some SOCK_DGRAM
  | _ => fun _ => True
  end r.

Abbreviation wp_alone := (wp (fun w w1 : hook_world unit => w1 = w) (fun _ _ _ => True) broken_answers (fun _ g => g)).

Section Broken.
Context {inet : InetText}.
Variable psi : ProxySettingsInfo.
Context (pid createTime : Z).

Lemma alone_call {R} (c : call R) (Q : R -> hook_world unit -> Prop) w :
  match c with Table _ | TableAt _ => False | _ => True end ->
  (forall r w', broken_answers R c w r w' -> Q r w') -> wp_alone (do_ c) Q w.
Proof. intros Hc H w1 ->. split; [done|]. intros r w2 Ho. apply H. by destruct c. Qed.

Lemma alone_bind {A B} (p : prog A) (f : A -> prog B) P Q w :
  wp_alone p P w -> (forall a w', P a w' -> wp_alone (f a) Q w') -> wp_alone (p ≫= f) Q w.
Proof. intros Hp Hf. apply wp_prog_bind. eapply wp_prog_mono; [exact Hp|exact Hf]. Qed.

(** The state of the pipe and the requests. *)
Definition stuck (t : HookState) : Prop := m_ConnState t = true /\ hk_ls (m_HackedSocket t) = [].

Lemma alone_call_stuck {R} (c : call R) w :
  match c with Table _ | TableAt _ => False | _ => True end -> stuck (tables w) ->
  wp_alone (do_ c) (fun _ w' => stuck (tables w')) w.
Proof. intros Hc Hs. apply alone_call; [done|]. intros r w' [-> _]. done. Qed.

Lemma alone_table_stuck {R} (f : HookState -> R * HookState) w :
  stuck (tables w) -> (forall t, stuck t -> stuck (snd (f t))) -> wp_alone (table f) (fun _ w' => stuck (tables w')) w.
Proof. intros Hs Hf w1 ->. split; [done|]. intros r w2 [-> ->]. by apply Hf. Qed.

Lemma alone_send_endpoint s family w :
  stuck (tables w) -> wp_alone (send_endpoint s family) (fun _ w' => stuck (tables w')) w.
Proof.
  intros Hs. assert (He : forall w0, stuck (tables w0) ->
    wp_alone (GetSocketEndpoint s family) (fun _ w' => stuck (tables w')) w0).
  { intros w0 H0. eapply alone_bind; [by apply alone_call_stuck|]. done. }
  unfold send_endpoint. eapply alone_bind; [by apply He|]. intros [a|] w1 H1; [done|].
  eapply alone_bind; [by apply alone_call_stuck|]. intros e w2 H2. destruct (negb _); [done|].
  eapply alone_bind; [by apply alone_call_stuck|]. intros b w3 H3. destruct (negb _); [done|]. by apply He.
Qed.

Lemma alone_no_route c otherwise Q w :
  stuck (tables w) -> wp_alone otherwise Q w -> wp_alone (existing_route psi c otherwise) Q w.
Proof.
  intros [Hc Hl] Ho. unfold existing_route. apply wp_prog_bind. intros w1 ->. split; [done|].
  intros r w2 [-> ->]. unfold IsUDPReqHacked. cbn [fst snd]. rewrite Hl. by destruct w.
Qed.

Lemma alone_connected Q w :
  stuck (tables w) -> (forall w', stuck (tables w') -> Q true w') -> wp_alone EnsureRequestPipe Q w.
Proof.
  intros Hs HQ. unfold EnsureRequestPipe. apply wp_prog_bind. intros w1 ->. split; [done|].
  intros r w2 [-> ->]. cbn [fst snd]. destruct Hs as [Hc Hl]. rewrite Hc. apply HQ. by destruct w.
Qed.

Definition fails_with_pipe (connected : bool) (d : HookDecision) (w : hook_world unit) : Prop :=
  d = HOOK_FAILED /\ m_ConnState (tables w) = connected.

(** A datagram to a new destination fails and the broken pipe is kept, so that
    every later one fails as well, until a connection attempt drops it: that one
    asks for the listener first and disconnects when it is not answered. *)
Theorem broken_pipe_is_kept (s : Z) (addrname : _SockAddr) (q : ClientMessage) (t : HookState) :
  m_ConnState t = true -> hk_ls (m_HackedSocket t) = [] -> bHookUDP psi = true ->
  wp_alone (HackSendTo psi pid createTime s addrname)
    (fun r => fails_with_pipe true (fst (fst r))) (mkWorld t tt) /\
  wp_alone (register_connection psi q)
    (fun r => fails_with_pipe false (fst r)) (mkWorld t tt).
Proof.
  intros Hc Hl Hu. assert (Hs : stuck t) by done. split.
  - unfold HackSendTo. rewrite Hu. cbn [negb]. eapply alone_bind; [by apply alone_call|].
    intros ty w1 [E1 ->]. cbv beta. change (negb (SOCK_DGRAM =? SOCK_DGRAM)) with false. cbv iota.
    assert (H1 : stuck (tables w1)) by by rewrite E1. clear E1.
    apply wp_prog_bind. intros w2 ->. split; [done|]. intros b w3 [-> ->]. cbn [fst snd].
    replace (IsUDPRouteAddress s addrname (m_HackedSocket (tables w1))) with false
      by (unfold IsUDPRouteAddress; rewrite (proj2 H1); by destruct (_ && _)).
    eapply alone_bind; [by apply alone_send_endpoint|]. intros [src|] w2 H2; [|by split; [|apply H2]].
    eapply alone_bind; [by apply alone_call_stuck|]. intros tid w3 H3.
    eapply alone_bind; [apply alone_table_stuck; [done|]|].
    { intros tb Hb. unfold GetSocketGeneration. by destruct (find _ _). }
    intros gen w4 H4. eapply alone_bind; [by apply alone_table_stuck|]. intros domain w5 H5.
    apply alone_no_route; [done|]. apply wp_prog_bind, alone_call; [done|]. intros u w6 [E6 _].
    assert (H6 : stuck (tables w6)) by by rewrite E6. apply wp_prog_bind, alone_no_route; [done|].
    unfold register_route. apply wp_prog_bind, alone_connected; [done|]. intros w7 H7. cbn [negb].
    apply wp_prog_bind, alone_call; [done|]. intros p w8 [E8 ->].
    apply wp_prog_bind, alone_call; [done|]. intros u' w9 [E9 _]. split; [done|].
    rewrite E9, E8. apply H7.
  - unfold register_connection. apply wp_prog_bind, alone_call; [done|]. intros u w1 [E1 _].
    assert (H1 : stuck (tables w1)) by by rewrite E1.
    apply wp_prog_bind, wp_prog_bind, alone_connected; [done|]. intros w2 H2. cbn [negb].
    apply wp_prog_bind, alone_call; [done|]. intros info w3 [E3 ->].
    apply wp_prog_bind. unfold Disconnect. apply wp_prog_bind, alone_call; [done|]. intros u' w4 [E4 _].
    intros w5 ->. split; [done|]. intros [] w6 [_ ->].
    apply wp_prog_bind, alone_call; [done|]. intros u'' w7 [E7 _]. split; [done|]. by rewrite E7.
Qed.
End Broken.

Lemma broken_pipe_is_kept_witness :
  let inet : InetText := fun _ => 0 in
  let psi := mkProxySettingsInfo true true 0 true false false false false false true zero_address in
  let t := mkHook new_CDummyDNS new_CHackedSocket new_limiter true in
  let q := request_of 5 SOCK_STREAM 1 2 1 zero_address zero_address [] 7 in
  wp_alone (HackSendTo psi 1 2 5 zero_address)
    (fun r => fails_with_pipe true (fst (fst r))) (mkWorld t tt) /\
  wp_alone (register_connection psi q)
    (fun r => fails_with_pipe false (fst r)) (mkWorld t tt).
Proof. intros inet psi t q. by apply (broken_pipe_is_kept psi 1 2 5 zero_address q t). Defined.
