(* ===== verification/SecureLayer.v ===== *)
(** * The secure transport layer (AsyncSecureSocketLayer.cpp)

    A layer of a socket that carries the stream through a TLS session: records
    from below are fed to the session and the plaintext it yields is buffered
    for the layer above; plaintext from above is written to the session and the
    records it yields are sent below.  The session is the module
    ProxyLaneSecureTransport64.dll, an interface here ([Transport]).

    The state holds the object, the part of its base class it uses, what the
    socket and the loader will answer, and a trace.  A call of a function of the
    module without a session is the event [SNull]; a loop that outlives its fuel
    is [SFault]. *)

From S2P Require Import Prelude Winsock Effects ProxyLayer.

Definition PLST_OK : Z := 0.
Definition PLST_EOF : Z := 1.
Definition PLST_WOULD_BLOCK : Z := -2.
Definition TLS_CHUNK : Z := 16 * 1024.
Definition PLAINTEXT_LOW_WATER : Z := 256 * 1024.
Definition PLAINTEXT_HIGH_WATER : Z := 512 * 1024.
Definition MAX_BUFFERED_DATA : Z := 1024 * 1024.
Definition ERROR_NOT_SUPPORTED : Z := 50.
Definition ERROR_PROC_NOT_FOUND : Z := 127.
Definition ERROR_DLL_INIT_FAILED : Z := 1114.
Definition sends : Z := 1.
Definition both : Z := 2.

(** The functions of the module, with their result codes; counts are the
    lengths of what they return. *)
Class Transport (session : Type) := {
  session_create : bytes -> bytes -> option session;
  session_is_ready : session -> Z;
  session_feed_tls : session -> bytes -> (Z * Z) * session;       (* code, bytes consumed *)
  session_drain_tls : session -> Z -> (Z * bytes) * session;
  session_write_plain : session -> bytes -> (Z * Z) * session;    (* code, bytes taken *)
  session_read_plain : session -> Z -> (Z * bytes) * session;
  session_close_notify : session -> Z * session;
  session_export_key : session -> Z * bytes;
  udp_encrypt : bytes -> bytes -> Z -> Z * bytes;
  udp_decrypt : bytes -> bytes -> Z -> Z * bytes
}.

(** What [LoadTransport] meets on its way to a session. *)
Inductive load_answer := NoPath | NoLibrary (error : Z) | WrongAbi | Loads.

Inductive tls_event :=
  | SSent (data : bytes)                               (* taken by the socket *)
  | SDrained (data : bytes)                            (* records out of the session *)
  | SPlain (data : bytes)                              (* plaintext out of the session *)
  | SReceived (data : bytes)                           (* plaintext given to the layer above *)
  | STrigger (lEvent nErrorCode : Z) (bPassThrough : bool)
  | SShutDown (how : Z)                                (* of the socket *)
  | SNotify                                            (* close_notify *)
  | SClose
  | SNull | SFault.

Section Secure.
Context {session : Type} {transport : Transport session}.
Variable optional_modules : bool.                      (* ProxySupportsOptionalModules *)

Record tls_layer := mkTls {
  m_hTransport : bool;   (* the module is loaded *)
  m_session : option session;
  m_psk : bytes;
  m_serverName : bytes;
  m_pendingTls : bytes;
  m_pendingTlsOffset : nat;
  m_plaintext : bytes;
  m_plaintextOffset : nat;
  m_udpKey : bytes;
  m_bUdpKeyReady : bool;
  m_bHandshakeStarted : bool;
  m_bHandshakeReady : bool;
  m_bConnectNotified : bool;
  m_bPeerReadClosed : bool;
  m_bPeerEofDelivered : bool;
  m_bReceivePaused : bool;
  m_pendingShutdown : Z;
  m_transportLoadError : Z;
  s_state : LayerState;   (* m_nLayerState *)
  s_critical : Z;   (* m_nCriticalError *)
  s_valid : bool;   (* the socket's handle is valid *)
  s_rx : list rx_event;   (* what recv will return *)
  s_tx : list tx_event;   (* what send will take *)
  s_load : load_answer;   (* what loading will return *)
  s_lasterr : Z;   (* WSAGetLastError *)
  s_trace : list tls_event   (* what happened, the oldest first *)
}.

Definition set_m_hTransport (v : bool) (w : tls_layer) : tls_layer :=
  mkTls v (m_session w) (m_psk w) (m_serverName w) (m_pendingTls w) (m_pendingTlsOffset w)
    (m_plaintext w) (m_plaintextOffset w) (m_udpKey w) (m_bUdpKeyReady w) (m_bHandshakeStarted
    w) (m_bHandshakeReady w) (m_bConnectNotified w) (m_bPeerReadClosed w) (m_bPeerEofDelivered
    w) (m_bReceivePaused w) (m_pendingShutdown w) (m_transportLoadError w) (s_state w)
    (s_critical w) (s_valid w) (s_rx w) (s_tx w) (s_load w) (s_lasterr w) (s_trace w).
Definition set_m_session (v : option session) (w : tls_layer) : tls_layer :=
  mkTls (m_hTransport w) v (m_psk w) (m_serverName w) (m_pendingTls w) (m_pendingTlsOffset w)
    (m_plaintext w) (m_plaintextOffset w) (m_udpKey w) (m_bUdpKeyReady w) (m_bHandshakeStarted
    w) (m_bHandshakeReady w) (m_bConnectNotified w) (m_bPeerReadClosed w) (m_bPeerEofDelivered
    w) (m_bReceivePaused w) (m_pendingShutdown w) (m_transportLoadError w) (s_state w)
    (s_critical w) (s_valid w) (s_rx w) (s_tx w) (s_load w) (s_lasterr w) (s_trace w).
Definition set_m_psk (v : bytes) (w : tls_layer) : tls_layer :=
  mkTls (m_hTransport w) (m_session w) v (m_serverName w) (m_pendingTls w) (m_pendingTlsOffset
    w) (m_plaintext w) (m_plaintextOffset w) (m_udpKey w) (m_bUdpKeyReady w)
    (m_bHandshakeStarted w) (m_bHandshakeReady w) (m_bConnectNotified w) (m_bPeerReadClosed w)
    (m_bPeerEofDelivered w) (m_bReceivePaused w) (m_pendingShutdown w) (m_transportLoadError w)
    (s_state w) (s_critical w) (s_valid w) (s_rx w) (s_tx w) (s_load w) (s_lasterr w) (s_trace
    w).
Definition set_m_serverName (v : bytes) (w : tls_layer) : tls_layer :=
  mkTls (m_hTransport w) (m_session w) (m_psk w) v (m_pendingTls w) (m_pendingTlsOffset w)
    (m_plaintext w) (m_plaintextOffset w) (m_udpKey w) (m_bUdpKeyReady w) (m_bHandshakeStarted
    w) (m_bHandshakeReady w) (m_bConnectNotified w) (m_bPeerReadClosed w) (m_bPeerEofDelivered
    w) (m_bReceivePaused w) (m_pendingShutdown w) (m_transportLoadError w) (s_state w)
    (s_critical w) (s_valid w) (s_rx w) (s_tx w) (s_load w) (s_lasterr w) (s_trace w).
Definition set_m_pendingTls (v : bytes) (w : tls_layer) : tls_layer :=
  mkTls (m_hTransport w) (m_session w) (m_psk w) (m_serverName w) v (m_pendingTlsOffset w)
    (m_plaintext w) (m_plaintextOffset w) (m_udpKey w) (m_bUdpKeyReady w) (m_bHandshakeStarted
    w) (m_bHandshakeReady w) (m_bConnectNotified w) (m_bPeerReadClosed w) (m_bPeerEofDelivered
    w) (m_bReceivePaused w) (m_pendingShutdown w) (m_transportLoadError w) (s_state w)
    (s_critical w) (s_valid w) (s_rx w) (s_tx w) (s_load w) (s_lasterr w) (s_trace w).
Definition set_m_pendingTlsOffset (v : nat) (w : tls_layer) : tls_layer :=
  mkTls (m_hTransport w) (m_session w) (m_psk w) (m_serverName w) (m_pendingTls w) v
    (m_plaintext w) (m_plaintextOffset w) (m_udpKey w) (m_bUdpKeyReady w) (m_bHandshakeStarted
    w) (m_bHandshakeReady w) (m_bConnectNotified w) (m_bPeerReadClosed w) (m_bPeerEofDelivered
    w) (m_bReceivePaused w) (m_pendingShutdown w) (m_transportLoadError w) (s_state w)
    (s_critical w) (s_valid w) (s_rx w) (s_tx w) (s_load w) (s_lasterr w) (s_trace w).
Definition set_m_plaintext (v : bytes) (w : tls_layer) : tls_layer :=
  mkTls (m_hTransport w) (m_session w) (m_psk w) (m_serverName w) (m_pendingTls w)
    (m_pendingTlsOffset w) v (m_plaintextOffset w) (m_udpKey w) (m_bUdpKeyReady w)
    (m_bHandshakeStarted w) (m_bHandshakeReady w) (m_bConnectNotified w) (m_bPeerReadClosed w)
    (m_bPeerEofDelivered w) (m_bReceivePaused w) (m_pendingShutdown w) (m_transportLoadError w)
    (s_state w) (s_critical w) (s_valid w) (s_rx w) (s_tx w) (s_load w) (s_lasterr w) (s_trace
    w).
Definition set_m_plaintextOffset (v : nat) (w : tls_layer) : tls_layer :=
  mkTls (m_hTransport w) (m_session w) (m_psk w) (m_serverName w) (m_pendingTls w)
    (m_pendingTlsOffset w) (m_plaintext w) v (m_udpKey w) (m_bUdpKeyReady w)
    (m_bHandshakeStarted w) (m_bHandshakeReady w) (m_bConnectNotified w) (m_bPeerReadClosed w)
    (m_bPeerEofDelivered w) (m_bReceivePaused w) (m_pendingShutdown w) (m_transportLoadError w)
    (s_state w) (s_critical w) (s_valid w) (s_rx w) (s_tx w) (s_load w) (s_lasterr w) (s_trace
    w).
Definition set_m_udpKey (v : bytes) (w : tls_layer) : tls_layer :=
  mkTls (m_hTransport w) (m_session w) (m_psk w) (m_serverName w) (m_pendingTls w)
    (m_pendingTlsOffset w) (m_plaintext w) (m_plaintextOffset w) v (m_bUdpKeyReady w)
    (m_bHandshakeStarted w) (m_bHandshakeReady w) (m_bConnectNotified w) (m_bPeerReadClosed w)
    (m_bPeerEofDelivered w) (m_bReceivePaused w) (m_pendingShutdown w) (m_transportLoadError w)
    (s_state w) (s_critical w) (s_valid w) (s_rx w) (s_tx w) (s_load w) (s_lasterr w) (s_trace
    w).
Definition set_m_bUdpKeyReady (v : bool) (w : tls_layer) : tls_layer :=
  mkTls (m_hTransport w) (m_session w) (m_psk w) (m_serverName w) (m_pendingTls w)
    (m_pendingTlsOffset w) (m_plaintext w) (m_plaintextOffset w) (m_udpKey w) v
    (m_bHandshakeStarted w) (m_bHandshakeReady w) (m_bConnectNotified w) (m_bPeerReadClosed w)
    (m_bPeerEofDelivered w) (m_bReceivePaused w) (m_pendingShutdown w) (m_transportLoadError w)
    (s_state w) (s_critical w) (s_valid w) (s_rx w) (s_tx w) (s_load w) (s_lasterr w) (s_trace
    w).
Definition set_m_bHandshakeStarted (v : bool) (w : tls_layer) : tls_layer :=
  mkTls (m_hTransport w) (m_session w) (m_psk w) (m_serverName w) (m_pendingTls w)
    (m_pendingTlsOffset w) (m_plaintext w) (m_plaintextOffset w) (m_udpKey w) (m_bUdpKeyReady w)
    v (m_bHandshakeReady w) (m_bConnectNotified w) (m_bPeerReadClosed w) (m_bPeerEofDelivered w)
    (m_bReceivePaused w) (m_pendingShutdown w) (m_transportLoadError w) (s_state w) (s_critical
    w) (s_valid w) (s_rx w) (s_tx w) (s_load w) (s_lasterr w) (s_trace w).
Definition set_m_bHandshakeReady (v : bool) (w : tls_layer) : tls_layer :=
  mkTls (m_hTransport w) (m_session w) (m_psk w) (m_serverName w) (m_pendingTls w)
    (m_pendingTlsOffset w) (m_plaintext w) (m_plaintextOffset w) (m_udpKey w) (m_bUdpKeyReady w)
    (m_bHandshakeStarted w) v (m_bConnectNotified w) (m_bPeerReadClosed w) (m_bPeerEofDelivered
    w) (m_bReceivePaused w) (m_pendingShutdown w) (m_transportLoadError w) (s_state w)
    (s_critical w) (s_valid w) (s_rx w) (s_tx w) (s_load w) (s_lasterr w) (s_trace w).
Definition set_m_bConnectNotified (v : bool) (w : tls_layer) : tls_layer :=
  mkTls (m_hTransport w) (m_session w) (m_psk w) (m_serverName w) (m_pendingTls w)
    (m_pendingTlsOffset w) (m_plaintext w) (m_plaintextOffset w) (m_udpKey w) (m_bUdpKeyReady w)
    (m_bHandshakeStarted w) (m_bHandshakeReady w) v (m_bPeerReadClosed w) (m_bPeerEofDelivered
    w) (m_bReceivePaused w) (m_pendingShutdown w) (m_transportLoadError w) (s_state w)
    (s_critical w) (s_valid w) (s_rx w) (s_tx w) (s_load w) (s_lasterr w) (s_trace w).
Definition set_m_bPeerReadClosed (v : bool) (w : tls_layer) : tls_layer :=
  mkTls (m_hTransport w) (m_session w) (m_psk w) (m_serverName w) (m_pendingTls w)
    (m_pendingTlsOffset w) (m_plaintext w) (m_plaintextOffset w) (m_udpKey w) (m_bUdpKeyReady w)
    (m_bHandshakeStarted w) (m_bHandshakeReady w) (m_bConnectNotified w) v (m_bPeerEofDelivered
    w) (m_bReceivePaused w) (m_pendingShutdown w) (m_transportLoadError w) (s_state w)
    (s_critical w) (s_valid w) (s_rx w) (s_tx w) (s_load w) (s_lasterr w) (s_trace w).
Definition set_m_bPeerEofDelivered (v : bool) (w : tls_layer) : tls_layer :=
  mkTls (m_hTransport w) (m_session w) (m_psk w) (m_serverName w) (m_pendingTls w)
    (m_pendingTlsOffset w) (m_plaintext w) (m_plaintextOffset w) (m_udpKey w) (m_bUdpKeyReady w)
    (m_bHandshakeStarted w) (m_bHandshakeReady w) (m_bConnectNotified w) (m_bPeerReadClosed w) v
    (m_bReceivePaused w) (m_pendingShutdown w) (m_transportLoadError w) (s_state w) (s_critical
    w) (s_valid w) (s_rx w) (s_tx w) (s_load w) (s_lasterr w) (s_trace w).
Definition set_m_bReceivePaused (v : bool) (w : tls_layer) : tls_layer :=
  mkTls (m_hTransport w) (m_session w) (m_psk w) (m_serverName w) (m_pendingTls w)
    (m_pendingTlsOffset w) (m_plaintext w) (m_plaintextOffset w) (m_udpKey w) (m_bUdpKeyReady w)
    (m_bHandshakeStarted w) (m_bHandshakeReady w) (m_bConnectNotified w) (m_bPeerReadClosed w)
    (m_bPeerEofDelivered w) v (m_pendingShutdown w) (m_transportLoadError w) (s_state w)
    (s_critical w) (s_valid w) (s_rx w) (s_tx w) (s_load w) (s_lasterr w) (s_trace w).
Definition set_m_pendingShutdown (v : Z) (w : tls_layer) : tls_layer :=
  mkTls (m_hTransport w) (m_session w) (m_psk w) (m_serverName w) (m_pendingTls w)
    (m_pendingTlsOffset w) (m_plaintext w) (m_plaintextOffset w) (m_udpKey w) (m_bUdpKeyReady w)
    (m_bHandshakeStarted w) (m_bHandshakeReady w) (m_bConnectNotified w) (m_bPeerReadClosed w)
    (m_bPeerEofDelivered w) (m_bReceivePaused w) v (m_transportLoadError w) (s_state w)
    (s_critical w) (s_valid w) (s_rx w) (s_tx w) (s_load w) (s_lasterr w) (s_trace w).
Definition set_m_transportLoadError (v : Z) (w : tls_layer) : tls_layer :=
  mkTls (m_hTransport w) (m_session w) (m_psk w) (m_serverName w) (m_pendingTls w)
    (m_pendingTlsOffset w) (m_plaintext w) (m_plaintextOffset w) (m_udpKey w) (m_bUdpKeyReady w)
    (m_bHandshakeStarted w) (m_bHandshakeReady w) (m_bConnectNotified w) (m_bPeerReadClosed w)
    (m_bPeerEofDelivered w) (m_bReceivePaused w) (m_pendingShutdown w) v (s_state w) (s_critical
    w) (s_valid w) (s_rx w) (s_tx w) (s_load w) (s_lasterr w) (s_trace w).
Definition set_s_state (v : LayerState) (w : tls_layer) : tls_layer :=
  mkTls (m_hTransport w) (m_session w) (m_psk w) (m_serverName w) (m_pendingTls w)
    (m_pendingTlsOffset w) (m_plaintext w) (m_plaintextOffset w) (m_udpKey w) (m_bUdpKeyReady w)
    (m_bHandshakeStarted w) (m_bHandshakeReady w) (m_bConnectNotified w) (m_bPeerReadClosed w)
    (m_bPeerEofDelivered w) (m_bReceivePaused w) (m_pendingShutdown w) (m_transportLoadError w)
    v (s_critical w) (s_valid w) (s_rx w) (s_tx w) (s_load w) (s_lasterr w) (s_trace w).
Definition set_s_critical (v : Z) (w : tls_layer) : tls_layer :=
  mkTls (m_hTransport w) (m_session w) (m_psk w) (m_serverName w) (m_pendingTls w)
    (m_pendingTlsOffset w) (m_plaintext w) (m_plaintextOffset w) (m_udpKey w) (m_bUdpKeyReady w)
    (m_bHandshakeStarted w) (m_bHandshakeReady w) (m_bConnectNotified w) (m_bPeerReadClosed w)
    (m_bPeerEofDelivered w) (m_bReceivePaused w) (m_pendingShutdown w) (m_transportLoadError w)
    (s_state w) v (s_valid w) (s_rx w) (s_tx w) (s_load w) (s_lasterr w) (s_trace w).
Definition set_s_valid (v : bool) (w : tls_layer) : tls_layer :=
  mkTls (m_hTransport w) (m_session w) (m_psk w) (m_serverName w) (m_pendingTls w)
    (m_pendingTlsOffset w) (m_plaintext w) (m_plaintextOffset w) (m_udpKey w) (m_bUdpKeyReady w)
    (m_bHandshakeStarted w) (m_bHandshakeReady w) (m_bConnectNotified w) (m_bPeerReadClosed w)
    (m_bPeerEofDelivered w) (m_bReceivePaused w) (m_pendingShutdown w) (m_transportLoadError w)
    (s_state w) (s_critical w) v (s_rx w) (s_tx w) (s_load w) (s_lasterr w) (s_trace w).
Definition set_s_rx (v : list rx_event) (w : tls_layer) : tls_layer :=
  mkTls (m_hTransport w) (m_session w) (m_psk w) (m_serverName w) (m_pendingTls w)
    (m_pendingTlsOffset w) (m_plaintext w) (m_plaintextOffset w) (m_udpKey w) (m_bUdpKeyReady w)
    (m_bHandshakeStarted w) (m_bHandshakeReady w) (m_bConnectNotified w) (m_bPeerReadClosed w)
    (m_bPeerEofDelivered w) (m_bReceivePaused w) (m_pendingShutdown w) (m_transportLoadError w)
    (s_state w) (s_critical w) (s_valid w) v (s_tx w) (s_load w) (s_lasterr w) (s_trace w).
Definition set_s_tx (v : list tx_event) (w : tls_layer) : tls_layer :=
  mkTls (m_hTransport w) (m_session w) (m_psk w) (m_serverName w) (m_pendingTls w)
    (m_pendingTlsOffset w) (m_plaintext w) (m_plaintextOffset w) (m_udpKey w) (m_bUdpKeyReady w)
    (m_bHandshakeStarted w) (m_bHandshakeReady w) (m_bConnectNotified w) (m_bPeerReadClosed w)
    (m_bPeerEofDelivered w) (m_bReceivePaused w) (m_pendingShutdown w) (m_transportLoadError w)
    (s_state w) (s_critical w) (s_valid w) (s_rx w) v (s_load w) (s_lasterr w) (s_trace w).
Definition set_s_load (v : load_answer) (w : tls_layer) : tls_layer :=
  mkTls (m_hTransport w) (m_session w) (m_psk w) (m_serverName w) (m_pendingTls w)
    (m_pendingTlsOffset w) (m_plaintext w) (m_plaintextOffset w) (m_udpKey w) (m_bUdpKeyReady w)
    (m_bHandshakeStarted w) (m_bHandshakeReady w) (m_bConnectNotified w) (m_bPeerReadClosed w)
    (m_bPeerEofDelivered w) (m_bReceivePaused w) (m_pendingShutdown w) (m_transportLoadError w)
    (s_state w) (s_critical w) (s_valid w) (s_rx w) (s_tx w) v (s_lasterr w) (s_trace w).
Definition set_s_lasterr (v : Z) (w : tls_layer) : tls_layer :=
  mkTls (m_hTransport w) (m_session w) (m_psk w) (m_serverName w) (m_pendingTls w)
    (m_pendingTlsOffset w) (m_plaintext w) (m_plaintextOffset w) (m_udpKey w) (m_bUdpKeyReady w)
    (m_bHandshakeStarted w) (m_bHandshakeReady w) (m_bConnectNotified w) (m_bPeerReadClosed w)
    (m_bPeerEofDelivered w) (m_bReceivePaused w) (m_pendingShutdown w) (m_transportLoadError w)
    (s_state w) (s_critical w) (s_valid w) (s_rx w) (s_tx w) (s_load w) v (s_trace w).
Definition set_s_trace (v : list tls_event) (w : tls_layer) : tls_layer :=
  mkTls (m_hTransport w) (m_session w) (m_psk w) (m_serverName w) (m_pendingTls w)
    (m_pendingTlsOffset w) (m_plaintext w) (m_plaintextOffset w) (m_udpKey w) (m_bUdpKeyReady w)
    (m_bHandshakeStarted w) (m_bHandshakeReady w) (m_bConnectNotified w) (m_bPeerReadClosed w)
    (m_bPeerEofDelivered w) (m_bReceivePaused w) (m_pendingShutdown w) (m_transportLoadError w)
    (s_state w) (s_critical w) (s_valid w) (s_rx w) (s_tx w) (s_load w) (s_lasterr w) v.

Definition MT := M tls_layer.
Definition trace (e : tls_event) : MT unit := modify (fun w => set_s_trace (s_trace w ++ [e]) w).
Definition set_error (e : Z) : MT unit := modify (set_s_lasterr e).
Definition last_error : MT Z := gets s_lasterr.

(** ** The base class: the socket below and the events above *)

Definition layer_error (w : tls_layer) : option Z :=
  if negb (s_critical w =? 0) then Some (s_critical w)
  else match s_state w with
       | notsock => Some WSAENOTSOCK
       | unconnected | connecting | listening => Some WSAENOTCONN
       | _ => None
       end.

(** recv on the socket. *)
Definition raw_recv (nBufLen : Z) : MT (Z * bytes) := fun w =>
  match s_rx w with
  | [] => ((SOCKET_ERROR, []), set_s_lasterr WSAEWOULDBLOCK w)
  | RxBlock :: r => ((SOCKET_ERROR, []), set_s_lasterr WSAEWOULDBLOCK (set_s_rx r w))
  | RxError e :: r => ((SOCKET_ERROR, []), set_s_lasterr e (set_s_rx r w))
  | RxEof :: _ => ((0, []), w)
  | RxData b :: r =>
      let n := Z.to_nat nBufLen in
      ((Z.of_nat (length (take n b)), take n b),
       set_s_rx (match drop n b with [] => r | rest => RxData rest :: r end) w)
  end.

Definition raw_send (lpBuf : bytes) : MT Z := fun w =>
  match s_tx w with
  | [] => (SOCKET_ERROR, set_s_lasterr WSAEWOULDBLOCK w)
  | TxBlock :: r => (SOCKET_ERROR, set_s_lasterr WSAEWOULDBLOCK (set_s_tx r w))
  | TxError e :: r => (SOCKET_ERROR, set_s_lasterr e (set_s_tx r w))
  | TxAccept k :: r =>
      let data := take (Z.to_nat k) lpBuf in
      (Z.of_nat (length data), set_s_trace (s_trace w ++ [SSent data]) (set_s_tx r w))
  end.

Definition TlsReceiveNext (nBufLen : Z) : MT (Z * bytes) :=
  e ← gets layer_error;
  match e with
  | Some e => set_error e;; mret (SOCKET_ERROR, [])
  | None => raw_recv nBufLen
  end.

Definition TlsSendNext (lpBuf : bytes) : MT Z :=
  e ← gets layer_error;
  match e with
  | Some e => set_error e;; mret SOCKET_ERROR
  | None => raw_send lpBuf
  end.

(** shutdown of the socket: its result 0 is taken for FALSE. *)
Definition TlsShutDownNext (nHow : Z) : MT bool :=
  e ← gets layer_error;
  match e with
  | Some e => set_error e;; mret false
  | None => trace (SShutDown nHow);; mret false
  end.

Definition TlsTriggerEvent (lEvent nErrorCode : Z) (bPassThrough : bool) : MT bool :=
  valid ← gets s_valid;
  if negb valid then mret false
  else
    (if negb (Z.land lEvent FD_CONNECT =? 0) then
       when (negb (nErrorCode =? 0)) (modify (set_s_state aborted);; modify (set_s_critical nErrorCode))
     else if negb (Z.land lEvent FD_CLOSE =? 0) && (nErrorCode =? 0) then modify (set_s_state closed)
     else when (negb (Z.land lEvent FD_CLOSE =? 0) && negb (nErrorCode =? 0))
            (modify (set_s_state aborted);; modify (set_s_critical nErrorCode)));;
    trace (STrigger lEvent nErrorCode bPassThrough);;
    mret true.

(** ** The session *)

(** A call of the module; [None] without a session. *)
Definition with_session {A} (f : session -> A * session) : MT (option A) := fun w =>
  match m_session w with
  | Some s => let '(a, s') := f s in (Some a, set_m_session (Some s') w)
  | None => (None, set_s_trace (s_trace w ++ [SNull]) w)
  end.

Definition Configure (psk serverName : bytes) : MT bool :=
  if negb optional_modules then set_error WSAEOPNOTSUPP;; mret false
  else if bool_decide (psk = []) then set_error WSAEINVAL;; mret false
  else
    modify (set_m_psk psk);;
    modify (set_m_serverName (if bool_decide (serverName = []) then ascii_bytes "localhost" else serverName));;
    mret true.

Definition LoadTransport : MT bool :=
  if negb optional_modules then modify (set_m_transportLoadError ERROR_NOT_SUPPORTED);; mret false
  else
    loaded ← gets m_hTransport;
    if loaded : bool then mret true
    else
      modify (set_m_transportLoadError 0);;
      a ← gets s_load;
      match a with
      | NoPath => mret false
      | NoLibrary e => modify (set_m_transportLoadError e);; mret false
      | WrongAbi => modify (set_m_transportLoadError ERROR_PROC_NOT_FOUND);; mret false
      | Loads =>
          psk ← gets m_psk; name ← gets m_serverName;
          match session_create psk name with
          | None =>
              modify (set_m_session None);;
              modify (set_m_transportLoadError ERROR_DLL_INIT_FAILED);; mret false
          | Some s => modify (set_m_session (Some s));; modify (set_m_hTransport true);; mret true
          end
      end.

(** ** Buffers *)

Definition HasPendingTls (w : tls_layer) : bool := (m_pendingTlsOffset w <? length (m_pendingTls w))%nat.

(** The records not sent yet. *)
Definition unsent (w : tls_layer) : bytes := drop (m_pendingTlsOffset w) (m_pendingTls w).

(** The plaintext not given away yet. *)
Definition buffered (w : tls_layer) : bytes := drop (m_plaintextOffset w) (m_plaintext w).

Definition BufferedPlaintext (w : tls_layer) : Z :=
  if (m_plaintextOffset w <? length (m_plaintext w))%nat
  then Z.of_nat (length (m_plaintext w) - m_plaintextOffset w) else 0.

Definition HasPendingRead (w : tls_layer) : bool :=
  negb (BufferedPlaintext w =? 0) || (m_bPeerReadClosed w && negb (m_bPeerEofDelivered w)).

(** *** [FlushTls] *)

(** The inner loop; [None] when everything is sent. *)
Fixpoint send_records (fuel : nat) : MT (option bool) :=
  more ← gets HasPendingTls;
  if negb more then mret None
  else
    match fuel with
    | O => trace SFault;; mret (Some false)
    | S fuel =>
        data ← gets unsent;
        sent ← TlsSendNext data;
        if sent =? SOCKET_ERROR then
          e ← last_error; mret (Some (e =? WSAEWOULDBLOCK))
        else if sent <=? 0 then set_error WSAECONNRESET;; mret (Some false)
        else
          modify (fun w => set_m_pendingTlsOffset (m_pendingTlsOffset w + Z.to_nat sent) w);;
          send_records fuel
    end.

Fixpoint flush (fuel : nat) : MT bool :=
  s ← gets m_session;
  match s with
  | None => mret true
  | Some _ =>
      match fuel with
      | O => trace SFault;; mret false
      | S fuel =>
          data ← gets unsent;
          r ← send_records (length data);
          match r with
          | Some b => mret b
          | None =>
              modify (fun w => set_m_pendingTls [] (set_m_pendingTlsOffset 0 w));;
              d ← with_session (fun s => session_drain_tls s TLS_CHUNK);
              match d with
              | Some (code, chunk) =>
                  if negb (code =? PLST_OK) then set_error WSAECONNABORTED;; mret false
                  else
                    trace (SDrained chunk);;
                    if bool_decide (chunk = []) then mret true
                    else modify (set_m_pendingTls chunk);; flush fuel
              | None => mret false
              end
          end
      end
  end.

(** Every turn but the first and the last has sent something. *)
Definition FlushTls : MT bool := n ← gets (fun w => length (s_tx w)); flush (n + 2).

(** *** [DrainPlaintext] *)

Fixpoint drain (fuel : nat) : MT bool :=
  n ← gets BufferedPlaintext;
  if MAX_BUFFERED_DATA <=? n then set_error WSAENOBUFS;; mret false
  else
    match fuel with
    | O => trace SFault;; mret false
    | S fuel =>
        r ← with_session (fun s => session_read_plain s (Z.min TLS_CHUNK (MAX_BUFFERED_DATA - n)));
        match r with
        | Some (code, chunk) =>
            if code =? PLST_EOF then modify (set_m_bPeerReadClosed true);; mret true
            else if code =? PLST_WOULD_BLOCK then
              when (PLAINTEXT_HIGH_WATER <=? n) (modify (set_m_bReceivePaused true));; mret true
            else if negb (code =? PLST_OK) then set_error WSAECONNABORTED;; mret false
            else
              trace (SPlain chunk);;
              if bool_decide (chunk = []) then mret true
              else modify (fun w => set_m_plaintext (m_plaintext w ++ chunk) w);; drain fuel
        | None => mret false
        end
    end.

(** Every turn but the last adds to a buffer that is bounded. *)
Definition drain_fuel : nat := Z.to_nat (MAX_BUFFERED_DATA + 1).

Definition DrainPlaintext : MT bool :=
  modify (fun w => set_m_plaintext (buffered w) (set_m_plaintextOffset 0 w));;
  drain drain_fuel.

(** *** [FinishHandshake], [ResumeTlsReceive] *)

Definition FinishHandshake : MT bool :=
  done ← gets m_bHandshakeReady;
  if done : bool then mret true
  else
    ready ← with_session (fun s => (session_is_ready s, s));
    match ready with
    | None => mret false
    | Some ready =>
        if ready <? 0 then set_error WSAECONNABORTED;; mret false
        else if ready =? 0 then mret true
        else
          modify (set_m_bHandshakeReady true);;
          k ← with_session (fun s => (session_export_key s, s));
          (match k with
           | Some (code, key) =>
               when (code =? PLST_OK) (modify (set_m_udpKey key);; modify (set_m_bUdpKeyReady true))
           | None => mret tt
           end);;
          notified ← gets m_bConnectNotified;
          when (negb notified) (modify (set_m_bConnectNotified true);; TlsTriggerEvent FD_CONNECT 0 true;; mret tt);;
          mret true
    end.

Definition ResumeTlsReceive : MT unit :=
  w ← gets (fun w => w);
  if negb (m_bReceivePaused w) || negb (bool_decide (is_Some (m_session w))) || m_bPeerReadClosed w
     || (PLAINTEXT_LOW_WATER <? BufferedPlaintext w)
  then mret tt
  else
    modify (set_m_bReceivePaused false);;
    posted ← TlsTriggerEvent FD_READ 0 false;
    when (negb posted) (modify (set_m_bReceivePaused true)).

(** *** [PumpTls] *)

Definition settle : MT bool :=
  a ← DrainPlaintext;
  if negb a then mret false
  else b ← FlushTls; if negb b then mret false else FinishHandshake.

(** One chunk into the session, [after] each part it takes. *)
Fixpoint feed (after : MT bool) (fuel : nat) (chunk : bytes) : MT bool :=
  match chunk with
  | [] => mret true
  | _ =>
      match fuel with
      | O => trace SFault;; mret false
      | S fuel =>
          r ← with_session (fun s => session_feed_tls s chunk);
          match r with
          | Some (code, consumed) =>
              if negb (code =? PLST_OK) || (consumed =? 0) then set_error WSAECONNABORTED;; mret false
              else
                b ← after;
                if negb b then mret false else feed after fuel (drop (Z.to_nat consumed) chunk)
          | None => mret false
          end
      end
  end.

Fixpoint pump_loop (fuel : nat) : MT bool :=
  match fuel with
  | O => trace SFault;; mret false
  | S fuel =>
      r ← TlsReceiveNext TLS_CHUNK;
      let '(received, chunk) := r in
      if received =? SOCKET_ERROR then e ← last_error; mret (e =? WSAEWOULDBLOCK)
      else if received =? 0 then set_error WSAECONNRESET;; mret false
      else
        ok ← feed settle (length chunk) chunk;
        if negb ok then mret false
        else
          paused ← gets m_bReceivePaused;
          if paused : bool then mret true else pump_loop fuel
  end.

(** What recv has still to answer bounds the turns. *)
Fixpoint rx_left (r : list rx_event) : nat :=
  match r with
  | [] => 1
  | RxData b :: r => length b + 1 + rx_left r
  | _ :: r => 1 + rx_left r
  end.

Definition PumpTls : MT bool :=
  ok ← settle;
  if negb ok then mret false
  else
    paused ← gets m_bReceivePaused;
    if paused : bool then mret true
    else n ← gets (fun w => rx_left (s_rx w)); pump_loop n.

Definition StartHandshake : MT bool :=
  started ← gets m_bHandshakeStarted;
  if started : bool then mret true
  else
    loaded ← LoadTransport;
    if negb loaded then mret false
    else modify (set_m_bHandshakeStarted true);; FlushTls.

(** ** Events *)

Definition TlsReportFailure : MT unit :=
  e ← last_error;
  let e := if e =? 0 then WSAECONNABORTED else e in
  set_error e;;
  wasConnected ← gets m_bConnectNotified;
  (if negb wasConnected then
     loaderr ← gets m_transportLoadError;
     TlsTriggerEvent FD_CONNECT
       (if negb (loaderr =? 0) then PROXYLANE_SECURE_LOAD_FAILED else PROXYLANE_SECURE_HANDSHAKE_FAILED) true
   else TlsTriggerEvent FD_CLOSE WSAECONNABORTED true);;
  mret tt.

Definition TlsOnConnect (nErrorCode : Z) : MT unit :=
  if negb (nErrorCode =? 0) then TlsTriggerEvent FD_CONNECT nErrorCode true;; mret tt
  else
    a ← StartHandshake;
    b ← (if a : bool then FinishHandshake else mret false);
    when (negb b) TlsReportFailure.

Definition TlsOnReceive (nErrorCode : Z) : MT unit :=
  ok ← (if negb (nErrorCode =? 0) then mret false else PumpTls);
  if negb ok then
    when (negb (nErrorCode =? 0)) (set_error nErrorCode);;
    TlsReportFailure
  else
    w ← gets (fun w => w);
    when (m_bHandshakeReady w && HasPendingRead w) (TlsTriggerEvent FD_READ 0 true;; mret tt).

Definition TlsOnSend (nErrorCode : Z) : MT unit :=
  ok ← (if negb (nErrorCode =? 0) then mret false
        else a ← FlushTls; if negb a then mret false else FinishHandshake);
  if negb ok then
    when (negb (nErrorCode =? 0)) (set_error nErrorCode);;
    TlsReportFailure
  else
    w ← gets (fun w => w);
    when ((0 <=? m_pendingShutdown w) && negb (HasPendingTls w))
      (modify (set_m_pendingShutdown (-1));; TlsShutDownNext (m_pendingShutdown w);; mret tt);;
    notified ← gets m_bConnectNotified;
    when notified (TlsTriggerEvent FD_WRITE 0 true;; mret tt).

(** The rest of the socket's stream after FD_CLOSE. *)
Fixpoint close_drain (fuel : nat) : MT bool :=
  match fuel with
  | O => trace SFault;; mret false
  | S fuel =>
      r ← raw_recv TLS_CHUNK;
      let '(received, chunk) := r in
      if received <=? 0 then mret true
      else
        ok ← feed DrainPlaintext (length chunk) chunk;
        if negb ok then mret false else close_drain fuel
  end.

Definition TlsOnClose (nErrorCode : Z) : MT unit :=
  s ← gets m_session;
  drainSucceeded ←
    (if (nErrorCode =? 0) && bool_decide (is_Some s) then
       n ← gets (fun w => rx_left (s_rx w));
       a ← close_drain n;
       b ← (if a : bool then DrainPlaintext else mret false);
       modify (set_m_bPeerReadClosed true);;
       mret b
     else mret true);
  if negb drainSucceeded then TlsReportFailure
  else
    w ← gets (fun w => w);
    (if (nErrorCode =? 0) && m_bHandshakeReady w && HasPendingRead w then TlsTriggerEvent FD_READ 0 true
     else if negb (nErrorCode =? 0) then TlsTriggerEvent FD_CLOSE nErrorCode true
     else if negb (m_bHandshakeReady w) then TlsTriggerEvent FD_CLOSE 0 true
     else mret true);;
    mret tt.

(** [CAsyncSocketExLayer::CallEvent] on this layer. *)
Definition TlsCallEvent (nEvent nErrorCode : Z) : MT unit :=
  crit ← gets s_critical;
  if negb (crit =? 0) then mret tt
  else
    modify (set_s_critical nErrorCode);;
    st ← gets s_state;
    let bad := negb (nErrorCode =? 0) in
    if (nEvent =? FD_READ) || (nEvent =? FD_FORCEREAD) then
      when (bool_decide (st = connected))
        (when bad (modify (set_s_state aborted));; TlsOnReceive nErrorCode)
    else if nEvent =? FD_WRITE then
      when (bool_decide (st = connected))
        (when bad (modify (set_s_state aborted));; TlsOnSend nErrorCode)
    else if nEvent =? FD_CONNECT then
      when (bool_decide (st = connecting))
        (modify (set_s_state (if bad then aborted else connected));; TlsOnConnect nErrorCode)
    else if nEvent =? FD_CLOSE then
      when (bool_decide (st = connected))
        (modify (set_s_state (if bad then aborted else closed));; TlsOnClose nErrorCode)
    else mret tt.

(** ** Calls from above *)

(** [Send] of a buffer that is there. *)
Definition TlsSend (lpBuf : bytes) : MT Z :=
  w ← gets (fun w => w);
  if negb (m_bHandshakeReady w) || negb (bool_decide (is_Some (m_session w)))
  then set_error WSAEWOULDBLOCK;; mret SOCKET_ERROR
  else
    r ← with_session (fun s => session_write_plain s lpBuf);
    match r with
    | None => mret SOCKET_ERROR
    | Some (code, written) =>
        if code =? PLST_WOULD_BLOCK then set_error WSAEWOULDBLOCK;; mret SOCKET_ERROR
        else
          ok ← (if negb (code =? PLST_OK) then mret false else FlushTls);
          if negb ok then set_error WSAECONNABORTED;; mret SOCKET_ERROR else mret written
    end.

Definition TlsReceive (nBufLen : Z) : MT (Z * bytes) :=
  if nBufLen <? 0 then set_error WSAEFAULT;; mret (SOCKET_ERROR, [])
  else
    w ← gets (fun w => w);
    if negb (m_bHandshakeReady w) then set_error WSAEWOULDBLOCK;; mret (SOCKET_ERROR, [])
    else if (length (m_plaintext w) <=? m_plaintextOffset w)%nat then
      if m_bPeerReadClosed w then modify (set_m_bPeerEofDelivered true);; mret (0, [])
      else set_error WSAEWOULDBLOCK;; mret (SOCKET_ERROR, [])
    else
      let data := take (Z.to_nat nBufLen) (buffered w) in
      trace (SReceived data);;
      modify (fun w => set_m_plaintextOffset (m_plaintextOffset w + length data) w);;
      w ← gets (fun w => w);
      (if (m_plaintextOffset w =? length (m_plaintext w))%nat then
         modify (fun w => set_m_plaintext [] (set_m_plaintextOffset 0 w));;
         when (m_bPeerReadClosed w && negb (m_bPeerEofDelivered w)) (TlsTriggerEvent FD_READ 0 true;; mret tt)
       else TlsTriggerEvent FD_READ 0 true;; mret tt);;
      ResumeTlsReceive;;
      mret (Z.of_nat (length data), data).

Definition TlsShutDown (nHow : Z) : MT bool :=
  s ← gets m_session;
  if ((nHow =? sends) || (nHow =? both)) && bool_decide (is_Some s) then
    r ← with_session session_close_notify;
    ok ← match r with
         | Some code => if negb (code =? PLST_OK) then mret false else trace SNotify;; FlushTls
         | None => mret false
         end;
    if negb ok then mret false
    else
      more ← gets HasPendingTls;
      if more : bool then modify (set_m_pendingShutdown nHow);; mret true
      else TlsShutDownNext nHow
  else TlsShutDownNext nHow.

Definition HasUdpKey (w : tls_layer) : bool := m_bUdpKeyReady w.

(** The result and the output. *)
Definition EncryptUdp (plain : bytes) (outputCapacity : Z) (w : tls_layer) : Z * bytes :=
  if negb (m_bUdpKeyReady w) then (SOCKET_ERROR, [])
  else let '(code, out) := udp_encrypt (m_udpKey w) plain outputCapacity in
       (if code =? PLST_OK then 0 else SOCKET_ERROR, out).

Definition DecryptUdp (packet : bytes) (outputCapacity : Z) (w : tls_layer) : Z * bytes :=
  if negb (m_bUdpKeyReady w) then (SOCKET_ERROR, [])
  else let '(code, out) := udp_decrypt (m_udpKey w) packet outputCapacity in
       (if code =? PLST_OK then 0 else SOCKET_ERROR, out).

Definition ResetTransport : MT unit :=
  modify (fun w =>
    mkTls false None [] [] [] 0 [] 0 (replicate 32 0) false false false false false false false (-1)
      (m_transportLoadError w) (s_state w) (s_critical w) (s_valid w) (s_rx w) (s_tx w) (s_load w)
      (s_lasterr w) (s_trace w)).

Definition TlsClose : MT unit :=
  ResetTransport;; modify (set_s_state notsock);; trace SClose.

End Secure.
