(* ===== verification/SecureLayerSafety.v ===== *)
(** * The secure layer keeps the stream and its own pointers in order

    Whatever the session, the socket, the loader and the layers answer. *)

From S2P Require Import Prelude Winsock Effects ProxyLayer SecureLayer.

(** What the module promises: counts are within what it was given, a session
    that has plaintext is ready, and one that is ready stays so. *)
Class TransportLaws {session : Type} (transport : Transport session) := {
  feed_consumed : forall s data,
    fst (fst (session_feed_tls s data)) = PLST_OK ->
    0 <= snd (fst (session_feed_tls s data)) <= Z.of_nat (length data);
  read_fits : forall s cap, Z.of_nat (length (snd (fst (session_read_plain s cap)))) <= Z.max 0 cap;
  read_ready : forall s cap, snd (fst (session_read_plain s cap)) <> [] ->
    0 < session_is_ready (snd (session_read_plain s cap));
  read_stays : forall s cap, 0 < session_is_ready s -> 0 < session_is_ready (snd (session_read_plain s cap));
  drain_stays : forall s cap, 0 < session_is_ready s -> 0 < session_is_ready (snd (session_drain_tls s cap));
  feed_stays : forall s data, 0 < session_is_ready s -> 0 < session_is_ready (snd (session_feed_tls s data));
  write_stays : forall s data, 0 < session_is_ready s -> 0 < session_is_ready (snd (session_write_plain s data));
  notify_stays : forall s, 0 < session_is_ready s -> 0 < session_is_ready (snd (session_close_notify s))
}.

(** ** What the trace says *)

Definition sent_of (t : list tls_event) : bytes :=
  flat_map (fun e => match e with SSent d => d | _ => [] end) t.
Definition drained_of (t : list tls_event) : bytes :=
  flat_map (fun e => match e with SDrained d => d | _ => [] end) t.
Definition plain_of (t : list tls_event) : bytes :=
  flat_map (fun e => match e with SPlain d => d | _ => [] end) t.
Definition received_of (t : list tls_event) : bytes :=
  flat_map (fun e => match e with SReceived d => d | _ => [] end) t.

Definition sane_event (e : tls_event) : bool := match e with SNull | SFault => false | _ => true end.
Definition sane (t : list tls_event) : bool := forallb sane_event t.

(** The layer above was told to read since it last did. *)
Definition told_step (b : bool) (e : tls_event) : bool :=
  match e with
  | STrigger l err p => ((l =? FD_READ) && (err =? 0) && p) || b
  | SReceived _ => false
  | _ => b
  end.
Definition told_to_read (t : list tls_event) : bool := fold_left told_step t false.

#[global] Arguments told_to_read : simpl never.
#[global] Arguments sane : simpl never.
#[global] Arguments sent_of : simpl never.
#[global] Arguments drained_of : simpl never.
#[global] Arguments plain_of : simpl never.
#[global] Arguments received_of : simpl never.

Lemma sane_snoc t e : sane (t ++ [e]) = sane t && sane_event e.
Proof. unfold sane. rewrite forallb_app. simpl. by rewrite andb_true_r. Qed.

Lemma told_snoc t e : told_to_read (t ++ [e]) = told_step (told_to_read t) e.
Proof. unfold told_to_read. by rewrite fold_left_app. Qed.

Lemma sent_snoc t e : sent_of (t ++ [e]) = sent_of t ++ match e with SSent d => d | _ => [] end.
Proof. unfold sent_of. rewrite flat_map_app. simpl. by rewrite app_nil_r. Qed.
Lemma drained_snoc t e : drained_of (t ++ [e]) = drained_of t ++ match e with SDrained d => d | _ => [] end.
Proof. unfold drained_of. rewrite flat_map_app. simpl. by rewrite app_nil_r. Qed.
Lemma plain_snoc t e : plain_of (t ++ [e]) = plain_of t ++ match e with SPlain d => d | _ => [] end.
Proof. unfold plain_of. rewrite flat_map_app. simpl. by rewrite app_nil_r. Qed.
Lemma received_snoc t e : received_of (t ++ [e]) = received_of t ++ match e with SReceived d => d | _ => [] end.
Proof. unfold received_of. rewrite flat_map_app. simpl. by rewrite app_nil_r. Qed.

Lemma tls_chunk_val : TLS_CHUNK = 16384. Proof. reflexivity. Qed.
Lemma low_water_val : PLAINTEXT_LOW_WATER = 262144. Proof. reflexivity. Qed.
Lemma high_water_val : PLAINTEXT_HIGH_WATER = 524288. Proof. reflexivity. Qed.
Lemma max_buffered_val : MAX_BUFFERED_DATA = 1048576. Proof. reflexivity. Qed.
Ltac sizes := rewrite ?tls_chunk_val, ?low_water_val, ?high_water_val, ?max_buffered_val in *.

Section Safety.
Context {session : Type} {transport : Transport session} {laws : TransportLaws transport}.
Variable optional_modules : bool.
Abbreviation layer := (@tls_layer session).

(** What holds between any two steps. *)
Record core (w : layer) : Prop := {
  c_valid : s_valid w = true;
  c_sane : sane (s_trace w) = true;
  c_tls : (m_pendingTlsOffset w <= length (m_pendingTls w))%nat;
  c_plain : (m_plaintextOffset w <= length (m_plaintext w))%nat;
  c_sent : sent_of (s_trace w) ++ unsent w = drained_of (s_trace w);
  c_received : received_of (s_trace w) ++ buffered w = plain_of (s_trace w);
  c_bound : Z.of_nat (length (buffered w)) <= MAX_BUFFERED_DATA;
  c_flags : m_bHandshakeReady w = true \/ m_bHandshakeStarted w = true -> m_hTransport w = true;
  c_loaded : m_hTransport w = true -> is_Some (m_session w);
  c_unloaded : m_hTransport w = false -> m_session w = None /\ buffered w = [];
  (* plaintext comes from a ready session, and a paused one has much of it *)
  c_ready : m_bHandshakeReady w = false -> buffered w <> [] ->
    exists s, m_session w = Some s /\ 0 < session_is_ready s;
  c_paused : m_bReceivePaused w = true -> m_bPeerReadClosed w = false ->
    PLAINTEXT_LOW_WATER < Z.of_nat (length (buffered w))
}.

(** Buffered plaintext has been announced to the layer above. *)
Definition announced (w : layer) : Prop :=
  s_critical w = 0 -> buffered w <> [] -> m_bHandshakeReady w = true /\ told_to_read (s_trace w) = true.

(** The same inside a handler that has a session: what is left to receive is
    [r]; announced plaintext stays announced. *)
Definition inner (b : bool) (r : list rx_event) (w : layer) : Prop :=
  core w /\ m_hTransport w = true /\ s_rx w = r /\ (b = true -> announced w).

Lemma BufferedPlaintext_length (w : layer) : BufferedPlaintext w = Z.of_nat (length (buffered w)).
Proof. unfold BufferedPlaintext, buffered. rewrite length_drop. destruct (Nat.ltb_spec (m_plaintextOffset w) (length (m_plaintext w))); lia. Qed.

Lemma HasPendingTls_spec (w : layer) : HasPendingTls w = bool_decide (unsent w <> []).
Proof.
  unfold HasPendingTls, unsent. destruct (Nat.ltb_spec (m_pendingTlsOffset w) (length (m_pendingTls w))).
  - symmetry. apply bool_decide_eq_true_2. intros Hn%(f_equal length). rewrite length_drop in Hn. simpl in Hn. lia.
  - symmetry. apply bool_decide_eq_false_2. rewrite drop_ge by lia. auto.
Qed.

(** Re-establishing [core] after an update that its fields do not see. *)
Ltac core_same H :=
  destruct H; split; cbn in *;
  rewrite ?sane_snoc, ?sent_snoc, ?drained_snoc, ?plain_snoc, ?received_snoc, ?app_nil_r;
  cbn; rewrite ?andb_true_r; auto.

Lemma core_lasterr w v : core w -> core (set_s_lasterr v w).
Proof. intros H. core_same H. Qed.
Lemma core_tx w v : core w -> core (set_s_tx v w).
Proof. intros H. core_same H. Qed.
Lemma core_rx w v : core w -> core (set_s_rx v w).
Proof. intros H. core_same H. Qed.
Lemma core_state w v : core w -> core (set_s_state v w).
Proof. intros H. core_same H. Qed.
Lemma core_critical w v : core w -> core (set_s_critical v w).
Proof. intros H. core_same H. Qed.

Definition quiet (e : tls_event) : bool :=
  match e with SSent _ | SDrained _ | SPlain _ | SReceived _ | SNull | SFault => false | _ => true end.

Lemma core_trace w e : core w -> quiet e = true -> core (set_s_trace (s_trace w ++ [e]) w).
Proof. intros H He. destruct e; try done; core_same H. Qed.

Lemma core_session w s s' : core w -> m_session w = Some s ->
  (0 < session_is_ready s -> 0 < session_is_ready s') -> core (set_m_session (Some s') w).
Proof.
  intros H Hs Hk. core_same H.
  - intros Hl. destruct (c_unloaded0 Hl). congruence.
  - intros Hr Hb. destruct (c_ready0 Hr Hb) as (s0 & E & Hp). exists s'. split; [done|]. apply Hk. congruence.
Qed.

Lemma core_has_session w : core w -> m_hTransport w = true -> exists s, m_session w = Some s.
Proof. intros H Hl. exact (c_loaded w H Hl). Qed.

(** ** The primitives inside a handler *)

Lemma wp_session {A} b r (f : session -> A * session) w (Q : option A -> layer -> Prop) :
  inner b r w -> (forall s, 0 < session_is_ready s -> 0 < session_is_ready (snd (f s))) ->
  (forall s, m_session w = Some s -> inner b r (set_m_session (Some (snd (f s))) w) ->
     Q (Some (fst (f s))) (set_m_session (Some (snd (f s))) w)) ->
  wp (with_session f) Q w.
Proof.
  intros (Hc & Hl & Hr & Ha) Hk HQ. destruct (core_has_session w Hc Hl) as [s Hs].
  specialize (HQ s Hs). specialize (Hk s). unfold wp, with_session. rewrite Hs.
  destruct (f s) as [a s']. apply HQ. split_and!; [by eapply core_session|done..].
Qed.

Lemma inner_lasterr b r w v : inner b r w -> inner b r (set_s_lasterr v w).
Proof. intros (Hc & H). split; [by apply core_lasterr|exact H]. Qed.

Lemma inner_weak b r w : inner b r w -> inner false r w.
Proof. intros (? & ? & ? & ?). by split_and!. Qed.

(** An event that does not tell the layer above that it read. *)
Lemma inner_trace b r w e : inner b r w -> quiet e = true -> inner b r (set_s_trace (s_trace w ++ [e]) w).
Proof.
  intros (Hc & Hl & Hr & Ha) He. split_and!; [by apply core_trace|done..|].
  intros Hb Hcr Hbuf. destruct (Ha Hb Hcr Hbuf) as [H1 H2]. split; [done|]. cbn. rewrite told_snoc, H2.
  destruct e; try done. simpl. by destruct (_ && _).
Qed.

(** An event without an error changes no state but for FD_CLOSE. *)
Lemma wp_trigger_plain w l p (Q : bool -> layer -> Prop) :
  s_valid w = true -> Z.land l FD_CLOSE = 0 ->
  Q true (set_s_trace (s_trace w ++ [STrigger l 0 p]) w) -> wp (TlsTriggerEvent l 0 p) Q w.
Proof.
  intros Hv Hl HQ. unfold TlsTriggerEvent. do 2 wp_step. rewrite Hv. cbn [negb].
  rewrite Hl. cbn [Z.eqb negb andb]. wp_step.
  destruct (negb (Z.land l FD_CONNECT =? 0)); cbn [when]; wp_step; unfold trace; by repeat wp_step.
Qed.

Lemma wp_trigger b r w l p (Q : bool -> layer -> Prop) :
  inner b r w -> Z.land l FD_CLOSE = 0 ->
  (inner b r (set_s_trace (s_trace w ++ [STrigger l 0 p]) w) ->
   Q true (set_s_trace (s_trace w ++ [STrigger l 0 p]) w)) ->
  wp (TlsTriggerEvent l 0 p) Q w.
Proof.
  intros Hi Hl HQ. apply wp_trigger_plain; [apply (c_valid w (proj1 Hi))|done|]. apply HQ. by apply inner_trace.
Qed.

Lemma inner_tx b r w v : inner b r w -> inner b r (set_s_tx v w).
Proof. intros (Hc & H). split; [by apply core_tx|exact H]. Qed.

(** ** [FlushTls] *)

(** What sending a part of the records does. *)
Lemma inner_sent b r w k t : inner b r w -> (k <= length (unsent w))%nat ->
  inner b r (set_m_pendingTlsOffset (m_pendingTlsOffset w + k)
    (set_s_trace (s_trace w ++ [SSent (take k (unsent w))]) (set_s_tx t w))).
Proof.
  intros (Hc & Hl & Hr & Ha) Hk. split_and!; cbn; try done.
  - assert (E : unsent w = take k (unsent w) ++ drop k (unsent w)) by by rewrite take_drop.
    unfold unsent in *. core_same Hc.
    + rewrite length_drop in Hk. lia.
    + rewrite <- c_sent0, <- app_assoc. f_equal. rewrite <- drop_drop. by rewrite take_drop.
  - intros Hb Hcr Hbuf. destruct (Ha Hb Hcr Hbuf). split; [done|]. cbn. by rewrite told_snoc.
Qed.

Lemma wp_send b r w (Q : Z -> layer -> Prop) : inner b r w ->
  (forall w', inner b r w' -> (length (s_tx w') <= length (s_tx w))%nat -> Q SOCKET_ERROR w') ->
  (forall k t, (k <= length (unsent w))%nat -> (length t < length (s_tx w))%nat ->
     Q (Z.of_nat k) (set_s_trace (s_trace w ++ [SSent (take k (unsent w))]) (set_s_tx t w))) ->
  wp (TlsSendNext (unsent w)) Q w.
Proof.
  intros Hi Herr Hok. unfold TlsSendNext. do 2 wp_step.
  destruct (layer_error w) as [e|].
  { wp_step. apply wp_modify, wp_ret, Herr; [by apply inner_lasterr|done]. }
  unfold wp, raw_send. destruct (s_tx w) as [|[k| |e] t] eqn:Et.
  - apply Herr; [by apply inner_lasterr|cbn; rewrite Et; done].
  - rewrite length_take. specialize (Hok (Z.to_nat k `min` length (unsent w))%nat t).
    replace (take (Z.to_nat k `min` length (unsent w)) (unsent w)) with (take (Z.to_nat k) (unsent w)) in Hok.
    + apply Hok; simpl; lia.
    + rewrite <- (firstn_all (unsent w)) at 1. by rewrite take_take.
  - apply Herr; [by apply inner_lasterr, inner_tx|simpl; lia].
  - apply Herr; [by apply inner_lasterr, inner_tx|simpl; lia].
Qed.

Lemma wp_send_pending b r n : forall w, inner b r w -> (length (unsent w) <= n)%nat ->
  wp (send_records n) (fun res w' => inner b r w' /\ (length (s_tx w') <= length (s_tx w))%nat /\
    (res = None -> unsent w' = [] /\ (unsent w <> [] -> length (s_tx w') < length (s_tx w))%nat)) w.
Proof.
  induction n as [|n IH]; intros w Hi Hn; simpl; wp_step; wp_step; rewrite HasPendingTls_spec;
    (case_bool_decide as Hu; cbn [negb]; [|wp_step; split_and!; [done..|]; intros _; by split]).
  { destruct (unsent w); [done|simpl in Hn; lia]. }
  wp_step. wp_step. wp_step. apply (wp_send b r); [done|..].
  - intros w' Hi' Htx. cbn. wp_step. unfold last_error. repeat wp_step. by split_and!.
  - intros k t Hk Ht. wp_step. { apply Z.eqb_eq in H. unfold SOCKET_ERROR in H. lia. }
    wp_step.
    + wp_step. unfold set_error. repeat wp_step. assert (k = 0%nat) as -> by lia.
      pose proof (inner_sent b r w 0 t Hi ltac:(lia)) as Hs. rewrite Nat.add_0_r in Hs.
      split_and!; [|cbn; lia|done]. by apply inner_lasterr.
    + wp_step. wp_step. rewrite Nat2Z.id.
      pose proof (inner_sent b r w k t Hi Hk) as Hs.
      eapply wp_mono; [apply IH; [exact Hs|]|].
      * unfold unsent in *. cbn. rewrite <- drop_drop, length_drop. lia.
      * cbn. intros res w' (H1 & H2 & H3). split_and!; [done|lia|]. intros Hr. destruct (H3 Hr) as [? _].
        split; [done|lia].
Qed.

(** The records are sent in order, and the fuel is enough. *)
Lemma wp_flush b r n : forall w, inner b r w ->
  (length (s_tx w) + (if bool_decide (unsent w = []) then 2 else 1) <= n)%nat ->
  wp (flush n) (fun _ w' => inner b r w') w.
Proof.
  induction n as [|n IH]; intros w Hi Hn; [case_bool_decide; lia|].
  simpl. wp_step. wp_step. destruct (core_has_session w (proj1 Hi) (proj1 (proj2 Hi))) as [s ->].
  wp_step. wp_step. wp_step. eapply wp_mono; [by apply wp_send_pending|].
  intros res w1 (Hi1 & Htx & Hres). destruct res as [res|]; [by wp_step|].
  destruct (Hres eq_refl) as [Hu Hless]. wp_step. wp_step. wp_step.
  assert (Hi2 : inner b r (set_m_pendingTls [] (set_m_pendingTlsOffset 0 w1))).
  { destruct Hi1 as (Hc & H). split; [|exact H]. core_same Hc. by rewrite Hu, app_nil_r in c_sent0. }
  apply (wp_session b r); [done|intros; by apply drain_stays|].
  intros s1 Hs1 Hi3. destruct (session_drain_tls s1 TLS_CHUNK) as [[code chunk] s2]. cbn [fst snd] in *.
  wp_step.
  { wp_step. unfold set_error. repeat wp_step. by apply inner_lasterr. }
  wp_step. unfold trace. wp_step.
  assert (Hi4 : inner b r (set_m_pendingTls chunk
     (set_s_trace (s_trace w1 ++ [SDrained chunk]) (set_m_session (Some s2) (set_m_pendingTls [] (set_m_pendingTlsOffset 0 w1)))))).
  { destruct Hi3 as (Hc & H1 & H2 & H3). split_and!; cbn; try done.
    - core_same Hc; [lia|]. rewrite <- c_sent0. unfold unsent. cbn. by rewrite app_nil_r, drop_0.
    - intros Hb Hcr Hbuf. destruct (H3 Hb Hcr Hbuf). split; [done|]. cbn. by rewrite told_snoc. }
  wp_step.
  - apply bool_decide_eq_true in H0. wp_step. subst chunk. exact Hi4.
  - apply bool_decide_eq_false in H0. wp_step. wp_step. apply IH; [exact Hi4|].
    cbn. rewrite drop_0, bool_decide_eq_false_2 by done.
    case_bool_decide as Hu0; [lia|]. specialize (Hless Hu0). lia.
Qed.

Lemma wp_FlushTls b r w : inner b r w -> wp FlushTls (fun _ w' => inner b r w') w.
Proof. intros Hi. unfold FlushTls. wp_step. wp_step. apply wp_flush; [done|]. case_bool_decide; lia. Qed.

(** ** [DrainPlaintext] *)

Definition ready_for (w : layer) : Prop := buffered w <> [] -> m_bHandshakeReady w = true.

Lemma inner_peer_closed r w : inner false r w -> inner false r (set_m_bPeerReadClosed true w).
Proof. intros (Hc & H1 & H2 & _). split_and!; [|done..]. core_same Hc. by intros. Qed.

Lemma wp_drain r n : forall w, inner false r w -> MAX_BUFFERED_DATA - Z.of_nat (length (buffered w)) < Z.of_nat n ->
  wp (drain n) (fun _ w' => inner false r w') w.
Proof.
  induction n as [|n IH]; intros w Hi Hn; simpl; (wp_step; wp_step; rewrite BufferedPlaintext_length; wp_step).
  { wp_step. unfold set_error. repeat wp_step. by apply inner_lasterr. }
  { apply Z.leb_gt in H. lia. }
  { wp_step. unfold set_error. repeat wp_step. by apply inner_lasterr. }
  apply Z.leb_gt in H. wp_step. apply (wp_session false r); [done|intros; by apply read_stays|].
  intros s Hs Hi1. pose proof (read_fits s (TLS_CHUNK `min` (MAX_BUFFERED_DATA - Z.of_nat (length (buffered w))))) as Hfit.
  pose proof (read_ready s (TLS_CHUNK `min` (MAX_BUFFERED_DATA - Z.of_nat (length (buffered w))))) as Hready.
  destruct (session_read_plain _ _) as [[code chunk] s2]. cbn [fst snd] in *.
  wp_step; [repeat wp_step; by apply inner_peer_closed|].
  wp_step.
  { wp_step. wp_step; [|by wp_step]. wp_step. wp_step. apply Z.leb_le in H2. destruct Hi1 as (Hc & Hi1).
    split; [|exact Hi1]. unfold buffered in *. core_same Hc. sizes. lia. }
  wp_step. { wp_step. unfold set_error. repeat wp_step. by apply inner_lasterr. }
  wp_step. unfold trace. wp_step.
  assert (Hb : forall p : bytes, (m_plaintextOffset w <= length (m_plaintext w))%nat ->
    drop (m_plaintextOffset w) (m_plaintext w ++ p) = buffered w ++ p).
  { intros p Hp. by rewrite drop_app_le. }
  assert (Hi4 : inner false r (set_m_plaintext (m_plaintext w ++ chunk)
     (set_s_trace (s_trace w ++ [SPlain chunk]) (set_m_session (Some s2) w)))).
  { destruct Hi1 as (Hc & Hi1 & Hi2 & _). split_and!; cbn; try done.
    specialize (Hb chunk (c_plain w (proj1 Hi))). core_same Hc.
    - rewrite length_app. lia.
    - unfold buffered in *. cbn. by rewrite Hb, app_assoc, c_received0.
    - unfold buffered in *. cbn. rewrite Hb, length_app. sizes. lia.
    - intros Hl. congruence.
    - intros Hr Hne. destruct chunk as [|x chunk].
      + apply c_ready0; [done|]. unfold buffered in *. cbn in *. by rewrite app_nil_r in Hne.
      + exists s2. split; [done|]. by apply Hready.
    - intros Hp Hcl. unfold buffered in *. cbn. rewrite Hb, length_app. specialize (c_paused0 Hp Hcl). lia. }
  wp_step.
  - apply bool_decide_eq_true in H3. subst chunk. wp_step. rewrite app_nil_r in Hi4. by destruct w.
  - apply bool_decide_eq_false in H3. wp_step. wp_step. apply IH; [exact Hi4|].
    unfold buffered at 1. cbn. rewrite Hb by apply (c_plain w (proj1 Hi)). rewrite length_app.
    destruct chunk; [done|]. simpl. lia.
Qed.

Lemma wp_DrainPlaintext r w : inner false r w -> wp DrainPlaintext (fun _ w' => inner false r w') w.
Proof.
  intros Hi. unfold DrainPlaintext. wp_step. wp_step.
  assert (Hi' : inner false r (set_m_plaintext (buffered w) (set_m_plaintextOffset 0 w))).
  { destruct Hi as (Hc & Hi). split; [|by destruct Hi as (? & ? & ?)].
    unfold buffered in *. core_same Hc; rewrite ?drop_0; auto; lia. }
  apply wp_drain; [done|]. unfold drain_fuel. sizes. rewrite Z2Nat.id by lia. lia.
Qed.

(** ** [FinishHandshake] *)

Lemma inner_ready b r w : inner b r w -> inner b r (set_m_bHandshakeReady true w).
Proof.
  intros (Hc & H1 & H2 & H3). split_and!; cbn; try done.
  - core_same Hc. done.
  - intros Hb Hcr Hbuf. by destruct (H3 Hb Hcr Hbuf).
Qed.

Lemma inner_key b r w k v : inner b r w -> inner b r (set_m_bUdpKeyReady v (set_m_udpKey k w)).
Proof. intros (Hc & H). split; [core_same Hc|exact H]. Qed.

Lemma inner_notified b r w v : inner b r w -> inner b r (set_m_bConnectNotified v w).
Proof. intros (Hc & H). split; [core_same Hc|exact H]. Qed.

Lemma wp_notify b r w : inner b r w -> m_bHandshakeReady w = true ->
  wp (notified ← gets m_bConnectNotified;
      when (negb notified) (modify (set_m_bConnectNotified true);; TlsTriggerEvent FD_CONNECT 0 true;; mret tt);;
      mret true) (fun a w' => inner b r w' /\ (a = true -> ready_for w')) w.
Proof.
  intros Hi Hr. do 4 wp_step; [|wp_step; split; [done|by intros _ _]].
  wp_step. wp_step. wp_step. apply (wp_trigger b r); [by apply inner_notified|done|]. intros Hi1.
  do 2 wp_step. split; [done|by intros _ _].
Qed.

Lemma wp_FinishHandshake b r w : inner b r w ->
  wp FinishHandshake (fun a w' => inner b r w' /\ (a = true -> ready_for w')) w.
Proof.
  intros Hi. unfold FinishHandshake. wp_step. wp_step. wp_step; [wp_step; split; [done|by intros _ _]|].
  wp_step. apply (wp_session b r); [done..|]. cbn [fst snd]. intros s Hs Hi1.
  wp_step. { wp_step. unfold set_error. repeat wp_step. split; [by apply inner_lasterr|done]. }
  wp_step.
  { wp_step. split; [done|]. intros _ Hbuf. destruct (c_ready w (proj1 Hi) H Hbuf) as (s0 & Es & Hp).
    apply Z.eqb_eq in H1. assert (s0 = s) as -> by congruence. lia. }
  wp_step. wp_step. apply inner_ready in Hi1. wp_step. apply (wp_session b r); [done..|].
  cbn [fst snd]. intros s3 Hs3 Hi2. destruct (session_export_key s3) as [code key].
  wp_step. wp_step; [wp_step; wp_step; wp_step|]; apply wp_notify; try done. by apply inner_key.
Qed.

(** ** [PumpTls] *)

Lemma wp_settle r w : inner false r w ->
  wp settle (fun a w' => inner false r w' /\ (a = true -> ready_for w')) w.
Proof.
  intros Hi. unfold settle. wp_step. eapply wp_mono; [by apply wp_DrainPlaintext|]. intros a w1 Hi1.
  wp_step; [by wp_step|]. wp_step. eapply wp_mono; [by apply (wp_FlushTls false r)|]. intros b w2 Hi2.
  wp_step; [by wp_step|]. by apply wp_FinishHandshake.
Qed.

(** [R] is what [after] leaves when it succeeds. *)
Lemma wp_feed (R : layer -> Prop) after r n :
  (forall w, inner false r w -> wp after (fun a w' => inner false r w' /\ (a = true -> R w')) w) ->
  forall chunk w, inner false r w -> (chunk = [] -> R w) -> (length chunk <= n)%nat ->
  wp (feed after n chunk) (fun a w' => inner false r w' /\ (a = true -> R w')) w.
Proof.
  intros Hafter. induction n as [|n IH]; intros [|x chunk] w Hi HR Hn; simpl;
    [wp_step; by auto|simpl in Hn; lia|wp_step; by auto|].
  wp_step. apply (wp_session false r); [done|intros; by apply feed_stays|]. intros s Hs Hi1.
  pose proof (feed_consumed s (x :: chunk)) as Hc.
  destruct (session_feed_tls s (x :: chunk)) as [[code n0] s2]. cbn [fst snd] in *.
  wp_step. { wp_step. unfold set_error. repeat wp_step. split; [by apply inner_lasterr|done]. }
  apply orb_false_iff in H as [H0%negb_false_iff%Z.eqb_eq H1%Z.eqb_neq]. specialize (Hc H0).
  wp_step. eapply wp_mono; [by apply Hafter|]. intros b w2 [Hi2 HR2]. wp_step; [by wp_step|].
  apply negb_false_iff in H. apply IH; [done|by auto|]. rewrite length_drop. simpl in *. lia.
Qed.

(** What recv returns, and how much less is left. *)
Lemma wp_recv n w (Q : Z * bytes -> layer -> Prop) : 0 < n ->
  (forall v w', w' = set_s_lasterr v w \/ (exists r, w' = set_s_lasterr v (set_s_rx r w)) -> Q (SOCKET_ERROR, []) w') ->
  (forall r, Q (0, []) (set_s_rx r w)) ->
  (forall b r, b <> [] -> (rx_left r < rx_left (s_rx w))%nat -> Q (Z.of_nat (length b), b) (set_s_rx r w)) ->
  wp (raw_recv n) Q w.
Proof.
  intros Hn He H0 Hd. unfold wp, raw_recv. destruct (s_rx w) as [|[b| |e|] r] eqn:E; try (eapply He; eauto; fail).
  - destruct b as [|x b]; [rewrite take_nil; apply H0|].
    assert (Ht : take (Z.to_nat n) (x :: b) <> []) by (destruct (Z.to_nat n) eqn:?; [lia|done]).
    apply Hd; [done|].
    assert (length (drop (Z.to_nat n) (x :: b)) < length (x :: b))%nat by (rewrite length_drop; simpl; lia).
    destruct (drop (Z.to_nat n) (x :: b)) eqn:Ed; simpl in *; lia.
  - specialize (H0 (s_rx w)). replace (set_s_rx (s_rx w) w) with w in H0 by (by destruct w). done.
Qed.

Lemma inner_rx r r' w : inner false r w -> inner false r' (set_s_rx r' w).
Proof. intros (Hc & H1 & H2 & _). by split_and!; [apply core_rx|..]. Qed.

(** [inner] of whatever is left. *)
Definition within (w : layer) : Prop := core w /\ m_hTransport w = true.

Lemma within_inner w : within w -> inner false (s_rx w) w.
Proof. intros []. by split_and!. Qed.

Lemma inner_within b r w : inner b r w -> within w.
Proof. intros (? & ? & _). by split. Qed.

Lemma within_lasterr w v : within w -> within (set_s_lasterr v w).
Proof. intros [Hc H]. split; [by apply core_lasterr|exact H]. Qed.

Lemma wp_pump_loop n : forall w, within w -> ready_for w -> (rx_left (s_rx w) <= n)%nat ->
  wp (pump_loop n) (fun a w' => within w' /\ (a = true -> ready_for w')) w.
Proof.
  induction n as [|n IH]; intros w Hw Hr Hn.
  { exfalso. destruct (s_rx w) as [|[]]; simpl in Hn; lia. }
  assert (Hend : forall v w', w' = set_s_lasterr v w \/ (exists r, w' = set_s_lasterr v (set_s_rx r w)) ->
    within w' /\ ready_for w').
  { intros v w' [->|[r ->]]; (split; [|exact Hr]); [by apply within_lasterr|].
    eapply inner_within, inner_lasterr, inner_rx, within_inner, Hw. }
  simpl. wp_step. unfold TlsReceiveNext. do 2 wp_step. destruct (layer_error w) as [e|].
  { wp_step. unfold set_error. do 2 wp_step. cbn. wp_step. unfold last_error. repeat wp_step. by destruct (Hend e _ (or_introl eq_refl)). }
  apply wp_recv; [done|..].
  - intros v w' Hw'. cbn. wp_step. unfold last_error. repeat wp_step. by destruct (Hend v w' Hw').
  - intros r. cbn. wp_step. unfold set_error. repeat wp_step. split; [|done].
    eapply inner_within, inner_lasterr, inner_rx, within_inner, Hw.
  - intros b r Hb Hrx. assert (Hl : Z.of_nat (length b) <> 0) by (destruct b; [done|simpl; lia]).
    wp_step. { apply Z.eqb_eq in H. unfold SOCKET_ERROR in H. lia. }
    wp_step. { by apply Z.eqb_eq in H0. }
    wp_step. eapply wp_mono.
    { apply (wp_feed ready_for settle r); [intros; by apply wp_settle| |by intros|done].
      apply (inner_rx (s_rx w)). by apply within_inner. }
    intros a w2 [Hi2 Hr2]. wp_step; [wp_step; split; [by eapply inner_within|done]|].
    apply negb_false_iff in H1. do 3 wp_step; [wp_step; split; [by eapply inner_within|auto]|].
    apply IH; [by eapply inner_within|auto|]. destruct Hi2 as (_ & _ & -> & _). lia.
Qed.

Lemma wp_PumpTls w : within w -> wp PumpTls (fun a w' => within w' /\ (a = true -> ready_for w')) w.
Proof.
  intros Hw. unfold PumpTls. wp_step. eapply wp_mono; [by apply wp_settle, within_inner|].
  intros a w1 [Hi1 Hr1]. apply inner_within in Hi1. wp_step; [by wp_step|]. apply negb_false_iff in H.
  do 3 wp_step; [wp_step; by auto|]. do 2 wp_step. apply wp_pump_loop; auto.
Qed.

(** ** Failures *)

(** The layer is at its end: [CallEvent] drops what follows. *)
Definition failed (w : layer) : Prop := core w /\ s_critical w <> 0.

Lemma wp_trigger_error l e w (Q : bool -> layer -> Prop) : core w -> e <> 0 ->
  (l = FD_CONNECT \/ l = FD_CLOSE) ->
  (forall w', failed w' -> Q true w') -> wp (TlsTriggerEvent l e true) Q w.
Proof.
  intros Hc He Hl HQ. unfold TlsTriggerEvent. do 2 wp_step. rewrite (c_valid w Hc). cbn [negb].
  apply Z.eqb_neq in He as He'. rewrite He'. unfold trace.
  destruct Hl as [-> | ->]; cbn; repeat wp_step; apply HQ; (split; [|done]);
    apply core_trace; try done; by apply core_critical, core_state.
Qed.

Lemma wp_TlsReportFailure w : core w -> wp TlsReportFailure (fun _ => failed) w.
Proof.
  intros Hc. unfold TlsReportFailure, last_error, set_error. repeat wp_step.
  - apply wp_trigger_error; [by apply core_lasterr|repeat case_match; done|by left|]. intros w' Hw'. by wp_step.
  - apply wp_trigger_error; [by apply core_lasterr|unfold WSAECONNABORTED; lia|by right|]. intros w' Hw'. by wp_step.
Qed.

(** ** Between two handlers *)

Record okay (w : layer) : Prop := {
  o_core : core w;
  o_session : s_critical w = 0 -> s_state w = connected -> m_hTransport w = true;
  o_open : s_critical w = 0 -> buffered w <> [] -> s_state w <> closed -> m_bHandshakeReady w = true;
  o_told : s_critical w = 0 -> buffered w <> [] -> m_bHandshakeReady w = true ->
    told_to_read (s_trace w) = true
}.

Lemma okay_failed w : failed w -> okay w.
Proof. intros []. by split. Qed.

Lemma okay_inner r w : inner true r w -> okay w.
Proof. intros (Hc & Hl & _ & Ha). split; try done; intros; by apply Ha. Qed.

Lemma inner_okay w : okay w -> m_hTransport w = true ->
  (s_state w <> closed \/ m_bHandshakeReady w = true) -> inner true (s_rx w) w.
Proof.
  intros [Hc Hs Ho Ht] Hl Hor. split_and!; [done..|]. intros _ Hcr Hb.
  assert (m_bHandshakeReady w = true) by (destruct Hor; auto). split; auto.
Qed.

(** A trigger that tells the layer above to read. *)
Lemma wp_tell w (Q : bool -> layer -> Prop) : core w -> m_bHandshakeReady w = true ->
  (inner true (s_rx w) (set_s_trace (s_trace w ++ [STrigger FD_READ 0 true]) w) ->
     Q true (set_s_trace (s_trace w ++ [STrigger FD_READ 0 true]) w)) ->
  wp (TlsTriggerEvent FD_READ 0 true) Q w.
Proof.
  intros Hc Hr HQ. assert (Hl : m_hTransport w = true) by (apply (c_flags w Hc); auto).
  apply wp_trigger_plain; [apply (c_valid w Hc)|done|]. apply HQ.
  split_and!; [by apply core_trace|done..|]. intros _ _ _. split; [done|]. cbn. by rewrite told_snoc.
Qed.

Lemma HasPendingRead_buffered (w : layer) : buffered w <> [] -> HasPendingRead w = true.
Proof. intros Hb. unfold HasPendingRead. rewrite BufferedPlaintext_length. destruct (buffered w); done. Qed.

(** ** The handlers *)

Lemma wp_TlsOnReceive e w : within w -> wp (TlsOnReceive e) (fun _ => okay) w.
Proof.
  intros Hw. unfold TlsOnReceive. wp_step.
  apply (wp_mono _ (fun ok w' => within w' /\ (ok = true -> ready_for w'))).
  { wp_step; [by wp_step|by apply wp_PumpTls]. }
  intros ok w1 [Hw1 Hr]. wp_step.
  - wp_step. apply (wp_mono _ (fun _ => core)).
    { unfold set_error. wp_step; [wp_step; by apply core_lasterr, Hw1|apply Hw1]. }
    intros _ w2 Hw2. eapply wp_mono; [by apply wp_TlsReportFailure|]. intros ? ?. apply okay_failed.
  - apply negb_false_iff in H. specialize (Hr H). do 3 wp_step.
    + apply andb_true_iff in H0 as [H0 H1]. wp_step. apply wp_tell; [apply Hw1|done|].
      intros Hi. wp_step. by eapply okay_inner.
    + apply okay_inner with (r := s_rx w1). destruct Hw1. split_and!; [done..|]. intros _ _ Hb.
      rewrite (Hr Hb), (HasPendingRead_buffered _ Hb) in H0. done.
Qed.

Lemma inner_shutdown b r w v : inner b r w -> inner b r (set_m_pendingShutdown v w).
Proof. intros (Hc & H). split; [core_same Hc|exact H]. Qed.

Lemma wp_TlsShutDownNext b r h w : inner b r w -> wp (TlsShutDownNext h) (fun _ => inner b r) w.
Proof.
  intros Hi. unfold TlsShutDownNext. do 2 wp_step. destruct (layer_error w).
  - unfold set_error. repeat wp_step. by apply inner_lasterr.
  - unfold trace. repeat wp_step. by apply inner_trace.
Qed.

Lemma wp_TlsOnSend r e w : inner true r w -> wp (TlsOnSend e) (fun _ => okay) w.
Proof.
  intros Hi. unfold TlsOnSend. wp_step.
  apply (wp_mono _ (fun _ => inner true r)).
  { wp_step; [by wp_step|]. wp_step. eapply wp_mono; [by apply (wp_FlushTls true r)|]. intros a w1 Hi1.
    wp_step; [by wp_step|]. eapply wp_mono; [by apply (wp_FinishHandshake true r)|]. by intros ? ? []. }
  intros ok w1 Hi1. wp_step.
  - wp_step. apply (wp_mono _ (fun _ => core)).
    { unfold set_error. wp_step; [wp_step; by apply core_lasterr, Hi1|apply Hi1]. }
    intros _ w2 Hw2. eapply wp_mono; [by apply wp_TlsReportFailure|]. intros ? ?. apply okay_failed.
  - do 3 wp_step. apply (wp_mono _ (fun _ => inner true r)).
    { wp_step; [|done]. wp_step. wp_step. wp_step.
      eapply wp_mono; [by apply wp_TlsShutDownNext, inner_shutdown|]. intros. by wp_step. }
    intros _ w2 Hi2. do 3 wp_step; [|by eapply okay_inner]. wp_step. apply (wp_trigger true r); [done|done|].
    intros Hi3. wp_step. by eapply okay_inner.
Qed.

(** Loading leaves the layer with a session, or as it was. *)
Lemma core_load_error w v : core w -> core (set_m_transportLoadError v w).
Proof. intros H. core_same H. Qed.

Lemma wp_LoadTransport w : core w -> announced w ->
  wp (LoadTransport optional_modules) (fun a w' => core w' /\ announced w' /\ (a = true -> m_hTransport w' = true)) w.
Proof.
  intros Hc Ha. unfold LoadTransport.
  wp_step; [repeat wp_step; split; [by apply core_load_error|done]|]. do 3 wp_step; [by wp_step|].
  do 4 wp_step. cbn [s_load set_m_transportLoadError].
  assert (Hc0 : core (set_m_transportLoadError 0 w)) by by apply core_load_error.
  destruct (s_load w) as [|e| |]; [by wp_step|by repeat wp_step; split; [apply core_load_error|]..|].
  repeat wp_step. destruct (session_create _ _) as [s|]; repeat wp_step.
  - split_and!; [|done..]. destruct (c_unloaded w Hc H0) as [Hs Hb]. unfold buffered in *. core_same Hc.
    + done.
    + by rewrite Hb.
  - split_and!; [|done..]. destruct (c_unloaded w Hc H0) as [Hs Hb]. core_same Hc0; [congruence|]. unfold buffered in Hb. by rewrite Hb.
Qed.

Lemma wp_StartHandshake w : core w -> announced w ->
  wp (StartHandshake optional_modules) (fun a w' => core w' /\ announced w' /\ (a = true -> m_hTransport w' = true)) w.
Proof.
  intros Hc Ha. unfold StartHandshake. do 3 wp_step.
  { wp_step. split_and!; [done..|]. intros _. apply (c_flags w Hc). auto. }
  wp_step. eapply wp_mono; [by apply wp_LoadTransport|]. intros a w1 (Hc1 & Ha1 & Hl1).
  wp_step; [by wp_step|]. apply negb_false_iff in H0. specialize (Hl1 H0). wp_step. wp_step.
  assert (Hi : inner true (s_rx w1) (set_m_bHandshakeStarted true w1)).
  { split_and!; [|done..]. core_same Hc1. }
  eapply wp_mono; [by apply (wp_FlushTls true)|]. intros b w2 (? & ? & ? & ?). by split_and!; auto.
Qed.

Lemma wp_TlsOnConnect e w : core w -> announced w -> (e <> 0 -> s_critical w <> 0) ->
  wp (TlsOnConnect optional_modules e) (fun _ => okay) w.
Proof.
  intros Hc Ha He. unfold TlsOnConnect. wp_step.
  { apply negb_true_iff, Z.eqb_neq in H. wp_step. apply wp_trigger_error; [done|done|by left|].
    intros w' Hw'. wp_step. by apply okay_failed. }
  wp_step. eapply wp_mono; [by apply wp_StartHandshake|]. intros a w1 (Hc1 & Ha1 & Hl1).
  wp_step. apply (wp_mono _ (fun b w2 => core w2 /\ (b = true -> inner true (s_rx w1) w2))).
  { wp_step; [|by wp_step]. eapply wp_mono; [apply (wp_FinishHandshake true (s_rx w1)); split_and!; auto|].
    intros b w2 [Hi _]. split; [apply Hi|done]. }
  intros b w2 [Hc2 Hi2]. wp_step.
  - eapply wp_mono; [by apply wp_TlsReportFailure|]. intros ? ?. apply okay_failed.
  - apply negb_false_iff in H0. by eapply okay_inner, Hi2.
Qed.

(** ** FD_CLOSE *)

Lemma wp_close_drain n : forall w, within w -> (rx_left (s_rx w) <= n)%nat ->
  wp (close_drain n) (fun _ => within) w.
Proof.
  induction n as [|n IH]; intros w Hw Hn.
  { exfalso. destruct (s_rx w) as [|[]]; simpl in Hn; lia. }
  simpl. wp_step. apply wp_recv; [done|..].
  - intros v w' [->|[r ->]]; cbn; [by apply within_lasterr|].
    eapply inner_within, inner_lasterr, inner_rx, within_inner, Hw.
  - intros r. cbn. eapply inner_within, inner_rx, within_inner, Hw.
  - intros b r Hb Hrx. wp_step.
    { destruct b; [done|]. apply Z.leb_le in H. simpl in H. lia. }
    wp_step. eapply wp_mono.
    { apply (wp_feed (fun _ => True) DrainPlaintext r); [|apply (inner_rx (s_rx w)); by apply within_inner|done|done].
      intros w0 Hi0. eapply wp_mono; [by apply wp_DrainPlaintext|]. by intros ? ? ?. }
    intros a w2 [Hi2 _]. wp_step; [wp_step; by eapply inner_within|].
    apply IH; [by eapply inner_within|]. destruct Hi2 as (_ & _ & -> & _). lia.
Qed.

Lemma core_peer_closed w : core w -> core (set_m_bPeerReadClosed true w).
Proof. intros Hc. core_same Hc. by intros. Qed.

Lemma wp_close_without w (Q : bool -> layer -> Prop) : s_valid w = true ->
  Q true (set_s_trace (s_trace w ++ [STrigger FD_CLOSE 0 true]) (set_s_state closed w)) ->
  wp (TlsTriggerEvent FD_CLOSE 0 true) Q w.
Proof. intros Hv HQ. unfold TlsTriggerEvent. do 2 wp_step. rewrite Hv. cbn. unfold trace. by repeat wp_step. Qed.

Lemma wp_TlsOnClose e w : within w -> wp (TlsOnClose e) (fun _ => okay) w.
Proof.
  intros Hw. unfold TlsOnClose. wp_step. wp_step. wp_step.
  apply (wp_mono _ (fun _ => within)).
  { wp_step; [|by wp_step]. do 2 wp_step. wp_step. eapply wp_mono; [by apply wp_close_drain|]. intros a w1 Hw1.
    wp_step. apply (wp_mono _ (fun _ => within)).
    { wp_step; [|by wp_step]. eapply wp_mono; [by apply wp_DrainPlaintext, within_inner|].
      intros ? ?. apply inner_within. }
    intros b w2 [Hc2 Hl2]. wp_step. wp_step. wp_step. split; [by apply core_peer_closed|done]. }
  intros ok w1 Hw1. wp_step.
  { eapply wp_mono; [apply wp_TlsReportFailure, Hw1|]. intros ? ?. apply okay_failed. }
  wp_step. wp_step. wp_step. wp_step; [|wp_step; [|wp_step]].
  - apply andb_true_iff in H0 as [[_ Hr]%andb_true_iff _].
    apply wp_tell; [apply Hw1|done|]. intros Hi. wp_step. by eapply okay_inner.
  - apply negb_true_iff, Z.eqb_neq in H1. apply wp_trigger_error; [apply Hw1|done|by right|].
    intros w' Hw'. wp_step. by apply okay_failed.
  - apply negb_true_iff in H2. apply wp_close_without; [apply (c_valid _ (proj1 Hw1))|]. wp_step.
    split; [exact (core_trace (set_s_state closed w1) (STrigger FD_CLOSE 0 true) (core_state _ _ (proj1 Hw1)) eq_refl)|done..|]. cbn. congruence.
  - apply negb_false_iff in H1, H2. wp_step. wp_step. rewrite H1, H2 in H0. simpl in H0.
    apply (okay_inner (s_rx w1)). destruct Hw1. split_and!; [done..|]. intros _ _ Hb.
    by rewrite (HasPendingRead_buffered _ Hb) in H0.
Qed.

Lemma wp_TlsCallEvent l e w : okay w -> wp (TlsCallEvent optional_modules l e) (fun _ => okay) w.
Proof.
  intros Ho. unfold TlsCallEvent. do 3 wp_step; [by wp_step|]. apply negb_false_iff, Z.eqb_eq in H.
  destruct Ho as [Hc Hs Hop Ht]. specialize (Hs H). specialize (Hop H). specialize (Ht H).
  wp_step. wp_step. apply (core_critical w e) in Hc. wp_step. wp_step. cbn [s_state set_s_critical].
  assert (Hkeep : okay (set_s_critical e w)) by (split; auto).
  assert (Hin : s_state w = connected -> inner true (s_rx w) (set_s_critical e w)).
  { intros Hst. split_and!; [done|cbn; auto|done|]. intros _ _ Hb. cbn in *.
    assert (Hr : m_bHandshakeReady w = true) by (apply Hop; [done|congruence]). by split; [|apply Ht]. }
  assert (Hst : forall r st v, inner true r v -> inner true r (set_s_state st v)).
  { intros r st v (Hv & H1 & H2 & H3). by split_and!; [apply core_state|..]. }
  assert (Hbad : forall h, (forall w1, inner true (s_rx w) w1 -> wp h (fun _ => okay) w1) ->
    wp (when (bool_decide (s_state w = connected)) (when (negb (e =? 0)) (modify (set_s_state aborted));; h))
      (fun _ => okay) (set_s_critical e w)).
  { intros h Hh. wp_step; [|done]. apply bool_decide_eq_true in H0. wp_step.
    apply (wp_mono _ (fun _ => inner true (s_rx w))); [|by intros _].
    wp_step; [wp_step; by apply Hst, Hin|by apply Hin]. }
  wp_step; [|wp_step; [|wp_step; [|wp_step; [|by wp_step]]]].
  - apply Hbad. intros w1 Hi1. by eapply wp_TlsOnReceive, inner_within.
  - apply Hbad. intros w1 Hi1. by eapply wp_TlsOnSend.
  - wp_step; [|done]. apply bool_decide_eq_true in H3. do 2 wp_step. apply wp_TlsOnConnect; [by apply core_state| |done].
    intros _ Hb. cbn in *. assert (Hr : m_bHandshakeReady w = true) by (apply Hop; [done|congruence]). by split; [|apply Ht].
  - wp_step; [|done]. apply bool_decide_eq_true in H4. do 2 wp_step. apply wp_TlsOnClose.
    split; [by apply core_state|by apply Hs].
Qed.

(** ** Calls from above *)

Lemma okay_lasterr w v : okay w -> okay (set_s_lasterr v w).
Proof. intros [Hc H1 H2 H3]. split; [by apply core_lasterr|done..]. Qed.

Lemma session_loaded (w : layer) : core w -> is_Some (m_session w) -> m_hTransport w = true.
Proof.
  intros Hc [s Hs]. destruct (m_hTransport w) eqn:E; [done|]. destruct (c_unloaded w Hc E). congruence.
Qed.

Lemma wp_TlsSend data w : okay w -> wp (TlsSend data) (fun _ => okay) w.
Proof.
  intros Ho. unfold TlsSend. do 2 wp_step. wp_step.
  { wp_step. unfold set_error. repeat wp_step. by apply okay_lasterr. }
  apply orb_false_iff in H as [Hr%negb_false_iff Hs%negb_false_iff%bool_decide_eq_true].
  pose proof (inner_okay w Ho (session_loaded w (o_core w Ho) Hs) (or_intror Hr)) as Hi.
  wp_step. apply (wp_session true (s_rx w)); [done|intros; by apply write_stays|]. intros s Es Hi1.
  destruct (session_write_plain s data) as [[code n] s2]. cbn [fst snd] in *.
  wp_step. { wp_step. unfold set_error. repeat wp_step. by eapply okay_inner, inner_lasterr. }
  wp_step. apply (wp_mono _ (fun _ => inner true (s_rx w))).
  { wp_step; [by wp_step|by apply (wp_FlushTls true)]. }
  intros ok w1 Hi2. wp_step; [|wp_step; by eapply okay_inner].
  wp_step. unfold set_error. repeat wp_step. by eapply okay_inner, inner_lasterr.
Qed.

(** Sending records changes nothing the layer above sees. *)
Definition seen (v w : layer) : Prop :=
  s_state w = s_state v /\ s_critical w = s_critical v /\ m_bHandshakeReady w = m_bHandshakeReady v /\
  m_plaintext w = m_plaintext v /\ m_plaintextOffset w = m_plaintextOffset v.

Ltac seen_step :=
  first [keeps_step | apply keeps_modify; intros ?w ?H; exact H
        | let w := fresh in let H := fresh in intros w H; unfold exec, raw_send, with_session;
          repeat case_match; simplify_eq; exact H].

Lemma keeps_tls_send_pending v n : keeps (seen v) (send_records n).
Proof. induction n as [|n IH]; simpl; unfold TlsSendNext, set_error, last_error, trace; repeat (apply IH || seen_step). Qed.

Lemma keeps_FlushTls v : keeps (seen v) FlushTls.
Proof.
  unfold FlushTls. apply keeps_bind; [apply keeps_gets|]. intros n. generalize (n + 2)%nat. clear n. intros n.
  induction n as [|n IH]; simpl; unfold set_error, trace; repeat (apply IH || apply keeps_tls_send_pending || seen_step).
Qed.

(** Between handlers [FlushTls] is harmless. *)
Lemma wp_FlushTls_okay w : okay w -> m_hTransport w = true ->
  wp FlushTls (fun _ w' => okay w' /\ m_hTransport w' = true) w.
Proof.
  intros Ho Hl. destruct (decide (m_bHandshakeReady w = true)) as [Hr|Hr].
  { eapply wp_mono; [apply (wp_FlushTls true (s_rx w)), inner_okay; auto|].
    intros a w1 Hi. split; [exact (okay_inner _ _ Hi)|apply Hi]. }
  eapply wp_mono.
  { apply wp_and; [apply (wp_FlushTls false (s_rx w)); split_and!; [apply Ho|done..]|].
    apply (wp_keeping (seen w) FlushTls (fun _ => seen w)); [apply keeps_FlushTls|by split_and!|auto]. }
  intros a w1 [(Hc & Hl1 & _) (E1 & E2 & E3 & E4 & E5)]. split; [|done].
  destruct Ho as [_ H1 H2 H3]. unfold buffered in *.
  split; [done|..]; unfold buffered; rewrite ?E1, ?E2, ?E3, ?E4, ?E5; auto.
Qed.

Lemma okay_trace w e : okay w -> quiet e = true -> okay (set_s_trace (s_trace w ++ [e]) w).
Proof.
  intros [Hc H1 H2 H3] He. split; [by apply core_trace|done..|].
  intros Hcr Hb Hr. cbn. rewrite told_snoc, (H3 Hcr Hb Hr). destruct e; try done. simpl. by destruct (_ && _).
Qed.

Lemma wp_TlsShutDownNext_okay h w : okay w -> wp (TlsShutDownNext h) (fun _ => okay) w.
Proof.
  intros Ho. unfold TlsShutDownNext. do 2 wp_step. destruct (layer_error w).
  - unfold set_error. repeat wp_step. by apply okay_lasterr.
  - unfold trace. repeat wp_step. by apply okay_trace.
Qed.

Lemma wp_TlsShutDown h w : okay w -> wp (TlsShutDown h) (fun _ => okay) w.
Proof.
  intros Ho. unfold TlsShutDown. wp_step. wp_step. wp_step; [|by apply wp_TlsShutDownNext_okay].
  apply andb_true_iff in H as [_ Hs%bool_decide_eq_true].
  pose proof (session_loaded w (o_core w Ho) Hs) as Hl. destruct Hs as [s Hs].
  wp_step. unfold wp at 1, with_session. rewrite Hs. pose proof (notify_stays s) as Hk.
  destruct (session_close_notify s) as [code s2]. cbn [fst snd] in Hk.
  assert (Ho1 : okay (set_m_session (Some s2) w)).
  { destruct Ho. split; try done. by apply (core_session w s s2). }
  wp_step. apply (wp_mono _ (fun _ => okay)).
  { wp_step; [by wp_step|]. wp_step. unfold trace. wp_step.
    eapply wp_mono; [apply wp_FlushTls_okay; [by apply (okay_trace _ SNotify)|done]|]. by intros ? ? []. }
  intros ok w1 Ho2. wp_step; [by wp_step|]. do 3 wp_step; [|by apply wp_TlsShutDownNext_okay].
  do 3 wp_step. destruct Ho2 as [Hc2 H21 H22 H23]. split; try done. core_same Hc2.
Qed.

(** *** [Receive] *)

(** [inner] but for what pauses the pump. *)
Definition unpaused (r : list rx_event) (w : layer) : Prop := inner true r (set_m_bReceivePaused false w).

Lemma unpaused_trigger r w l p (Q : bool -> layer -> Prop) : unpaused r w -> Z.land l FD_CLOSE = 0 ->
  (forall w', w' = set_s_trace (s_trace w ++ [STrigger l 0 p]) w -> unpaused r w' -> Q true w') ->
  wp (TlsTriggerEvent l 0 p) Q w.
Proof.
  intros Hu Hl HQ. apply wp_trigger_plain; [apply (c_valid _ (proj1 Hu))|done|].
  apply HQ; [done|]. by apply (inner_trace true r _ (STrigger l 0 p)) in Hu.
Qed.

(** After [ResumeTlsReceive] a paused pump has much buffered. *)
Lemma wp_Resume r w : unpaused r w -> wp ResumeTlsReceive (fun _ => inner true r) w.
Proof.
  intros Hu. unfold ResumeTlsReceive. wp_step. wp_step.
  destruct (core_has_session _ (proj1 Hu) (proj1 (proj2 Hu))) as [s Hs]. cbn in Hs.
  rewrite Hs, bool_decide_eq_true_2 by eauto. cbn [negb]. rewrite orb_false_r. wp_step.
  - wp_step. destruct Hu as (Hc & Hu). split; [|exact Hu]. core_same Hc.
    intros Hp Hcl. rewrite Hp, Hcl, BufferedPlaintext_length in H. apply Z.ltb_lt. exact H.
  - wp_step. wp_step. wp_step. apply wp_trigger_plain; [apply (c_valid _ (proj1 Hu))|done|].
    wp_step; [done|]. by apply (inner_trace true r _ (STrigger FD_READ 0 false)) in Hu.
Qed.

(** What giving plaintext away does. *)
Lemma receive_core w n : core w -> buffered w <> [] ->
  core (set_m_bReceivePaused false (set_m_plaintextOffset (m_plaintextOffset w + length (take n (buffered w)))
    (set_s_trace (s_trace w ++ [SReceived (take n (buffered w))]) w))).
Proof.
  intros Hc Hne. assert (E : buffered w = take n (buffered w) ++ drop n (buffered w)) by by rewrite take_drop.
  assert (Hoff : drop (m_plaintextOffset w + length (take n (buffered w))) (m_plaintext w) = drop n (buffered w)).
  { rewrite <- drop_drop. change (drop (m_plaintextOffset w) (m_plaintext w)) with (buffered w).
    rewrite length_take. destruct (Nat.le_gt_cases n (length (buffered w))).
    - by rewrite Nat.min_l.
    - rewrite Nat.min_r, !drop_ge by lia. done. }
  assert (Hlen : (length (take n (buffered w)) <= length (m_plaintext w) - m_plaintextOffset w)%nat).
  { rewrite length_take. unfold buffered. rewrite length_drop. lia. }
  core_same Hc; unfold buffered at 1; cbn; rewrite ?Hoff;
    change (drop (m_plaintextOffset w) (m_plaintext w)) with (buffered w) in *.
  - lia.
  - by rewrite <- app_assoc, take_drop.
  - rewrite Hoff, length_drop. lia.
  - intros Hl. by destruct (c_unloaded0 Hl).
  - by intros.
Qed.

Lemma inner_eof r w : inner true r w -> inner true r (set_m_bPeerEofDelivered true w).
Proof. intros (Hc & H). split; [core_same Hc|exact H]. Qed.

Lemma unpaused_emptied w : core (set_m_bReceivePaused false w) -> m_hTransport w = true -> buffered w = [] ->
  unpaused (s_rx w) (set_m_plaintext [] (set_m_plaintextOffset 0 w)).
Proof.
  intros Hc Hl Hb. change (buffered (set_m_bReceivePaused false w) = []) in Hb.
  split_and!; [|done..|by intros _ _]. core_same Hc.
  - by rewrite Hb, app_nil_r in c_received0.
  - sizes. lia.
  - congruence.
  - by intros.
Qed.

Lemma wp_TlsReceive n w : okay w -> wp (TlsReceive n) (fun _ => okay) w.
Proof.
  intros Ho. unfold TlsReceive. wp_step.
  { wp_step. unfold set_error. repeat wp_step. by apply okay_lasterr. }
  do 3 wp_step. { wp_step. unfold set_error. repeat wp_step. by apply okay_lasterr. }
  apply negb_false_iff in H0. assert (Hl : m_hTransport w = true) by (apply (c_flags w (o_core w Ho)); auto).
  pose proof (inner_okay w Ho Hl (or_intror H0)) as Hi. wp_step.
  { wp_step; [do 3 wp_step; by eapply okay_inner, inner_eof|].
    wp_step. unfold set_error. repeat wp_step. by apply okay_lasterr. }
  apply Nat.leb_gt in H1. assert (Hne : buffered w <> []).
  { intros Hb%(f_equal length). unfold buffered in Hb. rewrite length_drop in Hb. simpl in Hb. lia. }
  wp_step. unfold trace. do 3 wp_step.
  set (data := take (Z.to_nat n) (buffered w)).
  set (w1 := set_m_plaintextOffset _ _). do 2 wp_step.
  assert (Hc1 : core (set_m_bReceivePaused false w1)) by exact (receive_core w (Z.to_nat n) (o_core w Ho) Hne).
  change (m_hTransport w1 = true) in Hl. change (m_bHandshakeReady w1 = true) in H0. clearbody w1.
  wp_step. apply (wp_mono _ (fun _ => unpaused (s_rx w1))).
  { wp_step.
    - apply Nat.eqb_eq in H2. do 2 wp_step.
      assert (Hu : unpaused (s_rx w1) (set_m_plaintext [] (set_m_plaintextOffset 0 w1))).
      { apply unpaused_emptied; [done..|]. unfold buffered. by rewrite H2, drop_all. }
      wp_step; [|done]. wp_step. eapply unpaused_trigger; [exact Hu|done|]. intros w2 _ Hu2. by wp_step.
    - wp_step. apply wp_trigger_plain; [apply (c_valid _ Hc1)|done|]. wp_step.
      split_and!; [by apply (core_trace _ (STrigger FD_READ 0 true)) in Hc1|done..|].
      intros _ _ _. split; [done|]. cbn. by rewrite told_snoc. }
  intros _ w2 Hu. wp_step. eapply wp_mono; [by apply wp_Resume|]. intros ? w3 Hi3. wp_step. exact (okay_inner _ _ Hi3).
Qed.
End Safety.
