(* ===== verification/SecureLayerEvents.v ===== *)
(** * The life of a secure layer

    Events, calls from above and the answers of the socket and of the loader in
    any order, from a new object; and what the layer then guarantees. *)

From S2P Require Import Prelude Winsock Effects ProxyLayer SecureLayer SecureLayerSafety.

Section Events.
Context {session : Type} {transport : Transport session} {laws : TransportLaws transport}.
Variable optional_modules : bool.
Abbreviation layer := (@tls_layer session).

(** The constructor, on a socket that is not connected yet. *)
Definition new_secure_layer : layer :=
  mkTls false None [] [] [] 0 [] 0 (replicate 32 0) false false false false false false false (-1) 0
    unconnected 0 true [] [] NoPath 0 [].

Inductive tls_step (w : layer) : layer -> Prop :=
  | T_answers r t a e : tls_step w (set_s_lasterr e (set_s_load a (set_s_tx t (set_s_rx r w))))
  | T_connecting : s_state w = unconnected -> tls_step w (set_s_state connecting w)
  | T_configure psk name : tls_step w (exec (Configure optional_modules psk name) w)
  | T_event l e : tls_step w (exec (TlsCallEvent optional_modules l e) w)
  | T_send data : tls_step w (exec (TlsSend data) w)
  | T_receive n : tls_step w (exec (TlsReceive n) w)
  | T_shutdown h : tls_step w (exec (TlsShutDown h) w)
  | T_close : tls_step w (exec TlsClose w).

Inductive tls_reachable : layer -> Prop :=
  | tls_new : tls_reachable new_secure_layer
  | tls_more w w' : tls_reachable w -> tls_step w w' -> tls_reachable w'.

(** Nothing was called without a session and no loop ran out of fuel; what was
    sent is what the session yielded, in order, and what is left is waiting, and
    the same for the plaintext; the buffer keeps to its limit. *)
Definition tls_orderly (w : layer) : Prop :=
  sane (s_trace w) = true /\
  sent_of (s_trace w) `prefix_of` drained_of (s_trace w) /\
  received_of (s_trace w) `prefix_of` plain_of (s_trace w) /\
  Z.of_nat (length (buffered w)) <= MAX_BUFFERED_DATA /\
  (s_state w <> notsock ->
     sent_of (s_trace w) ++ unsent w = drained_of (s_trace w) /\
     received_of (s_trace w) ++ buffered w = plain_of (s_trace w)).

(** After [Close]. *)
Record tls_gone (w : layer) : Prop := {
  g_flags : m_bHandshakeReady w = false /\ m_session w = None /\ s_state w = notsock;
  g_empty : buffered w = [];
  g_sane : sane (s_trace w) = true;
  g_sent : sent_of (s_trace w) `prefix_of` drained_of (s_trace w);
  g_received : received_of (s_trace w) `prefix_of` plain_of (s_trace w)
}.

Lemma gone_lasterr w v : tls_gone w -> tls_gone (set_s_lasterr v w).
Proof. intros []. by split. Qed.

Lemma okay_new : okay new_secure_layer.
Proof. split; [split; cbn; try done; try (by intros []); sizes; lia|done..]. Qed.

Lemma okay_closed w : okay w -> tls_gone (exec TlsClose w).
Proof.
  intros [[]].
  split; change (s_trace (exec TlsClose w)) with (s_trace w ++ [SClose]);
    rewrite ?sane_snoc, ?sent_snoc, ?drained_snoc, ?plain_snoc, ?received_snoc, ?app_nil_r.
  - done.
  - done.
  - by rewrite c_sane.
  - rewrite <- c_sent. by apply prefix_app_r.
  - rewrite <- c_received. by apply prefix_app_r.
Qed.

(** A closed layer does nothing but report errors. *)
Lemma gone_step w w' : tls_gone w -> tls_step w w' -> tls_gone w'.
Proof.
  intros Hg Hstep. pose proof Hg as [(Hr & Hs & Hst) Hb Hsane Hse Hre]. destruct Hstep.
  - by split.
  - congruence.
  - unfold exec, Configure, set_error. destruct (negb optional_modules); [by split|].
    destruct (bool_decide (psk = [])); by split.
  - apply wp_exec. unfold TlsCallEvent. do 3 wp_step; [by wp_step|]. wp_step. wp_step. wp_step. wp_step.
    cbn [s_state set_s_critical]. rewrite Hst, !bool_decide_eq_false_2 by done. cbn [when].
    repeat (wp_step || case_match); by split.
  - apply wp_exec. unfold TlsSend. do 2 wp_step. rewrite Hr. cbn. by apply gone_lasterr.
  - apply wp_exec. unfold TlsReceive. wp_step; [cbn; by apply gone_lasterr|]. do 2 wp_step. rewrite Hr. cbn.
    by apply gone_lasterr.
  - apply wp_exec. unfold TlsShutDown. do 2 wp_step. rewrite Hs, bool_decide_eq_false_2 by (by intros []).
    rewrite andb_false_r. unfold TlsShutDownNext. do 2 wp_step. unfold layer_error. rewrite Hst.
    destruct (negb (s_critical w =? 0)); cbn; by apply gone_lasterr.
  - split; change (s_trace (exec TlsClose w)) with (s_trace w ++ [SClose]);
      rewrite ?sane_snoc, ?sent_snoc, ?drained_snoc, ?plain_snoc, ?received_snoc, ?app_nil_r; try done.
    by rewrite Hsane.
Qed.

Lemma okay_step w w' : okay w -> tls_step w w' -> okay w' \/ tls_gone w'.
Proof.
  intros Ho Hstep. destruct Hstep; [left..|right].
  - destruct Ho as [Hc H1 H2 H3]. split; try done. by apply core_lasterr; destruct Hc; split.
  - destruct Ho as [Hc H1 H2 H3]. split; [by apply core_state|done| |done].
    intros. apply H2; [done..|]. cbn in *. congruence.
  - unfold exec, Configure, set_error. destruct (negb optional_modules); [by apply okay_lasterr|].
    destruct (bool_decide (psk = [])); [by apply okay_lasterr|].
    destruct Ho as [Hc H1 H2 H3]. split; try done. by destruct Hc; split.
  - apply wp_exec. by apply wp_TlsCallEvent.
  - apply wp_exec. by apply wp_TlsSend.
  - apply wp_exec. by apply wp_TlsReceive.
  - apply wp_exec. by apply wp_TlsShutDown.
  - by apply okay_closed.
Qed.

Lemma reachable_okay w : tls_reachable w -> okay w \/ tls_gone w.
Proof.
  induction 1 as [|w w' Hr [IH|IH] Hstep]; [left; apply okay_new|by eapply okay_step|right; by eapply gone_step].
Qed.

(** C5: Whatever the session, the socket, the loader and the layers around do. *)
Theorem tls_layer_orderly w : tls_reachable w -> tls_orderly w.
Proof.
  intros [[[]]|[(_ & _ & Hst) Hb]]%reachable_okay; unfold tls_orderly.
  - split_and!; [done| | |done|done].
    + rewrite <- c_sent. by apply prefix_app_r.
    + rewrite <- c_received. by apply prefix_app_r.
  - split_and!; [done..| |by rewrite Hst]. rewrite Hb. sizes. done.
Qed.

(** ** No wakeup is lost *)

(** The layer posts itself an FD_READ. *)
Definition reposted (w : layer) : Prop :=
  m_bReceivePaused w = false /\ last (s_trace w) = Some (STrigger FD_READ 0 false).

(** A pump that waits, with little enough buffered. *)
Definition relieved (w : layer) : Prop :=
  s_valid w = true /\ is_Some (m_session w) /\ m_bPeerReadClosed w = false /\ m_bReceivePaused w = true /\
  Z.of_nat (length (buffered w)) <= PLAINTEXT_LOW_WATER.

Lemma wp_Resume_posts w : relieved w -> wp ResumeTlsReceive (fun _ => reposted) w.
Proof.
  intros (Hv & Hs & Hcl & Hp & Hb). unfold ResumeTlsReceive. do 2 wp_step. rewrite Hp, Hcl, BufferedPlaintext_length.
  rewrite bool_decide_eq_true_2 by done. rewrite (proj2 (Z.ltb_ge _ _) Hb). cbn [negb orb].
  do 3 wp_step. apply wp_trigger_plain; [done|done|]. cbn. split; [done|]. cbn. by rewrite last_snoc.
Qed.

Lemma wp_TlsReceive_posts n w : s_valid w = true -> is_Some (m_session w) -> m_bHandshakeReady w = true ->
  m_bPeerReadClosed w = false -> m_bReceivePaused w = true -> 0 <= n -> buffered w <> [] ->
  Z.of_nat (length (buffered w)) - n <= PLAINTEXT_LOW_WATER ->
  wp (TlsReceive n) (fun _ => reposted) w.
Proof.
  intros Hv Hs Hr Hcl Hp Hn Hne Hlen. unfold TlsReceive. wp_step; [apply Z.ltb_lt in H; lia|].
  do 2 wp_step. rewrite Hr. cbn [negb]. wp_step.
  { apply Nat.leb_le in H0. destruct Hne. unfold buffered. by apply drop_ge. }
  apply Nat.leb_gt in H0. wp_step. unfold trace. do 3 wp_step. do 2 wp_step. wp_step.
  apply (wp_mono _ (fun _ => relieved)).
  { wp_step.
    - do 2 wp_step. wp_step; [|split_and!; cbn; try done; sizes; lia].
      cbn in H2. rewrite Hcl in H2. done.
    - wp_step. apply wp_trigger_plain; [done|done|]. wp_step. split_and!; try done.
      unfold buffered at 1. cbn. rewrite <- drop_drop.
      change (drop (m_plaintextOffset w) (m_plaintext w)) with (buffered w).
      rewrite length_drop, length_take. sizes; lia. }
  intros _ w2 Hw2. wp_step. eapply wp_mono; [by apply wp_Resume_posts|]. intros ? ? ?. by wp_step.
Qed.

(** C6: The layer above has been told of the plaintext that waits for it; a pump
    that paused has more than the low-water mark of it, and the read that brings
    it down to the mark restarts the pump. *)
Theorem tls_no_lost_wakeup w n : tls_reachable w ->
  s_critical w = 0 -> m_bHandshakeReady w = true -> buffered w <> [] ->
  told_to_read (s_trace w) = true /\
  (m_bReceivePaused w = true -> m_bPeerReadClosed w = false ->
     PLAINTEXT_LOW_WATER < Z.of_nat (length (buffered w)) /\
     (Z.of_nat (length (buffered w)) - n <= PLAINTEXT_LOW_WATER -> reposted (exec (TlsReceive n) w))).
Proof.
  intros Hw Hcr Hr Hb. apply reachable_okay in Hw as [Ho|[(Hr' & _) _]]; [|congruence].
  split; [by apply (o_told w Ho)|]. intros Hp Hcl. pose proof (c_paused w (o_core w Ho) Hp Hcl) as Hlow.
  split; [done|]. intros Hn. apply wp_exec. apply wp_TlsReceive_posts; try done; [apply (c_valid w (o_core w Ho))| |lia].
  apply (c_loaded w (o_core w Ho)), (c_flags w (o_core w Ho)). auto.
Qed.

(** ** A FIN behind data *)

(** Nothing has tls_gone wrong, and nothing was announced. *)
Definition calm (w : layer) : Prop :=
  told_to_read (s_trace w) = false /\ s_state w = connected /\ s_critical w = 0.

Ltac calm_step :=
  first [keeps_step
        | apply keeps_modify; let w := fresh in let H := fresh in intros w H;
          first [exact H | unfold calm in *; cbn; rewrite told_snoc; exact H]
        | let w := fresh in let H := fresh in intros w H; unfold exec, raw_send, raw_recv, with_session, calm in *;
          repeat case_match; simplify_eq; cbn; rewrite ?told_snoc; exact H].

Lemma calm_connect : keeps calm (TlsTriggerEvent FD_CONNECT 0 true).
Proof.
  intros w (H1 & H2 & H3). apply wp_exec. unfold TlsTriggerEvent. do 3 wp_step; [by wp_step|].
  change (Z.land FD_CONNECT FD_CONNECT =? 0) with false. cbn [negb Z.eqb when]. unfold trace. repeat wp_step.
  split_and!; cbn; [by rewrite told_snoc, H1|done..].
Qed.

Lemma calm_send_pending n : keeps calm (send_records n).
Proof. induction n as [|n IH]; simpl; unfold TlsSendNext, set_error, last_error, trace; repeat (apply IH || calm_step). Qed.

Lemma calm_flush n : keeps calm (flush n).
Proof. induction n as [|n IH]; simpl; unfold set_error, trace; repeat (apply IH || apply calm_send_pending || calm_step). Qed.

Lemma calm_drain n : keeps calm (drain n).
Proof. induction n as [|n IH]; simpl; unfold set_error, trace; repeat (apply IH || calm_step). Qed.

Lemma calm_settle : keeps calm settle.
Proof.
  unfold settle, FlushTls, DrainPlaintext, FinishHandshake, set_error.
  repeat (apply calm_flush || apply calm_drain || apply calm_connect || calm_step).
Qed.

Lemma calm_feed n chunk : keeps calm (feed settle n chunk).
Proof.
  revert chunk. induction n as [|n IH]; intros [|x chunk]; simpl; unfold set_error, trace;
    repeat (apply IH || apply calm_settle || calm_step).
Qed.

Lemma calm_error (w : layer) : calm w -> layer_error w = None.
Proof. intros (_ & Hs & Hc). unfold layer_error. by rewrite Hs, Hc. Qed.

Definition pump_post (a : bool) (w : layer) : Prop :=
  within w /\ calm w /\ (a = true -> m_bReceivePaused w = true).

Lemma wp_pump_fin n w r : within w -> calm w -> s_rx w = RxEof :: r -> (0 < n)%nat -> wp (pump_loop n) pump_post w.
Proof.
  intros [Hc Hl] Hcalm Hrx Hn. destruct n as [|n]; [lia|]. simpl. wp_step. unfold TlsReceiveNext. do 2 wp_step.
  rewrite (calm_error w Hcalm). unfold wp at 1, raw_recv. rewrite Hrx. cbn.
  split_and!; [by apply within_lasterr|done..].
Qed.

Lemma wp_pump_data n w d r : within w -> ready_for w -> calm w -> s_rx w = RxData d :: RxEof :: r -> d <> [] ->
  Z.of_nat (length d) <= TLS_CHUNK -> (1 < n)%nat -> wp (pump_loop n) pump_post w.
Proof.
  intros Hw Hr Hcalm Hrx Hd Hlen Hn. destruct n as [|n]; [lia|]. simpl. wp_step. unfold TlsReceiveNext. do 2 wp_step.
  rewrite (calm_error w Hcalm). unfold wp at 1, raw_recv. rewrite Hrx.
  rewrite take_ge, drop_ge by lia. wp_step.
  { apply Z.eqb_eq in H. unfold SOCKET_ERROR in H. lia. }
  wp_step. { destruct d; [done|]. apply Z.eqb_eq in H0. simpl in H0. lia. }
  wp_step. eapply wp_mono.
  { apply wp_and.
    - apply (wp_feed ready_for settle (RxEof :: r)); [intros; by apply wp_settle| |by intros|done].
      apply (inner_rx (s_rx w)). by apply within_inner.
    - apply (wp_keeping calm _ (fun _ => calm)); [apply calm_feed|exact Hcalm|auto]. }
  intros a w2 [[Hi2 Hr2] Hcalm2]. wp_step.
  { wp_step. by split_and!; [eapply inner_within|..]. }
  apply negb_false_iff in H1. do 3 wp_step; [wp_step; by split_and!; [eapply inner_within|..]|].
  apply (wp_pump_fin _ _ r); [by eapply inner_within|done|apply Hi2|lia].
Qed.

Lemma wp_PumpTls_fin w d r : within w -> calm w -> s_rx w = RxData d :: RxEof :: r -> d <> [] ->
  Z.of_nat (length d) <= TLS_CHUNK -> wp PumpTls pump_post w.
Proof.
  intros Hw Hcalm Hrx Hd Hlen. unfold PumpTls. wp_step. eapply wp_mono.
  { apply wp_and; [apply (wp_settle (s_rx w)); by apply within_inner|].
    apply (wp_keeping calm _ (fun _ => calm)); [apply calm_settle|exact Hcalm|auto]. }
  intros a w1 [[Hi1 Hr1] Hcalm1]. wp_step.
  { wp_step. by split_and!; [eapply inner_within|..]. }
  apply negb_false_iff in H. do 3 wp_step; [wp_step; by split_and!; [eapply inner_within|..]|].
  do 2 wp_step. assert (Hrx1 : s_rx w1 = RxData d :: RxEof :: r) by (destruct Hi1 as (_ & _ & -> & _); done).
  apply (wp_pump_data _ _ d r); try done; [by eapply inner_within|auto|]. rewrite Hrx1. simpl. lia.
Qed.

(** Closed on an error, with nothing announced. *)
Definition aborted_unread (w : layer) : Prop :=
  s_state w = aborted /\ s_critical w <> 0 /\ told_to_read (s_trace w) = false.

Lemma wp_trigger_unread l e w (Q : bool -> layer -> Prop) : s_valid w = true -> told_to_read (s_trace w) = false ->
  e <> 0 -> (l = FD_CONNECT \/ l = FD_CLOSE) -> (forall w', aborted_unread w' -> Q true w') ->
  wp (TlsTriggerEvent l e true) Q w.
Proof.
  intros Hv Ht He Hl HQ. unfold TlsTriggerEvent. do 2 wp_step. rewrite Hv. cbn [negb].
  apply Z.eqb_neq in He as He'. rewrite He'. unfold trace.
  destruct Hl as [-> | ->]; cbn; repeat wp_step; apply HQ; split_and!; cbn; try done; by rewrite told_snoc, Ht.
Qed.

Lemma wp_ReportFailure_unread w : s_valid w = true -> told_to_read (s_trace w) = false ->
  wp TlsReportFailure (fun _ => aborted_unread) w.
Proof.
  intros Hv Ht. unfold TlsReportFailure, last_error, set_error. repeat wp_step.
  - apply wp_trigger_unread; [done|done|repeat case_match; done|by left|]. intros w' Hw'. by wp_step.
  - apply wp_trigger_unread; [done|done|done|by right|]. intros w' Hw'. by wp_step.
Qed.

(** C7: recv returning 0 behind data is taken for a reset: the connection is closed
    on an error, the layer above is not told of the data before it, and every
    later event of the layer is dropped. *)
Theorem fin_behind_data_aborts w d r : tls_reachable w -> calm w ->
  s_rx w = RxData d :: RxEof :: r -> d <> [] -> Z.of_nat (length d) <= TLS_CHUNK ->
  let w' := exec (TlsCallEvent optional_modules FD_READ 0) w in
  m_bReceivePaused w' = true \/
  (aborted_unread w' /\ forall l e, exec (TlsCallEvent optional_modules l e) w' = w').
Proof.
  intros Hw Hcalm Hrx Hd Hlen w'. pose proof Hcalm as (Ht & Hst & Hcr).
  apply reachable_okay in Hw as [[Hc Hs _ _]|[(_ & _ & ?) _]]; [|congruence].
  assert (H : m_bReceivePaused w' = true \/ aborted_unread w').
  { apply wp_exec. unfold TlsCallEvent. do 2 wp_step. rewrite Hcr. cbn [negb Z.eqb]. do 4 wp_step.
    change ((FD_READ =? FD_READ) || _) with true. cbn [s_state set_s_critical].
    rewrite bool_decide_eq_true_2 by done. cbn [when]. wp_step. wp_step. unfold TlsOnReceive. wp_step.
    cbn [Z.eqb negb]. eapply wp_mono.
    { apply (wp_PumpTls_fin _ d r); [split; [by apply core_critical|by apply Hs]|by split_and!|done..]. }
    intros ok w1 (Hw1 & Hcalm1 & Hp). wp_step.
    - wp_step. cbn [when]. apply wp_ret. eapply wp_mono; [apply wp_ReportFailure_unread|auto].
      + apply (c_valid w1 (proj1 Hw1)).
      + apply Hcalm1.
    - apply negb_false_iff in H. specialize (Hp H). do 3 wp_step; [|by left]. wp_step.
      apply wp_trigger_plain; [apply (c_valid w1 (proj1 Hw1))|done|]. wp_step. by left. }
  destruct H as [H|H]; [by left|right]. split; [done|]. intros l e. destruct H as (_ & Hcr' & _).
  apply (wp_exec (TlsCallEvent optional_modules l e) (fun v => v = w') w'). unfold TlsCallEvent. do 2 wp_step. rewrite (proj2 (Z.eqb_neq _ _) Hcr'). by cbn.
Qed.
End Events.

(** ** A transport to run it with

    The first byte from the peer completes the handshake; the rest is sent in
    the clear. *)
Module Clear.

Record clear := mkClear { up : bool; outq : bytes; inq : bytes }.

Definition clear_feed (s : clear) (data : bytes) : (Z * Z) * clear :=
  if up s then ((PLST_OK, Z.of_nat (length data)), mkClear true (outq s) (inq s ++ data))
  else ((PLST_OK, 1 `min` Z.of_nat (length data)), mkClear true (outq s) (inq s)).

Definition clear_read (s : clear) (cap : Z) : (Z * bytes) * clear :=
  if up s && negb (bool_decide (inq s = []))
  then ((PLST_OK, take (Z.to_nat cap) (inq s)), mkClear true (outq s) (drop (Z.to_nat cap) (inq s)))
  else ((PLST_WOULD_BLOCK, []), s).

#[export] Instance clear_transport : Transport clear := {
  session_create psk name := Some (mkClear false psk []);
  session_is_ready s := if up s then 1 else 0;
  session_feed_tls := clear_feed;
  session_drain_tls s cap := ((PLST_OK, take (Z.to_nat cap) (outq s)), mkClear (up s) (drop (Z.to_nat cap) (outq s)) (inq s));
  session_write_plain s data := ((PLST_OK, Z.of_nat (length data)), mkClear (up s) (outq s ++ data) (inq s));
  session_read_plain := clear_read;
  session_close_notify s := (PLST_OK, mkClear (up s) (outq s ++ [0]) (inq s));
  session_export_key s := (PLST_OK, replicate 32 1);
  udp_encrypt key data cap := (PLST_OK, data);
  udp_decrypt key data cap := (PLST_OK, data)
}.

#[export] Instance clear_laws : TransportLaws clear_transport.
Proof.
  split; cbn.
  - intros s data _. unfold clear_feed. destruct (up s); cbn; lia.
  - intros s cap. unfold clear_read. destruct (_ && _); cbn; rewrite ?length_take; lia.
  - intros s cap. unfold clear_read. destruct (_ && _); cbn; [lia|done].
  - intros s cap Hs. unfold clear_read. destruct (_ && _); cbn; [lia|done].
  - intros s cap Hs. done.
  - intros s data Hs. unfold clear_feed. by destruct (up s).
  - done.
  - done.
Qed.

(** Connected, the handshake done with what the peer sent. *)
Definition connecting_layer (r : list rx_event) : tls_layer (session := clear) :=
  set_s_state connecting
    (exec (Configure true [9] [])
       (set_s_lasterr 0 (set_s_load Loads (set_s_tx [TxAccept 1; TxAccept 100] (set_s_rx r new_secure_layer))))).
Definition shaking (r : list rx_event) := exec (TlsCallEvent true FD_CONNECT 0) (connecting_layer r).
Definition opened (r : list rx_event) := exec (TlsCallEvent true FD_READ 0) (shaking r).

Lemma shaking_reachable r : tls_reachable true (shaking r).
Proof.
  eapply tls_more; [|apply T_event]. eapply tls_more; [|by apply T_connecting].
  eapply tls_more; [|apply T_configure]. eapply tls_more; [apply tls_new|apply T_answers].
Qed.

Lemma opened_reachable r : tls_reachable true (opened r).
Proof. eapply tls_more; [apply shaking_reachable|apply T_event]. Qed.

Lemma tls_layer_orderly_witness :
  let w := exec (TlsReceive 1) (opened [RxData [1; 2; 3]]) in
  received_of (s_trace w) = [2] /\ sent_of (s_trace w) = [9] /\ tls_orderly w.
Proof.
  intros w. split; [vm_compute; reflexivity|]. split; [vm_compute; reflexivity|].
  apply (tls_layer_orderly true). eapply tls_more; [apply opened_reachable|apply T_receive].
Defined.

Lemma tls_no_lost_wakeup_witness :
  told_to_read (s_trace (opened [RxData [1; 2; 3]])) = true.
Proof.
  apply (tls_no_lost_wakeup true (opened [RxData [1; 2; 3]]) 1).
  - apply opened_reachable.
  - vm_compute. reflexivity.
  - vm_compute. reflexivity.
  - vm_compute. discriminate.
Defined.

Lemma fin_behind_data_aborts_witness :
  let w' := exec (TlsCallEvent true FD_READ 0) (shaking [RxData [1; 2; 3]; RxEof]) in
  (buffered w' = [2; 3] /\ m_bReceivePaused w' = false) /\
  (m_bReceivePaused w' = true \/
   (aborted_unread w' /\ forall l e, exec (TlsCallEvent true l e) w' = w')).
Proof.
  intros w'. split; [split; vm_compute; reflexivity|].
  refine (fin_behind_data_aborts true (shaking [RxData [1; 2; 3]; RxEof]) [1; 2; 3] [] _ _ _ _ _).
  - apply shaking_reachable.
  - split; [vm_compute; reflexivity|]. split; vm_compute; reflexivity.
  - vm_compute. reflexivity.
  - discriminate.
  - vm_compute. discriminate.
Defined.

End Clear.
