(* ===== verification/HelperWindow.v ===== *)
(** * Sockets and their helper window (AsyncSocketEx.cpp)

    All sockets of a thread share a window.  Winsock posts it a message whose
    number names a slot of the window's table, the layers post it triggers that
    carry the socket's address, and its procedure dispatches them.

    Objects are addresses in a store, so that a message that outlives its socket
    is a message here too; reading an object that is gone is the event [DDead].
    Messages and attachments carry a ghost serial number, which nothing reads. *)

From S2P Require Import Prelude Winsock Effects ProxyLayer.

Definition INVALID_SOCKET : Z := 18446744073709551615.
Definition WM_SOCKETEX_TRIGGER : Z := 1281.
Definition WM_SOCKETEX_GETHOST : Z := 1282.
Definition WM_SOCKETEX_NOTIFY : Z := 1283.
Definition MAX_SOCKETS : nat := Z.to_nat 47869.
Definition ALL_EVENTS : Z := FD_READ + FD_WRITE + FD_OOB + FD_ACCEPT + FD_CONNECT + FD_CLOSE.

(** An object of class CAsyncSocketEx; layers are named by their addresses,
    the first one first. *)
Record t_socket := mkSocket {
  hSocket : Z;
  nSocketIndex : Z;
  m_lEvent : Z;
  chain : list nat;
  m_pAsyncGetHostByNameBuffer : bool;
  m_hAsyncGetHostByNameHandle : Z;
  m_nAsyncGetHostByNamePort : Z;
  serial : nat
}.

Inductive message :=
  | WmNotify (index hSocket lParam : Z) (by_ : nat)
  | WmTrigger (socket : nat) (index lEvent : Z) (pLayer : option nat) (by_ : nat)
  | WmGetHost (wParam lParam : Z).

Inductive dispatched :=
  | DLayer (l : nat) (nEvent nErrorCode : Z) (by_ : nat)       (* CallEvent *)
  | DSocket (p : nat) (nEvent nErrorCode : Z) (by_ : nat)      (* OnReceive and so on *)
  | DResolved (p : nat) (port nErrorCode : Z)                  (* OnConnect, or ConnectRaw when 0 *)
  | DStray (l : nat)                                           (* CallEvent of a layer no socket has *)
  | DDead (p : nat)                                            (* an object that is gone *)
  | DNull | DOutside.

Record window := mkWindow {
  sockets : gmap nat t_socket;
  table : list (option nat);           (* m_pAsyncSocketExWindowData *)
  m_nWindowDataPos : nat;
  m_nSocketCount : nat;
  queue : list message;
  selected : gmap Z (Z * nat);         (* of Winsock: the slot a handle is selected for *)
  next_serial : nat;
  dispatches : list dispatched
}.

Definition set_sockets (v : gmap nat t_socket) (w : window) : window :=
  mkWindow v (table w) (m_nWindowDataPos w) (m_nSocketCount w) (queue w) (selected w) (next_serial w) (dispatches w).
Definition set_table (v : list (option nat)) (w : window) : window :=
  mkWindow (sockets w) v (m_nWindowDataPos w) (m_nSocketCount w) (queue w) (selected w) (next_serial w) (dispatches w).
Definition set_pos (v : nat) (w : window) : window :=
  mkWindow (sockets w) (table w) v (m_nSocketCount w) (queue w) (selected w) (next_serial w) (dispatches w).
Definition set_count (v : nat) (w : window) : window :=
  mkWindow (sockets w) (table w) (m_nWindowDataPos w) v (queue w) (selected w) (next_serial w) (dispatches w).
Definition set_queue (v : list message) (w : window) : window :=
  mkWindow (sockets w) (table w) (m_nWindowDataPos w) (m_nSocketCount w) v (selected w) (next_serial w) (dispatches w).
Definition set_selected (v : gmap Z (Z * nat)) (w : window) : window :=
  mkWindow (sockets w) (table w) (m_nWindowDataPos w) (m_nSocketCount w) (queue w) v (next_serial w) (dispatches w).
Definition set_next_serial (v : nat) (w : window) : window :=
  mkWindow (sockets w) (table w) (m_nWindowDataPos w) (m_nSocketCount w) (queue w) (selected w) v (dispatches w).
Definition set_dispatches (v : list dispatched) (w : window) : window :=
  mkWindow (sockets w) (table w) (m_nWindowDataPos w) (m_nSocketCount w) (queue w) (selected w) (next_serial w) v.

Definition with_handle (h : Z) (o : t_socket) : t_socket :=
  mkSocket h (nSocketIndex o) (m_lEvent o) (chain o) (m_pAsyncGetHostByNameBuffer o)
    (m_hAsyncGetHostByNameHandle o) (m_nAsyncGetHostByNamePort o) (serial o).
Definition with_slot (i : Z) (s : nat) (o : t_socket) : t_socket :=
  mkSocket (hSocket o) i (m_lEvent o) (chain o) (m_pAsyncGetHostByNameBuffer o)
    (m_hAsyncGetHostByNameHandle o) (m_nAsyncGetHostByNamePort o) s.
Definition with_events (e : Z) (o : t_socket) : t_socket :=
  mkSocket (hSocket o) (nSocketIndex o) e (chain o) (m_pAsyncGetHostByNameBuffer o)
    (m_hAsyncGetHostByNameHandle o) (m_nAsyncGetHostByNamePort o) (serial o).
Definition with_chain (c : list nat) (o : t_socket) : t_socket :=
  mkSocket (hSocket o) (nSocketIndex o) (m_lEvent o) c (m_pAsyncGetHostByNameBuffer o)
    (m_hAsyncGetHostByNameHandle o) (m_nAsyncGetHostByNamePort o) (serial o).
Definition with_lookup (b : bool) (h port : Z) (o : t_socket) : t_socket :=
  mkSocket (hSocket o) (nSocketIndex o) (m_lEvent o) (chain o) b h port (serial o).

Definition MW := M window.

Definition emit (d : dispatched) : MW unit := modify (fun w => set_dispatches (dispatches w ++ [d]) w).

(** Reading and writing an object. *)
Definition read (p : nat) : MW (option t_socket) :=
  o ← gets (fun w => sockets w !! p);
  match o with
  | Some o => mret (Some o)
  | None => emit (DDead p);; mret None
  end.
Definition write (p : nat) (f : t_socket -> t_socket) : MW unit :=
  modify (fun w => set_sockets (alter f p (sockets w)) w).

(** ** The table *)

(** The array is as long as it was allocated. *)
Definition m_nWindowDataSize (w : window) : nat := length (table w).

Definition slot (t : list (option nat)) (i : nat) : option nat := default None (t !! i).

(** The search of [AddSocket]: [n] slots from [i] on, around the end. *)
Fixpoint find_slot (t : list (option nat)) (i n : nat) : option nat :=
  match n with
  | O => None
  | S n =>
      match slot t (i mod length t) with
      | None => Some (i mod length t)%nat
      | Some _ => find_slot t (S i) n
      end
  end.

Definition grow (w : window) : window :=
  if (m_nSocketCount w <? m_nWindowDataSize w - 10)%nat then w
  else set_table (table w ++ replicate (Nat.min (m_nWindowDataSize w + 512) MAX_SOCKETS - m_nWindowDataSize w) None) w.

(** Of a socket whose index is [nSocketIndex]; the result and the index. *)
Definition AddSocket (pSocket : nat) (nSocketIndex : Z) : MW (bool * Z) :=
  if negb (nSocketIndex =? -1) then mret (true, nSocketIndex)
  else
    modify grow;;
    w ← gets (fun w => w);
    match find_slot (table w) (m_nWindowDataPos w) (m_nWindowDataSize w) with
    | Some i =>
        modify (set_table (<[i := Some pSocket]> (table w)));;
        modify (set_pos (S i mod m_nWindowDataSize w));;
        modify (set_count (S (m_nSocketCount w)));;
        mret (true, Z.of_nat i)
    | None => mret (false, nSocketIndex)
    end.

Definition RemoveSocket (nSocketIndex : Z) : MW (bool * Z) :=
  if nSocketIndex =? -1 then mret (true, -1)
  else
    modify (fun w => set_table (<[Z.to_nat nSocketIndex := None]> (table w)) w);;
    modify (fun w => set_count (m_nSocketCount w - 1) w);;
    mret (true, -1).

(** The C remainder: a negative index is outside the array. *)
Definition IsSocketValid (Index : Z) (pSocket : nat) : MW bool :=
  w ← gets (fun w => w);
  let i := Z.rem Index (Z.of_nat (m_nWindowDataSize w)) in
  if i <? 0 then emit DOutside;; mret false
  else mret (bool_decide (slot (table w) (Z.to_nat i) = Some pSocket)).

(** ** Sockets *)

Definition new_socket : t_socket := mkSocket INVALID_SOCKET (-1) 0 [] false 0 0 0.

Definition AttachHandle (p : nat) : MW unit :=
  o ← read p;
  match o with
  | None => mret tt
  | Some o =>
      r ← AddSocket p (nSocketIndex o);
      let '(_, i) := r in
      n ← gets next_serial;
      if i =? nSocketIndex o then mret tt
      else write p (with_slot i n);; modify (set_next_serial (S n))
  end.

Definition DetachHandle (p : nat) : MW unit :=
  o ← read p;
  match o with
  | None => mret tt
  | Some o =>
      r ← RemoveSocket (nSocketIndex o);
      let '(_, i) := r in write p (fun o => with_slot i (serial o) o)
  end.

(** WSAAsyncSelect, which succeeds or not; events 0 end the selection. *)
Definition WSAAsyncSelect (h index : Z) (by_ : nat) (lEvent : Z) (succeeds : bool) : MW bool :=
  when succeeds
    (modify (fun w => set_selected (if lEvent =? 0 then delete h (selected w)
                                    else <[h := (index, by_)]> (selected w)) w));;
  mret succeeds.

Definition SockAsyncSelect (p : nat) (lEvent : Z) (succeeds : bool) : MW bool :=
  write p (with_events lEvent);;
  o ← read p;
  match o with
  | Some o =>
      if bool_decide (chain o = []) then WSAAsyncSelect (hSocket o) (nSocketIndex o) (serial o) lEvent succeeds
      else mret true
  | None => mret false
  end.

Definition RemoveAllLayers (p : nat) : MW unit := write p (with_chain []).

Definition SockClose (p : nat) : MW unit :=
  o ← read p;
  match o with
  | None => mret tt
  | Some o =>
      when (negb (hSocket o =? INVALID_SOCKET))
        (modify (fun w => set_selected (delete (hSocket o) (selected w)) w);;
         DetachHandle p;;
         write p (with_handle INVALID_SOCKET));;
      RemoveAllLayers p;;
      write p (fun o => with_lookup false 0 (m_nAsyncGetHostByNamePort o) o)
  end.

(** The destructor, and the end of the object. *)
Definition DeleteSocket (p : nat) : MW unit :=
  SockClose p;; modify (fun w => set_sockets (delete p (sockets w)) w).

Definition SockAttach (p : nat) (h lEvent : Z) (succeeds : bool) : MW bool :=
  if (h =? INVALID_SOCKET) || (h =? 0) then mret false
  else
    write p (with_handle h);;
    AttachHandle p;;
    SockAsyncSelect p lEvent succeeds.

Definition SockDetach (p : nat) : MW Z :=
  o ← read p;
  match o with
  | None => mret INVALID_SOCKET
  | Some o => DetachHandle p;; write p (with_handle INVALID_SOCKET);; mret (hSocket o)
  end.

(** [Create], down to the lowest layer's [CreateNext]: what socket, the two
    selections and bind answer. *)
Definition SockCreate (p : nat) (h lEvent : Z) (selects selects_all binds : bool) : MW bool :=
  o ← read p;
  match o with
  | None => mret false
  | Some o =>
      if negb (hSocket o =? INVALID_SOCKET) then mret false
      else if h =? INVALID_SOCKET then mret false
      else
        write p (with_handle h);;
        AttachHandle p;;
        a ← SockAsyncSelect p lEvent selects;
        if negb a then SockClose p;; mret false
        else
          o ← read p;
          b ← match o with
              | Some o =>
                  if bool_decide (chain o = []) then mret true
                  else WSAAsyncSelect (hSocket o) (nSocketIndex o) (serial o) ALL_EVENTS selects_all
              | None => mret false
              end;
          if negb b then SockClose p;; mret false
          else if negb binds then SockClose p;; mret false
          else mret true
  end.

Definition SockAddLayer (p l : nat) : MW bool :=
  o ← read p;
  match o with
  | Some o =>
      if negb (hSocket o =? INVALID_SOCKET) then mret false
      else write p (fun o => with_chain (chain o ++ [l]) o);; mret true
  | None => mret false
  end.

(** ** Messages *)

Definition post (m : message) (succeeds : bool) : MW bool :=
  when succeeds (modify (fun w => set_queue (queue w ++ [m]) w));; mret succeeds.

(** A message of number [WM_SOCKETEX_NOTIFY + index]. *)
Definition notify (index h lParam : Z) (by_ : nat) : message :=
  if index =? -1 then WmGetHost h lParam else WmNotify index h lParam by_.

Definition LOWORD (z : Z) : Z := z mod 65536.
Definition MAKELONG (low high : Z) : Z := s32 (LOWORD low + 65536 * LOWORD high).

Definition SockTriggerEvent (p : nat) (lEvent nErrorCode : Z) (succeeds : bool) : MW bool :=
  o ← read p;
  match o with
  | Some o =>
      if hSocket o =? INVALID_SOCKET then mret false
      else if negb (bool_decide (chain o = [])) then
        post (WmTrigger p (nSocketIndex o) (MAKELONG lEvent nErrorCode) None (serial o)) succeeds
      else post (notify (nSocketIndex o) (hSocket o) (LOWORD lEvent) (serial o)) succeeds
  | None => mret false
  end.

(** The layer before [l], which is the one nearer to the application. *)
Fixpoint layer_before (l : nat) (prev : option nat) (c : list nat) : option nat :=
  match c with
  | [] => None
  | x :: c => if bool_decide (x = l) then prev else layer_before l (Some x) c
  end.

(** [TriggerEvent] of a layer of [p]: the message. *)
Definition LayerTrigger (p l : nat) (lEvent nErrorCode : Z) (bPassThrough succeeds : bool) : MW bool :=
  o ← read p;
  match o with
  | Some o =>
      if hSocket o =? INVALID_SOCKET then mret false
      else
        post (WmTrigger p (nSocketIndex o) (s32 (LOWORD lEvent + 65536 * nErrorCode))
                (if bPassThrough then layer_before l None (chain o) else Some l) (serial o)) succeeds
  | None => mret false
  end.

(** [ConnectRawByName] of a name that is not an address: the handle of the lookup. *)
Definition ConnectRawByName (p : nat) (nHostPort hLookup : Z) : MW bool :=
  o ← read p;
  match o with
  | Some o => write p (with_lookup true hLookup nHostPort);; mret (negb (hLookup =? 0))
  | None => mret false
  end.

(** ** The window procedure *)

Definition known_event (e : Z) : bool :=
  (e =? FD_READ) || (e =? FD_FORCEREAD) || (e =? FD_WRITE) || (e =? FD_CONNECT) || (e =? FD_ACCEPT) || (e =? FD_CLOSE).

(** The lookup that ended: the first socket that waits for it. *)
Fixpoint waiting_for (w : window) (h : Z) (t : list (option nat)) : option nat :=
  match t with
  | [] => None
  | Some p :: t =>
      match sockets w !! p with
      | Some o => if negb (m_hAsyncGetHostByNameHandle o =? 0) && (m_hAsyncGetHostByNameHandle o =? h)
                  then Some p else waiting_for w h t
      | None => Some p
      end
  | None :: t => waiting_for w h t
  end.

Definition on_notify (index h lParam : Z) (by_ : nat) : MW unit :=
  w ← gets (fun w => w);
  if Z.of_nat (m_nWindowDataSize w) <=? index then mret tt
  else
    match slot (table w) (Z.to_nat index) with
    | None => mret tt
    | Some p =>
        if h =? INVALID_SOCKET then mret tt
        else
          o ← read p;
          match o with
          | None => mret tt
          | Some o =>
              if negb (hSocket o =? h) then mret tt
              else
                let nEvent := LOWORD lParam in
                let nErrorCode := Z.shiftr lParam 16 in
                match last (chain o) with
                | None => when (known_event nEvent) (emit (DSocket p nEvent nErrorCode by_))
                | Some l => emit (DLayer l nEvent nErrorCode by_)
                end
          end
    end.

(** A message may outlive the layer it names, whose memory is then free. *)
Definition layer_owned (w : window) (l : nat) : bool :=
  existsb (fun '(_, o) => bool_decide (l ∈ chain o)) (map_to_list (sockets w)).

Definition on_trigger (p : nat) (index lEvent : Z) (pLayer : option nat) (by_ : nat) : MW unit :=
  valid ← IsSocketValid index p;
  if negb valid then mret tt
  else
    o ← read p;
    match o with
    | None => mret tt
    | Some o =>
        if hSocket o =? INVALID_SOCKET then mret tt
        else
          let nEvent := LOWORD lEvent in
          let nErrorCode := Z.shiftr lEvent 16 in
          match pLayer with
          | Some l =>
              owned ← gets (fun w => layer_owned w l);
              emit (if (owned : bool) then DLayer l nEvent nErrorCode by_ else DStray l)
          | None =>
              when (known_event nEvent && negb (Z.land (m_lEvent o) nEvent =? 0))
                (emit (DSocket p nEvent nErrorCode by_))
          end
    end.

(** [connects] is what [ConnectRaw] of the address found answers: 0, or the
    error of the call. *)
Definition on_gethost (h lParam : Z) (resolved : bool) (connects : Z) : MW unit :=
  w ← gets (fun w => w);
  match waiting_for w h (table w) with
  | None => mret tt
  | Some p =>
      o ← read p;
      match o with
      | None => mret tt
      | Some o =>
          let nErrorCode := Z.shiftr lParam 16 in
          if negb (nErrorCode =? 0) then emit (DResolved p (m_nAsyncGetHostByNamePort o) nErrorCode)
          else
            if negb (m_pAsyncGetHostByNameBuffer o) then emit DNull
            else if negb resolved then mret tt
            else
              emit (DResolved p (m_nAsyncGetHostByNamePort o) 0);;
              write p (fun o => with_lookup false 0 (m_nAsyncGetHostByNamePort o) o);;
              when (negb (connects =? 0) && negb (connects =? WSAEWOULDBLOCK))
                (emit (DResolved p (m_nAsyncGetHostByNamePort o) connects))
      end
  end.

Definition WindowProc (resolved : bool) (connects : Z) (m : message) : MW unit :=
  match m with
  | WmNotify index h lParam by_ => on_notify index h lParam by_
  | WmTrigger p index lEvent pLayer by_ => on_trigger p index lEvent pLayer by_
  | WmGetHost h lParam => on_gethost h lParam resolved connects
  end.

(** GetMessage and DispatchMessage. *)
Definition pump_message (resolved : bool) (connects : Z) : MW unit :=
  q ← gets queue;
  match q with
  | [] => mret tt
  | m :: q => modify (set_queue q);; WindowProc resolved connects m
  end.

Definition new_window : window := mkWindow ∅ (replicate 512 None) 0 0 [] ∅ 0 [].

(** ** The windows of the threads

    The list of all threads that have sockets, the last one first; each entry
    has a helper window of its own. *)

Record t_AsyncSocketExThreadData := mkThreadData { nThreadId : Z; nInstanceCount : nat; helper : nat }.

(** For a socket that has no thread data yet; [fresh] is the window created where
    the thread has none.  The data found or made is the second result. *)
Fixpoint join_thread (id : Z) (l : list t_AsyncSocketExThreadData)
    : option (list t_AsyncSocketExThreadData * t_AsyncSocketExThreadData) :=
  match l with
  | [] => None
  | d :: l =>
      if nThreadId d =? id then
        let d := mkThreadData (nThreadId d) (S (nInstanceCount d)) (helper d) in Some (d :: l, d)
      else match join_thread id l with Some (l, x) => Some (d :: l, x) | None => None end
  end.

Definition InitAsyncSocketExInstance (id : Z) (fresh : nat) (l : list t_AsyncSocketExThreadData)
    : list t_AsyncSocketExThreadData * t_AsyncSocketExThreadData :=
  match join_thread id l with
  | Some r => r
  | None => let d := mkThreadData id 1 fresh in (d :: l, d)
  end.

(** The last socket of a thread takes its window with it. *)
Fixpoint FreeAsyncSocketExInstance (id : Z) (l : list t_AsyncSocketExThreadData) : list t_AsyncSocketExThreadData :=
  match l with
  | [] => []
  | d :: l =>
      if nThreadId d =? id then
        if (nInstanceCount d - 1 =? 0)%nat then l
        else mkThreadData (nThreadId d) (nInstanceCount d - 1) (helper d) :: l
      else d :: FreeAsyncSocketExInstance id l
  end.
