(* ===== verification/HelperWindowSafety.v ===== *)
(** * The helper window dispatches to sockets that are there

    The table is an injection of the attached sockets into the slots, whatever
    is created, closed, deleted and posted in between. *)

From S2P Require Import Prelude Winsock Effects ProxyLayer HelperWindow.

Lemma max_sockets_val : Z.of_nat MAX_SOCKETS = 47869. Proof. reflexivity. Qed.
#[global] Opaque MAX_SOCKETS.

(** ** Slots *)

Definition occupants (t : list (option nat)) : list nat := omap id t.
#[local] Arguments occupants : simpl never.

Lemma slot_lookup t i p : slot t i = Some p <-> t !! i = Some (Some p).
Proof. unfold slot. destruct (t !! i) as [[q|]|]; simpl; naive_solver. Qed.

Lemma slot_insert t i x : (i < length t)%nat -> slot (<[i := x]> t) i = x.
Proof. intros H. unfold slot. by rewrite list_lookup_insert_eq. Qed.

Lemma slot_insert_ne t i j x : i <> j -> slot (<[i := x]> t) j = slot t j.
Proof. intros H. unfold slot. by rewrite list_lookup_insert_ne. Qed.

Lemma slot_app_none t n i : slot (t ++ replicate n None) i = slot t i.
Proof.
  unfold slot. destruct (decide (i < length t)%nat); [by rewrite lookup_app_l|].
  rewrite lookup_app_r by lia. rewrite (lookup_ge_None_2 t) by lia.
  by destruct (replicate n None !! (i - length t)%nat) as [x|] eqn:E; [apply lookup_replicate in E as [-> _]|].
Qed.

Lemma occupants_app_none t n : occupants (t ++ replicate n None) = occupants t.
Proof. unfold occupants. rewrite omap_app. induction n; simpl; [apply app_nil_r|done]. Qed.

Lemma occupants_cons x t : occupants (x :: t) = match x with Some p => p :: occupants t | None => occupants t end.
Proof. by destruct x. Qed.

Lemma occupants_le t : (length (occupants t) <= length t)%nat.
Proof. induction t as [|x t IH]; [done|]. rewrite occupants_cons. destruct x; simpl; lia. Qed.

Lemma occupants_insert t i p : (i < length t)%nat -> slot t i = None ->
  length (occupants (<[i := Some p]> t)) = S (length (occupants t)).
Proof.
  revert i. induction t as [|x t IH]; intros [|i] Hi Hs; simpl in Hi; try lia.
  - unfold slot in Hs. simpl in Hs. by subst x.
  - change (<[S i := Some p]> (x :: t)) with (x :: <[i := Some p]> t). rewrite !occupants_cons.
    assert (length (occupants (<[i := Some p]> t)) = S (length (occupants t))) by (apply IH; [lia|done]).
    destruct x; simpl; lia.
Qed.

Lemma occupants_delete t i p : slot t i = Some p ->
  S (length (occupants (<[i := None]> t))) = length (occupants t).
Proof.
  revert i. induction t as [|x t IH]; intros [|i] Hs; [done|done| |].
  - unfold slot in Hs. simpl in Hs. by subst x.
  - change (<[S i := None]> (x :: t)) with (x :: <[i := None]> t). rewrite !occupants_cons.
    assert (S (length (occupants (<[i := None]> t))) = length (occupants t)) by by apply IH.
    destruct x; simpl; lia.
Qed.

Lemma occupants_in t p : p ∈ occupants t <-> exists i, slot t i = Some p.
Proof.
  unfold occupants. rewrite list_elem_of_omap. setoid_rewrite slot_lookup. split.
  - intros (x & Hx & E). simpl in E. subst x. by apply list_elem_of_lookup in Hx.
  - intros (i & Hi). exists (Some p). split; [|done]. by eapply list_elem_of_lookup_2.
Qed.

(** Each object has one slot at most. *)
Definition injective (t : list (option nat)) : Prop :=
  forall i j p, slot t i = Some p -> slot t j = Some p -> i = j.

Lemma occupants_nodup t : injective t -> NoDup (occupants t).
Proof.
  induction t as [|x t IH]; intros Hi; unfold occupants; simpl; [constructor|].
  assert (Ht : injective t).
  { intros i j p H1 H2. specialize (Hi (S i) (S j) p H1 H2). lia. }
  destruct x as [p|]; simpl; [|by apply IH]. constructor; [|by apply IH].
  intros Hin. apply (occupants_in t p) in Hin as [i E]. by specialize (Hi 0%nat (S i) p eq_refl E).
Qed.

Lemma occupants_full t : (forall i, (i < length t)%nat -> slot t i <> None) -> length (occupants t) = length t.
Proof.
  induction t as [|x t IH]; intros H; [done|]. unfold occupants in *. simpl.
  destruct x as [p|]; simpl.
  - f_equal. apply IH. intros i Hi. apply (H (S i)). simpl. lia.
  - exfalso. apply (H 0%nat); [simpl; lia|done].
Qed.

(** The search finds a free slot, if there is one. *)
Lemma find_slot_some t n : forall i k, find_slot t i n = Some k -> (0 < length t)%nat ->
  (k < length t)%nat /\ slot t k = None.
Proof.
  induction n as [|n IH]; intros i k Hf Ht; simpl in Hf; [done|].
  destruct (slot t (i mod length t)) eqn:E; [by eapply IH|]. simplify_eq. split; [|done].
  apply Nat.mod_upper_bound. lia.
Qed.

Lemma find_slot_none t n : forall i, find_slot t i n = None ->
  forall j, (j < n)%nat -> slot t ((i + j) mod length t) <> None.
Proof.
  induction n as [|n IH]; intros i Hf j Hj; simpl in Hf; [lia|].
  destruct (slot t (i mod length t)) eqn:E; [|done].
  destruct j as [|j]; [by rewrite Nat.add_0_r, E|]. rewrite <- Nat.add_succ_comm. apply IH; [done|lia].
Qed.

Lemma find_slot_total t i : (length (occupants t) < length t)%nat ->
  exists k, find_slot t i (length t) = Some k.
Proof.
  intros H. destruct (find_slot t i (length t)) as [k|] eqn:E; [by eexists|]. exfalso.
  rewrite occupants_full in H; [lia|]. intros k Hk Hs.
  apply (find_slot_none _ _ _ E ((k + length t - i mod length t) mod length t)); [apply Nat.mod_upper_bound; lia|].
  rewrite <- Hs. f_equal.
  assert (i mod length t < length t)%nat by (apply Nat.mod_upper_bound; lia).
  rewrite Nat.Div0.add_mod_idemp_r.
  replace (i + (k + length t - i mod length t))%nat with (k + (1 + i / length t) * length t)%nat.
  - rewrite Nat.Div0.mod_add. by apply Nat.mod_small.
  - pose proof (Nat.div_mod_eq i (length t)). lia.
Qed.

(** ** The invariant *)

Definition harmless (d : dispatched) : bool := match d with DDead _ | DNull | DOutside => false | _ => true end.

(** The slot a message names is in a table of [n] slots. *)
Definition indexed (n : nat) (m : message) : Prop :=
  match m with WmNotify i _ _ _ | WmTrigger _ i _ _ _ => 0 <= i < Z.of_nat n | WmGetHost _ _ => True end.

Lemma indexed_more n n' m : (n <= n')%nat -> indexed n m -> indexed n' m.
Proof. destruct m; simpl; lia. Qed.

Record table_ok (w : window) : Prop := {
  t_size : (512 <= length (table w) <= MAX_SOCKETS)%nat;
  t_few : (size (sockets w) <= MAX_SOCKETS)%nat;
  t_slots : forall i p, slot (table w) i = Some p ->
    exists o, sockets w !! p = Some o /\ nSocketIndex o = Z.of_nat i;
  t_index : forall p o, sockets w !! p = Some o -> nSocketIndex o <> -1 ->
    0 <= nSocketIndex o /\ slot (table w) (Z.to_nat (nSocketIndex o)) = Some p /\ hSocket o <> INVALID_SOCKET;
  t_count : m_nSocketCount w = length (occupants (table w));
  t_lookup : forall p o, sockets w !! p = Some o -> m_hAsyncGetHostByNameHandle o <> 0 ->
    m_pAsyncGetHostByNameBuffer o = true;
  t_queue : Forall (indexed (length (table w))) (queue w);
  t_harmless : forallb harmless (dispatches w) = true
}.

Lemma ok_injective w : table_ok w -> injective (table w).
Proof.
  intros Hw i j p Hi Hj. destruct (t_slots w Hw i p Hi) as (o & E & Hoi). destruct (t_slots w Hw j p Hj) as (o' & E' & Hoj).
  simplify_eq. lia.
Qed.

(** An object without a slot leaves one free. *)
Lemma ok_room w p o : table_ok w -> sockets w !! p = Some o -> nSocketIndex o = -1 ->
  (m_nSocketCount w < MAX_SOCKETS)%nat.
Proof.
  intros Hw Hp Hi. rewrite (t_count w Hw). enough (S (length (occupants (table w))) <= size (sockets w))%nat by (pose proof (t_few w Hw); lia).
  assert (Hnd : NoDup (p :: occupants (table w))).
  { constructor; [|apply occupants_nodup, ok_injective; done].
    intros [i Hs]%occupants_in. destruct (t_slots w Hw i p Hs) as (o' & E & Ho). simplify_eq. lia. }
  rewrite <- (size_dom (sockets w) (D := gset nat)). change (S (length (occupants (table w)))) with (length (p :: occupants (table w))).
  rewrite <- (size_list_to_set (C := gset nat) _ Hnd). apply subseteq_size. intros q Hq.
  apply elem_of_list_to_set, elem_of_cons in Hq as [->|[i Hs]%occupants_in]; apply elem_of_dom; [by eexists|].
  destruct (t_slots w Hw i q Hs) as (o' & E & _). by eexists.
Qed.

(** An update of an object that keeps its slot. *)
Definition keeps_slot (f : t_socket -> t_socket) (o : t_socket) : Prop :=
  nSocketIndex (f o) = nSocketIndex o /\ (nSocketIndex o <> -1 -> hSocket (f o) <> INVALID_SOCKET) /\
  (m_hAsyncGetHostByNameHandle (f o) <> 0 -> m_pAsyncGetHostByNameBuffer (f o) = true).

Lemma ok_write w p f o : table_ok w -> sockets w !! p = Some o -> keeps_slot f o ->
  table_ok (set_sockets (<[p := f o]> (sockets w)) w).
Proof.
  intros [] Hp (Hi & Hh & Hl). split; cbn; try done.
  - rewrite map_size_insert_Some; [done|by eexists].
  - intros i q Hs. destruct (t_slots0 i q Hs) as (o' & E & Ho). destruct (decide (q = p)) as [->|Hne].
    + simplify_eq. exists (f o). by rewrite lookup_insert_eq, Hi.
    + exists o'. by rewrite lookup_insert_ne.
  - intros q o' Hq Hne. apply lookup_insert_Some in Hq as [[<- <-]|[? Hq]]; [|by apply (t_index0 q)].
    rewrite Hi in *. destruct (t_index0 p o Hp Hne) as (? & ? & ?). auto.
  - intros q o' Hq Hne. apply lookup_insert_Some in Hq as [[<- <-]|[? Hq]]; [by apply Hl|by eapply t_lookup0].
Qed.

Lemma alter_insert (w : window) p f o : sockets w !! p = Some o -> alter f p (sockets w) = <[p := f o]> (sockets w).
Proof. intros Hp. apply map_eq. intros q. destruct (decide (q = p)) as [->|Hne]; [by rewrite lookup_alter_eq, Hp, lookup_insert_eq|by rewrite lookup_alter_ne, lookup_insert_ne]. Qed.

Lemma ok_selected w v : table_ok w -> table_ok (set_selected v w).
Proof. by intros []. Qed.

Lemma ok_serial w v : table_ok w -> table_ok (set_next_serial v w).
Proof. by intros []. Qed.

Lemma ok_emit w d : table_ok w -> harmless d = true -> table_ok (set_dispatches (dispatches w ++ [d]) w).
Proof. intros [] Hd. split; try done. cbn. by rewrite forallb_app, t_harmless0; cbn; rewrite Hd. Qed.

Lemma ok_queue w q : table_ok w -> Forall (indexed (length (table w))) q -> table_ok (set_queue q w).
Proof. intros [] Hq. by split. Qed.

Lemma wp_read_socket p o w (Q : option t_socket -> window -> Prop) : sockets w !! p = Some o -> Q (Some o) w -> wp (read p) Q w.
Proof. intros Hp HQ. unfold read. do 2 wp_step. by rewrite Hp. Qed.

Lemma wp_write p f o w (Q : unit -> window -> Prop) : sockets w !! p = Some o ->
  Q tt (set_sockets (<[p := f o]> (sockets w)) w) -> wp (write p f) Q w.
Proof. intros Hp HQ. unfold write. wp_step. by rewrite (alter_insert w p f o Hp). Qed.

(** ** Operations on one object *)

(** The operation changes the object [p] to [o'], posts nothing, and selects a
    handle only for the slot of [o']. *)
Record moved (p : nat) (o' : t_socket) (w w' : window) : Prop := {
  mv_sockets : sockets w' = <[p := o']> (sockets w);
  mv_queue : queue w' = queue w;
  mv_dispatches : dispatches w' = dispatches w;
  mv_table : (length (table w) <= length (table w'))%nat;
  mv_selected : forall h i s, selected w' !! h = Some (i, s) ->
    selected w !! h = Some (i, s) \/ (h = hSocket o' /\ i = nSocketIndex o' /\ s = serial o')
}.

(** Who the object is to the table and the messages. *)
Definition same_place (o o' : t_socket) : Prop :=
  hSocket o' = hSocket o /\ nSocketIndex o' = nSocketIndex o /\ serial o' = serial o.

Lemma moved_trans p o1 o2 w w1 w2 : moved p o1 w w1 -> moved p o2 w1 w2 -> same_place o1 o2 -> moved p o2 w w2.
Proof.
  intros [A1 A2 A3 A5 A4] [B1 B2 B3 B5 B4] (E1 & E2 & E3). split; try congruence; try lia.
  - rewrite B1, A1. apply insert_insert_eq.
  - intros h i s Hs. apply B4 in Hs as [Hs|Hs]; [|by right]. apply A4 in Hs as [Hs|(-> & -> & ->)]; [by left|by right].
Qed.

Lemma moved_after p o1 o2 w w1 w2 : moved p o1 w w1 ->
  (forall h i s, selected w1 !! h = Some (i, s) -> selected w !! h = Some (i, s)) ->
  moved p o2 w1 w2 -> moved p o2 w w2.
Proof.
  intros [A1 A2 A3 A5 A4] Hsel [B1 B2 B3 B5 B4]. split; try congruence; try lia.
  - rewrite B1, A1. apply insert_insert_eq.
  - intros h i s Hs. apply B4 in Hs as [Hs|Hs]; [left; by apply Hsel|by right].
Qed.

Lemma moved_lookup p o w w' : moved p o w w' -> sockets w' !! p = Some o.
Proof. intros H. rewrite (mv_sockets _ _ _ _ H). apply lookup_insert_eq. Qed.

Lemma moved_write p f o w : sockets w !! p = Some o -> moved p (f o) w (set_sockets (<[p := f o]> (sockets w)) w).
Proof. intros Hp. split; cbn; try done. auto. Qed.

Lemma wp_write_moved p f o w (Q : unit -> window -> Prop) : table_ok w -> sockets w !! p = Some o -> keeps_slot f o ->
  (forall w', table_ok w' -> moved p (f o) w w' -> selected w' = selected w -> Q tt w') -> wp (write p f) Q w.
Proof. intros Hw Hp Hf HQ. eapply wp_write; [done|]. apply HQ; [by apply ok_write|by apply moved_write|done]. Qed.

(** Growing leaves the slots alone and makes room. *)
Lemma grow_spec w : (512 <= length (table w) <= MAX_SOCKETS)%nat -> (m_nSocketCount w < MAX_SOCKETS)%nat ->
  m_nSocketCount w = length (occupants (table w)) ->
  (512 <= length (table (grow w)) <= MAX_SOCKETS)%nat /\
  (forall i, slot (table (grow w)) i = slot (table w) i) /\
  length (occupants (table (grow w))) = m_nSocketCount w /\ (m_nSocketCount w < length (table (grow w)))%nat /\
  (length (table w) <= length (table (grow w)))%nat.
Proof.
  intros Hs Hc Ho. unfold grow, m_nWindowDataSize. pose proof max_sockets_val as Hm. pose proof (occupants_le (table w)).
  destruct (Nat.ltb_spec (m_nSocketCount w) (length (table w) - 10)); cbn.
  - split_and!; [lia..|done|done|lia|lia].
  - rewrite length_app, length_replicate, occupants_app_none. split_and!; [lia..|apply slot_app_none|done|lia|lia].
Qed.

Lemma grow_frame w : sockets (grow w) = sockets w /\ m_nSocketCount (grow w) = m_nSocketCount w /\
  queue (grow w) = queue w /\ selected (grow w) = selected w /\ next_serial (grow w) = next_serial w /\
  dispatches (grow w) = dispatches w.
Proof. unfold grow. by destruct (_ <? _)%nat. Qed.

(** Taking the free slot [i] for [p]. *)
Lemma ok_take w p o i : table_ok w -> sockets w !! p = Some o -> nSocketIndex o = -1 -> hSocket o <> INVALID_SOCKET ->
  forall w1, (512 <= length (table w1) <= MAX_SOCKETS)%nat -> (length (table w) <= length (table w1))%nat ->
  (forall j, slot (table w1) j = slot (table w) j) -> length (occupants (table w1)) = m_nSocketCount w ->
  (i < length (table w1))%nat -> slot (table w1) i = None ->
  table_ok (mkWindow (<[p := with_slot (Z.of_nat i) (next_serial w) o]> (sockets w)) (<[i := Some p]> (table w1))
    (S i mod length (table w1)) (S (m_nSocketCount w)) (queue w) (selected w) (S (next_serial w)) (dispatches w)).
Proof.
  intros Hw Hp Hi Hh w1 Hsz Hle Hsl Hocc Hlt Hfree. pose proof Hw as []. split; cbn; try done.
  - by rewrite length_insert.
  - rewrite map_size_insert_Some; [done|by eexists].
  - intros j q Hs. destruct (decide (i = j)) as [<-|Hne].
    + rewrite slot_insert in Hs by done. simplify_eq. eexists. by rewrite lookup_insert_eq.
    + rewrite slot_insert_ne, Hsl in Hs by done. destruct (t_slots0 j q Hs) as (o' & E & Ho').
      destruct (decide (q = p)) as [->|Hq]; [simplify_eq; lia|]. exists o'. by rewrite lookup_insert_ne.
  - intros q o' Hq Hne. apply lookup_insert_Some in Hq as [[<- <-]|[Hqp Hq]]; cbn.
    + rewrite Nat2Z.id, slot_insert by done. split_and!; [lia|done|done].
    + destruct (t_index0 q o' Hq Hne) as (H1 & H2 & H3). split_and!; [done| |done].
      rewrite slot_insert_ne, Hsl; [done|]. intros ->. rewrite Hsl in Hfree. congruence.
  - by rewrite occupants_insert, Hocc.
  - intros q o' Hq Hne. apply lookup_insert_Some in Hq as [[<- <-]|[? Hq]]; [by apply (t_lookup0 p o)|by eapply t_lookup0].
  - rewrite length_insert. eapply Forall_impl; [done|]. intros m. by apply indexed_more.
Qed.

(** An object with a handle gets a slot, or keeps the one it has. *)
Lemma wp_AttachHandle p o w : table_ok w -> sockets w !! p = Some o -> hSocket o <> INVALID_SOCKET ->
  wp (AttachHandle p) (fun _ w' => table_ok w' /\ selected w' = selected w /\ exists o', moved p o' w w' /\
    nSocketIndex o' <> -1 /\ hSocket o' = hSocket o /\ chain o' = chain o /\ (nSocketIndex o <> -1 -> o' = o)) w.
Proof.
  intros Hw Hp Hh. unfold AttachHandle. wp_step. apply (wp_read_socket p o); [done|]. wp_step. unfold AddSocket.
  wp_step.
  { apply negb_true_iff, Z.eqb_neq in H. wp_step. cbn. do 2 wp_step. rewrite Z.eqb_refl. wp_step. split_and!; [done..|].
    exists o. split_and!; try done. split; cbn; auto. by rewrite insert_id. }
  apply negb_false_iff, Z.eqb_eq in H. wp_step. wp_step. wp_step. wp_step.
  pose proof (ok_room w p o Hw Hp H) as Hroom.
  destruct (grow_spec w (t_size w Hw) Hroom (t_count w Hw)) as (Hg1 & Hg2 & Hg3 & Hg4 & Hg5).
  destruct (grow_frame w) as (F1 & F2 & F3 & F4 & F5 & F6).
  destruct (find_slot_total (table (grow w)) (m_nWindowDataPos (grow w))) as [i Hi]; [lia|].
  unfold m_nWindowDataSize at 1. rewrite Hi. destruct (find_slot_some _ _ _ _ Hi) as [Hlt Hfree]; [lia|].
  repeat wp_step. { apply Z.eqb_eq in H0. lia. }
  apply (wp_write p _ o); [cbn; by rewrite F1|]. wp_step.
  unfold set_next_serial, set_sockets, set_count, set_pos, set_table, m_nWindowDataSize. cbn. rewrite F1, F2, F3, F4, F5, F6.
  split_and!; [by apply (ok_take w p o i)|done|]. eexists. split_and!; [split; cbn; rewrite ?length_insert; try done; auto|cbn; try done; try lia..].
Qed.

(** Giving the slot back. *)
Lemma ok_give w p o : table_ok w -> sockets w !! p = Some o -> nSocketIndex o <> -1 ->
  table_ok (mkWindow (<[p := with_slot (-1) (serial o) o]> (sockets w)) (<[Z.to_nat (nSocketIndex o) := None]> (table w))
    (m_nWindowDataPos w) (m_nSocketCount w - 1) (queue w) (selected w) (next_serial w) (dispatches w)).
Proof.
  intros Hw Hp Hne. pose proof Hw as []. destruct (t_index0 p o Hp Hne) as (Hi & Hs & Hh).
  assert (Hlt : (Z.to_nat (nSocketIndex o) < length (table w))%nat).
  { apply slot_lookup, lookup_lt_Some in Hs. done. }
  split; cbn; try done.
  - by rewrite length_insert.
  - rewrite map_size_insert_Some; [done|by eexists].
  - intros j q Hq. destruct (decide (Z.to_nat (nSocketIndex o) = j)) as [<-|Hj]; [by rewrite slot_insert in Hq|].
    rewrite slot_insert_ne in Hq by done. destruct (t_slots0 j q Hq) as (o' & E & Ho').
    destruct (decide (q = p)) as [->|Hqp]; [simplify_eq; lia|]. exists o'. by rewrite lookup_insert_ne.
  - intros q o' Hq Hne'. apply lookup_insert_Some in Hq as [[<- <-]|[Hqp Hq]]; [done|].
    destruct (t_index0 q o' Hq Hne') as (H1 & H2 & H3). split_and!; [done| |done].
    rewrite slot_insert_ne; [done|]. intros E. rewrite <- E in H2. congruence.
  - pose proof (occupants_delete _ _ _ Hs). lia.
  - intros q o' Hq Hne'. apply lookup_insert_Some in Hq as [[<- <-]|[? Hq]]; [by apply (t_lookup0 p o)|by eapply t_lookup0].
  - by rewrite length_insert.
Qed.

Lemma wp_DetachHandle p o w : table_ok w -> sockets w !! p = Some o ->
  wp (DetachHandle p) (fun _ w' => table_ok w' /\ selected w' = selected w /\
    moved p (with_slot (-1) (serial o) o) w w') w.
Proof.
  intros Hw Hp. unfold DetachHandle. wp_step. apply (wp_read_socket p o); [done|]. wp_step. unfold RemoveSocket. wp_step.
  - apply Z.eqb_eq in H. wp_step. apply (wp_write p _ o); [done|]. split_and!; [|done|by apply (moved_write p (fun o => with_slot (-1) (serial o) o))].
    apply (ok_write w p (fun o => with_slot (-1) (serial o) o)); [done..|]. split_and!; [done|intros; done|].
    apply (t_lookup w Hw p o Hp).
  - apply Z.eqb_neq in H. repeat wp_step. cbn. rewrite (alter_insert w p _ o Hp). unfold set_sockets, set_count, set_table. cbn.
    split_and!; [by apply ok_give|done|]. split; cbn; rewrite ?length_insert; auto.
Qed.

Lemma wp_SockAsyncSelect p o e s w : table_ok w -> sockets w !! p = Some o ->
  wp (SockAsyncSelect p e s) (fun r w' => table_ok w' /\ moved p (with_events e o) w w' /\
    (forall h i n, chain o <> [] -> selected w' !! h = Some (i, n) -> selected w !! h = Some (i, n))) w.
Proof.
  intros Hw Hp. unfold SockAsyncSelect. wp_step. apply wp_write_moved with (o := o); [done..| |].
  { split_and!; [done| |]; [apply (t_index w Hw p o Hp)|apply (t_lookup w Hw p o Hp)]. }
  intros w1 Hw1 Hm1 Hs1. wp_step. apply (wp_read_socket p (with_events e o)); [by eapply moved_lookup|].
  wp_step; [|wp_step; split_and!; [done|done|by rewrite Hs1]].
  apply bool_decide_eq_true in H. cbn in H. unfold WSAAsyncSelect. wp_step. wp_step; wp_step; [wp_step|].
  - split_and!; [by apply ok_selected| |by intros].
    destruct Hm1 as [A1 A2 A3 A5 A4]. split; cbn; try done. rewrite Hs1. intros h i n Hs.
    destruct (e =? 0); [apply lookup_delete_Some in Hs as [_ Hs]; by left|].
    apply lookup_insert_Some in Hs as [[<- [= <- <-]]|[_ Hs]]; [by right|by left].
  - split_and!; [done..|by intros].
Qed.

(** The object has no slot and no handle is selected for it. *)
Lemma wp_close_handle p o w : table_ok w -> sockets w !! p = Some o ->
  wp (when (negb (hSocket o =? INVALID_SOCKET))
        (modify (fun w => set_selected (delete (hSocket o) (selected w)) w);;
         DetachHandle p;; write p (with_handle INVALID_SOCKET)))
    (fun _ w' => table_ok w' /\ exists o', moved p o' w w' /\ (nSocketIndex o' = -1 /\ hSocket o' = INVALID_SOCKET) /\
       (hSocket o = INVALID_SOCKET \/ selected w' = delete (hSocket o) (selected w)) /\
       (forall h i s, selected w' !! h = Some (i, s) -> selected w !! h = Some (i, s))) w.
Proof.
  intros Hw Hp. wp_step.
  - wp_step. wp_step. wp_step. assert (Hdel : forall h (v : Z * nat), delete (hSocket o) (selected w) !! h = Some v -> selected w !! h = Some v).
    { by intros h v [_ ?]%lookup_delete_Some. }
    assert (Hm0 : moved p o w (set_selected (delete (hSocket o) (selected w)) w)).
    { split; cbn; try done; [by rewrite insert_id|]. intros h i s Hs. left. by apply Hdel. }
    eapply wp_mono; [apply wp_DetachHandle; [by apply ok_selected|exact Hp]|]. intros _ w1 (Hw1 & Hs1 & Hm1). cbn in Hs1. 
    pose proof (moved_after _ _ _ _ _ _ Hm0 (fun h i s => Hdel h (i, s)) Hm1) as Hm.
    eapply wp_write_moved; [done|by eapply moved_lookup| |].
    { split_and!; [done|done|]. apply (t_lookup w Hw p o Hp). }
    intros w2 Hw2 Hm2 Hs2. split; [done|]. eexists. split_and!.
    + eapply moved_after; [exact Hm| |exact Hm2]. rewrite Hs1. intros h i s. apply Hdel.
    + done.
    + done.
    + right. by rewrite Hs2, Hs1.
    + rewrite Hs2, Hs1. intros h i s. apply Hdel.
  - apply negb_false_iff, Z.eqb_eq in H. split; [done|].
    exists o. split_and!; [split; cbn; auto; by rewrite insert_id| |done|by left|done].
    destruct (decide (nSocketIndex o = -1)) as [|Hne]; [done|]. by destruct (t_index w Hw p o Hp Hne) as (_ & _ & ?).
Qed.

Lemma wp_SockClose p o w : table_ok w -> sockets w !! p = Some o ->
  wp (SockClose p) (fun _ w' => table_ok w' /\ exists o', moved p o' w w' /\
    (nSocketIndex o' = -1 /\ hSocket o' = INVALID_SOCKET) /\
    (hSocket o = INVALID_SOCKET \/ selected w' = delete (hSocket o) (selected w))) w.
Proof.
  intros Hw Hp. unfold SockClose. wp_step. apply (wp_read_socket p o); [done|]. wp_step.
  eapply wp_mono; [by apply wp_close_handle|]. intros _ w1 (Hw1 & o1 & Hm1 & [Hi1 Hh1] & Hs1 & Hsub). wp_step.
  pose proof (moved_lookup _ _ _ _ Hm1) as Hp1.
  eapply wp_write_moved; [done|exact Hp1| |].
  { split_and!; [done|intros; by apply (t_index w1 Hw1 p o1)|]. apply (t_lookup w1 Hw1 p o1 Hp1). }
  intros w2 Hw2 Hm2 Hs2. eapply wp_write_moved; [done|by eapply moved_lookup| |].
  { split_and!; [done|done|done]. }
  intros w3 Hw3 Hm3 Hs3. split; [done|].
  exists (with_lookup false 0 (m_nAsyncGetHostByNamePort o1) (with_chain [] o1)).
  split_and!; [|exact Hi1|exact Hh1|by rewrite Hs3, Hs2].
  eapply moved_after; [exact Hm1|exact Hsub|]. by eapply moved_trans; [exact Hm2|exact Hm3|].
Qed.

(** *** Attaching *)

(** The object with the handle [h] and a slot. *)
Definition placed (p : nat) (o : t_socket) (h : Z) (w w' : window) : Prop :=
  table_ok w' /\ selected w' = selected w /\ exists o', moved p o' w w' /\ nSocketIndex o' <> -1 /\
    hSocket o' = h /\ chain o' = chain o /\
    (nSocketIndex o <> -1 -> nSocketIndex o' = nSocketIndex o /\ serial o' = serial o).

Lemma wp_place p o h w (k : MW bool) (Q : bool -> window -> Prop) :
  table_ok w -> sockets w !! p = Some o -> h <> INVALID_SOCKET ->
  (forall w', placed p o h w w' -> wp k Q w') ->
  wp (write p (with_handle h);; AttachHandle p;; k) Q w.
Proof.
  intros Hw Hp Hh Hk. wp_step. eapply wp_write_moved; [done|exact Hp|split_and!; [done|done|apply (t_lookup w Hw p o Hp)]|].
  intros w1 Hw1 Hm1 Hs1. pose proof (moved_lookup _ _ _ _ Hm1) as Hp1. wp_step.
  eapply wp_mono; [by apply (wp_AttachHandle p _ w1 Hw1 Hp1)|].
  intros _ w2 (Hw2 & Hs2 & o2 & Hm2 & Hi2 & Hh2 & Hc2 & Hsame). apply Hk. split_and!; [done|congruence|].
  exists o2. split_and!; [|done..|].
  - eapply moved_after; [exact Hm1| |exact Hm2]. by rewrite Hs1.
  - intros Hne. by rewrite (Hsame Hne).
Qed.

(** What an operation of a live object comes to: it is placed, or it is what
    it was to the others, or it has no slot. *)
Definition outcome (p : nat) (o : t_socket) (w w' : window) : Prop :=
  table_ok w' /\ exists o', moved p o' w w' /\ (chain o' = chain o \/ nSocketIndex o' = -1) /\
    (nSocketIndex o <> -1 -> nSocketIndex o' <> -1 -> nSocketIndex o' = nSocketIndex o /\ serial o' = serial o) /\
    ((hSocket o <> INVALID_SOCKET -> nSocketIndex o <> -1) -> hSocket o' <> INVALID_SOCKET -> nSocketIndex o' <> -1).

Lemma outcome_refl p o w : table_ok w -> sockets w !! p = Some o -> outcome p o w w.
Proof. intros Hw Hp. split; [done|]. exists o. split_and!; [split; cbn; auto; by rewrite insert_id|by left|done|auto]. Qed.

Lemma wp_SockAttach p o h e s w : table_ok w -> sockets w !! p = Some o ->
  wp (SockAttach p h e s) (fun _ => outcome p o w) w.
Proof.
  intros Hw Hp. unfold SockAttach. wp_step; [wp_step; by apply outcome_refl|].
  apply orb_false_iff in H as [H%Z.eqb_neq _]. apply (wp_place p o h); [done..|].
  intros w1 (Hw1 & Hs1 & o1 & Hm1 & Hi1 & Hh1 & Hc1 & Hk1).
  eapply wp_mono; [apply wp_SockAsyncSelect; [done|by eapply moved_lookup]|].
  intros r w2 (Hw2 & Hm2 & _). split; [done|]. exists (with_events e o1).
  split_and!; [|by left|intros; by apply Hk1|done]. eapply moved_after; [exact Hm1|by rewrite Hs1|exact Hm2].
Qed.

Lemma outcome_closed p o o1 w w1 : moved p o1 w w1 -> table_ok w1 -> hSocket o1 <> INVALID_SOCKET ->
  wp (SockClose p) (fun _ => outcome p o w) w1.
Proof.
  intros Hm1 Hw1 Hh1. eapply wp_mono; [by eapply wp_SockClose, moved_lookup|]. intros _ w2 (Hw2 & o2 & Hm2 & [Hi2 Hh2] & Hs2).
  split; [done|]. exists o2. split_and!; [|by right|by rewrite Hi2|by rewrite Hh2]. destruct Hs2 as [|Hs2]; [done|].
  destruct Hm1 as [A1 A2 A3 A5 A4], Hm2 as [B1 B2 B3 B5 B4]. split; try congruence; try lia.
  - rewrite B1, A1. apply insert_insert_eq.
  - intros h i s Hsel. rewrite Hs2 in Hsel. apply lookup_delete_Some in Hsel as [Hne Hsel].
    apply A4 in Hsel as [|(-> & _)]; [by left|done].
Qed.

Lemma wp_close_false p o o1 w w1 : moved p o1 w w1 -> table_ok w1 -> hSocket o1 <> INVALID_SOCKET ->
  wp (SockClose p;; mret false) (fun _ => outcome p o w) w1.
Proof. intros. wp_step. eapply wp_mono; [apply (outcome_closed p o o1); done|]. intros ? ? ?. by wp_step. Qed.

Lemma wp_SockCreate p o h e a b c w : table_ok w -> sockets w !! p = Some o ->
  wp (SockCreate p h e a b c) (fun _ => outcome p o w) w.
Proof.
  intros Hw Hp. unfold SockCreate. wp_step. apply (wp_read_socket p o); [done|].
  wp_step; [wp_step; by apply outcome_refl|]. apply negb_false_iff, Z.eqb_eq in H.
  wp_step; [wp_step; by apply outcome_refl|]. apply Z.eqb_neq in H0. apply (wp_place p o h); [done..|].
  intros w1 (Hw1 & Hs1 & o1 & Hm1 & Hi1 & Hh1 & Hc1 & Hk1).
  wp_step. eapply wp_mono; [apply wp_SockAsyncSelect; [done|by eapply moved_lookup]|].
  intros r w2 (Hw2 & Hm2 & Hsel2).
  assert (Hm : moved p (with_events e o1) w w2) by (eapply moved_after; [exact Hm1|by rewrite Hs1|exact Hm2]).
  assert (Hh2 : hSocket (with_events e o1) <> INVALID_SOCKET) by (cbn; congruence).
  wp_step; [by apply (wp_close_false p o (with_events e o1))|]. wp_step. apply (wp_read_socket p (with_events e o1)); [by eapply moved_lookup|].
  wp_step. apply (wp_mono _ (fun _ w3 => table_ok w3 /\ moved p (with_events e o1) w w3)).
  { wp_step; [by wp_step|]. apply bool_decide_eq_false in H2. cbn in H2. unfold WSAAsyncSelect.
    wp_step. wp_step; wp_step; [wp_step|done]. split; [by apply ok_selected|].
    destruct Hm as [A1 A2 A3 A5 A4]. split; cbn; try done. intros h' i n Hs.
    apply lookup_insert_Some in Hs as [[<- [= <- <-]]|[_ Hs]]; [by right|by apply A4]. }
  intros r2 w3 (Hw3 & Hm3). wp_step; [by apply (wp_close_false p o (with_events e o1))|]. wp_step; [by apply (wp_close_false p o (with_events e o1))|].
  wp_step. split; [done|]. exists (with_events e o1). split_and!; [done|by left|intros; by apply Hk1|done].
Qed.

Lemma wp_SockDetach p o w : table_ok w -> sockets w !! p = Some o ->
  wp (SockDetach p) (fun _ => outcome p o w) w.
Proof.
  intros Hw Hp. unfold SockDetach. wp_step. apply (wp_read_socket p o); [done|]. wp_step.
  eapply wp_mono; [by apply wp_DetachHandle|]. intros _ w1 (Hw1 & Hs1 & Hm1). wp_step.
  eapply wp_write_moved; [done|by eapply moved_lookup|split_and!; [done|done|apply (t_lookup w Hw p o Hp)]|].
  intros w2 Hw2 Hm2 Hs2. wp_step. split; [done|]. eexists. split_and!; [eapply moved_after; [exact Hm1|by rewrite Hs1|exact Hm2]|by right|done|done].
Qed.

(** Operations that write one field. *)
Lemma wp_write_outcome p o f w : table_ok w -> sockets w !! p = Some o -> keeps_slot f o ->
  nSocketIndex (f o) = nSocketIndex o -> hSocket (f o) = hSocket o -> serial (f o) = serial o ->
  (chain (f o) = chain o \/ nSocketIndex o = -1) ->
  wp (write p f) (fun _ => outcome p o w) w.
Proof.
  intros Hw Hp Hf Hi Hh Hs Hc. eapply wp_write_moved; [done..|]. intros w1 Hw1 Hm1 Hs1. split; [done|].
  exists (f o). split_and!; [done|by rewrite Hi|done|by rewrite Hi, Hh].
Qed.

Lemma wp_select_outcome p o e s w : table_ok w -> sockets w !! p = Some o ->
  wp (SockAsyncSelect p e s) (fun _ => outcome p o w) w.
Proof.
  intros Hw Hp. eapply wp_mono; [by apply wp_SockAsyncSelect|]. intros r w1 (Hw1 & Hm1 & _).
  split; [done|]. exists (with_events e o). split_and!; [done|by left|done|done].
Qed.

Lemma wp_SockAddLayer p o l w : table_ok w -> sockets w !! p = Some o ->
  wp (SockAddLayer p l) (fun _ => outcome p o w) w.
Proof.
  intros Hw Hp. unfold SockAddLayer. wp_step. apply (wp_read_socket p o); [done|].
  wp_step; [wp_step; by apply outcome_refl|]. apply negb_false_iff, Z.eqb_eq in H. wp_step.
  assert (Hi : nSocketIndex o = -1).
  { destruct (decide (nSocketIndex o = -1)) as [|Hne]; [done|]. by destruct (t_index w Hw p o Hp Hne) as (_ & _ & ?). }
  eapply wp_mono; [apply (wp_write_outcome p o); try done|].
  - split_and!; [done|done|apply (t_lookup w Hw p o Hp)].
  - by right.
  - intros ? ? ?. by wp_step.
Qed.

Lemma wp_ConnectRawByName p o port h w : table_ok w -> sockets w !! p = Some o ->
  wp (ConnectRawByName p port h) (fun _ => outcome p o w) w.
Proof.
  intros Hw Hp. unfold ConnectRawByName. wp_step. apply (wp_read_socket p o); [done|]. wp_step.
  eapply wp_mono; [apply (wp_write_outcome p o); try done|].
  - split_and!; [done|apply (t_index w Hw p o Hp)|done].
  - by left.
  - intros ? ? ?. by wp_step.
Qed.

Lemma wp_close_outcome p o w : table_ok w -> sockets w !! p = Some o ->
  wp (SockClose p) (fun _ => outcome p o w) w.
Proof.
  intros Hw Hp. eapply wp_mono; [by apply wp_SockClose|]. intros _ w1 (Hw1 & o1 & Hm1 & [Hi1 Hh1] & _).
  split; [done|]. exists o1. split_and!; [done|by right|by rewrite Hi1|by rewrite Hh1].
Qed.

(** ** Threads *)

(** The entry of a thread counts its sockets: a thread is in the list exactly
    while it has some, once, and all of them have the same window. *)
Definition count_of (id : Z) (l : list t_AsyncSocketExThreadData) : nat :=
  match find (fun d => nThreadId d =? id) l with Some d => nInstanceCount d | None => 0 end.

Definition window_of (id : Z) (l : list t_AsyncSocketExThreadData) : option nat :=
  helper <$> find (fun d => nThreadId d =? id) l.

Record threads_ok (l : list t_AsyncSocketExThreadData) : Prop := {
  th_once : NoDup (map nThreadId l);
  th_used : Forall (fun d => (0 < nInstanceCount d)%nat) l
}.

Lemma join_spec id l : match join_thread id l with
  | Some (l', d) => (forall i, count_of i l' = (count_of i l + (if (i =? id)%Z then 1 else 0))%nat) /\
      (forall i, window_of i l' = window_of i l) /\ window_of id l = Some (helper d) /\
      map nThreadId l' = map nThreadId l /\ (Forall (fun d => (0 < nInstanceCount d)%nat) l -> Forall (fun d => (0 < nInstanceCount d)%nat) l')
  | None => count_of id l = 0%nat /\ ~ In id (map nThreadId l)
  end.
Proof.
  induction l as [|d l IH]; simpl; [split; [done|by intros []]|]. destruct (Z.eqb_spec (nThreadId d) id) as [<-|Hne].
  - unfold count_of, window_of. simpl. split_and!; [| |by rewrite Z.eqb_refl|done|].
    + intros i. destruct (Z.eqb_spec (nThreadId d) i) as [<-|]; simpl; [rewrite Z.eqb_refl; lia|].
      destruct (Z.eqb_spec i (nThreadId d)); [congruence|]. lia.
    + intros i. by destruct (nThreadId d =? i).
    + intros H. inversion H; subst. constructor; [simpl; lia|done].
  - apply Z.eqb_neq in Hne as Hneb. destruct (join_thread id l) as [[l' x]|].
    + destruct IH as (H1 & H2 & H3 & H4 & H5). unfold count_of, window_of in *. simpl. split_and!.
      * intros i. destruct (Z.eqb_spec (nThreadId d) i) as [<-|]; [|apply H1]. rewrite Hneb. lia.
      * intros i. by destruct (nThreadId d =? i).
      * by rewrite Hneb.
      * by rewrite H4.
      * intros H. inversion H; subst. constructor; auto.
    + destruct IH as [H1 H2]. unfold count_of in *. simpl. rewrite Hneb. split; [done|]. by intros [|].
Qed.

(** A socket joins the one window of its thread. *)
Lemma init_joins id fresh l : threads_ok l ->
  let '(l', d) := InitAsyncSocketExInstance id fresh l in
  threads_ok l' /\ (forall i, count_of i l' = (count_of i l + (if (i =? id)%Z then 1 else 0))%nat) /\
  window_of id l' = Some (helper d) /\ (forall h, window_of id l = Some h -> h = helper d).
Proof.
  intros [Hnd Hu]. unfold InitAsyncSocketExInstance. pose proof (join_spec id l) as H.
  destruct (join_thread id l) as [[l' d]|].
  - destruct H as (H1 & H2 & H3 & H4 & H5). split_and!; [split; [by rewrite H4|auto]|done|by rewrite H2|congruence].
  - destruct H as [H1 H2]. split_and!.
    + split; simpl; constructor; simpl; try done; [by rewrite list_elem_of_In|lia].
    + intros i. unfold count_of in *. simpl. destruct (Z.eqb_spec id i), (Z.eqb_spec i id); simpl; subst; try congruence; lia.
    + unfold window_of. simpl. by rewrite Z.eqb_refl.
    + unfold window_of. intros h Hh. destruct (find _ l) as [d|] eqn:E; [|done]. apply find_some in E as [Hin E].
      apply Z.eqb_eq in E. destruct H2. apply in_map_iff. by exists d.
Qed.

Lemma count_of_cons i d l : count_of i (d :: l) = if nThreadId d =? i then nInstanceCount d else count_of i l.
Proof. unfold count_of. simpl. by destruct (nThreadId d =? i). Qed.

Lemma window_of_cons i d l : window_of i (d :: l) = if nThreadId d =? i then Some (helper d) else window_of i l.
Proof. unfold window_of. simpl. by destruct (nThreadId d =? i). Qed.

Lemma absent_thread i l : ~ In i (map nThreadId l) -> count_of i l = 0%nat /\ window_of i l = None.
Proof.
  induction l as [|d l IH]; [done|]. rewrite count_of_cons, window_of_cons. simpl. intros Hn.
  destruct (Z.eqb_spec (nThreadId d) i) as [<-|Hne]; [exfalso; tauto|apply IH; tauto].
Qed.

Lemma free_ids id i l : In i (map nThreadId (FreeAsyncSocketExInstance id l)) -> In i (map nThreadId l).
Proof.
  induction l as [|d l IH]; [done|]. simpl. destruct (nThreadId d =? id); [|simpl; tauto].
  destruct (nInstanceCount d - 1 =? 0)%nat; simpl; tauto.
Qed.

(** The window goes with the last socket of the thread, and no other. *)
Lemma free_leaves id l : threads_ok l -> (0 < count_of id l)%nat ->
  threads_ok (FreeAsyncSocketExInstance id l) /\
  (forall i, count_of i (FreeAsyncSocketExInstance id l) = (count_of i l - (if (i =? id)%Z then 1 else 0))%nat) /\
  (forall i h, window_of i (FreeAsyncSocketExInstance id l) = Some h <->
     window_of i l = Some h /\ (i = id -> 1 < count_of id l)%nat).
Proof.
  induction l as [|d l IH]; intros [Hnd Hu] Hc; [unfold count_of in Hc; simpl in Hc; lia|].
  inversion Hnd as [|? ? Hni Hnd']; inversion Hu as [|? ? Hd Hu']; subst. simpl. rewrite list_elem_of_In in Hni.
  rewrite count_of_cons in *. destruct (Z.eqb_spec (nThreadId d) id) as [<-|Hne].
  - destruct (absent_thread _ _ Hni) as [Ha Hb]. destruct (Nat.eqb_spec (nInstanceCount d - 1) 0) as [E|E].
    + split_and!; [by split| |]; intros i; [rewrite count_of_cons|intros h; rewrite window_of_cons];
        destruct (Z.eqb_spec (nThreadId d) i) as [<-|Hi]; rewrite ?Z.eqb_refl.
      * lia.
      * destruct (Z.eqb_spec i (nThreadId d)); [congruence|]. lia.
      * rewrite Hb. split; [done|]. intros [_ H]. specialize (H eq_refl). lia.
      * split; [|tauto]. intros H. split; [done|]. intros. congruence.
    + split_and!; [split; [done|constructor; [simpl; lia|done]]| |]; intros i;
        [rewrite !count_of_cons|intros h; rewrite !window_of_cons]; simpl;
        destruct (Z.eqb_spec (nThreadId d) i) as [<-|Hi]; rewrite ?Z.eqb_refl.
      * lia.
      * destruct (Z.eqb_spec i (nThreadId d)); [congruence|]. lia.
      * split; [|tauto]. intros H. split; [done|]. intros. lia.
      * split; [|tauto]. intros H. split; [done|]. intros. congruence.
  - destruct IH as (H1 & H2 & H3); [by split|done|]. split_and!.
    + destruct H1. split; simpl; constructor; try done. rewrite list_elem_of_In. by intros Hin%free_ids.
    + intros i. rewrite !count_of_cons. destruct (Z.eqb_spec (nThreadId d) i) as [<-|]; [|apply H2].
      apply Z.eqb_neq in Hne. rewrite Hne. lia.
    + intros i h. rewrite !window_of_cons. destruct (Z.eqb_spec (nThreadId d) i) as [<-|]; [|apply H3].
      split; [|tauto]. intros H. split; [done|]. intros. congruence.
Qed.
