(* ===== verification/HelperWindowEvents.v ===== *)
(** * The life of a helper window

    Sockets created, used, closed and deleted in any order, with what Winsock,
    the layers and the resolver post in between; and what the window procedure
    then does with the messages. *)

From S2P Require Import Prelude Winsock Effects ProxyLayer HelperWindow HelperWindowSafety.

(** A thread has fewer socket objects than the window has message numbers. *)
Inductive win_step (w : window) : window -> Prop :=
  | W_new p : sockets w !! p = None -> (size (sockets w) < MAX_SOCKETS)%nat ->
      win_step w (set_sockets (<[p := new_socket]> (sockets w)) w)
  | W_delete p o : sockets w !! p = Some o -> win_step w (exec (DeleteSocket p) w)
  | W_attach p o h e a : sockets w !! p = Some o -> win_step w (exec (SockAttach p h e a) w)
  | W_detach p o : sockets w !! p = Some o -> win_step w (exec (SockDetach p) w)
  | W_create p o h e a b c : sockets w !! p = Some o -> win_step w (exec (SockCreate p h e a b c) w)
  | W_close p o : sockets w !! p = Some o -> win_step w (exec (SockClose p) w)
  | W_select p o e a : sockets w !! p = Some o -> win_step w (exec (SockAsyncSelect p e a) w)
  | W_layer p o l : sockets w !! p = Some o -> win_step w (exec (SockAddLayer p l) w)
  | W_connect p o port h : sockets w !! p = Some o -> win_step w (exec (ConnectRawByName p port h) w)
  | W_trigger p o e err a : sockets w !! p = Some o -> win_step w (exec (SockTriggerEvent p e err a) w)
  | W_layer_trigger p o l e err t a : sockets w !! p = Some o -> In l (chain o) ->
      win_step w (exec (LayerTrigger p l e err t a) w)
  | W_winsock h i s lParam : selected w !! h = Some (i, s) -> win_step w (exec (post (notify i h lParam s) true) w)
  | W_resolver h lParam : win_step w (exec (post (WmGetHost h lParam) true) w)
  | W_dispatch r c : win_step w (exec (pump_message r c) w).

Inductive win_reachable : window -> Prop :=
  | win_new : win_reachable new_window
  | win_more w w' : win_reachable w -> win_step w w' -> win_reachable w'.

(** What holds at any time: the table is an injection of the attached objects
    into the slots, its count is right, and no step has read an object that is
    gone, a missing buffer or a place outside the table. *)
Definition window_sound (w : window) : Prop :=
  (forall i p, slot (table w) i = Some p <-> exists o, sockets w !! p = Some o /\ nSocketIndex o = Z.of_nat i) /\
  m_nSocketCount w = length (occupants (table w)) /\
  (length (table w) <= MAX_SOCKETS)%nat /\
  forallb harmless (dispatches w) = true.

Lemma table_ok_sound w : table_ok w -> window_sound w.
Proof.
  intros Hw. pose proof Hw as []. split_and!; [|done|lia|done]. intros i p. split; [apply t_slots|].
  intros (o & Hp & Hi). destruct (t_index p o Hp) as (_ & Hs & _); [lia|]. by rewrite Hi, Nat2Z.id in Hs.
Qed.

Lemma ok_new : table_ok new_window.
Proof.
  pose proof max_sockets_val. split.
  - unfold new_window, table. rewrite length_replicate. lia.
  - unfold new_window, sockets. rewrite map_size_empty. lia.
  - intros i p Hs. unfold new_window, table, slot in Hs.
    destruct (replicate 512 None !! i) as [x|] eqn:E; [apply lookup_replicate in E as [-> _]|]; done.
  - intros p o Hp. unfold new_window, sockets in Hp. by rewrite lookup_empty in Hp.
  - unfold new_window, table. by rewrite <- (app_nil_l (replicate 512 None)), occupants_app_none.
  - intros p o Hp. unfold new_window, sockets in Hp. by rewrite lookup_empty in Hp.
  - constructor.
  - reflexivity.
Qed.

(** ** The steps *)

(** Handles are selected for slots, or for none. *)
Definition selects_ok (w : window) : Prop :=
  forall h i s, selected w !! h = Some (i, s) -> -1 <= i < Z.of_nat (length (table w)).

(** Without a slot an object has a handle only where the table is full, which
    it never is. *)
Definition handle_slot (w : window) : Prop := forall p o, sockets w !! p = Some o ->
  hSocket o <> INVALID_SOCKET -> nSocketIndex o <> -1.

Record win_inv (w : window) : Prop := {
  wi_table : table_ok w;
  wi_selects : selects_ok w;
  wi_handles : handle_slot w
}.

Lemma index_bounds w p o : table_ok w -> sockets w !! p = Some o -> -1 <= nSocketIndex o < Z.of_nat (length (table w)).
Proof.
  intros Hw Hp. destruct (decide (nSocketIndex o = -1)) as [->|Hne]; [pose proof (t_size w Hw); lia|].
  destruct (t_index w Hw p o Hp Hne) as (H0 & Hs & _). apply slot_lookup, lookup_lt_Some in Hs. lia.
Qed.

Lemma outcome_inv p o w w' : win_inv w -> sockets w !! p = Some o -> outcome p o w w' -> win_inv w'.
Proof.
  intros [Hw Hs Hh] Hp (Hw' & o' & Hm & _ & _ & Hh'). split; [done| |].
  - intros h i s Hsel. pose proof (mv_table _ _ _ _ Hm).
    apply (mv_selected _ _ _ _ Hm) in Hsel as [Hsel|(_ & -> & _)]; [specialize (Hs h i s Hsel); lia|].
    by eapply index_bounds, moved_lookup.
  - intros q o2 Hq. rewrite (mv_sockets _ _ _ _ Hm) in Hq. apply lookup_insert_Some in Hq as [[<- <-]|[_ Hq]].
    + by apply Hh', (Hh p).
    + by apply (Hh q).
Qed.

Lemma ok_delete w p o : table_ok w -> sockets w !! p = Some o -> nSocketIndex o = -1 ->
  table_ok (set_sockets (delete p (sockets w)) w).
Proof.
  intros [] Hp Hi. split; cbn; try assumption.
  - rewrite map_size_delete_Some by by eexists. lia.
  - intros i q Hs. destruct (t_slots i q Hs) as (o' & E & Ho'). exists o'. split; [|done].
    apply lookup_delete_Some. split; [|done]. intros ->. simplify_eq. lia.
  - intros q o' [_ Hq]%lookup_delete_Some. by apply t_index.
  - intros q o' [_ Hq]%lookup_delete_Some. by apply (t_lookup q).
Qed.

(** A message goes into the queue. *)
Lemma inv_post w m a : win_inv w -> indexed (length (table w)) m -> win_inv (exec (post m a) w).
Proof.
  intros [Hw Hs Hh] Hm. unfold post. destruct a; cbn; [|done]. split; [|done..]. apply ok_queue; [done|].
  apply Forall_app. split; [apply (t_queue w Hw)|by constructor].
Qed.

Lemma notify_indexed n i h lParam s : -1 <= i < Z.of_nat n -> indexed n (notify i h lParam s).
Proof. intros Hi. unfold notify. destruct (Z.eqb_spec i (-1)); [done|]. simpl. lia. Qed.

Lemma inv_deleted p o w : win_inv w -> sockets w !! p = Some o -> win_inv (exec (DeleteSocket p) w).
Proof.
  intros [Hw Hs Hh] Hp. apply wp_exec. unfold DeleteSocket. wp_step. eapply wp_mono; [by apply wp_SockClose|].
  intros _ w1 (Hw1 & o1 & Hm1 & [Hi1 _] & _). wp_step. split.
  - eapply ok_delete; [done|by eapply moved_lookup|done].
  - intros h i s Hsel. cbn in Hsel |- *. pose proof (mv_table _ _ _ _ Hm1). pose proof (t_size w1 Hw1).
    apply (mv_selected _ _ _ _ Hm1) in Hsel as [Hsel|(_ & -> & _)]; [specialize (Hs h i s Hsel); lia|lia].
  - intros q o2 Hq. cbn in Hq. apply lookup_delete_Some in Hq as [Hne Hq]. rewrite (mv_sockets _ _ _ _ Hm1), lookup_insert_ne in Hq by done. by apply (Hh q).
Qed.


(** *** Triggers *)

Lemma inv_trigger p o e err a w : win_inv w -> sockets w !! p = Some o -> win_inv (exec (SockTriggerEvent p e err a) w).
Proof.
  intros Hi Hp. apply wp_exec. unfold SockTriggerEvent. wp_step. apply (wp_read_socket p o); [done|].
  wp_step; [by wp_step|]. apply Z.eqb_neq in H. pose proof (wi_handles w Hi p o Hp H).
  pose proof (index_bounds w p o (wi_table w Hi) Hp).
  wp_step; apply wp_exec; (apply inv_post; [done|]).
  - simpl. lia.
  - apply notify_indexed. lia.
Qed.

Lemma inv_layer_trigger p o l e err t a w : win_inv w -> sockets w !! p = Some o ->
  win_inv (exec (LayerTrigger p l e err t a) w).
Proof.
  intros Hi Hp. apply wp_exec. unfold LayerTrigger. wp_step. apply (wp_read_socket p o); [done|].
  wp_step; [by wp_step|]. apply Z.eqb_neq in H. pose proof (wi_handles w Hi p o Hp H).
  pose proof (index_bounds w p o (wi_table w Hi) Hp).
  apply wp_exec; (apply inv_post; [done|]). simpl. lia.
Qed.

(** *** Dispatching *)

(** What the message [m] may be dispatched to: an object that is there, that has
    the slot or waits for the lookup, and that has the handle. *)
Definition addressed (w : window) (m : message) (d : dispatched) : Prop :=
  match d, m with
  | DLayer l _ _ s, WmNotify i h _ s' => s = s' /\ exists p o, sockets w !! p = Some o /\
      nSocketIndex o = i /\ hSocket o = h /\ h <> INVALID_SOCKET /\ last (chain o) = Some l
  | DSocket p _ _ s, WmNotify i h _ s' => s = s' /\ exists o, sockets w !! p = Some o /\
      nSocketIndex o = i /\ hSocket o = h /\ h <> INVALID_SOCKET /\ chain o = []
  | DLayer l _ _ s, WmTrigger p i _ (Some l') s' => s = s' /\ l = l' /\ exists o, sockets w !! p = Some o /\
      nSocketIndex o = i /\ hSocket o <> INVALID_SOCKET
  | DStray l, WmTrigger p i _ (Some l') s' => layer_owned w l = false /\ l = l' /\ exists o, sockets w !! p = Some o /\
      nSocketIndex o = i /\ hSocket o <> INVALID_SOCKET
  | DSocket p _ _ s, WmTrigger p' i _ None s' => s = s' /\ p = p' /\ exists o, sockets w !! p = Some o /\
      nSocketIndex o = i /\ hSocket o <> INVALID_SOCKET
  | DResolved p _ _, WmGetHost h _ => exists o, sockets w !! p = Some o /\
      m_hAsyncGetHostByNameHandle o = h /\ h <> 0
  | _, _ => False
  end.

(** Only a finished lookup changes anything but the queue. *)
Definition unmoved (w w' : window) : Prop :=
  queue w' = queue w /\ selected w' = selected w /\ table w' = table w /\
  forall p o', sockets w' !! p = Some o' -> exists o, sockets w !! p = Some o /\ same_place o o' /\ chain o' = chain o.

Definition dispatching (w : window) (m : message) (w' : window) : Prop :=
  win_inv w' /\ unmoved w w' /\ exists ds, dispatches w' = dispatches w ++ ds /\ Forall (addressed w m) ds.

Lemma unmoved_refl w : unmoved w w.
Proof. split_and!; [done..|]. intros p o' Hp. exists o'. by split_and!. Qed.

Lemma unmoved_emit w d : unmoved w (set_dispatches d w).
Proof. split_and!; [done..|]. intros p o' Hp. exists o'. by split_and!. Qed.

Lemma dispatching_none w m : win_inv w -> dispatching w m w.
Proof. intros Hi. split_and!; [done|apply unmoved_refl|]. exists []. by rewrite app_nil_r. Qed.

Lemma inv_emit w d : win_inv w -> harmless d = true -> win_inv (set_dispatches (dispatches w ++ [d]) w).
Proof. intros [Hw Hs Hh] Hd. split; [by apply ok_emit|done..]. Qed.

Lemma wp_emit_addressed w m d : win_inv w -> harmless d = true -> addressed w m d ->
  wp (emit d) (fun _ => dispatching w m) w.
Proof.
  intros Hi Hd Ha. unfold emit. wp_step. split_and!; [by apply inv_emit|apply unmoved_emit|].
  exists [d]. split; [done|]. by constructor.
Qed.

Lemma slot_index w i p : table_ok w -> slot (table w) i = Some p ->
  exists o, sockets w !! p = Some o /\ nSocketIndex o = Z.of_nat i.
Proof. intros Hw. apply (t_slots w Hw). Qed.

Lemma wp_on_notify i h lp s w : win_inv w -> 0 <= i ->
  wp (on_notify i h lp s) (fun _ => dispatching w (WmNotify i h lp s)) w.
Proof.
  intros Hi Hix. pose proof (wi_table w Hi) as Hw. unfold on_notify. wp_step. wp_step.
  wp_step; [wp_step; by apply dispatching_none|].
  destruct (slot (table w) (Z.to_nat i)) as [p|] eqn:Hs; [|wp_step; by apply dispatching_none].
  destruct (slot_index w _ p Hw Hs) as (o & Hp & Ho). rewrite Z2Nat.id in Ho by done.
  wp_step; [wp_step; by apply dispatching_none|]. apply Z.eqb_neq in H0.
  wp_step. apply (wp_read_socket p o); [done|]. wp_step; [wp_step; by apply dispatching_none|].
  apply negb_false_iff, Z.eqb_eq in H1. destruct (last (chain o)) as [l|] eqn:El.
  - apply wp_emit_addressed; [done..|]. simpl. split; [done|]. exists p, o. by split_and!.
  - apply last_None in El. wp_step; [|by apply dispatching_none]. apply wp_emit_addressed; [done..|].
    simpl. split; [done|]. exists o. by split_and!.
Qed.

Lemma wp_on_trigger p i le pl s w : win_inv w -> 0 <= i < Z.of_nat (length (table w)) ->
  wp (on_trigger p i le pl s) (fun _ => dispatching w (WmTrigger p i le pl s)) w.
Proof.
  intros Hi Hix. pose proof (wi_table w Hi) as Hw. unfold on_trigger. wp_step. unfold IsSocketValid. wp_step. wp_step.
  unfold m_nWindowDataSize. rewrite Z.rem_small by done. wp_step; [apply Z.ltb_lt in H; lia|].
  wp_step. wp_step; [wp_step; by apply dispatching_none|].
  apply negb_false_iff, bool_decide_eq_true in H0. destruct (slot_index w _ p Hw H0) as (o & Hp & Ho).
  rewrite Z2Nat.id in Ho by lia. wp_step. apply (wp_read_socket p o); [done|]. wp_step; [wp_step; by apply dispatching_none|].
  apply Z.eqb_neq in H1. destruct pl as [l|].
  - wp_step. wp_step. destruct (layer_owned w l) eqn:E; (apply wp_emit_addressed; [done..|]); simpl;
      (split_and!; [done..|]); exists o; by split_and!.
  - wp_step; [|by apply dispatching_none]. apply wp_emit_addressed; [done..|]. simpl. split_and!; [done..|].
    exists o. by split_and!.
Qed.

Lemma waiting_for_some w h t p : (forall i q, slot t i = Some q -> is_Some (sockets w !! q)) ->
  waiting_for w h t = Some p -> exists o, sockets w !! p = Some o /\ m_hAsyncGetHostByNameHandle o = h /\ h <> 0.
Proof.
  induction t as [|[q|] t IH]; intros Hl Hf; simpl in Hf; [done| |].
  - destruct (Hl 0%nat q eq_refl) as [o Ho]. rewrite Ho in Hf.
    destruct (negb (m_hAsyncGetHostByNameHandle o =? 0) && (m_hAsyncGetHostByNameHandle o =? h)) eqn:E.
    + simplify_eq. apply andb_true_iff in E as [E1%negb_true_iff%Z.eqb_neq E2%Z.eqb_eq]. exists o. split_and!; congruence.
    + apply IH; [|done]. intros i r Hs. apply (Hl (S i) r Hs).
  - apply IH; [|done]. intros i r Hs. apply (Hl (S i) r Hs).
Qed.

Lemma inv_lookup w p o b port d : win_inv w -> sockets w !! p = Some o -> harmless d = true ->
  win_inv (set_sockets (<[p := with_lookup b 0 port o]> (sockets w)) (set_dispatches (dispatches w ++ [d]) w)).
Proof.
  intros Hi Hp Hd. destruct (inv_emit w d Hi Hd) as [Hw Hs Hh]. split; [|done|].
  - apply (ok_write _ p (with_lookup b 0 port) o Hw); [done|]. split_and!; [done|apply (t_index w (wi_table w Hi) p o Hp)|done].
  - intros q o' Hq. cbn in Hq. apply lookup_insert_Some in Hq as [[<- <-]|[_ Hq]]; [exact (Hh p o Hp)|by apply (Hh q)].
Qed.

Lemma wp_on_gethost h lp r c w : win_inv w ->
  wp (on_gethost h lp r c) (fun _ => dispatching w (WmGetHost h lp)) w.
Proof.
  intros Hi. pose proof (wi_table w Hi) as Hw. unfold on_gethost. wp_step. wp_step.
  destruct (waiting_for w h (table w)) as [p|] eqn:Hf; [|wp_step; by apply dispatching_none].
  apply waiting_for_some in Hf as (o & Hp & Hh & Hh0); [|intros i q Hs; by destruct (slot_index w i q Hw Hs) as (o & -> & _)].
  assert (Ha : forall e, addressed w (WmGetHost h lp) (DResolved p (m_nAsyncGetHostByNamePort o) e)).
  { intros e. exists o. by split_and!. }
  wp_step. apply (wp_read_socket p o); [done|]. wp_step; [by apply wp_emit_addressed|].
  wp_step. { apply negb_true_iff in H0. rewrite (t_lookup w Hw p o Hp) in H0; [done|congruence]. }
  wp_step; [wp_step; by apply dispatching_none|].
  wp_step. unfold emit. wp_step. wp_step.
  set (f := fun o0 => with_lookup false 0 (m_nAsyncGetHostByNamePort o0) o0).
  apply (wp_write p f o); [done|]. set (w1 := set_sockets _ _).
  assert (Hi1 : win_inv w1).
  { exact (inv_lookup w p o false (m_nAsyncGetHostByNamePort o) (DResolved p (m_nAsyncGetHostByNamePort o) 0) Hi Hp eq_refl). }
  assert (Hu1 : unmoved w w1).
  { split_and!; [done..|]. intros q o' Hq. cbn in Hq. apply lookup_insert_Some in Hq as [[<- <-]|[_ Hq]]; [by exists o|].
    exists o'. by split_and!. }
  wp_step; [wp_step|].
  - split_and!; [by apply inv_emit|exact Hu1|]. exists [DResolved p (m_nAsyncGetHostByNamePort o) 0; DResolved p (m_nAsyncGetHostByNamePort o) c].
    split; [cbn; by rewrite <- app_assoc|by repeat (apply Forall_cons_2; [apply Ha|])].
  - split_and!; [done|exact Hu1|]. exists [DResolved p (m_nAsyncGetHostByNamePort o) 0]. split; [done|by repeat (apply Forall_cons_2; [apply Ha|])].
Qed.

Lemma wp_WindowProc m r c w : win_inv w -> indexed (length (table w)) m ->
  wp (WindowProc r c m) (fun _ => dispatching w m) w.
Proof.
  intros Hi Hm. destruct m as [i h lp s|p i le pl s|h lp]; simpl in *.
  - apply wp_on_notify; [done|lia].
  - by apply wp_on_trigger.
  - by apply wp_on_gethost.
Qed.

(** *** Every step *)

Lemma inv_queue w q : win_inv w -> Forall (indexed (length (table w))) q -> win_inv (set_queue q w).
Proof. intros [Hw Hs Hh] Hq. split; [by apply ok_queue|done..]. Qed.

Lemma wp_pump_message r c w : win_inv w ->
  wp (pump_message r c) (fun _ w' => match queue w with
                                     | [] => w' = w
                                     | m :: q => dispatching (set_queue q w) m w'
                                     end) w.
Proof.
  intros Hi. unfold pump_message. wp_step. wp_step. pose proof (t_queue w (wi_table w Hi)) as Hq.
  destruct (queue w) as [|m q]; [by wp_step|]. wp_step. wp_step. inversion Hq; subst.
  apply wp_WindowProc; [by apply inv_queue|done].
Qed.

Lemma inv_new_socket w p : win_inv w -> sockets w !! p = None -> (size (sockets w) < MAX_SOCKETS)%nat ->
  win_inv (set_sockets (<[p := new_socket]> (sockets w)) w).
Proof.
  intros [[] Hs Hh] Hp Hsz. split; [split|done|]; cbn; try assumption.
  - rewrite map_size_insert_None by done. lia.
  - intros i q Hq. destruct (t_slots i q Hq) as (o & E & Ho). exists o. rewrite lookup_insert_ne; [done|congruence].
  - intros q o' Hq. apply lookup_insert_Some in Hq as [[<- <-]|[_ Hq]]; [done|by apply t_index].
  - intros q o' Hq. apply lookup_insert_Some in Hq as [[<- <-]|[_ Hq]]; [done|by apply (t_lookup q)].
  - intros q o' Hq. cbn in Hq. apply lookup_insert_Some in Hq as [[<- <-]|[_ Hq]]; [done|by apply (Hh q)].
Qed.

Lemma inv_step w w' : win_inv w -> win_step w w' -> win_inv w'.
Proof.
  intros Hi Hstep. pose proof (wi_table w Hi) as Hw. destruct Hstep.
  - by apply inv_new_socket.
  - by eapply inv_deleted.
  - eapply outcome_inv; [done..|]. apply wp_exec. by apply wp_SockAttach.
  - eapply outcome_inv; [done..|]. apply wp_exec. by apply wp_SockDetach.
  - eapply outcome_inv; [done..|]. apply wp_exec. by apply wp_SockCreate.
  - eapply outcome_inv; [done..|]. apply wp_exec. by apply wp_close_outcome.
  - eapply outcome_inv; [done..|]. apply wp_exec. by apply wp_select_outcome.
  - eapply outcome_inv; [done..|]. apply wp_exec. by apply wp_SockAddLayer.
  - eapply outcome_inv; [done..|]. apply wp_exec. by apply wp_ConnectRawByName.
  - by eapply inv_trigger.
  - by eapply inv_layer_trigger.
  - apply inv_post; [done|]. apply notify_indexed. by eapply (wi_selects w Hi).
  - by apply inv_post.
  - apply wp_exec. eapply wp_mono; [by apply wp_pump_message|]. intros ? w1 H.
    destruct (queue w); [by subst|apply H].
Qed.

Lemma win_reachable_inv w : win_reachable w -> win_inv w.
Proof.
  induction 1 as [|w w' _ IH Hstep]; [|by eapply inv_step]. split; [apply ok_new|..].
  - intros h i s Hs. unfold new_window, selected in Hs. by rewrite lookup_empty in Hs.
  - intros p o Hp. unfold new_window, sockets in Hp. by rewrite lookup_empty in Hp.
Qed.

(** ** Messages and the attachment they were posted for *)

(** The checks of the window procedure let [m] through to [o], the object at [p]. *)
Definition aims (p : nat) (o : t_socket) (m : message) : Prop :=
  match m with
  | WmNotify i h _ _ => i = nSocketIndex o /\ h = hSocket o
  | WmTrigger q i _ _ _ => q = p /\ i = nSocketIndex o
  | WmGetHost _ _ => False
  end.

(** [m] was posted for the present attachment of [o], and its layer is one of [o]'s. *)
Definition meant (o : t_socket) (m : message) : Prop :=
  match m with
  | WmNotify _ _ _ s => s = serial o
  | WmTrigger _ _ _ pl s => s = serial o /\ (forall l, pl = Some l -> In l (chain o))
  | WmGetHost _ _ => True
  end.

Definition settled (w : window) (p : nat) (o : t_socket) : Prop :=
  (forall m, In m (queue w) -> aims p o m -> meant o m) /\
  (forall s, selected w !! hSocket o = Some (nSocketIndex o, s) -> s = serial o).

Definition right (w : window) : Prop :=
  forall p o, sockets w !! p = Some o -> nSocketIndex o <> -1 -> settled w p o.

(** A socket that gets its slot in this step is not one that messages still
    name: none in the queue has its address, or its handle, with that slot. *)
Definition prompt (w w' : window) : Prop :=
  forall p o', sockets w' !! p = Some o' -> nSocketIndex o' <> -1 ->
    (forall o, sockets w !! p = Some o -> ~ same_place o o') ->
    (forall m, In m (queue w) -> ~ aims p o' m) /\
    (forall s, selected w !! hSocket o' <> Some (nSocketIndex o', s)).

Inductive prompt_reachable : window -> Prop :=
  | prompt_new : prompt_reachable new_window
  | prompt_more w w' : prompt_reachable w -> win_step w w' -> prompt w w' -> prompt_reachable w'.

Lemma prompt_is_reachable w : prompt_reachable w -> win_reachable w.
Proof. induction 1; [constructor|by eapply win_more]. Qed.

(** No two objects have a slot together. *)
Lemma one_slot w p q o1 o2 : table_ok w -> sockets w !! p = Some o1 -> sockets w !! q = Some o2 ->
  nSocketIndex o1 <> -1 -> nSocketIndex o1 = nSocketIndex o2 -> p = q.
Proof.
  intros Hw Hp Hq Hne E. destruct (t_index w Hw p o1 Hp Hne) as (_ & H1 & _).
  destruct (t_index w Hw q o2 Hq) as (_ & H2 & _); congruence.
Qed.

#[local] Instance same_place_dec o o' : Decision (same_place o o').
Proof. unfold same_place. apply _. Defined.

Lemma right_outcome p o w w' : right w -> sockets w !! p = Some o -> outcome p o w w' -> prompt w w' -> right w'.
Proof.
  intros Hr Hp (Hw' & o' & Hm & Hc & Hk & _) Hpr q o2 Hq Hne.
  pose proof Hq as Hq'. rewrite (mv_sockets _ _ _ _ Hm) in Hq. unfold settled. rewrite (mv_queue _ _ _ _ Hm).
  apply lookup_insert_Some in Hq as [[<- <-]|[Hqp Hq]].
  - destruct (decide (same_place o o')) as [(E1 & E2 & E3)|Hns].
    + destruct Hc as [Hc|?]; [|done]. destruct (Hr p o Hp) as [R1 R2]; [congruence|]. split.
      * intros m Hin Ha. destruct m; simpl in *; rewrite ?E1, ?E2, ?E3, ?Hc in *; specialize (R1 _ Hin Ha); exact R1.
      * intros s Hs. apply (mv_selected _ _ _ _ Hm) in Hs as [Hs|(_ & _ & ->)]; [|done].
        rewrite E1, E2 in Hs. rewrite E3. by apply R2.
    + destruct (Hpr p o' Hq' Hne) as [P1 P2]; [intros o0 Ho0; congruence|]. split.
      * intros m Hin Ha. by destruct (P1 m Hin).
      * intros s Hs. apply (mv_selected _ _ _ _ Hm) in Hs as [Hs|(_ & _ & ->)]; [by destruct (P2 s)|done].
  - destruct (Hr q o2 Hq Hne) as [R1 R2]. split; [done|]. intros s Hs.
    apply (mv_selected _ _ _ _ Hm) in Hs as [Hs|(_ & E & _)]; [by apply R2|].
    destruct Hqp. eapply one_slot; [exact Hw'|by eapply moved_lookup|exact Hq'|congruence|done].
Qed.

(** Posting [m]. *)
Lemma right_post w m a : right w -> (forall p o, sockets w !! p = Some o -> nSocketIndex o <> -1 -> aims p o m -> meant o m) ->
  right (exec (post m a) w).
Proof.
  intros Hr Hm. unfold post. destruct a; cbn; [|done]. intros p o Hp Hne. destruct (Hr p o Hp Hne) as [R1 R2].
  split; [|exact R2]. intros m' Hin Ha. cbn in Hin. apply in_app_or in Hin as [Hin|[<-|[]]]; [by apply R1|by apply (Hm p)].
Qed.

Lemma right_unmoved w q w' : right w -> (forall m, In m q -> In m (queue w)) -> unmoved (set_queue q w) w' -> right w'.
Proof.
  intros Hr Hq (U1 & U2 & U3 & U4) p o' Hp Hne. destruct (U4 p o' Hp) as (o & Ho & (E1 & E2 & E3) & Hc).
  destruct (Hr p o Ho) as [R1 R2]; [congruence|]. cbn in *. unfold settled. rewrite U1, U2. split.
  - intros m Hin Ha. specialize (R1 m (Hq m Hin)). destruct m; simpl in *; rewrite ?E1, ?E2, ?E3, ?Hc in *; by apply R1.
  - intros s Hs. rewrite E1, E2 in Hs. rewrite E3. by apply R2.
Qed.

Lemma layer_before_in l c : forall prev x, layer_before l prev c = Some x -> prev = Some x \/ In x c.
Proof.
  induction c as [|y c IH]; intros prev x Hx; simpl in *; [done|].
  destruct (bool_decide (y = l)); [by left|]. apply IH in Hx as [[= ->]|]; auto.
Qed.

Lemma right_deleted p o w : win_inv w -> right w -> sockets w !! p = Some o -> right (exec (DeleteSocket p) w).
Proof.
  intros Hi Hr Hp. apply wp_exec. unfold DeleteSocket. wp_step.
  eapply wp_mono; [by apply wp_SockClose, Hp; apply Hi|]. intros _ w1 (Hw1 & o1 & Hm1 & [Hi1 _] & _). wp_step.
  intros q o2 Hq Hne. cbn in Hq. apply lookup_delete_Some in Hq as [Hpq Hq].
  pose proof Hq as Hq'. rewrite (mv_sockets _ _ _ _ Hm1), lookup_insert_ne in Hq by done.
  destruct (Hr q o2 Hq Hne) as [R1 R2]. split; cbn; [by rewrite (mv_queue _ _ _ _ Hm1)|].
  intros s Hs. apply (mv_selected _ _ _ _ Hm1) in Hs as [Hs|(_ & E & _)]; [by apply R2|congruence].
Qed.

Lemma right_trigger p o e err a w : win_inv w -> right w -> sockets w !! p = Some o ->
  right (exec (SockTriggerEvent p e err a) w).
Proof.
  intros Hi Hr Hp. apply wp_exec. unfold SockTriggerEvent. wp_step. apply (wp_read_socket p o); [done|].
  wp_step; [by wp_step|]. wp_step; apply wp_exec; (apply right_post; [done|]); intros q o2 Hq Hne.
  - intros [-> _]. simplify_eq. by split.
  - unfold notify. destruct (nSocketIndex o =? -1); [done|]. intros [E _]. simpl.
    assert (q = p) as -> by (eapply one_slot; [apply (wi_table w Hi)|exact Hq|exact Hp|done|done]). by simplify_eq.
Qed.

Lemma right_layer_trigger p o l e err t a w : right w -> sockets w !! p = Some o -> In l (chain o) ->
  right (exec (LayerTrigger p l e err t a) w).
Proof.
  intros Hr Hp Hl. apply wp_exec. unfold LayerTrigger. wp_step. apply (wp_read_socket p o); [done|].
  wp_step; [by wp_step|]. apply wp_exec; (apply right_post; [done|]); intros q o2 Hq Hne [-> _]. simplify_eq.
  split; [done|]. intros x Hx. destruct t; [|by simplify_eq]. by apply layer_before_in in Hx as [|].
Qed.

Lemma right_step w w' : win_inv w -> right w -> win_step w w' -> prompt w w' -> right w'.
Proof.
  intros Hi Hr Hstep Hpr. pose proof (wi_table w Hi) as Hw. destruct Hstep.
  - intros q o' Hq Hne. cbn in Hq. apply lookup_insert_Some in Hq as [[<- <-]|[_ Hq]]; [done|]. by apply (Hr q o').
  - by eapply right_deleted.
  - eapply right_outcome; [done..| |done]. apply wp_exec. by apply wp_SockAttach.
  - eapply right_outcome; [done..| |done]. apply wp_exec. by apply wp_SockDetach.
  - eapply right_outcome; [done..| |done]. apply wp_exec. by apply wp_SockCreate.
  - eapply right_outcome; [done..| |done]. apply wp_exec. by apply wp_close_outcome.
  - eapply right_outcome; [done..| |done]. apply wp_exec. by apply wp_select_outcome.
  - eapply right_outcome; [done..| |done]. apply wp_exec. by apply wp_SockAddLayer.
  - eapply right_outcome; [done..| |done]. apply wp_exec. by apply wp_ConnectRawByName.
  - by eapply right_trigger.
  - by eapply right_layer_trigger.
  - apply right_post; [done|]. intros p o Hp Hne. unfold notify. destruct (i =? -1); [done|]. intros [E1 E2]. simpl.
    destruct (Hr p o Hp Hne) as [_ R2]. apply R2. congruence.
  - by apply right_post.
  - apply wp_exec. eapply wp_mono; [by apply wp_pump_message|]. intros ? w1 H.
    destruct (queue w) as [|m q] eqn:Eq; [by subst|]. destruct H as (_ & Hu & _).
    eapply (right_unmoved w q); [done| |done]. rewrite Eq. by right.
Qed.

Lemma prompt_right w : prompt_reachable w -> win_inv w /\ right w.
Proof.
  induction 1 as [|w w' H [Hi Hr] Hs Hp].
  - split; [apply win_reachable_inv, win_new|]. intros p o Hp. unfold new_window, sockets in Hp. by rewrite lookup_empty in Hp.
  - split; [by eapply inv_step|by eapply right_step].
Qed.

(** The object that gets the event is there, it is the one the message was
    posted for, attached as it was then, and the layer is one of its layers. *)
Definition delivered (w : window) (d : dispatched) : Prop :=
  match d with
  | DLayer l _ _ s => exists p o, sockets w !! p = Some o /\ hSocket o <> INVALID_SOCKET /\ serial o = s /\ In l (chain o)
  | DSocket p _ _ s => exists o, sockets w !! p = Some o /\ hSocket o <> INVALID_SOCKET /\ serial o = s
  | DResolved p _ _ => exists o, sockets w !! p = Some o /\ m_hAsyncGetHostByNameHandle o <> 0
  | DStray _ | DDead _ | DNull | DOutside => False
  end.

Lemma owned_in w p o l : sockets w !! p = Some o -> In l (chain o) -> layer_owned w l = true.
Proof.
  intros Hp Hl. apply existsb_exists. exists (p, o). split.
  - by apply list_elem_of_In, elem_of_map_to_list.
  - by apply bool_decide_eq_true, list_elem_of_In.
Qed.

Lemma addressed_delivered w m q d : win_inv w -> right w -> queue w = m :: q ->
  addressed (set_queue q w) m d -> delivered w d.
Proof.
  intros Hi Hr Hq Ha. assert (Hin : In m (queue w)) by (rewrite Hq; by left).
  assert (Hok : forall p o, sockets w !! p = Some o -> hSocket o <> INVALID_SOCKET -> aims p o m -> meant o m).
  { intros p o Hp Hh. apply (Hr p o Hp); [by apply (wi_handles w Hi p)|done]. }
  destruct d as [l e err s|p e err s|p port err|l| | |]; destruct m as [i h lp s'|p' i le pl s'|h lp]; try done; simpl in Ha.
  - destruct Ha as (-> & p & o & Hp & Hix & Hh & Hv & Hl). exists p, o. split_and!; [done|congruence| |].
    + symmetry. apply (Hok p o Hp); [congruence|]. by split.
    + apply list_elem_of_In. by apply last_Some_elem_of in Hl.
  - destruct pl as [l'|]; [|done]. destruct Ha as (-> & -> & o & Hp & Hix & Hv).
    destruct (Hok p' o Hp Hv) as [-> Hl]; [by split|]. exists p', o. split_and!; auto.
  - destruct Ha as (-> & o & Hp & Hix & Hh & Hv & Hc). exists o. split_and!; [done|congruence|].
    symmetry. apply (Hok p o Hp); [congruence|]. by split.
  - destruct pl as [l'|]; [done|]. destruct Ha as (-> & -> & o & Hp & Hix & Hv).
    destruct (Hok p' o Hp Hv) as [-> _]; [by split|]. by exists o.
  - destruct Ha as (o & Hp & <- & Hh). by exists o.
  - destruct pl as [l'|]; [|done]. destruct Ha as (Hno & -> & o & Hp & Hix & Hv).
    destruct (Hok p' o Hp Hv) as [_ Hl]; [by split|]. change (layer_owned w l' = false) in Hno.
    by rewrite (owned_in w p' o l' Hp (Hl l' eq_refl)) in Hno.
Qed.

(** ** Layers that are gone *)

Definition kept (d : dispatched) : bool := match d with DStray _ => false | _ => true end.

Lemma kept_post w m a : dispatches (exec (post m a) w) = dispatches w.
Proof. unfold post. by destruct a. Qed.

Lemma kept_outcome p o w w' : outcome p o w w' -> dispatches w' = dispatches w.
Proof. intros (_ & o' & Hm & _). apply (mv_dispatches _ _ _ _ Hm). Qed.

Lemma kept_deleted p o w : win_inv w -> sockets w !! p = Some o -> dispatches (exec (DeleteSocket p) w) = dispatches w.
Proof.
  intros Hi Hp. apply (wp_exec _ (fun w' => dispatches w' = dispatches w)). unfold DeleteSocket. wp_step.
  eapply wp_mono; [by apply wp_SockClose, Hp; apply Hi|]. intros _ w1 (_ & o1 & Hm1 & _). wp_step.
  apply (mv_dispatches _ _ _ _ Hm1).
Qed.

Lemma kept_trigger p o e err a w : sockets w !! p = Some o -> dispatches (exec (SockTriggerEvent p e err a) w) = dispatches w.
Proof.
  intros Hp. apply (wp_exec _ (fun w' => dispatches w' = dispatches w)). unfold SockTriggerEvent. wp_step.
  apply (wp_read_socket p o); [done|]. wp_step; [by wp_step|]. wp_step; apply wp_exec, kept_post.
Qed.

Lemma kept_layer_trigger p o l e err t a w : sockets w !! p = Some o ->
  dispatches (exec (LayerTrigger p l e err t a) w) = dispatches w.
Proof.
  intros Hp. apply (wp_exec _ (fun w' => dispatches w' = dispatches w)). unfold LayerTrigger. wp_step.
  apply (wp_read_socket p o); [done|]. wp_step; [by wp_step|]. apply wp_exec, kept_post.
Qed.

Lemma kept_pump r c w : win_inv w -> right w -> exists ds,
  dispatches (exec (pump_message r c) w) = dispatches w ++ ds /\ Forall (delivered w) ds.
Proof.
  intros Hi Hr. apply (wp_exec _ (fun w' => exists ds, dispatches w' = dispatches w ++ ds /\ Forall (delivered w) ds)).
  eapply wp_mono; [by apply wp_pump_message|]. intros ? w1 H. destruct (queue w) as [|m q] eqn:Eq.
  - subst w1. exists []. by rewrite app_nil_r.
  - destruct H as (_ & _ & ds & Hds & Ha). exists ds. split; [done|]. eapply Forall_impl; [exact Ha|].
    intros d Hd. by eapply addressed_delivered.
Qed.

Lemma kept_step w w' : win_inv w -> right w -> win_step w w' ->
  forallb kept (dispatches w) = true -> forallb kept (dispatches w') = true.
Proof.
  intros Hi Hr Hstep Hk. pose proof (wi_table w Hi) as Hw. destruct Hstep.
  - done.
  - by erewrite kept_deleted.
  - erewrite kept_outcome; [done|]. apply wp_exec. by apply wp_SockAttach.
  - erewrite kept_outcome; [done|]. apply wp_exec. by apply wp_SockDetach.
  - erewrite kept_outcome; [done|]. apply wp_exec. by apply wp_SockCreate.
  - erewrite kept_outcome; [done|]. apply wp_exec. by apply wp_close_outcome.
  - erewrite kept_outcome; [done|]. apply wp_exec. by apply wp_select_outcome.
  - erewrite kept_outcome; [done|]. apply wp_exec. by apply wp_SockAddLayer.
  - erewrite kept_outcome; [done|]. apply wp_exec. by apply wp_ConnectRawByName.
  - by erewrite kept_trigger.
  - by erewrite kept_layer_trigger.
  - by rewrite kept_post.
  - by rewrite kept_post.
  - destruct (kept_pump r c w Hi Hr) as (ds & -> & Hds). rewrite forallb_app, Hk. apply forallb_forall.
    intros d Hd. rewrite Forall_forall in Hds. specialize (Hds d). rewrite list_elem_of_In in Hds. by destruct d; try destruct (Hds Hd).
Qed.

Lemma prompt_kept w : prompt_reachable w -> forallb kept (dispatches w) = true.
Proof.
  induction 1 as [|w w' H IH Hs Hp]; [done|]. destruct (prompt_right w H) as [Hi Hr]. by eapply kept_step.
Qed.

(** C8: Whatever is created, closed, deleted and posted, in any order, the
    table stays an injection of the attached objects into the slots with the
    right count, and no message makes the procedure read a socket object that
    is gone, a missing buffer or a place outside the table.  A trigger also
    names a layer, by its address alone: the event goes to a layer that some
    socket still has, provided that no socket is given a slot that waiting
    messages still name together with its address or handle ([prompt]).
    Without that proviso it can go to a layer that is gone
    ([stale_trigger_reaches_old_layer]). *)
Theorem helper_window_sound w :
  win_reachable w -> window_sound w /\ (prompt_reachable w -> forallb kept (dispatches w) = true).
Proof. intros Hr. split; [|apply prompt_kept]. apply table_ok_sound, wi_table. by apply win_reachable_inv. Qed.

(** C9: Where no socket gets a slot that messages still name with its address or its
    handle. *)
Theorem messages_reach_their_socket w r c : prompt_reachable w ->
  exists ds, dispatches (exec (pump_message r c) w) = dispatches w ++ ds /\ Forall (delivered w) ds.
Proof. intros [Hi Hr]%prompt_right. by apply kept_pump. Qed.

(** ** Runs *)

Inductive win_op :=
  | ONew (p : nat) | ODelete (p : nat) | OAttach (p : nat) (h lEvent : Z) | OCreate (p : nat) (h lEvent : Z)
  | OLayer (p l : nat) | OLayerTrigger (p l : nat) (lEvent nErrorCode : Z) (bPassThrough : bool)
  | OWinsock (h lParam : Z) | ODispatch.

Definition apply_op (op : win_op) (w : window) : option window :=
  match op with
  | ONew p => if bool_decide (sockets w !! p = None) && (Z.of_nat (size (sockets w)) <? 47869)
              then Some (set_sockets (<[p := new_socket]> (sockets w)) w) else None
  | ODelete p => match sockets w !! p with Some _ => Some (exec (DeleteSocket p) w) | None => None end
  | OAttach p h e => match sockets w !! p with Some _ => Some (exec (SockAttach p h e true) w) | None => None end
  | OCreate p h e => match sockets w !! p with Some _ => Some (exec (SockCreate p h e true true true) w) | None => None end
  | OLayer p l => match sockets w !! p with Some _ => Some (exec (SockAddLayer p l) w) | None => None end
  | OLayerTrigger p l e err t =>
      match sockets w !! p with
      | Some o => if bool_decide (l ∈ chain o) then Some (exec (LayerTrigger p l e err t true) w) else None
      | None => None
      end
  | OWinsock h lp => match selected w !! h with Some (i, s) => Some (exec (post (notify i h lp s) true) w) | None => None end
  | ODispatch => Some (exec (pump_message true 0) w)
  end.

Fixpoint run (ops : list win_op) (w : window) : option window :=
  match ops with
  | [] => Some w
  | op :: ops => match apply_op op w with Some w' => run ops w' | None => None end
  end.

Lemma apply_op_step op w w' : apply_op op w = Some w' -> win_step w w'.
Proof.
  destruct op as [p|p|p h e|p h e|p l|p l e err t|h lp|]; simpl.
  - destruct (bool_decide _) eqn:E; [|done]. apply bool_decide_eq_true in E. simpl.
    destruct (Z.ltb_spec (Z.of_nat (size (sockets w))) 47869); [|done].
    intros [= <-]. pose proof max_sockets_val. apply W_new; [done|lia].
  - destruct (sockets w !! p) eqn:E; [|done]. intros [= <-]. by eapply W_delete.
  - destruct (sockets w !! p) eqn:E; [|done]. intros [= <-]. by eapply W_attach.
  - destruct (sockets w !! p) eqn:E; [|done]. intros [= <-]. by eapply W_create.
  - destruct (sockets w !! p) eqn:E; [|done]. intros [= <-]. by eapply W_layer.
  - destruct (sockets w !! p) as [o|] eqn:E; [|done]. destruct (bool_decide _) eqn:El; [|done].
    apply bool_decide_eq_true, list_elem_of_In in El. intros [= <-]. by eapply W_layer_trigger.
  - destruct (selected w !! h) as [[i s]|] eqn:E; [|done]. intros [= <-]. by eapply W_winsock.
  - intros [= <-]. apply W_dispatch.
Qed.

Lemma run_reachable ops : forall w w', run ops w = Some w' -> win_reachable w -> win_reachable w'.
Proof.
  induction ops as [|op ops IH]; intros w w' Hrun Hw; simpl in Hrun; [by simplify_eq|].
  destruct (apply_op op w) as [w1|] eqn:E; [|done]. eapply IH; [done|]. by eapply win_more, apply_op_step.
Qed.

(** The same with the condition of [prompt] checked. *)
Definition aimsb (p : nat) (o : t_socket) (m : message) : bool :=
  match m with
  | WmNotify i h _ _ => (i =? nSocketIndex o) && (h =? hSocket o)
  | WmTrigger q i _ _ _ => (q =? p)%nat && (i =? nSocketIndex o)
  | WmGetHost _ _ => false
  end.

Definition promptb (w w' : window) : bool :=
  forallb (fun '(p, o') =>
    (nSocketIndex o' =? -1)
    || match sockets w !! p with Some o => bool_decide (same_place o o') | None => false end
    || (forallb (fun m => negb (aimsb p o' m)) (queue w)
        && match selected w !! hSocket o' with Some (i, _) => negb (i =? nSocketIndex o') | None => true end))
    (map_to_list (sockets w')).

Lemma promptb_prompt w w' : promptb w w' = true -> prompt w w'.
Proof.
  unfold promptb. rewrite forallb_forall. intros Hb p o' Hp Hne Hold.
  specialize (Hb (p, o')). rewrite <- list_elem_of_In, elem_of_map_to_list in Hb. specialize (Hb Hp). cbn in Hb.
  rewrite (proj2 (Z.eqb_neq _ _) Hne) in Hb. cbn in Hb.
  assert (E : match sockets w !! p with Some o => bool_decide (same_place o o') | None => false end = false).
  { destruct (sockets w !! p) as [o|]; [|done]. apply bool_decide_eq_false. by apply Hold. }
  rewrite E in Hb. cbn in Hb. apply andb_true_iff in Hb as [Hb1 Hb2]. rewrite forallb_forall in Hb1. split.
  - intros m Hin Ha. specialize (Hb1 m Hin). apply negb_true_iff in Hb1. destruct m; simpl in *; [| |done].
    + destruct Ha as [-> ->]. by rewrite !Z.eqb_refl in Hb1.
    + destruct Ha as [-> ->]. by rewrite Nat.eqb_refl, Z.eqb_refl in Hb1.
  - intros s Hs. rewrite Hs in Hb2. by rewrite Z.eqb_refl in Hb2.
Qed.

Fixpoint run_prompt (ops : list win_op) (w : window) : option window :=
  match ops with
  | [] => Some w
  | op :: ops =>
      match apply_op op w with
      | Some w' => if promptb w w' then run_prompt ops w' else None
      | None => None
      end
  end.

Lemma run_prompt_reachable ops : forall w w', run_prompt ops w = Some w' -> prompt_reachable w -> prompt_reachable w'.
Proof.
  induction ops as [|op ops IH]; intros w w' Hrun Hw; simpl in Hrun; [by simplify_eq|].
  destruct (apply_op op w) as [w1|] eqn:E; [|done]. destruct (promptb w w1) eqn:Eb; [|done].
  eapply IH; [done|]. eapply prompt_more; [done|by eapply apply_op_step|by apply promptb_prompt].
Qed.

(** A socket with a layer is created; Winsock says that it is readable, and its
    layer says that it is connected. *)
Definition used : window :=
  default new_window (run_prompt [ONew 3; OLayer 3 7; OCreate 3 40 (FD_READ + FD_CONNECT); OWinsock 40 FD_READ; ODispatch;
    OLayerTrigger 3 7 FD_CONNECT 10061 true] new_window).

Lemma used_prompt : prompt_reachable used.
Proof.
  unfold used. destruct (run_prompt _ new_window) as [w|] eqn:E; [|constructor].
  eapply run_prompt_reachable; [exact E|constructor].
Qed.

Lemma helper_window_sound_witness :
  dispatches (exec (pump_message true 0) used) = [DLayer 7 FD_READ 0 0; DSocket 3 FD_CONNECT 10061 0] /\
  window_sound (exec (pump_message true 0) used) /\
  forallb kept (dispatches (exec (pump_message true 0) used)) = true.
Proof.
  split; [vm_compute; reflexivity|].
  destruct (helper_window_sound (exec (pump_message true 0) used)) as [H1 H2].
  - eapply win_more; [apply prompt_is_reachable, used_prompt|apply W_dispatch].
  - split; [exact H1|]. apply H2. eapply prompt_more; [apply used_prompt|apply W_dispatch|].
    apply promptb_prompt. vm_compute. reflexivity.
Defined.

Lemma messages_reach_their_socket_witness :
  queue used = [WmTrigger 3 0 (16 + 65536 * 10061) None 0] /\
  exists ds, dispatches (exec (pump_message true 0) used) = dispatches used ++ ds /\ Forall (delivered used) ds.
Proof. split; [vm_compute; reflexivity|]. apply (messages_reach_their_socket used true 0). apply used_prompt. Defined.

(** *** A slot that comes around *)

(** A socket with the layer 7; others come and go until the search is back at its
    slot; its layer posts a trigger; it is deleted, and a socket without layers
    is allocated at its address. *)
Definition come_and_go (n : nat) : list win_op := concat (replicate n [ONew 1; OAttach 1 44 FD_READ; ODelete 1]).

Definition around : list win_op :=
  [ONew 0; OLayer 0 7; OCreate 0 40 FD_READ] ++ come_and_go 511 ++
  [OLayerTrigger 0 7 FD_READ 0 false; ODelete 0; ONew 0; OAttach 0 48 FD_READ].

Definition stale : window := default new_window (run around new_window).

Lemma stale_reachable : win_reachable stale.
Proof.
  unfold stale. destruct (run around new_window) as [w|] eqn:E; [|constructor].
  eapply run_reachable; [exact E|constructor].
Qed.

(** The check of slot and address lets a trigger of a deleted socket through to
    a layer that no socket has any more, when its slot and its address are used
    again. *)
Theorem stale_trigger_reaches_old_layer :
  exists w l, win_reachable w /\
    dispatches (exec (pump_message true 0) w) = dispatches w ++ [DStray l] /\
    forall p o, sockets w !! p = Some o -> ~ In l (chain o).
Proof.
  assert (E : stale = mkWindow {[0%nat := mkSocket 48 0 FD_READ [] false 0 0 512]} (Some 0%nat :: replicate 511 None) 1 1
    [WmTrigger 0 0 FD_READ (Some 7%nat) 0] {[48 := (0, 512%nat)]} 513 []) by (vm_compute; reflexivity).
  exists stale, 7%nat. split; [apply stale_reachable|]. rewrite E. split; [vm_compute; reflexivity|].
  intros p o Hp. cbn in Hp. apply lookup_singleton_Some in Hp as [_ <-]. by intros [].
Qed.
