(* ===== verification/LogQueue.v ===== *)
(** * The log queue of the desktop application (BoundedLogQueue.h)

    Threads log lines; the page (Page2.cpp) is notified and shows them in batches
    on a timer.  Every method of the queue runs under its lock, so a run is a
    sequence of calls.  The queue is bounded: it forgets the oldest line and
    counts it. *)

From S2P Require Import Prelude.

Section Queue.
Context {T : Type}.

Record CBoundedLogQueue := mkQueue {
  m_entries : list T;
  m_capacity : nat;
  m_batchSize : nat;
  m_dropped : nat;
  m_notificationPending : bool
}.

Record Batch := mkBatch { entries : list T; dropped : nat; hasMore : bool }.

(** The constructor asserts that both numbers are positive. *)
Definition new_queue (capacity batchSize : nat) : CBoundedLogQueue := mkQueue [] capacity batchSize 0 false.

(** Whether the window has to be notified. *)
Definition Push (value : T) (q : CBoundedLogQueue) : bool * CBoundedLogQueue :=
  let full := (m_capacity q <=? length (m_entries q))%nat in
  let kept := if full then tail (m_entries q) else m_entries q in
  (negb (m_notificationPending q),
   mkQueue (kept ++ [value]) (m_capacity q) (m_batchSize q) (if full then S (m_dropped q) else m_dropped q) true).

Definition TakeBatch (q : CBoundedLogQueue) : Batch * CBoundedLogQueue :=
  let rest := drop (m_batchSize q) (m_entries q) in
  let more := negb (bool_decide (length rest = 0%nat)) in
  (mkBatch (take (m_batchSize q) (m_entries q)) (m_dropped q) more,
   mkQueue rest (m_capacity q) (m_batchSize q) 0 (m_notificationPending q && more)).

Definition OnNotificationPostFailed (q : CBoundedLogQueue) : CBoundedLogQueue :=
  mkQueue (m_entries q) (m_capacity q) (m_batchSize q) (m_dropped q) false.

Definition Clear (q : CBoundedLogQueue) : CBoundedLogQueue := mkQueue [] (m_capacity q) (m_batchSize q) 0 false.

(** ** The window (Page2.cpp) *)

(** The queue, the messages posted and not yet handled, [m_logTimer], and whether
    the window is inside [ClearAll]; then what was pushed, taken and reported as
    dropped since the last [Clear], and whether the last notification failed. *)
Record log_page := mkPage {
  m_logQueue : CBoundedLogQueue; messages : nat; m_logTimer : bool; clearing : bool;
  pushed : list T; taken : list T; reported : nat; failed : bool
}.

(** [QueueLogText] on any thread, the rest on the thread of the window: the
    message, the timer, and [ClearAll] up to and from the end of its lock.  The
    flags are the answers of PostMessage and SetTimer. *)
Inductive log_call := LQueue (v : T) (ok : bool) | LMessage (ok : bool) | LTimer (ok : bool) | LClear | LKill.

Definition QueueLogText (v : T) (ok : bool) (p : log_page) : log_page :=
  let '(notify, q) := Push v (m_logQueue p) in
  let q := if notify && negb ok then OnNotificationPostFailed q else q in
  mkPage q (if notify && ok then S (messages p) else messages p) (m_logTimer p) (clearing p)
    (pushed p ++ [v]) (taken p) (reported p) (if notify then negb ok else failed p).

Definition ScheduleLogFlush (ok : bool) (p : log_page) : log_page :=
  if m_logTimer p then p
  else if ok then mkPage (m_logQueue p) (messages p) true (clearing p) (pushed p) (taken p) (reported p) (failed p)
  else mkPage (OnNotificationPostFailed (m_logQueue p)) (messages p) false (clearing p) (pushed p) (taken p) (reported p) true.

Definition FlushLogText (ok : bool) (p : log_page) : log_page :=
  let '(batch, q) := TakeBatch (m_logQueue p) in
  let p := mkPage q (messages p) (m_logTimer p) (clearing p) (pushed p) (taken p ++ entries batch)
             (reported p + dropped batch) (failed p) in
  if bool_decide (length (entries batch) = 0%nat) && (dropped batch =? 0)%nat then p
  else if hasMore batch then ScheduleLogFlush ok p else p.

Definition log_step (c : log_call) (p : log_page) : log_page :=
  match c with
  | LQueue v ok => QueueLogText v ok p
  | LMessage ok =>
      if clearing p then p
      else match messages p with
           | O => p
           | S n => ScheduleLogFlush ok (mkPage (m_logQueue p) n (m_logTimer p) false (pushed p) (taken p) (reported p) (failed p))
           end
  | LTimer ok =>
      if clearing p || negb (m_logTimer p) then p
      else FlushLogText ok (mkPage (m_logQueue p) (messages p) false false (pushed p) (taken p) (reported p) (failed p))
  | LClear => mkPage (Clear (m_logQueue p)) (messages p) (m_logTimer p) true [] [] 0 false
  | LKill => if clearing p then mkPage (m_logQueue p) (messages p) false false (pushed p) (taken p) (reported p) (failed p) else p
  end.

Definition log_runs (calls : list log_call) (p : log_page) : log_page := fold_left (fun p c => log_step c p) calls p.

Definition new_page (capacity batchSize : nat) : log_page := mkPage (new_queue capacity batchSize) 0 false false [] [] 0 false.

(** ** What holds of every run *)

Section Bounds.
Context (capacity batchSize : nat) (Hc : (0 < capacity)%nat) (Hb : (0 < batchSize)%nat).

(** What holds of the queue between two calls. *)
Record log_queue_ok (p : log_page) : Prop := {
  qo_capacity : m_capacity (m_logQueue p) = capacity;
  qo_batch : m_batchSize (m_logQueue p) = batchSize;
  qo_size : (length (m_entries (m_logQueue p)) <= capacity)%nat;
  qo_order : taken p ++ m_entries (m_logQueue p) `sublist_of` pushed p;
  qo_count : length (pushed p)
    = (length (taken p) + length (m_entries (m_logQueue p)) + reported p + m_dropped (m_logQueue p))%nat;
  qo_pending : m_entries (m_logQueue p) <> [] -> m_notificationPending (m_logQueue p) = true \/ failed p = true
}.

(** Whoever is owed a notification has one on its way. *)
Definition owed (p : log_page) : Prop :=
  m_notificationPending (m_logQueue p) = true -> (0 < messages p)%nat \/ m_logTimer p = true /\ clearing p = false.

Lemma log_queue_ok_push v ok p : log_queue_ok p -> log_queue_ok (QueueLogText v ok p).
Proof.
  intros [E1 E2 E3 E4 E5 E6]. destruct p as [[l cap n d pe] ms t cl pu ta re fa]; cbn in *. subst cap n.
  unfold QueueLogText, Push. cbn -[Nat.leb].
  assert (Hkept : exists kept lost, (if (capacity <=? length l)%nat then tail l else l) = kept /\ l = lost ++ kept
    /\ (if (capacity <=? length l)%nat then S d else d) = (d + length lost)%nat /\ (length kept < capacity)%nat).
  { destruct (Nat.leb_spec capacity (length l)); [destruct l as [|a l]; cbn in *; [lia|exists l, [a]]|exists l, []];
      split_and!; cbn in *; auto with lia. }
  destruct Hkept as (kept & lost & -> & -> & -> & Hk). rewrite !length_app in *.
  assert (Hsub : ta ++ kept ++ [v] `sublist_of` pu ++ [v]).
  { rewrite app_assoc. apply sublist_app; [|done]. etrans; [|exact E4]. apply sublist_app; [done|]. by apply sublist_inserts_l. }
  destruct pe, ok; cbn; split; cbn; rewrite ?length_app; cbn; auto with lia.
Qed.

Lemma queue_ok_take p : log_queue_ok p ->
  let '(batch, q) := TakeBatch (m_logQueue p) in
  log_queue_ok (mkPage q (messages p) (m_logTimer p) (clearing p) (pushed p) (taken p ++ entries batch)
             (reported p + dropped batch) (failed p)).
Proof.
  intros [E1 E2 E3 E4 E5 E6]. destruct p as [[l cap n d pe] ms t cl pu ta re fa]; cbn in *. subst cap n.
  rewrite <- (take_drop batchSize l) in E3, E4, E5 at 1. rewrite length_app in E3, E5.
  split; cbn; rewrite ?length_app, <- ?app_assoc; auto with lia.
  intros Hr. rewrite bool_decide_false by (by destruct (drop batchSize l)).
  rewrite andb_true_r. apply E6. intros ->. by rewrite drop_nil in Hr.
Qed.

Lemma queue_ok_schedule ok p : log_queue_ok p -> log_queue_ok (ScheduleLogFlush ok p).
Proof. intros []. unfold ScheduleLogFlush. destruct (m_logTimer p), ok; split; cbn; auto. Qed.

Lemma queue_ok_step c p : log_queue_ok p -> log_queue_ok (log_step c p).
Proof.
  intros Hp. destruct c as [v ok|ok|ok| |]; cbn -[TakeBatch].
  - by apply log_queue_ok_push.
  - destruct (clearing p); [done|]. destruct (messages p); [done|]. apply queue_ok_schedule. by destruct Hp.
  - destruct (_ || _); [done|]. unfold FlushLogText. cbn [m_logQueue].
    pose proof (queue_ok_take (mkPage (m_logQueue p) (messages p) false false (pushed p) (taken p) (reported p) (failed p))) as Ht.
    cbn [m_logQueue messages m_logTimer clearing pushed taken reported failed] in *. destruct (TakeBatch _) as [b q].
    specialize (Ht ltac:(by destruct Hp)). destruct (_ && _); [done|]. destruct (hasMore b); [by apply queue_ok_schedule|done].
  - destruct Hp. split; cbn; auto with lia.
  - destruct (clearing p); [|done]. by destruct Hp.
Qed.

Lemma owed_step c p : log_queue_ok p -> owed p -> owed (log_step c p).
Proof.
  intros [E1 E2 E3 E4 E5 E6] Ho. unfold owed in *. destruct p as [[l cap n d pe] ms t cl pu ta re fa]; cbn in *. subst cap n.
  destruct c as [v ok|ok|ok| |]; cbn -[take drop].
  - destruct pe, ok; cbn; auto with lia.
  - destruct cl; [by auto|]. destruct ms as [|ms]; [by auto|]. unfold ScheduleLogFlush. cbn. destruct t, ok; cbn; auto.
  - destruct cl; [by auto|]. destruct t; [|by auto]. cbn -[take drop]. unfold FlushLogText. cbn -[take drop].
    destruct (decide (l = [])) as [->|Hl].
    + rewrite take_nil, drop_nil. destruct (d =? 0)%nat, pe; cbn; intros; discriminate.
    + rewrite (bool_decide_false (length (take batchSize l) = 0%nat)) by (rewrite length_take; destruct l; cbn; [done|lia]). cbn -[take drop].
      destruct (bool_decide (length (drop batchSize l) = 0%nat)); cbn -[take drop]; [destruct pe; cbn; intros; discriminate|].
      unfold ScheduleLogFlush. destruct ok; cbn; auto.
  - done.
  - destruct cl; cbn; [|by auto]. intros ->. destruct (Ho eq_refl) as [|[_ ?]]; [by left|done].
Qed.

Lemma log_runs_ok calls : forall p, log_queue_ok p /\ owed p -> log_queue_ok (log_runs calls p) /\ owed (log_runs calls p).
Proof.
  induction calls as [|c calls IH]; intros p [Hp Ho]; [done|]. apply IH.
  split; [by apply queue_ok_step|by apply owed_step].
Qed.
End Bounds.

(** However threads log, the window flushes and clears, and notifications fail:
    the lines shown, then those that wait, are lines logged since the last clear
    in their order; every other one is counted as dropped, in a warning already
    shown or in the next; at most [capacity] wait; and they wait for a message
    or the timer, unless the last notification failed. *)
Theorem log_lines_accounted capacity batchSize calls : (0 < capacity)%nat -> (0 < batchSize)%nat ->
  let p := log_runs calls (new_page capacity batchSize) in
  let waiting := m_entries (m_logQueue p) in
  taken p ++ waiting `sublist_of` pushed p
  /\ length (pushed p) = (length (taken p ++ waiting) + reported p + m_dropped (m_logQueue p))%nat
  /\ (length waiting <= capacity)%nat
  /\ (waiting <> [] -> failed p = false -> (0 < messages p)%nat \/ m_logTimer p = true /\ clearing p = false).
Proof.
  intros Hc Hb p waiting.
  destruct (log_runs_ok capacity batchSize Hc Hb calls (new_page capacity batchSize)) as [[E1 E2 E3 E4 E5 E6] Ho];
    [by split; [split; cbn; auto with lia|]|].
  rewrite length_app. split_and!; [done..|]. intros Hw Hf. destruct (E6 Hw) as [H|H]; [by apply Ho|].
  unfold p in Hf. congruence.
Qed.
End Queue.

(** Three lines in a queue of two: the first is dropped and reported. *)
Lemma log_lines_accounted_witness :
  let p := log_runs [LQueue 1 true; LQueue 2 true; LQueue 3 true; LMessage true; LTimer true] (new_page 2 1) in
  let waiting := m_entries (m_logQueue p) in
  (taken p = [2] /\ waiting = [3] /\ reported p = 1%nat) /\
  (taken p ++ waiting `sublist_of` pushed p
   /\ length (pushed p) = (length (taken p ++ waiting) + reported p + m_dropped (m_logQueue p))%nat
   /\ (length waiting <= 2)%nat
   /\ (waiting <> [] -> failed p = false -> (0 < messages p)%nat \/ m_logTimer p = true /\ clearing p = false)).
Proof. split; [done|]. apply log_lines_accounted; lia. Defined.
